(* ===== verification/_CoqProject ===== *)
-Q . S2P
Prelude.v
GoTime.v
SequenceData.v
DomainValues.v
SequenceGrid.v
SequenceSpacing.v
SequenceOrder.v
SequencePlacement.v
SequenceAllocation.v
SequenceOptimize.v
SequencePrepare.v
SequenceEngine.v
SequenceExamples.v
SequenceSafety.v
SequenceCommands.v
SequencePolicy.v
SequenceGoAround.v
Lifecycle.v
SequenceQueue.v
VacancySafety.v
SequenceGapFill.v
SequenceRebuild.v
RebuildSafety.v
RunwayCapacity.v
RunwayClosures.v
ReleasePlanner.v
ReleaseSafety.v
GoFloat.v
Bays.v
CdmClock.v
CdmData.v
CdmConfig.v
CdmCalculate.v
CdmSafety.v
CdmMarkers.v
CdmSequence.v
CdmSequenceSafety.v
CdmSequenceStore.v
CdmPass.v
StripOrdering.v
StripRenumber.v
StripOrderSafety.v
CoordinationRequest.v
CoordinationLedger.v
CoordinationFacts.v
CoordinationInvariant.v
CoordinationRevision.v
CoordinationSafety.v
AirportDefinition.v
AirportWorkflow.v
WorkflowEkch.v
WorkflowRadis.v
WorkflowBoard.v
WorkflowFacts.v
WorkflowExamples.v
WorkflowSafety.v
WorkflowBoardSafety.v
