(* ===== verification/Prelude.v ===== *)
(** * FlightStrips: arrivals, departures and the strips of the board

    FlightStrips is the strip system of a virtual air traffic control unit. This
    development models the decision core of its arrival manager (AMAN), the Go
    packages under [src/backend/internal/aman]: which arrival lands on which
    runway at which time, how controllers and holding stacks change that, how a
    flight enters and leaves the sequence, when the runway is withdrawn, and
    when an aircraft leaves its hold; and of its departure management (CDM), the
    package [src/backend/internal/cdm]: when a departure may start up and take
    off; of its strip board, how the strips of a bay are ordered
    ([src/backend/internal/services]) and what a controller's move or a report of
    an aircraft does to a strip ([src/backend/internal/airportworkflow]); and of the
    requests that a flow manager sends to the controllers
    ([src/backend/internal/coordinationrequest]). Names of arrival files below are
    relative to [src/backend/internal/aman], those that begin with [cdm/],
    [models/], [services/], [database/], [shared/], [airportworkflow/], [config/],
    [vatsim/] or [coordinationrequest/] to [src/backend/internal].

    ** The program

    The operational service owns one airport state per airport. Every minute,
    and after every controller command, it reads the state, turns it into a
    calculation input ([sequence.Input]: one policy per runway group and one view
    per flight), runs one of the sequence operations on it, and stores what
    comes back. All decisions are made by pure functions over values:

    - [lifecycle.Reduce] applies evidence about one flight (a prediction, a radar
      track, a controller action, the absence of a track) to its persisted
      aggregate and moves it through its states;
    - [sequence.Generate] computes slots for all flights from scratch: protected
      flights keep theirs, the others are ordered, placed one by one on the
      rate grid around gaps and closures, and locally optimised;
    - [sequence.ApplyMove], [ApplySwap], [ApplyRate], [ApplyManualFreeze],
      [ReleaseManualFreeze] and [ApplyGoAround] are the controller commands: they
      edit the input and generate again, or cascade a go-around through the slots;
    - [GenerateWithVacancyPromotions] moves committed flights into earlier
      vacancies before a calculation, [CalculateQueueOffers] tells which flight
      could take which earlier slot, [fillSTARSpacingGaps] uses the room between
      two arrivals of one stream;
    - [ApplyArrivalSequenceRebuild] rebuilds a disturbed sequence, terminal area
      first, then the holds by holding age, then the rest;
    - [MergeRunwayGap], [NormalizeRunwayGapInterval],
      [NormalizeRunwayClosureInterval] and [CreateCapacityReservation] withdraw
      runway capacity, which the grid of the next calculation leaves out;
    - [release.Plan] offers release times to aircraft in a hold, so that a stream
      reaches the runway spaced.

    The departure side works on the strips of an airport. Whenever a strip or the
    configuration changes, [recalculateAirport] of [cdm/sequence.go] makes one
    pass: it keeps the slots that may be kept, takes the other flights in an order
    of priority, calculates for each ([Calculate] of [cdm/calculate.go]) the first
    take-off time from its base time on that keeps all minima to the slots so
    far, stores the times and broadcasts them.

    On the strip board a controller drops a strip behind another one. The strips of
    a bay, flights and tactical strips alike, are ordered by a number in their
    table; [MoveStripBetween] and [MoveTacticalStripBetween] of
    [services/strip_ordering.go] write a number between the neighbours, and space
    the bay again when there is none.

    What moves a strip from bay to bay is decided by the workflow handler of the
    airport, which its document names: at EKCH departures and arrivals pass through
    a chain of bays, at a RADIS airport controllers place the strips and reports
    only hide and show them. The handler is called for every action of a controller
    and every report of EuroScope, its decisions are validated, and services apply
    them to the row of the strip ([airportworkflow/contracts.go]).

    A flow manager asks the controller who tracks a flight for a speed or a
    procedure. The requests of an airport are rows of a table with one revision
    for the airport; submitting, deciding, expiring, transferring and the report
    that a clearance was given each change some rows and advance the revision
    ([coordinationrequest/]).

    ** The files

    - [Prelude]: outcomes of fallible code ([Ok], [Err], a panic, a loop that does
      not end), bounded and unbounded loops, Go's [sort] package, lists.
    - [GoTime]: Go's [time], [strings] and fixed-width integers.
    - [SequenceData], [DomainValues]: the domain types of [types.go] and the data of
      [sequence/engine.go]; the checks all validation methods share.
    - [SequenceGrid], [SequenceSpacing], [SequenceOrder], [SequencePlacement],
      [SequenceAllocation], [SequenceOptimize], [SequencePrepare],
      [SequenceEngine]: the parts of [sequence/engine.go], [demand.go],
      [optimization.go] and [cph.go] in the order in which a calculation uses
      them. [SequenceExamples] holds concrete inputs, [SequenceSafety] the
      theorems about the whole of [generate].
    - [SequenceCommands], [SequencePolicy], [SequenceGoAround]: [sequence/commands.go],
      [policy.go], [swap.go] and the swap command of [commands.go].
    - [Lifecycle]: [lifecycle/reducer.go].
    - [SequenceQueue], [SequenceGapFill]: [sequence/queue.go], [gap_fill.go],
      [diagnostics.go]. [VacancySafety] holds the theorem about the moves into
      vacancies.
    - [SequenceRebuild], [RebuildSafety]: [sequence/rebuild.go].
    - [RunwayCapacity], [RunwayClosures]: [runway_gap.go],
      [runway_gap_normalization.go], [runway_closure.go],
      [runway_closure_normalization.go], [capacity_reservation.go], the runway-group
      part of [AirportState.Validate], and the accepting part of
      [operational/capacity_reservation_commands.go].
    - [ReleasePlanner], [ReleaseSafety]: [release/planner.go], [release_types.go].
    - [GoFloat]: Go's [float64] as rationals that are correctly rounded.
    - [CdmClock], [CdmData], [CdmConfig]: [cdm/time_math.go], [models/cdm_data.go] and
      the fields of [models/strip.go] that sequencing reads; [cdm/config.go],
      [wake_spacing.go], [deice_minutes.go], [adverse_conditions.go].
    - [CdmCalculate], [CdmSafety]: [cdm/calculate.go] and the theorems about it.
    - [CdmMarkers], [CdmSequence]: the reason markers of [cdm/markers.go] and
      [cdm/sequence.go]. [CdmSequenceSafety] and [CdmSequenceStore] hold the
      invariants of a pass, on its slots and on the rows it writes, [CdmPass] the
      theorems.
    - [StripOrdering]: [services/strip_ordering.go] and its queries in
      [database/strips.sql.go] and [tactical_strips.sql.go]. [StripRenumber] holds
      the lemmas about places and numbers, [StripOrderSafety] the theorems.
    - [Bays]: [shared/bays.go]. [AirportDefinition]: the documents of
      [config/airport_document.go], their acceptance in [airport_registry.go] and
      [airport_radis.go], and the regions of [regions.go]. [AirportWorkflow]:
      [airportworkflow/contracts.go], [strip_board.go] and [snapshot.go].
      [WorkflowEkch], [WorkflowRadis]: the handlers of [ekch.go] and [radis.go].
      [WorkflowBoard]: the board state of a RADIS strip, from
      [services/strip_board.go] and [strip_board_visibility.go]. [WorkflowFacts]
      holds the lemmas, [WorkflowExamples] two airports, [WorkflowSafety] and
      [WorkflowBoardSafety] the theorems.
    - [CoordinationRequest]: the request of [coordinationrequest/request.go], its checks
      and its transitions. [CoordinationLedger]: the table and the operations of
      [repository.go], [service.go] and [projection.go]. [CoordinationFacts] and
      [CoordinationRevision] hold the lemmas about rows and about the revision,
      [CoordinationInvariant] the invariant of the table and the step relation,
      [CoordinationSafety] the theorems.

    ** What the theorems show

    Of a calculation ([SequenceSafety]): in a result without conflicts two
    consecutive arrivals of a runway group are apart by the rate interval and
    the wake minimum of their categories; every active flight has exactly one
    slot; a frozen flight keeps its captured slot; a flight the allocator moves
    respects its early tolerance, its lower bound, the gaps and the closures;
    no hour holds more arrivals than its rate (a result that reports conflicts may
    leave out a frozen flight and exceed a rate); and the calculation returns
    unless movable flights all wait for one another, which three accepted
    holding flights can do ([generate_holding_cycle]).

    Of the commands ([SequencePolicy], [SequenceGoAround]): each changes what it is
    meant to change and nothing else, refuses a stale revision, and leaves a
    sequence in which the requested relation holds; freezing and releasing is a
    round trip; the cascade of a go-around ends and stays within its limits, and
    can nevertheless pull a following arrival forward
    ([goaround_pulls_forward]).

    Of the lifecycle ([Lifecycle]): accepted events keep the aggregate valid,
    transitions follow the edges of the state machine, a flight becomes stable
    only after its dwell, is removed for absence exactly when the events tell that
    it has been observed absent for the whole timeout ([absence_of], a log that is
    kept apart from the timer of the reducer), and a retry changes nothing.

    Of the queue ([SequenceQueue], [VacancySafety], [SequenceGapFill]): offers are
    reachable and numbered, promotion keeps completeness, separation and the freezes
    of the terminal area and of controllers, consuming offers and compacting is a
    sequence of legal moves ([vacate]) that end, move flights forward only and past
    no protected flight, filling keeps the sequence spaced, and the reported spacing is the one
    the allocator applies.

    Of the rebuild ([RebuildSafety]): the result is separated and complete up to
    reported exceptions, releases follow the merge of the stacks, which is
    specified as a relation ([merged]), a minute apart within a hold, retained
    reservations excepted, the
    terminal area lands first, and the rebuild returns.

    Of runway capacity ([RunwayCapacity], [RunwayClosures]): merging a gap withdraws
    exactly the instants of the gap besides those withdrawn before and keeps a
    valid state valid; the opportunity behind an aircraft is the one the
    engine's grid search finds; an accepted reservation overlaps nothing.

    Of the release planner ([ReleaseSafety]): planning ends and refines a step
    relation of single offers ([offered]); an unblocked plan keeps every stream
    spaced when the timing of every future reservation is known; decisions stay within their bounds and never move a due release; no
    aircraft is released ahead of one that waits longer; the summary counts what
    the reservations say.

    Of a departure calculation ([CdmSafety]): the returned take-off time keeps every
    minimum to every other slot, around midnight too; it is the first free one of
    the half-minute grid, and the trace says why each earlier one was not; the
    calculation returns when the slots leave room, and runs forever for a route
    interval of more than twelve hours ([sid_interval_hangs]).

    Of a pass over the departures ([CdmPass]): every slot it adds is apart from those
    before it; the slots are exactly the take-off times in the data it leaves, one
    for a flight at most; no row that is written waits for a recalculation, and
    what waits for one is written unless its data forbid it; an improvement makes
    the start-up time earlier and takes nothing from a flight ahead; the pass
    returns when the slots leave room. The comparison that orders the flights is
    not transitive ([recalculate_less_cyclic]); nothing rests on that order.

    Of the order of a bay ([StripOrderSafety]): on every board that a session
    reaches the numbers of a bay are distinct and in range ([reachable_orderly]);
    a strip dropped where there is room lies directly behind the strip it was
    dropped behind and nothing else changes; and wherever it is dropped, the other
    strips keep their bays and their order ([drop_keeps_others]). Where there is no
    room the strip does not land behind its reference, as a comment of the code says
    it does, but becomes the first of the bay ([cramped_drop_goes_first]).

    Of airport workflows ([WorkflowSafety], [WorkflowBoardSafety]): when the catalog
    accepts the documents, the registry is built and every workflow answers every
    report, a promise ([AnswersReports]) that both handlers keep and against which
    the executor is proved; the report of a ground state TAXI, LINEUP or DEPA never
    moves a strip back, nor does a full report of TAXI or DEPA about an aircraft
    nearby; the two kinds of report agree nearby and below the altitude of a
    departure, except for LINEUP, which a full report does not read and which can move
    a strip back ([full_and_state_reports_agree]); a move of a controller, as it is
    written to the row ([persist_move]), survives its echo, and is accepted exactly under [move_allowed];
    who sequences departures does not depend on the order of a map. A RADIS strip
    does not flap between hidden and shown; each operation changes its state once
    at most, as [board_change] allows; and a removal lasts until a controller, or
    within the recovery time a report, restores the strip.

    Of the requests ([CoordinationSafety]): every call keeps the rows valid, one
    request at most waits for a decision for each flight and kind, and a request
    that is settled stays settled; only the recipient of a request decides it,
    while it waits and is not expired; the revision advances once with each call
    that changes a row; submitting again with the same identification changes
    nothing; a clearance settles the requests of its flight and no other; and what a
    reader is shown are the rows of the table.

    ** Conventions

    Definitions keep the names of the Go functions. A definition without a Go
    name is a loop body ([.._step], [.._one]), a closure or a block of the
    function it is written after. A Go function that can fail returns an
    [outcome]; dereferencing a nil pointer or reading beyond a slice is [Panic].
    A Go pointer field is an [option]. [time.Time] is an instant in nanoseconds
    and whether its location is UTC; durations are 64-bit numbers with their
    wrap-around, and the theorems state where an input has to be in range for a
    sum not to wrap ([typed_input] says that integer fields are in the range of
    their Go types). The code clones what it edits, so a value is never shared
    and cloning has no definition. Where the code ranges over a map, the model
    takes one order, and the place says why the result does not depend on it.
    [sort.Slice] is insertion sort ([sort_slice]): what is proved uses only that
    the result is an ordered permutation.

    An unbounded [for] is [iterate], which gives up with [Hang] after a number of
    rounds. The number is computed from the arguments as one more than a measure
    that every round decreases, and a [.._returns] lemma shows that it is never
    used up: grid searches move past the end of a gap or closure in each round,
    the allocation order takes a flight per round, compaction moves on by a
    nanosecond per round, the stacks of a rebuild lose an aircraft per round and
    the planner considers a new aircraft in each sweep. The exception is the order
    of movable flights, of which [order_hangs_iff] shows that the model hangs
    exactly when the loop of the code runs forever; and the search for a take-off
    time, which visits the 2880 half minutes of the day in turn, so that after
    2882 rounds it is back where it was ([calculate_hangs_iff]).

    ** Not modelled

    The go-around detector, trajectory prediction and terminal-area geometry,
    which compute with floating-point trigonometry; the operational service, the
    sequence coordinator, stores, hubs and read models, which are I/O around the
    functions above; the airport aggregate beyond its runway groups; the
    prediction reducer and the estimate review, whose inputs come from that
    geometry; and
    the other subsystems of the back end (stands, datalink), the
    TypeScript user interface and the C++ plugin. Of the departure side: whether a
    position lies in a taxi zone, which the code asks a library for spherical
    geometry and the model takes as a parameter; the external flow-management
    service and EuroScope, whose answers are parameters of a pass; reading strips
    and configuration; and the services that start a pass. A route
    interval that is configured as infinite or as not a number is outside the
    model of [float64]. When a call of a pass fails, the model returns
    the error and not the rows written before it. Of the strip services: all but
    the order of a bay; the handler that appends a strip to a bay does so through
    [AppendToBay], which is modelled, and informs a dozen services, which are not;
    the caches that the order is copied to while EuroScope synchronises; the
    variants of a server without tactical strips. Of the requests: the transactions
    of the database, of which the model takes each as one step; the broadcast after
    a call; and who tracks a flight, which is a parameter of the service. Of the
    workflows: trigonometry, which is a parameter (a class of functions on [float64]
    without laws), polygons, which belong to a library, the decoding of documents
    and their other fields, and what services do with a decision beyond the row of
    the strip: the writes of a move are those to the columns that the row has here
    (not the stand, the runway clearance and the owners before and after), they are
    taken to succeed, and the position that assumes a cleared strip is a parameter. *)

(** ** Shared vocabulary

    The outcome monad in which the fallible Go code is written, the loop
    combinators, Go's [sort] package, adjacency chains over lists, and the
    tactics and hints the component files use. *)

From stdpp Require Export base numbers list strings gmap fin_maps.
From stdpp Require Import sorting.
From Stdlib Require Export ZArith Lia Permutation.

#[export] Set Default Goal Selector "!".

Declare Scope go_scope.
Delimit Scope go_scope with go.

(** ** Errors

    An error value is its Go [fmt.Errorf] / [DomainError] content: an optional
    error class, the format string and the formatted arguments. *)

Inductive error :=
| mk_error (class : option string) (format : string) (args : list fmt_arg)
with fmt_arg :=
| AStr (s : string)
| AInt (z : Z)
| AErr (e : error).

Definition Errorf (format : string) (args : list fmt_arg) : error := mk_error None format args.

Definition error_class (e : error) : option string := match e with mk_error c _ _ => c end.

(** ** Outcomes of a Go computation *)

Inductive outcome (A : Type) :=
| Ok (a : A)
| Err (e : error)
| Panic
| Hang.
Arguments Ok {A} a.
Arguments Err {A} e.
Arguments Panic {A}.
Arguments Hang {A}.

#[export] Instance outcome_ret : MRet outcome := fun A a => Ok a.
#[export] Instance outcome_bind : MBind outcome := fun A B f m =>
  match m with
  | Ok a => f a
  | Err e => Err e
  | Panic => Panic
  | Hang => Hang
  end.

(** [guard_err c e] is Go's [if c { return e }]. *)
Definition guard_err (c : bool) (e : error) : outcome unit := if c then Err e else Ok tt.

(** Dereference of a possibly nil pointer or an indexing that may be out of range. *)
Definition deref {A} (o : option A) : outcome A :=
  match o with Some a => Ok a | None => Panic end.

Definition is_ok {A} (m : outcome A) : bool := match m with Ok _ => true | _ => false end.

(** A computation that returns to its caller, with a value or an error. *)
Definition returns {A} (m : outcome A) : Prop := match m with Ok _ | Err _ => True | _ => False end.

Fixpoint fold_outcome {A S} (f : S → A → outcome S) (s : S) (l : list A) : outcome S :=
  match l with
  | [] => Ok s
  | a :: l' => s' ← f s a; fold_outcome f s' l'
  end.

Lemma guard_err_iff c e : guard_err c e = Ok tt ↔ c = false.
Proof. by destruct c. Qed.

Lemma bind_unit_iff {A} (m : outcome unit) (k : unit → outcome A) x : (u ← m; k u) = Ok x ↔ m = Ok tt ∧ k tt = Ok x.
Proof. destruct m as [[]| | |]; simpl; (split; [try done|by intros [? ?]]). Qed.

Lemma existsb_exists_false {A} (f : A → bool) l : existsb f l = false ↔ ∀ a, a ∈ l → f a = false.
Proof.
  rewrite <-not_true_iff_false, existsb_exists. setoid_rewrite <-list_elem_of_In. split.
  - intros H a Ha. destruct (f a) eqn:E; [|done]. destruct H. by exists a.
  - intros H (a & Ha & E). by rewrite H in E.
Qed.

(** [bind_inv H] splits a hypothesis [bind .. = Ok ..] into its two parts. *)
Lemma bind_ok {A B} (m : outcome A) (f : A → outcome B) b :
  (m ≫= f) = Ok b → ∃ a, m = Ok a ∧ f a = Ok b.
Proof. destruct m; simpl; intros; try discriminate. eauto. Qed.

Lemma guard_err_ok c e u : guard_err c e = Ok u → c = false.
Proof. destruct c; simpl; [discriminate | done]. Qed.

Lemma returns_bind {A B} (m : outcome A) (f : A → outcome B) :
  returns m → (∀ a, m = Ok a → returns (f a)) → returns (m ≫= f).
Proof. destruct m; simpl; auto. Qed.

Lemma returns_guard c e : returns (guard_err c e).
Proof. destruct c; done. Qed.

Lemma fold_outcome_returns {A S} (f : S → A → outcome S) s l :
  (∀ s a, a ∈ l → returns (f s a)) → returns (fold_outcome f s l).
Proof.
  revert s. induction l as [|a l IH]; intros s H; simpl; [done|].
  apply returns_bind; [apply H; left|]. intros s' _. apply IH. intros. apply H. by right.
Qed.

Lemma fold_outcome_inv {A S} (f : S → A → outcome S) (I : S → Prop) s l s' :
  (∀ s a s', I s → f s a = Ok s' → I s') → I s → fold_outcome f s l = Ok s' → I s'.
Proof.
  intros Hstep. revert s. induction l as [|a l IH]; intros s Hs H; simpl in H; [by injection H as <-|].
  apply bind_ok in H as (s1 & ? & ?). eauto.
Qed.

Lemma fold_outcome_inv_in {A S} (f : S → A → outcome S) (I : S → Prop) s l s' :
  (∀ s a s', a ∈ l → I s → f s a = Ok s' → I s') → I s → fold_outcome f s l = Ok s' → I s'.
Proof.
  revert s. induction l as [|a l IH]; intros s Hstep Hs H; simpl in H; [by injection H as <-|].
  apply bind_ok in H as (s1 & ? & ?). eapply IH; [|eapply Hstep; [left|..]; eauto|done].
  intros ????. apply Hstep. by right.
Qed.

Lemma fold_outcome_returns_inv {A S} (f : S → A → outcome S) (I : S → Prop) s l :
  (∀ s a, a ∈ l → I s → returns (f s a)) → (∀ s a s', a ∈ l → I s → f s a = Ok s' → I s') → I s →
  returns (fold_outcome f s l).
Proof.
  revert s. induction l as [|a l IH]; intros s Hret Hstep Hs; simpl; [done|].
  apply returns_bind; [by apply Hret; [left|]|]. intros s' E. apply IH.
  - intros ???. apply Hret. by right.
  - intros ????. apply Hstep. by right.
  - by eapply Hstep; [left|..].
Qed.

Create HintDb outcome.
#[export] Hint Resolve returns_bind returns_guard : outcome.

(** Proves [returns] of straight-line code made of guards, binds and case distinctions. *)
Ltac returns_tac :=
  repeat first
    [ done
    | apply returns_guard
    | apply returns_bind; [|intros ? _]
    | apply fold_outcome_returns; intros ? ? _
    | case_match ].

Ltac bind_inv H :=
  let a := fresh "r" in let Ha := fresh "E" in
  apply bind_ok in H as (a & Ha & H).

(** Splits every boolean conjunction, disjunction and comparison of the context. *)
Ltac bsplit :=
  repeat match goal with
  | H : andb _ _ = true |- _ => apply andb_true_iff in H as [? ?]
  | H : orb _ _ = false |- _ => apply orb_false_iff in H as [? ?]
  | H : negb _ = true |- _ => apply negb_true_iff in H
  | H : negb _ = false |- _ => apply negb_false_iff in H
  | H : Is_true _ |- _ => apply Is_true_true in H
  end.

Ltac zbool :=
  bsplit; rewrite ?Z.ltb_lt, ?Z.leb_le, ?Z.ltb_ge, ?Z.leb_gt, ?Z.eqb_eq, ?Z.eqb_neq in *.

(** ** Unbounded loops

    [iterate fuel step s] runs Go's [for { ... }] whose body is [step]: [inl]
    continues with the new state, [inr] leaves the loop. The fuel is a binary
    number, so a bound of [2^60] iterations costs nothing when the loop stops
    early; running out of it is [Hang]. *)

Fixpoint loop {S R} (fuel : positive) (step : S → outcome (S + R)) (s : S) : outcome (S + R) :=
  match fuel with
  | xH => step s
  | xO p => r ← loop p step s; match r with inl s' => loop p step s' | inr r => Ok (inr r) end
  | xI p =>
      r ← step s;
      match r with
      | inr r => Ok (inr r)
      | inl s' => r ← loop p step s'; match r with inl s'' => loop p step s'' | inr r => Ok (inr r) end
      end
  end.

Definition iterate {S R} (fuel : positive) (step : S → outcome (S + R)) (s : S) : outcome R :=
  r ← loop fuel step s; match r with inl _ => Hang | inr r => Ok r end.

Fixpoint loop_nat {S R} (n : nat) (step : S → outcome (S + R)) (s : S) : outcome (S + R) :=
  match n with
  | O => Ok (inl s)
  | S n => r ← step s; match r with inl s' => loop_nat n step s' | inr r => Ok (inr r) end
  end.

Section loops.
Context {S R : Type} (step : S → outcome (S + R)).

Lemma loop_nat_add n m s :
  loop_nat (n + m) step s =
  (r ← loop_nat n step s; match r with inl s' => loop_nat m step s' | inr r => Ok (inr r) end).
Proof.
  revert s; induction n as [|n IH]; intros s; simpl; [done|].
  destruct (step s) as [[s'|r]| | |]; simpl; auto.
Qed.

Lemma loop_loop_nat p s : loop p step s = loop_nat (Pos.to_nat p) step s.
Proof.
  revert s; induction p as [p IH|p IH|]; intros s.
  - rewrite Pos2Nat.inj_xI. simpl. destruct (step s) as [[s'|r]| | |]; simpl; auto.
    replace (Pos.to_nat p + (Pos.to_nat p + 0))%nat with (Pos.to_nat p + Pos.to_nat p)%nat by lia.
    rewrite loop_nat_add, IH.
    destruct (loop_nat _ _ s') as [[?|?]| | |]; simpl; auto.
  - rewrite Pos2Nat.inj_xO. cbn [loop].
    replace (2 * Pos.to_nat p)%nat with (Pos.to_nat p + Pos.to_nat p)%nat by lia.
    rewrite loop_nat_add, IH.
    destruct (loop_nat _ _ s) as [[?|?]| | |]; simpl; auto.
  - simpl. destruct (step s) as [[?|?]| | |]; simpl; auto.
Qed.

(** Partial correctness: an invariant of the loop and what leaving it gives. *)
Lemma iterate_inv (Inv : S → Prop) (Post : R → Prop) p s r :
  (∀ s s', Inv s → step s = Ok (inl s') → Inv s') →
  (∀ s r, Inv s → step s = Ok (inr r) → Post r) →
  Inv s → iterate p step s = Ok r → Post r.
Proof.
  intros Hinl Hinr Hs. unfold iterate. rewrite loop_loop_nat.
  revert s Hs. induction (Pos.to_nat p) as [|n IH]; intros s Hs; simpl; [done|].
  destruct (step s) as [[s'|r']| | |] eqn:E; simpl; try done.
  - apply IH; eauto.
  - intros [= <-]; eauto.
Qed.

(** Termination: a non-negative measure below the fuel that every iteration decreases. *)
Lemma iterate_returns (Inv : S → Prop) (m : S → Z) p s :
  (∀ s, Inv s → returns (step s)) →
  (∀ s s', Inv s → step s = Ok (inl s') → Inv s' ∧ 0 ≤ m s' < m s)%Z →
  Inv s → (m s < Z.pos p)%Z → returns (iterate p step s).
Proof.
  intros Hret Hdec Hs Hm. unfold iterate. rewrite loop_loop_nat.
  assert (Hn : (m s < Z.of_nat (Pos.to_nat p))%Z) by lia.
  assert (Hpos : (0 < Pos.to_nat p)%nat) by lia.
  clear Hm. revert s Hs Hn Hpos. induction (Pos.to_nat p) as [|n IH]; intros s Hs Hn Hpos; simpl; [lia|].
  specialize (Hret s Hs) as Hr.
  destruct (step s) as [[s'|r']| | |] eqn:E; simpl in *; try done.
  destruct (Hdec s s' Hs E) as [Hs' ?].
  apply IH; auto; lia.
Qed.

(** A loop whose body always succeeds either leaves or runs forever. *)
Lemma iterate_ok_or_hang p s :
  (∀ s, ∃ r, step s = Ok r) → (∃ r, iterate p step s = Ok r) ∨ iterate p step s = Hang.
Proof.
  intros Hok. unfold iterate. rewrite loop_loop_nat. revert s.
  induction (Pos.to_nat p) as [|n IH]; intros s; simpl; [by right|].
  destruct (Hok s) as [[s'|r] ->]; simpl; [apply IH|left; by eexists].
Qed.
(** As long as the body succeeds, so does a loop that returns. *)
Lemma iterate_ok (Inv : S → Prop) p s :
  (∀ s s', Inv s → step s = Ok (inl s') → Inv s') → (∀ s, Inv s → ∃ r, step s = Ok r) →
  Inv s → returns (iterate p step s) → ∃ r, iterate p step s = Ok r.
Proof.
  intros Hinv Hok. unfold iterate. rewrite loop_loop_nat. revert s.
  induction (Pos.to_nat p) as [|n IH]; intros s Hs Hr; simpl in *; [done|].
  destruct (Hok s Hs) as [[s'|r] E]; rewrite E in *; simpl in *; [|by eexists]. apply IH; [by eapply Hinv|done].
Qed.
End loops.

(** A loop simulates another one, step for step, through [f] and [g]. *)
Lemma iterate_simulation {S R S' R'} (step : S → outcome (S + R)) (step' : S' → outcome (S' + R')) (f : S → S') (g : R → R') (Inv : S → Prop) p s :
  (∀ s s', Inv s → step s = Ok (inl s') → Inv s') →
  (∀ s, Inv s → step' (f s) = (r ← step s; Ok (match r with inl s' => inl (f s') | inr r => inr (g r) end))) →
  Inv s → iterate p step' (f s) = (r ← iterate p step s; Ok (g r)).
Proof.
  intros Hinv Hstep Hs. unfold iterate. rewrite !loop_loop_nat.
  revert s Hs. induction (Pos.to_nat p) as [|n IH]; intros s Hs; simpl; [done|].
  rewrite Hstep by done. destruct (step s) as [[s'|r]| | |] eqn:E; simpl; try done. apply IH. by eapply Hinv.
Qed.


(** ** Adjacent pairs of a list *)

Fixpoint chain {A} (R : A → A → Prop) (l : list A) : Prop :=
  match l with
  | a :: (b :: _) as l' => R a b ∧ chain R l'
  | _ => True
  end.

Section chains.
Context {A : Type}.
Implicit Types (R : A → A → Prop) (l : list A).

Lemma chain_lookup R l :
  chain R l ↔ ∀ i a b, l !! i = Some a → l !! S i = Some b → R a b.
Proof.
  induction l as [|x l IH]; [split; [intros _ [|i]; done|done]|].
  destruct l as [|y l]; [split; [intros _ [|i]; done|done]|].
  change (chain R (x :: y :: l)) with (R x y ∧ chain R (y :: l)). rewrite IH. split.
  - intros [HR H] [|i] a b Ha Hb; simpl in *; [congruence | by eapply (H i)].
  - intros H. split; [by apply (H 0) | intros i a b Ha Hb; by apply (H (S i))].
Qed.

Lemma chain_mono R R' l : (∀ a b, R a b → R' a b) → chain R l → chain R' l.
Proof. rewrite !chain_lookup; eauto. Qed.

Lemma chain_mono_in R R' l :
  (∀ a b, a ∈ l → b ∈ l → R a b → R' a b) → chain R l → chain R' l.
Proof.
  rewrite !chain_lookup. intros Hm H i a b Ha Hb.
  apply Hm; eauto using list_elem_of_lookup_2.
Qed.

Lemma chain_tail R x l : chain R (x :: l) → chain R l.
Proof. destruct l; simpl; tauto. Qed.

Lemma chain_app_inv R l1 l2 : chain R (l1 ++ l2) → chain R l1 ∧ chain R l2.
Proof.
  induction l1 as [|x l1 IH]; simpl; [done|].
  destruct l1 as [|y l1]; simpl in *; [intros H; split; [done | by eapply chain_tail]|].
  intros [? H]; apply IH in H; tauto.
Qed.

Lemma chain_join R l1 x l2 : chain R (l1 ++ x :: l2) ↔ chain R (l1 ++ [x]) ∧ chain R (x :: l2).
Proof.
  induction l1 as [|y l1 IH]; simpl; [tauto|].
  destruct l1 as [|z l1]; simpl in *; [tauto|].
  rewrite IH; tauto.
Qed.

Lemma chain_snoc R l x :
  chain R (l ++ [x]) ↔ chain R l ∧ (∀ y, last l = Some y → R y x).
Proof.
  induction l as [|a l IH]; simpl; [split; [by split; [|intros ?] | done]|].
  destruct l as [|b l]; simpl in *.
  - split; [intros [? _]; split; [done|by intros ? [= <-]] | intros [_ H]; auto].
  - rewrite IH. tauto.
Qed.

Lemma chain_cons R l x :
  chain R (x :: l) ↔ chain R l ∧ (∀ y, head l = Some y → R x y).
Proof.
  destruct l as [|y l]; simpl; [split; [by split; [|intros ?] | done]|].
  split; [intros [? ?]; split; [done|by intros ? [= <-]] | intros [? H]; auto].
Qed.

Lemma chain_fmap {B} (R : B → B → Prop) (f : A → B) l :
  chain R (f <$> l) ↔ chain (λ a b, R (f a) (f b)) l.
Proof.
  induction l as [|x l IH]; [done|]. destruct l as [|y l]; [done|].
  change (R (f x) (f y) ∧ chain R (f <$> y :: l) ↔ R (f x) (f y) ∧ chain (λ a b, R (f a) (f b)) (y :: l)).
  by rewrite IH.
Qed.

(** Inserting one element breaks one adjacent pair and creates two. *)
Lemma chain_insert R l1 x l2 :
  chain R l1 → chain R l2 →
  (∀ y, last l1 = Some y → R y x) → (∀ y, head l2 = Some y → R x y) →
  chain R (l1 ++ x :: l2).
Proof. intros. rewrite chain_join, chain_snoc, chain_cons. auto. Qed.

(** Replacing two neighbours by related ones. *)
Lemma chain_replace_pair R l1 l2 x y x' y' :
  chain R (l1 ++ x :: y :: l2) → R x' y' →
  (∀ z, last l1 = Some z → R z x') → (∀ z, head l2 = Some z → R y' z) →
  chain R (l1 ++ x' :: y' :: l2).
Proof.
  intros H Hxy Hx Hy. apply chain_app_inv in H as [H1 H2]. apply chain_insert; [done| |done|by intros ? [= <-]].
  apply chain_cons. split; [by do 2 apply chain_tail in H2|done].
Qed.

Lemma chain_filter R (P : A → bool) l :
  (∀ a b c, R a b → R b c → R a c) → chain R l → chain R (filter (λ x, P x = true) l).
Proof.
  intros Htr. induction l as [|a l IH]; [done|]. intros H.
  rewrite filter_cons. case_decide; [|apply IH; by eapply chain_tail].
  rewrite chain_cons; split; [apply IH; by eapply chain_tail|].
  clear IH H0. revert a H. induction l as [|b l IH]; intros a H y; [done|].
  rewrite filter_cons. case_decide; simpl.
  - intros [= <-]. by destruct H.
  - intros Hy. destruct H as [Hab H]. eapply IH; [|done].
    destruct l as [|c l]; simpl in *; [done|].
    destruct H as [Hbc H]. split; [by eapply Htr | done].
Qed.

(** A chain of a transitive relation relates every earlier element to every later one. *)
Lemma chain_trans_lookup R l i j a b :
  (∀ a b c, R a b → R b c → R a c) → chain R l →
  i < j → l !! i = Some a → l !! j = Some b → R a b.
Proof.
  intros Htr Hc Hij Ha. revert b. induction Hij as [|j Hij IH]; intros b Hb.
  - eapply chain_lookup; eauto.
  - assert (j < length l) as [c Hcj]%lookup_lt_is_Some_2
      by (apply lookup_lt_Some in Hb; lia).
    eapply Htr; [by apply IH | eapply chain_lookup; eauto].
Qed.
End chains.

(** Every two elements at different positions are related. *)
Definition pairwise {A} (R : A → A → Prop) (l : list A) : Prop :=
  ∀ i j a b, i ≠ j → l !! i = Some a → l !! j = Some b → R a b.

Lemma pairwise_perm {A} (R : A → A → Prop) l k : l ≡ₚ k → pairwise R l → pairwise R k.
Proof.
  intros (_ & f & Hf & Hlk)%symmetry%Permutation_inj H i j a b Hij Hi Hj. rewrite Hlk in Hi, Hj.
  apply (H (f i) (f j)); [|done..]. intros E. by apply Hij, Hf.
Qed.

Lemma pairwise_cons {A} (R : A → A → Prop) a l :
  (∀ b, b ∈ l → R a b ∧ R b a) → pairwise R l → pairwise R (a :: l).
Proof.
  intros Ha Hl [|i] [|j] x y Hij Hi Hj; simpl in *; [done| | |].
  - injection Hi as <-. by apply Ha, (list_elem_of_lookup_2 l j).
  - injection Hj as <-. by apply Ha, (list_elem_of_lookup_2 l i).
  - apply (Hl i j); [|done..]. congruence.
Qed.

Lemma pairwise_app_l {A} (R : A → A → Prop) l k : pairwise R (l ++ k) → pairwise R l.
Proof.
  intros H i j a b Hij Hi Hj.
  apply (H i j); [done| |]; rewrite lookup_app_l; eauto using lookup_lt_Some.
Qed.

Lemma chain_pairwise {A} (R Q : A → A → Prop) l :
  (∀ a b c, R a b → R b c → R a c) → (∀ a b, R a b → Q a b ∧ Q b a) → chain R l → pairwise Q l.
Proof.
  intros Ht HQ Hc i j a b Hij Ha Hb. destruct (Nat.lt_total i j) as [Hlt|[Heq|Hlt]]; [|done|].
  - by destruct (HQ a b (chain_trans_lookup R l i j a b Ht Hc Hlt Ha Hb)).
  - by destruct (HQ b a (chain_trans_lookup R l j i b a Ht Hc Hlt Hb Ha)).
Qed.

(** Every element is related to those behind it. *)
Definition in_order {A} (R : A → A → Prop) (l : list A) : Prop :=
  ∀ i j a b, (i < j)%nat → l !! i = Some a → l !! j = Some b → R a b.

Lemma in_order_nil {A} (R : A → A → Prop) : in_order R [].
Proof. intros i j a b _ Hi. by rewrite lookup_nil in Hi. Qed.

Lemma in_order_snoc {A} (R : A → A → Prop) l x :
  in_order R l → (∀ a, a ∈ l → R a x) → in_order R (l ++ [x]).
Proof.
  intros Hl Hx i j a b Hij Hi Hj. apply lookup_snoc_Some in Hi as [[Hi Ha]|[Hi Ha]], Hj as [[Hj Hb]|[Hj Hb]].
  - by apply (Hl i j).
  - subst. by apply Hx, (list_elem_of_lookup_2 l i).
  - lia.
  - lia.
Qed.

Lemma in_order_cons {A} (R : A → A → Prop) x l :
  in_order R (x :: l) ↔ (∀ a, a ∈ l → R x a) ∧ in_order R l.
Proof.
  split.
  - intros H. split; [|intros i j a b Hij Hi Hj; apply (H (S i) (S j)); [lia|done..]].
    intros a Ha. apply list_elem_of_lookup in Ha as [i Hi]. apply (H 0%nat (S i)); [lia|done..].
  - intros [Hx Hl] [|i] [|j] a b Hij Hi Hj; simpl in *; [lia| |lia|apply (Hl i j); [lia|done..]].
    injection Hi as <-. by apply Hx, (list_elem_of_lookup_2 l j).
Qed.

Lemma Forall_perm {A} (P : A → Prop) (l l' : list A) : l' ≡ₚ l → Forall P l → Forall P l'.
Proof. intros Hp. rewrite !Forall_forall. intros H x Hx. apply H. by rewrite <-Hp. Qed.

Lemma filter_fmap {A B} (P : B → Prop) `{!∀ x, Decision (P x)} (f : A → B) (l : list A) :
  filter P (f <$> l) = f <$> filter (λ x, P (f x)) l.
Proof.
  induction l as [|a l IH]; [done|]. rewrite fmap_cons, !filter_cons. case_decide; simpl; by rewrite IH.
Qed.

Lemma filter_all {A} (P : A → Prop) `{!∀ x, Decision (P x)} (l : list A) : Forall P l → filter P l = l.
Proof. induction 1 as [|a l Ha _ IH]; [done|]. rewrite filter_cons. by rewrite decide_True, IH. Qed.

Lemma filter_none {A} (P : A → Prop) `{!∀ x, Decision (P x)} (l : list A) : Forall (λ a, ¬ P a) l → filter P l = [].
Proof. induction 1 as [|a l Ha _ IH]; [done|]. rewrite filter_cons. by rewrite decide_False, IH. Qed.

(** Neighbours that are both kept by a filter are neighbours of the filtered list. *)
Lemma chain_filter_merge {A} (P : A → Prop) `{!∀ x, Decision (P x)} (R : A → A → Prop) (l : list A) :
  chain (λ a b, ¬ P a ∨ ¬ P b → R a b) l → chain R (filter P l) → chain R l.
Proof.
  induction l as [|x l IH]; [done|]. destruct l as [|y l]; [done|]. intros Hc Hf.
  change (R x y ∧ chain R (y :: l)). destruct Hc as [Hxy Hc]. rewrite filter_cons in Hf. split.
  - destruct (decide (P x)), (decide (P y)); [|by auto..]. rewrite filter_cons in Hf. rewrite decide_True in Hf by done. apply Hf.
  - apply IH; [done|]. destruct (decide (P x)); [by apply chain_tail in Hf|done].
Qed.

Lemma filter_split {A} (P Q : A → bool) (l : list A) :
  filter (λ a, P a && Q a = true) l ++ filter (λ a, P a && negb (Q a) = true) l ≡ₚ filter (λ a, P a = true) l.
Proof.
  induction l as [|a l IH]; [done|]. rewrite !filter_cons.
  destruct (P a), (Q a); simpl; [|rewrite <-Permutation_middle|..]; rewrite ?IH; done.
Qed.

(** Grouping a list by a key and concatenating the groups loses and repeats nothing. *)
Lemma bind_filter_nil {A K} `{EqDecision K} (key : A → K) (groups : list K) x l :
  key x ∉ groups →
  (groups ≫= λ g, filter (λ a, key a = g) (x :: l)) = (groups ≫= λ g, filter (λ a, key a = g) l).
Proof.
  induction groups as [|g gs IH]; [done|]. rewrite not_elem_of_cons. intros [? ?].
  rewrite !bind_cons, IH by done. by rewrite filter_cons, decide_False.
Qed.

Lemma bind_filter_key {A K} `{EqDecision K} (key : A → K) (groups : list K) (l : list A) :
  NoDup groups → Forall (λ a, key a ∈ groups) l → (groups ≫= λ g, filter (λ a, key a = g) l) ≡ₚ l.
Proof.
  intros Hnd. induction l as [|x l IH]; intros Hin.
  - clear. induction groups; simpl; done.
  - apply Forall_cons in Hin as [Hx Hin]. specialize (IH Hin). clear Hin. etrans; [|by apply Permutation_skip].
    apply list_elem_of_split in Hx as (g1 & g2 & ->). apply NoDup_app in Hnd as (_ & Hd & Hnd).
    apply NoDup_cons in Hnd as [Hn2 _]. assert (Hn1 : key x ∉ g1) by (intros H; apply (Hd _ H); left).
    rewrite !bind_app, !bind_cons, !bind_filter_nil by done. rewrite filter_cons, decide_True by done.
    simpl. by rewrite <-Permutation_middle.
Qed.

Lemma length_filter_imap {A B} (P : B → Prop) (Q : A → Prop) `{!∀ x, Decision (P x), !∀ x, Decision (Q x)}
    (f : nat → A → B) (l : list A) :
  (∀ i x, P (f i x) ↔ Q x) → length (filter P (imap f l)) = length (filter Q l).
Proof.
  revert f. induction l as [|x l IH]; intros f Hpq; [done|]. rewrite imap_cons, !filter_cons.
  specialize (IH (f ∘ S) (λ i x, Hpq (S i) x)). specialize (Hpq 0%nat x).
  destruct (decide (P (f 0%nat x))), (decide (Q x)); simpl; tauto || by rewrite IH.
Qed.

(** A stronger predicate that drops an element keeps strictly fewer. *)
Lemma length_filter_lt {A} (P Q : A → Prop) `{!∀ x, Decision (P x), !∀ x, Decision (Q x)} (l : list A) x :
  (∀ a, Q a → P a) → x ∈ l → P x → ¬ Q x → length (filter Q l) < length (filter P l).
Proof.
  intros HQP Hx HP HQ.
  assert (Hle : ∀ l : list A, length (filter Q l) ≤ length (filter P l)).
  { induction l0 as [|a l0 IH]; [done|]. rewrite !filter_cons. do 2 case_decide; simpl; naive_solver lia. }
  apply list_elem_of_split in Hx as (l1 & l2 & ->). rewrite !filter_app, !length_app, !filter_cons.
  rewrite decide_False, decide_True by done. pose proof (Hle l1). pose proof (Hle l2). simpl. lia.
Qed.

(** A chain of steps of at least [d] spans at least [d] per step. *)
Lemma chain_span {A} (k : A → Z) (d : Z) l a b :
  chain (λ a b, (k a + d ≤ k b)%Z) l → head l = Some a → last l = Some b →
  (k a + (Z.of_nat (length l) - 1) * d ≤ k b)%Z.
Proof.
  revert a. induction l as [|x l IH]; intros a Hc Ha Hb; [done|]. injection Ha as ->.
  destruct l as [|y l]; [injection Hb as ->; simpl; lia|]. destruct Hc as [Hxy Hc].
  specialize (IH y Hc eq_refl Hb). cbn [length] in *. lia.
Qed.

Lemma NoDup_fmap_filter {A B} (P : A → Prop) `{!∀ x, Decision (P x)} (f : A → B) (l : list A) :
  NoDup (f <$> l) → NoDup (f <$> filter P l).
Proof.
  induction l as [|a l IH]; [done|]. rewrite fmap_cons, filter_cons. intros [Hn Hd]%NoDup_cons.
  case_decide; [|auto]. rewrite fmap_cons. apply NoDup_cons. split; [|auto]. intros Hin. apply Hn.
  apply list_elem_of_fmap in Hin as (x & -> & Hx). apply list_elem_of_filter in Hx as [_ Hx]. by apply list_elem_of_fmap_2.
Qed.

Lemma alter_alter_same {A} (f g : A → A) i (l : list A) x :
  l !! i = Some x → g (f x) = x → alter g i (alter f i l) = l.
Proof.
  intros Hx Hgf. apply list_eq. intros j. destruct (decide (i = j)) as [<-|].
  - by rewrite !list_lookup_alter_eq, Hx; simpl; rewrite Hgf.
  - by rewrite !list_lookup_alter_ne.
Qed.

Lemma list_find_alter {A} (P : A → Prop) `{!∀ x, Decision (P x)} f i (l : list A) j x :
  (∀ a, P (f a) ↔ P a) → list_find P l = Some (j, x) →
  list_find P (alter f i l) = Some (j, if decide (i = j) then f x else x).
Proof.
  intros HP Hfind. apply list_find_Some in Hfind as (Hj & Hp & Hmin). apply list_find_Some. split_and!.
  - rewrite list_lookup_alter. case_decide; [|done]. subst. by rewrite Hj.
  - case_decide; [by apply HP|done].
  - intros k y Hk Hlt. rewrite list_lookup_alter in Hk. case_decide as Hd.
    + subst. destruct (l !! k) as [z|] eqn:Ez; [|done]. injection Hk as <-. rewrite HP. by eapply Hmin.
    + by eapply Hmin.
Qed.

Lemma length_filter_split {A} (P : A → Prop) `{!∀ x, base.Decision (P x)} (l : list A) :
  length l = (length (filter P l) + length (filter (λ x, ¬ P x) l))%nat.
Proof.
  induction l as [|x l IH]; [done|]. rewrite !filter_cons. destruct (decide (P x)) as [Hx|Hx].
  - rewrite (decide_False (P := ¬ P x)) by tauto. simpl. lia.
  - rewrite (decide_True (P := ¬ P x)) by done. simpl. lia.
Qed.

Lemma length_filter_filter {A} (P Q : A → Prop) `{!∀ x, base.Decision (P x), !∀ x, base.Decision (Q x)} (l : list A) :
  (length (filter Q (filter P l)) ≤ length (filter Q l))%nat.
Proof.
  induction l as [|x l IH]; [done|]. rewrite !filter_cons. destruct (decide (P x)); rewrite ?filter_cons; destruct (decide (Q x)); simpl; lia.
Qed.

(** Elements covered by sets of at most [b] elements each *)
Lemma covered_length {A B} (P : B → A → Prop) `{!∀ y x, base.Decision (P y x)} (b : nat) (sets : list B) (l : list A) :
  (∀ y, (length (filter (P y) l) ≤ b)%nat) → (∀ x, x ∈ l → ∃ y, y ∈ sets ∧ P y x) → (length l ≤ length sets * b)%nat.
Proof.
  revert l. induction sets as [|y sets IH]; intros l Hb Hc; simpl.
  { destruct l as [|x l]; [done|]. by destruct (Hc x (list_elem_of_here _ _)) as (y & ?%elem_of_nil & _). }
  rewrite (length_filter_split (P y) l). pose proof (Hb y).
  enough (length (filter (λ x, ¬ P y x) l) ≤ length sets * b)%nat by lia. apply IH.
  - intros z. etrans; [apply length_filter_filter|apply Hb].
  - intros x [Hn Hx]%list_elem_of_filter. destruct (Hc x Hx) as (z & [-> | Hz]%elem_of_cons & Hz'); [done|]. by exists z.
Qed.

(** The least number with a decidable property, up to a bound *)
Lemma least_or_none {P : nat → Prop} `{!∀ n, base.Decision (P n)} (N : nat) :
  (∃ n, (n < N)%nat ∧ P n ∧ ∀ i, (i < n)%nat → ¬ P i) ∨ ∀ i, (i < N)%nat → ¬ P i.
Proof.
  induction N as [|N [(n & Hn & HP & Hi)|IH]]; [right; lia|left; exists n; split_and!; [lia|done..]|].
  destruct (decide (P N)) as [HP|HP]; [left; exists N; split_and!; [lia|done..]|].
  right. intros i Hi. destruct (decide (i = N)) as [-> |Hne]; [done|]. apply IH. lia.
Qed.

Lemma foldl_fmap_ext {A B} (f : B → A → B) (g : A → A) l b :
  (∀ b a, f b (g a) = f b a) → foldl f b (g <$> l) = foldl f b l.
Proof. intros H. revert b. induction l as [|a l IH]; intros b; simpl; [done|]. by rewrite H, IH. Qed.

(** Exchanging two neighbours. *)
Lemma swap_middle {A} (l : list A) i x y :
  l !! i = Some x → l !! S i = Some y → l = take i l ++ x :: y :: drop (S (S i)) l.
Proof.
  intros Hx Hy. rewrite <-(take_drop_middle l i x Hx) at 1. do 2 f_equal. by apply drop_S.
Qed.

Lemma swap_insert {A} (l : list A) i x y x' y' :
  l !! i = Some x → l !! S i = Some y →
  <[S i := y']> (<[i := x']> l) = take i l ++ x' :: y' :: drop (S (S i)) l.
Proof.
  intros Hx Hy. pose proof (lookup_lt_Some _ _ _ Hx) as Hlen.
  assert (Hi : length (take i l) = i) by (rewrite length_take; lia).
  rewrite (swap_middle l i x y Hx Hy) at 1. rewrite <-Hi at 1 2.
  rewrite <-(Nat.add_0_r (length (take i l))) at 2. rewrite insert_app_r. simpl.
  replace (S (length (take i l))) with (length (take i l) + 1)%nat by lia. by rewrite insert_app_r.
Qed.

Lemma swap_perm {A} (l : list A) i x y :
  l !! i = Some x → l !! S i = Some y → <[S i := x]> (<[i := y]> l) ≡ₚ l.
Proof.
  intros Hx Hy. rewrite (swap_insert l i x y y x Hx Hy).
  transitivity (take i l ++ x :: y :: drop (S (S i)) l); [|by rewrite <-(swap_middle l i x y Hx Hy)].
  apply Permutation_app_head, Permutation_swap.
Qed.

(** ** Go's [sort] package *)

(** [sort.Search(n, f)]: binary search for the first index in [0,n) with [f]. *)
Fixpoint sort_search_go (fuel : nat) (f : nat → bool) (i j : nat) : nat :=
  match fuel with
  | O => i
  | S fuel =>
      if i <? j then
        let h := (i + j) / 2 in
        if f h then sort_search_go fuel f i h else sort_search_go fuel f (S h) j
      else i
  end%nat.

Definition sort_search (n : nat) (f : nat → bool) : nat := sort_search_go n f 0 n.

(** [sort.Search(len(l), func(i) { return p(l[i]) })] *)
Definition sort_search_list {A} (p : A → bool) (l : list A) : nat :=
  sort_search (length l) (λ i, match l !! i with Some a => p a | None => true end).

Lemma sort_search_go_ext fuel f g i j : (∀ i, f i = g i) → sort_search_go fuel f i j = sort_search_go fuel g i j.
Proof.
  intros Hfg. revert i j. induction fuel as [|fuel IH]; intros i j; cbn [sort_search_go]; [done|].
  destruct (_ <? _)%nat; [|done]. cbv zeta. rewrite Hfg. by destruct (g _).
Qed.

Lemma sort_search_list_fmap {A B} (p : B → bool) (q : A → bool) (f : A → B) l :
  (∀ a, p (f a) = q a) → sort_search_list p (f <$> l) = sort_search_list q l.
Proof.
  intros Hpq. unfold sort_search_list, sort_search. rewrite length_fmap. apply sort_search_go_ext.
  intros i. rewrite list_lookup_fmap. by destruct (l !! i); simpl.
Qed.

Lemma sort_search_go_spec fuel f i j :
  (j - i ≤ fuel)%nat → (i ≤ j)%nat →
  (∀ a b, (a ≤ b < j)%nat → f a = true → f b = true) →
  let k := sort_search_go fuel f i j in
  (i ≤ k ≤ j)%nat ∧ (∀ x, (i ≤ x < k)%nat → f x = false) ∧ (∀ x, (k ≤ x < j)%nat → f x = true).
Proof.
  revert i j. induction fuel as [|fuel IH]; intros i j Hf Hij Hmono; cbn [sort_search_go].
  - split_and!; intros; lia.
  - destruct (Nat.ltb_spec i j) as [Hlt|]; [|split_and!; intros; lia].
    assert (Hh : (i ≤ (i + j) / 2 < j)%nat).
    { split; [apply Nat.div_le_lower_bound; lia | apply Nat.Div0.div_lt_upper_bound; lia]. }
    generalize dependent ((i + j) / 2)%nat. intros h Hh.
    destruct (f h) eqn:E.
    + destruct (IH i h) as (? & H1 & H2); try lia.
      { intros a b ? ?. apply (Hmono a b); [lia|done]. }
      split_and!; try lia; [intros; apply H1; lia|].
      intros x ?. destruct (decide (x < h)%nat); [apply H2; lia|].
      apply (Hmono h x); [lia|done].
    + destruct (IH (S h) j) as (? & H1 & H2); try lia.
      { intros a b ? ?. apply (Hmono a b); [lia|done]. }
      split_and!; try lia; [|intros; apply H2; lia].
      intros x ?. destruct (decide (S h ≤ x)%nat); [apply H1; lia|].
      destruct (f x) eqn:Ex; [|done]. exfalso.
      rewrite (Hmono x h) in E; [done | lia | done].
Qed.

(** On a list whose predicate is monotone the search splits it exactly. *)
Lemma sort_search_list_spec {A} (p : A → bool) (l : list A) :
  chain (λ a b, p a = true → p b = true) l →
  let k := sort_search_list p l in
  (k ≤ length l)%nat ∧ Forall (λ a, p a = false) (take k l) ∧ Forall (λ a, p a = true) (drop k l).
Proof.
  intros Hc k. unfold k, sort_search_list, sort_search.
  destruct (sort_search_go_spec (length l) (λ i, match l !! i with Some a => p a | None => true end)
              0 (length l)) as (Hk & Hlo & Hhi); try lia.
  { intros a b Hab Ha. destruct (lookup_lt_is_Some_2 l b) as [y Hy]; [lia|]. rewrite Hy.
    destruct (lookup_lt_is_Some_2 l a) as [x Hx]; [lia|]. rewrite Hx in Ha.
    destruct (decide (a = b)) as [->|]; [congruence|].
    eapply (chain_trans_lookup (λ a b, p a = true → p b = true) l a b); eauto; lia. }
  split_and!; [lia| |].
  - apply Forall_lookup. intros i x Hx.
    rewrite lookup_take_Some in Hx. destruct Hx as [Hx ?].
    specialize (Hlo i). rewrite Hx in Hlo. apply Hlo; lia.
  - apply Forall_lookup. intros i x Hx. rewrite lookup_drop in Hx.
    specialize (Hhi (sort_search_go (length l) (λ i0, match l !! i0 with Some a => p a | None => true end) 0 (length l) + i)%nat).
    rewrite Hx in Hhi. apply Hhi. apply lookup_lt_Some in Hx. lia.
Qed.

(** [sort.Slice]: insertion sort, which is what Go runs on up to twelve
    elements. The theorems use it through [sort_slice_perm], [sort_slice_key],
    [sort_slice_adj] and [sort_slice_snoc] only. *)
Fixpoint insert_right {A} (less : A → A → bool) (x : A) (rev_prefix : list A) : list A :=
  match rev_prefix with
  | [] => [x]
  | y :: rest => if less x y then y :: insert_right less x rest else x :: rev_prefix
  end.

Definition sort_slice {A} (less : A → A → bool) (l : list A) : list A :=
  reverse (foldl (λ acc x, insert_right less x acc) [] l).

Section sorting.
Context {A : Type} (less : A → A → bool).
Implicit Types l : list A.

Lemma insert_right_perm x l : insert_right less x l ≡ₚ x :: l.
Proof.
  induction l as [|y l IH]; simpl; [done|].
  destruct (less x y); [|done]. rewrite IH. apply Permutation_swap.
Qed.

Lemma foldl_insert_perm l acc :
  foldl (λ acc x, insert_right less x acc) acc l ≡ₚ acc ++ l.
Proof.
  revert acc. induction l as [|x l IH]; intros acc; simpl; [by rewrite app_nil_r|].
  rewrite IH, insert_right_perm. simpl. by rewrite Permutation_middle.
Qed.

Lemma sort_slice_perm l : sort_slice less l ≡ₚ l.
Proof. unfold sort_slice. by rewrite reverse_Permutation, foldl_insert_perm. Qed.

Lemma sort_slice_snoc l x :
  sort_slice less (l ++ [x]) = reverse (insert_right less x (reverse (sort_slice less l))).
Proof. unfold sort_slice. rewrite foldl_app, reverse_involutive. done. Qed.

(** Inserting from the right stops at the first element not above [x]. *)
Lemma insert_right_split x l1 l2 :
  (∀ y, y ∈ l2 → less x y = true) → (∀ y, last l1 = Some y → less x y = false) →
  reverse (insert_right less x (reverse (l1 ++ l2))) = l1 ++ x :: l2.
Proof.
  intros H2 H1. rewrite reverse_app.
  assert (Hins : ∀ r s, (∀ y, y ∈ r → less x y = true) → (∀ y, head s = Some y → less x y = false) →
                   insert_right less x (r ++ s) = r ++ x :: s).
  { intros r s Hr Hs. induction r as [|y r IH]; simpl.
    - destruct s as [|y s]; simpl; [done|]. by rewrite (Hs y).
    - rewrite Hr by set_solver. rewrite IH; [done|]. intros; apply Hr; set_solver. }
  rewrite Hins.
  - rewrite reverse_app, reverse_cons, !reverse_involutive. by rewrite <-app_assoc.
  - intros y Hy. apply H2. by rewrite elem_of_reverse in Hy.
  - intros y. rewrite head_reverse. apply H1.
Qed.

Lemma insert_right_adj x l :
  (∀ a b, less a b = true → less b a = false) →
  chain (λ a b, less a b = false) l → chain (λ a b, less a b = false) (insert_right less x l).
Proof.
  intros Hasym. induction l as [|y l IH]; intros Hc; simpl; [done|].
  destruct (less x y) eqn:E; [|by rewrite chain_cons; split; [|intros ? [= <-]]].
  rewrite chain_cons. split; [apply IH; by eapply chain_tail|].
  intros z Hz. destruct l as [|w l]; simpl in *.
  - injection Hz as <-. auto.
  - destruct (less x w); simpl in Hz; injection Hz as <-; [tauto|auto].
Qed.

Lemma chain_reverse (R : A → A → Prop) l : chain (λ a b, R b a) l → chain R (reverse l).
Proof.
  induction l as [|x l IH]; intros Hc; [done|]. rewrite reverse_cons, chain_snoc.
  split; [apply IH; by eapply chain_tail|]. intros y. rewrite last_reverse.
  destruct l as [|z l]; simpl; [done|]. intros [= <-]. by destruct Hc.
Qed.

(** The result never has a neighbour pair that [less] would swap. *)
Lemma sort_slice_adj l :
  (∀ a b, less a b = true → less b a = false) →
  chain (λ a b, less b a = false) (sort_slice less l).
Proof.
  intros Hasym. unfold sort_slice. apply chain_reverse.
  assert (H : ∀ acc, chain (λ a b, less a b = false) acc →
      chain (λ a b, less a b = false) (foldl (λ acc x, insert_right less x acc) acc l)).
  { induction l as [|x l IH]; intros acc Hacc; simpl; [done|].
    by apply IH, insert_right_adj. }
  by apply H.
Qed.

(** A list without such a pair is left alone. *)
Lemma sort_slice_fix l : chain (λ a b, less b a = false) l → sort_slice less l = l.
Proof.
  induction l as [|x l IH] using rev_ind; [done|]. rewrite chain_snoc. intros [Hc Hx].
  rewrite sort_slice_snoc, IH by done.
  rewrite <-(app_nil_r l) at 1. rewrite insert_right_split; [done|set_solver|auto].
Qed.

(** A key that agrees with [less] up to ties is non-decreasing in the result. *)
Lemma sort_slice_key (k : A → Z) l :
  (∀ a b, less a b = true → k a ≤ k b)%Z → (∀ a b, (k a < k b)%Z → less a b = true) →
  chain (λ a b, k a ≤ k b)%Z (sort_slice less l).
Proof.
  intros H1 H2. unfold sort_slice. apply chain_reverse.
  assert (H : ∀ acc, chain (λ a b, k b ≤ k a)%Z acc →
      chain (λ a b, k b ≤ k a)%Z (foldl (λ acc x, insert_right less x acc) acc l)).
  { induction l as [|x l IH]; intros acc Hacc; simpl; [done|]. apply IH. clear IH.
    induction acc as [|y acc IH]; simpl; [done|].
    destruct (less x y) eqn:E.
    - rewrite chain_cons. split; [apply IH; by eapply chain_tail|].
      intros z Hz. destruct acc as [|w acc]; simpl in *.
      + injection Hz as <-. by apply H1.
      + destruct (less x w); simpl in Hz; injection Hz as <-; [tauto|by apply H1].
    - rewrite chain_cons. split; [done|]. intros z [= <-].
      destruct (Z.le_gt_cases (k y) (k x)); [done|]. by rewrite H2 in E. }
  by apply H.
Qed.

(** Sorting by a total order does not depend on the order of the input. *)
Lemma sort_slice_unique l k :
  (∀ a b, less a b = true → less b a = false) →
  (∀ a b c, less b a = false → less c b = false → less c a = false) →
  (∀ a b, a ∈ l → b ∈ l → less a b = false → less b a = false → a = b) →
  l ≡ₚ k → sort_slice less l = sort_slice less k.
Proof.
  intros Hasym Htrans Htotal Hp.
  assert (Hs : ∀ m, StronglySorted (λ a b, less b a = false) (sort_slice less m)).
  { intros m. pose proof (sort_slice_adj m Hasym) as Hc. revert Hc. induction (sort_slice less m) as [|a r IH]; intros Hc; [constructor|].
    constructor; [apply IH; by eapply chain_tail|]. apply Forall_lookup. intros i b Hb.
    apply (chain_trans_lookup (λ a b, less b a = false) (a :: r) 0 (S i)); [exact Htrans|done|lia|done|done]. }
  apply (StronglySorted_unique_strong (λ a b, less b a = false)); [|done..|by rewrite !sort_slice_perm].
  intros a b. rewrite sort_slice_perm, sort_slice_perm, <-Hp. intros Ha Hb H1 H2. by apply Htotal.
Qed.

Lemma elem_of_sort_slice x l : x ∈ sort_slice less l ↔ x ∈ l.
Proof. by rewrite sort_slice_perm. Qed.
End sorting.

#[export] Hint Resolve sort_slice_perm : core.

(** ** Field assignment

    [record_set eta get v r] is the record [r] with the field read by [get]
    replaced by [v], where [eta] rebuilds a record from its own fields. *)
Ltac record_set eta get v r :=
  let t := eval cbv beta delta [eta] in (eta r) in
  lazymatch eval pattern (get r) in t with
  | ?F _ => let t' := eval cbv beta in (F v) in exact t'
  end.
