(* ===== verification/GoTime.v ===== *)
(** * Go's [time], [strings] and fixed-width integers

    [time.Time] is an instant in nanoseconds since the Go zero time together
    with whether its location is [time.UTC]; the comparisons only look at the
    instant. [time.Duration] is a signed 64-bit number of nanoseconds, with the
    wrap-around of Go's arithmetic and the saturation of [Time.Sub] written
    out. Monotonic clock readings are not represented. The [strings] functions
    are those of Go's ASCII path. *)

From S2P Require Import Prelude.
From stdpp Require Import pretty.
From Stdlib Require Import Strings.Ascii Strings.String.

Local Open Scope Z_scope.

(** ** Fixed-width integers *)

Definition wrap64 (z : Z) : Z := (z + 2^63) mod 2^64 - 2^63.
Definition u64 (z : Z) : Z := z mod 2^64.
Definition u32 (z : Z) : Z := z mod 2^32.
Definition max_int64 : Z := 2^63 - 1.
Definition min_int64 : Z := - 2^63.
Definition sat64 (z : Z) : Z := Z.max min_int64 (Z.min max_int64 z).

Definition in_int64 (z : Z) : Prop := - 2^63 ≤ z < 2^63.
Definition in_uint32 (z : Z) : Prop := 0 ≤ z < 2^32.

Lemma wrap64_id z : in_int64 z → wrap64 z = z.
Proof. unfold in_int64, wrap64. intros. rewrite Z.mod_small; lia. Qed.

Lemma wrap64_range z : in_int64 (wrap64 z).
Proof. unfold in_int64, wrap64. pose proof (Z.mod_pos_bound (z + 2^63) (2^64)). lia. Qed.

Lemma sat64_range z : in_int64 (sat64 z).
Proof. unfold in_int64, sat64, min_int64, max_int64. lia. Qed.

Lemma sat64_id z : in_int64 z → sat64 z = z.
Proof. unfold in_int64, sat64, min_int64, max_int64. lia. Qed.

(** A saturated difference that reaches a representable bound proves the bound. *)
Lemma sat64_ge z d : - 2^63 < d → d ≤ sat64 z → d ≤ z.
Proof. unfold sat64, min_int64, max_int64. lia. Qed.

Lemma sat64_lt z d : d < 2^63 → sat64 z < d → z < d.
Proof. unfold sat64, min_int64, max_int64. lia. Qed.

(** ** Durations *)

Definition Duration := Z.

Definition Nanosecond : Duration := 1.
Definition Second : Duration := 1000000000.
Definition Minute : Duration := 60 * Second.
Definition Hour : Duration := 60 * Minute.

Definition dur_add (a b : Duration) : Duration := wrap64 (a + b).
Definition dur_sub (a b : Duration) : Duration := wrap64 (a - b).
Definition dur_neg (a : Duration) : Duration := wrap64 (- a).
Definition dur_mul (a b : Duration) : Duration := wrap64 (a * b).
(** Go's integer division and remainder truncate towards zero. *)
Definition dur_div (a b : Duration) : Duration := wrap64 (Z.quot a b).
Definition dur_rem (a b : Duration) : Duration := Z.rem a b.

(** ** Instants *)

Record Time := mk_time { ns : Z; is_utc : bool }.

#[export] Instance Time_eq_dec : EqDecision Time.
Proof. solve_decision. Defined.

Definition zero_time : Time := mk_time 0 true.

Definition before (a b : Time) : bool := ns a <? ns b.
Definition after (a b : Time) : bool := ns b <? ns a.
Definition time_eqb (a b : Time) : bool := ns a =? ns b.
Definition is_zero (t : Time) : bool := ns t =? 0.
Definition time_add (t : Time) (d : Duration) : Time := mk_time (ns t + d) (is_utc t).
Definition time_sub (a b : Time) : Duration := sat64 (ns a - ns b).
(** [Time.Truncate(d)] for positive [d] rounds down to a multiple of [d] since the zero time. *)
Definition truncate (t : Time) (d : Duration) : Time := mk_time (ns t - ns t mod d) (is_utc t).

Definition validUTC (t : Time) : bool := negb (is_zero t) && is_utc t.

(** [max]/[min] of instants as the code writes them: [if b.After(a) { a = b }]. *)
Definition later_of (a b : Time) : Time := if after b a then b else a.
Definition earlier_of (a b : Time) : Time := if before b a then b else a.

Ltac time_unfold :=
  unfold later_of, earlier_of, time_add in *;
  unfold before, after, time_eqb, is_zero in *; simpl in *.

(** Decides goals about instants by reading them as integers. *)
Ltac time_lia :=
  time_unfold;
  repeat match goal with
  | H : context [if ?a <? ?b then _ else _] |- _ => destruct (Z.ltb_spec a b); simpl in *
  | |- context [if ?a <? ?b then _ else _] => destruct (Z.ltb_spec a b); simpl in *
  end;
  zbool; try lia.

Lemma time_sub_ge a b d : - 2^63 < d → d ≤ time_sub a b → ns b + d ≤ ns a.
Proof. unfold time_sub. intros ? ?%sat64_ge; lia. Qed.

Lemma time_sub_ge' a b d : d < 2^63 → ns b + d ≤ ns a → d ≤ time_sub a b.
Proof. unfold time_sub, sat64, min_int64, max_int64. lia. Qed.

Lemma time_sub_lt a b d : d < 2^63 → time_sub a b < d → ns a < ns b + d.
Proof. unfold time_sub. intros ? ?%sat64_lt; lia. Qed.

Lemma later_of_ge a b : ns a ≤ ns (later_of a b) ∧ ns b ≤ ns (later_of a b).
Proof. time_lia. Qed.

Lemma earlier_of_le a b : ns (earlier_of a b) ≤ ns a ∧ ns (earlier_of a b) ≤ ns b.
Proof. time_lia. Qed.

Lemma truncate_bounds t d : 0 < d → ns (truncate t d) ≤ ns t < ns (truncate t d) + d.
Proof. simpl. intros. pose proof (Z.mod_pos_bound (ns t) d). lia. Qed.

(** ** Strings *)

Definition is_space (c : ascii) : bool :=
  let n := nat_of_ascii c in
  ((n =? 32) || ((9 <=? n) && (n <=? 13)))%nat.

Definition upper_ascii (c : ascii) : ascii :=
  let n := nat_of_ascii c in
  if ((97 <=? n) && (n <=? 122))%nat then ascii_of_nat (n - 32) else c.

Fixpoint trim_left (l : list ascii) : list ascii :=
  match l with
  | c :: l' => if is_space c then trim_left l' else l
  | [] => []
  end.

Definition trim_chars (l : list ascii) : list ascii := rev (trim_left (rev (trim_left l))).

(** [strings.TrimSpace] and [strings.ToUpper] *)
Definition TrimSpace (s : string) : string :=
  string_of_list_ascii (trim_chars (list_ascii_of_string s)).
Definition ToUpper (s : string) : string :=
  string_of_list_ascii (map upper_ascii (list_ascii_of_string s)).

Definition str_eqb (a b : string) : bool := String.eqb a b.
(** [strings.EqualFold] *)
Definition EqualFold (a b : string) : bool := str_eqb (ToUpper a) (ToUpper b).
(** [strings.HasSuffix] *)
Definition HasSuffix (s suffix : string) : bool :=
  let n := String.length s in
  let m := String.length suffix in
  (m <=? n)%nat && str_eqb (substring (n - m) m s) suffix.
(** Go's [<] on strings is bytewise lexicographic. *)
Definition str_ltb (a b : string) : bool := String.ltb a b.
Definition str_empty (a : string) : bool := str_eqb a "".

Lemma str_eqb_eq a b : str_eqb a b = true ↔ a = b.
Proof. apply String.eqb_eq. Qed.

Lemma str_eqb_refl a : str_eqb a a = true.
Proof. apply String.eqb_refl. Qed.

Lemma str_eqb_neq a b : str_eqb a b = false ↔ a ≠ b.
Proof. apply String.eqb_neq. Qed.

Lemma str_eqb_sym a b : str_eqb a b = str_eqb b a.
Proof. apply String.eqb_sym. Qed.

Lemma str_ltb_asym a b : str_ltb a b = true → str_ltb b a = false.
Proof.
  unfold str_ltb, String.ltb. rewrite (String.compare_antisym b a).
  destruct (String.compare a b); simpl; congruence.
Qed.

Lemma str_ltb_irrefl a : str_ltb a a = false.
Proof.
  destruct (str_ltb a a) eqn:E; [|done]. by rewrite (str_ltb_asym _ _ E) in E.
Qed.

Lemma str_ltb_total a b : str_ltb a b = false → str_ltb b a = false → a = b.
Proof.
  unfold str_ltb, String.ltb. rewrite (String.compare_antisym b a).
  destruct (String.compare a b) eqn:E; simpl; try discriminate.
  intros. by apply String.compare_eq_iff.
Qed.

Lemma str_ltb_trans a b c : str_ltb a b = true → str_ltb b c = true → str_ltb a c = true.
Proof.
  unfold str_ltb, String.ltb. revert b c. induction a as [|x a IH]; intros [|y b] [|z c]; simpl; try done.
  unfold Ascii.compare. specialize (IH b c).
  destruct (N.compare_spec (N_of_ascii x) (N_of_ascii y)) as [E1|E1|E1]; [rewrite E1| |done];
    destruct (N.compare_spec (N_of_ascii y) (N_of_ascii z)) as [E2|E2|E2]; try done.
  - by rewrite <-E2, (proj2 (N.compare_lt_iff _ _) E1).
  - by rewrite (proj2 (N.compare_lt_iff _ _) (N.lt_trans _ _ _ E1 E2)).
Qed.

Lemma str_ltb_false_trans a b c : str_ltb b a = false → str_ltb c b = false → str_ltb c a = false.
Proof.
  intros H1 H2. destruct (str_ltb a b) eqn:E1; [|by rewrite (str_ltb_total _ _ E1 H1)].
  destruct (str_ltb b c) eqn:E2; [|by rewrite <-(str_ltb_total _ _ E2 H2)].
  by apply str_ltb_asym, (str_ltb_trans _ b).
Qed.

Create Rewrite HintDb str.
#[export] Hint Rewrite str_eqb_eq str_eqb_neq : str.

(** ** Options compared through the pointers of the source *)

Definition is_nil {A} (o : option A) : bool := match o with None => true | Some _ => false end.
Definition not_nil {A} (o : option A) : bool := negb (is_nil o).
(** [p != nil && f *p] *)
Definition opt_test {A} (f : A → bool) (o : option A) : bool := match o with Some a => f a | None => false end.

Lemma not_nil_some {A} (o : option A) : not_nil o = true ↔ is_Some o.
Proof. destruct o; cbn; split; try done; by intros [? ?]. Qed.

(** ** Instants as text: [Time.Format(time.RFC3339Nano)] *)

Definition pad (width : nat) (n : Z) : string :=
  let digits := pretty (Z.to_N (Z.abs n)) in
  let zeros := fold_right String.append ""%string (replicate (width - String.length digits) "0"%string) in
  ((if (n <? 0)%Z then "-" else "") +:+ zeros +:+ digits)%string.

(** Proleptic Gregorian date of a day counted from 1 January of year 1. *)
Definition civil (day : Z) : Z * Z * Z :=
  let z := day + 306 in
  let era := z / 146097 in
  let doe := z mod 146097 in
  let yoe := (doe - doe / 1460 + doe / 36524 - doe / 146096) / 365 in
  let doy := doe - (365 * yoe + yoe / 4 - yoe / 100) in
  let mp := (5 * doy + 2) / 153 in
  let d := doy - (153 * mp + 2) / 5 + 1 in
  let m := if mp <? 10 then mp + 3 else mp - 9 in
  (yoe + era * 400 + (if m <=? 2 then 1 else 0), m, d).

(** The fraction of a second without its trailing zeros. *)
Fixpoint strip_zeros (l : list ascii) : list ascii :=
  match l with
  | "0"%char :: l => strip_zeros l
  | _ => l
  end.

Definition fraction (nanos : Z) : string :=
  if nanos =? 0 then ""
  else ("." +:+ String.string_of_list_ascii
          (rev (strip_zeros (rev (String.list_ascii_of_string (pad 9 nanos))))))%string.

Definition format_utc (t : Time) : string :=
  let second := ns t / Second in
  let nanos := ns t mod Second in
  let day := second / 86400 in
  let clock := second mod 86400 in
  let '(y, m, d) := civil day in
  (pad 4 y +:+ "-" +:+ pad 2 m +:+ "-" +:+ pad 2 d +:+ "T" +:+
   pad 2 (clock / 3600) +:+ ":" +:+ pad 2 (clock / 60 mod 60) +:+ ":" +:+ pad 2 (clock mod 60) +:+
   fraction nanos +:+ "Z")%string.

Example format_utc_2024 : format_utc (mk_time 63844805045120000000 true) = "2024-02-29T12:04:05.12Z"%string.
Proof. vm_compute. reflexivity. Qed.

(** [Time.Format(time.RFC3339)] of an instant in UTC *)
Definition FormatRFC3339 (t : Time) : string := format_utc (truncate t Second).
