(* ===== verification/SequenceData.v ===== *)
(** * AMAN data model

    The domain types of [internal/aman/types.go] that sequencing reads, and the
    data of [internal/aman/sequence/engine.go]: the runway-group policy, the
    flight view, the calculation input and its result. A Go pointer field is an
    [option]; an [int] field is a [Z]; named string types are [string], except
    the flight state and the freeze reason, which are inductive types with a
    constructor for the values their [Valid] methods reject. *)

From S2P Require Import Prelude GoTime.
From Stdlib Require Import Floats.SpecFloat.

Local Open Scope Z_scope.

(** ** Domain errors *)

Definition ErrorInvalidArgument : string := "invalid_argument".
Definition ErrorNotFound : string := "not_found".
Definition ErrorRevisionConflict : string := "revision_conflict".
Definition ErrorInvalidTransition : string := "invalid_transition".

Definition DomainError (class format : string) (args : list fmt_arg) : error :=
  mk_error (Some class) format args.

(** ** Lifecycle state and freeze reason *)

Inductive FlightState :=
| StatePlanned | StateAirborne | StateUnstable | StateStable
| StateLanded | StateGoAround | StateRemoved
| StateOther (value : string).

#[export] Instance FlightState_eq_dec : EqDecision FlightState.
Proof. solve_decision. Defined.

Definition FlightState_Valid (s : FlightState) : bool :=
  match s with
  | StatePlanned | StateAirborne | StateUnstable | StateStable
  | StateLanded | StateGoAround | StateRemoved => true
  | StateOther _ => false
  end.

Inductive FreezeReason :=
| FreezeNone | FreezeSuperstable | FreezeTMA | FreezeManual
| FreezeOther (value : string).

#[export] Instance FreezeReason_eq_dec : EqDecision FreezeReason.
Proof. solve_decision. Defined.

Definition FreezeReason_Valid (r : FreezeReason) : bool :=
  match r with
  | FreezeNone | FreezeSuperstable | FreezeTMA | FreezeManual => true
  | FreezeOther _ => false
  end.

Definition state_is (a b : FlightState) : bool := bool_decide (a = b).
Definition freeze_is (a b : FreezeReason) : bool := bool_decide (a = b).
Definition frozen (r : FreezeReason) : bool := negb (freeze_is r FreezeNone).
(** [state == StateLanded || state == StateRemoved] *)
Definition inactive (s : FlightState) : bool := state_is s StateLanded || state_is s StateRemoved.

(** ** Slots, gaps, closures *)

Record Slot := mk_slot {
  sl_Time : Time;
  sl_RunwayGroupID : string;
  sl_Sequence : Z;
  sl_Revision : Z;
  sl_Reason : string
}.

#[export] Instance Slot_eq_dec : EqDecision Slot.
Proof. solve_decision. Defined.

Record RatePoint := mk_rate { rp_EffectiveAt : Time; rp_ArrivalsPerHour : Z }.

Record Gap := mk_gap { gap_Start : Time; gap_End : Time }.

Record RunwayClosure := mk_closure {
  cl_ID : string;
  cl_Start : Time;
  cl_End : option Time;
  cl_Reason : string;
  cl_CreatedAt : Time;
  cl_CreatedBy : string
}.

Record SeparationRule := mk_rule { sr_Leading : string; sr_Trailing : string; sr_Minimum : Duration }.

Record SameSTARSpacing := mk_spacing {
  ss_Enabled : bool;
  ss_ActivationRatePerHour : Z;
  ss_MinimumEmptySlots : Z
}.

(** ** Holding-sequence policy of a STAR family *)

Definition HoldingSequenceDisabled : string := "disabled".
Definition HoldingSequenceLowestAltitudeFirst : string := "lowest_altitude_first".

Definition HoldingSequencePolicy_Valid (p : string) : bool :=
  str_eqb p HoldingSequenceDisabled || str_eqb p HoldingSequenceLowestAltitudeFirst.

Definition HoldingSequencePolicy_Effective (p : string) : string :=
  if str_empty p then HoldingSequenceDisabled else p.

Record STARFamilyPolicy := mk_family {
  sf_STARFamily : string;
  sf_SameSTARSpacing : SameSTARSpacing;
  sf_HoldingSequencePolicy : string
}.

(** ** Runway-group policy *)

Record Policy := mk_policy {
  po_RunwayGroupID : string;
  po_ContinuousSpacing : bool;
  po_AllowCrossFeederOvertake : bool;
  po_Rates : list RatePoint;
  po_Gaps : list Gap;
  po_Closures : list RunwayClosure;
  po_EarlyTolerance : Duration;
  po_SeparationRules : list SeparationRule;
  po_UnknownSeparation : Duration;
  po_SameSTARSpacing : SameSTARSpacing
}.

Definition WakeUnknown : string := "UNKNOWN".

(** ** Flights

    [sp_DistanceToGoNM] is an IEEE binary64 number, in the standard library's
    executable specification of them. *)

Record STARProgress := mk_progress {
  sp_Fix : string;
  sp_ETA : option Time;
  sp_Passed : bool;
  sp_DistanceToGoNM : spec_float;
  sp_RemainingFixes : list string;
  sp_TerminalDigest : string
}.

Record Flight := mk_flight {
  fl_Operations : list string;
  fl_Callsign : string;
  fl_RunwayGroupID : string;
  fl_State : FlightState;
  fl_DemandArrivalAt : option Time;
  fl_OperationalTETA : Time;
  fl_InitialBaselineTETA : option Time;
  fl_PromotionNotBefore : option Time;
  fl_WakeCategory : string;
  fl_STARFamily : string;
  fl_SelectedSTARFamily : string;
  fl_STARProgress : option STARProgress;
  fl_ManualOrder : option Z;
  fl_FreezeReason : FreezeReason;
  fl_FrozenAt : option Time;
  fl_FrozenOperationalTETA : option Time;
  fl_CapturedSlot : option Slot;
  fl_CurrentSlot : option Slot;
  fl_HoldingStackID : string;
  fl_HoldingAltitudeFeet : option Z;
  fl_HoldingQueueID : string;
  fl_HoldingQueueTime : option Time;
  fl_HoldingTransit : Duration;
  fl_ActiveHoldingSince : option Time;
  fl_ArrivalQueueTime : option Time;
  fl_HoldingSlotProtected : bool;
  fl_SlotNotBefore : option Time;
  fl_ProtectCurrentSlot : bool;
  fl_ReleaseRank : option Z;
  fl_RebuildTMA : bool;
  fl_RebuildRetained : bool;
  fl_HoldingStartedAt : option Time
}.

(** Field assignments [flight.X = v]. *)
Definition eta_Flight (f : Flight) : Flight :=
  mk_flight
    (fl_Operations f) (fl_Callsign f) (fl_RunwayGroupID f) (fl_State f) (fl_DemandArrivalAt f)
    (fl_OperationalTETA f) (fl_InitialBaselineTETA f) (fl_PromotionNotBefore f) (fl_WakeCategory f)
    (fl_STARFamily f) (fl_SelectedSTARFamily f) (fl_STARProgress f) (fl_ManualOrder f) (fl_FreezeReason
    f) (fl_FrozenAt f) (fl_FrozenOperationalTETA f) (fl_CapturedSlot f) (fl_CurrentSlot f)
    (fl_HoldingStackID f) (fl_HoldingAltitudeFeet f) (fl_HoldingQueueID f) (fl_HoldingQueueTime f)
    (fl_HoldingTransit f) (fl_ActiveHoldingSince f) (fl_ArrivalQueueTime f) (fl_HoldingSlotProtected f)
    (fl_SlotNotBefore f) (fl_ProtectCurrentSlot f) (fl_ReleaseRank f) (fl_RebuildTMA f)
    (fl_RebuildRetained f) (fl_HoldingStartedAt f).

Definition set_Operations (v : list string) (f : Flight) : Flight := ltac:(record_set eta_Flight fl_Operations v f).
Definition set_OperationalTETA (v : Time) (f : Flight) : Flight := ltac:(record_set eta_Flight fl_OperationalTETA v f).
Definition set_STARFamily (v : string) (f : Flight) : Flight := ltac:(record_set eta_Flight fl_STARFamily v f).
Definition set_SelectedSTARFamily (v : string) (f : Flight) : Flight := ltac:(record_set eta_Flight fl_SelectedSTARFamily v f).
Definition set_ManualOrder (v : option Z) (f : Flight) : Flight := ltac:(record_set eta_Flight fl_ManualOrder v f).
Definition set_FreezeReason (v : FreezeReason) (f : Flight) : Flight := ltac:(record_set eta_Flight fl_FreezeReason v f).
Definition set_FrozenAt (v : option Time) (f : Flight) : Flight := ltac:(record_set eta_Flight fl_FrozenAt v f).
Definition set_FrozenOperationalTETA (v : option Time) (f : Flight) : Flight := ltac:(record_set eta_Flight fl_FrozenOperationalTETA v f).
Definition set_CapturedSlot (v : option Slot) (f : Flight) : Flight := ltac:(record_set eta_Flight fl_CapturedSlot v f).
Definition set_CurrentSlot (v : option Slot) (f : Flight) : Flight := ltac:(record_set eta_Flight fl_CurrentSlot v f).
Definition set_HoldingQueueTime (v : option Time) (f : Flight) : Flight := ltac:(record_set eta_Flight fl_HoldingQueueTime v f).
Definition set_ActiveHoldingSince (v : option Time) (f : Flight) : Flight := ltac:(record_set eta_Flight fl_ActiveHoldingSince v f).
Definition set_ArrivalQueueTime (v : option Time) (f : Flight) : Flight := ltac:(record_set eta_Flight fl_ArrivalQueueTime v f).
Definition set_SlotNotBefore (v : option Time) (f : Flight) : Flight := ltac:(record_set eta_Flight fl_SlotNotBefore v f).
Definition set_ProtectCurrentSlot (v : bool) (f : Flight) : Flight := ltac:(record_set eta_Flight fl_ProtectCurrentSlot v f).
Definition set_ReleaseRank (v : option Z) (f : Flight) : Flight := ltac:(record_set eta_Flight fl_ReleaseRank v f).
Definition set_RebuildRetained (v : bool) (f : Flight) : Flight := ltac:(record_set eta_Flight fl_RebuildRetained v f).

Record Input := mk_input {
  in_Revision : Z;
  in_Policies : list Policy;
  in_STARFamilyPolicies : list STARFamilyPolicy;
  in_Flights : list Flight
}.

(** ** Results *)

Definition ReasonRateWTC : string := "rate_wtc".
Definition ReasonFreezeSuperstable : string := "freeze_superstable".
Definition ReasonFreezeTMA : string := "freeze_tma".
Definition ReasonFreezeManual : string := "freeze_manual".
Definition ReasonStable : string := "stable".
Definition ReasonQueuePromotion : string := "queue_promotion".
Definition ReasonGoAround : string := "go_around".
Definition ReasonGoAroundCascade : string := "go_around_cascade".

Record CandidateEntry := mk_entry {
  ce_Callsign : string;
  ce_RunwayGroupID : string;
  ce_Sequence : Z;
  ce_Time : Time;
  ce_OperationalTETA : Time;
  ce_WakeCategory : string;
  ce_FreezeReason : FreezeReason;
  ce_Protected : bool;
  ce_Reason : string
}.

Record SlotMovement := mk_movement {
  sm_Callsign : string;
  sm_RunwayGroupID : string;
  sm_FromTime : option Time;
  sm_FromSequence : option Z;
  sm_ToTime : Time;
  sm_ToSequence : Z
}.

Definition SeverityDegraded : string := "degraded".
Definition SeverityConflict : string := "conflict".

Definition WarningUnknownWakeCategory : string := "unknown_wake_category".
Definition WarningProtectedSlotMissing : string := "protected_slot_missing".
Definition WarningProtectedSlotInvalid : string := "protected_slot_invalid".
Definition WarningProtectedSpacing : string := "protected_spacing_conflict".
Definition WarningProtectedSameSTAR : string := "protected_same_star_spacing".
Definition WarningUnknownSTARFamily : string := "unknown_star_family".

Record Warning := mk_warning {
  w_Severity : string;
  w_Code : string;
  w_RunwayGroupID : string;
  w_Callsign : string;
  w_RelatedCallsign : option string;
  w_STARFamily : string
}.

Record Operation := mk_operation { op_Callsign : string; op_Kind : string }.

Record Result := mk_result {
  re_Operations : list Operation;
  re_Entries : list CandidateEntry;
  re_Movements : list SlotMovement;
  re_Warnings : list Warning
}.

Definition is_conflict (w : Warning) : bool := str_eqb (w_Severity w) SeverityConflict.

Definition HasConflicts (r : Result) : bool := existsb is_conflict (re_Warnings r).

(** ** Prepared policy and flight

    A prepared policy embeds the raw policy, whose gaps and closures have been
    replaced by sorted copies; a prepared flight embeds the raw flight. *)

Record preparedSTARFamilyPolicy := mk_pfamily {
  pfm_sameSTARSpacing : SameSTARSpacing;
  pfm_holdingSequencePolicy : string
}.

Record preparedSTARFamilyPolicies := mk_pfamilies {
  pfs_byFamily : gmap string preparedSTARFamilyPolicy;
  pfs_authoritative : bool
}.

Record preparedPolicy := mk_ppolicy {
  pp_Policy :> Policy;
  pp_rates : list RatePoint;
  pp_spacing : gmap (string * string) Duration;
  pp_categories : gset string;
  pp_fallback : Duration;
  pp_starFamilies : preparedSTARFamilyPolicies;
  pp_demandTimes : list Time;
  pp_activeHoldingFamilies : gset string
}.

Record preparedFlight := mk_pflight {
  pf_Flight :> Flight;
  pf_category : string;
  pf_known : bool;
  pf_stableOrder : option Z;
  pf_holdingSequencePolicy : string
}.

(** Updates of the embedded flight and of the stable order. *)
Definition map_Flight (g : Flight → Flight) (f : preparedFlight) : preparedFlight :=
  mk_pflight (g f) (pf_category f) (pf_known f) (pf_stableOrder f) (pf_holdingSequencePolicy f).
Definition set_stableOrder (v : option Z) (f : preparedFlight) : preparedFlight :=
  mk_pflight f (pf_category f) (pf_known f) v (pf_holdingSequencePolicy f).

Record allocatedEntry := mk_alloc {
  ae_flight : preparedFlight;
  ae_time : Time;
  ae_reason : string
}.

Definition reason_is (e : allocatedEntry) (r : string) : bool := str_eqb (ae_reason e) r.

Lemma frozen_false r : frozen r = false ↔ r = FreezeNone.
Proof. unfold frozen, freeze_is. rewrite negb_false_iff. apply bool_decide_eq_true. Qed.

Lemma frozen_true r : frozen r = true ↔ r ≠ FreezeNone.
Proof. unfold frozen, freeze_is. rewrite negb_true_iff. apply bool_decide_eq_false. Qed.
