(* ===== verification/DomainValues.v ===== *)
(** * Validation of domain values

    The checks the validation methods of [internal/aman/types.go] share:
    required UTC instants and canonical strings, and the error they return. *)

From S2P Require Import Prelude GoTime SequenceData.

Local Open Scope Z_scope.

(** [invalid(message)] *)
Definition invalid_argument (message : string) : error := DomainError ErrorInvalidArgument message [].

(** [value.IsZero()] or a location other than UTC is refused. *)
Definition requireUTCTime (name : string) (value : Time) : outcome unit :=
  _ ← guard_err (is_zero value) (invalid_argument (name +:+ " is required")%string);
  guard_err (negb (is_utc value)) (invalid_argument (name +:+ " must be UTC")%string).

Definition isTrimmedNonEmpty (value : string) : bool := negb (str_empty value) && str_eqb (TrimSpace value) value.

(** ** What the checks establish *)

Definition valid_time (t : Time) : Prop := is_zero t = false ∧ is_utc t = true.

Lemma requireUTCTime_iff name t : requireUTCTime name t = Ok tt ↔ valid_time t.
Proof. unfold requireUTCTime, valid_time. by rewrite bind_unit_iff, !guard_err_iff, negb_false_iff. Qed.

Lemma requireUTCTime_returns name t : returns (requireUTCTime name t).
Proof. unfold requireUTCTime. by destruct (is_zero t), (is_utc t). Qed.

(** A valid instant is what the calculation input accepts as one. *)
Lemma valid_time_UTC t : valid_time t ↔ validUTC t = true.
Proof. unfold valid_time, validUTC. by rewrite andb_true_iff, negb_true_iff. Qed.
