(* ===== verification/SequenceGrid.v ===== *)
(** * Runway slot grid

    The rate grid, capacity gaps and closures of one prepared runway-group
    policy ([engine.go]: [rateInterval], [rateAt], [intervalAt],
    [nextGridAtOrAfter], [previousGridAtOrBefore] and their helpers). The two
    search loops are shown to terminate and to return exactly the nearest
    unblocked grid point in their direction. *)

From S2P Require Import Prelude GoTime SequenceData.

Local Open Scope Z_scope.

(** ** Arrival rate *)

Definition rateInterval (rate : Z) : Duration := u64 (Hour + rate - 1) / rate.

Definition rateAt (p : preparedPolicy) (at_ : Time) : Z :=
  match sort_search_list (λ r, after (rp_EffectiveAt r) at_) (pp_rates p) with
  | O => 0
  | S index => match pp_rates p !! index with Some r => rp_ArrivalsPerHour r | None => 0 end
  end.

Definition intervalAt (p : preparedPolicy) (at_ : Time) : Duration :=
  let rate := rateAt p at_ in
  if rate =? 0 then 0 else rateInterval rate.

(** ** Capacity gaps and closures *)

(** [Some gap] is Go's [(gap, true)]. *)
Definition blockingGap (p : preparedPolicy) (candidate : Time) : option Gap :=
  match po_Gaps p !! sort_search_list (λ g, after (gap_End g) candidate) (po_Gaps p) with
  | None => None
  | Some gap =>
      if negb (before candidate (gap_Start gap)) && before candidate (gap_End gap) then Some gap else None
  end.

(** [Some None] is an indefinite closure, [Some (Some end)] one that ends. *)
Fixpoint closure_scan (closures : list RunwayClosure) (candidate : Time) : option (option Time) :=
  match closures with
  | [] => None
  | closure :: rest =>
      if before candidate (cl_Start closure) then None
      else match cl_End closure with
           | None => Some None
           | Some e => if before candidate e then Some (Some e) else closure_scan rest candidate
           end
  end.

Definition blockingClosure (p : preparedPolicy) (candidate : Time) : option (option Time) :=
  closure_scan (po_Closures p) candidate.

(** ** Next grid point *)

Fixpoint next_rate_grid (rates : list RatePoint) (target : Time) : option Time :=
  match rates with
  | [] => None
  | rate :: rest =>
      let skip := match rest with
                  | next :: _ => negb (before target (rp_EffectiveAt next))
                  | [] => false
                  end in
      if skip then next_rate_grid rest target
      else
        let start := rp_EffectiveAt rate in
        if before target start then Some start
        else
          let interval := rateInterval (rp_ArrivalsPerHour rate) in
          let delta := time_sub target start in
          let steps := dur_div delta interval in
          let steps := if dur_rem delta interval =? 0 then steps else dur_add steps 1 in
          let candidate := time_add start (dur_mul steps interval) in
          match rest with
          | [] => Some candidate
          | next :: _ =>
              if before candidate (rp_EffectiveAt next) then Some candidate
              else next_rate_grid rest target
          end
  end.

Definition nextRateGridAtOrAfter (p : preparedPolicy) (target : Time) : option Time :=
  next_rate_grid (pp_rates p) target.

(** The grid point the loop of [nextGridAtOrAfter] looks at. *)
Definition next_point (p : preparedPolicy) (target : Time) : outcome (option Time) :=
  if po_ContinuousSpacing p then
    first ← deref (head (pp_rates p));
    let target := later_of target (rp_EffectiveAt first) in
    let candidate := truncate target Second in
    Ok (Some (if before candidate target then time_add candidate Second else candidate))
  else Ok (nextRateGridAtOrAfter p target).

Definition next_step (p : preparedPolicy) (target : Time) : outcome (Time + option Time) :=
  point ← next_point p target;
  match point with
  | None => Ok (inr None)
  | Some candidate =>
      match blockingClosure p candidate with
      | Some None => Ok (inr None)
      | Some (Some e) => Ok (inl e)
      | None =>
          match blockingGap p candidate with
          | None => Ok (inr (Some candidate))
          | Some gap => Ok (inl (gap_End gap))
          end
      end
  end.

(** Every gap and every closure sends the search on at most once. *)
Definition grid_fuel (p : preparedPolicy) : positive :=
  Pos.of_succ_nat (S (length (po_Gaps p) + length (po_Closures p))).

Definition nextGridAtOrAfter (p : preparedPolicy) (target : Time) : outcome (option Time) :=
  iterate (grid_fuel p) (next_step p) target.

(** ** Previous grid point *)

Definition previousRateGridAtOrBefore (p : preparedPolicy) (target : Time) : option Time :=
  match sort_search_list (λ r, after (rp_EffectiveAt r) target) (pp_rates p) with
  | O => None
  | S index =>
      match pp_rates p !! index with
      | None => None
      | Some rate =>
          let interval := rateInterval (rp_ArrivalsPerHour rate) in
          let delta := time_sub target (rp_EffectiveAt rate) in
          Some (time_add (rp_EffectiveAt rate) (dur_mul (dur_div delta interval) interval))
      end
  end.

Definition previous_point (p : preparedPolicy) (target : Time) : outcome (option Time) :=
  if po_ContinuousSpacing p then
    let candidate := truncate target Second in
    first ← deref (head (pp_rates p));
    Ok (if before candidate (rp_EffectiveAt first) then None else Some candidate)
  else Ok (previousRateGridAtOrBefore p target).

(** The closure that contains [candidate], as the loop of [previousGridAtOrBefore] finds it. *)
Definition containing_closure (p : preparedPolicy) (candidate : Time) : option RunwayClosure :=
  List.find (λ closure, negb (before candidate (cl_Start closure)) &&
                   match cl_End closure with None => true | Some e => before candidate e end)
            (po_Closures p).

Definition previous_step (p : preparedPolicy) (target : Time) : outcome (Time + option Time) :=
  point ← previous_point p target;
  match point with
  | None => Ok (inr None)
  | Some candidate =>
      match blockingClosure p candidate with
      | Some _ =>
          Ok (inl (match containing_closure p candidate with
                   | Some closure => time_add (cl_Start closure) (- Nanosecond)
                   | None => target
                   end))
      | None =>
          match blockingGap p candidate with
          | None => Ok (inr (Some candidate))
          | Some gap => Ok (inl (time_add (gap_Start gap) (- Nanosecond)))
          end
      end
  end.

Definition previousGridAtOrBefore (p : preparedPolicy) (target : Time) : outcome (option Time) :=
  iterate (grid_fuel p) (previous_step p) target.

(** ** Well-formed policies

    What [preparePolicies] establishes of the sorted rates, gaps and closures
    ([SequencePrepare.preparePolicies_wf]). *)

Record grid_wf (p : preparedPolicy) : Prop := {
  gw_nonempty : pp_rates p ≠ [];
  gw_sorted : chain (λ a b, ns (rp_EffectiveAt a) < ns (rp_EffectiveAt b)) (pp_rates p);
  gw_rates : Forall (λ r, 0 < rp_ArrivalsPerHour r < 2^32) (pp_rates p);
  gw_gaps : chain (λ a b, ns (gap_End a) < ns (gap_Start b)) (po_Gaps p);
  gw_gap : Forall (λ g, ns (gap_Start g) < ns (gap_End g)) (po_Gaps p);
  gw_closures : chain (λ a b, ns (cl_Start a) ≤ ns (cl_Start b)) (po_Closures p);
  gw_closure : Forall (λ c, match cl_End c with Some e => ns (cl_Start c) < ns e | None => True end) (po_Closures p)
}.

(** Differences between instants saturate at about 292 years; the grid
    arithmetic is exact up to an hour short of that from the first rate point. *)
Definition grid_span : Z := 2^63 - 1 - Hour.

Definition in_horizon (p : preparedPolicy) (t : Time) : Prop :=
  ∀ r, head (pp_rates p) = Some r → ns t ≤ ns (rp_EffectiveAt r) + grid_span.

Record grid_horizon (p : preparedPolicy) : Prop := {
  gh_gaps : Forall (λ g, in_horizon p (gap_End g)) (po_Gaps p);
  gh_closures : Forall (λ c, match cl_End c with Some e => in_horizon p e | None => True end) (po_Closures p)
}.

(** The abstract grid: whole seconds from the first rate point on under
    continuous spacing, otherwise the cells of the rate in force. *)
Definition grid_point (p : preparedPolicy) (t : Time) : Prop :=
  if po_ContinuousSpacing p then
    ns t mod Second = 0 ∧ ∀ r, head (pp_rates p) = Some r → ns (rp_EffectiveAt r) ≤ ns t
  else ∃ i r k,
    pp_rates p !! i = Some r ∧ 0 ≤ k ∧
    ns t = ns (rp_EffectiveAt r) + k * rateInterval (rp_ArrivalsPerHour r) ∧
    ∀ r', pp_rates p !! S i = Some r' → ns t < ns (rp_EffectiveAt r').

(** Runway capacity is withdrawn at [t]. *)
Definition blocked (p : preparedPolicy) (t : Time) : Prop :=
  (∃ g, g ∈ po_Gaps p ∧ ns (gap_Start g) ≤ ns t < ns (gap_End g)) ∨
  (∃ c, c ∈ po_Closures p ∧ ns (cl_Start c) ≤ ns t ∧
        match cl_End c with Some e => ns t < ns e | None => True end).

Lemma rateInterval_bounds r : 0 < r < 2^32 → 1 ≤ rateInterval r ≤ Hour.
Proof.
  intros Hr. unfold rateInterval, u64, Hour, Minute, Second.
  rewrite Z.mod_small by lia. split.
  - apply Z.div_le_lower_bound; lia.
  - apply Z.div_le_upper_bound; nia.
Qed.

(** ** Lookups in the sorted policy *)

Lemma rates_monotone (p : preparedPolicy) t : grid_wf p →
  chain (λ a b, after (rp_EffectiveAt a) t = true → after (rp_EffectiveAt b) t = true) (pp_rates p).
Proof. intros H. eapply chain_mono; [|apply gw_sorted, H]. intros a b; simpl. time_lia. Qed.

(** The rate search finds the last rate point not after the instant. *)
Lemma rate_search (p : preparedPolicy) t : grid_wf p →
  match sort_search_list (λ r, after (rp_EffectiveAt r) t) (pp_rates p) with
  | O => ∀ r, head (pp_rates p) = Some r → ns t < ns (rp_EffectiveAt r)
  | S i => ∃ r, pp_rates p !! i = Some r ∧ ns (rp_EffectiveAt r) ≤ ns t ∧
                ∀ r', pp_rates p !! S i = Some r' → ns t < ns (rp_EffectiveAt r')
  end.
Proof.
  intros Hwf. pose proof (sort_search_list_spec _ _ (rates_monotone p t Hwf)) as (Hk & Hlo & Hhi).
  destruct (sort_search_list _ _) as [|i].
  - intros r Hr. rewrite drop_0 in Hhi. destruct (pp_rates p) as [|r0 l]; simplify_eq/=.
    apply Forall_cons in Hhi as [? _]. time_lia.
  - destruct (lookup_lt_is_Some_2 (pp_rates p) i) as [r Hr]; [lia|]. exists r. split_and!; [done| |].
    + rewrite Forall_lookup in Hlo. specialize (Hlo i r). rewrite lookup_take_lt in Hlo by lia.
      specialize (Hlo Hr). time_lia.
    + intros r' Hr'. rewrite Forall_lookup in Hhi. specialize (Hhi 0%nat r').
      rewrite lookup_drop, Nat.add_0_r in Hhi. specialize (Hhi Hr'). time_lia.
Qed.

Lemma rate_positive (p : preparedPolicy) i r :
  grid_wf p → pp_rates p !! i = Some r → 0 < rp_ArrivalsPerHour r < 2^32.
Proof. intros Hwf Hr. pose proof (gw_rates _ Hwf) as H. rewrite Forall_lookup in H. eauto. Qed.

Lemma rates_ordered (p : preparedPolicy) i j a b :
  grid_wf p → (i < j)%nat → pp_rates p !! i = Some a → pp_rates p !! j = Some b →
  ns (rp_EffectiveAt a) < ns (rp_EffectiveAt b).
Proof.
  intros Hwf Hij Ha Hb.
  eapply (chain_trans_lookup (λ a b, ns (rp_EffectiveAt a) < ns (rp_EffectiveAt b)) (pp_rates p) i j);
    [intros; lia|apply gw_sorted, Hwf|done..].
Qed.

Lemma head_first (p : preparedPolicy) i r r0 :
  grid_wf p → head (pp_rates p) = Some r0 → pp_rates p !! i = Some r →
  ns (rp_EffectiveAt r0) ≤ ns (rp_EffectiveAt r).
Proof.
  intros Hwf H0 Hr. rewrite head_lookup in H0. destruct i as [|i]; [simplify_eq; lia|].
  pose proof (rates_ordered p 0 (S i) r0 r Hwf ltac:(lia) H0 Hr). lia.
Qed.

(** A rate is in force from the first rate point on, and only then. *)
Lemma intervalAt_bounds (p : preparedPolicy) t r0 :
  grid_wf p → head (pp_rates p) = Some r0 → ns (rp_EffectiveAt r0) ≤ ns t →
  1 ≤ intervalAt p t ≤ Hour.
Proof.
  intros Hwf H0 Ht. unfold intervalAt, rateAt. pose proof (rate_search p t Hwf) as Hs.
  destruct (sort_search_list _ _) as [|i].
  - specialize (Hs _ H0). lia.
  - destruct Hs as (r & Hr & _). rewrite Hr. pose proof (rate_positive p i r Hwf Hr).
    destruct (Z.eqb_spec (rp_ArrivalsPerHour r) 0); [lia|]. by apply rateInterval_bounds.
Qed.

Lemma intervalAt_nonneg (p : preparedPolicy) t : grid_wf p → 0 ≤ intervalAt p t ≤ Hour.
Proof.
  intros Hwf. unfold intervalAt, rateAt. pose proof (rate_search p t Hwf) as Hs.
  destruct (sort_search_list _ _) as [|i]; [unfold Hour, Minute, Second; simpl; lia|].
  destruct Hs as (r & Hr & _). rewrite Hr. pose proof (rate_positive p i r Hwf Hr).
  destruct (Z.eqb_spec (rp_ArrivalsPerHour r) 0); [lia|].
  pose proof (rateInterval_bounds _ H). lia.
Qed.

Lemma intervalAt_started (p : preparedPolicy) t r0 :
  grid_wf p → head (pp_rates p) = Some r0 → intervalAt p t ≠ 0 → ns (rp_EffectiveAt r0) ≤ ns t.
Proof.
  intros Hwf H0. unfold intervalAt, rateAt. pose proof (rate_search p t Hwf) as Hs.
  destruct (sort_search_list _ _) as [|i]; [done|]. intros _.
  destruct Hs as (r & Hr & ? & _). pose proof (head_first p i r r0 Hwf H0 Hr). lia.
Qed.

Lemma grid_nonempty (p : preparedPolicy) : grid_wf p → ∃ r0, head (pp_rates p) = Some r0.
Proof. intros H. pose proof (gw_nonempty _ H). destruct (pp_rates p); [done|]. eauto. Qed.

(** ** The blocking tests decide [blocked] *)

Lemma blockingGap_Some (p : preparedPolicy) t g :
  blockingGap p t = Some g → g ∈ po_Gaps p ∧ ns (gap_Start g) ≤ ns t < ns (gap_End g).
Proof.
  unfold blockingGap. destruct (po_Gaps p !! _) eqn:E; [|done].
  apply list_elem_of_lookup_2 in E. intros. case_match; simplify_eq.
  split; [done|]. time_lia.
Qed.

(** A gap ends before every later one starts. *)
Lemma gaps_ordered (p : preparedPolicy) i j a b :
  grid_wf p → (i < j)%nat → po_Gaps p !! i = Some a → po_Gaps p !! j = Some b →
  ns (gap_End a) < ns (gap_Start b) < ns (gap_End b).
Proof.
  intros Hwf Hij Ha Hb.
  eapply (chain_trans_lookup (λ a b, ns (gap_End a) < ns (gap_Start b) < ns (gap_End b)) (po_Gaps p) i j);
    [intros; lia| |done..].
  eapply chain_mono_in; [|apply gw_gaps, Hwf]. intros x y _ Hy ?.
  pose proof (gw_gap _ Hwf) as Hgap. rewrite Forall_forall in Hgap. specialize (Hgap y Hy). simpl in *. lia.
Qed.

Lemma blockingGap_None (p : preparedPolicy) t :
  grid_wf p → blockingGap p t = None →
  ∀ g, g ∈ po_Gaps p → ¬ (ns (gap_Start g) ≤ ns t < ns (gap_End g)).
Proof.
  intros Hwf Hn g Hg Hin. unfold blockingGap in Hn.
  assert (Hmono : chain (λ a b, after (gap_End a) t = true → after (gap_End b) t = true) (po_Gaps p)).
  { apply chain_lookup. intros i a b Ha Hb.
    pose proof (gaps_ordered p i (S i) a b Hwf ltac:(lia) Ha Hb). simpl. time_lia. }
  pose proof (sort_search_list_spec _ _ Hmono) as (Hk & Hlo & Hhi).
  set (k := sort_search_list _ _) in *. clearbody k.
  apply list_elem_of_lookup in Hg as [i Hi].
  destruct (decide (i < k)%nat) as [Hlt|Hge].
  { rewrite Forall_lookup in Hlo. specialize (Hlo i g). rewrite lookup_take_lt in Hlo by done.
    specialize (Hlo Hi). time_lia. }
  destruct (lookup_lt_is_Some_2 (po_Gaps p) k) as [h Hh]; [apply lookup_lt_Some in Hi; lia|].
  rewrite Hh in Hn. rewrite Forall_lookup in Hhi. specialize (Hhi 0%nat h).
  rewrite lookup_drop, Nat.add_0_r in Hhi. specialize (Hhi Hh).
  destruct (decide (i = k)) as [->|Hne].
  - simplify_eq. case_match eqn:E; [done|]. rewrite andb_false_iff in E. time_lia.
  - pose proof (gaps_ordered p k i h g Hwf ltac:(lia) Hh Hi). time_lia.
Qed.

Lemma closure_scan_Some l t o :
  closure_scan l t = Some o → ∃ c, c ∈ l ∧ ns (cl_Start c) ≤ ns t ∧ cl_End c = o ∧
    match o with Some e => ns t < ns e | None => True end.
Proof.
  induction l as [|c l IH]; simpl; [done|].
  destruct (before t (cl_Start c)) eqn:E1; [done|].
  destruct (cl_End c) as [e|] eqn:Ec.
  - destruct (before t e) eqn:E2.
    + intros [= <-]. exists c. split_and!; [by left|time_lia|done|time_lia].
    + intros (c' & ? & ?)%IH. exists c'. split; [by right|done].
  - intros [= <-]. exists c. split_and!; [by left|time_lia|done|done].
Qed.

Lemma closure_scan_None l t :
  chain (λ a b, ns (cl_Start a) ≤ ns (cl_Start b)) l → closure_scan l t = None →
  ∀ c, c ∈ l → ns (cl_Start c) ≤ ns t → ∃ e, cl_End c = Some e ∧ ns e ≤ ns t.
Proof.
  induction l as [|c l IH]; simpl closure_scan; [set_solver|]. intros Hc Hn c' Hc' Ht.
  assert (Hstart : ns (cl_Start c) ≤ ns (cl_Start c')).
  { apply list_elem_of_lookup in Hc' as [i Hi]. destruct i as [|i]; [simplify_eq/=; lia|].
    eapply (chain_trans_lookup (λ a b, ns (cl_Start a) ≤ ns (cl_Start b)) (c :: l) 0 (S i));
      [intros; lia|done|lia|done|done]. }
  destruct (before t (cl_Start c)) eqn:E1; [time_lia|].
  destruct (cl_End c) as [e|] eqn:Ec; [|done].
  destruct (before t e) eqn:E2; [done|].
  apply elem_of_cons in Hc' as [->|Hc'].
  - exists e. split; [done|time_lia].
  - apply (IH (chain_tail _ _ _ Hc) Hn c' Hc' Ht).
Qed.

Lemma blocked_iff (p : preparedPolicy) t : grid_wf p →
  blocked p t ↔ is_Some (blockingClosure p t) ∨ is_Some (blockingGap p t).
Proof.
  intros Hwf. unfold blocked. split.
  - intros [(g & Hg & Ht)|(c & Hc & Ht & He)].
    + right. destruct (blockingGap p t) eqn:E; [by eexists|]. by destruct (blockingGap_None p t Hwf E g Hg).
    + left. unfold blockingClosure. destruct (closure_scan _ _) eqn:E; [by eexists|].
      destruct (closure_scan_None _ _ (gw_closures _ Hwf) E c Hc Ht) as (e & Hce & ?).
      rewrite Hce in He. lia.
  - intros [[o Ho]|[g Hg]].
    + right. apply closure_scan_Some in Ho as (c & Hc & Ht & <- & He). exists c. by split_and!.
    + left. exists g. by apply blockingGap_Some.
Qed.

Lemma containing_closure_Some (p : preparedPolicy) t :
  is_Some (blockingClosure p t) →
  ∃ c, containing_closure p t = Some c ∧ c ∈ po_Closures p ∧ ns (cl_Start c) ≤ ns t ∧
       match cl_End c with Some e => ns t < ns e | None => True end.
Proof.
  intros [o Ho]. apply closure_scan_Some in Ho as (c & Hc & Ht & Ho & He).
  unfold containing_closure. destruct (List.find _ _) as [c'|] eqn:E.
  - apply List.find_some in E as [Hin E]. exists c'. apply list_elem_of_In in Hin. zbool.
    split_and!; [done|done|time_lia|]. destruct (cl_End c'); time_lia.
  - apply list_elem_of_In in Hc. pose proof (List.find_none _ _ E c Hc) as Hn. simpl in Hn.
    rewrite andb_false_iff in Hn. subst o. destruct Hn; destruct (cl_End c); time_lia; done.
Qed.

(** ** The rate grid *)

(** The cells of a rate list, as [grid_point] reads them. *)
Definition on_cells (rates : list RatePoint) (t : Time) : Prop :=
  ∃ i r k, rates !! i = Some r ∧ 0 ≤ k ∧
    ns t = ns (rp_EffectiveAt r) + k * rateInterval (rp_ArrivalsPerHour r) ∧
    ∀ r', rates !! S i = Some r' → ns t < ns (rp_EffectiveAt r').

(** The whole number of intervals the source steps forward covers [delta] exactly. *)
Lemma ceil_steps delta I :
  0 ≤ delta ≤ grid_span → 1 ≤ I ≤ Hour →
  let steps := dur_div delta I in
  let steps := if dur_rem delta I =? 0 then steps else dur_add steps 1 in
  0 ≤ steps ∧ dur_mul steps I = steps * I ∧ delta ≤ steps * I < delta + I.
Proof.
  intros Hd HI. unfold dur_div, dur_rem, dur_add, dur_mul, grid_span, Hour, Minute, Second in *.
  assert (Hq : Z.quot delta I = delta / I) by (apply Z.quot_div_nonneg; lia).
  assert (Hr : Z.rem delta I = delta mod I) by (apply Z.rem_mod_nonneg; lia).
  rewrite Hq, Hr. pose proof (Z.div_mod delta I ltac:(lia)). pose proof (Z.mod_pos_bound delta I ltac:(lia)).
  assert (0 ≤ delta / I ≤ delta) by (split; [apply Z.div_pos; lia | apply Z.div_le_upper_bound; nia]).
  destruct (Z.eqb_spec (delta mod I) 0) as [E|E]; simpl.
  - rewrite !wrap64_id by (unfold in_int64; nia). nia.
  - rewrite !wrap64_id by (unfold in_int64; rewrite ?wrap64_id; unfold in_int64; nia). nia.
Qed.

Lemma floor_steps delta I :
  0 ≤ delta < 2^63 → 1 ≤ I →
  dur_mul (dur_div delta I) I = delta / I * I.
Proof.
  intros Hd HI. unfold dur_div, dur_mul.
  rewrite Z.quot_div_nonneg by lia.
  pose proof (Z.div_mod delta I ltac:(lia)). pose proof (Z.mod_pos_bound delta I ltac:(lia)).
  assert (0 ≤ delta / I ≤ delta) by (split; [apply Z.div_pos; lia | apply Z.div_le_upper_bound; nia]).
  rewrite !wrap64_id; unfold in_int64; rewrite ?wrap64_id; unfold in_int64; nia.
Qed.

Lemma on_cells_cons r0 rates t : on_cells rates t → on_cells (r0 :: rates) t.
Proof. intros (i & r & k & ?). by exists (S i), r, k. Qed.

Lemma on_cells_ge r0 rates t :
  chain (λ a b, ns (rp_EffectiveAt a) < ns (rp_EffectiveAt b)) (r0 :: rates) →
  Forall (λ r, 0 < rp_ArrivalsPerHour r < 2^32) (r0 :: rates) →
  on_cells (r0 :: rates) t → ns (rp_EffectiveAt r0) ≤ ns t.
Proof.
  intros Hc Hpos (i & r & k & Hr & Hk & Ht & _).
  rewrite Forall_lookup in Hpos. pose proof (rateInterval_bounds _ (Hpos _ _ Hr)).
  assert (ns (rp_EffectiveAt r0) ≤ ns (rp_EffectiveAt r)); [|nia].
  destruct i as [|i]; [simplify_eq/=; lia|].
  assert (ns (rp_EffectiveAt r0) < ns (rp_EffectiveAt r)); [|lia].
  eapply (chain_trans_lookup (λ a b, ns (rp_EffectiveAt a) < ns (rp_EffectiveAt b)) (r0 :: rates) 0 (S i));
    [intros; lia|done|lia|done|done].
Qed.

(** A cell of the head rate and a later one. *)
Lemma on_cells_split r0 rates t :
  on_cells (r0 :: rates) t →
  (∃ k, 0 ≤ k ∧ ns t = ns (rp_EffectiveAt r0) + k * rateInterval (rp_ArrivalsPerHour r0) ∧
        ∀ r', head rates = Some r' → ns t < ns (rp_EffectiveAt r')) ∨ on_cells rates t.
Proof.
  intros (i & r & k & Hr & Hk & Ht & Hn). destruct i as [|i]; simplify_eq/=.
  - left. exists k. split_and!; try done. intros r'. rewrite head_lookup. auto.
  - right. by exists i, r, k.
Qed.

Definition least_from (P : Time → Prop) (target c : Time) : Prop :=
  P c ∧ ns target ≤ ns c ∧ ∀ g, P g → ns target ≤ ns g → ns c ≤ ns g.

Lemma next_rate_grid_spec rates target :
  rates ≠ [] →
  chain (λ a b, ns (rp_EffectiveAt a) < ns (rp_EffectiveAt b)) rates →
  Forall (λ r, 0 < rp_ArrivalsPerHour r < 2^32) rates →
  Forall (λ r, ns target ≤ ns (rp_EffectiveAt r) + grid_span) rates →
  ∃ c, next_rate_grid rates target = Some c ∧ least_from (on_cells rates) target c.
Proof.
  induction rates as [|r0 rest IH]; [done|]. intros _ Hc Hpos Hspan.
  pose proof (on_cells_ge r0 rest) as Hge. specialize (λ t, Hge t Hc Hpos).
  apply Forall_cons in Hpos as [Hpos0 Hpos]. apply Forall_cons in Hspan as [Hspan0 Hspan].
  pose proof (rateInterval_bounds _ Hpos0) as HI.
  assert (IHrest : rest ≠ [] → ∃ c, next_rate_grid rest target = Some c ∧ least_from (on_cells rest) target c).
  { intros Hne. apply IH; auto. by eapply chain_tail. }
  clear IH. cbn [next_rate_grid].
  (* the search moves on to the later rates *)
  assert (Hrest : ∀ next l, rest = next :: l → (∀ g, on_cells (r0 :: rest) g →
             ns g < ns (rp_EffectiveAt next) → ns g < ns target) →
             ∃ c, next_rate_grid rest target = Some c ∧ least_from (on_cells (r0 :: rest)) target c).
  { intros next l -> Hbelow. destruct IHrest as (c & Hn & Hcell & Hle & Hleast); [done|].
    exists c. split; [done|]. split_and!; [by apply on_cells_cons|done|].
    intros g Hg Hgt. destruct (on_cells_split _ _ _ Hg) as [(k & _ & _ & Hlt)|Hg']; [|by apply Hleast].
    specialize (Hbelow g Hg (Hlt _ eq_refl)). lia. }
  assert (Hcell0 : ∀ k t, 0 ≤ k → ns t = ns (rp_EffectiveAt r0) + k * rateInterval (rp_ArrivalsPerHour r0) →
            (∀ next l, rest = next :: l → ns t < ns (rp_EffectiveAt next)) → on_cells (r0 :: rest) t).
  { intros k t Hk Ht Hn. exists 0%nat, r0, k. split_and!; [done..|].
    intros r' Hr'. destruct rest as [|next l]; [done|]. simplify_eq/=. eauto. }
  destruct (match rest with next :: _ => _ | [] => false end) eqn:Hskip.
  { destruct rest as [|next l]; [done|]. apply (Hrest next l eq_refl). intros. time_lia. }
  assert (Hnext : ∀ next l, rest = next :: l → ns target < ns (rp_EffectiveAt next)).
  { intros next l ->. time_lia. }
  destruct (before target (rp_EffectiveAt r0)) eqn:Hb.
  { exists (rp_EffectiveAt r0). split; [done|]. split_and!; [|time_lia|intros; by apply Hge].
    apply (Hcell0 0); [lia|lia|]. intros next l ->. destruct Hc as [? _]. done. }
  assert (Hdelta : time_sub target (rp_EffectiveAt r0) = ns target - ns (rp_EffectiveAt r0)).
  { unfold time_sub. apply sat64_id. unfold in_int64, grid_span, Hour, Minute, Second in *. time_lia. }
  rewrite Hdelta.
  destruct (ceil_steps (ns target - ns (rp_EffectiveAt r0)) (rateInterval (rp_ArrivalsPerHour r0)))
    as (Hs0 & Hmul & Hs); [time_lia|done|].
  cbv zeta in *. set (steps := if _ : bool then _ else _) in *. clearbody steps. rewrite Hmul.
  set (c := time_add (rp_EffectiveAt r0) (steps * rateInterval (rp_ArrivalsPerHour r0))).
  assert (Hcns : ns c = ns (rp_EffectiveAt r0) + steps * rateInterval (rp_ArrivalsPerHour r0)) by done.
  clearbody c.
  assert (Hleast0 : ∀ k, ns target ≤ ns (rp_EffectiveAt r0) + k * rateInterval (rp_ArrivalsPerHour r0) →
            ns c ≤ ns (rp_EffectiveAt r0) + k * rateInterval (rp_ArrivalsPerHour r0)).
  { intros k Hk. assert (steps ≤ k) by nia. nia. }
  destruct rest as [|next l].
  - exists c. split; [done|]. split_and!; [by eapply Hcell0|lia|].
    intros g Hg Hgt. destruct (on_cells_split _ _ _ Hg) as [(k & Hk & Hgk & _)|Hg'].
    + rewrite Hgk. apply Hleast0. lia.
    + destruct Hg' as (? & ? & ? & ? & _). done.
  - destruct (before c (rp_EffectiveAt next)) eqn:Hbc.
    + exists c. split; [done|]. split_and!; [eapply Hcell0; [done|done|]|lia|].
      { intros ? ? [= <- <-]. time_lia. }
      intros g Hg Hgt. destruct (on_cells_split _ _ _ Hg) as [(k & Hk & Hgk & _)|Hg'].
      * rewrite Hgk. apply Hleast0. lia.
      * apply on_cells_ge in Hg'; [time_lia|by eapply chain_tail|done].
    + apply (Hrest next l eq_refl). intros g Hg Hlt.
      destruct (on_cells_split _ _ _ Hg) as [(k & Hk & Hgk & _)|Hg'].
      * destruct (Z.lt_ge_cases (ns g) (ns target)); [done|].
        specialize (Hleast0 k). time_lia.
      * apply on_cells_ge in Hg'; [lia|by eapply chain_tail|done].
Qed.

Lemma grid_point_cells (p : preparedPolicy) t :
  po_ContinuousSpacing p = false → grid_point p t ↔ on_cells (pp_rates p) t.
Proof. unfold grid_point. intros ->. done. Qed.

Lemma in_horizon_all (p : preparedPolicy) t :
  grid_wf p → in_horizon p t → Forall (λ r, ns t ≤ ns (rp_EffectiveAt r) + grid_span) (pp_rates p).
Proof.
  intros Hwf Ht. destruct (grid_nonempty p Hwf) as [r0 H0]. apply Forall_lookup. intros i r Hr.
  pose proof (head_first p i r r0 Hwf H0 Hr). specialize (Ht r0 H0). lia.
Qed.

Lemma in_horizon_le (p : preparedPolicy) s t : ns s ≤ ns t → in_horizon p t → in_horizon p s.
Proof. intros Hle Ht r Hr. specialize (Ht r Hr). lia. Qed.

(** Whole seconds: rounding up to the next one. *)
Lemma ceil_second_least t c :
  let candidate := truncate t Second in
  c = (if before candidate t then time_add candidate Second else candidate) →
  ns c mod Second = 0 ∧ ns t ≤ ns c ∧ ∀ g, ns g mod Second = 0 → ns t ≤ ns g → ns c ≤ ns g.
Proof.
  intros candidate ->. subst candidate. pose proof (Z.mod_pos_bound (ns t) Second ltac:(done)) as Hb.
  pose proof (Z.div_mod (ns t) Second ltac:(done)) as Hd.
  assert (Hfl : ns (truncate t Second) = Second * (ns t / Second)) by (simpl; lia).
  assert (Hg : ∀ g, ns g mod Second = 0 → ns g = Second * (ns g / Second)).
  { intros g ?. pose proof (Z.div_mod (ns g) Second ltac:(done)). lia. }
  unfold Second in *. destruct (before _ _) eqn:E.
  - assert (Hns : ns (time_add (truncate t 1000000000) 1000000000) = 1000000000 * (ns t / 1000000000 + 1))
      by (simpl in *; lia).
    rewrite Hns. split_and!; [by rewrite Z.mul_comm, Z_mod_mult|lia|].
    intros g ->%Hg ?. time_lia.
  - rewrite Hfl. split_and!; [by rewrite Z.mul_comm, Z_mod_mult|time_lia|].
    intros g ->%Hg ?. time_lia.
Qed.

Lemma next_point_spec (p : preparedPolicy) target :
  grid_wf p → (in_horizon p target ∨ po_ContinuousSpacing p = true) →
  ∃ c, next_point p target = Ok (Some c) ∧ least_from (grid_point p) target c.
Proof.
  intros Hwf Ht. unfold next_point. destruct (po_ContinuousSpacing p) eqn:Hcont.
  - destruct (grid_nonempty p Hwf) as [r0 H0]. rewrite H0. simpl. eexists. split; [done|].
    destruct (ceil_second_least (later_of target (rp_EffectiveAt r0)) _ eq_refl) as (Hm & Hge & Hl).
    pose proof (later_of_ge target (rp_EffectiveAt r0)).
    unfold least_from, grid_point. rewrite Hcont. split_and!; [done| |lia|].
    + intros r ?; simplify_eq. lia.
    + intros g [Hg Hfirst] Hgt. apply Hl; [done|]. specialize (Hfirst r0 H0). time_lia.
  - destruct Ht as [Ht|]; [|done].
    destruct (next_rate_grid_spec (pp_rates p) target) as (c & Hc & Hleast);
      [apply gw_nonempty, Hwf|apply gw_sorted, Hwf|apply gw_rates, Hwf|by apply in_horizon_all|].
    exists c. unfold nextRateGridAtOrAfter. rewrite Hc. split; [done|].
    unfold least_from in *. setoid_rewrite grid_point_cells; done.
Qed.

(** What one iteration learns: either the nearest point is free, or every
    point before the new target is blocked. *)
Lemma next_step_spec (p : preparedPolicy) target :
  grid_wf p → (in_horizon p target ∨ po_ContinuousSpacing p = true) →
  match next_step p target with
  | Ok (inr (Some c)) => least_from (λ t, grid_point p t ∧ ¬ blocked p t) target c
  | Ok (inr None) => ∀ g, grid_point p g → ns target ≤ ns g → blocked p g
  | Ok (inl t') => ns target < ns t' ∧
      (∀ g, grid_point p g → ns target ≤ ns g → ns g < ns t' → blocked p g) ∧
      ((∃ g, g ∈ po_Gaps p ∧ t' = gap_End g) ∨ (∃ c, c ∈ po_Closures p ∧ cl_End c = Some t'))
  | _ => False
  end.
Proof.
  intros Hwf Ht. unfold next_step.
  destruct (next_point_spec p target Hwf Ht) as (c & -> & Hc & Hge & Hleast). simpl.
  destruct (blockingClosure p c) as [o|] eqn:Ecl.
  - apply closure_scan_Some in Ecl as (cl & Hcl & Hst & Ho & He). destruct o as [e|].
    + split_and!; [lia| |right; eauto]. intros g Hg Hgt Hlt. specialize (Hleast g Hg Hgt).
      right. exists cl. rewrite Ho. split_and!; [done|lia|done].
    + intros g Hg Hgt. specialize (Hleast g Hg Hgt). right. exists cl. rewrite Ho. split_and!; [done|lia|done].
  - destruct (blockingGap p c) as [g|] eqn:Eg.
    + apply blockingGap_Some in Eg as (Hg & Hin). split_and!; [lia| |left; eauto].
      intros g' Hg' Hgt Hlt. specialize (Hleast g' Hg' Hgt). left. exists g. split; [done|lia].
    + unfold least_from. split_and!; [done| |done|].
      * rewrite blocked_iff by done. rewrite Ecl, Eg. by intros [[? ?]|[? ?]].
      * intros g' [? ?] ?. by apply Hleast.
Qed.

(** ** Termination of the forward search

    A blocked search resumes at the end of a gap or closure; the number of
    those ends still ahead decreases. *)

Definition ends (p : preparedPolicy) : list Time :=
  (gap_End <$> po_Gaps p) ++ omap cl_End (po_Closures p).

Definition ends_after (p : preparedPolicy) (t : Time) : list Time :=
  filter (λ e, ns t < ns e) (ends p).

Lemma length_ends (p : preparedPolicy) :
  (length (ends p) ≤ length (po_Gaps p) + length (po_Closures p))%nat.
Proof.
  unfold ends. rewrite length_app, length_fmap.
  assert (length (omap cl_End (po_Closures p)) ≤ length (po_Closures p))%nat; [|lia].
  induction (po_Closures p) as [|c l IH]; csimpl; [done|]. destruct (cl_End c); csimpl; lia.
Qed.

Lemma filter_length_lt {A} (P Q : A → Prop) `{!∀ x, Decision (P x), !∀ x, Decision (Q x)} (l : list A) x :
  (∀ y, P y → Q y) → x ∈ l → Q x → ¬ P x → (length (filter P l) < length (filter Q l))%nat.
Proof.
  intros HPQ. assert (Hle : ∀ l, (length (filter P l) ≤ length (filter Q l))%nat).
  { intros k. induction k as [|y k IH]; [done|]. rewrite !filter_cons.
    repeat case_decide; simpl; try lia. exfalso; auto. }
  induction l as [|y l IH]; [by intros ?%elem_of_nil|]. rewrite elem_of_cons, !filter_cons.
  specialize (Hle l). intros [->|Hx] HQ HnP.
  - rewrite decide_False, decide_True by done. simpl. lia.
  - specialize (IH Hx HQ HnP). repeat case_decide; simpl; try lia. exfalso; auto.
Qed.

Lemma ends_after_lt (p : preparedPolicy) t t' :
  t' ∈ ends p → ns t < ns t' → (length (ends_after p t') < length (ends_after p t))%nat.
Proof. intros Hin Hlt. apply (filter_length_lt _ _ _ t'); [simpl; intros; lia|done|done|simpl; lia]. Qed.

Lemma in_ends (p : preparedPolicy) t' :
  ((∃ g, g ∈ po_Gaps p ∧ t' = gap_End g) ∨ (∃ c, c ∈ po_Closures p ∧ cl_End c = Some t')) → t' ∈ ends p.
Proof.
  unfold ends. rewrite elem_of_app, list_elem_of_fmap, list_elem_of_omap.
  intros [(g & ? & ?)|(c & ? & ?)]; eauto.
Qed.

Lemma in_ends_horizon (p : preparedPolicy) t' : grid_horizon p → t' ∈ ends p → in_horizon p t'.
Proof.
  intros [Hg Hc]. pose proof (proj1 (Forall_forall _ _) Hc) as Hc'. unfold ends.
  rewrite elem_of_app, list_elem_of_fmap, list_elem_of_omap.
  intros [(g & -> & ?)|(c & ? & Hce)]; [|].
  - rewrite Forall_forall in Hg. by apply Hg.
  - specialize (Hc' c). simpl in Hc'. rewrite Hce in Hc'. auto.
Qed.

#[export] Instance in_horizon_dec p t : Decision (in_horizon p t).
Proof.
  refine (match head (pp_rates p) as o return head (pp_rates p) = o → _ with
          | None => λ Ho, left _
          | Some r => λ Ho, cast_if (decide (ns t ≤ ns (rp_EffectiveAt r) + grid_span))
          end eq_refl); unfold in_horizon; rewrite Ho.
  - by intros ? [= <-].
  - intros H. by specialize (H r eq_refl).
  - done.
Defined.

(** One iteration from any target, even one beyond the horizon, reaches an end. *)
Lemma next_step_end (p : preparedPolicy) t t' : next_step p t = Ok (inl t') → t' ∈ ends p.
Proof.
  unfold next_step. intros H. bind_inv H. destruct r as [c|]; [|done].
  apply in_ends. destruct (blockingClosure p c) as [[e|]|] eqn:Ecl; [|done|].
  - apply closure_scan_Some in Ecl as (cl & ? & _ & ? & _). simplify_eq. eauto.
  - destruct (blockingGap p c) as [g|] eqn:Eg; simplify_eq.
    apply blockingGap_Some in Eg as [? _]. eauto.
Qed.

Lemma next_step_returns (p : preparedPolicy) t : grid_wf p → returns (next_step p t).
Proof.
  intros Hwf. destruct (grid_nonempty p Hwf) as [r0 H0]. unfold next_step, next_point. rewrite H0.
  destruct (po_ContinuousSpacing p); simpl; [|destruct (nextRateGridAtOrAfter p t) as [c|]; [|done]];
    destruct (blockingClosure p _) as [[?|]|]; try done; by destruct (blockingGap p _).
Qed.

Definition next_measure (p : preparedPolicy) (t : Time) : Z :=
  if decide (in_horizon p t) then Z.of_nat (length (ends_after p t))
  else Z.of_nat (S (length (ends p))).

Theorem next_grid_returns (p : preparedPolicy) target :
  grid_wf p → grid_horizon p → returns (nextGridAtOrAfter p target).
Proof.
  intros Hwf Hh. unfold nextGridAtOrAfter. pose proof (length_ends p) as Hlen.
  assert (Hle : ∀ t, (length (ends_after p t) ≤ length (ends p))%nat) by (intros; apply length_filter).
  apply (iterate_returns (next_step p) (λ _, True) (next_measure p)); [|clear target|done|].
  - intros s _. by apply next_step_returns.
  - intros s s' _ Hs. pose proof (next_step_end p s s' Hs) as Hend.
    pose proof (in_ends_horizon p s' Hh Hend) as Hs'. split; [done|].
    unfold next_measure. rewrite (decide_True (P := in_horizon p s')) by done. specialize (Hle s').
    case_decide as Hin; [|lia]. pose proof (next_step_spec p s Hwf (or_introl Hin)) as Hstep.
    rewrite Hs in Hstep. destruct Hstep as (Hlt & _ & _).
    pose proof (ends_after_lt p s s' Hend Hlt). lia.
  - unfold next_measure, grid_fuel. specialize (Hle target). case_decide; lia.
Qed.

(** The contract of the forward search: the nearest unblocked grid point not
    before the target, or evidence that there is none. *)
Definition next_spec (p : preparedPolicy) (target : Time) (r : option Time) : Prop :=
  match r with
  | Some c => least_from (λ t, grid_point p t ∧ ¬ blocked p t) target c
  | None => ∀ g, grid_point p g → ns target ≤ ns g → blocked p g
  end.

Theorem next_grid_correct (p : preparedPolicy) target r :
  grid_wf p → grid_horizon p → in_horizon p target →
  nextGridAtOrAfter p target = Ok r → next_spec p target r.
Proof.
  intros Hwf Hh Ht. unfold nextGridAtOrAfter.
  apply (iterate_inv (next_step p) (λ t, in_horizon p t ∧ ns target ≤ ns t ∧
           ∀ g, grid_point p g → ns target ≤ ns g → ns g < ns t → blocked p g) (next_spec p target)).
  - intros t t' (Hin & Hle & Hbl) Hs. pose proof (next_step_spec p t Hwf (or_introl Hin)) as Hstep.
    rewrite Hs in Hstep. destruct Hstep as (Hlt & Hbl' & Hend).
    split_and!; [by apply in_ends_horizon, in_ends|lia|].
    intros g Hg Hgt Hgl. destruct (Z.lt_ge_cases (ns g) (ns t)); [by apply Hbl|by apply Hbl'].
  - intros t r' (Hin & Hle & Hbl) Hs. pose proof (next_step_spec p t Hwf (or_introl Hin)) as Hstep.
    rewrite Hs in Hstep. destruct r' as [c|].
    + destruct Hstep as ((Hc & Hnb) & Hge & Hleast). split_and!; [done|done|lia|].
      intros g [Hg Hgb] Hgt. apply Hleast; [done|].
      destruct (Z.lt_ge_cases (ns g) (ns t)); [|done]. by destruct Hgb; apply Hbl.
    + intros g Hg Hgt. destruct (Z.lt_ge_cases (ns g) (ns t)); [by apply Hbl|by apply Hstep].
  - split_and!; [done|lia|lia].
Qed.

(** ** The backward search *)

Definition greatest_upto (P : Time → Prop) (target c : Time) : Prop :=
  P c ∧ ns c ≤ ns target ∧ ∀ g, P g → ns g ≤ ns target → ns g ≤ ns c.

Lemma floor_second_greatest t :
  ns (truncate t Second) mod Second = 0 ∧ ns (truncate t Second) ≤ ns t ∧
  ∀ g, ns g mod Second = 0 → ns g ≤ ns t → ns g ≤ ns (truncate t Second).
Proof.
  pose proof (Z.mod_pos_bound (ns t) Second ltac:(done)) as Hb.
  pose proof (Z.div_mod (ns t) Second ltac:(done)) as Hd.
  assert (Hfl : ns (truncate t Second) = Second * (ns t / Second)) by (simpl; lia).
  rewrite Hfl. split_and!; [by rewrite Z.mul_comm, Z_mod_mult|lia|].
  intros g Hg ?. pose proof (Z.div_mod (ns g) Second ltac:(done)). unfold Second in *. lia.
Qed.

(** The rate cell at or before the target, whatever the target. *)
Lemma previous_rate_point_le (p : preparedPolicy) target c :
  grid_wf p → previousRateGridAtOrBefore p target = Some c → ns c ≤ ns target.
Proof.
  intros Hwf. unfold previousRateGridAtOrBefore. pose proof (rate_search p target Hwf) as Hs.
  destruct (sort_search_list _ _) as [|i]; [done|]. destruct Hs as (r & Hr & Hle & _). rewrite Hr.
  pose proof (rateInterval_bounds _ (rate_positive p i r Hwf Hr)) as HI.
  set (d := time_sub target (rp_EffectiveAt r)).
  assert (Hd : 0 ≤ d ≤ ns target - ns (rp_EffectiveAt r) ∧ d < 2^63)
    by (subst d; unfold time_sub, sat64, min_int64, max_int64; lia).
  rewrite floor_steps by lia. intros [= <-]. simpl.
  pose proof (Z.div_mod d (rateInterval (rp_ArrivalsPerHour r)) ltac:(lia)).
  pose proof (Z.mod_pos_bound d (rateInterval (rp_ArrivalsPerHour r)) ltac:(lia)). lia.
Qed.

Lemma previous_rate_point_greatest (p : preparedPolicy) target :
  grid_wf p → in_horizon p target →
  match previousRateGridAtOrBefore p target with
  | Some c => greatest_upto (on_cells (pp_rates p)) target c
  | None => ∀ g, on_cells (pp_rates p) g → ns target < ns g
  end.
Proof.
  intros Hwf Hh. unfold previousRateGridAtOrBefore. pose proof (rate_search p target Hwf) as Hs.
  destruct (sort_search_list _ _) as [|i].
  - intros g Hg. destruct (pp_rates p) as [|r0 l] eqn:El; [by destruct Hg as (? & ? & ? & ? & _)|].
    specialize (Hs r0 eq_refl). pose proof (on_cells_ge r0 l g) as Hge. rewrite <-El in Hge at 1 2.
    specialize (Hge (gw_sorted _ Hwf) (gw_rates _ Hwf) Hg). lia.
  - destruct Hs as (r & Hr & Hle & Hnext). rewrite Hr.
    pose proof (rateInterval_bounds _ (rate_positive p i r Hwf Hr)) as HI.
    pose proof (in_horizon_all p target Hwf Hh) as Hall. rewrite Forall_lookup in Hall. specialize (Hall i r Hr).
    assert (Hdelta : time_sub target (rp_EffectiveAt r) = ns target - ns (rp_EffectiveAt r)).
    { unfold time_sub. apply sat64_id. unfold in_int64, grid_span, Hour, Minute, Second in *. lia. }
    rewrite Hdelta, floor_steps; [|unfold grid_span, Hour, Minute, Second in *; lia|lia].
    set (d := ns target - ns (rp_EffectiveAt r)) in *. set (I := rateInterval (rp_ArrivalsPerHour r)) in *.
    pose proof (Z.div_mod d I ltac:(lia)). pose proof (Z.mod_pos_bound d I ltac:(lia)).
    assert (0 ≤ d / I) by (apply Z.div_pos; lia).
    split_and!; simpl.
    + exists i, r, (d / I). split_and!; [done|done|done|]. intros r' Hr'. specialize (Hnext r' Hr'). simpl. lia.
    + lia.
    + intros g (j & rj & k & Hrj & Hk & Hg & Hgn) Hgt.
      destruct (Nat.lt_trichotomy j i) as [Hj|[->|Hj]].
      * destruct (lookup_lt_is_Some_2 (pp_rates p) (S j)) as [rn Hrn]; [apply lookup_lt_Some in Hr; lia|].
        specialize (Hgn rn Hrn). destruct (decide (S j = i)) as [<-|]; [simplify_eq; nia|].
        pose proof (rates_ordered p (S j) i rn r Hwf ltac:(lia) Hrn Hr). nia.
      * assert (rj = r) as -> by congruence. fold I in Hg. assert (k ≤ d / I); [|nia].
        apply Z.div_le_lower_bound; lia.
      * pose proof (rateInterval_bounds _ (rate_positive p j rj Hwf Hrj)).
        destruct (decide (S i = j)) as [<-|]; [specialize (Hnext rj Hrj); nia|].
        destruct (lookup_lt_is_Some_2 (pp_rates p) (S i)) as [rn Hrn]; [apply lookup_lt_Some in Hrj; lia|].
        pose proof (rates_ordered p (S i) j rn rj Hwf ltac:(lia) Hrn Hrj). specialize (Hnext rn Hrn). nia.
Qed.

Lemma previous_point_spec (p : preparedPolicy) target :
  grid_wf p → in_horizon p target →
  ∃ o, previous_point p target = Ok o ∧
    match o with
    | Some c => greatest_upto (grid_point p) target c
    | None => ∀ g, grid_point p g → ns target < ns g
    end.
Proof.
  intros Hwf Hh. unfold previous_point. destruct (po_ContinuousSpacing p) eqn:Hcont.
  - destruct (grid_nonempty p Hwf) as [r0 H0]. rewrite H0. simpl. eexists. split; [done|].
    destruct (floor_second_greatest target) as (Hm & Hle & Hg). unfold greatest_upto, grid_point. rewrite Hcont.
    destruct (before _ _) eqn:E.
    + intros g [Hgm Hgf]. specialize (Hgf r0 H0). specialize (Hg g Hgm). time_lia.
    + split_and!; [done| |done|].
      * intros r ?; simplify_eq. time_lia.
      * intros g [? _] ?. by apply Hg.
  - eexists. split; [done|]. pose proof (previous_rate_point_greatest p target Hwf Hh) as Hp.
    destruct (previousRateGridAtOrBefore p target); unfold greatest_upto in *; setoid_rewrite grid_point_cells; done.
Qed.

Lemma previous_point_le (p : preparedPolicy) target :
  grid_wf p → ∃ o, previous_point p target = Ok o ∧ ∀ c, o = Some c → ns c ≤ ns target.
Proof.
  intros Hwf. unfold previous_point. destruct (po_ContinuousSpacing p) eqn:Hcont.
  - destruct (grid_nonempty p Hwf) as [r0 H0]. rewrite H0. simpl. eexists. split; [done|].
    intros c Hc. case_match; simplify_eq. pose proof (truncate_bounds target Second ltac:(done)). simpl in *. lia.
  - eexists. split; [done|]. intros c. by apply previous_rate_point_le.
Qed.

(** Where a blocked backward search resumes. *)
Lemma previous_step_cases (p : preparedPolicy) target :
  grid_wf p →
  match previous_step p target with
  | Ok (inl t') => ∃ s c, t' = time_add s (- Nanosecond) ∧ s ∈ (gap_Start <$> po_Gaps p) ++ (cl_Start <$> po_Closures p) ∧
      previous_point p target = Ok (Some c) ∧ ns s ≤ ns c ∧
      (∀ g, ns s ≤ ns g → ns g ≤ ns c → blocked p g)
  | Ok (inr None) => previous_point p target = Ok None
  | Ok (inr (Some c)) => previous_point p target = Ok (Some c) ∧ ¬ blocked p c
  | _ => False
  end.
Proof.
  intros Hwf. unfold previous_step. destruct (previous_point_le p target Hwf) as (o & Ho & Hle).
  rewrite Ho. simpl. destruct o as [c|]; [|done].
  destruct (blockingClosure p c) as [b|] eqn:Ecl.
  - destruct (containing_closure_Some p c) as (cl & Hf & Hin & Hst & He); [by eexists|]. rewrite Hf.
    exists (cl_Start cl), c. split_and!; [done| |done|done|].
    + apply elem_of_app. right. apply list_elem_of_fmap. eauto.
    + intros g ? ?. right. exists cl. split_and!; [done|done|]. destruct (cl_End cl); [lia|done].
  - destruct (blockingGap p c) as [g|] eqn:Eg.
    + apply blockingGap_Some in Eg as [Hin Hg]. exists (gap_Start g), c. split_and!; [done| |done|lia|].
      * apply elem_of_app. left. apply list_elem_of_fmap. eauto.
      * intros g' ? ?. left. exists g. split; [done|lia].
    + split; [done|]. rewrite blocked_iff by done. rewrite Ecl, Eg. by intros [[? ?]|[? ?]].
Qed.

Definition starts_upto (p : preparedPolicy) (t : Time) : list Time :=
  filter (λ s, ns s ≤ ns t) ((gap_Start <$> po_Gaps p) ++ (cl_Start <$> po_Closures p)).

Lemma previous_step_descends (p : preparedPolicy) t t' :
  grid_wf p → previous_step p t = Ok (inl t') →
  ns t' < ns t ∧ (length (starts_upto p t') < length (starts_upto p t))%nat.
Proof.
  intros Hwf Hs. pose proof (previous_step_cases p t Hwf) as H. rewrite Hs in H.
  destruct H as (s & c & -> & Hin & Hp & Hsc & _).
  destruct (previous_point_le p t Hwf) as (o & Ho & Hle). rewrite Hp in Ho. injection Ho as <-.
  specialize (Hle c eq_refl). unfold Nanosecond. split; [simpl; lia|].
  apply (filter_length_lt _ _ _ s); simpl; [intros; lia|done|lia|lia].
Qed.

Theorem previous_grid_returns (p : preparedPolicy) target :
  grid_wf p → returns (previousGridAtOrBefore p target).
Proof.
  intros Hwf. unfold previousGridAtOrBefore.
  apply (iterate_returns (previous_step p) (λ _, True) (λ t, Z.of_nat (length (starts_upto p t)))); [|clear target|done|].
  - intros t _. pose proof (previous_step_cases p t Hwf). by destruct (previous_step p t).
  - intros t t' _ Hs. destruct (previous_step_descends p t t' Hwf Hs). split; [done|lia].
  - assert (length (starts_upto p target) ≤ length (po_Gaps p) + length (po_Closures p))%nat.
    { etrans; [apply length_filter|]. by rewrite length_app, !length_fmap. }
    unfold grid_fuel. lia.
Qed.

(** The contract of the backward search. *)
Definition previous_spec (p : preparedPolicy) (target : Time) (r : option Time) : Prop :=
  match r with
  | Some c => greatest_upto (λ t, grid_point p t ∧ ¬ blocked p t) target c
  | None => ∀ g, grid_point p g → ns g ≤ ns target → blocked p g
  end.

Theorem previous_grid_correct (p : preparedPolicy) target r :
  grid_wf p → in_horizon p target →
  previousGridAtOrBefore p target = Ok r → previous_spec p target r.
Proof.
  intros Hwf Hh. unfold previousGridAtOrBefore.
  apply (iterate_inv (previous_step p) (λ t, ns t ≤ ns target ∧
           ∀ g, grid_point p g → ns t < ns g → ns g ≤ ns target → blocked p g) (previous_spec p target)).
  - intros t t' (Hle & Hbl) Hs. destruct (previous_step_descends p t t' Hwf Hs) as [Hlt _].
    pose proof (previous_step_cases p t Hwf) as Hc. rewrite Hs in Hc. destruct Hc as (s & c & -> & _ & Hp & Hsc & Hblk).
    split; [lia|]. intros g Hg Hgt Hgl. destruct (Z.lt_ge_cases (ns t) (ns g)); [by apply Hbl|].
    destruct (previous_point_spec p t Hwf) as (o & Ho & Hgr); [by eapply in_horizon_le|].
    rewrite Hp in Ho. injection Ho as <-. destruct Hgr as (_ & _ & Hgr).
    apply Hblk; [unfold Nanosecond in *; simpl in *; lia|by apply Hgr].
  - intros t r' (Hle & Hbl) Hs. pose proof (previous_step_cases p t Hwf) as Hc. rewrite Hs in Hc.
    destruct (previous_point_spec p t Hwf) as (o & Ho & Hgr); [by eapply in_horizon_le|].
    destruct r' as [c|]; simpl.
    + destruct Hc as [Hp Hnb]. rewrite Hp in Ho. injection Ho as <-. destruct Hgr as (Hgp & Hcl & Hgr).
      split_and!; [done|done|lia|]. intros g [Hg Hgb] Hgt.
      destruct (Z.lt_ge_cases (ns t) (ns g)); [by destruct Hgb; apply Hbl|by apply Hgr].
    + rewrite Hc in Ho. injection Ho as <-. intros g Hg Hgt.
      destruct (Z.lt_ge_cases (ns t) (ns g)); [by apply Hbl|]. specialize (Hgr g Hg). lia.
  - split; [lia|]. intros. lia.
Qed.

(** The interval is the hour divided by the rate, rounded up: [rate] slots
    never fit in less than an hour, and they exceed it by less than [rate] ns. *)
Theorem rateInterval_capacity rate :
  0 < rate < 2^32 → Hour ≤ rate * rateInterval rate < Hour + rate.
Proof.
  intros Hr. unfold rateInterval, u64, Hour, Minute, Second. rewrite Z.mod_small by lia.
  set (n := 60 * (60 * 1000000000)).
  pose proof (Z.div_mod (n + rate - 1) rate ltac:(lia)).
  pose proof (Z.mod_pos_bound (n + rate - 1) rate ltac:(lia)). lia.
Qed.
