(* ===== verification/SequenceSpacing.v ===== *)
(** * Separation between two arrivals

    The spacing two consecutive arrivals of one runway group need
    ([engine.go]: [sameSTARGap], [requiredGap], [adjacentValid];
    [demand.go]: [demandBusy]; [cph.go]: the Copenhagen wake matrix). *)

From S2P Require Import Prelude GoTime SequenceData SequenceGrid.

Local Open Scope Z_scope.

(** ** STAR-family policies *)

Definition zero_spacing : SameSTARSpacing := mk_spacing false 0 0.

Definition spacingFor (p : preparedSTARFamilyPolicies) (family : string) (fallback : SameSTARSpacing)
  : SameSTARSpacing * bool :=
  if negb (pfs_authoritative p) then (fallback, true)
  else match pfs_byFamily p !! family with
       | Some policy => (pfm_sameSTARSpacing policy, true)
       | None => (zero_spacing, false)
       end.

Definition holdingSequencePolicyFor (p : preparedSTARFamilyPolicies) (selected : string) : string :=
  if str_empty selected then HoldingSequenceDisabled
  else match pfs_byFamily p !! selected with
       | Some policy => pfm_holdingSequencePolicy policy
       | None => HoldingSequenceDisabled
       end.

(** ** Demand *)

Definition demandWindow : Duration := 15 * Minute.

(** Number of demand times in the half-open window around [at_], as the two searches count it. *)
Definition demand_count (p : preparedPolicy) (at_ : Time) : Z :=
  let start := time_add at_ (dur_div (dur_neg demandWindow) 2) in
  let end_ := time_add at_ (dur_div demandWindow 2) in
  let first := sort_search_list (λ t, negb (before t start)) (pp_demandTimes p) in
  let last := sort_search_list (λ t, negb (before t end_)) (pp_demandTimes p) in
  Z.of_nat last - Z.of_nat first.

Definition demandBusy (p : preparedPolicy) (at_ : option Time) (threshold : Z) : bool :=
  match at_ with
  | None => false
  | Some at_ => threshold <=? u64 (u64 (demand_count p at_) * 4)
  end.

(** ** Required spacing *)

Definition sameSTARGap (p : preparedPolicy) (leading trailing : preparedFlight) (trailingAt : Time) : Duration :=
  if str_empty (fl_STARFamily leading) || str_empty (fl_STARFamily trailing)
     || negb (str_eqb (fl_STARFamily leading) (fl_STARFamily trailing)) then 0
  else
    let '(spacing, configured) :=
      spacingFor (pp_starFamilies p) (fl_STARFamily leading) (po_SameSTARSpacing p) in
    if negb configured || negb (ss_Enabled spacing) then 0
    else
      let rate := rateAt p trailingAt in
      if rate =? 0 then 0
      else if negb (bool_decide (fl_STARFamily leading ∈ pp_activeHoldingFamilies p))
              && negb (demandBusy p (fl_DemandArrivalAt trailing) (ss_ActivationRatePerHour spacing)) then 0
      else dur_mul (u32 (ss_MinimumEmptySlots spacing + 1)) (rateInterval rate).

Definition wakeGap (p : preparedPolicy) (leading trailing : preparedFlight) : Duration :=
  if pf_known leading && pf_known trailing then
    match pp_spacing p !! (pf_category leading, pf_category trailing) with Some d => d | None => 0 end
  else pp_fallback p.

Definition requiredGap (p : preparedPolicy) (leading trailing : preparedFlight) (trailingAt : Time) : Duration :=
  Z.max (Z.max (intervalAt p trailingAt) (wakeGap p leading trailing))
        (sameSTARGap p leading trailing trailingAt).

Definition adjacentValid (p : preparedPolicy) (leading trailing : allocatedEntry) : bool :=
  if negb (after (ae_time trailing) (ae_time leading)) then false
  else requiredGap p (ae_flight leading) (ae_flight trailing) (ae_time trailing)
         <=? time_sub (ae_time trailing) (ae_time leading).

(** ** The Copenhagen wake matrix *)

Definition CPHSeparationRules : list SeparationRule :=
  let categories := ["L"; "M"; "H"; "J"]%string in
  leading ← categories;
  trailing ← categories;
  let gap := 0 in
  let gap := if str_eqb leading "H" then 120 * Second else gap in
  let gap := if str_eqb leading "J" || str_eqb trailing "L" then 180 * Second else gap in
  [mk_rule leading trailing gap].

(** ** Facts *)

Lemma requiredGap_base p a b t : intervalAt p t ≤ requiredGap p a b t.
Proof. unfold requiredGap. lia. Qed.

Lemma requiredGap_wake p a b t : wakeGap p a b ≤ requiredGap p a b t.
Proof. unfold requiredGap. lia. Qed.

(** The spacing only looks at the flights' wake category, STAR family and demand time. *)
Definition same_spacing (f g : preparedFlight) : Prop :=
  pf_category f = pf_category g ∧ pf_known f = pf_known g ∧
  fl_STARFamily f = fl_STARFamily g ∧ fl_DemandArrivalAt f = fl_DemandArrivalAt g.

#[export] Instance same_spacing_equiv : Equivalence same_spacing.
Proof.
  unfold same_spacing. split; [by intros ?|by intros ? ? (? & ? & ? & ?)|].
  intros ? ? ? (? & ? & ? & ?) (? & ? & ? & ?). split_and!; congruence.
Qed.

#[export] Instance requiredGap_proper p :
  Proper (same_spacing ==> same_spacing ==> eq ==> eq) (requiredGap p).
Proof.
  intros a a' (H1 & H2 & H3 & H4) b b' (H1' & H2' & H3' & H4') t _ <-.
  unfold requiredGap, wakeGap, sameSTARGap. by rewrite H1, H2, H3, H1', H2', H3', H4'.
Qed.

(** Entries at the same instant for flights with the same spacing data. *)
Definition same_entry (a b : allocatedEntry) : Prop :=
  same_spacing (ae_flight a) (ae_flight b) ∧ ae_time a = ae_time b.

#[export] Instance same_entry_equiv : Equivalence same_entry.
Proof.
  split; [by intros ?|by intros ? ? [? ?]|].
  intros ? ? ? [? ?] [? ?]. split; [by etrans|congruence].
Qed.

#[export] Instance adjacentValid_proper p :
  Proper (same_entry ==> same_entry ==> eq) (adjacentValid p).
Proof. intros a a' [Ha Ht] b b' [Hb Ht']. unfold adjacentValid. by rewrite Ha, Hb, Ht, Ht'. Qed.

(** What separation means on the clock. *)
Lemma adjacentValid_spec p a b : grid_wf p → adjacentValid p a b = true →
  ns (ae_time a) < ns (ae_time b) ∧
  ns (ae_time a) + requiredGap p (ae_flight a) (ae_flight b) (ae_time b) ≤ ns (ae_time b).
Proof.
  intros Hwf. unfold adjacentValid. destruct (after _ _) eqn:E; [|done]. intros H%Z.leb_le.
  split; [by time_lia|]. apply time_sub_ge; [|done].
  pose proof (requiredGap_base p (ae_flight a) (ae_flight b) (ae_time b)).
  pose proof (intervalAt_nonneg p (ae_time b) Hwf). lia.
Qed.

Lemma adjacentValid_intro p a b :
  0 < requiredGap p (ae_flight a) (ae_flight b) (ae_time b) →
  requiredGap p (ae_flight a) (ae_flight b) (ae_time b) ≤ time_sub (ae_time b) (ae_time a) →
  adjacentValid p a b = true.
Proof.
  intros Hpos Hle. unfold adjacentValid.
  assert (Hlt : ns (ae_time a) + 1 ≤ ns (ae_time b)) by (apply time_sub_ge; lia).
  replace (after (ae_time b) (ae_time a)) with true by (symmetry; time_lia).
  by apply Z.leb_le.
Qed.
