(* ===== verification/SequenceOrder.v ===== *)
(** * Order of flights

    The comparison that orders flights, the holding precedence, and the
    allocation order of the movable flights ([engine.go]: [HoldingPrecedes],
    [flightLess], [holdingAltitudeLess], [lifecyclePriority], [sortEntries],
    [orderMovableFlights]). [orderMovableFlights] is a Go loop without a bound:
    it is characterised exactly, a set of flights that all wait for one another
    makes it run forever and nothing else does. *)

From S2P Require Import Prelude GoTime SequenceData.

Local Open Scope Z_scope.

(** ** Holding precedence *)

Definition HoldingPrecedes (older later : Flight) : bool :=
  match fl_ReleaseRank older, fl_ReleaseRank later with
  | Some ro, Some rl => ro <? rl
  | _, _ =>
      match fl_HoldingQueueTime older, fl_HoldingQueueTime later with
      | Some qo, Some ql => str_eqb (fl_HoldingQueueID older) (fl_HoldingQueueID later) && before qo ql
      | _, _ => false
      end
      || (str_eqb (fl_RunwayGroupID older) (fl_RunwayGroupID later)
          && negb (str_eqb (fl_HoldingQueueID older) (fl_HoldingQueueID later))
          && match fl_ActiveHoldingSince older, fl_ArrivalQueueTime later with
             | Some ao, Some al => before ao al
             | _, _ => false
             end)
  end.

Definition holdingPrecedes (p : preparedPolicy) (older later : Flight) : bool :=
  if po_AllowCrossFeederOvertake p && negb (str_eqb (fl_HoldingQueueID older) (fl_HoldingQueueID later))
  then false else HoldingPrecedes older later.

(** ** The flight comparison *)

Definition lifecyclePriority (state : FlightState) : Z :=
  match state with
  | StateStable => 0
  | StateUnstable => 1
  | StateAirborne => 2
  | StatePlanned => 3
  | StateGoAround => 4
  | _ => 5
  end.

(** [Some less] is Go's [(less, true)]. *)
Definition holdingAltitudeLess (a b : preparedFlight) : option bool :=
  if negb (str_eqb (pf_holdingSequencePolicy a) HoldingSequenceLowestAltitudeFirst)
     || negb (str_eqb (pf_holdingSequencePolicy b) HoldingSequenceLowestAltitudeFirst) then None
  else if str_empty (fl_SelectedSTARFamily a)
          || negb (str_eqb (fl_SelectedSTARFamily a) (fl_SelectedSTARFamily b)) then None
  else if str_empty (fl_HoldingStackID a)
          || negb (str_eqb (fl_HoldingStackID a) (fl_HoldingStackID b)) then None
  else match fl_HoldingAltitudeFeet a, fl_HoldingAltitudeFeet b with
       | Some x, Some y => if x =? y then None else Some (x <? y)
       | _, _ => None
       end.

Definition is_protected (f : Flight) : bool := frozen (fl_FreezeReason f) || fl_ProtectCurrentSlot f.

Definition flightLess_teta (a b : preparedFlight) : bool :=
  let aPriority := lifecyclePriority (fl_State a) in
  let bPriority := lifecyclePriority (fl_State b) in
  if negb (aPriority =? bPriority) then aPriority <? bPriority
  else if negb (time_eqb (fl_OperationalTETA a) (fl_OperationalTETA b))
  then before (fl_OperationalTETA a) (fl_OperationalTETA b)
  else match fl_InitialBaselineTETA a, fl_InitialBaselineTETA b with
       | None, Some _ => false
       | Some _, None => true
       | Some ta, Some tb =>
           if negb (time_eqb ta tb) then before ta tb else str_ltb (fl_Callsign a) (fl_Callsign b)
       | None, None => str_ltb (fl_Callsign a) (fl_Callsign b)
       end.

Definition flightLess_holding (a b : preparedFlight) : bool :=
  match holdingAltitudeLess a b with
  | Some less => less
  | None => flightLess_teta a b
  end.

(** Two flights with a stable order both have a current slot
    ([prepareFlights]); Go would otherwise fault on the nil dereference. *)
Definition flightLess_stable (a b : preparedFlight) : bool :=
  match pf_stableOrder a, pf_stableOrder b with
  | Some oa, Some ob =>
      if negb (oa =? ob) then oa <? ob
      else match fl_CurrentSlot a, fl_CurrentSlot b with
           | Some sa, Some sb =>
               if negb (time_eqb (sl_Time sa) (sl_Time sb)) then before (sl_Time sa) (sl_Time sb)
               else flightLess_holding a b
           | _, _ => false
           end
  | _, _ => flightLess_holding a b
  end.

Definition flightLess (a b : preparedFlight) : bool :=
  if negb (Bool.eqb (is_protected a) (is_protected b)) then is_protected a
  else match fl_ManualOrder a, fl_ManualOrder b with
       | None, Some _ => false
       | Some _, None => true
       | Some ma, Some mb => if negb (ma =? mb) then ma <? mb else flightLess_stable a b
       | None, None => flightLess_stable a b
       end.

Definition entryLess (a b : allocatedEntry) : bool :=
  if negb (time_eqb (ae_time a) (ae_time b)) then before (ae_time a) (ae_time b)
  else flightLess (ae_flight a) (ae_flight b).

Definition sortEntries (entries : list allocatedEntry) : list allocatedEntry := sort_slice entryLess entries.

(** ** Allocation order of the movable flights *)

(** Explicit manual or committed stable order retains its precedence over the hold queue. *)
Definition retains_order (flight other : preparedFlight) : bool :=
  match fl_ManualOrder flight with
  | Some m => match fl_ManualOrder other with None => true | Some mo => m <? mo end
  | None => false
  end
  || match pf_stableOrder flight, pf_stableOrder other with
     | Some s, Some so => s <? so
     | _, _ => false
     end.

(** [flight] has to wait for [other]. *)
Definition waits_for (p : preparedPolicy) (flight other : preparedFlight) : bool :=
  holdingPrecedes p other flight && negb (retains_order flight other).

Definition olderPending (p : preparedPolicy) (remaining : list preparedFlight) (flight : preparedFlight) : bool :=
  existsb (waits_for p flight) remaining.

(** One pass of the outer loop: take the first flight nobody remaining holds up. *)
Definition order_step (p : preparedPolicy) (s : list preparedFlight * list preparedFlight)
  : outcome ((list preparedFlight * list preparedFlight) + list preparedFlight) :=
  let '(remaining, ordered) := s in
  match remaining with
  | [] => Ok (inr ordered)
  | _ =>
      match list_find (λ f, olderPending p remaining f = false) remaining with
      | Some (i, flight) => Ok (inl (delete i remaining, ordered ++ [flight]))
      | None => Ok (inl (remaining, ordered))
      end
  end.

Definition orderMovableFlights (p : preparedPolicy) (flights : list preparedFlight)
  : outcome (list preparedFlight) :=
  iterate (Pos.of_succ_nat (length flights)) (order_step p) (sort_slice flightLess flights, []).

(** ** The comparison is asymmetric *)

Lemma holdingAltitudeLess_sym a b :
  holdingAltitudeLess b a = match holdingAltitudeLess a b with Some l => Some (negb l) | None => None end.
Proof.
  unfold holdingAltitudeLess.
  destruct (str_eqb (pf_holdingSequencePolicy a) _), (str_eqb (pf_holdingSequencePolicy b) _); simpl; try done.
  rewrite (str_eqb_sym (fl_SelectedSTARFamily b)).
  destruct (str_eqb (fl_SelectedSTARFamily a) (fl_SelectedSTARFamily b)) eqn:E1; simpl; [|by rewrite !orb_true_r].
  apply str_eqb_eq in E1. rewrite E1, orb_false_r. destruct (str_empty _); [done|].
  rewrite (str_eqb_sym (fl_HoldingStackID b)).
  destruct (str_eqb (fl_HoldingStackID a) (fl_HoldingStackID b)) eqn:E2; simpl; [|by rewrite !orb_true_r].
  apply str_eqb_eq in E2. rewrite E2, orb_false_r. destruct (str_empty _); [done|].
  destruct (fl_HoldingAltitudeFeet a) as [x|], (fl_HoldingAltitudeFeet b) as [y|]; try done.
  rewrite Z.eqb_sym. destruct (Z.eqb_spec x y); [done|].
  f_equal. destruct (Z.ltb_spec y x), (Z.ltb_spec x y); simpl; lia || done.
Qed.

Lemma time_eqb_sym a b : time_eqb a b = time_eqb b a.
Proof. unfold time_eqb. apply Z.eqb_sym. Qed.

Lemma before_asym a b : before a b = true → before b a = false.
Proof. time_lia. Qed.

Lemma ltb_asym a b : (a <? b) = true → (b <? a) = false.
Proof. intros. zbool. lia. Qed.

#[local] Hint Resolve before_asym ltb_asym str_ltb_asym : core.

Lemma flightLess_teta_asym a b : flightLess_teta a b = true → flightLess_teta b a = false.
Proof.
  unfold flightLess_teta. rewrite Z.eqb_sym, (time_eqb_sym (fl_OperationalTETA b)).
  destruct (_ =? _) eqn:E; simpl; [|auto]. destruct (time_eqb _ _); simpl; [|auto].
  destruct (fl_InitialBaselineTETA a) as [ta|], (fl_InitialBaselineTETA b) as [tb|]; try done; auto.
  rewrite (time_eqb_sym tb). destruct (time_eqb ta tb); simpl; auto.
Qed.

Lemma flightLess_holding_asym a b : flightLess_holding a b = true → flightLess_holding b a = false.
Proof.
  unfold flightLess_holding. rewrite (holdingAltitudeLess_sym a b).
  destruct (holdingAltitudeLess a b) as [[]|]; try done. apply flightLess_teta_asym.
Qed.

Lemma flightLess_stable_asym a b : flightLess_stable a b = true → flightLess_stable b a = false.
Proof.
  unfold flightLess_stable. pose proof (flightLess_holding_asym a b).
  destruct (pf_stableOrder a) as [oa|], (pf_stableOrder b) as [ob|]; auto.
  rewrite (Z.eqb_sym ob oa). destruct (oa =? ob); simpl; [|auto].
  destruct (fl_CurrentSlot a) as [sa|], (fl_CurrentSlot b) as [sb|]; try done.
  rewrite (time_eqb_sym (sl_Time sb)). destruct (time_eqb (sl_Time sa) (sl_Time sb)); simpl; auto.
Qed.

Lemma flightLess_asym a b : flightLess a b = true → flightLess b a = false.
Proof.
  unfold flightLess. pose proof (flightLess_stable_asym a b).
  destruct (is_protected a), (is_protected b); simpl; try done;
    destruct (fl_ManualOrder a) as [ma|], (fl_ManualOrder b) as [mb|]; try done; auto;
    rewrite (Z.eqb_sym mb ma); destruct (ma =? mb); simpl; auto.
Qed.

Lemma entryLess_asym a b : entryLess a b = true → entryLess b a = false.
Proof.
  unfold entryLess. rewrite (time_eqb_sym (ae_time b)). destruct (time_eqb (ae_time a) (ae_time b)); simpl; [|auto]. apply flightLess_asym.
Qed.

(** ** Sorted entries *)

Definition entry_ns (e : allocatedEntry) : Z := ns (ae_time e).

Definition time_ordered (l : list allocatedEntry) : Prop := chain (λ a b, entry_ns a ≤ entry_ns b) l.

(** No neighbours that [sortEntries] would exchange. *)
Definition settled (l : list allocatedEntry) : Prop := chain (λ a b, entryLess b a = false) l.

Lemma entryLess_le a b : entryLess a b = true → entry_ns a ≤ entry_ns b.
Proof. unfold entryLess, entry_ns. destruct (time_eqb _ _) eqn:E; simpl; time_lia. Qed.

Lemma entryLess_lt a b : entry_ns a < entry_ns b → entryLess a b = true.
Proof.
  unfold entryLess, entry_ns. intros. replace (time_eqb _ _) with false by (symmetry; time_lia).
  simpl. time_lia.
Qed.

Lemma sortEntries_perm l : sortEntries l ≡ₚ l.
Proof. apply sort_slice_perm. Qed.

Lemma sortEntries_settled l : settled (sortEntries l).
Proof. apply sort_slice_adj, entryLess_asym. Qed.

Lemma settled_ordered l : settled l → time_ordered l.
Proof.
  apply chain_mono. intros a b Hab. destruct (Z.le_gt_cases (entry_ns a) (entry_ns b)); [done|].
  rewrite entryLess_lt in Hab; [done|lia].
Qed.

Lemma sortEntries_fix l : settled l → sortEntries l = l.
Proof. apply sort_slice_fix. Qed.

(** A new entry strictly between its neighbours is inserted between them. *)
Lemma sortEntries_insert l1 l2 x :
  settled (l1 ++ l2) → (∀ y, y ∈ l1 → entry_ns y < entry_ns x) → (∀ y, y ∈ l2 → entry_ns x < entry_ns y) →
  sortEntries ((l1 ++ l2) ++ [x]) = l1 ++ x :: l2.
Proof.
  intros Hs H1 H2. unfold sortEntries. rewrite sort_slice_snoc.
  fold (sortEntries (l1 ++ l2)). rewrite sortEntries_fix by done.
  apply insert_right_split.
  - intros y Hy. by apply entryLess_lt, H2.
  - intros y Hy. apply entryLess_asym, entryLess_lt, H1. apply last_Some in Hy as [l' ->].
    apply elem_of_app. right. by apply list_elem_of_singleton.
Qed.

(** ** The allocation order

    A deadlock is a non-empty set of flights each of which waits for another
    member of the set. *)

Definition deadlocked (p : preparedPolicy) (l : list preparedFlight) : Prop :=
  l ≠ [] ∧ ∀ f, f ∈ l → olderPending p l f = true.

Lemma olderPending_spec p l f :
  olderPending p l f = true ↔ ∃ g, g ∈ l ∧ waits_for p f g = true.
Proof.
  unfold olderPending. rewrite existsb_exists. by setoid_rewrite <-list_elem_of_In.
Qed.

Lemma olderPending_mono p l l' f : l ⊆ l' → olderPending p l f = true → olderPending p l' f = true.
Proof. rewrite !olderPending_spec. intros Hsub (g & Hg & ?). eauto. Qed.

Lemma order_step_ok p s : ∃ r, order_step p s = Ok r.
Proof.
  destruct s as [rem ord]. unfold order_step. destruct rem; [by eexists|].
  destruct (list_find _ _) as [[i f]|]; by eexists.
Qed.

(** Either the step takes a flight nobody holds up, or the remaining flights are deadlocked. *)
Lemma order_step_cases p rem ord :
  rem ≠ [] →
  (∃ i f, rem !! i = Some f ∧ olderPending p rem f = false ∧
          order_step p (rem, ord) = Ok (inl (delete i rem, ord ++ [f]))) ∨
  (deadlocked p rem ∧ order_step p (rem, ord) = Ok (inl (rem, ord))).
Proof.
  intros Hne. unfold order_step. destruct rem as [|f0 rem]; [done|].
  destruct (list_find _ _) as [[i f]|] eqn:E.
  - left. apply list_find_Some in E as (Hi & Hp & _). eauto.
  - right. apply list_find_None in E. rewrite Forall_forall in E. split; [|done]. split; [done|].
    intros f Hf. specialize (E f Hf). by destruct (olderPending p _ f).
Qed.

Lemma order_step_nil p ord : order_step p ([], ord) = Ok (inr ord).
Proof. done. Qed.

Lemma order_loop p n rem ord :
  (length rem < n)%nat →
  (∃ l, loop_nat n (order_step p) (rem, ord) = Ok (inr l)) ∨ (∃ sub, sub ⊆ rem ∧ deadlocked p sub).
Proof.
  revert rem ord. induction n as [|n IH]; intros rem ord Hn; [lia|].
  destruct rem as [|f0 rem]; [left; by eexists|].
  destruct (order_step_cases p (f0 :: rem) ord ltac:(done)) as [(i & f & Hi & _ & Hs)|[Hd Hs]]; [|by right; exists (f0 :: rem)].
  cbn [loop_nat]. rewrite Hs. cbn [mbind outcome_bind].
  pose proof (length_delete (f0 :: rem) i (mk_is_Some _ _ Hi)) as Hlen. simpl length in Hlen, Hn.
  destruct (IH (delete i (f0 :: rem)) (ord ++ [f])) as [Hl|(sub & Hsub & Hd)]; [lia|by left|].
  right. exists sub. split; [|done]. etrans; [done|]. apply delete_Permutation in Hi. rewrite Hi at 2. set_solver.
Qed.

(** No deadlock among the flights: the loop ends. *)
Lemma order_returns p flights :
  (∀ sub, sub ⊆ flights → ¬ deadlocked p sub) → ∃ l, orderMovableFlights p flights = Ok l.
Proof.
  intros Hnd. unfold orderMovableFlights, iterate. rewrite loop_loop_nat, SuccNat2Pos.id_succ.
  destruct (order_loop p (S (length flights)) (sort_slice flightLess flights) []) as [[l Hl]|(sub & Hsub & Hd)].
  - rewrite sort_slice_perm. lia.
  - exists l. by rewrite Hl.
  - exfalso. apply (Hnd sub); [|done]. by rewrite sort_slice_perm in Hsub.
Qed.

(** [orderMovableFlights] runs forever exactly when some of the flights are deadlocked. *)
Theorem order_hangs_iff p flights :
  orderMovableFlights p flights = Hang ↔ ∃ sub, sub ⊆ flights ∧ deadlocked p sub.
Proof.
  split.
  - intros Hh. unfold orderMovableFlights, iterate in Hh. rewrite loop_loop_nat, SuccNat2Pos.id_succ in Hh.
    destruct (order_loop p (S (length flights)) (sort_slice flightLess flights) []) as [[l Hl]|(sub & Hsub & Hd)].
    + rewrite sort_slice_perm. lia.
    + by rewrite Hl in Hh.
    + exists sub. by rewrite sort_slice_perm in Hsub.
  - intros (sub & Hsub & Hne & Hd).
    destruct (iterate_ok_or_hang (order_step p) (Pos.of_succ_nat (length flights))
                (sort_slice flightLess flights, []) (order_step_ok p)) as [[l E]|]; [exfalso|done].
    refine (iterate_inv (order_step p) (λ s, sub ⊆ s.1) (λ _, False) _ _ _ _ _ _ E).
    + intros [rem ord] s' Hin Hs. simpl in Hin. destruct rem as [|f0 rem]; [done|].
      destruct (order_step_cases p (f0 :: rem) ord ltac:(done)) as [(i & f & Hi & Hp & Hs')|[_ Hs']];
        rewrite Hs in Hs'; injection Hs' as ->; [|done].
      intros x Hx. specialize (Hin x Hx) as Hx'. apply delete_Permutation in Hi. rewrite Hi in Hx'.
      apply elem_of_cons in Hx' as [->|]; [|done]. exfalso.
      by rewrite (olderPending_mono p sub _ f Hin (Hd f Hx)) in Hp.
    + intros [rem ord] r Hin Hs. simpl in Hin. destruct rem as [|f0 rem].
      * apply Hne. destruct sub as [|x sub]; [done|]. by specialize (Hin x ltac:(left)) as ?%elem_of_nil.
      * destruct (order_step_cases p (f0 :: rem) ord ltac:(done)) as [(i & f & _ & _ & Hs')|[_ Hs']];
          by rewrite Hs in Hs'.
    + simpl. by rewrite sort_slice_perm.
Qed.

(** The result lists every movable flight once, and no flight before one it waits for. *)
Lemma order_facts p flights l :
  orderMovableFlights p flights = Ok l →
  l ≡ₚ flights ∧ ∀ i j f g, (i ≤ j)%nat → l !! i = Some f → l !! j = Some g → waits_for p f g = false.
Proof.
  intros E. unfold orderMovableFlights in E.
  refine (iterate_inv (order_step p)
    (λ s, s.2 ++ s.1 ≡ₚ flights ∧
      ∀ i j f g, (i ≤ j)%nat → s.2 !! i = Some f → (s.2 ++ s.1) !! j = Some g → waits_for p f g = false)
    (λ l, l ≡ₚ flights ∧ ∀ i j f g, (i ≤ j)%nat → l !! i = Some f → l !! j = Some g → waits_for p f g = false)
    _ _ _ _ _ _ E); clear E l.
  - intros [rem ord] s' [Hp Hw] Hs. cbn [fst snd] in *. destruct rem as [|f0 rem]; [done|].
    destruct (order_step_cases p (f0 :: rem) ord ltac:(done)) as [(i & f & Hi & Hpend & Hs')|[_ Hs']];
      rewrite Hs in Hs'; injection Hs' as ->; [|done]. simpl.
    pose proof (delete_Permutation _ _ _ Hi) as Hperm.
    assert (Hperm' : (ord ++ [f]) ++ delete i (f0 :: rem) ≡ₚ ord ++ f0 :: rem).
    { rewrite <-app_assoc. simpl. by rewrite <-Hperm. }
    split; [by rewrite Hperm'|]. intros a b x y Hab Hx Hy.
    destruct (decide (a < length ord)%nat) as [Ha|Ha].
    + rewrite lookup_app_l in Hx by done.
      assert (Hin : y ∈ drop a (ord ++ f0 :: rem)).
      { assert (Hdrop : drop a ((ord ++ [f]) ++ delete i (f0 :: rem)) ≡ₚ drop a (ord ++ f0 :: rem)).
        { rewrite <-app_assoc, !drop_app_le by lia. simpl. by rewrite <-Hperm. }
        rewrite <-Hdrop. apply list_elem_of_lookup_2 with (b - a)%nat. rewrite lookup_drop. by replace (a + (b - a))%nat with b by lia. }
      apply list_elem_of_lookup in Hin as [k Hk]. rewrite lookup_drop in Hk. eapply (Hw a (a + k)%nat); [lia|done|done].
    + assert (a = length ord) as ->.
      { apply lookup_lt_Some in Hx. rewrite length_app in Hx. simpl in Hx. lia. }
      rewrite lookup_app_r, Nat.sub_diag in Hx by lia. injection Hx as <-.
      assert (Hin : y ∈ f0 :: rem).
      { rewrite Hperm. rewrite <-app_assoc, lookup_app_r in Hy by lia. by apply list_elem_of_lookup_2 in Hy. }
      destruct (waits_for p f y) eqn:E; [|done].
      rewrite (proj2 (olderPending_spec p (f0 :: rem) f)) in Hpend; [done|]. by exists y.
  - intros [rem ord] r [Hp Hw] Hs. cbn [fst snd] in *. destruct rem as [|f0 rem].
    + rewrite order_step_nil in Hs. injection Hs as <-. rewrite app_nil_r in Hp, Hw. done.
    + destruct (order_step_cases p (f0 :: rem) ord ltac:(done)) as [(i & f & _ & _ & Hs')|[_ Hs']];
        by rewrite Hs in Hs'.
  - simpl. split; [apply sort_slice_perm|]. intros i j f g _ Hf. by rewrite lookup_nil in Hf.
Qed.

Lemma order_perm p flights l : orderMovableFlights p flights = Ok l → l ≡ₚ flights.
Proof. by intros [? _]%order_facts. Qed.

(** A ranking that the waiting relation decreases excludes deadlocks. *)
Lemma ranked_not_deadlocked p (rank : preparedFlight → Z) l :
  (∀ f g, f ∈ l → g ∈ l → waits_for p f g = true → rank g < rank f) → ¬ deadlocked p l.
Proof.
  intros Hrank [Hne Hd].
  assert (∃ f, f ∈ l ∧ ∀ g, g ∈ l → rank f ≤ rank g) as (f & Hf & Hmin).
  { clear Hd Hrank. induction l as [|x l IH]; [done|]. destruct (decide (l = [])) as [->|Hl].
    - exists x. split; [by left|]. intros g ->%list_elem_of_singleton. lia.
    - destruct (IH Hl) as (m & Hm & Hmin). destruct (Z.le_gt_cases (rank x) (rank m)).
      + exists x. split; [by left|]. intros g [->|Hg]%elem_of_cons; [lia|]. specialize (Hmin g Hg). lia.
      + exists m. split; [by right|]. intros g [->|Hg]%elem_of_cons; [lia|auto]. }
  apply Hd in Hf as Hp. apply olderPending_spec in Hp as (g & Hg & Hw).
  specialize (Hrank f g Hf Hg Hw). specialize (Hmin g Hg). lia.
Qed.

(** Under cross-feeder overtaking and without release ranks, holding
    precedence is queue order within one fix, so the loop always ends. *)
Theorem order_terminates_overtaking (p : preparedPolicy) (flights : list preparedFlight) :
  po_AllowCrossFeederOvertake p = true →
  (∀ f : preparedFlight, f ∈ flights → fl_ReleaseRank f = None) →
  ∃ l, orderMovableFlights p flights = Ok l.
Proof.
  intros Hover Hrank. apply order_returns. intros sub Hsub.
  apply (ranked_not_deadlocked p (λ f, match fl_HoldingQueueTime f with Some t => ns t | None => 0 end)).
  intros f g Hf Hg Hw. unfold waits_for, holdingPrecedes, HoldingPrecedes in Hw.
  rewrite Hover, (Hrank g (Hsub g Hg)) in Hw.
  destruct (str_eqb (fl_HoldingQueueID g) (fl_HoldingQueueID f)); simpl in Hw; [|done].
  destruct (fl_HoldingQueueTime g), (fl_HoldingQueueTime f); simpl in Hw;
    rewrite ?andb_false_r, ?orb_false_r in Hw; simpl in Hw; try done.
  zbool. time_lia.
Qed.
