(* ===== verification/SequencePlacement.v ===== *)
(** * Placement of one flight

    Where a movable flight goes among the entries already allocated
    ([engine.go]: [placementWithStableOrder], [findCandidate],
    [allocateMovableFlights]). A valid placement keeps the separation to both
    neighbours, so allocation preserves the separation of the whole list; the
    search for a candidate always ends. *)

From S2P Require Import Prelude GoTime SequenceData SequenceGrid SequenceSpacing SequenceOrder.

Local Open Scope Z_scope.

Definition orderAfter (candidate existing : option Z) : bool :=
  match candidate, existing with Some c, Some e => c <? e | _, _ => false end.

Definition orderBefore (candidate existing : option Z) : bool :=
  match candidate, existing with Some c, Some e => e <? c | _, _ => false end.

(** Validity of the candidate and the bounds for the next earlier and later attempt. *)
Record placement_result := mk_placement { pl_valid : bool; pl_earlier : Time; pl_later : Time }.

Definition reject_earlier (s : placement_result) (bound : Time) : placement_result :=
  mk_placement false (earlier_of (pl_earlier s) bound) (pl_later s).
Definition reject_later (s : placement_result) (bound : Time) : placement_result :=
  mk_placement false (pl_earlier s) (later_of (pl_later s) bound).

Definition place_after_leading (p : preparedPolicy) (flight : preparedFlight) (candidate : Time)
    (preserveStableOrder : bool) (leading : allocatedEntry) (s : placement_result) : placement_result :=
  let boundEarlier := time_add (ae_time leading)
                        (dur_neg (requiredGap p flight (ae_flight leading) (ae_time leading))) in
  let s := if orderAfter (fl_ManualOrder flight) (fl_ManualOrder (ae_flight leading))
              || (preserveStableOrder && orderAfter (pf_stableOrder flight) (pf_stableOrder (ae_flight leading)))
           then reject_earlier s boundEarlier else s in
  let required := requiredGap p (ae_flight leading) flight candidate in
  if time_sub candidate (ae_time leading) <? required
  then reject_later (reject_earlier s boundEarlier) (time_add (ae_time leading) required)
  else s.

Definition place_before_trailing (p : preparedPolicy) (flight : preparedFlight) (candidate : Time)
    (preserveStableOrder : bool) (trailing : allocatedEntry) (s : placement_result) : placement_result :=
  let boundLater := time_add (ae_time trailing)
                      (requiredGap p (ae_flight trailing) flight (ae_time trailing)) in
  let s := if orderBefore (fl_ManualOrder flight) (fl_ManualOrder (ae_flight trailing))
              || (preserveStableOrder && orderBefore (pf_stableOrder flight) (pf_stableOrder (ae_flight trailing)))
           then reject_later s boundLater else s in
  let required := requiredGap p flight (ae_flight trailing) (ae_time trailing) in
  if time_sub (ae_time trailing) candidate <? required
  then reject_later (reject_earlier s (time_add (ae_time trailing) (dur_neg required))) boundLater
  else s.

(** An established committed order is not reversed by a later discovered holding order. *)
Definition keeps_committed_order (flight older : preparedFlight) (candidate : Time) : bool :=
  match pf_stableOrder flight, fl_CurrentSlot flight, fl_CurrentSlot older with
  | Some _, Some slot, Some olderSlot =>
      before candidate (sl_Time slot) && before (sl_Time slot) (sl_Time olderSlot)
      && (sl_Sequence slot <? sl_Sequence olderSlot)
  | _, _, _ => false
  end.

(** An explicit controller order overrides automatic holding priority. *)
Definition controller_overrides (flight older : preparedFlight) : bool :=
  (is_nil (fl_ReleaseRank flight) || is_nil (fl_ReleaseRank older))
  && match fl_ManualOrder flight with
     | Some m => match fl_ManualOrder older with None => true | Some mo => m <? mo end
     | None => false
     end.

(** The earliest instant at which [flight] may follow the holding entry [entry]. *)
Definition holding_minimum (p : preparedPolicy) (flight : preparedFlight) (candidate : Time)
    (entry : allocatedEntry) : Time :=
  let older := ae_flight entry in
  let transits := (0 <? fl_HoldingTransit older) && (0 <? fl_HoldingTransit flight) in
  let minimum := time_add (ae_time entry) (requiredGap p older flight candidate) in
  let minimum :=
    if not_nil (fl_ReleaseRank older) && not_nil (fl_ReleaseRank flight) && transits
    then time_add (ae_time entry) (dur_sub (fl_HoldingTransit flight) (fl_HoldingTransit older))
    else minimum in
  if str_eqb (fl_HoldingQueueID older) (fl_HoldingQueueID flight) && transits
  then later_of minimum (time_add (ae_time entry)
         (dur_add (dur_sub (fl_HoldingTransit flight) (fl_HoldingTransit older)) Minute))
  else minimum.

Definition place_after_holding (p : preparedPolicy) (flight : preparedFlight) (candidate : Time)
    (s : placement_result) (entry : allocatedEntry) : placement_result :=
  let older := ae_flight entry in
  if negb (holdingPrecedes p older flight) then s
  else if keeps_committed_order flight older candidate then s
  else if controller_overrides flight older then s
  else
    let minimum := holding_minimum p flight candidate entry in
    if before candidate minimum then reject_later s minimum else s.

Definition placementWithStableOrder (p : preparedPolicy) (entries : list allocatedEntry)
    (flight : preparedFlight) (candidate : Time) (preserveStableOrder : bool) : placement_result :=
  if opt_test (before candidate) (fl_SlotNotBefore flight) then
    mk_placement false (time_add candidate (- Nanosecond)) (default candidate (fl_SlotNotBefore flight))
  else match blockingGap p candidate with
  | Some gap => mk_placement false (time_add (gap_Start gap) (- Nanosecond)) (gap_End gap)
  | None =>
      let index := sort_search_list (λ e, negb (before (ae_time e) candidate)) entries in
      let s := mk_placement true (time_add candidate (- Nanosecond)) (time_add candidate Nanosecond) in
      let s := match last (take index entries) with
               | Some leading => place_after_leading p flight candidate preserveStableOrder leading s
               | None => s
               end in
      let s := match entries !! index with
               | Some trailing => place_before_trailing p flight candidate preserveStableOrder trailing s
               | None => s
               end in
      if not_nil (fl_HoldingQueueTime flight) || not_nil (fl_ArrivalQueueTime flight)
      then foldl (place_after_holding p flight candidate) s entries
      else s
  end.

Definition placement p entries flight candidate := placementWithStableOrder p entries flight candidate true.
Definition queuePlacement p entries flight candidate := placementWithStableOrder p entries flight candidate true.

(** ** Search for a candidate *)

Definition candidate_lower (p : preparedPolicy) (flight : preparedFlight) : Time :=
  let lower := time_add (fl_OperationalTETA flight) (dur_neg (po_EarlyTolerance p)) in
  match fl_SlotNotBefore flight with
  | Some t => if before lower t then t else lower
  | None => lower
  end.

(** The loop over earlier grid points, down to [lower]. *)
Definition earlier_step (p : preparedPolicy) (entries : list allocatedEntry) (flight : preparedFlight)
    (lower candidate : Time) : outcome (Time + option Time) :=
  if before candidate lower then Ok (inr None)
  else
    let r := placement p entries flight candidate in
    if pl_valid r then Ok (inr (Some candidate))
    else
      let nextTarget := time_add candidate (- Nanosecond) in
      let nextTarget := if before (pl_earlier r) nextTarget then pl_earlier r else nextTarget in
      next ← previousGridAtOrBefore p nextTarget;
      match next with
      | None => Ok (inr None)
      | Some candidate => Ok (inl candidate)
      end.

Definition find_earlier (p : preparedPolicy) (entries : list allocatedEntry) (flight : preparedFlight)
    (lower : Time) : outcome (option Time) :=
  first ← previousGridAtOrBefore p (fl_OperationalTETA flight);
  match first with
  | Some candidate =>
      if before candidate (fl_OperationalTETA flight)
      then iterate (Z.to_pos (ns candidate - ns lower + 2)) (earlier_step p entries flight lower) candidate
      else Ok None
  | None => Ok None
  end.

(** The bounded loop over later grid points. *)
Fixpoint find_later (attempts : nat) (p : preparedPolicy) (entries : list allocatedEntry)
    (flight : preparedFlight) (candidate : Time) : outcome (option Time) :=
  match attempts with
  | O => Ok None
  | S attempts =>
      let r := placement p entries flight candidate in
      if pl_valid r then Ok (Some candidate)
      else
        let nextTarget := time_add candidate Nanosecond in
        let nextTarget := if after (pl_later r) nextTarget then pl_later r else nextTarget in
        next ← nextGridAtOrAfter p nextTarget;
        match next with
        | None => Ok None
        | Some candidate => find_later attempts p entries flight candidate
        end
  end.

Definition findCandidate (p : preparedPolicy) (entries : list allocatedEntry) (flight : preparedFlight)
  : outcome Time :=
  let lower := candidate_lower p flight in
  earlier ← find_earlier p entries flight lower;
  match earlier with
  | Some candidate => Ok candidate
  | None =>
      let target := if before (fl_OperationalTETA flight) lower then lower else fl_OperationalTETA flight in
      first ← nextGridAtOrAfter p target;
      match first with
      | None => Err (Errorf "runway group %q has no slot grid at or after flight %q TETA"
                            [AStr (po_RunwayGroupID p); AStr (fl_Callsign flight)])
      | Some candidate =>
          found ← find_later (length entries + length (po_Gaps p) + length (po_Closures p) + 2)
                             p entries flight candidate;
          match found with
          | Some candidate => Ok candidate
          | None => Err (Errorf "runway group %q could not allocate flight %q"
                                [AStr (po_RunwayGroupID p); AStr (fl_Callsign flight)])
          end
      end
  end.

Definition allocate_one (p : preparedPolicy) (entries : list allocatedEntry) (flight : preparedFlight)
  : outcome (list allocatedEntry) :=
  candidate ← findCandidate p entries flight;
  Ok (sortEntries (entries ++ [mk_alloc flight candidate ReasonRateWTC])).

Definition allocateMovableFlights (p : preparedPolicy) (protected : list allocatedEntry)
    (ordered : list preparedFlight) : outcome (list allocatedEntry) :=
  fold_outcome (allocate_one p) protected ordered.

(** ** What a valid placement guarantees *)

Lemma place_after_leading_valid p f c b leading s :
  pl_valid (place_after_leading p f c b leading s) = true →
  pl_valid s = true ∧ requiredGap p (ae_flight leading) f c ≤ time_sub c (ae_time leading).
Proof. unfold place_after_leading. destruct (_ || _); destruct (_ <? _) eqn:E; simpl; try done. split; [done|]. zbool. lia. Qed.

Lemma place_before_trailing_valid p f c b trailing s :
  pl_valid (place_before_trailing p f c b trailing s) = true →
  pl_valid s = true ∧ requiredGap p f (ae_flight trailing) (ae_time trailing) ≤ time_sub (ae_time trailing) c.
Proof. unfold place_before_trailing. destruct (_ || _); destruct (_ <? _) eqn:E; simpl; try done. split; [done|]. zbool. lia. Qed.

Lemma place_after_holding_valid p f c s e :
  pl_valid (place_after_holding p f c s e) = true → pl_valid s = true.
Proof. unfold place_after_holding. repeat case_match; simpl; done. Qed.

Lemma fold_holding_valid p f c l s :
  pl_valid (foldl (place_after_holding p f c) s l) = true → pl_valid s = true.
Proof.
  revert s. induction l as [|e l IH]; simpl; [done|]. intros s H.
  by eapply place_after_holding_valid, IH.
Qed.

(** The position a placement is checked at. *)
Definition position (entries : list allocatedEntry) (c : Time) : nat :=
  sort_search_list (λ e, negb (before (ae_time e) c)) entries.

Record fits (p : preparedPolicy) (entries : list allocatedEntry) (f : preparedFlight) (c : Time) : Prop := {
  fit_leading : ∀ e, last (take (position entries c) entries) = Some e →
    requiredGap p (ae_flight e) f c ≤ time_sub c (ae_time e);
  fit_trailing : ∀ e, entries !! position entries c = Some e →
    requiredGap p f (ae_flight e) (ae_time e) ≤ time_sub (ae_time e) c;
  fit_not_before : ∀ t, fl_SlotNotBefore f = Some t → ns t ≤ ns c;
  fit_no_gap : blockingGap p c = None
}.

Lemma placement_fits p entries f c b :
  pl_valid (placementWithStableOrder p entries f c b) = true → fits p entries f c.
Proof.
  unfold placementWithStableOrder. destruct (opt_test _ _) eqn:Enb; [done|].
  destruct (blockingGap p c) eqn:Eg; [done|]. fold (position entries c).
  set (s0 := mk_placement true _ _). set (s1 := match last _ with Some _ => _ | None => s0 end).
  set (s2 := match entries !! _ with Some _ => _ | None => s1 end).
  intros Hv. assert (H2 : pl_valid s2 = true) by (destruct (_ || _); [by eapply fold_holding_valid|done]).
  assert (H1 : pl_valid s1 = true).
  { subst s2. destruct (entries !! _); [by eapply place_before_trailing_valid|done]. }
  split; [| | |done].
  - intros e He. subst s1. rewrite He in H1. by eapply place_after_leading_valid.
  - intros e He. subst s2. rewrite He in H2. by eapply place_before_trailing_valid.
  - intros t Ht. rewrite Ht in Enb. simpl in Enb. time_lia.
Qed.

(** The search index splits a time-ordered list at the candidate. *)
Lemma position_split entries c :
  time_ordered entries →
  entries = take (position entries c) entries ++ drop (position entries c) entries ∧
  (∀ e, e ∈ take (position entries c) entries → entry_ns e < ns c) ∧
  (∀ e, e ∈ drop (position entries c) entries → ns c ≤ entry_ns e).
Proof.
  intros Ho. assert (Hm : chain (λ a b, negb (before (ae_time a) c) = true → negb (before (ae_time b) c) = true) entries).
  { eapply chain_mono; [|exact Ho]. unfold entry_ns. intros a b ?. simpl. time_lia. }
  pose proof (sort_search_list_spec _ _ Hm) as (_ & Hlo & Hhi). fold (position entries c) in *.
  rewrite Forall_forall in Hlo. rewrite Forall_forall in Hhi. split_and!.
  - by rewrite take_drop.
  - intros e He. specialize (Hlo e He). simpl in Hlo. unfold entry_ns. time_lia.
  - intros e He. specialize (Hhi e He). simpl in Hhi. unfold entry_ns. time_lia.
Qed.

(** ** Grid searches under continuous spacing

    These hold for every target, however far from the first rate point. *)

(** The rate grid has started: some rate is in force. *)
Definition started (p : preparedPolicy) (t : Time) : Prop := 0 < intervalAt p t.

Lemma started_from (p : preparedPolicy) t r0 :
  grid_wf p → head (pp_rates p) = Some r0 → ns (rp_EffectiveAt r0) ≤ ns t → started p t.
Proof. intros Hwf H0 H. unfold started. pose proof (intervalAt_bounds p t r0 Hwf H0 H). lia. Qed.

Lemma next_point_continuous (p : preparedPolicy) t o :
  grid_wf p → po_ContinuousSpacing p = true → next_point p t = Ok o →
  ∃ c, o = Some c ∧ ns t ≤ ns c ∧ started p c.
Proof.
  intros Hwf Hc. unfold next_point. rewrite Hc. destruct (grid_nonempty p Hwf) as [r0 H0]. rewrite H0.
  simpl. intros [= <-]. eexists. split; [done|].
  set (u := later_of t (rp_EffectiveAt r0)). pose proof (later_of_ge t (rp_EffectiveAt r0)) as [Hu1 Hu2]. fold u in Hu1, Hu2.
  pose proof (truncate_bounds u Second ltac:(done)) as Hb.
  assert (Hle : ns u ≤ ns (if before (truncate u Second) u then time_add (truncate u Second) Second else truncate u Second)).
  { destruct (before (truncate u Second) u) eqn:E; [cbn [ns time_add]; lia|]. unfold before in E. zbool. lia. }
  split; [lia|]. apply (started_from p _ r0); [done|done|lia].
Qed.

Lemma next_grid_continuous (p : preparedPolicy) target c :
  grid_wf p → po_ContinuousSpacing p = true →
  nextGridAtOrAfter p target = Ok (Some c) → ns target ≤ ns c ∧ started p c ∧ ¬ blocked p c.
Proof.
  intros Hwf Hcont. unfold nextGridAtOrAfter. intros E.
  refine (iterate_inv (next_step p) (λ t, ns target ≤ ns t)
    (λ o, ∀ c, o = Some c → ns target ≤ ns c ∧ started p c ∧ ¬ blocked p c) _ _ _ _ _ _ E c eq_refl); [| |lia].
  - intros t t' Ht Hs. unfold next_step in Hs. bind_inv Hs.
    destruct (next_point_continuous p t _ Hwf Hcont E0) as (d & -> & Hd & _).
    destruct (blockingClosure p d) as [[e|]|] eqn:Ecl; [|done|].
    + injection Hs as <-. apply closure_scan_Some in Ecl as (? & _ & _ & _ & ?). lia.
    + destruct (blockingGap p d) as [g|] eqn:Eg; [|done]. injection Hs as <-.
      apply blockingGap_Some in Eg as [_ ?]. lia.
  - intros t o Ht Hs d ->. unfold next_step in Hs. bind_inv Hs.
    destruct (next_point_continuous p t _ Hwf Hcont E0) as (d' & -> & Hd & Hst).
    destruct (blockingClosure p d') as [[e|]|] eqn:Ecl; [done|done|].
    destruct (blockingGap p d') as [g|] eqn:Eg; [done|]. injection Hs as <-.
    split_and!; [lia|done|]. rewrite blocked_iff by done. rewrite Ecl, Eg. by intros [[? ?]|[? ?]].
Qed.

Lemma previous_point_started (p : preparedPolicy) t c :
  grid_wf p → previous_point p t = Ok (Some c) → ns c ≤ ns t ∧ started p c.
Proof.
  intros Hwf H. split.
  { destruct (previous_point_le p t Hwf) as (o & Ho & Hle). rewrite H in Ho. injection Ho as <-. by apply Hle. }
  destruct (grid_nonempty p Hwf) as [r0 H0]. apply (started_from p c r0); [done|done|].
  unfold previous_point in H. destruct (po_ContinuousSpacing p).
  - rewrite H0 in H. simpl in H. destruct (before _ _) eqn:E; simplify_eq. time_lia.
  - injection H as H. unfold previousRateGridAtOrBefore in H. pose proof (rate_search p t Hwf) as Hs.
    destruct (sort_search_list _ _) as [|i]; [done|]. destruct Hs as (r & Hr & Hle & _). rewrite Hr in H. injection H as <-.
    pose proof (rateInterval_bounds _ (rate_positive p i r Hwf Hr)) as HI.
    assert (Hd : 0 ≤ time_sub t (rp_EffectiveAt r) < 2^63) by (unfold time_sub, sat64, min_int64, max_int64; lia).
    rewrite floor_steps by lia. pose proof (head_first p i r r0 Hwf H0 Hr).
    pose proof (Z.div_pos (time_sub t (rp_EffectiveAt r)) (rateInterval (rp_ArrivalsPerHour r)) ltac:(lia) ltac:(lia)).
    cbn [ns time_add]. nia.
Qed.

Lemma previous_grid_facts (p : preparedPolicy) target c :
  grid_wf p → previousGridAtOrBefore p target = Ok (Some c) →
  ns c ≤ ns target ∧ started p c ∧ ¬ blocked p c.
Proof.
  intros Hwf E. unfold previousGridAtOrBefore in E.
  refine (iterate_inv (previous_step p) (λ t, ns t ≤ ns target)
    (λ o, ∀ c, o = Some c → ns c ≤ ns target ∧ started p c ∧ ¬ blocked p c) _ _ _ _ _ _ E c eq_refl); [| |lia].
  - intros t t' Ht Hs. destruct (previous_step_descends p t t' Hwf Hs). lia.
  - intros t o Ht Hs d ->. pose proof (previous_step_cases p t Hwf) as Hc. rewrite Hs in Hc.
    destruct Hc as [Hp Hnb]. destruct (previous_point_started p t d Hwf Hp). split_and!; [lia|done|done].
Qed.

(** ** The candidate of a flight *)

(** Where a movable flight may be put. *)
Record good_slot (p : preparedPolicy) (f : preparedFlight) (c : Time) : Prop := {
  gs_lower : ns (candidate_lower p f) ≤ ns c;
  gs_started : started p c;
  gs_unblocked : ¬ blocked p c
}.

Lemma find_earlier_facts (p : preparedPolicy) entries f c :
  grid_wf p → find_earlier p entries f (candidate_lower p f) = Ok (Some c) →
  fits p entries f c ∧ good_slot p f c ∧ ns c < ns (fl_OperationalTETA f).
Proof.
  intros Hwf E. unfold find_earlier in E. bind_inv E. destruct r as [c0|]; [|done].
  destruct (before c0 _) eqn:Eb; [|done].
  refine (iterate_inv _ (λ t, ns t < ns (fl_OperationalTETA f) ∧ started p t ∧ ¬ blocked p t)
    (λ o, ∀ c, o = Some c → fits p entries f c ∧ good_slot p f c ∧ ns c < ns (fl_OperationalTETA f)) _ _ _ _ _ _ E c eq_refl).
  - intros t t' (Ht & _ & _) Hs. unfold earlier_step in Hs. destruct (before t _); [done|].
    destruct (pl_valid _); [done|]. bind_inv Hs. destruct r as [n|]; [|done]. injection Hs as <-.
    apply previous_grid_facts in E1 as (Hn & ? & ?); [|done]. split_and!; [|done|done].
    unfold Nanosecond in Hn. destruct (before (pl_earlier _) _) eqn:E1 in Hn; time_lia.
  - intros t o (Ht & Hst & Hnb) Hs d ->. unfold earlier_step in Hs. destruct (before t _) eqn:El; [done|].
    destruct (pl_valid _) eqn:Ev.
    + injection Hs as <-. split_and!; [by eapply placement_fits|split; [time_lia|done|done]|done].
    + bind_inv Hs. by destruct r.
  - apply previous_grid_facts in E0 as (? & ? & ?); [|done]. split_and!; [time_lia|done|done].
Qed.

Lemma find_later_facts (p : preparedPolicy) entries f n c0 c :
  grid_wf p → po_ContinuousSpacing p = true →
  ns (candidate_lower p f) ≤ ns c0 → started p c0 → ¬ blocked p c0 →
  find_later n p entries f c0 = Ok (Some c) → fits p entries f c ∧ good_slot p f c ∧ ns c0 ≤ ns c.
Proof.
  intros Hwf Hcont. revert c0. induction n as [|n IH]; intros c0 Hl Hst Hnb E; cbn [find_later] in E; [done|].
  destruct (pl_valid _) eqn:Ev.
  - injection E as <-. split_and!; [by eapply placement_fits|by split|done].
  - bind_inv E. destruct r as [d|]; [|done]. apply next_grid_continuous in E0 as (Hd & ? & ?); [|done|done].
    assert (Hle : ns c0 ≤ ns d).
    { unfold Nanosecond in Hd. destruct (after (pl_later _) _) eqn:Ea in Hd; time_lia. }
    destruct (IH d) as (? & ? & ?); [lia|done|done|done|]. split_and!; [done|done|lia].
Qed.

Lemma candidate_target_lower (p : preparedPolicy) (f : preparedFlight) :
  ns (candidate_lower p f) ≤
  ns (if before (fl_OperationalTETA f) (candidate_lower p f) then candidate_lower p f else fl_OperationalTETA f).
Proof. destruct (before _ _) eqn:E; time_lia. Qed.

(** The slot found keeps the separation to both neighbours and is usable. *)
Lemma findCandidate_facts (p : preparedPolicy) entries f c :
  grid_wf p → po_ContinuousSpacing p = true → findCandidate p entries f = Ok c →
  fits p entries f c ∧ good_slot p f c.
Proof.
  intros Hwf Hcont E. unfold findCandidate in E. bind_inv E. destruct r as [d|].
  - injection E as ->. apply find_earlier_facts in E0 as (? & ? & _); done.
  - bind_inv E. destruct r as [d|]; [|done]. bind_inv E. destruct r as [e|]; [|done]. injection E as ->.
    apply next_grid_continuous in E1 as (Hd & ? & ?); [|done|done].
    pose proof (candidate_target_lower p f).
    apply find_later_facts in E2 as (? & ? & _); [done|done|done|lia|done|done].
Qed.

(** ** The search ends *)

Lemma earlier_step_returns (p : preparedPolicy) entries f lower c :
  grid_wf p → returns (earlier_step p entries f lower c).
Proof.
  intros Hwf. unfold earlier_step. destruct (before c lower); [done|]. destruct (pl_valid _); [done|].
  apply returns_bind; [by apply previous_grid_returns|]. by intros [?|] _.
Qed.

Lemma earlier_step_descends (p : preparedPolicy) entries f lower c c' :
  grid_wf p → earlier_step p entries f lower c = Ok (inl c') → ns lower ≤ ns c ∧ ns c' < ns c.
Proof.
  intros Hwf Hs. unfold earlier_step in Hs. destruct (before c lower) eqn:El; [done|].
  destruct (pl_valid _); [done|]. bind_inv Hs. destruct r as [n|]; [|done]. injection Hs as <-.
  apply previous_grid_facts in E as (Hn & _ & _); [|done]. unfold Nanosecond in Hn.
  destruct (before (pl_earlier _) _) eqn:E1 in Hn; time_lia.
Qed.

Lemma find_earlier_returns (p : preparedPolicy) entries f lower :
  grid_wf p → returns (find_earlier p entries f lower).
Proof.
  intros Hwf. unfold find_earlier. apply returns_bind; [by apply previous_grid_returns|]. intros [c|] _; [|done].
  destruct (before c _); [|done].
  apply (iterate_returns _ (λ _, True) (λ t, Z.max 0 (ns t - ns lower + 1))); [| |done|lia].
  - intros t _. by apply earlier_step_returns.
  - intros t t' _ Hs. apply earlier_step_descends in Hs as [? ?]; [|done]. split; [done|lia].
Qed.

Lemma find_later_returns (p : preparedPolicy) entries f n c :
  grid_wf p → grid_horizon p → returns (find_later n p entries f c).
Proof.
  intros Hwf Hh. revert c. induction n as [|n IH]; intros c; cbn [find_later]; [done|].
  destruct (pl_valid _); [done|]. apply returns_bind; [by apply next_grid_returns|]. intros [d|] _; [apply IH|done].
Qed.

Lemma findCandidate_returns (p : preparedPolicy) entries f :
  grid_wf p → grid_horizon p → returns (findCandidate p entries f).
Proof.
  intros Hwf Hh. unfold findCandidate. apply returns_bind; [by apply find_earlier_returns|].
  intros [c|] _; [done|]. apply returns_bind; [by apply next_grid_returns|]. intros [c|] _; [|done].
  apply returns_bind; [by apply find_later_returns|]. by intros [?|] _.
Qed.
