(* ===== verification/SequenceAllocation.v ===== *)
(** * The invariant of the entry list

    A list of entries is [separated] when it is in slot order, the rate grid
    has started at every entry, and every pair of neighbours of which at least
    one was placed by the allocator keeps the required spacing. Allocation
    establishes it whatever the protected reservations are. *)

From S2P Require Import Prelude GoTime SequenceData SequenceGrid SequenceSpacing SequenceOrder.
From S2P Require Import SequencePlacement.

Local Open Scope Z_scope.

Definition movable_entry (e : allocatedEntry) : bool := reason_is e ReasonRateWTC.

Definition spaced (p : preparedPolicy) (a b : allocatedEntry) : Prop :=
  movable_entry a = true ∨ movable_entry b = true → adjacentValid p a b = true.

Definition entry_started (p : preparedPolicy) (e : allocatedEntry) : Prop := started p (ae_time e).

Record separated (p : preparedPolicy) (l : list allocatedEntry) : Prop := {
  sep_settled : settled l;
  sep_started : Forall (entry_started p) l;
  sep_spaced : chain (spaced p) l
}.

(** Every entry the allocator placed sits on a usable slot of its flight. *)
Definition placed_ok (p : preparedPolicy) (e : allocatedEntry) : Prop :=
  movable_entry e = true → good_slot p (ae_flight e) (ae_time e) ∧
    ∀ t, fl_SlotNotBefore (ae_flight e) = Some t → ns t ≤ ns (ae_time e).

Lemma requiredGap_started p a b t : started p t → 0 < requiredGap p a b t.
Proof. unfold started. pose proof (requiredGap_base p a b t). lia. Qed.

(** Protected entries only: nothing to check between them here. *)
Lemma separated_protected p l :
  settled l → Forall (entry_started p) l → Forall (λ e, movable_entry e = false) l → separated p l.
Proof.
  intros Hs Hst Hm. split; [done|done|]. apply chain_lookup. intros i a b Ha Hb [H|H].
  - rewrite Forall_lookup in Hm. rewrite (Hm i a Ha) in H. done.
  - rewrite Forall_lookup in Hm. rewrite (Hm (S i) b Hb) in H. done.
Qed.

(** The placement test leaves strict room on both sides. *)
Lemma fits_leading p entries f c e r :
  fits p entries f c → started p c → last (take (position entries c) entries) = Some e →
  adjacentValid p e (mk_alloc f c r) = true.
Proof.
  intros Hf Hst He. apply adjacentValid_intro; simpl; [by apply requiredGap_started|].
  by apply (fit_leading _ _ _ _ Hf).
Qed.

Lemma fits_trailing p entries f c e r :
  fits p entries f c → entry_started p e → entries !! position entries c = Some e →
  adjacentValid p (mk_alloc f c r) e = true.
Proof.
  intros Hf Hst He. apply adjacentValid_intro; simpl; [by apply requiredGap_started|].
  by apply (fit_trailing _ _ _ _ Hf).
Qed.

Lemma adjacentValid_lt p a b : adjacentValid p a b = true → entry_ns a < entry_ns b.
Proof. unfold adjacentValid, entry_ns. destruct (after _ _) eqn:E; [|done]. intros _. time_lia. Qed.

Lemma ordered_head_least x l y : time_ordered (x :: l) → y ∈ x :: l → entry_ns x ≤ entry_ns y.
Proof.
  intros Ho Hy. apply list_elem_of_lookup in Hy as [[|i] Hi]; [by simplify_eq/=; lia|].
  eapply (chain_trans_lookup (λ a b, entry_ns a ≤ entry_ns b) (x :: l) 0 (S i)); eauto; intros; lia.
Qed.

(** Inserting a fitting entry keeps the list separated. *)
Lemma insert_separated p entries f c :
  separated p entries → fits p entries f c → started p c →
  separated p (sortEntries (entries ++ [mk_alloc f c ReasonRateWTC])).
Proof.
  intros Hsep Hf Hc. pose proof (sep_settled _ _ Hsep) as Hset. pose proof (settled_ordered _ Hset) as Hord.
  destruct (position_split entries c Hord) as (Hsplit & Hlo & Hhi).
  set (k := position entries c) in *. set (x := mk_alloc f c ReasonRateWTC).
  assert (Hlead : ∀ y, last (take k entries) = Some y → adjacentValid p y x = true)
    by (intros; by eapply fits_leading).
  assert (Htrail : ∀ y, head (drop k entries) = Some y → adjacentValid p x y = true).
  { intros y Hy. rewrite head_lookup, lookup_drop, Nat.add_0_r in Hy. eapply fits_trailing; [done| |done].
    pose proof (sep_started _ _ Hsep) as Hst. rewrite Forall_lookup in Hst. by eapply Hst. }
  assert (Hhi' : ∀ y, y ∈ drop k entries → entry_ns x < entry_ns y).
  { intros y Hy. destruct (drop k entries) as [|z l] eqn:Ed; [by apply elem_of_nil in Hy|].
    specialize (Htrail z eq_refl). apply adjacentValid_lt in Htrail.
    assert (Ho : time_ordered (z :: l)).
    { rewrite Hsplit in Hord. apply chain_app_inv in Hord as [_ Hord]. exact Hord. }
    pose proof (ordered_head_least z l y Ho Hy). lia. }
  assert (Hins : sortEntries (entries ++ [x]) = take k entries ++ x :: drop k entries).
  { rewrite Hsplit at 1. apply sortEntries_insert; [by rewrite <-Hsplit| |done]. intros y Hy. by apply Hlo. }
  split.
  - apply sortEntries_settled.
  - apply (Forall_perm _ _ _ (sortEntries_perm _)), Forall_app.
    split; [apply Hsep|by constructor].
  - rewrite Hins. pose proof (sep_spaced _ _ Hsep) as Hch. rewrite Hsplit in Hch. apply chain_app_inv in Hch as [? ?].
    apply chain_insert; [done|done| |]; intros y Hy _; auto.
Qed.

(** ** The allocation loop *)

(** What allocation does to the entries, whatever the outcome of a single search. *)
Record allocation (p : preparedPolicy) (protected : list allocatedEntry) (ordered : list preparedFlight)
    (l : list allocatedEntry) : Prop := {
  al_separated : separated p l;
  al_content : ∃ times, length times = length ordered ∧
    l ≡ₚ protected ++ zip_with (λ f t, mk_alloc f t ReasonRateWTC) ordered times;
  al_placed : Forall (placed_ok p) l
}.

Lemma allocate_one_facts p entries f l :
  grid_wf p → po_ContinuousSpacing p = true → separated p entries → Forall (placed_ok p) entries →
  allocate_one p entries f = Ok l →
  separated p l ∧ Forall (placed_ok p) l ∧ ∃ t, l ≡ₚ entries ++ [mk_alloc f t ReasonRateWTC].
Proof.
  intros Hwf Hcont Hsep Hpl E. unfold allocate_one in E. bind_inv E. injection E as <-.
  apply findCandidate_facts in E0 as [Hf Hg]; [|done|done]. split_and!.
  - apply insert_separated; [done|done|apply Hg].
  - apply (Forall_perm _ _ _ (sortEntries_perm _)), Forall_app.
    split; [done|]. constructor; [|done]. intros _. split; [done|]. apply Hf.
  - exists r. apply sortEntries_perm.
Qed.

Lemma allocate_facts p protected ordered l :
  grid_wf p → po_ContinuousSpacing p = true → separated p protected → Forall (placed_ok p) protected →
  allocateMovableFlights p protected ordered = Ok l → allocation p protected ordered l.
Proof.
  intros Hwf Hcont. unfold allocateMovableFlights. revert protected.
  induction ordered as [|f ordered IH]; intros protected Hsep Hpl E; simpl in E.
  - injection E as <-. split; [done| |done]. exists []. split; [done|]. simpl. by rewrite app_nil_r.
  - bind_inv E. destruct (allocate_one_facts p protected f r) as (Hs & Hp & t & Ht); [done..|].
    destruct (IH r Hs Hp E) as [H1 (times & Hlen & Hperm) H3]. split; [done| |done].
    exists (t :: times). split; [simpl; lia|]. simpl. rewrite Hperm, Ht.
    rewrite <-app_assoc. done.
Qed.

Lemma allocate_returns p protected ordered :
  grid_wf p → grid_horizon p → returns (allocateMovableFlights p protected ordered).
Proof.
  intros Hwf Hh. unfold allocateMovableFlights. revert protected.
  induction ordered as [|f ordered IH]; intros protected; simpl; [done|].
  apply returns_bind; [|auto]. unfold allocate_one. apply returns_bind; [by apply findCandidate_returns|done].
Qed.

(** The flights of an allocation are those of the protected entries and the ordered flights. *)
Lemma zip_alloc_flights ordered times :
  length times = length ordered →
  ae_flight <$> zip_with (λ f t, mk_alloc f t ReasonRateWTC) ordered times = ordered.
Proof.
  revert times. induction ordered as [|f l IH]; intros [|t times]; simpl; try done.
  intros [= ?]. by rewrite IH.
Qed.

Lemma allocation_flights p protected ordered l :
  allocation p protected ordered l → ae_flight <$> l ≡ₚ (ae_flight <$> protected) ++ ordered.
Proof.
  intros [_ (times & Hlen & ->) _]. by rewrite fmap_app, zip_alloc_flights.
Qed.

(** Allocation leaves the protected entries in place. *)
Lemma allocation_protected p protected ordered l :
  allocation p protected ordered l → ∀ e, e ∈ protected → e ∈ l.
Proof. intros [_ (times & _ & Hl) _] e He. rewrite Hl. apply elem_of_app. by left. Qed.
