(* ===== verification/SequenceOptimize.v ===== *)
(** * Local optimisation of an allocated sequence

    The bounded trials that follow allocation ([optimization.go]): exchanging
    neighbouring automatic flights and allocating again, and exchanging the
    slots of neighbouring stable flights of one STAR family. Both keep the
    list separated, both keep every flight, and both loops end. *)

From S2P Require Import Prelude GoTime SequenceData SequenceGrid SequenceSpacing SequenceOrder.
From S2P Require Import SequencePlacement SequenceAllocation.
From Stdlib Require Import Floats.SpecFloat.

Local Open Scope Z_scope.

(** ** Diagnostic provenance ([diagnostics.go]) *)

Definition noteOperation (kind : string) (flight : preparedFlight) : preparedFlight :=
  if existsb (str_eqb kind) (fl_Operations flight) then flight
  else map_Flight (set_Operations (fl_Operations flight ++ [kind])) flight.

Definition note_entry (kind : string) (e : allocatedEntry) : allocatedEntry :=
  mk_alloc (noteOperation kind (ae_flight e)) (ae_time e) (ae_reason e).

(** ** Physical STAR order *)

Definition matchingRouteSuffix (a b : list string) : bool :=
  match a, b with
  | [], _ | _, [] => false
  | _, _ =>
      let '(a, b) := if (length b <? length a)%nat then (b, a) else (a, b) in
      bool_decide (a = drop (length b - length a) b)
  end.

(** IEEE binary64: [NaN], infinities, negative numbers, and the comparison with one half. *)
Definition f64_usable (x : spec_float) : bool :=
  match x with
  | S754_zero _ => true
  | S754_finite s _ _ => negb s
  | S754_infinity _ | S754_nan => false
  end.
Definition f64_half : spec_float := S754_finite false 4503599627370496 (-53).
Definition f64_gt_half (x : spec_float) : bool := SFltb f64_half x.
Definition f64_sub (x y : spec_float) : spec_float := SFsub 53 1024 x y.

(** The two results of Go's [starPrecedes]: whether [a] precedes [b], and whether they compare. *)
Definition starPrecedes (a b : preparedFlight) : bool * bool :=
  match fl_STARProgress a, fl_STARProgress b with
  | Some left_, Some right_ =>
      if str_empty (fl_SelectedSTARFamily a)
         || negb (str_eqb (fl_SelectedSTARFamily a) (fl_SelectedSTARFamily b))
         || str_empty (sp_Fix left_) || negb (str_eqb (sp_Fix left_) (sp_Fix right_))
         || str_empty (sp_TerminalDigest left_)
         || negb (str_eqb (sp_TerminalDigest left_) (sp_TerminalDigest right_)) then (false, false)
      else if negb (Bool.eqb (sp_Passed left_) (sp_Passed right_)) then (sp_Passed left_, true)
      else if negb (sp_Passed left_) then
        match sp_ETA left_, sp_ETA right_ with
        | Some l, Some r =>
            if negb (validUTC l) || negb (validUTC r) then (false, false)
            else let difference := time_sub r l in
                 (15 * Second <? difference, (15 * Second <? difference) || (difference <? -15 * Second))
        | _, _ => (false, false)
        end
      else if negb (matchingRouteSuffix (sp_RemainingFixes left_) (sp_RemainingFixes right_))
              || negb (f64_usable (sp_DistanceToGoNM left_)) || negb (f64_usable (sp_DistanceToGoNM right_))
      then (false, false)
      else let difference := f64_sub (sp_DistanceToGoNM right_) (sp_DistanceToGoNM left_) in
           (f64_gt_half difference, f64_gt_half (SFabs difference))
  | _, _ => (false, false)
  end.

Fixpoint starInversions (entries : list allocatedEntry) : Z :=
  match entries with
  | [] => 0
  | entry :: rest =>
      Z.of_nat (length (filter (λ later, fst (starPrecedes (ae_flight later) (ae_flight entry)) = true) rest))
      + starInversions rest
  end.

Definition reducesSTARInversions (before after : list allocatedEntry) : bool :=
  starInversions after <? starInversions before.

(** ** Eligibility *)

Definition hasHoldingPriority (flight : preparedFlight) : bool :=
  fl_HoldingSlotProtected flight || negb (str_empty (fl_HoldingStackID flight))
  || not_nil (fl_HoldingQueueTime flight) || not_nil (fl_ActiveHoldingSince flight).

Definition automaticOrderEligible (flight : preparedFlight) : bool :=
  freeze_is (fl_FreezeReason flight) FreezeNone && negb (fl_ProtectCurrentSlot flight)
  && is_nil (fl_ManualOrder flight) && negb (state_is (fl_State flight) StateStable)
  && negb (state_is (fl_State flight) StateGoAround) && negb (hasHoldingPriority flight).

Definition stableSwapEligible (flight : preparedFlight) : bool :=
  state_is (fl_State flight) StateStable && fl_ProtectCurrentSlot flight
  && freeze_is (fl_FreezeReason flight) FreezeNone && is_nil (fl_ManualOrder flight)
  && negb (hasHoldingPriority flight).

Definition automaticTargetReachable (p : preparedPolicy) (entry : allocatedEntry) : bool :=
  let flight := ae_flight entry in
  negb (before (ae_time entry) (time_add (fl_OperationalTETA flight) (dur_neg (po_EarlyTolerance p))))
  && negb (opt_test (before (ae_time entry)) (fl_SlotNotBefore flight))
  && negb (opt_test (before (ae_time entry)) (fl_PromotionNotBefore flight)).

Definition sequenceDelay (entries : list allocatedEntry) : Duration :=
  foldl (λ delay entry,
           dur_add delay (Z.max 0 (time_sub (ae_time entry) (fl_OperationalTETA (ae_flight entry)))))
        0 entries.

(** ** Order boundaries of a trial *)

Definition positions_of (after : list allocatedEntry) : gmap string nat :=
  foldl (λ positions '(i, entry), <[fl_Callsign (ae_flight entry) := i]> positions) ∅
        (imap (λ i entry, (i, entry)) after).

Definition position_in (positions : gmap string nat) (entry : allocatedEntry) : nat :=
  default 0%nat (positions !! fl_Callsign (ae_flight entry)).

Definition retainsOrderBoundaries (before after : list allocatedEntry) : bool :=
  let positions := positions_of after in
  let indexed := imap (λ i entry, (i, entry)) before in
  forallb (λ '(i, anchor),
    (automaticOrderEligible (ae_flight anchor) && reason_is anchor ReasonRateWTC)
    || forallb (λ '(j, entry),
         (i =? j)%nat
         || Bool.eqb (j <? i)%nat (position_in positions entry <? position_in positions anchor)%nat)
       indexed) indexed.

(** ** Exchanging neighbouring automatic flights *)

Record sweep_state := mk_sweep {
  sw_ordered : list preparedFlight;
  sw_best : list allocatedEntry;
  sw_delay : Duration;
  sw_trials : Z;
  sw_changed : bool
}.

Definition order_kind : string := "automatic_order_optimization".

Definition accepts_trial (best candidate : list allocatedEntry) (bestDelay : Duration) : bool :=
  (starInversions candidate <=? starInversions best)
  && ((sequenceDelay candidate <? bestDelay)
      || ((sequenceDelay candidate =? bestDelay) && reducesSTARInversions best candidate))
  && retainsOrderBoundaries best candidate.

Definition note_pair (left_ right_ : preparedFlight) (e : allocatedEntry) : allocatedEntry :=
  if str_eqb (fl_Callsign (ae_flight e)) (fl_Callsign left_) || str_eqb (fl_Callsign (ae_flight e)) (fl_Callsign right_)
  then note_entry order_kind e else e.

(** The trial at position [i]; [inr] is the early [return best]. *)
Definition order_trial (p : preparedPolicy) (protected : list allocatedEntry) (s : sweep_state) (i : nat)
  : outcome (sweep_state + list allocatedEntry) :=
  match sw_ordered s !! i, sw_ordered s !! S i with
  | Some left_, Some right_ =>
      if negb (automaticOrderEligible left_) || negb (automaticOrderEligible right_)
         || negb (state_is (fl_State left_) (fl_State right_)) then Ok (inl s)
      else if sw_trials s =? 32 then Ok (inr (sw_best s))
      else
        let s := mk_sweep (sw_ordered s) (sw_best s) (sw_delay s) (sw_trials s + 1) (sw_changed s) in
        let swapped := <[S i := left_]> (<[i := right_]> (sw_ordered s)) in
        match allocateMovableFlights p protected swapped with
        | Ok candidate =>
            if accepts_trial (sw_best s) candidate (sw_delay s)
            then Ok (inl (mk_sweep (<[S i := noteOperation order_kind left_]> (<[i := noteOperation order_kind right_]> swapped))
                                   (note_pair left_ right_ <$> candidate)
                                   (sequenceDelay candidate) (sw_trials s) true))
            else Ok (inl s)
        | Err _ => Ok (inl s)
        | Panic => Panic
        | Hang => Hang
        end
  | _, _ => Panic
  end.

Fixpoint order_sweep (p : preparedPolicy) (protected : list allocatedEntry) (indices : list nat) (s : sweep_state)
  : outcome (sweep_state + list allocatedEntry) :=
  match indices with
  | [] => Ok (inl s)
  | i :: rest =>
      r ← order_trial p protected s i;
      match r with
      | inl s => order_sweep p protected rest s
      | inr best => Ok (inr best)
      end
  end.

Fixpoint order_passes (passes : nat) (p : preparedPolicy) (protected : list allocatedEntry) (s : sweep_state)
  : outcome (list allocatedEntry) :=
  match passes with
  | O => Ok (sw_best s)
  | S passes =>
      let s := mk_sweep (sw_ordered s) (sw_best s) (sw_delay s) (sw_trials s) false in
      r ← order_sweep p protected (seq 0 (length (sw_ordered s) - 1)) s;
      match r with
      | inr best => Ok best
      | inl s => if sw_changed s then order_passes passes p protected s else Ok (sw_best s)
      end
  end.

Definition optimizeMovableOrder (p : preparedPolicy) (protected : list allocatedEntry)
    (ordered : list preparedFlight) (best : list allocatedEntry) : outcome (list allocatedEntry) :=
  order_passes 2 p protected (mk_sweep ordered best (sequenceDelay best) 0 false).

(** ** Exchanging the slots of neighbouring stable flights *)

Definition star_kind : string := "star_exchange".

Definition exchange_candidates (left_ right_ : allocatedEntry) : bool :=
  stableSwapEligible (ae_flight left_) && stableSwapEligible (ae_flight right_)
  && reason_is left_ ReasonStable && reason_is right_ ReasonStable
  && negb (str_empty (fl_SelectedSTARFamily (ae_flight left_)))
  && str_eqb (fl_SelectedSTARFamily (ae_flight left_)) (fl_SelectedSTARFamily (ae_flight right_)).

(** [entry] moved to another slot time. *)
Definition at_time (entry : allocatedEntry) (t : Time) : allocatedEntry :=
  mk_alloc (ae_flight entry) t (ae_reason entry).

Definition accepts_exchange (p : preparedPolicy) (entries : list allocatedEntry) (i : nat)
    (left_ right_ : allocatedEntry) : bool :=
  let trialLeft := at_time right_ (ae_time left_) in
  let trialRight := at_time left_ (ae_time right_) in
  let beforeDelay := sequenceDelay [left_; right_] in
  let afterDelay := sequenceDelay [trialLeft; trialRight] in
  let '(precedes, comparable) := starPrecedes (ae_flight right_) (ae_flight left_) in
  negb (negb (automaticTargetReachable p trialLeft) || negb (automaticTargetReachable p trialRight)
        || (comparable && negb precedes) || (beforeDelay <? afterDelay)
        || ((afterDelay =? beforeDelay) && negb precedes)
        || negb (adjacentValid p trialLeft trialRight)
        || match last (take i entries) with Some e => negb (adjacentValid p e trialLeft) | None => false end
        || match entries !! S (S i) with Some e => negb (adjacentValid p trialRight e) | None => false end).

Definition exchange_at (i : nat) (left_ right_ : allocatedEntry) (entries : list allocatedEntry) : list allocatedEntry :=
  <[S i := note_entry star_kind (at_time left_ (ae_time right_))]>
    (<[i := note_entry star_kind (at_time right_ (ae_time left_))]> entries).

Record exchange_state := mk_exchange { ex_entries : list allocatedEntry; ex_i : nat; ex_trials : Z }.

Definition exchange_step (p : preparedPolicy) (s : exchange_state)
  : outcome (exchange_state + list allocatedEntry) :=
  match ex_entries s !! ex_i s, ex_entries s !! S (ex_i s) with
  | Some left_, Some right_ =>
      if negb (exchange_candidates left_ right_) then Ok (inl (mk_exchange (ex_entries s) (S (ex_i s)) (ex_trials s)))
      else if ex_trials s =? 128 then Ok (inr (ex_entries s))
      else if accepts_exchange p (ex_entries s) (ex_i s) left_ right_
      then (* [i = max(-1, i-2)], then the loop's [i++] *)
           Ok (inl (mk_exchange (exchange_at (ex_i s) left_ right_ (ex_entries s)) (pred (ex_i s)) (ex_trials s + 1)))
      else Ok (inl (mk_exchange (ex_entries s) (S (ex_i s)) (ex_trials s + 1)))
  | _, _ => Ok (inr (ex_entries s))
  end.

Definition optimizeStableSameSTAR (p : preparedPolicy) (entries : list allocatedEntry)
  : outcome (list allocatedEntry) :=
  iterate (Pos.of_succ_nat (256 + length entries)) (exchange_step p) (mk_exchange entries 0 0).

(** ** Everything but the provenance

    Sequencing never reads a flight's diagnostic operations. *)

Definition erase (f : preparedFlight) : preparedFlight := map_Flight (set_Operations []) f.
Definition erase_entry (e : allocatedEntry) : allocatedEntry := mk_alloc (erase (ae_flight e)) (ae_time e) (ae_reason e).

Lemma erase_note k f : erase (noteOperation k f) = erase f.
Proof. unfold noteOperation. by destruct (existsb _ _). Qed.

Lemma erase_note_entry k e : erase_entry (note_entry k e) = erase_entry e.
Proof. unfold erase_entry, note_entry. simpl. by rewrite erase_note. Qed.

Lemma erase_note_pair l r e : erase_entry (note_pair l r e) = erase_entry e.
Proof. unfold note_pair. destruct (_ || _); [apply erase_note_entry|done]. Qed.

Lemma erase_entry_note_pairs l r (es : list allocatedEntry) : erase_entry <$> (note_pair l r <$> es) = erase_entry <$> es.
Proof. rewrite <-list_fmap_compose. apply list_fmap_ext. intros ? ? _. apply erase_note_pair. Qed.


Lemma separated_erase p (l : list allocatedEntry) : separated p (erase_entry <$> l) ↔ separated p l.
Proof.
  split; intros [H1 H2 H3]; unfold settled in *.
  - split; [exact (proj1 (chain_fmap _ _ _) H1)|exact (proj1 (Forall_fmap erase_entry (entry_started p) l) H2)|exact (proj1 (chain_fmap _ _ _) H3)].
  - split; [exact (proj2 (chain_fmap _ _ _) H1)|exact (proj2 (Forall_fmap erase_entry (entry_started p) l) H2)|exact (proj2 (chain_fmap _ _ _) H3)].
Qed.

Lemma placed_erase p (l : list allocatedEntry) : Forall (placed_ok p) (erase_entry <$> l) ↔ Forall (placed_ok p) l.
Proof.
  rewrite Forall_fmap. apply Forall_proper; [|done]. intros e. unfold compose, placed_ok. simpl.
  assert (Hg : good_slot p (erase (ae_flight e)) (ae_time e) ↔ good_slot p (ae_flight e) (ae_time e))
    by (split; intros [? ? ?]; by split).
  by rewrite Hg.
Qed.

Lemma starPrecedes_erase a b : starPrecedes (erase a) (erase b) = starPrecedes a b.
Proof. done. Qed.

Lemma starInversions_erase l : starInversions (erase_entry <$> l) = starInversions l.
Proof.
  induction l as [|e l IH]; [done|]. cbn [fmap list_fmap starInversions]. fold (erase_entry <$> l).
  by rewrite IH, filter_fmap, length_fmap.
Qed.

Lemma sequenceDelay_erase l : sequenceDelay (erase_entry <$> l) = sequenceDelay l.
Proof. unfold sequenceDelay. by apply foldl_fmap_ext. Qed.

(** Any reading of the entries that ignores provenance is the same for lists
    that erase to the same list. *)
Lemma erase_transfer {A} (F : list allocatedEntry → A) l l' :
  (∀ l, F (erase_entry <$> l) = F l) → erase_entry <$> l = erase_entry <$> l' → F l = F l'.
Proof. intros H E. by rewrite <-(H l), <-(H l'), E. Qed.

(** ** What every intermediate sequence satisfies *)

Lemma erased_flights (l : list allocatedEntry) : erase <$> (ae_flight <$> l) = ae_flight <$> (erase_entry <$> l).
Proof. by rewrite <-!list_fmap_compose. Qed.



Definition protected_entries (l : list allocatedEntry) : list allocatedEntry :=
  filter (λ e, movable_entry e = false) l.

Definition movable_entries (l : list allocatedEntry) : list allocatedEntry :=
  filter (λ e, movable_entry e = true) l.

Lemma entries_split l : l ≡ₚ protected_entries l ++ movable_entries l.
Proof.
  unfold protected_entries, movable_entries. induction l as [|e l IH]; [done|]. rewrite !filter_cons.
  destruct (movable_entry e); simpl; [rewrite <-Permutation_middle|]; by rewrite <-IH.
Qed.

Record sequenced (p : preparedPolicy) (protected : list allocatedEntry) (flights : list preparedFlight)
    (l : list allocatedEntry) : Prop := {
  sq_separated : separated p l;
  sq_placed : Forall (placed_ok p) l;
  sq_protected : erase_entry <$> protected_entries l ≡ₚ erase_entry <$> protected;
  sq_movable : erase <$> (ae_flight <$> movable_entries l) ≡ₚ erase <$> flights
}.

Lemma protected_entries_movable ordered times :
  protected_entries (zip_with (λ f t, mk_alloc f t ReasonRateWTC) ordered times) = [].
Proof.
  revert times. induction ordered as [|f l IH]; intros [|t times]; simpl; try done.
  unfold protected_entries. rewrite filter_cons. apply IH.
Qed.

Lemma movable_entries_movable ordered times :
  movable_entries (zip_with (λ f t, mk_alloc f t ReasonRateWTC) ordered times) =
  zip_with (λ f t, mk_alloc f t ReasonRateWTC) ordered times.
Proof.
  revert times. induction ordered as [|f l IH]; intros [|t times]; simpl; try done.
  unfold movable_entries. rewrite filter_cons. simpl. f_equal. apply IH.
Qed.

Lemma allocation_sequenced p protected ordered l :
  Forall (λ e, movable_entry e = false) protected →
  allocation p protected ordered l → sequenced p protected ordered l.
Proof.
  intros Hm Ha. split; [apply Ha|apply Ha| |].
  - destruct Ha as [_ (times & _ & Hl) _]. apply fmap_Permutation. unfold protected_entries.
    rewrite Hl, filter_app. fold (protected_entries (zip_with (λ f t, mk_alloc f t ReasonRateWTC) ordered times)).
    rewrite protected_entries_movable, app_nil_r, filter_all; [done|]. done.
  - destruct Ha as [_ (times & Hlen & Hl) _]. apply fmap_Permutation. unfold movable_entries. rewrite Hl, filter_app.
    fold (movable_entries (zip_with (λ f t, mk_alloc f t ReasonRateWTC) ordered times)).
    rewrite movable_entries_movable, filter_none; [by rewrite app_nil_l, zip_alloc_flights|].
    eapply Forall_impl; [exact Hm|]. simpl. congruence.
Qed.

Lemma sequenced_flights p protected flights l :
  sequenced p protected flights l → erase <$> (ae_flight <$> l) ≡ₚ erase <$> ((ae_flight <$> protected) ++ flights).
Proof.
  intros [_ _ H1 H2]. rewrite (entries_split l) at 1. rewrite !fmap_app. apply Permutation_app; [|done].
  rewrite !erased_flights. by apply fmap_Permutation.
Qed.

Lemma protected_entries_erase l l' :
  erase_entry <$> l = erase_entry <$> l' →
  erase_entry <$> protected_entries l = erase_entry <$> protected_entries l'.
Proof.
  assert (H : ∀ l, protected_entries (erase_entry <$> l) = erase_entry <$> protected_entries l)
    by (intros; apply filter_fmap).
  intros E. by rewrite <-(H l), E, H.
Qed.

Lemma movable_entries_erase l l' :
  erase_entry <$> l = erase_entry <$> l' →
  erase_entry <$> movable_entries l = erase_entry <$> movable_entries l'.
Proof.
  assert (H : ∀ l, movable_entries (erase_entry <$> l) = erase_entry <$> movable_entries l)
    by (intros; apply filter_fmap).
  intros E. by rewrite <-(H l), E, H.
Qed.

Lemma sequenced_erase p protected flights l l' :
  erase_entry <$> l = erase_entry <$> l' → sequenced p protected flights l → sequenced p protected flights l'.
Proof.
  intros E [H1 H2 H3 H4]. split.
  - apply separated_erase. rewrite <-E. by apply separated_erase.
  - apply placed_erase. rewrite <-E. by apply placed_erase.
  - by rewrite <-(protected_entries_erase _ _ E).
  - by rewrite erased_flights, <-(movable_entries_erase _ _ E), <-erased_flights.
Qed.

Lemma sequenced_perm p protected flights flights' l :
  erase <$> flights ≡ₚ erase <$> flights' → sequenced p protected flights l → sequenced p protected flights' l.
Proof. intros E [H1 H2 H3 H4]. split; [done..|]. by rewrite H4. Qed.

(** ** Exchanging neighbouring automatic flights *)

Section movable_order.
Context (p : preparedPolicy) (protected : list allocatedEntry).
Hypothesis Hwf : grid_wf p.
Hypothesis Hcont : po_ContinuousSpacing p = true.
Hypothesis Hsep : separated p protected.
Hypothesis Hprot : Forall (λ e, movable_entry e = false) protected.

Lemma protected_placed : Forall (placed_ok p) protected.
Proof using Hprot.
  rewrite Forall_forall in Hprot |- *. intros e He Hm. by rewrite (Hprot e He) in Hm.
Qed.

(** No worse than the sequence the optimisation starts from. *)
Definition no_worse (best0 best : list allocatedEntry) : Prop :=
  sequenceDelay best ≤ sequenceDelay best0 ∧ starInversions best ≤ starInversions best0.

Record sweep_ok (ordered0 : list preparedFlight) (best0 : list allocatedEntry) (s : sweep_state) : Prop := {
  so_best : sequenced p protected ordered0 (sw_best s);
  so_ordered : erase <$> sw_ordered s ≡ₚ erase <$> ordered0;
  so_delay : sw_delay s = sequenceDelay (sw_best s);
  so_no_worse : no_worse best0 (sw_best s)
}.


Lemma trial_sequenced ordered0 swapped candidate :
  erase <$> swapped ≡ₚ erase <$> ordered0 → allocateMovableFlights p protected swapped = Ok candidate →
  sequenced p protected ordered0 candidate.
Proof using All.
  intros Hperm E. apply (sequenced_perm p protected swapped); [done|].
  apply allocation_sequenced; [done|]. by apply allocate_facts; [..|apply protected_placed|].
Qed.

Lemma note_pair_insert ordered i left_ right_ :
  ordered !! i = Some left_ → ordered !! S i = Some right_ →
  erase <$> <[S i := noteOperation order_kind left_]> (<[i := noteOperation order_kind right_]>
    (<[S i := left_]> (<[i := right_]> ordered))) ≡ₚ erase <$> ordered.
Proof using Type.
  intros Hl Hr. rewrite !list_fmap_insert, !erase_note, <-!list_fmap_insert.
  apply fmap_Permutation. rewrite (list_insert_insert_ne _ i (S i)), list_insert_insert_eq by lia.
  rewrite list_insert_insert_eq. by apply swap_perm.
Qed.

Lemma order_trial_ok ordered0 best0 s i r :
  sweep_ok ordered0 best0 s → order_trial p protected s i = Ok r →
  match r with
  | inl s' => sweep_ok ordered0 best0 s' ∧ length (sw_ordered s') = length (sw_ordered s)
  | inr best => best = sw_best s
  end.
Proof using All.
  intros Hs E. unfold order_trial in E.
  destruct (sw_ordered s !! i) as [left_|] eqn:Hl; [|done].
  destruct (sw_ordered s !! S i) as [right_|] eqn:Hr; [|done].
  destruct (_ || _ || _); [by injection E as <-|]. destruct (_ =? 32); [by injection E as <-|]. cbn [sw_ordered sw_best sw_delay sw_trials sw_changed] in E.
  pose proof (so_ordered _ _ _ Hs) as Hord. set (swapped := <[S i := left_]> (<[i := right_]> (sw_ordered s))) in *.
  assert (Hsw : erase <$> swapped ≡ₚ erase <$> ordered0)
    by (rewrite <-Hord; by apply fmap_Permutation, swap_perm).
  assert (Hkeep : sweep_ok ordered0 best0 (mk_sweep (sw_ordered s) (sw_best s) (sw_delay s) (sw_trials s + 1) (sw_changed s)))
    by (destruct Hs; by split).
  destruct (allocateMovableFlights p protected swapped) as [candidate| | |] eqn:Ea; try done.
  2: { by injection E as <-. }
  destruct (accepts_trial _ _ _) eqn:Eacc; injection E as <-; [|done].
  pose proof (erase_entry_note_pairs left_ right_ candidate) as Hnote.
  unfold accepts_trial, reducesSTARInversions in Eacc. rewrite (so_delay _ _ _ Hs) in Eacc. destruct (so_no_worse _ _ _ Hs).
  split; [split; cbn [sw_ordered sw_best sw_delay]|].
  - eapply sequenced_erase; [symmetry; exact Hnote|]. by eapply trial_sequenced.
  - rewrite <-Hord. by apply note_pair_insert.
  - apply erase_transfer; [apply sequenceDelay_erase|done].
  - unfold no_worse. rewrite (erase_transfer sequenceDelay _ _ sequenceDelay_erase Hnote),
      (erase_transfer starInversions _ _ starInversions_erase Hnote).
    apply andb_true_iff in Eacc as [[H1 H2]%andb_true_iff _]. apply orb_true_iff in H2 as [H2|[H2 _]%andb_true_iff]; zbool; lia.
  - cbn [sw_ordered]. unfold swapped. by rewrite !length_insert.
Qed.

Lemma order_sweep_ok ordered0 best0 indices s r :
  sweep_ok ordered0 best0 s → order_sweep p protected indices s = Ok r →
  match r with
  | inl s' => sweep_ok ordered0 best0 s' ∧ length (sw_ordered s') = length (sw_ordered s)
  | inr best => sequenced p protected ordered0 best ∧ no_worse best0 best
  end.
Proof using All.
  revert s. induction indices as [|i l IH]; intros s Hs E; simpl in E; [by injection E as <-|].
  bind_inv E. pose proof (order_trial_ok _ _ _ _ _ Hs E0) as Ht. destruct r0 as [s'|best].
  - destruct Ht as [Hs' Hlen]. specialize (IH s' Hs' E). destruct r; [by rewrite <-Hlen|done].
  - injection E as <-. subst best. destruct Hs; done.
Qed.

Lemma order_passes_ok ordered0 best0 n s r :
  sweep_ok ordered0 best0 s → order_passes n p protected s = Ok r →
  sequenced p protected ordered0 r ∧ no_worse best0 r.
Proof using All.
  revert s. induction n as [|n IH]; intros s Hs E; simpl in E; [injection E as <-; by destruct Hs|].
  bind_inv E. eapply (order_sweep_ok ordered0 best0) in E0; [|destruct Hs; by split].
  destruct r0 as [s'|best]; [|by injection E as <-]. destruct E0 as [Hs' _].
  destruct (sw_changed s'); [by eapply IH|]. injection E as <-. by destruct Hs'.
Qed.

(** The result has the same flights, keeps the protected entries, is
    separated, and neither its delay nor its inversions grew. *)
Lemma optimizeMovableOrder_facts ordered best r :
  sequenced p protected ordered best → optimizeMovableOrder p protected ordered best = Ok r →
  sequenced p protected ordered r ∧ no_worse best r.
Proof using All. intros Hb. apply order_passes_ok. by split. Qed.

Hypothesis Hhorizon : grid_horizon p.

Lemma order_sweep_returns indices s :
  (∀ i, i ∈ indices → S i < length (sw_ordered s))%nat → returns (order_sweep p protected indices s).
Proof using Hwf Hhorizon.
  revert s. induction indices as [|i l IH]; intros s Hi; simpl; [done|].
  pose proof (Hi i ltac:(left)) as Hlen.
  destruct (lookup_lt_is_Some_2 (sw_ordered s) i) as [x Hx]; [lia|].
  destruct (lookup_lt_is_Some_2 (sw_ordered s) (S i)) as [y Hy]; [lia|].
  assert (Hsame : ∀ s', order_trial p protected s i = Ok (inl s') → length (sw_ordered s') = length (sw_ordered s)).
  { intros s'. unfold order_trial. rewrite Hx, Hy. repeat case_match; intros; simplify_eq/=; rewrite ?length_insert; done. }
  apply returns_bind.
  - unfold order_trial. rewrite Hx, Hy. destruct (_ || _ || _); [done|]. destruct (_ =? 32); [done|].
    cbn [sw_ordered]. pose proof (allocate_returns p protected (<[S i:=x]> (<[i:=y]> (sw_ordered s))) Hwf Hhorizon) as Hr.
    destruct (allocateMovableFlights _ _ _); try done. by destruct (accepts_trial _ _ _).
  - intros [s'|best] E; [|done]. apply IH. intros j Hj. rewrite (Hsame _ E). apply Hi. by right.
Qed.

Lemma order_passes_returns n s : returns (order_passes n p protected s).
Proof using Hwf Hhorizon.
  revert s. induction n as [|n IH]; intros s; simpl; [done|]. apply returns_bind.
  - apply order_sweep_returns. intros i Hi. apply elem_of_seq in Hi. simpl. lia.
  - intros [s'|b] _; [|done]. by destruct (sw_changed s').
Qed.

Lemma optimizeMovableOrder_returns ordered best : returns (optimizeMovableOrder p protected ordered best).
Proof using Hwf Hhorizon. apply order_passes_returns. Qed.
End movable_order.

(** ** Exchanging the slots of stable neighbours *)

Lemma exchange_at_split i left_ right_ entries :
  entries !! i = Some left_ → entries !! S i = Some right_ →
  erase_entry <$> exchange_at i left_ right_ entries =
  erase_entry <$> (take i entries ++ at_time right_ (ae_time left_) :: at_time left_ (ae_time right_) :: drop (S (S i)) entries).
Proof.
  intros Hl Hr. unfold exchange_at. rewrite (swap_insert entries i left_ right_ _ _ Hl Hr).
  by rewrite !fmap_app, !fmap_cons, !erase_note_entry.
Qed.

Lemma accepts_exchange_adjacent p entries i left_ right_ :
  accepts_exchange p entries i left_ right_ = true →
  adjacentValid p (at_time right_ (ae_time left_)) (at_time left_ (ae_time right_)) = true ∧
  (∀ e, last (take i entries) = Some e → adjacentValid p e (at_time right_ (ae_time left_)) = true) ∧
  (∀ e, entries !! S (S i) = Some e → adjacentValid p (at_time left_ (ae_time right_)) e = true).
Proof.
  unfold accepts_exchange. destruct (starPrecedes _ _) as [precedes comparable]. rewrite negb_true_iff.
  intros H. bsplit. split_and!; [done| |]; intros e He; rewrite He in *; by bsplit.
Qed.

(** A pair of relations that hold of separated neighbours survives the exchange. *)
Lemma exchange_chain p (R : allocatedEntry → allocatedEntry → Prop) entries i left_ right_ :
  (∀ a b, adjacentValid p a b = true → R a b) →
  accepts_exchange p entries i left_ right_ = true →
  entries !! i = Some left_ → entries !! S i = Some right_ → chain R entries →
  chain R (take i entries ++ at_time right_ (ae_time left_) :: at_time left_ (ae_time right_) :: drop (S (S i)) entries).
Proof.
  intros HR Hacc Hl Hr Hc. apply accepts_exchange_adjacent in Hacc as (H1 & H2 & H3).
  rewrite (swap_middle entries i left_ right_ Hl Hr) in Hc.
  eapply chain_replace_pair; [exact Hc|by apply HR|intros z Hz; by apply HR, H2|].
  intros z Hz. rewrite head_lookup, lookup_drop, Nat.add_0_r in Hz. by apply HR, H3.
Qed.

Lemma exchange_entries_perm i left_ right_ entries (P : allocatedEntry → Prop) :
  entries !! i = Some left_ → entries !! S i = Some right_ →
  P (at_time right_ (ae_time left_)) → P (at_time left_ (ae_time right_)) → Forall P entries →
  Forall P (take i entries ++ at_time right_ (ae_time left_) :: at_time left_ (ae_time right_) :: drop (S (S i)) entries).
Proof.
  intros Hl Hr H1 H2 Hall. rewrite (swap_middle entries i left_ right_ Hl Hr) in Hall.
  rewrite !Forall_app, !Forall_cons in *. tauto.
Qed.

(** Slot by slot: times and reasons stay, and only exchangeable entries change hands. *)
Definition exchangeable (e : allocatedEntry) : bool := stableSwapEligible (ae_flight e) && reason_is e ReasonStable.

Record same_slot (a b : allocatedEntry) : Prop := {
  ss_time : ae_time a = ae_time b;
  ss_reason : ae_reason a = ae_reason b;
  ss_exchangeable : exchangeable a = exchangeable b;
  ss_fixed : exchangeable a = false → erase_entry a = erase_entry b
}.

#[export] Instance same_slot_equiv : Equivalence same_slot.
Proof.
  split.
  - intros a. by split.
  - intros a b [H1 H2 H3 H4]. split; [done..|]. intros Hn. symmetry. apply H4. by rewrite H3.
  - intros a b c [H1 H2 H3 H4] [H1' H2' H3' H4']. split; [congruence..|].
    intros Hn. rewrite H4, H4'; congruence.
Qed.

Record exchanged (p : preparedPolicy) (l0 l : list allocatedEntry) : Prop := {
  xc_separated : separated p l;
  xc_placed : Forall (placed_ok p) l;
  xc_slots : Forall2 same_slot l0 l;
  xc_flights : erase <$> (ae_flight <$> l) ≡ₚ erase <$> (ae_flight <$> l0)
}.

Lemma exchanged_erase p l0 l l' :
  erase_entry <$> l = erase_entry <$> l' → exchanged p l0 l → exchanged p l0 l'.
Proof.
  intros E [H1 H2 H3 H4]. split.
  - apply separated_erase. rewrite <-E. by apply separated_erase.
  - apply placed_erase. rewrite <-E. by apply placed_erase.
  - etrans; [exact H3|]. clear -E. revert l' E. induction l as [|a l IH]; intros [|b l'] E; try done.
    rewrite !fmap_cons in E. pose proof (f_equal head E) as Ea. pose proof (f_equal tail E) as El.
    apply (inj Some) in Ea. constructor; [|by apply IH].
    split; [exact (f_equal ae_time Ea)|exact (f_equal ae_reason Ea)|exact (f_equal exchangeable Ea)|intros _; exact Ea].
  - by rewrite erased_flights, <-E, <-erased_flights.
Qed.

Lemma exchange_candidates_reasons left_ right_ :
  exchange_candidates left_ right_ = true → ae_reason left_ = ReasonStable ∧ ae_reason right_ = ReasonStable.
Proof. unfold exchange_candidates, reason_is. intros. bsplit. by rewrite <-!str_eqb_eq. Qed.

Lemma exchange_candidates_exchangeable left_ right_ :
  exchange_candidates left_ right_ = true → exchangeable left_ = true ∧ exchangeable right_ = true.
Proof. unfold exchange_candidates, exchangeable. intros. bsplit. rewrite !andb_true_iff. done. Qed.

Lemma stable_placed p e : ae_reason e = ReasonStable → placed_ok p e.
Proof. intros H Hm. unfold movable_entry, reason_is in Hm. by rewrite H in Hm. Qed.

Lemma exchange_exchanged p l0 l i left_ right_ :
  exchanged p l0 l → l !! i = Some left_ → l !! S i = Some right_ →
  exchange_candidates left_ right_ = true → accepts_exchange p l i left_ right_ = true →
  exchanged p l0 (exchange_at i left_ right_ l).
Proof.
  intros Hx Hl Hr Hcand Hacc. eapply exchanged_erase; [symmetry; by apply exchange_at_split|].
  destruct (exchange_candidates_reasons _ _ Hcand) as [Rl Rr].
  destruct Hx as [[Hs1 Hs2 Hs3] Hp Hslots Hf]. pose proof (swap_middle l i left_ right_ Hl Hr) as Hmid. split.
  - split.
    + eapply exchange_chain; [|exact Hacc|done..]. intros a b Hab%adjacentValid_lt. by apply entryLess_asym, entryLess_lt.
    + pose proof (proj1 (Forall_lookup _ _) Hs2) as Hst. apply (exchange_entries_perm i left_ right_); auto;
        [exact (Hst i left_ Hl)|exact (Hst (S i) right_ Hr)].
    + eapply exchange_chain; [|exact Hacc|done..]. by intros a b ? _.
  - apply (exchange_entries_perm i left_ right_); auto; by apply stable_placed.
  - etrans; [exact Hslots|]. rewrite Hmid at 1. apply Forall2_app; [done|].
    assert (same_slot left_ (at_time right_ (ae_time left_)) ∧ same_slot right_ (at_time left_ (ae_time right_))) as [? ?].
    { destruct (exchange_candidates_exchangeable _ _ Hcand) as [Xl Xr].
      split; split; unfold at_time; simpl; rewrite ?Rl, ?Rr, ?Xl, ?Xr; try done;
        unfold exchangeable, reason_is in *; simpl; by rewrite ?Rl, ?Rr in *. }
    constructor; [done|]. by constructor.
  - rewrite <-Hf. rewrite Hmid at 3. rewrite !fmap_app, !fmap_cons. simpl. apply Permutation_app_head, Permutation_swap.
Qed.

Lemma optimizeStable_facts p l0 l :
  separated p l0 → Forall (placed_ok p) l0 → optimizeStableSameSTAR p l0 = Ok l → exchanged p l0 l.
Proof.
  intros Hs Hp. unfold optimizeStableSameSTAR.
  apply (iterate_inv (exchange_step p) (λ s, exchanged p l0 (ex_entries s)) (exchanged p l0)).
  - intros s s' Hx E. unfold exchange_step in E.
    destruct (_ !! ex_i s) as [left_|] eqn:Hl; [|done]. destruct (_ !! S (ex_i s)) as [right_|] eqn:Hr; [|done].
    destruct (exchange_candidates _ _) eqn:Hc; simpl in E; [|by injection E as <-].
    destruct (_ =? 128); [done|]. destruct (accepts_exchange _ _ _ _ _) eqn:Ha; injection E as <-; [|done].
    by apply exchange_exchanged.
  - intros s r Hx E. unfold exchange_step in E.
    destruct (_ !! ex_i s) as [left_|]; [|by injection E as <-]. destruct (_ !! S (ex_i s)) as [right_|]; [|by injection E as <-].
    destruct (negb _); [done|]. destruct (_ =? 128); [by injection E as <-|]. by destruct (accepts_exchange _ _ _ _ _).
  - by split.
Qed.

Lemma exchange_step_ok p s : ∃ r, exchange_step p s = Ok r.
Proof. unfold exchange_step. repeat case_match; by eexists. Qed.

(** At most 128 exchanges, each going back one pair: the loop ends. *)
Lemma optimizeStable_returns p l0 : ∃ l, optimizeStableSameSTAR p l0 = Ok l.
Proof.
  assert (Hr : returns (optimizeStableSameSTAR p l0)).
  { apply (iterate_returns _ (λ s, length (ex_entries s) = length l0 ∧ 0 ≤ ex_trials s ≤ 128 ∧ (ex_i s ≤ length l0)%nat)
             (λ s, 2 * (128 - ex_trials s) + Z.of_nat (length l0 - ex_i s))); simpl; [| |split_and!; lia|lia].
    - intros s _. by destruct (exchange_step_ok p s) as [r ->].
    - intros s s' (Hlen & Ht & Hi) E. unfold exchange_step in E.
      destruct (_ !! ex_i s) as [left_|] eqn:Hl; [|done]. destruct (_ !! S (ex_i s)) as [right_|] eqn:Hr; [|done].
      apply lookup_lt_Some in Hr. destruct (exchange_candidates _ _); simpl in E; [|injection E as <-; simpl; lia].
      destruct (Z.eqb_spec (ex_trials s) 128); [done|].
      destruct (accepts_exchange _ _ _ _ _); injection E as <-; simpl; [|lia].
      unfold exchange_at. rewrite !length_insert. lia. }
  destruct (iterate_ok_or_hang (exchange_step p) (Pos.of_succ_nat (256 + length l0)) (mk_exchange l0 0 0) (exchange_step_ok p))
    as [?|E]; [done|]. unfold optimizeStableSameSTAR in Hr. by rewrite E in Hr.
Qed.
