(* ===== verification/SequencePrepare.v ===== *)
(** * Validation and preparation of a calculation input

    [engine.go]: [prepareSTARFamilyPolicies], [preparePolicies],
    [prepareFlights]; [demand.go]: [prepareInput]. Whatever these accept is
    well formed: the slot grid ([grid_wf]), the wake matrix, and the flights. *)

From S2P Require Import Prelude GoTime SequenceData SequenceGrid SequenceSpacing SequenceOrder.

Local Open Scope Z_scope.

Definition normalizeCategory (category : string) : string :=
  let normalized := ToUpper (TrimSpace category) in
  if str_empty normalized || str_eqb normalized WakeUnknown then WakeUnknown else normalized.

Definition canonicalSTARFamily (value : string) : string := ToUpper (TrimSpace value).

(** ** STAR-family policies *)

Record family_state := mk_fstate { fs_by : gmap string preparedSTARFamilyPolicy; fs_seen : gset string; fs_previous : string }.

Definition spacing_invalid (s : SameSTARSpacing) : bool :=
  ss_Enabled s && ((ss_ActivationRatePerHour s =? 0) || (ss_MinimumEmptySlots s =? 0)).

Definition prepare_family (s : family_state) (policy : STARFamilyPolicy) : outcome family_state :=
  let family := TrimSpace (sf_STARFamily policy) in
  _ ← guard_err (str_empty family) (Errorf "STAR-family policy identity is required" []);
  _ ← guard_err (negb (str_eqb family (sf_STARFamily policy)))
        (Errorf "STAR-family policy %q is not canonical" [AStr (sf_STARFamily policy)]);
  _ ← guard_err (bool_decide (family ∈ fs_seen s)) (Errorf "duplicate STAR-family policy %q" [AStr family]);
  _ ← guard_err (negb (str_empty (fs_previous s)) && str_ltb family (fs_previous s))
        (Errorf "STAR-family policies must be ordered canonically" []);
  _ ← guard_err (spacing_invalid (sf_SameSTARSpacing policy))
        (Errorf "STAR-family policy %q has invalid same-STAR spacing" [AStr family]);
  let holdingSequencePolicy := HoldingSequencePolicy_Effective (sf_HoldingSequencePolicy policy) in
  _ ← guard_err (negb (HoldingSequencePolicy_Valid holdingSequencePolicy))
        (Errorf "STAR-family policy %q has invalid holding-sequence policy" [AStr family]);
  Ok (mk_fstate (<[family := mk_pfamily (sf_SameSTARSpacing policy) holdingSequencePolicy]> (fs_by s))
                ({[family]} ∪ fs_seen s) family).

Definition prepareSTARFamilyPolicies (input : list STARFamilyPolicy) : outcome preparedSTARFamilyPolicies :=
  s ← fold_outcome prepare_family (mk_fstate ∅ ∅ "") input;
  Ok (mk_pfamilies (fs_by s) (0 <? length input)%nat).

(** ** Runway-group policies *)

Fixpoint check_rates (id : string) (previous : option RatePoint) (rates : list RatePoint) : outcome unit :=
  match rates with
  | [] => Ok tt
  | rate :: rest =>
      _ ← guard_err (negb (validUTC (rp_EffectiveAt rate)) || (rp_ArrivalsPerHour rate =? 0))
            (Errorf "runway group %q has invalid rate point" [AStr id]);
      _ ← guard_err (opt_test (λ r, time_eqb (rp_EffectiveAt rate) (rp_EffectiveAt r)) previous)
            (Errorf "runway group %q has duplicate rate effective time" [AStr id]);
      check_rates id (Some rate) rest
  end.

Fixpoint check_gaps (id : string) (previous : option Gap) (gaps : list Gap) : outcome unit :=
  match gaps with
  | [] => Ok tt
  | gap :: rest =>
      _ ← guard_err (negb (validUTC (gap_Start gap)) || negb (validUTC (gap_End gap))
                     || negb (before (gap_Start gap) (gap_End gap)))
            (Errorf "runway group %q has invalid absolute gap" [AStr id]);
      _ ← guard_err (opt_test (λ g, negb (before (gap_End g) (gap_Start gap))) previous)
            (Errorf "runway group %q has overlapping or touching gaps" [AStr id]);
      check_gaps id (Some gap) rest
  end.

Definition closure_invalid (c : RunwayClosure) : bool :=
  negb (validUTC (cl_Start c))
  || opt_test (λ e, negb (validUTC e) || negb (before (cl_Start c) e)) (cl_End c).

Fixpoint check_closures (id : string) (closures : list RunwayClosure) : outcome unit :=
  match closures with
  | [] => Ok tt
  | closure :: rest =>
      _ ← guard_err (closure_invalid closure) (Errorf "runway group %q has invalid closure" [AStr id]);
      check_closures id rest
  end.

Record wake_matrix := mk_matrix {
  wm_spacing : gmap (string * string) Duration;
  wm_categories : gset string;
  wm_fallback : Duration
}.

Definition prepare_rule (id : string) (m : wake_matrix) (rule : SeparationRule) : outcome wake_matrix :=
  let leading := normalizeCategory (sr_Leading rule) in
  let trailing := normalizeCategory (sr_Trailing rule) in
  _ ← guard_err (str_eqb leading WakeUnknown || str_eqb trailing WakeUnknown || (sr_Minimum rule <? 0))
        (Errorf "runway group %q has invalid WTC separation rule" [AStr id]);
  _ ← guard_err (not_nil (wm_spacing m !! (leading, trailing)))
        (Errorf "runway group %q has duplicate WTC separation rule" [AStr id]);
  Ok (mk_matrix (<[(leading, trailing) := sr_Minimum rule]> (wm_spacing m))
                ({[trailing]} ∪ ({[leading]} ∪ wm_categories m))
                (if wm_fallback m <? sr_Minimum rule then sr_Minimum rule else wm_fallback m)).

Definition matrix_complete (m : wake_matrix) : bool :=
  forallb (λ leading, forallb (λ trailing, not_nil (wm_spacing m !! (leading, trailing))) (elements (wm_categories m)))
          (elements (wm_categories m)).

Definition prepare_rules (id : string) (fallback : Duration) (rules : list SeparationRule) : outcome wake_matrix :=
  _ ← guard_err (length rules =? 0)%nat (Errorf "runway group %q requires WTC separation rules" [AStr id]);
  m ← fold_outcome (prepare_rule id) (mk_matrix ∅ ∅ fallback) rules;
  _ ← guard_err (negb (matrix_complete m))
        (Errorf "runway group %q has incomplete WTC separation matrix" [AStr id]);
  Ok m.

Definition rate_less (a b : RatePoint) : bool := before (rp_EffectiveAt a) (rp_EffectiveAt b).
Definition gap_less (a b : Gap) : bool :=
  if negb (time_eqb (gap_Start a) (gap_Start b)) then before (gap_Start a) (gap_Start b)
  else before (gap_End a) (gap_End b).
Definition closure_less (a b : RunwayClosure) : bool := before (cl_Start a) (cl_Start b).

Definition with_capacity (raw : Policy) (gaps : list Gap) (closures : list RunwayClosure) : Policy :=
  mk_policy (po_RunwayGroupID raw) (po_ContinuousSpacing raw) (po_AllowCrossFeederOvertake raw)
    (po_Rates raw) gaps closures (po_EarlyTolerance raw) (po_SeparationRules raw)
    (po_UnknownSeparation raw) (po_SameSTARSpacing raw).

(** The body of the loop over the policies, after the duplicate check. *)
Definition prepare_policy (starFamilies : preparedSTARFamilyPolicies) (raw : Policy) : outcome preparedPolicy :=
  let id := po_RunwayGroupID raw in
  _ ← guard_err (po_EarlyTolerance raw <? 0) (Errorf "runway group %q has negative early tolerance" [AStr id]);
  _ ← guard_err (po_UnknownSeparation raw <=? 0)
        (Errorf "runway group %q requires positive unknown-category separation" [AStr id]);
  _ ← guard_err (spacing_invalid (po_SameSTARSpacing raw))
        (Errorf "runway group %q has invalid same-STAR spacing" [AStr id]);
  _ ← guard_err (length (po_Rates raw) =? 0)%nat (Errorf "runway group %q requires at least one rate" [AStr id]);
  let rates := sort_slice rate_less (po_Rates raw) in
  _ ← check_rates id None rates;
  let gaps := sort_slice gap_less (po_Gaps raw) in
  _ ← check_gaps id None gaps;
  let closures := sort_slice closure_less (po_Closures raw) in
  _ ← check_closures id closures;
  m ← prepare_rules id (po_UnknownSeparation raw) (po_SeparationRules raw);
  Ok (mk_ppolicy (with_capacity raw gaps closures) rates (wm_spacing m) (wm_categories m) (wm_fallback m)
                 starFamilies [] ∅).

Definition add_policy (starFamilies : preparedSTARFamilyPolicies) (result : gmap string preparedPolicy)
    (raw : Policy) : outcome (gmap string preparedPolicy) :=
  _ ← guard_err (str_empty (TrimSpace (po_RunwayGroupID raw))) (Errorf "runway-group policy ID is required" []);
  _ ← guard_err (not_nil (result !! po_RunwayGroupID raw))
        (Errorf "duplicate runway-group policy %q" [AStr (po_RunwayGroupID raw)]);
  prepared ← prepare_policy starFamilies raw;
  Ok (<[po_RunwayGroupID raw := prepared]> result).

Definition preparePoliciesWithSTARFamilies (input : list Policy) (starFamilies : preparedSTARFamilyPolicies)
  : outcome (gmap string preparedPolicy) :=
  _ ← guard_err (length input =? 0)%nat (Errorf "sequence requires at least one runway-group policy" []);
  fold_outcome (add_policy starFamilies) ∅ input.

Definition preparePolicies (input : list Policy) : outcome (gmap string preparedPolicy) :=
  preparePoliciesWithSTARFamilies input (mk_pfamilies ∅ false).

(** ** Flights *)

Definition invalid_time (t : option Time) : bool := opt_test (λ t, negb (validUTC t)) t.

Definition slot_invalid (group : string) (s : Slot) : bool :=
  negb (validUTC (sl_Time s)) || (sl_Sequence s <? 1) || negb (str_eqb (sl_RunwayGroupID s) group).

Definition flight_error (format : string) (raw : Flight) : error := Errorf format [AStr (fl_Callsign raw)].

Definition check_flight (raw : Flight) : outcome unit :=
  _ ← guard_err (negb (FlightState_Valid (fl_State raw)) || negb (FreezeReason_Valid (fl_FreezeReason raw))
                 || negb (validUTC (fl_OperationalTETA raw))) (flight_error "flight %q has invalid sequencing state" raw);
  _ ← guard_err (invalid_time (fl_DemandArrivalAt raw)) (flight_error "flight %q has invalid demand arrival time" raw);
  _ ← guard_err (invalid_time (fl_InitialBaselineTETA raw)) (flight_error "flight %q has invalid initial baseline TETA" raw);
  _ ← guard_err (invalid_time (fl_PromotionNotBefore raw)) (flight_error "flight %q has invalid promotion lower bound" raw);
  _ ← guard_err (opt_test (λ m, m <? 1) (fl_ManualOrder raw)) (flight_error "flight %q has invalid manual order" raw);
  _ ← guard_err (opt_test (slot_invalid (fl_RunwayGroupID raw)) (fl_CurrentSlot raw))
        (flight_error "flight %q has invalid current slot" raw);
  _ ← guard_err (invalid_time (fl_HoldingStartedAt raw) || opt_test (λ r, r <? 1) (fl_ReleaseRank raw))
        (flight_error "flight %q has invalid rebuilt holding evidence" raw);
  _ ← guard_err (opt_test (λ a, a <? 0) (fl_HoldingAltitudeFeet raw))
        (flight_error "flight %q has invalid holding stack altitude" raw);
  _ ← guard_err (opt_test (λ t, negb (validUTC t) || str_empty (fl_HoldingQueueID raw) || (fl_HoldingTransit raw <? 0))
                          (fl_HoldingQueueTime raw))
        (flight_error "flight %q has invalid holding queue evidence" raw);
  _ ← guard_err (invalid_time (fl_ActiveHoldingSince raw) || invalid_time (fl_ArrivalQueueTime raw))
        (flight_error "flight %q has invalid runway holding priority evidence" raw);
  _ ← guard_err (invalid_time (fl_SlotNotBefore raw)) (flight_error "flight %q has invalid slot lower bound" raw);
  _ ← guard_err (fl_ProtectCurrentSlot raw && is_nil (fl_CurrentSlot raw))
        (flight_error "flight %q protects a missing current slot" raw);
  _ ← guard_err (freeze_is (fl_FreezeReason raw) FreezeNone && not_nil (fl_CapturedSlot raw))
        (flight_error "flight %q has captured slot without freeze reason" raw);
  _ ← guard_err (freeze_is (fl_FreezeReason raw) FreezeNone
                 && (not_nil (fl_FrozenAt raw) || not_nil (fl_FrozenOperationalTETA raw)))
        (flight_error "flight %q has freeze values without freeze reason" raw);
  guard_err ((not_nil (fl_FrozenAt raw) || not_nil (fl_FrozenOperationalTETA raw))
             && (is_nil (fl_FrozenAt raw) || is_nil (fl_FrozenOperationalTETA raw)
                 || invalid_time (fl_FrozenAt raw) || invalid_time (fl_FrozenOperationalTETA raw)))
        (flight_error "flight %q has incomplete freeze values" raw).

(** The flight the preparation appends for an accepted [raw]. *)
Definition prepare_flight (policy : preparedPolicy) (raw : Flight) : preparedFlight :=
  let category := normalizeCategory (fl_WakeCategory raw) in
  let known := bool_decide (category ∈ pp_categories policy) in
  let category := if known then category else WakeUnknown in
  let raw := set_STARFamily (canonicalSTARFamily (fl_STARFamily raw)) raw in
  let raw := set_SelectedSTARFamily (canonicalSTARFamily (fl_SelectedSTARFamily raw)) raw in
  let stableOrder :=
    if (state_is (fl_State raw) StateStable || fl_HoldingSlotProtected raw) && is_nil (fl_ManualOrder raw)
    then option_map sl_Sequence (fl_CurrentSlot raw) else None in
  mk_pflight raw category known stableOrder
    (holdingSequencePolicyFor (pp_starFamilies policy) (fl_SelectedSTARFamily raw)).

Record flights_state := mk_flstate { fls_result : gmap string (list preparedFlight); fls_seen : gset string }.

Definition add_flight (policies : gmap string preparedPolicy) (s : flights_state) (raw : Flight)
  : outcome flights_state :=
  _ ← guard_err (str_empty (TrimSpace (fl_Callsign raw))) (Errorf "sequence callsign is required" []);
  _ ← guard_err (bool_decide (fl_Callsign raw ∈ fls_seen s)) (flight_error "duplicate sequence flight %q" raw);
  match policies !! fl_RunwayGroupID raw with
  | None => Err (Errorf "flight %q references unknown runway group %q" [AStr (fl_Callsign raw); AStr (fl_RunwayGroupID raw)])
  | Some policy =>
      _ ← check_flight raw;
      let group := default [] (fls_result s !! fl_RunwayGroupID raw) in
      Ok (mk_flstate (<[fl_RunwayGroupID raw := group ++ [prepare_flight policy raw]]> (fls_result s))
                     ({[fl_Callsign raw]} ∪ fls_seen s))
  end.

Definition prepareFlights (input : list Flight) (policies : gmap string preparedPolicy)
  : outcome (gmap string (list preparedFlight)) :=
  s ← fold_outcome (add_flight policies) (mk_flstate ∅ ∅) input;
  Ok (fls_result s).

(** ** Demand *)

Definition counts_demand (flight : Flight) : bool :=
  negb (state_is (fl_State flight) StatePlanned || state_is (fl_State flight) StateLanded
        || state_is (fl_State flight) StateRemoved).

Definition holding_family (flight : Flight) : option string :=
  if not_nil (fl_ActiveHoldingSince flight) && negb (str_empty (fl_STARFamily flight))
  then Some (fl_STARFamily flight) else None.

Definition with_demand (policy : preparedPolicy) (values : list preparedFlight) : preparedPolicy :=
  let counted := filter (λ f : preparedFlight, counts_demand f = true) values in
  mk_ppolicy policy (pp_rates policy) (pp_spacing policy) (pp_categories policy) (pp_fallback policy)
    (pp_starFamilies policy)
    (sort_slice before (omap (λ f : preparedFlight, fl_DemandArrivalAt f) counted))
    (list_to_set (omap (λ f : preparedFlight, holding_family f) counted)).

Definition prepareInput (input : Input)
  : outcome (gmap string preparedPolicy * gmap string (list preparedFlight)) :=
  families ← prepareSTARFamilyPolicies (in_STARFamilyPolicies input);
  policies ← preparePoliciesWithSTARFamilies (in_Policies input) families;
  flights ← prepareFlights (in_Flights input) policies;
  Ok (map_imap (λ group policy,
        Some (match flights !! group with Some values => with_demand policy values | None => policy end)) policies,
      flights).

(** ** Go's integer types of the input *)

Definition typed_policy (raw : Policy) : Prop :=
  Forall (λ r, in_uint32 (rp_ArrivalsPerHour r)) (po_Rates raw) ∧ in_int64 (po_EarlyTolerance raw) ∧
  in_int64 (po_UnknownSeparation raw) ∧ Forall (λ r, in_int64 (sr_Minimum r)) (po_SeparationRules raw).

Definition typed_input (input : Input) : Prop := Forall typed_policy (in_Policies input).

(** ** What the checks establish *)

Ltac ok_guards H :=
  repeat (let u := fresh "u" in let E := fresh "G" in
          apply bind_ok in H as (u & E & H);
          first [apply guard_err_ok in E | idtac]).

Lemma check_rates_ok id previous rates u :
  check_rates id previous rates = Ok u →
  Forall (λ r, rp_ArrivalsPerHour r ≠ 0) rates ∧
  chain (λ a b, ns (rp_EffectiveAt a) ≠ ns (rp_EffectiveAt b)) rates ∧
  ∀ r x, previous = Some r → head rates = Some x → ns (rp_EffectiveAt r) ≠ ns (rp_EffectiveAt x).
Proof.
  revert previous. induction rates as [|a l IH]; intros previous H; [by split_and!|]. simpl in H.
  bind_inv H. bind_inv H. apply guard_err_ok in E, E0. destruct (IH _ H) as (H1 & H2 & H3). bsplit. split_and!.
  - constructor; [zbool; done|done].
  - apply chain_cons. split; [done|]. intros y Hy. by apply (H3 a).
  - intros y x -> [= <-]. simpl in E0. unfold time_eqb in E0. zbool. congruence.
Qed.

Lemma check_gaps_ok id previous gaps u :
  check_gaps id previous gaps = Ok u →
  Forall (λ g, ns (gap_Start g) < ns (gap_End g)) gaps ∧
  chain (λ a b, ns (gap_End a) < ns (gap_Start b)) gaps ∧
  ∀ g x, previous = Some g → head gaps = Some x → ns (gap_End g) < ns (gap_Start x).
Proof.
  revert previous. induction gaps as [|a l IH]; intros previous H; [by split_and!|]. simpl in H.
  bind_inv H. bind_inv H. apply guard_err_ok in E, E0. destruct (IH _ H) as (H1 & H2 & H3). bsplit. split_and!.
  - constructor; [time_lia|done].
  - apply chain_cons. split; [done|]. intros y Hy. by apply (H3 a).
  - intros y x -> [= <-]. simpl in E0. time_lia.
Qed.

Lemma check_closures_ok id closures u :
  check_closures id closures = Ok u →
  Forall (λ c, match cl_End c with Some e => ns (cl_Start c) < ns e | None => True end) closures.
Proof.
  induction closures as [|a l IH]; intros H; [done|]. simpl in H. bind_inv H. apply guard_err_ok in E.
  constructor; [|by apply IH]. unfold closure_invalid in E. bsplit. destruct (cl_End a); [|done]. simpl in *. time_lia.
Qed.

Lemma sort_time_key {A} (key : A → Time) (less : A → A → bool) l :
  (∀ a b, less a b = true → ns (key a) ≤ ns (key b)) → (∀ a b, ns (key a) < ns (key b) → less a b = true) →
  chain (λ a b, ns (key a) ≤ ns (key b)) (sort_slice less l).
Proof. apply (sort_slice_key less (λ a, ns (key a))). Qed.

Lemma sorted_rates l : chain (λ a b, ns (rp_EffectiveAt a) ≤ ns (rp_EffectiveAt b)) (sort_slice rate_less l).
Proof. apply sort_time_key; unfold rate_less; intros; time_lia. Qed.

Lemma sorted_closures l : chain (λ a b, ns (cl_Start a) ≤ ns (cl_Start b)) (sort_slice closure_less l).
Proof. apply sort_time_key; unfold closure_less; intros; time_lia. Qed.

(** *** The wake matrix *)

Record matrix_ok (base : Duration) (m : wake_matrix) : Prop := {
  mo_nonneg : ∀ pair d, wm_spacing m !! pair = Some d → 0 ≤ d ≤ wm_fallback m;
  mo_base : base ≤ wm_fallback m < 2^63;
  mo_keys : ∀ a b d, wm_spacing m !! (a, b) = Some d → a ∈ wm_categories m ∧ b ∈ wm_categories m;
  mo_unknown : WakeUnknown ∉ wm_categories m
}.

Lemma prepare_rule_ok id base m rule m' :
  in_int64 (sr_Minimum rule) → matrix_ok base m → prepare_rule id m rule = Ok m' → matrix_ok base m'.
Proof.
  intros Hty [H1 H2 Hk H3] H. unfold in_int64 in Hty. unfold prepare_rule in H. bind_inv H. bind_inv H. injection H as <-.
  apply guard_err_ok in E. bsplit. zbool. split; simpl.
  - intros pair d. rewrite lookup_insert_Some. intros [[_ <-]|[_ Hd]].
    + destruct (Z.ltb_spec (wm_fallback m) (sr_Minimum rule)); lia.
    + specialize (H1 _ _ Hd). destruct (Z.ltb_spec (wm_fallback m) (sr_Minimum rule)); lia.
  - destruct (Z.ltb_spec (wm_fallback m) (sr_Minimum rule)); lia.
  - intros a b d. rewrite lookup_insert_Some. intros [[[= <- <-] _]|[_ Hd]]; [set_solver|].
    destruct (Hk a b d Hd). set_solver.
  - rewrite !elem_of_union, !elem_of_singleton. rewrite !str_eqb_neq in *. intros [?|[?|?]]; congruence.
Qed.

Lemma matrix_complete_spec m a b :
  matrix_complete m = true → a ∈ wm_categories m → b ∈ wm_categories m → is_Some (wm_spacing m !! (a, b)).
Proof.
  unfold matrix_complete. rewrite forallb_forall. intros H Ha Hb.
  specialize (H a). rewrite <-list_elem_of_In, elem_of_elements, forallb_forall in H.
  specialize (H Ha b). rewrite <-list_elem_of_In, elem_of_elements in H. by apply not_nil_some, H.
Qed.

Lemma prepare_rules_ok id base rules m :
  in_int64 base → Forall (λ r, in_int64 (sr_Minimum r)) rules → prepare_rules id base rules = Ok m →
  matrix_ok base m ∧ matrix_complete m = true.
Proof.
  unfold prepare_rules. intros Hbase Hty H. unfold in_int64 in Hbase. bind_inv H. bind_inv H. bind_inv H. injection H as <-.
  apply guard_err_ok in E1. bsplit. split; [|done].
  eapply (fold_outcome_inv_in _ (matrix_ok base)); [| |exact E0].
  { intros ??? Hin. rewrite Forall_forall in Hty. apply prepare_rule_ok. by apply Hty. }
  split; simpl; [intros pair d; by rewrite lookup_empty|lia|intros a b d; by rewrite lookup_empty|set_solver].
Qed.

(** *** A prepared policy is well formed *)

Record policy_wf (id : string) (p : preparedPolicy) : Prop := {
  pw_id : po_RunwayGroupID p = id;
  pw_grid : grid_wf p;
  pw_early : 0 ≤ po_EarlyTolerance p < 2^63;
  pw_fallback : 0 < po_UnknownSeparation p ≤ pp_fallback p ∧ pp_fallback p < 2^63;
  pw_nonneg : ∀ pair d, pp_spacing p !! pair = Some d → 0 ≤ d ≤ pp_fallback p;
  pw_complete : ∀ a b, a ∈ pp_categories p → b ∈ pp_categories p → is_Some (pp_spacing p !! (a, b));
  pw_keys : ∀ a b d, pp_spacing p !! (a, b) = Some d → a ∈ pp_categories p ∧ b ∈ pp_categories p;
  pw_unknown : WakeUnknown ∉ pp_categories p
}.

(** A prepared policy is a policy of the input with sorted rates, gaps and closures. *)
Definition prepared_from (raw : Policy) (p : preparedPolicy) : Prop :=
  ∃ gaps closures, pp_Policy p = with_capacity raw gaps closures ∧ gaps ≡ₚ po_Gaps raw ∧
    closures ≡ₚ po_Closures raw ∧ pp_rates p ≡ₚ po_Rates raw.

Lemma prepare_policy_ok sf raw p :
  typed_policy raw → prepare_policy sf raw = Ok p → policy_wf (po_RunwayGroupID raw) p ∧ prepared_from raw p.
Proof.
  intros (Ht & Hty & Hun & Hru) H. unfold prepare_policy in H. ok_guards H. injection H as <-.
  destruct (check_rates_ok _ _ _ _ G3) as (Hr1 & Hr2 & _). destruct (check_gaps_ok _ _ _ _ G4) as (Hg1 & Hg2 & _).
  pose proof (check_closures_ok _ _ _ G5) as Hc. destruct (prepare_rules_ok _ _ _ _ Hun Hru G6) as ([Hn Hb Hk Hu] & Hcomplete).
  split; [|eexists _, _; split_and!; [done|apply sort_slice_perm..]]. split; simpl; try done.
  - split; simpl; try done.
    + intros Hnil. apply (f_equal length) in Hnil. rewrite (Permutation_length (sort_slice_perm rate_less (po_Rates raw))) in Hnil.
      simpl in Hnil. by apply Nat.eqb_neq in G2.
    + apply chain_lookup. intros i a b Ha Hb'. pose proof (sorted_rates (po_Rates raw)) as Hs.
      rewrite chain_lookup in Hs, Hr2. specialize (Hs i a b Ha Hb'). specialize (Hr2 i a b Ha Hb'). lia.
    + rewrite Forall_forall in Hr1 |- *. intros r Hr. specialize (Hr1 r Hr).
      apply elem_of_sort_slice in Hr. rewrite Forall_forall in Ht. specialize (Ht r Hr).
      unfold in_uint32 in Ht. lia.
    + apply sorted_closures.
  - unfold in_int64 in Hty. zbool. lia.
  - zbool. lia.
  - intros. by apply matrix_complete_spec.
Qed.

Definition policies_wf (input : list Policy) (policies : gmap string preparedPolicy) : Prop :=
  map_Forall (λ id p, policy_wf id p ∧ ∃ raw, raw ∈ input ∧ prepared_from raw p) policies.

Lemma prepare_policies_wf input sf policies :
  Forall typed_policy input → preparePoliciesWithSTARFamilies input sf = Ok policies → policies_wf input policies.
Proof.
  intros Ht H. unfold preparePoliciesWithSTARFamilies in H. bind_inv H. clear E r.
  assert (Hgen : ∀ rest m, rest ⊆ input → policies_wf input m →
             fold_outcome (add_policy sf) m rest = Ok policies → policies_wf input policies).
  { clear H. induction rest as [|raw l IH]; intros m Hsub Hm H; simpl in H; [by injection H as <-|].
    bind_inv H. apply (IH r); [by intros x Hx; apply Hsub; right| |done].
    unfold add_policy in E. bind_inv E. bind_inv E. bind_inv E. injection E as <-.
    assert (Hraw : raw ∈ input) by (apply Hsub; left). rewrite Forall_forall in Ht.
    destruct (prepare_policy_ok sf raw r2 (Ht raw Hraw) E2). apply map_Forall_insert_2; [|done]. eauto. }
  apply (Hgen input ∅); [done|apply map_Forall_empty|done].
Qed.

(** *** Prepared flights *)

(** The flights of one runway group, in input order. *)
Definition group_flights (policies : gmap string preparedPolicy) (input : list Flight) (group : string)
  : list preparedFlight :=
  match policies !! group with
  | Some policy => prepare_flight policy <$> filter (λ f, fl_RunwayGroupID f = group) input
  | None => []
  end.

Record flights_ok (policies : gmap string preparedPolicy) (input : list Flight) (s : flights_state) : Prop := {
  fo_result : ∀ group, default [] (fls_result s !! group) = group_flights policies input group;
  fo_seen : ∀ c, c ∈ fls_seen s ↔ c ∈ fl_Callsign <$> input;
  fo_nodup : NoDup (fl_Callsign <$> input);
  fo_checked : Forall (λ raw, is_Some (policies !! fl_RunwayGroupID raw) ∧ check_flight raw = Ok tt) input
}.

Lemma add_flight_ok policies input s raw s' :
  flights_ok policies input s → add_flight policies s raw = Ok s' → flights_ok policies (input ++ [raw]) s'.
Proof.
  intros [H1 H2 H3 H4] H. unfold add_flight in H. bind_inv H. bind_inv H. apply guard_err_ok, bool_decide_eq_false in E0.
  destruct (policies !! fl_RunwayGroupID raw) as [policy|] eqn:Ep; [|done]. bind_inv H. injection H as <-.
  split; simpl.
  - intros group. unfold group_flights. rewrite filter_app, filter_cons, filter_nil.
    destruct (decide (fl_RunwayGroupID raw = group)) as [<-|Hne].
    + rewrite lookup_insert, Ep, fmap_app. destruct (decide _); [|done]. simpl. rewrite H1. unfold group_flights. by rewrite Ep.
    + rewrite lookup_insert_ne by done. rewrite app_nil_r. apply H1.
  - intros c. rewrite fmap_app, elem_of_union, elem_of_app, elem_of_singleton, H2. simpl. rewrite list_elem_of_singleton. tauto.
  - rewrite fmap_app, NoDup_app. split_and!; [done| |apply NoDup_singleton].
    intros c Hc ->%list_elem_of_singleton. apply E0. by apply H2.
  - apply Forall_app. split; [done|]. constructor; [|done]. split; [by eexists|]. by destruct r1.
Qed.

Lemma prepareFlights_ok input policies flights :
  prepareFlights input policies = Ok flights → ∃ seen, flights_ok policies input (mk_flstate flights seen).
Proof.
  intros H. unfold prepareFlights in H. bind_inv H. injection H as <-. exists (fls_seen r).
  assert (Hgen : ∀ done s, flights_ok policies done s → fold_outcome (add_flight policies) s input = Ok r →
                           flights_ok policies (done ++ input) r).
  { clear E. induction input as [|raw l IH]; intros done s Hs E; simpl in E.
    - injection E as <-. by rewrite app_nil_r.
    - bind_inv E. change (raw :: l) with ([raw] ++ l). rewrite app_assoc. eapply IH; [|done]. by eapply add_flight_ok. }
  destruct r. apply (Hgen [] (mk_flstate ∅ ∅)); [|done]. split; simpl.
  - intros group. rewrite lookup_empty. unfold group_flights. by destruct (policies !! group).
  - set_solver.
  - constructor.
  - done.
Qed.

(** What the flight checks guarantee to the sequencing of one group. *)
Record flight_wf (group : string) (f : preparedFlight) : Prop := {
  fw_group : fl_RunwayGroupID f = group;
  fw_protects : fl_ProtectCurrentSlot f = true → is_Some (fl_CurrentSlot f);
  fw_captured : fl_FreezeReason f = FreezeNone → fl_CapturedSlot f = None;
  fw_current : ∀ s, fl_CurrentSlot f = Some s → slot_invalid group s = false;
  fw_stable : is_Some (pf_stableOrder f) → is_Some (fl_CurrentSlot f)
}.

Lemma prepare_flight_wf policy raw :
  check_flight raw = Ok tt → flight_wf (fl_RunwayGroupID raw) (prepare_flight policy raw).
Proof.
  intros H. unfold check_flight in H. ok_guards H. split; simpl; try done.
  - intros Hp. rewrite Hp in *. destruct (fl_CurrentSlot raw); [by eexists|done].
  - intros Hf. destruct (fl_CapturedSlot raw); [|done].
    match goal with G : freeze_is _ _ && not_nil (Some _) = false |- _ => rewrite Hf in G; discriminate G end.
  - intros s Hs. rewrite Hs in *. done.
  - intros [o Ho]. simpl in Ho. destruct (fl_CurrentSlot raw); [by eexists|].
    simpl in Ho. by repeat case_match.
Qed.

Lemma group_flights_wf policies input group :
  Forall (λ raw, is_Some (policies !! fl_RunwayGroupID raw) ∧ check_flight raw = Ok tt) input →
  Forall (flight_wf group) (group_flights policies input group).
Proof.
  intros Hall. unfold group_flights. destruct (policies !! group) as [policy|]; [|done].
  apply Forall_fmap, Forall_forall. intros raw Hraw. apply list_elem_of_filter in Hraw as [<- Hraw].
  rewrite Forall_forall in Hall. by apply prepare_flight_wf, Hall.
Qed.

(** The category a prepared flight carries tells whether it is known. *)
Lemma known_category (p : preparedPolicy) raw :
  WakeUnknown ∉ pp_categories p →
  pf_known (prepare_flight p raw) = bool_decide (pf_category (prepare_flight p raw) ∈ pp_categories p).
Proof.
  intros Hu. simpl. case_bool_decide as Hc; simpl; [by rewrite bool_decide_true|by rewrite bool_decide_false].
Qed.

(** *** The whole input *)

Lemma with_demand_wf id p values : policy_wf id p → policy_wf id (with_demand p values).
Proof. intros [? [? ? ? ? ? ? ?] ? ? ? ? ? ?]. split; [done|by split|done..]. Qed.

Record input_ok (input : Input) (policies : gmap string preparedPolicy) (flights : gmap string (list preparedFlight)) : Prop := {
  io_policies : policies_wf (in_Policies input) policies;
  io_flights : ∀ group, Forall (flight_wf group) (default [] (flights !! group));
  io_known_category : ∀ group p, policies !! group = Some p →
     Forall (λ f : preparedFlight, pf_known f = bool_decide (pf_category f ∈ pp_categories p)) (default [] (flights !! group));
  io_group : ∀ group, (pf_Flight <$> default [] (flights !! group)) =
     (λ raw, set_SelectedSTARFamily (canonicalSTARFamily (fl_SelectedSTARFamily raw))
               (set_STARFamily (canonicalSTARFamily (fl_STARFamily raw)) raw))
     <$> filter (λ f, fl_RunwayGroupID f = group) (in_Flights input);
  io_nodup : NoDup (fl_Callsign <$> in_Flights input);
  io_known : Forall (λ raw, is_Some (policies !! fl_RunwayGroupID raw)) (in_Flights input)
}.

Lemma prepareInput_ok input policies flights :
  typed_input input → prepareInput input = Ok (policies, flights) → input_ok input policies flights.
Proof.
  intros Ht H. unfold prepareInput in H. bind_inv H. bind_inv H. bind_inv H. injection H as <- <-.
  rename r0 into base. pose proof (prepare_policies_wf _ _ _ Ht E0) as Hwf. destruct (prepareFlights_ok _ _ _ E1) as (seen & [H1 _ H3 H4]).
  simpl in H1. assert (Hknown : Forall (λ raw, is_Some (base !! fl_RunwayGroupID raw)) (in_Flights input))
    by (eapply Forall_impl; [exact H4|]; by intros ? [? ?]).
  split.
  - intros id p. rewrite map_lookup_imap. destruct (base !! id) as [b|] eqn:Eb; [|done].
    simpl. intros [= <-]. destruct (Hwf id b Eb) as [Hb Hsrc]. destruct (r1 !! id); [|done].
    split; [by apply with_demand_wf|done].
  - intros group. rewrite H1. by apply group_flights_wf.
  - intros group p. rewrite map_lookup_imap, H1. unfold group_flights. destruct (base !! group) as [b|] eqn:Eb; [|done].
    simpl. intros [= <-]. apply Forall_fmap, Forall_forall. intros raw _.
    assert (Hu : WakeUnknown ∉ pp_categories b) by (destruct (Hwf group b Eb) as [Hb _]; apply Hb).
    destruct (r1 !! group); exact (known_category b raw Hu).
  - intros group. rewrite H1. unfold group_flights. destruct (base !! group) as [b|] eqn:Eb.
    + by rewrite <-list_fmap_compose.
    + rewrite filter_none; [done|]. rewrite Forall_forall in Hknown |- *. intros raw Hraw <-.
      specialize (Hknown raw Hraw). rewrite Eb in Hknown. by destruct Hknown.
  - done.
  - rewrite Forall_forall in Hknown |- *. intros raw Hraw. destruct (Hknown raw Hraw) as [b Hb].
    rewrite map_lookup_imap, Hb. by eexists.
Qed.

(** ** The capacity an input policy withdraws *)

Definition withdrawn (raw : Policy) (t : Time) : Prop :=
  (∃ g, g ∈ po_Gaps raw ∧ ns (gap_Start g) ≤ ns t < ns (gap_End g)) ∨
  (∃ c, c ∈ po_Closures raw ∧ ns (cl_Start c) ≤ ns t ∧ match cl_End c with Some e => ns t < ns e | None => True end).

Lemma blocked_withdrawn raw p t : prepared_from raw p → blocked p t ↔ withdrawn raw t.
Proof.
  intros (gaps & closures & Hp & Hg & Hc & _). unfold blocked, withdrawn. rewrite Hp. simpl.
  setoid_rewrite Hg. by setoid_rewrite Hc.
Qed.

(** Every gap and every ending closure ends within 292 years of every rate point. *)
Definition policy_horizon (raw : Policy) : Prop :=
  Forall (λ r, Forall (λ g, ns (gap_End g) ≤ ns (rp_EffectiveAt r) + grid_span) (po_Gaps raw) ∧
               Forall (λ c, match cl_End c with Some e => ns e ≤ ns (rp_EffectiveAt r) + grid_span | None => True end)
                      (po_Closures raw)) (po_Rates raw).

Definition input_horizon (input : Input) : Prop := Forall policy_horizon (in_Policies input).

Lemma prepared_horizon raw p : policy_horizon raw → prepared_from raw p → grid_horizon p.
Proof.
  intros Hh (gaps & closures & Hp & Hg & Hc & Hr). unfold policy_horizon in Hh. rewrite Forall_forall in Hh.
  assert (Hhead : ∀ r, head (pp_rates p) = Some r → r ∈ po_Rates raw).
  { intros r Hhd. rewrite <-Hr. apply head_Some_elem_of in Hhd. done. }
  split; rewrite Hp; simpl.
  - apply Forall_forall. intros g Hin r Hhd. destruct (Hh r (Hhead r Hhd)) as [H _]. rewrite Forall_forall in H.
    apply H. by rewrite <-Hg.
  - apply Forall_forall. intros c Hin. destruct (cl_End c) as [e|] eqn:Ee; [|done]. intros r Hhd.
    destruct (Hh r (Hhead r Hhd)) as [_ H]. rewrite Forall_forall in H. specialize (H c). rewrite Ee in H.
    apply H. by rewrite <-Hc.
Qed.

(** ** Preparation always returns *)

Lemma check_rates_returns id previous rates : returns (check_rates id previous rates).
Proof. revert previous. induction rates; intros previous; simpl; returns_tac; auto. Qed.

Lemma check_gaps_returns id previous gaps : returns (check_gaps id previous gaps).
Proof. revert previous. induction gaps; intros previous; simpl; returns_tac; auto. Qed.

Lemma check_closures_returns id closures : returns (check_closures id closures).
Proof. induction closures; simpl; returns_tac. Qed.

Lemma prepare_policy_returns sf raw : returns (prepare_policy sf raw).
Proof.
  unfold prepare_policy, prepare_rules, prepare_rule.
  returns_tac; auto using check_rates_returns, check_gaps_returns, check_closures_returns.
Qed.

Lemma prepareInput_returns input : returns (prepareInput input).
Proof.
  unfold prepareInput, prepareSTARFamilyPolicies, prepare_family, preparePoliciesWithSTARFamilies, add_policy,
    prepareFlights, add_flight, check_flight. 
  returns_tac; auto using prepare_policy_returns, check_rates_returns, check_gaps_returns, check_closures_returns.
Qed.

(** ** Flights without holding evidence wait for nobody *)

Definition no_holding (f : Flight) : Prop :=
  fl_ReleaseRank f = None ∧ fl_HoldingQueueTime f = None ∧ fl_ArrivalQueueTime f = None.

Lemma no_holding_waits p (f g : preparedFlight) : no_holding f → waits_for p f g = false.
Proof.
  intros (H1 & H2 & H3). unfold waits_for, holdingPrecedes, HoldingPrecedes. rewrite H1, H2, H3.
  destruct (po_AllowCrossFeederOvertake p && _); [done|].
  destruct (fl_ReleaseRank g), (fl_HoldingQueueTime g), (fl_ActiveHoldingSince g); simpl; by rewrite ?andb_false_r.
Qed.

(** Properties of the raw flights that the canonical STAR names do not touch. *)
Lemma input_flights_forall input policies flights group (P : Flight → Prop) :
  typed_input input → prepareInput input = Ok (policies, flights) →
  (∀ f a b, P f → P (set_SelectedSTARFamily a (set_STARFamily b f))) →
  Forall P (in_Flights input) → Forall (λ f : preparedFlight, P f) (default [] (flights !! group)).
Proof.
  intros Ht E HP Hall. pose proof (io_group _ _ _ (prepareInput_ok _ _ _ Ht E) group) as Hg.
  rewrite <-(Forall_fmap pf_Flight P), Hg. apply Forall_fmap, Forall_forall.
  intros f Hf. apply list_elem_of_filter in Hf as [_ Hf]. apply HP. rewrite Forall_forall in Hall. by apply Hall.
Qed.
