(* ===== verification/SequenceEngine.v ===== *)
(** * Generation of a candidate sequence

    [engine.go]: [generateGroup], [generate], [Generate], [movementFor],
    [sortWarnings], [IsGridOpportunity]. The lemmas say what one runway group
    goes through ([group_result]) and what a result without conflicts is made
    of ([generated]); the theorems about the whole calculation are in
    SequenceSafety. *)

From S2P Require Import Prelude GoTime SequenceData SequenceGrid SequenceSpacing SequenceOrder.
From S2P Require Import SequencePlacement SequenceAllocation SequenceOptimize SequencePrepare.

Local Open Scope Z_scope.

(** ** One runway group *)

Definition group_warning (p : preparedPolicy) (severity code : string) (f : preparedFlight)
    (related : option string) (family : string) : Warning :=
  mk_warning severity code (po_RunwayGroupID p) (fl_Callsign f) related family.

Definition flight_warnings (p : preparedPolicy) (f : preparedFlight) : list Warning :=
  (if negb (pf_known f) then [group_warning p SeverityDegraded WarningUnknownWakeCategory f None ""] else [])
  ++ (if ss_Enabled (po_SameSTARSpacing p) && str_empty (fl_STARFamily f)
      then [group_warning p SeverityDegraded WarningUnknownSTARFamily f None ""] else []).

Definition active (f : preparedFlight) : bool := negb (inactive (fl_State f)).

Definition movable (promotions : gmap string Slot) (f : preparedFlight) : bool :=
  freeze_is (fl_FreezeReason f) FreezeNone && negb (fl_ProtectCurrentSlot f)
  && is_nil (promotions !! fl_Callsign f).

(** The slot a protected flight has to keep. *)
Definition protected_slot (promotions : gmap string Slot) (f : preparedFlight) : option Slot :=
  match promotions !! fl_Callsign f with
  | Some promoted => Some promoted
  | None =>
      if fl_ProtectCurrentSlot f && freeze_is (fl_FreezeReason f) FreezeNone then fl_CurrentSlot f
      else fl_CapturedSlot f
  end.

Definition protected_reason (promotions : gmap string Slot) (f : preparedFlight) : string :=
  if freeze_is (fl_FreezeReason f) FreezeSuperstable then ReasonFreezeSuperstable
  else if freeze_is (fl_FreezeReason f) FreezeTMA then ReasonFreezeTMA
  else if not_nil (promotions !! fl_Callsign f) then ReasonQueuePromotion
  else if fl_ProtectCurrentSlot f then ReasonStable
  else ReasonFreezeManual.

Definition protected_slot_invalid (p : preparedPolicy) (slot : Slot) : bool :=
  negb (validUTC (sl_Time slot)) || negb (str_eqb (sl_RunwayGroupID slot) (po_RunwayGroupID p))
  || (sl_Sequence slot <? 1) || (intervalAt p (sl_Time slot) =? 0)
  || not_nil (blockingClosure p (sl_Time slot)).

Definition protected_entry (p : preparedPolicy) (promotions : gmap string Slot) (f : preparedFlight)
  : Warning + allocatedEntry :=
  match protected_slot promotions f with
  | None => inl (group_warning p SeverityConflict WarningProtectedSlotMissing f None "")
  | Some slot =>
      if protected_slot_invalid p slot
      then inl (group_warning p SeverityConflict WarningProtectedSlotInvalid f None "")
      else inr (mk_alloc f (sl_Time slot) (protected_reason promotions f))
  end.

Definition spacing_warning (p : preparedPolicy) (leading trailing : allocatedEntry) : list Warning :=
  if adjacentValid p leading trailing then []
  else
    let star := sameSTARGap p (ae_flight leading) (ae_flight trailing) (ae_time trailing) in
    let '(code, family) :=
      if (0 <? star) && (time_sub (ae_time trailing) (ae_time leading) <? star)
      then (WarningProtectedSameSTAR, fl_STARFamily (ae_flight trailing))
      else (WarningProtectedSpacing, ""%string) in
    [group_warning p SeverityConflict code (ae_flight trailing) (Some (fl_Callsign (ae_flight leading))) family].

Fixpoint spacing_warnings (p : preparedPolicy) (entries : list allocatedEntry) : list Warning :=
  match entries with
  | leading :: (trailing :: _) as rest => spacing_warning p leading trailing ++ spacing_warnings p rest
  | _ => []
  end.

Definition left_of {A B} (s : A + B) : option A := match s with inl a => Some a | inr _ => None end.
Definition right_of {A B} (s : A + B) : option B := match s with inl _ => None | inr b => Some b end.

(** Protected flights, sorted, with what becomes of each. *)
Definition protected_outcomes (p : preparedPolicy) (promotions : gmap string Slot) (flights : list preparedFlight)
  : list (Warning + allocatedEntry) :=
  protected_entry p promotions
    <$> sort_slice flightLess (filter (λ f, active f && negb (movable promotions f) = true) flights).

Definition generateGroup (p : preparedPolicy) (flights : list preparedFlight) (promotions : gmap string Slot)
  : outcome (list allocatedEntry * list Warning) :=
  let outcomes := protected_outcomes p promotions flights in
  let entries := sortEntries (omap right_of outcomes) in
  ordered ← orderMovableFlights p (filter (λ f, active f && movable promotions f = true) flights);
  allocated ← allocateMovableFlights p entries ordered;
  allocated ← optimizeMovableOrder p entries ordered allocated;
  allocated ← optimizeStableSameSTAR p allocated;
  Ok (allocated,
      (flights ≫= flight_warnings p) ++ omap left_of outcomes
        ++ spacing_warnings p (protected_entries allocated)).

(** ** The whole calculation *)

Definition candidate_entry (group : string) (sequence : Z) (e : allocatedEntry) : CandidateEntry :=
  let f := ae_flight e in
  mk_entry (fl_Callsign f) group sequence (ae_time e) (fl_OperationalTETA f) (pf_category f)
    (fl_FreezeReason f) (frozen (fl_FreezeReason f) || fl_ProtectCurrentSlot f) (ae_reason e).

Definition movementFor (flight : Flight) (candidate : CandidateEntry) : option SlotMovement :=
  let from_time := option_map sl_Time (fl_CurrentSlot flight) in
  let from_sequence := option_map sl_Sequence (fl_CurrentSlot flight) in
  if opt_test (λ s, time_eqb (sl_Time s) (ce_Time candidate) && (sl_Sequence s =? ce_Sequence candidate))
              (fl_CurrentSlot flight) then None
  else Some (mk_movement (fl_Callsign flight) (ce_RunwayGroupID candidate) from_time from_sequence
                         (ce_Time candidate) (ce_Sequence candidate)).

Definition relatedID (id : option string) : string := default ""%string id.

Definition warning_less (a b : Warning) : bool :=
  if negb (str_eqb (w_RunwayGroupID a) (w_RunwayGroupID b)) then str_ltb (w_RunwayGroupID a) (w_RunwayGroupID b)
  else if negb (str_eqb (w_Callsign a) (w_Callsign b)) then str_ltb (w_Callsign a) (w_Callsign b)
  else if negb (str_eqb (w_Severity a) (w_Severity b)) then str_ltb (w_Severity a) (w_Severity b)
  else if negb (str_eqb (w_Code a) (w_Code b)) then str_ltb (w_Code a) (w_Code b)
  else if negb (str_eqb (relatedID (w_RelatedCallsign a)) (relatedID (w_RelatedCallsign b)))
  then str_ltb (relatedID (w_RelatedCallsign a)) (relatedID (w_RelatedCallsign b))
  else str_ltb (w_STARFamily a) (w_STARFamily b).

Definition sortWarnings (warnings : list Warning) : list Warning := sort_slice warning_less warnings.

(** One entry of a group at position [index]: its candidate, provenance and movement. *)
Definition add_entry (group : string) (index : nat) (e : allocatedEntry) (r : Result) : Result :=
  let candidate := candidate_entry group (Z.of_nat index + 1) e in
  mk_result
    (re_Operations r ++ (mk_operation (fl_Callsign (ae_flight e)) <$> fl_Operations (ae_flight e)))
    (re_Entries r ++ [candidate])
    (re_Movements r ++ match movementFor (ae_flight e) candidate with Some m => [m] | None => [] end)
    (re_Warnings r).

Fixpoint add_entries (group : string) (index : nat) (entries : list allocatedEntry) (r : Result) : Result :=
  match entries with
  | [] => r
  | e :: rest => add_entries group (S index) rest (add_entry group index e r)
  end.

Definition generate_one (policies : gmap string preparedPolicy) (flights : gmap string (list preparedFlight))
    (promotions : gmap string Slot) (r : Result) (group : string) : outcome Result :=
  p ← deref (policies !! group);
  '(entries, warnings) ← generateGroup p (default [] (flights !! group)) promotions;
  Ok (add_entries group 0 entries
        (mk_result (re_Operations r) (re_Entries r) (re_Movements r) (re_Warnings r ++ warnings))).

Definition group_ids (policies : gmap string preparedPolicy) : list string :=
  sort_slice str_ltb (map_to_list policies).*1.

Definition generate (input : Input) (promotions : gmap string Slot) : outcome Result :=
  '(policies, flights) ← prepareInput input;
  r ← fold_outcome (generate_one policies flights promotions) (mk_result [] [] [] []) (group_ids policies);
  Ok (mk_result (re_Operations r) (re_Entries r) (re_Movements r) (sortWarnings (re_Warnings r))).

Definition Generate (input : Input) : outcome Result := generate input ∅.

Definition IsGridOpportunity (input : Input) (groupID : string) (at_ : Time) : outcome bool :=
  policies ← preparePolicies (in_Policies input);
  match policies !! groupID with
  | None => Ok false
  | Some p => Ok (match nextRateGridAtOrAfter p at_ with Some candidate => time_eqb candidate at_ | None => false end)
  end.

(** ** Protected flights *)

Lemma protected_reason_movable promotions f : protected_reason promotions f ≠ ReasonRateWTC.
Proof. unfold protected_reason. by repeat case_match. Qed.

Lemma protected_reason_stable promotions f :
  protected_reason promotions f = ReasonStable →
  promotions !! fl_Callsign f = None ∧ fl_ProtectCurrentSlot f = true ∧
  fl_FreezeReason f ≠ FreezeSuperstable ∧ fl_FreezeReason f ≠ FreezeTMA.
Proof.
  unfold protected_reason, freeze_is, not_nil. repeat case_match; try done; intros _.
  repeat match goal with H : bool_decide _ = false |- _ => apply bool_decide_eq_false in H end.
  destruct (promotions !! _); done.
Qed.

Record protected_at (p : preparedPolicy) (promotions : gmap string Slot) (e : allocatedEntry) : Prop := {
  pa_movable : movable_entry e = false;
  pa_started : entry_started p e;
  pa_reason : ae_reason e = protected_reason promotions (ae_flight e);
  pa_slot : ∃ slot, protected_slot promotions (ae_flight e) = Some slot ∧ ae_time e = sl_Time slot ∧
                    protected_slot_invalid p slot = false
}.

Lemma protected_entry_facts p promotions f e :
  grid_wf p → protected_entry p promotions f = inr e → ae_flight e = f ∧ protected_at p promotions e.
Proof.
  intros Hwf. unfold protected_entry. destruct (protected_slot promotions f) as [slot|] eqn:Es; [|done].
  destruct (protected_slot_invalid p slot) eqn:Ei; [done|]. intros [= <-]. split; [done|]. split; simpl; [| |done|by exists slot].
  - unfold movable_entry, reason_is. simpl. apply str_eqb_neq, protected_reason_movable.
  - unfold protected_slot_invalid in Ei. bsplit. zbool. unfold entry_started, started. simpl.
    pose proof (intervalAt_nonneg p (sl_Time slot) Hwf). lia.
Qed.

Lemma protected_entry_warning p promotions f w :
  protected_entry p promotions f = inl w → is_conflict w = true.
Proof.
  unfold protected_entry. destruct (protected_slot promotions f) as [slot|]; [|by intros [= <-]].
  destruct (protected_slot_invalid p slot); [|done]. by intros [= <-].
Qed.

(** The entries generation starts from. *)
Definition initial_entries (p : preparedPolicy) (promotions : gmap string Slot) (flights : list preparedFlight)
  : list allocatedEntry := sortEntries (omap right_of (protected_outcomes p promotions flights)).

Definition movable_flights (promotions : gmap string Slot) (flights : list preparedFlight) : list preparedFlight :=
  filter (λ f, active f && movable promotions f = true) flights.

Lemma initial_entries_at p promotions flights e :
  grid_wf p → e ∈ initial_entries p promotions flights → protected_at p promotions e.
Proof.
  intros Hwf. unfold initial_entries, sortEntries. rewrite elem_of_sort_slice, list_elem_of_omap.
  intros (o & Ho & He). destruct o as [w|e']; [done|]. injection He as ->.
  unfold protected_outcomes in Ho. apply list_elem_of_fmap in Ho as (f & Hf & _).
  by eapply protected_entry_facts.
Qed.

Lemma initial_separated p promotions flights :
  grid_wf p → separated p (initial_entries p promotions flights) ∧
              Forall (λ e, movable_entry e = false) (initial_entries p promotions flights).
Proof.
  intros Hwf.
  assert (Hm : Forall (λ e, movable_entry e = false) (initial_entries p promotions flights)).
  { apply Forall_forall. intros e He. by apply (pa_movable p promotions), (initial_entries_at p promotions flights). }
  split; [|done]. apply separated_protected; [apply sortEntries_settled| |done].
  apply Forall_forall. intros e He. by apply (pa_started p promotions), (initial_entries_at p promotions flights).
Qed.

(** Without a protected-slot warning every protected flight has its entry. *)
Lemma protected_all_kept p promotions (l : list preparedFlight) :
  grid_wf p → omap left_of (protected_entry p promotions <$> l) = [] →
  ae_flight <$> omap right_of (protected_entry p promotions <$> l) = l.
Proof.
  intros Hwf. induction l as [|f l IH]; [done|]. rewrite fmap_cons. csimpl.
  destruct (protected_entry p promotions f) as [w|e] eqn:E; simpl; [done|].
  intros H. destruct (protected_entry_facts p promotions f e Hwf E) as [-> _].
  f_equal. by apply IH.
Qed.

Lemma initial_flights p promotions flights :
  grid_wf p → omap left_of (protected_outcomes p promotions flights) = [] →
  ae_flight <$> initial_entries p promotions flights ≡ₚ
  filter (λ f, active f && negb (movable promotions f) = true) flights.
Proof.
  intros Hwf H. unfold initial_entries. rewrite sortEntries_perm. unfold protected_outcomes in *.
  rewrite protected_all_kept by done. apply sort_slice_perm.
Qed.

(** ** One runway group: what the stages guarantee together *)

Record group_result (p : preparedPolicy) (promotions : gmap string Slot) (flights : list preparedFlight)
    (entries : list allocatedEntry) (warnings : list Warning) : Prop := {
  gr_stages : ∃ middle,
    sequenced p (initial_entries p promotions flights) (movable_flights promotions flights) middle ∧
    exchanged p middle entries;
  gr_warnings : warnings = (flights ≫= flight_warnings p) ++ omap left_of (protected_outcomes p promotions flights)
        ++ spacing_warnings p (protected_entries entries)
}.

Lemma generateGroup_facts p flights promotions entries warnings :
  grid_wf p → po_ContinuousSpacing p = true →
  generateGroup p flights promotions = Ok (entries, warnings) → group_result p promotions flights entries warnings.
Proof.
  intros Hwf Hcont H. unfold generateGroup in H.
  fold (initial_entries p promotions flights) (movable_flights promotions flights) in H.
  destruct (initial_separated p promotions flights Hwf) as [Hsep Hm].
  bind_inv H. bind_inv H. bind_inv H. bind_inv H. injection H as <- <-. apply order_perm in E.
  split; [|done]. exists r1.
  assert (Hseq : sequenced p (initial_entries p promotions flights) r r0).
  { apply allocation_sequenced; [done|]. apply allocate_facts; [done|done|done|by apply protected_placed|done]. }
  apply (optimizeMovableOrder_facts p _ Hwf Hcont Hsep Hm) in E1 as [Hseq1 _]; [|done]. split.
  - eapply sequenced_perm; [|exact Hseq1]. by apply fmap_Permutation.
  - apply optimizeStable_facts; [apply Hseq1|apply Hseq1|done].
Qed.

(** Conflict-free warnings: nothing was left out and the protected spacing holds. *)
Lemma conflict_free p promotions flights entries :
  existsb is_conflict ((flights ≫= flight_warnings p) ++ omap left_of (protected_outcomes p promotions flights)
        ++ spacing_warnings p (protected_entries entries)) = false →
  omap left_of (protected_outcomes p promotions flights) = [] ∧ chain (λ a b, adjacentValid p a b = true) (protected_entries entries).
Proof.
  rewrite !existsb_app. intros H. apply orb_false_iff in H as [_ [H1 H2]%orb_false_iff]. split.
  - unfold protected_outcomes in *. destruct (omap left_of _) as [|w l] eqn:E; [done|].
    assert (Hw : w ∈ omap left_of (protected_entry p promotions <$>
        sort_slice flightLess (filter (λ f, active f && negb (movable promotions f) = true) flights))) by (rewrite E; left).
    apply list_elem_of_omap in Hw as (o & Ho & Hl). destruct o as [w'|]; [|done]. injection Hl as ->.
    apply list_elem_of_fmap in Ho as (f & Hf & _). symmetry in Hf. apply protected_entry_warning in Hf.
    simpl in H1. by rewrite Hf in H1.
  - generalize dependent (protected_entries entries). intros l. clear. induction l as [|a l IH]; [done|].
    destruct l as [|b l]; [done|]. cbn [spacing_warnings]. rewrite existsb_app. intros [H1 H2]%orb_false_iff.
    change (adjacentValid p a b = true ∧ chain (λ a b, adjacentValid p a b = true) (b :: l)). split; [|by apply IH].
    unfold spacing_warning in H1. destruct (adjacentValid p a b); [done|]. by destruct (_ && _).
Qed.

Lemma group_adjacent p promotions flights entries warnings :
  group_result p promotions flights entries warnings → existsb is_conflict warnings = false →
  chain (λ a b, adjacentValid p a b = true) entries.
Proof.
  intros [(l & _ & Hx) ->] Hc. apply conflict_free in Hc as [_ Hprot].
  apply (chain_filter_merge (λ e, movable_entry e = false)); [|done].
  eapply chain_mono; [|apply (sep_spaced _ _ (xc_separated _ _ _ Hx))].
  intros a b Hs [H|H]; apply Hs; [left|right]; by apply not_false_is_true.
Qed.

Lemma group_flights_kept p promotions flights entries warnings :
  grid_wf p → group_result p promotions flights entries warnings → existsb is_conflict warnings = false →
  erase <$> (ae_flight <$> entries) ≡ₚ erase <$> filter (λ f, active f = true) flights.
Proof.
  intros Hwf [(l & Hs & Hx) ->] Hc. apply conflict_free in Hc as [Hkept _].
  rewrite (xc_flights _ _ _ Hx), (sequenced_flights _ _ _ _ Hs). apply fmap_Permutation.
  rewrite initial_flights by done. unfold movable_flights. rewrite Permutation_app_comm. apply filter_split.
Qed.

(** Entries that no exchange may touch are entries of the middle stage. *)
Lemma exchanged_fixed p l0 l e :
  exchanged p l0 l → e ∈ l → exchangeable e = false → ∃ e0, e0 ∈ l0 ∧ erase_entry e0 = erase_entry e.
Proof.
  intros Hx He Hn. apply list_elem_of_lookup in He as [i Hi].
  destruct (Forall2_lookup_r _ _ _ _ _ (xc_slots _ _ _ Hx) Hi) as (e0 & Hi0 & Hs).
  exists e0. split; [by apply list_elem_of_lookup_2 in Hi0|]. apply (ss_fixed _ _ Hs). by rewrite (ss_exchangeable _ _ Hs).
Qed.

Lemma protected_entry_initial p promotions flights entries warnings e :
  grid_wf p → group_result p promotions flights entries warnings → e ∈ entries →
  movable_entry e = false → exchangeable e = false →
  ∃ e0, protected_at p promotions e0 ∧ erase_entry e0 = erase_entry e.
Proof.
  intros Hwf [(l & Hs & Hx) _] He Hm Hn. destruct (exchanged_fixed p l entries e Hx He Hn) as (e1 & He1 & Hee).
  assert (Hm1 : movable_entry e1 = false) by (rewrite <-Hm; exact (f_equal movable_entry Hee)).
  assert (Hin : erase_entry e1 ∈ erase_entry <$> protected_entries l).
  { apply list_elem_of_fmap. exists e1. split; [done|]. apply list_elem_of_filter. done. }
  rewrite (sq_protected _ _ _ _ Hs) in Hin. apply list_elem_of_fmap in Hin as (e0 & He0 & Hin0).
  exists e0. split; [by eapply initial_entries_at|]. by rewrite <-Hee.
Qed.

(** A frozen flight that is not promoted sits on its captured slot. *)
Lemma group_frozen p promotions flights entries warnings e :
  grid_wf p → group_result p promotions flights entries warnings → e ∈ entries →
  movable_entry e = false → frozen (fl_FreezeReason (ae_flight e)) = true →
  promotions !! fl_Callsign (ae_flight e) = None →
  ∃ slot, fl_CapturedSlot (ae_flight e) = Some slot ∧ ae_time e = sl_Time slot ∧ protected_slot_invalid p slot = false.
Proof.
  intros Hwf Hg He Hm Hfr Hp.
  assert (Hn : exchangeable e = false).
  { unfold exchangeable, stableSwapEligible. unfold frozen in Hfr. apply negb_true_iff in Hfr.
    rewrite Hfr. by rewrite !andb_false_r. }
  destruct (protected_entry_initial _ _ _ _ _ _ Hwf Hg He Hm Hn) as (e0 & [_ _ _ (slot & Hslot & Ht & Hi)] & Hee).
  pose proof (f_equal ae_time Hee) as Htt. pose proof (f_equal (λ x, fl_CapturedSlot (ae_flight x)) Hee) as Hc.
  pose proof (f_equal (λ x, fl_Callsign (ae_flight x)) Hee) as Hcs. pose proof (f_equal (λ x, fl_FreezeReason (ae_flight x)) Hee) as Hf.
  simpl in Htt, Hc, Hcs, Hf. exists slot. split_and!; [|congruence|done]. rewrite <-Hc. rewrite <-Hcs in Hp. rewrite <-Hf in Hfr.
  unfold protected_slot in Hslot. rewrite Hp in Hslot. unfold frozen in Hfr. apply negb_true_iff in Hfr.
  by rewrite Hfr, andb_false_r in Hslot.
Qed.

(** Only movable flights are moved. *)
Lemma group_movable p promotions flights entries warnings e :
  group_result p promotions flights entries warnings → e ∈ entries → movable_entry e = true →
  ∃ f, f ∈ movable_flights promotions flights ∧ erase f = erase (ae_flight e).
Proof.
  intros [(l & Hs & Hx) _] He Hm.
  assert (Hn : exchangeable e = false).
  { unfold exchangeable, movable_entry, reason_is in *. apply str_eqb_eq in Hm. rewrite Hm. apply andb_false_r. }
  destruct (exchanged_fixed p l entries e Hx He Hn) as (e1 & He1 & Hee).
  assert (Hin : erase (ae_flight e1) ∈ erase <$> (ae_flight <$> movable_entries l)).
  { do 2 apply list_elem_of_fmap_2. apply list_elem_of_filter. split; [|done].
    rewrite <-Hm. exact (f_equal movable_entry Hee). }
  rewrite (sq_movable _ _ _ _ Hs) in Hin. apply list_elem_of_fmap in Hin as (f & Hf & Hin).
  exists f. split; [done|]. rewrite <-Hf. exact (f_equal ae_flight Hee).
Qed.

Lemma group_frozen_protected p promotions flights entries warnings e :
  group_result p promotions flights entries warnings → e ∈ entries →
  frozen (fl_FreezeReason (ae_flight e)) = true → movable_entry e = false.
Proof.
  intros Hg He Hf. destruct (movable_entry e) eqn:Hm; [|done].
  destruct (group_movable _ _ _ _ _ _ Hg He Hm) as (f & Hin & Hee).
  apply list_elem_of_filter in Hin as [Hmov _]. unfold movable in Hmov. unfold frozen in Hf.
  pose proof (f_equal (λ x : preparedFlight, fl_FreezeReason x) Hee) as Hfr. simpl in Hfr. rewrite Hfr in Hmov.
  apply negb_true_iff in Hf. rewrite Hf in Hmov. by rewrite andb_false_r in Hmov.
Qed.

(** ** The groups of a calculation *)

Record run := mk_run { run_group : string; run_entries : list allocatedEntry; run_warnings : list Warning }.

Definition run_of (policies : gmap string preparedPolicy) (flights : gmap string (list preparedFlight))
    (promotions : gmap string Slot) (r : run) : Prop :=
  ∃ p, policies !! run_group r = Some p ∧
       generateGroup p (default [] (flights !! run_group r)) promotions = Ok (run_entries r, run_warnings r).

Definition run_candidates (r : run) : list CandidateEntry :=
  imap (λ i e, candidate_entry (run_group r) (Z.of_nat i + 1) e) (run_entries r).

Lemma add_entries_spec group k entries r :
  re_Entries (add_entries group k entries r) =
    re_Entries r ++ imap (λ i e, candidate_entry group (Z.of_nat (k + i) + 1) e) entries ∧
  re_Warnings (add_entries group k entries r) = re_Warnings r.
Proof.
  revert k r. induction entries as [|e l IH]; intros k r; cbn [add_entries]; [by rewrite app_nil_r|].
  destruct (IH (S k) (add_entry group k e r)) as [-> ->]. split; [|done].
  unfold add_entry. cbn [re_Entries]. rewrite imap_cons, <-app_assoc. simpl. do 2 f_equal; [f_equal; lia|].
  apply imap_ext. intros i x _. simpl. f_equal. lia.
Qed.

Lemma generate_runs policies flights promotions groups r r' :
  fold_outcome (generate_one policies flights promotions) r groups = Ok r' →
  ∃ runs, run_group <$> runs = groups ∧ Forall (run_of policies flights promotions) runs ∧
    re_Entries r' = re_Entries r ++ (runs ≫= run_candidates) ∧ re_Warnings r' = re_Warnings r ++ (runs ≫= run_warnings).
Proof.
  revert r. induction groups as [|g l IH]; intros r H; simpl in H.
  - injection H as <-. exists []. split_and!; [done|done|by rewrite app_nil_r..].
  - bind_inv H. destruct (IH _ H) as (runs & Hg & Hr & He & Hw). unfold generate_one in E. bind_inv E. bind_inv E.
    destruct r2 as [entries warnings]. injection E as <-.
    exists (mk_run g entries warnings :: runs). split_and!.
    + by rewrite fmap_cons, Hg.
    + constructor; [|done]. exists r1. simpl. split; [|done]. destruct (policies !! g); [by injection E0 as ->|done].
    + destruct (add_entries_spec g 0 entries (mk_result (re_Operations r) (re_Entries r) (re_Movements r) (re_Warnings r ++ warnings))) as [Hes _].
      rewrite He, Hes. simpl. by rewrite <-app_assoc.
    + destruct (add_entries_spec g 0 entries (mk_result (re_Operations r) (re_Entries r) (re_Movements r) (re_Warnings r ++ warnings))) as [_ Hws].
      rewrite Hw, Hws. simpl. by rewrite <-app_assoc.
Qed.

Record generated (input : Input) (promotions : gmap string Slot) (r : Result)
    (policies : gmap string preparedPolicy) (flights : gmap string (list preparedFlight)) (runs : list run) : Prop := {
  ge_prepared : prepareInput input = Ok (policies, flights);
  ge_runs : Forall (run_of policies flights promotions) runs;
  ge_groups : run_group <$> runs ≡ₚ (map_to_list policies).*1;
  ge_entries : re_Entries r = runs ≫= run_candidates;
  ge_warnings : re_Warnings r ≡ₚ runs ≫= run_warnings
}.

Lemma generate_generated input promotions r :
  generate input promotions = Ok r → ∃ policies flights runs, generated input promotions r policies flights runs.
Proof.
  intros H. unfold generate in H. bind_inv H. destruct r0 as [policies flights]. bind_inv H. injection H as <-.
  apply generate_runs in E0 as (runs & Hg & Hr & He & Hw). exists policies, flights, runs.
  split; [done|done|rewrite Hg; apply sort_slice_perm|done|]. simpl. unfold sortWarnings. by rewrite sort_slice_perm, Hw.
Qed.

Lemma existsb_perm {A} (f : A → bool) l l' : l ≡ₚ l' → existsb f l = existsb f l'.
Proof.
  intros Hp. apply eq_true_iff_eq. rewrite !existsb_exists. setoid_rewrite <-list_elem_of_In. by setoid_rewrite Hp.
Qed.

Lemma existsb_bind {A B} (f : B → bool) (g : A → list B) l a :
  a ∈ l → existsb f (l ≫= g) = false → existsb f (g a) = false.
Proof.
  induction l as [|x l IH]; [by intros ?%elem_of_nil|]. simpl. rewrite existsb_app.
  intros [->|Ha]%elem_of_cons [? ?]%orb_false_iff; auto.
Qed.

Definition continuous (input : Input) : Prop := Forall (λ raw, po_ContinuousSpacing raw = true) (in_Policies input).

(** Every entry is for a flight of the group. *)
Lemma group_entry_flight p promotions flights entries warnings e :
  grid_wf p → group_result p promotions flights entries warnings → e ∈ entries →
  ∃ f, f ∈ flights ∧ active f = true ∧ erase f = erase (ae_flight e).
Proof.
  intros Hwf [(l & Hs & Hx) _] He.
  assert (Hin : erase (ae_flight e) ∈ erase <$> (ae_flight <$> entries)) by (by do 2 apply list_elem_of_fmap_2).
  rewrite (xc_flights _ _ _ Hx), (sequenced_flights _ _ _ _ Hs) in Hin.
  apply list_elem_of_fmap in Hin as (f & Hf & Hin). apply elem_of_app in Hin as [Hin|Hin].
  - apply list_elem_of_fmap in Hin as (e0 & -> & Hin). unfold initial_entries, sortEntries in Hin.
    rewrite elem_of_sort_slice, list_elem_of_omap in Hin. destruct Hin as (o & Ho & Hr). destruct o as [|e0']; [done|].
    injection Hr as ->. unfold protected_outcomes in Ho. apply list_elem_of_fmap in Ho as (f & Hpe & Hf0).
    apply elem_of_sort_slice, list_elem_of_filter in Hf0 as [Ha Hf0]. symmetry in Hpe.
    destruct (protected_entry_facts p promotions f e0 Hwf Hpe) as [Hfe _]. apply andb_true_iff in Ha as [Ha _].
    exists f. split_and!; [done|done|]. by rewrite Hf, Hfe.
  - apply list_elem_of_filter in Hin as [Ha Hin]. apply andb_true_iff in Ha as [Ha _]. by exists f.
Qed.

(** ** Separation of the result *)

(** The wake minimum of two published categories. *)
Definition wake_minimum (p : preparedPolicy) (leading trailing : string) : Duration :=
  match pp_spacing p !! (leading, trailing) with Some d => d | None => pp_fallback p end.

Definition category_known (p : preparedPolicy) (f : preparedFlight) : Prop :=
  pf_known f = bool_decide (pf_category f ∈ pp_categories p).

Lemma wakeGap_minimum id p a b :
  policy_wf id p → category_known p a → category_known p b → wakeGap p a b = wake_minimum p (pf_category a) (pf_category b).
Proof.
  intros Hp Ha Hb. unfold wakeGap, wake_minimum. rewrite Ha, Hb.
  destruct (pp_spacing p !! (pf_category a, pf_category b)) as [d|] eqn:E.
  - destruct (pw_keys _ _ Hp _ _ _ E). by rewrite !bool_decide_true.
  - case_bool_decide as Hca; [|done]. case_bool_decide as Hcb; [|done]. simpl.
    destruct (pw_complete _ _ Hp _ _ Hca Hcb) as [d Hd]. by rewrite Hd in E.
Qed.

(** Two candidates of one group at least the rate interval and the wake minimum apart. *)
Definition separated_candidates (p : preparedPolicy) (a b : CandidateEntry) : Prop :=
  ns (ce_Time a) + Z.max (intervalAt p (ce_Time b)) (wake_minimum p (ce_WakeCategory a) (ce_WakeCategory b))
  ≤ ns (ce_Time b) ∧ ns (ce_Time a) < ns (ce_Time b).

Lemma run_candidates_lookup r c :
  c ∈ run_candidates r → ∃ i e, run_entries r !! i = Some e ∧ c = candidate_entry (run_group r) (Z.of_nat i + 1) e.
Proof.
  unfold run_candidates. rewrite list_elem_of_lookup. intros [i Hi]. rewrite list_lookup_imap in Hi.
  destruct (run_entries r !! i) as [e|] eqn:E; [|done]. injection Hi as <-. eauto.
Qed.

Section calculation.
Context (input : Input) (promotions : gmap string Slot) (r : Result).
Context (policies : gmap string preparedPolicy) (flights : gmap string (list preparedFlight)) (runs : list run).
Hypothesis Htyped : typed_input input.
Hypothesis Hcont : continuous input.
Hypothesis Hgen : generated input promotions r policies flights runs.

Lemma calculation_input : input_ok input policies flights.
Proof using Htyped Hgen. apply prepareInput_ok; [done|apply Hgen]. Qed.

Lemma calculation_policy group p :
  policies !! group = Some p → policy_wf group p ∧ po_ContinuousSpacing p = true.
Proof using Htyped Hcont Hgen.
  intros Hp. destruct (io_policies _ _ _ calculation_input group p Hp) as (Hwf & raw & Hraw & gaps & closures & Hpol & _).
  split; [done|]. rewrite Hpol. simpl. unfold continuous in Hcont. rewrite Forall_forall in Hcont. by apply Hcont.
Qed.

Lemma calculation_run ru :
  ru ∈ runs → ∃ p, policies !! run_group ru = Some p ∧ policy_wf (run_group ru) p ∧ po_ContinuousSpacing p = true ∧
    group_result p promotions (default [] (flights !! run_group ru)) (run_entries ru) (run_warnings ru).
Proof using Htyped Hcont Hgen.
  intros Hr. pose proof (ge_runs _ _ _ _ _ _ Hgen) as Hruns. rewrite Forall_forall in Hruns.
  destruct (Hruns ru Hr) as (p & Hp & Hg). destruct (calculation_policy _ _ Hp) as [Hwf Hc].
  exists p. split_and!; [done|done|done|]. apply generateGroup_facts; [apply Hwf|done|done].
Qed.

(** A candidate belongs to the run of its group. *)
Lemma calculation_candidate c :
  c ∈ re_Entries r → ∃ ru i e, ru ∈ runs ∧ run_entries ru !! i = Some e ∧
    c = candidate_entry (run_group ru) (Z.of_nat i + 1) e.
Proof using Hgen.
  rewrite (ge_entries _ _ _ _ _ _ Hgen), list_elem_of_bind. intros (ru & Hc & Hr).
  apply run_candidates_lookup in Hc as (i & e & ? & ->). eauto 6.
Qed.

Lemma calculation_groups : NoDup (run_group <$> runs).
Proof using Hgen. rewrite (ge_groups _ _ _ _ _ _ Hgen). apply NoDup_fst_map_to_list. Qed.

Lemma calculation_same_run ru ru' : ru ∈ runs → ru' ∈ runs → run_group ru = run_group ru' → ru = ru'.
Proof using Hgen.
  intros H H' Hg. apply list_elem_of_lookup in H as [i Hi]. apply list_elem_of_lookup in H' as [j Hj].
  assert (i = j) as ->; [|congruence]. eapply NoDup_lookup; [exact calculation_groups| |].
  - rewrite list_lookup_fmap, Hi. done.
  - rewrite list_lookup_fmap, Hj. simpl. by rewrite Hg.
Qed.

Lemma calculation_conflict ru : HasConflicts r = false → ru ∈ runs → existsb is_conflict (run_warnings ru) = false.
Proof using Hgen.
  unfold HasConflicts. rewrite (existsb_perm _ _ _ (ge_warnings _ _ _ _ _ _ Hgen)). intros H Hr. by eapply existsb_bind.
Qed.
End calculation.

(** ** Termination *)

Lemma generateGroup_returns p flights promotions :
  grid_wf p → grid_horizon p → (∀ sub, sub ⊆ movable_flights promotions flights → ¬ deadlocked p sub) →
  returns (generateGroup p flights promotions).
Proof.
  intros Hwf Hh Hnd. unfold generateGroup. fold (movable_flights promotions flights).
  destruct (order_returns p _ Hnd) as [l ->]. cbn [mbind outcome_bind].
  apply returns_bind; [by apply allocate_returns|]. intros a _.
  apply returns_bind; [by apply optimizeMovableOrder_returns|]. intros b _.
  destruct (optimizeStable_returns p b) as [c ->]. done.
Qed.
