(* ===== verification/SequenceExamples.v ===== *)
(** * Concrete calculations

    Inputs on which the properties are instantiated: a runway group with a
    frozen heavy and two movable mediums, and three arrivals whose holding
    precedences form a cycle. *)

From S2P Require Import Prelude GoTime SequenceData SequenceGrid SequenceSpacing SequenceOrder.
From S2P Require Import SequencePlacement SequencePrepare SequenceEngine.

Local Open Scope Z_scope.

(** Minutes and seconds after a fixed instant. *)
Definition clock (minutes seconds : Z) : Time :=
  mk_time (63000000000 * Second + minutes * Minute + seconds * Second) true.

Definition ex_group : string := "22L".

Definition ex_policy (rate : Z) (gaps : list Gap) (closures : list RunwayClosure) : Policy :=
  mk_policy ex_group true false [mk_rate (clock 0 0) rate] gaps closures (30 * Second)
    CPHSeparationRules (3 * Minute) (mk_spacing false 0 0).

Definition ex_flight (callsign wake : string) (state : FlightState) (teta : Time) : Flight :=
  mk_flight [] callsign ex_group state None teta None None wake "" "" None None FreezeNone None None
    None None "" None "" None 0 None None false None false None false false None.

Definition ex_slot (t : Time) (sequence : Z) : Slot := mk_slot t ex_group sequence 1 "rate_wtc".

Definition ex_frozen : Flight :=
  set_CapturedSlot (Some (ex_slot (clock 20 0) 1))
    (set_FrozenOperationalTETA (Some (clock 19 30)) (set_FrozenAt (Some (clock 1 0))
      (set_FreezeReason FreezeTMA (ex_flight "SAS1" "H" StateStable (clock 19 50))))).

Definition ex_input : Input :=
  mk_input 7
    [ex_policy 30 [mk_gap (clock 40 0) (clock 45 0)] [mk_closure "c1" (clock 60 0) (Some (clock 70 0)) "snow" (clock 0 0) "ctl"]] []
    [ex_frozen; ex_flight "SAS2" "M" StateUnstable (clock 20 10); ex_flight "SAS3" "M" StateUnstable (clock 18 5);
     ex_flight "SAS4" "L" StateLanded (clock 3 0)].

Definition result_or_empty (m : outcome Result) : Result :=
  match m with Ok r => r | _ => mk_result [] [] [] [] end.

Definition ex_result : Result := result_or_empty (generate ex_input ∅).
Definition ex_entry (i : nat) : CandidateEntry :=
  nth i (re_Entries ex_result) (mk_entry "" "" 0 zero_time zero_time "" FreezeNone false "").

Lemma ex_policy_typed rate gaps closures : in_uint32 rate → typed_policy (ex_policy rate gaps closures).
Proof.
  intros Hrate. refine (conj _ (conj _ (conj _ _))).
  - by apply Forall_singleton.
  - split; vm_compute; [discriminate|reflexivity].
  - split; vm_compute; [discriminate|reflexivity].
  - apply Forall_forall. intros r Hr. apply (bool_decide_unpack (- 2^63 ≤ sr_Minimum r ∧ sr_Minimum r < 2^63)).
    revert r Hr. apply Forall_forall. repeat (apply Forall_cons; split; [vm_compute; exact I|]). apply Forall_nil_2.
Qed.

Lemma ex_typed : typed_input ex_input.
Proof. apply Forall_singleton, ex_policy_typed. split; vm_compute; [discriminate|reflexivity]. Qed.

Lemma ex_continuous : continuous ex_input.
Proof. by repeat constructor. Qed.

Lemma ex_generated : generate ex_input ∅ = Ok ex_result.
Proof. vm_compute. reflexivity. Qed.

Lemma ex_no_conflicts : HasConflicts ex_result = false.
Proof. vm_compute. reflexivity. Qed.

Lemma ex_entry_in i : (i < 3)%nat → ex_entry i ∈ re_Entries ex_result.
Proof.
  intros Hi. apply list_elem_of_lookup. exists i.
  do 3 (destruct i as [|i]; [vm_compute; reflexivity|]). lia.
Qed.

(** The prepared policy of the group. *)
Definition ex_prepared : preparedPolicy :=
  match prepareInput ex_input with
  | Ok (policies, _) => default (mk_ppolicy (ex_policy 0 [] []) [] ∅ ∅ 0 (mk_pfamilies ∅ false) [] ∅) (policies !! ex_group)
  | _ => mk_ppolicy (ex_policy 0 [] []) [] ∅ ∅ 0 (mk_pfamilies ∅ false) [] ∅
  end.

Lemma ex_rate s : ns (clock 0 0) ≤ ns s → rateAt ex_prepared s = 30.
Proof.
  intros Hs. assert (Hr : pp_rates ex_prepared = [mk_rate (clock 0 0) 30]) by (vm_compute; reflexivity).
  unfold rateAt. rewrite Hr. unfold sort_search_list, sort_search, after. simpl in *.
  by rewrite (proj2 (Z.ltb_ge _ _) Hs).
Qed.

Lemma ex_horizon : input_horizon ex_input.
Proof. repeat constructor; vm_compute; discriminate. Qed.

Lemma ex_no_holding : Forall no_holding (in_Flights ex_input).
Proof. by repeat constructor. Qed.

(** ** A cycle of holding precedences

    [A] and [B] hold at one fix with release ranks 1 and 2, [C] holds at
    another fix without a rank: [A] before [B] by rank, [B] before [C] and [C]
    before [A] by the instants at which they started holding. *)

Definition ex_holding (callsign queue : string) (since : Time) (rank : option Z) : Flight :=
  set_ReleaseRank rank
    (set_ArrivalQueueTime (Some since)
      (set_ActiveHoldingSince (Some since)
        (mk_flight [] callsign ex_group StateUnstable None (clock 30 0) None None "M" "" "" None None FreezeNone None None
           None None "" None queue (Some since) 0 None None false None false None false false None))).

Definition cycle_input : Input :=
  mk_input 7 [ex_policy 30 [] []] []
    [ex_holding "AAA1" "ERNOV" (clock 5 0) (Some 1);
     ex_holding "BBB2" "ERNOV" (clock 1 0) (Some 2);
     ex_holding "CCC3" "TUDLO" (clock 3 0) None].
