(* ===== verification/SequenceSafety.v ===== *)
(** * Correctness of a whole calculation

    The properties of [generate] ([engine.go]): runway separation, capacity,
    completeness, frozen slots, bounds of movable slots, and termination. The
    concrete inputs at the end instantiate them. *)

From S2P Require Import Prelude GoTime SequenceData SequenceGrid SequenceSpacing SequenceOrder.
From S2P Require Import SequencePlacement SequenceAllocation SequenceOptimize SequencePrepare SequenceEngine SequenceExamples.

Local Open Scope Z_scope.

(** ** Shared facts *)

Lemma chain_adjacent_order p l i j a b :
  chain (λ a b, adjacentValid p a b = true) l → (i < j)%nat → l !! i = Some a → l !! j = Some b → entry_ns a < entry_ns b.
Proof.
  intros Hc Hij Ha Hb. eapply (chain_trans_lookup (λ a b, entry_ns a < entry_ns b) l i j); [intros; lia| |done..].
  eapply chain_mono; [|exact Hc]. intros ? ? H. exact (adjacentValid_lt p _ _ H).
Qed.

(** Any two entries are at least the interval in force at the later one apart. *)
Lemma chain_adjacent_interval p l i j a b :
  grid_wf p → chain (λ a b, adjacentValid p a b = true) l → (i < j)%nat → l !! i = Some a → l !! j = Some b →
  entry_ns a + intervalAt p (ae_time b) ≤ entry_ns b.
Proof.
  intros Hwf Hc Hij Ha Hb. destruct j as [|j]; [lia|].
  destruct (lookup_lt_is_Some_2 l j) as [m Hm]; [apply lookup_lt_Some in Hb; lia|].
  pose proof (proj1 (chain_lookup _ _) Hc j m b Hm Hb) as Hmb.
  destruct (adjacentValid_spec p m b Hwf Hmb) as [_ Hgap].
  pose proof (requiredGap_base p (ae_flight m) (ae_flight b) (ae_time b)).
  assert (entry_ns a ≤ entry_ns m); [|unfold entry_ns in *; lia].
  destruct (decide (i = j)) as [->|]; [assert (a = m) as -> by congruence; lia|].
  pose proof (chain_adjacent_order p l i j a m Hc ltac:(lia) Ha Hm). lia.
Qed.

Section calculation.
Context (input : Input) (promotions : gmap string Slot) (r : Result).
Context (policies : gmap string preparedPolicy) (flights : gmap string (list preparedFlight)) (runs : list run).
Hypothesis Htyped : typed_input input.
Hypothesis Hcont : continuous input.
Hypothesis Hgen : generated input promotions r policies flights runs.

Lemma run_facts ru :
  ru ∈ runs → ∃ p, policies !! run_group ru = Some p ∧ policy_wf (run_group ru) p ∧ po_ContinuousSpacing p = true ∧
    group_result p promotions (default [] (flights !! run_group ru)) (run_entries ru) (run_warnings ru).
Proof using Htyped Hcont Hgen. by apply (calculation_run input promotions r policies flights runs). Qed.

Lemma entry_category ru i e p :
  ru ∈ runs → policies !! run_group ru = Some p → run_entries ru !! i = Some e → category_known p (ae_flight e).
Proof using Htyped Hcont Hgen.
  intros Hr Hp He. destruct (run_facts ru Hr) as (p' & Hp' & Hwf & _ & Hg). simplify_eq.
  apply list_elem_of_lookup_2 in He.
  destruct (group_entry_flight _ _ _ _ _ _ (pw_grid _ _ Hwf) Hg He) as (f & Hf & _ & Hee).
  pose proof (io_known_category _ _ _ (calculation_input input promotions r policies flights runs Htyped Hgen) _ _ Hp) as Hk.
  rewrite Forall_forall in Hk. specialize (Hk f Hf). unfold category_known.
  pose proof (f_equal pf_known Hee) as H1. pose proof (f_equal pf_category Hee) as H2. simpl in H1, H2.
  by rewrite <-H1, <-H2.
Qed.

(** Two candidates of one group come from one run, at the positions of their sequence numbers. *)
Lemma same_group_run a b :
  a ∈ re_Entries r → b ∈ re_Entries r → ce_RunwayGroupID a = ce_RunwayGroupID b →
  ∃ ru i j ea eb, ru ∈ runs ∧ run_entries ru !! i = Some ea ∧ run_entries ru !! j = Some eb ∧
    a = candidate_entry (run_group ru) (Z.of_nat i + 1) ea ∧ b = candidate_entry (run_group ru) (Z.of_nat j + 1) eb.
Proof using Hgen.
  intros Ha Hb Hab.
  destruct (calculation_candidate input promotions r policies flights runs Hgen a Ha) as (ru & i & ea & Hru & Hi & ->).
  destruct (calculation_candidate input promotions r policies flights runs Hgen b Hb) as (ru' & j & eb & Hru' & Hj & ->).
  assert (ru' = ru) as -> by (eapply calculation_same_run; eauto). eauto 10.
Qed.

Lemma run_adjacent ru p :
  HasConflicts r = false → ru ∈ runs → policies !! run_group ru = Some p →
  grid_wf p ∧ policy_wf (run_group ru) p ∧ chain (λ a b, adjacentValid p a b = true) (run_entries ru).
Proof using Htyped Hcont Hgen.
  intros Hc Hr Hp. destruct (run_facts ru Hr) as (p' & Hp' & Hwf & _ & Hg). simplify_eq.
  split_and!; [apply Hwf|done|]. eapply group_adjacent; [exact Hg|]. by eapply calculation_conflict.
Qed.

Lemma consecutive_separated a b :
  HasConflicts r = false → a ∈ re_Entries r → b ∈ re_Entries r → ce_RunwayGroupID a = ce_RunwayGroupID b →
  ce_Sequence b = ce_Sequence a + 1 →
  ∃ p, policies !! ce_RunwayGroupID a = Some p ∧ separated_candidates p a b.
Proof using Htyped Hcont Hgen.
  intros Hc Ha Hb Hab Hseq. destruct (same_group_run a b Ha Hb Hab) as (ru & i & j & ea & eb & Hr & Hi & Hj & -> & ->).
  simpl in Hseq. assert (j = S i) as -> by lia. destruct (run_facts ru Hr) as (p & Hp & _).
  exists p. split; [done|]. destruct (run_adjacent ru p Hc Hr Hp) as (Hwf & Hpw & Hch).
  pose proof (proj1 (chain_lookup _ _) Hch i ea eb Hi Hj) as Hadj.
  destruct (adjacentValid_spec p ea eb Hwf Hadj) as [Hlt Hgap]. split; simpl; [|done].
  rewrite <-(wakeGap_minimum _ _ _ _ Hpw (entry_category ru i ea p Hr Hp Hi) (entry_category ru (S i) eb p Hr Hp Hj)).
  pose proof (requiredGap_base p (ae_flight ea) (ae_flight eb) (ae_time eb)).
  pose proof (requiredGap_wake p (ae_flight ea) (ae_flight eb) (ae_time eb)). lia.
Qed.

(** *** Completeness *)

Lemma run_callsigns ru :
  HasConflicts r = false → ru ∈ runs →
  ce_Callsign <$> run_candidates ru ≡ₚ
  fl_Callsign <$> filter (λ f, fl_RunwayGroupID f = run_group ru) (filter (λ f, inactive (fl_State f) = false) (in_Flights input)).
Proof using Htyped Hcont Hgen.
  intros Hc Hr. destruct (run_facts ru Hr) as (p & Hp & Hwf & _ & Hg).
  pose proof (group_flights_kept _ _ _ _ _ (pw_grid _ _ Hwf) Hg ltac:(by eapply calculation_conflict)) as Hk.
  pose proof (io_group _ _ _ (calculation_input input promotions r policies flights runs Htyped Hgen) (run_group ru)) as Hraw.
  set (fs := default [] (flights !! run_group ru)) in *.
  assert (Hcs : ce_Callsign <$> run_candidates ru = (λ f : preparedFlight, fl_Callsign f) <$> (erase <$> (ae_flight <$> run_entries ru))).
  { unfold run_candidates. rewrite fmap_imap, <-!list_fmap_compose. by rewrite <-imap_const. }
  rewrite Hcs, Hk, <-list_fmap_compose.
  assert (Hact : (λ f : preparedFlight, fl_Callsign f) <$> filter (λ f, active f = true) fs =
                 fl_Callsign <$> filter (λ f, inactive (fl_State f) = false) (pf_Flight <$> fs)).
  { rewrite filter_fmap, <-list_fmap_compose. f_equal. apply list_filter_iff. intros f. unfold active. by rewrite negb_true_iff. }
  replace ((λ f : preparedFlight, fl_Callsign f) ∘ erase <$> filter (λ f, active f = true) fs)
    with (fl_Callsign <$> filter (λ f, inactive (fl_State f) = false) (pf_Flight <$> fs)) by done. rewrite Hraw, filter_fmap, <-list_fmap_compose.
  rewrite (list_filter_filter (λ f, fl_RunwayGroupID f = run_group ru)), list_filter_filter.
  rewrite (list_filter_iff _ (λ f, fl_RunwayGroupID f = run_group ru ∧ inactive (fl_State f) = false)); [done|].
  intros f. simpl. tauto.
Qed.

Lemma complete_callsigns :
  HasConflicts r = false →
  ce_Callsign <$> re_Entries r ≡ₚ fl_Callsign <$> filter (λ f, inactive (fl_State f) = false) (in_Flights input).
Proof using Htyped Hcont Hgen.
  intros Hc. pose proof (calculation_input input promotions r policies flights runs Htyped Hgen) as Hin.
  set (l := filter _ (in_Flights input)).
  rewrite (ge_entries _ _ _ _ _ _ Hgen), <-(bind_filter_key fl_RunwayGroupID (run_group <$> runs) l).
  - unfold l. clear l. assert (Hsub : runs ⊆ runs) by done. revert Hsub. generalize runs at 1 3 4. intros rs.
    induction rs as [|ru rs IH]; intros Hsub; [done|].
    rewrite fmap_cons, !bind_cons, !fmap_app, run_callsigns by (done || (apply Hsub; left)).
    apply Permutation_app; [done|]. apply IH. intros x Hx. apply Hsub. by right.
  - by eapply calculation_groups.
  - apply Forall_forall. intros f Hf. apply list_elem_of_filter in Hf as [_ Hf].
    pose proof (io_known _ _ _ Hin) as Hk. rewrite Forall_forall in Hk. destruct (Hk f Hf) as [p Hp].
    rewrite (ge_groups _ _ _ _ _ _ Hgen). apply list_elem_of_fmap. exists (fl_RunwayGroupID f, p).
    split; [done|]. by apply elem_of_map_to_list.
Qed.
(** *** The entry of a flight *)

(** Every active flight of the input has an entry of its own. *)
Lemma flight_entry f :
  HasConflicts r = false → f ∈ in_Flights input → inactive (fl_State f) = false →
  ∃ ru i e, ru ∈ runs ∧ run_group ru = fl_RunwayGroupID f ∧ run_entries ru !! i = Some e ∧
    set_Operations [] (ae_flight e) =
    set_Operations [] (set_SelectedSTARFamily (canonicalSTARFamily (fl_SelectedSTARFamily f))
                         (set_STARFamily (canonicalSTARFamily (fl_STARFamily f)) f)).
Proof using Htyped Hcont Hgen.
  intros Hc Hf Hact. pose proof (calculation_input input promotions r policies flights runs Htyped Hgen) as Hin.
  pose proof (io_known _ _ _ Hin) as Hk. rewrite Forall_forall in Hk. destruct (Hk f Hf) as [p Hp].
  assert (Hru : fl_RunwayGroupID f ∈ run_group <$> runs).
  { rewrite (ge_groups _ _ _ _ _ _ Hgen). apply list_elem_of_fmap. exists (fl_RunwayGroupID f, p).
    split; [done|]. by apply elem_of_map_to_list. }
  apply list_elem_of_fmap in Hru as (ru & Hg & Hru). destruct (run_facts ru Hru) as (p' & Hp' & Hwf & _ & Hgr).
  set (f' := set_SelectedSTARFamily (canonicalSTARFamily (fl_SelectedSTARFamily f))
               (set_STARFamily (canonicalSTARFamily (fl_STARFamily f)) f)).
  assert (Hf' : f' ∈ pf_Flight <$> default [] (flights !! run_group ru)).
  { rewrite (io_group _ _ _ Hin). apply list_elem_of_fmap. exists f. split; [done|]. by apply list_elem_of_filter. }
  apply list_elem_of_fmap in Hf' as (pf & Hpf & Hin').
  pose proof (group_flights_kept _ _ _ _ _ (pw_grid _ _ Hwf) Hgr ltac:(by eapply calculation_conflict)) as Hkept.
  assert (Hen : erase pf ∈ erase <$> (ae_flight <$> run_entries ru)).
  { rewrite Hkept. apply list_elem_of_fmap_2, list_elem_of_filter. split; [|done]. unfold active. rewrite <-Hpf. simpl. by rewrite Hact. }
  apply list_elem_of_fmap in Hen as (g & Hee & Hg'). apply list_elem_of_fmap in Hg' as (e & -> & He).
  apply list_elem_of_lookup in He as [i Hi]. exists ru, i, e. split_and!; [done|by rewrite Hg|done|].
  pose proof (f_equal pf_Flight Hee) as Hfl. simpl in Hfl. rewrite <-Hpf in Hfl. by symmetry.
Qed.

Lemma run_candidate ru i e :
  ru ∈ runs → run_entries ru !! i = Some e → candidate_entry (run_group ru) (Z.of_nat i + 1) e ∈ re_Entries r.
Proof using Hgen.
  intros Hru Hi. rewrite (ge_entries _ _ _ _ _ _ Hgen). apply list_elem_of_bind. exists ru. split; [|done].
  apply list_elem_of_lookup. exists i. unfold run_candidates. by rewrite list_lookup_imap, Hi.
Qed.

(** *** Frozen flights *)

Lemma frozen_entry f :
  HasConflicts r = false → f ∈ in_Flights input → inactive (fl_State f) = false →
  frozen (fl_FreezeReason f) = true → promotions !! fl_Callsign f = None →
  ∃ e slot, e ∈ re_Entries r ∧ ce_Callsign e = fl_Callsign f ∧ ce_RunwayGroupID e = fl_RunwayGroupID f ∧
    fl_CapturedSlot f = Some slot ∧ ce_Time e = sl_Time slot ∧ sl_RunwayGroupID slot = fl_RunwayGroupID f.
Proof using Htyped Hcont Hgen.
  intros Hc Hf Hact Hfr Hnp. destruct (flight_entry f Hc Hf Hact) as (ru & i & e & Hru & Hg & Hi & Hfl).
  destruct (run_facts ru Hru) as (p & Hp & Hwf & _ & Hgr). apply list_elem_of_lookup_2 in Hi as He.
  pose proof (f_equal fl_FreezeReason Hfl) as H1. pose proof (f_equal fl_Callsign Hfl) as H2. pose proof (f_equal fl_CapturedSlot Hfl) as H3.
  simpl in H1, H2, H3. rewrite <-H1 in Hfr. rewrite <-H2 in Hnp.
  destruct (group_frozen _ _ _ _ _ e (pw_grid _ _ Hwf) Hgr He (group_frozen_protected _ _ _ _ _ _ Hgr He Hfr) Hfr Hnp)
    as (slot & Hslot & Ht & Hinv).
  exists (candidate_entry (run_group ru) (Z.of_nat i + 1) e), slot.
  split_and!; simpl; [by apply run_candidate|done|done|by rewrite <-H3|done|].
  unfold protected_slot_invalid in Hinv. bsplit. rewrite str_eqb_eq in *.
  pose proof (pw_id _ _ Hwf) as Hid. by etrans; [|etrans; [exact Hid|exact Hg]].
Qed.

(** *** Movable flights *)

Lemma movable_bounds c :
  c ∈ re_Entries r → ce_Reason c = ReasonRateWTC →
  ∃ f (p : preparedPolicy), f ∈ in_Flights input ∧ policies !! ce_RunwayGroupID c = Some p ∧
    fl_Callsign f = ce_Callsign c ∧ fl_RunwayGroupID f = ce_RunwayGroupID c ∧ fl_FreezeReason f = FreezeNone ∧
    ns (fl_OperationalTETA f) - po_EarlyTolerance p ≤ ns (ce_Time c) ∧
    (∀ t, fl_SlotNotBefore f = Some t → ns t ≤ ns (ce_Time c)) ∧ ¬ blocked p (ce_Time c).
Proof using Htyped Hcont Hgen.
  intros Hc Hr. destruct (calculation_candidate input promotions r policies flights runs Hgen c Hc) as (ru & i & e & Hru & Hi & ->).
  simpl in Hr. assert (Hm : movable_entry e = true) by (unfold movable_entry, reason_is; by apply str_eqb_eq).
  destruct (run_facts ru Hru) as (p & Hp & Hwf & _ & Hg). apply list_elem_of_lookup_2 in Hi as He.
  assert (Hpl : placed_ok p e).
  { destruct Hg as [(l & _ & Hx) _]. pose proof (xc_placed _ _ _ Hx) as Hall. rewrite Forall_forall in Hall. by apply Hall. }
  destruct (Hpl Hm) as [[Hlow _ Hub] Hnb].
  destruct (group_movable _ _ _ _ _ _ Hg He Hm) as (f & Hf & Hee). apply list_elem_of_filter in Hf as [Hmov Hf].
  pose proof (io_group _ _ _ (calculation_input input promotions r policies flights runs Htyped Hgen) (run_group ru)) as Hraw.
  assert (Hf' : pf_Flight f ∈ pf_Flight <$> default [] (flights !! run_group ru)) by by apply list_elem_of_fmap_2.
  rewrite Hraw in Hf'. apply list_elem_of_fmap in Hf' as (raw & Hfr & Hin). apply list_elem_of_filter in Hin as [Hgr Hin].
  pose proof (f_equal pf_Flight Hee) as Hfl. simpl in Hfl. rewrite Hfr in Hfl. unfold set_Operations in Hfl.
  pose proof (f_equal fl_Callsign Hfl) as H1. pose proof (f_equal fl_OperationalTETA Hfl) as H2. pose proof (f_equal fl_SlotNotBefore Hfl) as H3.
  simpl in H1, H2, H3. exists raw, p. simpl. split_and!; [done|done|done|done| | | |done].
  - unfold movable, freeze_is in Hmov. bsplit. pose proof (f_equal fl_FreezeReason Hfr) as Hfz. simpl in Hfz.
    rewrite <-Hfz. by eapply bool_decide_eq_true_1.
  - pose proof (pw_early _ _ Hwf). assert (Hw : dur_neg (po_EarlyTolerance p) = - po_EarlyTolerance p)
      by (unfold dur_neg; apply wrap64_id; unfold in_int64; lia).
    rewrite H2. etrans; [|exact Hlow]. unfold candidate_lower. rewrite Hw. destruct (fl_SlotNotBefore (ae_flight e)); [|simpl; lia].
    destruct (before _ _) eqn:Eb; time_lia.
  - rewrite H3. exact Hnb.
Qed.
End calculation.

(** ** The properties *)

(** C1: runway separation. In a result without conflicts, two consecutive
    arrivals of one runway group are apart by at least the rate interval in
    force at the second one and by the wake minimum of their categories. *)
Theorem generate_separation input promotions r a b :
  typed_input input → continuous input → generate input promotions = Ok r → HasConflicts r = false →
  a ∈ re_Entries r → b ∈ re_Entries r → ce_RunwayGroupID a = ce_RunwayGroupID b → ce_Sequence b = ce_Sequence a + 1 →
  ∃ policies flights p, prepareInput input = Ok (policies, flights) ∧
    policies !! ce_RunwayGroupID a = Some p ∧ separated_candidates p a b.
Proof.
  intros Ht Hc Hg Hn Ha Hb Hab Hs. destruct (generate_generated _ _ _ Hg) as (policies & flights & runs & Hgen).
  destruct (consecutive_separated input promotions r policies flights runs Ht Hc Hgen a b Hn Ha Hb Hab Hs) as (p & Hp & Hsep).
  exists policies, flights, p. split; [apply Hgen|done].
Qed.

Lemma generate_separation_witness :
  ∃ policies flights p, prepareInput ex_input = Ok (policies, flights) ∧
    policies !! ce_RunwayGroupID (ex_entry 0) = Some p ∧ separated_candidates p (ex_entry 0) (ex_entry 1).
Proof.
  apply (generate_separation ex_input ∅ ex_result (ex_entry 0) (ex_entry 1));
    [exact ex_typed|exact ex_continuous|exact ex_generated|exact ex_no_conflicts|apply ex_entry_in; lia|apply ex_entry_in; lia|vm_compute; reflexivity..].
Defined.

(** the arrival rate. In a result without conflicts the slots of a runway
    group are in sequence order, and any two of them, neighbours or not, are at
    least the rate interval in force at the later one apart. *)
Theorem generate_rate input promotions r a b :
  typed_input input → continuous input → generate input promotions = Ok r → HasConflicts r = false →
  a ∈ re_Entries r → b ∈ re_Entries r → ce_RunwayGroupID a = ce_RunwayGroupID b → ce_Sequence a < ce_Sequence b →
  ∃ policies flights p, prepareInput input = Ok (policies, flights) ∧ policies !! ce_RunwayGroupID a = Some p ∧
    ns (ce_Time a) + intervalAt p (ce_Time b) ≤ ns (ce_Time b) ∧ 0 < intervalAt p (ce_Time b).
Proof.
  intros Ht Hc Hg Hn Ha Hb Hab Hs. destruct (generate_generated _ _ _ Hg) as (policies & flights & runs & Hgen).
  destruct (same_group_run _ _ _ _ _ _ Hgen a b Ha Hb Hab) as (ru & i & j & ea & eb & Hr & Hi & Hj & -> & ->). simpl in Hs.
  destruct (run_facts _ _ _ _ _ _ Ht Hc Hgen ru Hr) as (p & Hp & Hpw & _ & Hgr).
  destruct (run_adjacent _ _ _ _ _ _ Ht Hc Hgen ru p Hn Hr Hp) as (Hwf & _ & Hch).
  exists policies, flights, p. split_and!; [apply Hgen|done| |].
  - apply (chain_adjacent_interval p (run_entries ru) i j ea eb); [done|done|lia|done|done].
  - destruct Hgr as [(l & _ & Hx) _]. pose proof (sep_started _ _ (xc_separated _ _ _ Hx)) as Hst.
    rewrite Forall_lookup in Hst. exact (Hst j eb Hj).
Qed.

Lemma generate_rate_witness :
  ∃ policies flights p, prepareInput ex_input = Ok (policies, flights) ∧ policies !! ce_RunwayGroupID (ex_entry 0) = Some p ∧
    ns (ce_Time (ex_entry 0)) + intervalAt p (ce_Time (ex_entry 2)) ≤ ns (ce_Time (ex_entry 2)) ∧
    0 < intervalAt p (ce_Time (ex_entry 2)).
Proof.
  apply (generate_rate ex_input ∅ ex_result (ex_entry 0) (ex_entry 2));
    [exact ex_typed|exact ex_continuous|exact ex_generated|exact ex_no_conflicts|apply ex_entry_in; lia|apply ex_entry_in; lia|vm_compute; reflexivity..].
Defined.

(** Every active flight has a candidate of its callsign and group. *)
Lemma generate_entry input promotions r f :
  typed_input input → continuous input → generate input promotions = Ok r → HasConflicts r = false →
  f ∈ in_Flights input → inactive (fl_State f) = false →
  ∃ c, c ∈ re_Entries r ∧ ce_Callsign c = fl_Callsign f ∧ ce_RunwayGroupID c = fl_RunwayGroupID f.
Proof.
  intros Ht Hc Hg Hn Hf Ha. destruct (generate_generated _ _ _ Hg) as (policies & flights & runs & Hgen).
  destruct (flight_entry _ _ _ _ _ _ Ht Hc Hgen f Hn Hf Ha) as (ru & i & e & Hru & Hgr & Hi & Hfl).
  pose proof (f_equal fl_Callsign Hfl) as Hcs. simpl in Hcs.
  exists (candidate_entry (run_group ru) (Z.of_nat i + 1) e). split_and!; [|done|done].
  eapply run_candidate; [exact Hgen|done|done].
Qed.

(** *** Hourly capacity *)

Lemma window_count I R t (l : list allocatedEntry) :
  0 < I → Hour ≤ R * I → chain (λ a b, entry_ns a + I ≤ entry_ns b) l →
  Forall (λ e, t ≤ entry_ns e < t + Hour) l → Z.of_nat (length l) ≤ R.
Proof.
  intros HI HR Hc Hw. destruct l as [|a l]; [simpl; unfold Hour, Minute, Second in *; nia|].
  destruct (last (a :: l)) as [b|] eqn:Eb; [|by apply last_None in Eb].
  pose proof (chain_span entry_ns I (a :: l) a b Hc eq_refl Eb).
  rewrite Forall_forall in Hw. pose proof (Hw a ltac:(left)). apply last_Some_elem_of in Eb. pose proof (Hw b Eb). nia.
Qed.

Lemma run_window p t R (l : list allocatedEntry) :
  grid_wf p → chain (λ a b, adjacentValid p a b = true) l → 0 < R < 2^32 →
  (∀ s, t ≤ ns s < t + Hour → rateAt p s = R) →
  Z.of_nat (length (filter (λ e, (t <=? entry_ns e) && (entry_ns e <? t + Hour) = true) l)) ≤ R.
Proof.
  intros Hwf Hc HR Hrate. pose proof (rateInterval_bounds R HR) as HI.
  set (W := λ e : allocatedEntry, (t <=? entry_ns e) && (entry_ns e <? t + Hour)).
  assert (Hcap : Hour ≤ R * rateInterval R).
  { unfold rateInterval, u64, Hour, Minute, Second in *. rewrite Z.mod_small by lia.
    pose proof (Z.div_mod (60 * (60 * 1000000000) + R - 1) R ltac:(lia)).
    pose proof (Z.mod_pos_bound (60 * (60 * 1000000000) + R - 1) R ltac:(lia)). lia. }
  assert (Hch : chain (λ a b, entry_ns a < entry_ns b ∧ (W b = true → entry_ns a + rateInterval R ≤ entry_ns b)) l).
  { apply chain_lookup. intros i a b Ha Hb. pose proof (proj1 (chain_lookup _ _) Hc i a b Ha Hb) as Hab.
    split; [exact (adjacentValid_lt p a b Hab)|]. intros Hw.
    pose proof (chain_adjacent_interval p l i (S i) a b Hwf Hc ltac:(lia) Ha Hb) as Hi.
    unfold intervalAt in Hi. rewrite Hrate in Hi; [|unfold W in Hw; apply andb_true_iff in Hw as [? ?]; zbool; unfold entry_ns in *; lia].
    destruct (Z.eqb_spec R 0); [lia|done]. }
  apply (chain_filter _ W) in Hch; [|intros a b c [? ?] [? Hbc]; split; [lia|intros Hw; specialize (Hbc Hw); lia]].
  apply (window_count (rateInterval R) R t); [lia|done| |].
  - eapply chain_mono_in; [|exact Hch]. intros a b _ Hb [_ H]. apply H. by apply list_elem_of_filter in Hb as [? _].
  - apply Forall_forall. intros e He. apply list_elem_of_filter in He as [He _]. apply andb_true_iff in He as [? ?]. zbool. lia.
Qed.

Lemma filter_runs (P : CandidateEntry → Prop) `{!∀ c, Decision (P c)} (runs : list run) ru :
  NoDup (run_group <$> runs) → ru ∈ runs → (∀ c, P c → ce_RunwayGroupID c = run_group ru) →
  filter P (runs ≫= run_candidates) = filter P (run_candidates ru).
Proof.
  intros Hnd Hr HP. apply list_elem_of_split in Hr as (r1 & r2 & ->).
  rewrite fmap_app, fmap_cons in Hnd. apply NoDup_app in Hnd as (_ & Hd & [Hn _]%NoDup_cons).
  assert (Hnone : ∀ rs, run_group ru ∉ run_group <$> rs → filter P (rs ≫= run_candidates) = []).
  { intros rs Hni. apply filter_none, Forall_forall. intros c Hc Hpc. apply list_elem_of_bind in Hc as (ru' & Hc & Hr').
    apply run_candidates_lookup in Hc as (i & e & _ & ->). apply HP in Hpc. simpl in Hpc.
    apply Hni. rewrite <-Hpc. by apply list_elem_of_fmap_2. }
  rewrite bind_app, bind_cons, !filter_app, (Hnone r1), (Hnone r2), app_nil_r; [done|done|].
  intros Hin. apply (Hd _ Hin). left.
Qed.

(** The arrivals of one group in the hour from [t]. *)
Definition in_hour (group : string) (t : Z) (c : CandidateEntry) : Prop :=
  ce_RunwayGroupID c = group ∧ (t <=? ns (ce_Time c)) && (ns (ce_Time c) <? t + Hour) = true.

#[export] Instance in_hour_dec group t c : Decision (in_hour group t c).
Proof. unfold in_hour. apply _. Defined.

(** C5: hourly capacity. In a result without conflicts, no hour during which a
    runway group's rate is [R] holds more than [R] of its arrivals. Protected slots
    that exceed the rate are reported as conflicts. *)
Theorem generate_capacity input promotions r policies flights group p R t :
  typed_input input → continuous input → generate input promotions = Ok r → HasConflicts r = false →
  prepareInput input = Ok (policies, flights) → policies !! group = Some p → 0 < R < 2^32 →
  (∀ s, t ≤ ns s < t + Hour → rateAt p s = R) →
  Z.of_nat (length (filter (in_hour group t) (re_Entries r))) ≤ R.
Proof.
  intros Ht Hc Hg Hn Hprep Hp HR Hrate. destruct (generate_generated _ _ _ Hg) as (policies' & flights' & runs & Hgen).
  pose proof (ge_prepared _ _ _ _ _ _ Hgen) as Hprep'. rewrite Hprep in Hprep'. injection Hprep' as <- <-.
  assert (Hru : group ∈ run_group <$> runs).
  { rewrite (ge_groups _ _ _ _ _ _ Hgen). apply list_elem_of_fmap. exists (group, p). split; [done|]. by apply elem_of_map_to_list. }
  apply list_elem_of_fmap in Hru as (ru & -> & Hru).
  destruct (run_adjacent _ _ _ _ _ _ Ht Hc Hgen ru p Hn Hru Hp) as (Hwf & _ & Hch).
  rewrite (ge_entries _ _ _ _ _ _ Hgen), (filter_runs _ runs ru); [|by eapply calculation_groups|done|by intros c [? _]].
  unfold run_candidates.
  rewrite (length_filter_imap _ (λ e, (t <=? entry_ns e) && (entry_ns e <? t + Hour) = true)); [by apply (run_window p)|].
  intros i e. unfold in_hour. simpl. tauto.
Qed.

Lemma generate_capacity_witness :
  Z.of_nat (length (filter (in_hour ex_group (ns (clock 0 0))) (re_Entries ex_result))) ≤ 30.
Proof.
  apply (generate_capacity ex_input ∅ ex_result
           match prepareInput ex_input with Ok (policies, _) => policies | _ => ∅ end
           match prepareInput ex_input with Ok (_, flights) => flights | _ => ∅ end
           ex_group ex_prepared 30 (ns (clock 0 0)));
    [exact ex_typed|exact ex_continuous|exact ex_generated|exact ex_no_conflicts|vm_compute; reflexivity..|lia|].
  intros s Hs. apply ex_rate. lia.
Defined.

(** C2: completeness. In a result without conflicts every active flight of the
    input has exactly one entry, and nothing else has one. *)
Theorem generate_complete input promotions r :
  typed_input input → continuous input → generate input promotions = Ok r → HasConflicts r = false →
  ce_Callsign <$> re_Entries r ≡ₚ fl_Callsign <$> filter (λ f, inactive (fl_State f) = false) (in_Flights input) ∧
  NoDup (ce_Callsign <$> re_Entries r).
Proof.
  intros Ht Hc Hg Hn. destruct (generate_generated _ _ _ Hg) as (policies & flights & runs & Hgen).
  pose proof (complete_callsigns _ _ _ _ _ _ Ht Hc Hgen Hn) as Hp. split; [done|]. rewrite Hp.
  pose proof (io_nodup _ _ _ (calculation_input _ _ _ _ _ _ Ht Hgen)) as Hnd.
  by apply NoDup_fmap_filter.
Qed.

Lemma generate_complete_witness :
  ce_Callsign <$> re_Entries ex_result ≡ₚ
    fl_Callsign <$> filter (λ f, inactive (fl_State f) = false) (in_Flights ex_input) ∧
  NoDup (ce_Callsign <$> re_Entries ex_result).
Proof. apply (generate_complete ex_input ∅ ex_result); [exact ex_typed|exact ex_continuous|exact ex_generated|exact ex_no_conflicts]. Defined.

(** C3: In a result without conflicts, a frozen flight that is not being promoted stays
    on its captured slot, which exists and belongs to its runway group. In a result
    that reports conflicts a frozen flight whose captured slot is missing or invalid
    is left out. *)
Theorem generate_frozen input promotions r f :
  typed_input input → continuous input → generate input promotions = Ok r → HasConflicts r = false →
  f ∈ in_Flights input → inactive (fl_State f) = false → frozen (fl_FreezeReason f) = true →
  promotions !! fl_Callsign f = None →
  ∃ e slot, e ∈ re_Entries r ∧ ce_Callsign e = fl_Callsign f ∧ ce_RunwayGroupID e = fl_RunwayGroupID f ∧
    fl_CapturedSlot f = Some slot ∧ ce_Time e = sl_Time slot ∧ sl_RunwayGroupID slot = fl_RunwayGroupID f.
Proof.
  intros Ht Hc Hg Hn. destruct (generate_generated _ _ _ Hg) as (policies & flights & runs & Hgen).
  by apply (frozen_entry _ _ _ _ _ _ Ht Hc Hgen).
Qed.

Lemma generate_frozen_witness :
  ∃ e slot, e ∈ re_Entries ex_result ∧ ce_Callsign e = fl_Callsign ex_frozen ∧ ce_RunwayGroupID e = fl_RunwayGroupID ex_frozen ∧
    fl_CapturedSlot ex_frozen = Some slot ∧ ce_Time e = sl_Time slot ∧ sl_RunwayGroupID slot = fl_RunwayGroupID ex_frozen.
Proof.
  apply (generate_frozen ex_input ∅ ex_result ex_frozen);
    [exact ex_typed|exact ex_continuous|exact ex_generated|exact ex_no_conflicts|by left|vm_compute; reflexivity..].
Defined.

(** C4: bounds of a movable slot, conflicts or not. Only unfrozen flights are
    moved, never more than the early tolerance before their TETA, never before
    their operational lower bound, and never into a gap or a closure. *)
Theorem generate_movable_bounds input promotions r c :
  typed_input input → continuous input → generate input promotions = Ok r →
  c ∈ re_Entries r → ce_Reason c = ReasonRateWTC →
  ∃ f raw, f ∈ in_Flights input ∧ raw ∈ in_Policies input ∧ po_RunwayGroupID raw = ce_RunwayGroupID c ∧
    fl_Callsign f = ce_Callsign c ∧ fl_RunwayGroupID f = ce_RunwayGroupID c ∧ fl_FreezeReason f = FreezeNone ∧
    ns (fl_OperationalTETA f) - po_EarlyTolerance raw ≤ ns (ce_Time c) ∧
    (∀ t, fl_SlotNotBefore f = Some t → ns t ≤ ns (ce_Time c)) ∧ ¬ withdrawn raw (ce_Time c).
Proof.
  intros Ht Hc Hg Hin Hr. destruct (generate_generated _ _ _ Hg) as (policies & flights & runs & Hgen).
  destruct (movable_bounds _ _ _ _ _ _ Ht Hc Hgen c Hin Hr) as (f & p & Hf & Hp & H1 & H2 & H3 & H4 & H5 & H6).
  destruct (io_policies _ _ _ (calculation_input _ _ _ _ _ _ Ht Hgen) _ _ Hp) as (Hwf & raw & Hraw & Hfrom).
  exists f, raw. rewrite <-(blocked_withdrawn raw p) by done.
  destruct Hfrom as (gaps & closures & Hpol & _). pose proof (pw_id _ _ Hwf) as Hid. rewrite Hpol in Hid, H4. by split_and!.
Qed.

Lemma generate_movable_bounds_witness :
  ∃ f raw, f ∈ in_Flights ex_input ∧ raw ∈ in_Policies ex_input ∧ po_RunwayGroupID raw = ce_RunwayGroupID (ex_entry 1) ∧
    fl_Callsign f = ce_Callsign (ex_entry 1) ∧ fl_RunwayGroupID f = ce_RunwayGroupID (ex_entry 1) ∧ fl_FreezeReason f = FreezeNone ∧
    ns (fl_OperationalTETA f) - po_EarlyTolerance raw ≤ ns (ce_Time (ex_entry 1)) ∧
    (∀ t, fl_SlotNotBefore f = Some t → ns t ≤ ns (ce_Time (ex_entry 1))) ∧ ¬ withdrawn raw (ce_Time (ex_entry 1)).
Proof.
  apply (generate_movable_bounds ex_input ∅ ex_result (ex_entry 1));
    [exact ex_typed|exact ex_continuous|exact ex_generated|apply ex_entry_in; lia|vm_compute; reflexivity].
Defined.

Lemma no_holding_no_deadlock input policies flights group p sub promotions :
  typed_input input → prepareInput input = Ok (policies, flights) → Forall no_holding (in_Flights input) →
  sub ⊆ movable_flights promotions (default [] (flights !! group)) → ¬ deadlocked p sub.
Proof.
  intros Ht E Hnh Hsub.
  assert (Hall : Forall (λ f : preparedFlight, no_holding f) (default [] (flights !! group))).
  { apply (input_flights_forall input policies); [done|done|by intros ? ? ? (? & ? & ?)|done]. }
  apply (ranked_not_deadlocked p (λ _, 0)). intros f g Hf _ Hw.
  apply Hsub, list_elem_of_filter in Hf as [_ Hf]. rewrite Forall_forall in Hall.
  rewrite no_holding_waits in Hw; [done|by apply Hall].
Qed.

(** C6: the calculation returns, with a result or an error, whenever no movable
    flights of one group all wait for one another. *)
Theorem generate_returns input promotions :
  typed_input input → input_horizon input →
  (∀ policies flights group p sub, prepareInput input = Ok (policies, flights) → policies !! group = Some p →
     sub ⊆ movable_flights promotions (default [] (flights !! group)) → ¬ deadlocked p sub) →
  returns (generate input promotions).
Proof.
  intros Ht Hh Hnd. unfold generate. apply returns_bind; [apply prepareInput_returns|].
  intros [policies flights] E. apply returns_bind; [|done]. apply fold_outcome_returns. intros r group Hgroup.
  unfold group_ids in Hgroup. apply elem_of_sort_slice, list_elem_of_fmap in Hgroup as ([g p] & -> & Hp%elem_of_map_to_list).
  unfold generate_one. simpl. rewrite Hp. cbn [deref mbind outcome_bind].
  destruct (io_policies _ _ _ (prepareInput_ok _ _ _ Ht E) g p Hp) as (Hwf & raw & Hraw & Hfrom).
  apply returns_bind; [|by intros [? ?]]. apply generateGroup_returns; [apply Hwf| |by intros sub; eapply Hnd].
  apply (prepared_horizon raw); [|done]. unfold input_horizon in Hh. rewrite Forall_forall in Hh. by apply Hh.
Qed.

Lemma generate_returns_witness : returns (generate ex_input ∅).
Proof.
  apply (generate_returns ex_input ∅); [exact ex_typed|exact ex_horizon|].
  intros policies flights group p sub E Hp Hsub. by apply (no_holding_no_deadlock ex_input policies flights group p sub ∅ ex_typed E ex_no_holding).
Defined.

(** The three flights of [cycle_input] pass every input check, yet the
    calculation never returns: [orderMovableFlights] has no flight to take. *)
Theorem generate_holding_cycle :
  is_ok (prepareInput cycle_input) = true ∧ Generate cycle_input = Hang.
Proof. split; vm_compute; reflexivity. Qed.
