(* ===== verification/SequenceCommands.v ===== *)
(** * Sequence commands

    The typed commands of the sequence policy and their validation
    ([commands.go]), and the errors of the policy. A validated command carries
    the revision it was issued against. *)

From S2P Require Import Prelude GoTime SequenceData.

Local Open Scope Z_scope.

Definition invalidArgument (message : string) (args : list fmt_arg) : error :=
  DomainError ErrorInvalidArgument ("sequence policy: " ++ message) args.
Definition invalidTransition (message : string) (args : list fmt_arg) : error :=
  DomainError ErrorInvalidTransition ("sequence policy: " ++ message) args.
Definition notFound (message : string) (args : list fmt_arg) : error :=
  DomainError ErrorNotFound ("sequence policy: " ++ message) args.
Definition commandInvalid (message : string) : error :=
  DomainError ErrorInvalidArgument ("AMAN command: " ++ message) [].

Record CommandMetadata := mk_metadata { cm_CommandID : string; cm_ExpectedRevision : Z }.

Record MoveFlightCommand := mk_move {
  mv_Metadata : CommandMetadata;
  mv_Callsign : string;
  mv_RunwayGroupID : string;
  mv_BeforeCallsign : option string;
  mv_AfterCallsign : option string
}.

(** [ApplyManualFreezeCommand], [ReleaseManualFreezeCommand] and
    [ApplyGoAroundCommand] have the same fields. *)
Record FlightActionCommand := mk_action {
  ac_Metadata : CommandMetadata;
  ac_Callsign : string;
  ac_At : Time
}.

Record SetRateCommand := mk_set_rate {
  rt_Metadata : CommandMetadata;
  rt_RunwayGroupID : string;
  rt_ArrivalsPerHour : Z;
  rt_EffectiveAt : Time
}.

Record SwapFlightsCommand := mk_swap {
  sw_Metadata : CommandMetadata;
  sw_Callsign : string;
  sw_OtherCallsign : string
}.

Record GoAroundPolicy := mk_goaround { gp_Delay : Duration; gp_MaxCascade : Z }.

Definition validID (value : string) : bool := negb (str_empty value) && str_eqb (TrimSpace value) value.

Definition validateMetadata (metadata : CommandMetadata) (revision : Z) : outcome unit :=
  _ ← guard_err (negb (validID (cm_CommandID metadata))) (invalidArgument "command ID is required" []);
  guard_err (negb (cm_ExpectedRevision metadata =? revision))
    (DomainError ErrorRevisionConflict "expected revision %d does not match current revision %d"
                 [AInt (cm_ExpectedRevision metadata); AInt revision]).

(** The anchor of a move: [BeforeCallsign], or [AfterCallsign] when it is nil. *)
Definition mv_anchor (c : MoveFlightCommand) : option string :=
  match mv_BeforeCallsign c with Some b => Some b | None => mv_AfterCallsign c end.

Definition MoveFlightCommand_Validate (c : MoveFlightCommand) (revision : Z) : outcome unit :=
  _ ← validateMetadata (mv_Metadata c) revision;
  _ ← guard_err (negb (validID (mv_Callsign c)) || negb (validID (mv_RunwayGroupID c)))
        (invalidArgument "move flight and runway group are required" []);
  _ ← guard_err (Bool.eqb (is_nil (mv_BeforeCallsign c)) (is_nil (mv_AfterCallsign c)))
        (invalidArgument "move requires exactly one before or after anchor" []);
  anchor ← deref (mv_anchor c);
  guard_err (negb (validID anchor) || str_eqb anchor (mv_Callsign c))
    (invalidArgument "move anchor must identify another flight" []).

Definition validateFlightAction (metadata : CommandMetadata) (revision : Z) (callsign : string) (at_ : Time)
  : outcome unit :=
  _ ← validateMetadata metadata revision;
  guard_err (negb (validID callsign) || negb (validUTC at_))
    (invalidArgument "flight action requires a flight and UTC time" []).

Definition FlightActionCommand_Validate (c : FlightActionCommand) (revision : Z) : outcome unit :=
  validateFlightAction (ac_Metadata c) revision (ac_Callsign c) (ac_At c).

Definition SetRateCommand_Validate (c : SetRateCommand) (revision : Z) : outcome unit :=
  _ ← validateMetadata (rt_Metadata c) revision;
  guard_err (negb (validID (rt_RunwayGroupID c)) || (rt_ArrivalsPerHour c =? 0) || negb (validUTC (rt_EffectiveAt c)))
    (invalidArgument "rate requires a runway group, positive rate, and UTC effective time" []).

Definition GoAroundPolicy_Validate (p : GoAroundPolicy) : outcome unit :=
  guard_err ((gp_Delay p <=? 0) || (gp_MaxCascade p <? 1))
    (invalidArgument "go-around delay and cascade bound must be positive" []).

(** [aman.SwapFlightsCommand.Validate], which does not look at the revision. *)
Definition SwapFlightsCommand_Validate (c : SwapFlightsCommand) : outcome unit :=
  _ ← guard_err (negb (validID (cm_CommandID (sw_Metadata c)))) (commandInvalid "command ID is required");
  _ ← guard_err (negb (validID (sw_Callsign c))) (commandInvalid "callsign is required");
  guard_err (negb (validID (sw_OtherCallsign c)) || str_eqb (sw_OtherCallsign c) (sw_Callsign c))
    (commandInvalid "swap requires two different flights").

(** ** What validation guarantees *)

Lemma validateMetadata_ok m revision u :
  validateMetadata m revision = Ok u → validID (cm_CommandID m) = true ∧ cm_ExpectedRevision m = revision.
Proof.
  unfold validateMetadata. intros H. bind_inv H. apply guard_err_ok in E, H. bsplit. zbool. done.
Qed.

Lemma MoveFlightCommand_Validate_ok c revision u :
  MoveFlightCommand_Validate c revision = Ok u →
  cm_ExpectedRevision (mv_Metadata c) = revision ∧
  ∃ anchor, mv_anchor c = Some anchor ∧ anchor ≠ mv_Callsign c ∧
    ((mv_BeforeCallsign c = Some anchor ∧ mv_AfterCallsign c = None) ∨
     (mv_BeforeCallsign c = None ∧ mv_AfterCallsign c = Some anchor)).
Proof.
  unfold MoveFlightCommand_Validate. intros H. bind_inv H. apply validateMetadata_ok in E as [_ Hr].
  bind_inv H. bind_inv H. bind_inv H. apply guard_err_ok in E0, H. bsplit. split; [done|].
  unfold mv_anchor in *. destruct (mv_BeforeCallsign c) as [b|], (mv_AfterCallsign c) as [a|]; simpl in *; try done;
    injection E1 as ->; eexists; (split_and!; [done|by apply str_eqb_neq|auto]).
Qed.
