(* ===== verification/SequencePolicy.v ===== *)
(** * Sequence policy operations

    The pure operations a controller command runs on a calculation input
    ([policy.go], [swap.go]): moving, swapping, freezing and releasing flights,
    and setting a rate. Each validates the command, edits a copy of the input
    and generates a candidate; the copy ([cloneInput]) is the value itself
    here. The go-around cascade is in [SequenceGoAround]. *)

From S2P Require Import Prelude GoTime SequenceData SequencePrepare SequenceEngine SequenceExamples.
From S2P Require Import SequenceSafety SequenceCommands.

Local Open Scope Z_scope.

Record Decision := mk_decision { de_Input : Input; de_Candidate : Result; de_Changed : bool }.

(** ** Looking up and editing flights *)

Definition flightIndex (flights : list Flight) (id : string) : option nat :=
  fst <$> list_find (λ f, fl_Callsign f = id) flights.

Definition activeFlight (input : Input) (id : string) : outcome (nat * Flight) :=
  match list_find (λ f, fl_Callsign f = id) (in_Flights input) with
  | None => Err (notFound "flight %q was not found" [AStr id])
  | Some (index, flight) =>
      if inactive (fl_State flight) then Err (invalidTransition "flight %q is not active" [AStr id])
      else Ok (index, flight)
  end.

Definition set_Flights (flights : list Flight) (input : Input) : Input :=
  mk_input (in_Revision input) (in_Policies input) (in_STARFamilyPolicies input) flights.
Definition set_Policies (policies : list Policy) (input : Input) : Input :=
  mk_input (in_Revision input) policies (in_STARFamilyPolicies input) (in_Flights input).

(** [working.Flights[index].X = v] *)
Definition update_flight (index : nat) (g : Flight → Flight) (input : Input) : Input :=
  set_Flights (alter g index (in_Flights input)) input.

Definition groupOrder (result : Result) (group : string) : list string :=
  ce_Callsign <$> filter (λ e, ce_RunwayGroupID e = group) (re_Entries result).

(** [slices.Index] *)
Definition index_of (order : list string) (id : string) : option nat := fst <$> list_find (λ x, x = id) order.

Definition inputsEqualOrder (a b : Input) : bool :=
  (length (in_Flights a) =? length (in_Flights b))%nat
  && forallb (λ '(x, y), match fl_ManualOrder x, fl_ManualOrder y with
                          | None, None => true
                          | Some l, Some r => l =? r
                          | _, _ => false
                          end) (zip (in_Flights a) (in_Flights b)).

Definition unfrozen (f : Flight) : bool := freeze_is (fl_FreezeReason f) FreezeNone.

(** Position [position] of a controller-imposed order; from [firstAffected] on
    routine protection is lifted. *)
Definition set_position (firstAffected position : nat) (f : Flight) : Flight :=
  let f := set_ManualOrder (Some (Z.of_nat position + 1)) f in
  if (firstAffected <=? position)%nat && unfrozen f then set_ProtectCurrentSlot false f else f.

Definition renumber_one (firstAffected : nat) (working : Input) (p : nat * string) : outcome Input :=
  let '(position, id) := p in
  index ← deref (flightIndex (in_Flights working) id);
  Ok (update_flight index (set_position firstAffected position) working).

Definition renumber (firstAffected : nat) (order : list string) (working : Input) : outcome Input :=
  fold_outcome (renumber_one firstAffected) working (imap pair order).

(** [working.Flights[i].ProtectCurrentSlot = input.Flights[i].ProtectCurrentSlot] for every flight. *)
Definition restore_protection (input working : Input) : Input :=
  set_Flights (zip_with (λ original f, set_ProtectCurrentSlot (fl_ProtectCurrentSlot original) f)
                 (in_Flights input) (in_Flights working)) working.

(** Generation of a candidate whose errors the operation reports as its own. *)
Definition generate_or (wrap : error → error) (working : Input) : outcome Result :=
  match Generate working with
  | Ok r => Ok r
  | Err e => Err (wrap e)
  | Panic => Panic
  | Hang => Hang
  end.

(** ** Moving a flight next to another *)

Definition insert_at (at_ : nat) (id : string) (order : list string) : list string :=
  take at_ order ++ id :: drop at_ order.

Definition move_order (command : MoveFlightCommand) (anchorID : string) (order : list string)
  : outcome (nat * list string) :=
  match index_of order (mv_Callsign command), index_of order anchorID with
  | Some from, Some _ =>
      let order := delete from order in
      anchorAt ← deref (index_of order anchorID);
      let insertAt := if not_nil (mv_AfterCallsign command) then S anchorAt else anchorAt in
      Ok (Nat.min from insertAt, insert_at insertAt (mv_Callsign command) order)
  | _, _ => Err (notFound "move flight or anchor has no active slot" [])
  end.

(** The flight ended up next to its anchor, on the requested side. *)
Definition valid_anchor (command : MoveFlightCommand) (anchorID : string) (wantOrder : list string) : bool :=
  match index_of wantOrder (mv_Callsign command), index_of wantOrder anchorID with
  | Some targetAt, Some anchorAt =>
      (not_nil (mv_BeforeCallsign command) && (S targetAt =? anchorAt)%nat)
      || (not_nil (mv_AfterCallsign command) && (S anchorAt =? targetAt)%nat)
  | Some targetAt, None => (* [slices.Index] is -1 *)
      not_nil (mv_AfterCallsign command) && (targetAt =? 0)%nat
  | None, Some anchorAt => not_nil (mv_BeforeCallsign command) && (anchorAt =? 0)%nat
  | None, None => false
  end.

Definition ApplyMove (input : Input) (command : MoveFlightCommand) : outcome Decision :=
  _ ← MoveFlightCommand_Validate command (in_Revision input);
  '(targetIndex, target) ← activeFlight input (mv_Callsign command);
  anchorID ← deref (mv_anchor command);
  '(_, anchor) ← activeFlight input anchorID;
  _ ← guard_err (negb (str_eqb (fl_RunwayGroupID target) (mv_RunwayGroupID command))
                 || negb (str_eqb (fl_RunwayGroupID anchor) (mv_RunwayGroupID command)))
        (invalidArgument "move flight and anchor must belong to the requested runway group" []);
  _ ← guard_err (frozen (fl_FreezeReason target))
        (invalidTransition "move requires the flight freeze to be released first" []);
  current ← Generate input;
  _ ← guard_err (HasConflicts current)
        (invalidTransition "move cannot start from a conflicting protected sequence" []);
  '(firstAffected, order) ← move_order command anchorID (groupOrder current (mv_RunwayGroupID command));
  working ← renumber firstAffected order input;
  position ← deref (index_of order (mv_Callsign command));
  let working := update_flight targetIndex (set_ManualOrder (Some (Z.of_nat position + 1))) working in
  candidate ← generate_or (λ e, invalidTransition "move cannot satisfy rate and WTC policy: %v" [AErr e]) working;
  _ ← guard_err (HasConflicts candidate) (invalidTransition "move would conflict with a protected slot" []);
  _ ← guard_err (negb (valid_anchor command anchorID (groupOrder candidate (mv_RunwayGroupID command))))
        (invalidTransition "move cannot satisfy the requested anchor under rate and WTC policy" []);
  let working := restore_protection input working in
  Ok (mk_decision working candidate
        (negb (inputsEqualOrder input working) || (0 <? length (re_Movements candidate))%nat)).

(** ** Swapping two flights of one STAR family *)

Definition committed_less (working : Input) (x y : string) : bool :=
  let slot id := i ← flightIndex (in_Flights working) id; f ← in_Flights working !! i; fl_CurrentSlot f in
  match slot x, slot y with
  | Some a, Some b =>
      if negb (time_eqb (sl_Time a) (sl_Time b)) then before (sl_Time a) (sl_Time b)
      else sl_Sequence a <? sl_Sequence b
  | Some _, None => true
  | None, _ => false
  end.

Definition swap_order (from to : nat) (x y : string) (order : list string) : list string :=
  <[to := x]> (<[from := y]> order).

Definition ApplySwap (input : Input) (command : SwapFlightsCommand) : outcome Decision :=
  _ ← SwapFlightsCommand_Validate command;
  _ ← validateMetadata (sw_Metadata command) (in_Revision input);
  '(_, first) ← activeFlight input (sw_Callsign command);
  '(_, second) ← activeFlight input (sw_OtherCallsign command);
  _ ← guard_err (negb (str_eqb (fl_RunwayGroupID first) (fl_RunwayGroupID second))
                 || str_empty (fl_SelectedSTARFamily first)
                 || negb (str_eqb (fl_SelectedSTARFamily first) (fl_SelectedSTARFamily second)))
        (invalidArgument "swap requires flights on the same selected STAR family and runway group" []);
  _ ← guard_err (frozen (fl_FreezeReason first) || frozen (fl_FreezeReason second))
        (invalidTransition "swap requires both flight freezes to be released first" []);
  current ← Generate input;
  _ ← guard_err (HasConflicts current)
        (invalidTransition "swap cannot start from a conflicting protected sequence" []);
  let order := sort_slice (committed_less input) (groupOrder current (fl_RunwayGroupID first)) in
  match index_of order (fl_Callsign first), index_of order (fl_Callsign second),
        fl_CurrentSlot first, fl_CurrentSlot second with
  | Some from, Some to, Some _, Some _ =>
      let order := swap_order from to (fl_Callsign first) (fl_Callsign second) order in
      working ← renumber (Nat.min from to) order input;
      candidate ← generate_or (λ e, invalidTransition "swap cannot satisfy rate and WTC policy: %v" [AErr e]) working;
      _ ← guard_err (HasConflicts candidate
                     || negb (bool_decide (order = groupOrder candidate (fl_RunwayGroupID first))))
            (invalidTransition "swap cannot retain the requested order with protected slots and spacing constraints" []);
      Ok (mk_decision (restore_protection input working) candidate true)
  | _, _, _, _ => Err (invalidTransition "swap requires two committed sequence positions" [])
  end.

(** ** Manual freeze and its release *)

Definition freeze_flight (at_ : Time) (f : Flight) : Flight :=
  set_CapturedSlot (fl_CurrentSlot f)
    (set_FrozenOperationalTETA (Some (fl_OperationalTETA f))
      (set_FrozenAt (Some at_) (set_FreezeReason FreezeManual f))).

Definition release_flight (f : Flight) : Flight :=
  set_CapturedSlot None (set_FrozenOperationalTETA None (set_FrozenAt None (set_FreezeReason FreezeNone f))).

Definition ApplyManualFreeze (input : Input) (command : FlightActionCommand) : outcome Decision :=
  _ ← FlightActionCommand_Validate command (in_Revision input);
  '(index, flight) ← activeFlight input (ac_Callsign command);
  _ ← guard_err (state_is (fl_State flight) StateGoAround)
        (invalidTransition "go-around flight cannot be manually frozen" []);
  _ ← guard_err (frozen (fl_FreezeReason flight)) (invalidTransition "manual freeze requires an unfrozen flight" []);
  _ ← guard_err (is_nil (fl_CurrentSlot flight))
        (invalidTransition "manual freeze requires a committed current slot" []);
  let working := update_flight index (freeze_flight (ac_At command)) input in
  candidate ← Generate working;
  Ok (mk_decision working candidate true).

Definition ReleaseManualFreeze (input : Input) (command : FlightActionCommand) : outcome Decision :=
  _ ← FlightActionCommand_Validate command (in_Revision input);
  '(index, flight) ← activeFlight input (ac_Callsign command);
  _ ← guard_err (negb (freeze_is (fl_FreezeReason flight) FreezeManual))
        (invalidTransition "manual freeze release requires FreezeManual" []);
  let working := update_flight index release_flight input in
  candidate ← Generate working;
  Ok (mk_decision working candidate true).

(** ** Setting a rate *)

(** The loop over the rates: [Some (changed, rates)] when a point at the instant was replaced. *)
Fixpoint replace_rate (effectiveAt : Time) (arrivals : Z) (rates : list RatePoint) : option (bool * list RatePoint) :=
  match rates with
  | [] => None
  | r :: rest =>
      if time_eqb (rp_EffectiveAt r) effectiveAt
      then Some (negb (rp_ArrivalsPerHour r =? arrivals), mk_rate (rp_EffectiveAt r) arrivals :: rest)
      else match replace_rate effectiveAt arrivals rest with
           | Some (changed, rest) => Some (changed, r :: rest)
           | None => None
           end
  end.

Definition set_Rates (rates : list RatePoint) (p : Policy) : Policy :=
  mk_policy (po_RunwayGroupID p) (po_ContinuousSpacing p) (po_AllowCrossFeederOvertake p) rates (po_Gaps p)
    (po_Closures p) (po_EarlyTolerance p) (po_SeparationRules p) (po_UnknownSeparation p) (po_SameSTARSpacing p).

Definition new_rates (command : SetRateCommand) (rates : list RatePoint) : bool * list RatePoint :=
  let '(changed, rates) :=
    match replace_rate (rt_EffectiveAt command) (rt_ArrivalsPerHour command) rates with
    | Some r => r
    | None => (true, rates ++ [mk_rate (rt_EffectiveAt command) (rt_ArrivalsPerHour command)])
    end in
  (changed, sort_slice rate_less rates).

(** A capacity change overrides routine protection from its effective time on. *)
Definition release_for_rate (command : SetRateCommand) (f : Flight) : Flight :=
  if negb (str_eqb (fl_RunwayGroupID f) (rt_RunwayGroupID command)) || negb (fl_ProtectCurrentSlot f)
     || frozen (fl_FreezeReason f)
     || match fl_CurrentSlot f with None => true | Some s => before (sl_Time s) (rt_EffectiveAt command) end
  then f
  else
    let f := set_ProtectCurrentSlot false f in
    let lower := match fl_PromotionNotBefore f with
                 | Some t => later_of (rt_EffectiveAt command) t
                 | None => rt_EffectiveAt command
                 end in
    match fl_SlotNotBefore f with
    | None => set_SlotNotBefore (Some lower) f
    | Some t => if before t lower then set_SlotNotBefore (Some lower) f else f
    end.

Definition restore_bounds (input working : Input) : Input :=
  set_Flights (zip_with (λ original f, set_SlotNotBefore (fl_SlotNotBefore original)
                                         (set_ProtectCurrentSlot (fl_ProtectCurrentSlot original) f))
                 (in_Flights input) (in_Flights working)) working.

Definition ApplyRate (input : Input) (command : SetRateCommand) : outcome Decision :=
  _ ← SetRateCommand_Validate command (in_Revision input);
  match list_find (λ p, po_RunwayGroupID p = rt_RunwayGroupID command) (in_Policies input) with
  | None => Err (notFound "rate runway group was not found" [])
  | Some (policyIndex, policy) =>
      let '(changed, rates) := new_rates command (po_Rates policy) in
      let working := set_Policies (<[policyIndex := set_Rates rates policy]> (in_Policies input)) input in
      let working := if changed then set_Flights (release_for_rate command <$> in_Flights working) working else working in
      candidate ← Generate working;
      Ok (mk_decision (restore_bounds input working) candidate (changed || (0 <? length (re_Movements candidate))%nat))
  end.

(** ** Facts *)

Lemma activeFlight_ok input id i f :
  activeFlight input id = Ok (i, f) → in_Flights input !! i = Some f ∧ fl_Callsign f = id ∧ inactive (fl_State f) = false.
Proof.
  unfold activeFlight. destruct (list_find _ _) as [[j g]|] eqn:E; [|done].
  destruct (inactive (fl_State g)) eqn:Ei; [done|]. intros [= <- <-]. apply list_find_Some in E as (? & ? & _). done.
Qed.

Lemma index_of_Some order id i : index_of order id = Some i → order !! i = Some id.
Proof.
  unfold index_of. destruct (list_find _ _) as [[j x]|] eqn:E; [|done]. intros [= ->].
  apply list_find_Some in E as (? & -> & _). done.
Qed.

Lemma index_of_elem order id : id ∈ order → is_Some (index_of order id).
Proof.
  intros Hin. unfold index_of. apply list_elem_of_lookup in Hin as [i Hi].
  destruct (list_find_elem_of (λ x, x = id) order id) as [[j y] Hj]; [by apply list_elem_of_lookup; eexists|done|].
  rewrite Hj. by eexists.
Qed.

(** Two flights that differ at most in manual order and slot protection. *)
Definition reordered (f g : Flight) : Prop := ∃ m p, g = set_ProtectCurrentSlot p (set_ManualOrder m f).

#[export] Instance reordered_preorder : PreOrder reordered.
Proof.
  split.
  - intros f. exists (fl_ManualOrder f), (fl_ProtectCurrentSlot f). by destruct f.
  - intros f g h (m & p & ->) (m' & p' & ->). by exists m', p'.
Qed.

Lemma set_position_reordered k i f : reordered f (set_position k i f).
Proof.
  unfold set_position. destruct (_ && _); [by eexists _, _|].
  exists (Some (Z.of_nat i + 1)), (fl_ProtectCurrentSlot f). by destruct f.
Qed.

Lemma set_ManualOrder_reordered m f : reordered f (set_ManualOrder m f).
Proof. exists m, (fl_ProtectCurrentSlot f). by destruct f. Qed.

(** An input with the same policies whose flights correspond one by one. *)
Record edited (R : Flight → Flight → Prop) (input working : Input) : Prop := {
  ed_flights : Forall2 R (in_Flights input) (in_Flights working);
  ed_policies : in_Policies working = in_Policies input;
  ed_families : in_STARFamilyPolicies working = in_STARFamilyPolicies input;
  ed_revision : in_Revision working = in_Revision input
}.

#[export] Instance edited_preorder R : PreOrder R → PreOrder (edited R).
Proof.
  intros HR. split.
  - intros a. by split.
  - intros a b c [H1 H2 H3 H4] [H1' H2' H3' H4']. split; [by etrans|congruence..].
Qed.

Lemma edited_update (R : Flight → Flight → Prop) index g input :
  Reflexive R → (∀ f, R f (g f)) → edited R input (update_flight index g input).
Proof.
  intros Hrefl Hg. split; [|done..]. simpl. apply Forall2_same_length_lookup_2; [by rewrite length_alter|].
  intros i x y Hx Hy. destruct (decide (i = index)) as [->|Hne].
  - rewrite list_lookup_alter_eq, Hx in Hy. injection Hy as <-. done.
  - rewrite list_lookup_alter_ne in Hy by done. simplify_eq. done.
Qed.

Lemma renumber_edited k order working w :
  renumber k order working = Ok w → edited reordered working w.
Proof.
  unfold renumber. intros H. eapply (fold_outcome_inv _ (edited reordered working)); [| |exact H].
  - intros s [position id] s' Hs E. simpl in E. bind_inv E. injection E as <-.
    etrans; [exact Hs|]. apply edited_update; [apply _|apply set_position_reordered].
  - done.
Qed.

(** Restoring the protection leaves only the manual orders changed. *)
Lemma restore_protection_edited input working :
  edited reordered input working → edited (λ f g, ∃ m, g = set_ManualOrder m f) input (restore_protection input working).
Proof.
  intros [H1 H2 H3 H4]. split; [|done..]. simpl. clear H2 H3 H4.
  induction H1 as [|f g l k (m & p & ->) _ IH]; simpl; constructor; [|done]. exists m. by destruct f.
Qed.

Lemma edited_typed R input working : edited R input working → typed_input input → typed_input working.
Proof. intros He. unfold typed_input. by rewrite (ed_policies _ _ _ He). Qed.

Lemma edited_continuous R input working : edited R input working → continuous input → continuous working.
Proof. intros He. unfold continuous. by rewrite (ed_policies _ _ _ He). Qed.

Lemma edited_lookup R input working i f :
  edited R input working → in_Flights input !! i = Some f → ∃ g, in_Flights working !! i = Some g ∧ R f g.
Proof. intros He Hf. destruct (Forall2_lookup_l _ _ _ _ _ (ed_flights _ _ _ He) Hf) as (g & ? & ?). eauto. Qed.

Lemma generate_or_ok wrap working r : generate_or wrap working = Ok r → Generate working = Ok r.
Proof. unfold generate_or. by destruct (Generate working). Qed.

(** The callsign of an active flight is in the order of its group. *)
Lemma groupOrder_elem input working r R i f :
  edited R input working → (∀ f g, R f g → fl_Callsign g = fl_Callsign f ∧ fl_RunwayGroupID g = fl_RunwayGroupID f ∧ fl_State g = fl_State f) →
  typed_input input → continuous input → Generate working = Ok r → HasConflicts r = false →
  in_Flights input !! i = Some f → inactive (fl_State f) = false →
  fl_Callsign f ∈ groupOrder r (fl_RunwayGroupID f).
Proof.
  intros He HR Ht Hc Hg Hn Hf Ha. destruct (edited_lookup _ _ _ _ _ He Hf) as (g & Hgi & Hfg). apply HR in Hfg as (H1 & H2 & H3).
  apply list_elem_of_lookup_2 in Hgi. rewrite <-H3 in Ha.
  destruct (generate_entry working ∅ r g) as (c & Hcr & Hcs & Hcg);
    [by eapply edited_typed|by eapply edited_continuous|done|done|done|done|].
  unfold groupOrder. rewrite <-H1, <-H2, <-Hcs. apply list_elem_of_fmap_2, list_elem_of_filter. done.
Qed.

Lemma reordered_same f g :
  reordered f g → fl_Callsign g = fl_Callsign f ∧ fl_RunwayGroupID g = fl_RunwayGroupID f ∧ fl_State g = fl_State f.
Proof. by intros (m & p & ->). Qed.

(** ** Moving *)

Lemma ApplyMove_stages input command d :
  ApplyMove input command = Ok d →
  ∃ ti target ai anchor anchorID working,
    MoveFlightCommand_Validate command (in_Revision input) = Ok tt ∧
    activeFlight input (mv_Callsign command) = Ok (ti, target) ∧ mv_anchor command = Some anchorID ∧
    activeFlight input anchorID = Ok (ai, anchor) ∧
    fl_RunwayGroupID target = mv_RunwayGroupID command ∧ fl_RunwayGroupID anchor = mv_RunwayGroupID command ∧
    fl_FreezeReason target = FreezeNone ∧
    edited reordered input working ∧ Generate working = Ok (de_Candidate d) ∧ HasConflicts (de_Candidate d) = false ∧
    valid_anchor command anchorID (groupOrder (de_Candidate d) (mv_RunwayGroupID command)) = true ∧
    de_Input d = restore_protection input working.
Proof.
  unfold ApplyMove. intros H. bind_inv H. destruct r. bind_inv H. destruct r as [ti target]. bind_inv H. rename r into anchorID.
  bind_inv H. destruct r as [ai anchor]. bind_inv H. bind_inv H. bind_inv H. bind_inv H. bind_inv H. destruct r3 as [first order].
  bind_inv H. bind_inv H. bind_inv H. bind_inv H. bind_inv H. injection H as <-.
  apply guard_err_ok in E3, E4, E6, E11, E12. apply generate_or_ok in E10. bsplit. rewrite str_eqb_eq in *.
  exists ti, target, ai, anchor, anchorID, (update_flight ti (set_ManualOrder (Some (Z.of_nat r4 + 1))) r3).
  split_and!; try done; [by destruct (mv_anchor command); [injection E1 as ->|done]|by apply frozen_false|].
  etrans; [by eapply renumber_edited|]. apply edited_update; [apply _|apply set_ManualOrder_reordered].
Qed.

(** [front] comes immediately before [back]. *)
Definition next_to (order : list string) (front back : string) : Prop :=
  ∃ i, order !! i = Some front ∧ order !! S i = Some back.

Lemma valid_anchor_next command anchorID order :
  valid_anchor command anchorID order = true → mv_Callsign command ∈ order → anchorID ∈ order →
  (is_Some (mv_BeforeCallsign command) ∧ next_to order (mv_Callsign command) anchorID) ∨
  (is_Some (mv_AfterCallsign command) ∧ next_to order anchorID (mv_Callsign command)).
Proof.
  intros Hv Ht Ha. destruct (index_of_elem _ _ Ht) as [i Hi]. destruct (index_of_elem _ _ Ha) as [j Hj].
  unfold valid_anchor in Hv. rewrite Hi, Hj in Hv. apply index_of_Some in Hi, Hj.
  apply orb_true_iff in Hv as [[H1%not_nil_some H2%Nat.eqb_eq]%andb_true_iff|[H1%not_nil_some H2%Nat.eqb_eq]%andb_true_iff]; subst.
  - left. split; [done|]. by exists i.
  - right. split; [done|]. by exists j.
Qed.

(** C28: a successful move puts the flight immediately before or after its
    anchor in the candidate sequence of the group, the candidate has no
    conflicts, and the input differs in manual orders only. *)
Theorem ApplyMove_correct input command d :
  typed_input input → continuous input → ApplyMove input command = Ok d →
  HasConflicts (de_Candidate d) = false ∧
  edited (λ f g, ∃ m, g = set_ManualOrder m f) input (de_Input d) ∧
  ∃ anchor, mv_anchor command = Some anchor ∧
    ((mv_BeforeCallsign command = Some anchor ∧
      next_to (groupOrder (de_Candidate d) (mv_RunwayGroupID command)) (mv_Callsign command) anchor) ∨
     (mv_AfterCallsign command = Some anchor ∧
      next_to (groupOrder (de_Candidate d) (mv_RunwayGroupID command)) anchor (mv_Callsign command))).
Proof.
  intros Ht Hc H.
  destruct (ApplyMove_stages _ _ _ H) as (ti & target & ai & anchor & anchorID & w & Hv & Hta & Han & Haa & Hg1 & Hg2 & _ & He & Hgen & Hn & Hva & ->).
  split_and!; [done|by apply restore_protection_edited|]. exists anchorID. split; [done|].
  destruct (activeFlight_ok _ _ _ _ Hta) as (Hti & Hcs & Hact). destruct (activeFlight_ok _ _ _ _ Haa) as (Hai & Hcs' & Hact').
  pose proof (groupOrder_elem input w _ reordered ti target He reordered_same Ht Hc Hgen Hn Hti Hact) as Hin.
  pose proof (groupOrder_elem input w _ reordered ai anchor He reordered_same Ht Hc Hgen Hn Hai Hact') as Hin'.
  rewrite Hcs, Hg1 in Hin. rewrite Hcs', Hg2 in Hin'.
  destruct (MoveFlightCommand_Validate_ok _ _ _ Hv) as (_ & anchor' & Han' & _ & Hor). rewrite Han in Han'. injection Han' as <-.
  destruct (valid_anchor_next _ _ _ Hva Hin Hin') as [[[? ?] ?]|[[? ?] ?]], Hor as [[? ?]|[? ?]]; simplify_eq; auto.
Qed.

(** ** Swapping *)

Lemma ApplySwap_stages input command d :
  ApplySwap input command = Ok d →
  ∃ i first j second current from to working,
    activeFlight input (sw_Callsign command) = Ok (i, first) ∧ activeFlight input (sw_OtherCallsign command) = Ok (j, second) ∧
    fl_RunwayGroupID second = fl_RunwayGroupID first ∧ Generate input = Ok current ∧
    let order := sort_slice (committed_less input) (groupOrder current (fl_RunwayGroupID first)) in
    order !! from = Some (fl_Callsign first) ∧ order !! to = Some (fl_Callsign second) ∧
    edited reordered input working ∧ Generate working = Ok (de_Candidate d) ∧ HasConflicts (de_Candidate d) = false ∧
    groupOrder (de_Candidate d) (fl_RunwayGroupID first) = swap_order from to (fl_Callsign first) (fl_Callsign second) order ∧
    de_Input d = restore_protection input working.
Proof.
  unfold ApplySwap. intros H. bind_inv H. bind_inv H. bind_inv H. destruct r1 as [i first]. bind_inv H. destruct r1 as [j second].
  bind_inv H. bind_inv H. bind_inv H. rename r3 into current. bind_inv H.
  set (order := sort_slice (committed_less input) (groupOrder current (fl_RunwayGroupID first))) in *.
  destruct (index_of order (fl_Callsign first)) as [from|] eqn:Ef; [|done].
  destruct (index_of order (fl_Callsign second)) as [to|] eqn:Et; [|done].
  destruct (fl_CurrentSlot first); [|done]. destruct (fl_CurrentSlot second); [|done].
  bind_inv H. bind_inv H. bind_inv H. injection H as <-. apply guard_err_ok in E3, E9. apply generate_or_ok in E8. bsplit.
  rewrite str_eqb_eq in *. rename select (bool_decide _ = true) into Hbd. apply bool_decide_eq_true in Hbd.
  exists i, first, j, second, current, from, to, r4. split_and!; try done; [by apply index_of_Some|by apply index_of_Some|].
  by eapply renumber_edited.
Qed.

(** A successful swap exchanges exactly the two flights in the committed
    order of their group, the candidate sequence has that order and no
    conflicts, and the input differs in manual orders only. *)
Theorem ApplySwap_correct input command d :
  ApplySwap input command = Ok d →
  HasConflicts (de_Candidate d) = false ∧
  edited (λ f g, ∃ m, g = set_ManualOrder m f) input (de_Input d) ∧
  ∃ group current order i j,
    Generate input = Ok current ∧ order ≡ₚ groupOrder current group ∧
    order !! i = Some (sw_Callsign command) ∧ order !! j = Some (sw_OtherCallsign command) ∧
    groupOrder (de_Candidate d) group !! j = Some (sw_Callsign command) ∧
    (groupOrder (de_Candidate d) group !! i = Some (sw_OtherCallsign command) ∨ i = j) ∧
    ∀ k, k ≠ i → k ≠ j → groupOrder (de_Candidate d) group !! k = order !! k.
Proof.
  intros H. destruct (ApplySwap_stages _ _ _ H) as (i & first & j & second & current & from & to & w & Hf & Hs & _ & Hcur & Hfrom & Hto & He & _ & Hn & Ho & ->).
  split_and!; [done|by apply restore_protection_edited|].
  destruct (activeFlight_ok _ _ _ _ Hf) as (_ & <- & _). destruct (activeFlight_ok _ _ _ _ Hs) as (_ & <- & _).
  eexists (fl_RunwayGroupID first), current, _, from, to. split_and!; [done|apply sort_slice_perm|exact Hfrom|exact Hto|..].
  - rewrite Ho. unfold swap_order. apply list_lookup_insert_eq. rewrite length_insert. by apply lookup_lt_Some in Hto.
  - destruct (decide (from = to)) as [->|Hne]; [by right|left]. rewrite Ho. unfold swap_order.
    rewrite list_lookup_insert_ne by done. apply list_lookup_insert_eq. by apply lookup_lt_Some in Hfrom.
  - intros k H1 H2. rewrite Ho. unfold swap_order. by rewrite !list_lookup_insert_ne.
Qed.

(** ** Manual freeze *)

Lemma ApplyManualFreeze_stages input command d :
  ApplyManualFreeze input command = Ok d →
  ∃ i f slot, activeFlight input (ac_Callsign command) = Ok (i, f) ∧ fl_FreezeReason f = FreezeNone ∧
    fl_CurrentSlot f = Some slot ∧ de_Input d = update_flight i (freeze_flight (ac_At command)) input ∧
    Generate (de_Input d) = Ok (de_Candidate d).
Proof.
  unfold ApplyManualFreeze. intros H. bind_inv H. bind_inv H. destruct r0 as [i f]. bind_inv H. bind_inv H. bind_inv H. bind_inv H.
  injection H as <-. apply guard_err_ok in E2, E3. destruct (fl_CurrentSlot f) as [slot|] eqn:Es; [|done].
  exists i, f, slot. split_and!; [done|by apply frozen_false|done|done|done].
Qed.

(** a manually frozen flight stays on the slot it had: a candidate without
    conflicts gives it exactly the time of its committed current slot. *)
Theorem ApplyManualFreeze_keeps input command d i f slot :
  typed_input input → continuous input → ApplyManualFreeze input command = Ok d → HasConflicts (de_Candidate d) = false →
  activeFlight input (ac_Callsign command) = Ok (i, f) → fl_CurrentSlot f = Some slot →
  ∃ e, e ∈ re_Entries (de_Candidate d) ∧ ce_Callsign e = ac_Callsign command ∧ ce_Time e = sl_Time slot.
Proof.
  intros Ht Hc H Hn Ha Hs. destruct (ApplyManualFreeze_stages _ _ _ H) as (i' & f' & slot' & Ha' & _ & Hs' & Hin & Hg).
  rewrite Ha in Ha'. injection Ha' as <- <-. rewrite Hs in Hs'. injection Hs' as <-.
  destruct (activeFlight_ok _ _ _ _ Ha) as (Hi & Hcs & Hact).
  destruct (generate_generated _ _ _ Hg) as (policies & flights & runs & Hgen).
  assert (Hf : freeze_flight (ac_At command) f ∈ in_Flights (de_Input d)).
  { rewrite Hin. apply list_elem_of_lookup. exists i. simpl. by rewrite list_lookup_alter_eq, Hi. }
  assert (Ht' : typed_input (de_Input d)) by (by rewrite Hin). assert (Hc' : continuous (de_Input d)) by (by rewrite Hin).
  destruct (frozen_entry _ _ _ _ _ _ Ht' Hc' Hgen (freeze_flight (ac_At command) f) Hn Hf Hact eq_refl ltac:(apply lookup_empty))
    as (e & s & He & Hec & _ & Hcap & Het & _).
  exists e. split_and!; [done|by rewrite Hec|]. simpl in Hcap. rewrite Hs in Hcap. injection Hcap as <-. done.
Qed.

(** C29: releasing a manual freeze undoes applying it: the input is the original one. *)
Theorem manual_freeze_roundtrip input freeze release d d' i f :
  ac_Callsign release = ac_Callsign freeze →
  activeFlight input (ac_Callsign freeze) = Ok (i, f) →
  fl_FrozenAt f = None → fl_FrozenOperationalTETA f = None → fl_CapturedSlot f = None →
  ApplyManualFreeze input freeze = Ok d → ReleaseManualFreeze (de_Input d) release = Ok d' →
  de_Input d' = input.
Proof.
  intros Hcs Ha H1 H2 H3 Hd Hd'. destruct (ApplyManualFreeze_stages _ _ _ Hd) as (i' & f' & slot & Ha' & Hfz & _ & Hin & _).
  rewrite Ha in Ha'. injection Ha' as <- <-. destruct (activeFlight_ok _ _ _ _ Ha) as (Hi & Hc & Hact).
  unfold ReleaseManualFreeze in Hd'. bind_inv Hd'. bind_inv Hd'. destruct r0 as [j g]. bind_inv Hd'. bind_inv Hd'. injection Hd' as <-. simpl.
  assert (j = i) as ->.
  { unfold activeFlight in E0, Ha. rewrite Hcs, Hin in E0. simpl in E0.
    destruct (list_find _ (in_Flights input)) as [[k x]|] eqn:Ek; [|done]. destruct (inactive (fl_State x)); [done|]. injection Ha as -> ->.
    erewrite (list_find_alter _ (freeze_flight (ac_At freeze)) i) in E0; [|done|exact Ek].
    destruct (inactive (fl_State (if decide (i = i) then _ else _))); [done|]. by injection E0 as <- <-. }
  rewrite Hin. unfold update_flight, set_Flights. simpl. erewrite alter_alter_same; [by destruct input|exact Hi|].
  unfold release_flight, freeze_flight. destruct f. simpl in *. by subst.
Qed.

(** ** Rates *)

Lemma replace_rate_spec at_ n rates :
  match replace_rate at_ n rates with
  | Some (_, rates') =>
      (∃ r, r ∈ rates' ∧ ns (rp_EffectiveAt r) = ns at_ ∧ rp_ArrivalsPerHour r = n) ∧
      (∀ r, ns (rp_EffectiveAt r) ≠ ns at_ → r ∈ rates' ↔ r ∈ rates)
  | None => ∀ r, r ∈ rates → ns (rp_EffectiveAt r) ≠ ns at_
  end.
Proof.
  induction rates as [|x l IH]; simpl; [by intros r ?%elem_of_nil|].
  destruct (time_eqb (rp_EffectiveAt x) at_) eqn:E; unfold time_eqb in E; zbool.
  - split; [eexists; split; [left|done]|]. intros r Hr. rewrite !elem_of_cons.
    split; (intros [->|?]; [|auto]); simpl in Hr; congruence.
  - destruct (replace_rate at_ n l) as [[c l']|].
    + destruct IH as [(r & Hr & ?) IH]. split; [exists r; split; [by right|done]|].
      intros r' Hr'. rewrite !elem_of_cons, IH by done. done.
    + intros r [->|Hr]%elem_of_cons; auto.
Qed.

Lemma new_rates_spec command rates :
  let rates' := snd (new_rates command rates) in
  (∃ r, r ∈ rates' ∧ ns (rp_EffectiveAt r) = ns (rt_EffectiveAt command) ∧ rp_ArrivalsPerHour r = rt_ArrivalsPerHour command) ∧
  (∀ r, ns (rp_EffectiveAt r) ≠ ns (rt_EffectiveAt command) → r ∈ rates' ↔ r ∈ rates).
Proof.
  unfold new_rates. pose proof (replace_rate_spec (rt_EffectiveAt command) (rt_ArrivalsPerHour command) rates) as H.
  destruct (replace_rate _ _ _) as [[c l]|]; simpl.
  - destruct H as [(r & Hr & ?) H]. split; [exists r; split; [by apply elem_of_sort_slice|done]|].
    intros r' Hr'. rewrite elem_of_sort_slice. by apply H.
  - split.
    + exists (mk_rate (rt_EffectiveAt command) (rt_ArrivalsPerHour command)). split; [|done].
      apply elem_of_sort_slice, elem_of_app. right. by apply list_elem_of_singleton.
    + intros r' Hr'. rewrite elem_of_sort_slice, elem_of_app, list_elem_of_singleton. split; [by intros [?| ->]|auto].
Qed.

Lemma restore_bounds_input command (input working : Input) :
  in_Flights working = in_Flights input ∨ in_Flights working = (release_for_rate command <$> in_Flights input) →
  in_Flights (restore_bounds input working) = in_Flights input.
Proof.
  assert (Hone : ∀ f g, g = f ∨ g = release_for_rate command f →
            set_SlotNotBefore (fl_SlotNotBefore f) (set_ProtectCurrentSlot (fl_ProtectCurrentSlot f) g) = f).
  { intros f g [-> | ->]; [by destruct f|]. unfold release_for_rate. generalize (negb (str_eqb (fl_RunwayGroupID f) (rt_RunwayGroupID command))) as b. intros b.
    destruct f; simpl. repeat case_match; done. }
  intros H. unfold restore_bounds. simpl. assert (Hlen : length (in_Flights working) = length (in_Flights input))
    by (destruct H as [H|H]; rewrite H, ?length_fmap; done).
  apply list_eq. intros i. rewrite lookup_zip_with. destruct (in_Flights input !! i) as [f|] eqn:Ef; [|done]. simpl.
  destruct H as [H|H]; rewrite H; [rewrite Ef|rewrite list_lookup_fmap, Ef]; simpl; f_equal; auto.
Qed.

(** setting a rate changes the rate point at its effective time and no
    other, in that runway group's policy and no other, and leaves every flight
    of the input as it was. *)
Theorem ApplyRate_correct input command d :
  ApplyRate input command = Ok d →
  in_Flights (de_Input d) = in_Flights input ∧ in_Revision (de_Input d) = in_Revision input ∧
  ∃ i p p', in_Policies input !! i = Some p ∧ po_RunwayGroupID p = rt_RunwayGroupID command ∧
    in_Policies (de_Input d) = <[i := p']> (in_Policies input) ∧ p' = set_Rates (po_Rates p') p ∧
    (∃ r, r ∈ po_Rates p' ∧ ns (rp_EffectiveAt r) = ns (rt_EffectiveAt command) ∧ rp_ArrivalsPerHour r = rt_ArrivalsPerHour command) ∧
    (∀ r, ns (rp_EffectiveAt r) ≠ ns (rt_EffectiveAt command) → r ∈ po_Rates p' ↔ r ∈ po_Rates p).
Proof.
  unfold ApplyRate. intros H. bind_inv H. destruct (list_find _ _) as [[i p]|] eqn:Ep; [|done].
  destruct (new_rates command (po_Rates p)) as [changed rates] eqn:Enr. bind_inv H. injection H as <-. cbn [de_Input].
  pose proof (new_rates_spec command (po_Rates p)) as Hspec. rewrite Enr in Hspec. cbn [snd] in Hspec.
  apply list_find_Some in Ep as (Hi & Hid & _). split_and!.
  - apply (restore_bounds_input command). destruct changed; [by right|by left].
  - by destruct changed.
  - exists i, p, (set_Rates rates p). split_and!; [done|done|by destruct changed|by destruct p|apply Hspec|apply Hspec].
Qed.

Definition refused {A} (o : outcome A) : Prop := ∃ e, o = Err e ∧ error_class e = Some ErrorRevisionConflict.

(** ** Instances *)

(** Two stable flights of one STAR family on committed slots, and a third flight. *)
Definition ex_committed (callsign family : string) (teta slot : Time) (sequence : Z) : Flight :=
  set_ProtectCurrentSlot true (set_CurrentSlot (Some (ex_slot slot sequence))
    (set_SelectedSTARFamily family (ex_flight callsign "M" StateStable teta))).

Definition ex_sequence : Input :=
  mk_input 7 [ex_policy 30 [] []] []
    [ex_committed "SAS1" "ERNOV" (clock 20 0) (clock 20 0) 1;
     ex_committed "SAS2" "ERNOV" (clock 22 0) (clock 22 0) 2;
     ex_committed "SAS3" "TUDLO" (clock 24 0) (clock 24 0) 3].

Definition ex_metadata (revision : Z) : CommandMetadata := mk_metadata "cmd" revision.
Definition ex_move : MoveFlightCommand := mk_move (ex_metadata 7) "SAS3" ex_group (Some "SAS2"%string) None.
Definition ex_swap : SwapFlightsCommand := mk_swap (ex_metadata 7) "SAS1" "SAS2".
Definition ex_action : FlightActionCommand := mk_action (ex_metadata 7) "SAS2" (clock 5 0).
Definition ex_rate_command : SetRateCommand := mk_set_rate (ex_metadata 7) ex_group 20 (clock 10 0).

Definition decision_or (m : outcome Decision) : Decision :=
  match m with Ok d => d | _ => mk_decision ex_sequence (mk_result [] [] [] []) false end.
Definition ex_moved : Decision := decision_or (ApplyMove ex_sequence ex_move).
Definition ex_swapped : Decision := decision_or (ApplySwap ex_sequence ex_swap).
Definition ex_froze : Decision := decision_or (ApplyManualFreeze ex_sequence ex_action).
Definition ex_released : Decision := decision_or (ReleaseManualFreeze (de_Input ex_froze) ex_action).
Definition ex_rated : Decision := decision_or (ApplyRate ex_sequence ex_rate_command).

Lemma ex_sequence_typed : typed_input ex_sequence.
Proof. apply Forall_singleton, ex_policy_typed. split; vm_compute; [discriminate|reflexivity]. Qed.

Lemma ex_sequence_continuous : continuous ex_sequence.
Proof. by repeat constructor. Qed.

Lemma ApplyMove_correct_witness :
  HasConflicts (de_Candidate ex_moved) = false ∧
  edited (λ f g, ∃ m, g = set_ManualOrder m f) ex_sequence (de_Input ex_moved) ∧
  ∃ anchor, mv_anchor ex_move = Some anchor ∧
    ((mv_BeforeCallsign ex_move = Some anchor ∧
      next_to (groupOrder (de_Candidate ex_moved) (mv_RunwayGroupID ex_move)) (mv_Callsign ex_move) anchor) ∨
     (mv_AfterCallsign ex_move = Some anchor ∧
      next_to (groupOrder (de_Candidate ex_moved) (mv_RunwayGroupID ex_move)) anchor (mv_Callsign ex_move))).
Proof.
  apply (ApplyMove_correct ex_sequence ex_move ex_moved);
    [exact ex_sequence_typed|exact ex_sequence_continuous|vm_compute; reflexivity].
Defined.

Lemma ApplySwap_correct_witness :
  HasConflicts (de_Candidate ex_swapped) = false ∧
  edited (λ f g, ∃ m, g = set_ManualOrder m f) ex_sequence (de_Input ex_swapped) ∧
  ∃ group current order i j,
    Generate ex_sequence = Ok current ∧ order ≡ₚ groupOrder current group ∧
    order !! i = Some (sw_Callsign ex_swap) ∧ order !! j = Some (sw_OtherCallsign ex_swap) ∧
    groupOrder (de_Candidate ex_swapped) group !! j = Some (sw_Callsign ex_swap) ∧
    (groupOrder (de_Candidate ex_swapped) group !! i = Some (sw_OtherCallsign ex_swap) ∨ i = j) ∧
    ∀ k, k ≠ i → k ≠ j → groupOrder (de_Candidate ex_swapped) group !! k = order !! k.
Proof. apply (ApplySwap_correct ex_sequence ex_swap ex_swapped). vm_compute. reflexivity. Defined.

Lemma ApplyManualFreeze_keeps_witness :
  ∃ e, e ∈ re_Entries (de_Candidate ex_froze) ∧ ce_Callsign e = ac_Callsign ex_action ∧ ce_Time e = clock 22 0.
Proof.
  apply (ApplyManualFreeze_keeps ex_sequence ex_action ex_froze 1
           (ex_committed "SAS2" "ERNOV" (clock 22 0) (clock 22 0) 2) (ex_slot (clock 22 0) 2));
    [exact ex_sequence_typed|exact ex_sequence_continuous|vm_compute; reflexivity..].
Defined.

Lemma manual_freeze_roundtrip_witness : de_Input ex_released = ex_sequence.
Proof.
  apply (manual_freeze_roundtrip ex_sequence ex_action ex_action ex_froze ex_released 1
           (ex_committed "SAS2" "ERNOV" (clock 22 0) (clock 22 0) 2)); vm_compute; reflexivity.
Defined.

Lemma ApplyRate_correct_witness :
  in_Flights (de_Input ex_rated) = in_Flights ex_sequence ∧ in_Revision (de_Input ex_rated) = in_Revision ex_sequence ∧
  ∃ i p p', in_Policies ex_sequence !! i = Some p ∧ po_RunwayGroupID p = rt_RunwayGroupID ex_rate_command ∧
    in_Policies (de_Input ex_rated) = <[i := p']> (in_Policies ex_sequence) ∧ p' = set_Rates (po_Rates p') p ∧
    (∃ r, r ∈ po_Rates p' ∧ ns (rp_EffectiveAt r) = ns (rt_EffectiveAt ex_rate_command) ∧
          rp_ArrivalsPerHour r = rt_ArrivalsPerHour ex_rate_command) ∧
    (∀ r, ns (rp_EffectiveAt r) ≠ ns (rt_EffectiveAt ex_rate_command) → r ∈ po_Rates p' ↔ r ∈ po_Rates p).
Proof. apply (ApplyRate_correct ex_sequence ex_rate_command ex_rated). vm_compute. reflexivity. Defined.
