(* ===== verification/SequenceGoAround.v ===== *)
(** * Go-around and its cascade

    [policy.go]: [ApplyGoAround], [cascadeGoAround], [resultWithGoAroundGroup].
    A go-around takes the first slot after its delay and pushes the arrivals
    behind it back one by one, at most [MaxCascade] of them and never a manual
    freeze. *)

From S2P Require Import Prelude GoTime SequenceData SequenceGrid SequenceSpacing SequenceOrder.
From S2P Require Import SequencePlacement SequenceAllocation SequencePrepare SequenceEngine SequenceExamples SequenceCommands.
From S2P Require Import SequencePolicy.

Local Open Scope Z_scope.

Definition protectedReason (flight : Flight) : string :=
  if freeze_is (fl_FreezeReason flight) FreezeSuperstable then ReasonFreezeSuperstable
  else if freeze_is (fl_FreezeReason flight) FreezeTMA then ReasonFreezeTMA
  else if fl_ProtectCurrentSlot flight then ReasonStable
  else if freeze_is (fl_FreezeReason flight) FreezeManual then ReasonFreezeManual
  else ReasonRateWTC.

(** ** The slot after [last] for a pushed flight *)

Definition follow_step (p : preparedPolicy) (last : allocatedEntry) (flight : preparedFlight) (t : Time)
  : outcome (Time + Time) :=
  if adjacentValid p last (mk_alloc flight t "") then Ok (inr t)
  else
    next ← nextGridAtOrAfter p (time_add t Nanosecond);
    match next with
    | None => Err (invalidTransition "go-around cascade has no WTC-valid following slot" [])
    | Some t => Ok (inl t)
    end.

Definition follow_slot (p : preparedPolicy) (last : allocatedEntry) (flight : preparedFlight) : outcome Time :=
  first ← nextGridAtOrAfter p (time_add (ae_time last) (requiredGap p (ae_flight last) flight (ae_time last)));
  match first with
  | None => Err (invalidTransition "go-around cascade has no following rate slot" [])
  | Some t => iterate (Z.to_pos (2^64)) (follow_step p last flight) t
  end.

(** ** The cascade

    [inr t] is the retry from [t] on, [inl] the new entries with the callsigns pushed back. *)

Definition cascade_result : Type := (list allocatedEntry * gset string) + Time.

Fixpoint cascade_from (p : preparedPolicy) (moving : preparedFlight) (limit : Z) (last : allocatedEntry)
    (rest result : list allocatedEntry) (cascaded : gset string) : outcome cascade_result :=
  match rest with
  | [] => Ok (inl (result, cascaded))
  | next :: rest' =>
      if adjacentValid p last next then Ok (inl (result ++ rest, cascaded))
      else if freeze_is (fl_FreezeReason (ae_flight next)) FreezeManual then
        Ok (inr (time_add (ae_time next) (requiredGap p (ae_flight next) moving (ae_time next))))
      else if limit <=? Z.of_nat (size cascaded) then
        Err (invalidTransition "go-around cascade bound exceeded" [])
      else
        nextTime ← follow_slot p last (ae_flight next);
        let next := mk_alloc (ae_flight next) nextTime ReasonGoAroundCascade in
        cascade_from p moving limit next rest' (result ++ [next]) ({[fl_Callsign (ae_flight next)]} ∪ cascaded)
  end.

Definition cascadeGoAround (p : preparedPolicy) (current : list allocatedEntry) (moving : preparedFlight)
    (candidate : Time) (limit : Z) : outcome cascade_result :=
  let index := position current candidate in
  let last_ := mk_alloc moving candidate ReasonGoAround in
  let retry :=
    match last (take index current) with
    | Some leading =>
        let required := requiredGap p (ae_flight leading) moving candidate in
        if time_sub candidate (ae_time leading) <? required then Some (time_add (ae_time leading) required) else None
    | None => None
    end in
  match retry with
  | Some t => Ok (inr t)
  | None => cascade_from p moving limit last_ (drop index current) (take index current ++ [last_]) ∅
  end.

(** The attempts of [ApplyGoAround], from [earliest] on. *)
Fixpoint goaround_attempts (attempts : nat) (p : preparedPolicy) (entries : list allocatedEntry)
    (moving : preparedFlight) (limit : Z) (earliest : Time) : outcome (list allocatedEntry * gset string) :=
  match attempts with
  | O => Err (invalidTransition "go-around could not pass a protected manual slot" [])
  | S attempts =>
      candidate ← nextGridAtOrAfter p earliest;
      match candidate with
      | None => Err (invalidTransition "go-around has no rate slot at or after its target" [])
      | Some candidate =>
          r ← cascadeGoAround p entries moving candidate limit;
          match r with
          | inl done => Ok done
          | inr earliest => goaround_attempts attempts p entries moving limit earliest
          end
      end
  end.

(** ** The result of the calculation *)

Definition goaround_candidate (group target : string) (index : nat) (e : allocatedEntry) : CandidateEntry :=
  let f := ae_flight e in
  let is_target := str_eqb (fl_Callsign f) target in
  mk_entry (fl_Callsign f) group (Z.of_nat index + 1) (ae_time e) (fl_OperationalTETA f) (pf_category f)
    (if is_target then FreezeNone else fl_FreezeReason f)
    (if is_target then false else frozen (fl_FreezeReason f))
    (if is_target then ReasonGoAround else ae_reason e).

Definition candidate_less (a b : CandidateEntry) : bool :=
  if negb (str_eqb (ce_RunwayGroupID a) (ce_RunwayGroupID b)) then str_ltb (ce_RunwayGroupID a) (ce_RunwayGroupID b)
  else ce_Sequence a <? ce_Sequence b.

Definition movement_less (a b : SlotMovement) : bool :=
  if negb (str_eqb (sm_RunwayGroupID a) (sm_RunwayGroupID b)) then str_ltb (sm_RunwayGroupID a) (sm_RunwayGroupID b)
  else str_ltb (sm_Callsign a) (sm_Callsign b).

Definition add_goaround_entry (group target : string) (r : Result) (ie : nat * allocatedEntry) : Result :=
  let '(index, e) := ie in
  let candidate := goaround_candidate group target index e in
  mk_result (re_Operations r) (re_Entries r ++ [candidate])
    (re_Movements r ++ match movementFor (ae_flight e) candidate with Some m => [m] | None => [] end)
    (re_Warnings r ++ if pf_known (ae_flight e) then []
                      else [mk_warning SeverityDegraded WarningUnknownWakeCategory group (fl_Callsign (ae_flight e)) None ""]).

Definition add_other_group (input : Input) (group : string) (r : Result) (policy : Policy) : outcome Result :=
  if str_eqb (po_RunwayGroupID policy) group then Ok r
  else
    other ← Generate (mk_input (in_Revision input) [policy] (in_STARFamilyPolicies input)
                        (filter (λ f, fl_RunwayGroupID f = po_RunwayGroupID policy) (in_Flights input)));
    Ok (mk_result (re_Operations r) (re_Entries r ++ re_Entries other) (re_Movements r ++ re_Movements other)
                  (re_Warnings r ++ re_Warnings other)).

Definition resultWithGoAroundGroup (input : Input) (group : string) (allocated : list allocatedEntry) (target : string)
  : outcome Result :=
  let own := foldl (add_goaround_entry group target) (mk_result [] [] [] []) (imap pair allocated) in
  r ← fold_outcome (add_other_group input group) own (in_Policies input);
  Ok (mk_result (re_Operations r) (sort_slice candidate_less (re_Entries r)) (sort_slice movement_less (re_Movements r))
                (sortWarnings (re_Warnings r))).

(** ** The operation *)

Definition clear_freeze (f : Flight) : Flight :=
  set_ManualOrder None
    (set_FrozenOperationalTETA None (set_FrozenAt None (set_CapturedSlot None (set_FreezeReason FreezeNone f)))).

(** The entry of another flight of the group, on its captured slot when frozen. *)
Definition goaround_entry (target : string) (entries : list allocatedEntry) (f : preparedFlight)
  : outcome (list allocatedEntry) :=
  if str_eqb (fl_Callsign f) target then Ok entries
  else if inactive (fl_State f) then Ok entries
  else
    match fl_CurrentSlot f with
    | None => Err (invalidTransition "go-around cascade requires current slot for flight %q" [AStr (fl_Callsign f)])
    | Some slot =>
        if frozen (fl_FreezeReason f) then
          match fl_CapturedSlot f with
          | None => Err (invalidTransition "frozen flight %q has no captured slot" [AStr (fl_Callsign f)])
          | Some captured => Ok (entries ++ [mk_alloc f (sl_Time captured) (protectedReason f)])
          end
        else Ok (entries ++ [mk_alloc f (sl_Time slot) (protectedReason f)])
    end.

Definition goaround_order (group target : string) (working : Input) (e : CandidateEntry) : outcome Input :=
  if negb (str_eqb (ce_RunwayGroupID e) group) then Ok working
  else
    index ← deref (flightIndex (in_Flights working) (ce_Callsign e));
    flight ← deref (in_Flights working !! index);
    if negb (str_eqb (ce_Callsign e) target) && is_nil (fl_ManualOrder flight)
       && (state_is (fl_State flight) StateStable || fl_HoldingSlotProtected flight) then Ok working
    else Ok (update_flight index (set_ManualOrder (Some (ce_Sequence e))) working).

Definition goaround_capture (revision : Z) (cascaded : gset string) (working : Input) (e : CandidateEntry) : outcome Input :=
  if negb (bool_decide (ce_Callsign e ∈ cascaded)) then Ok working
  else
    index ← deref (flightIndex (in_Flights working) (ce_Callsign e));
    flight ← deref (in_Flights working !! index);
    if freeze_is (fl_FreezeReason flight) FreezeSuperstable || freeze_is (fl_FreezeReason flight) FreezeTMA
    then Ok (update_flight index
               (set_CapturedSlot (Some (mk_slot (ce_Time e) (ce_RunwayGroupID e) (ce_Sequence e) revision (ce_Reason e))))
               working)
    else Ok working.

Definition ApplyGoAround (input : Input) (policy : GoAroundPolicy) (command : FlightActionCommand) : outcome Decision :=
  _ ← GoAroundPolicy_Validate policy;
  _ ← FlightActionCommand_Validate command (in_Revision input);
  '(targetIndex, target) ← activeFlight input (ac_Callsign command);
  _ ← guard_err (negb (state_is (fl_State target) StateGoAround))
        (invalidTransition "go-around sequence policy requires StateGoAround" []);
  _ ← guard_err (is_nil (fl_CurrentSlot target))
        (invalidTransition "go-around sequence policy requires a current slot" []);
  '(policies, prepared) ← prepareInput input;
  p ← deref (policies !! fl_RunwayGroupID target);
  let groupFlights := default [] (prepared !! fl_RunwayGroupID target) in
  entries ← fold_outcome (goaround_entry (fl_Callsign target)) [] groupFlights;
  moving ← deref (last (filter (λ f : preparedFlight, fl_Callsign f = fl_Callsign target) groupFlights));
  let moving := map_Flight clear_freeze moving in
  let entries := sortEntries entries in
  '(allocated, cascaded) ← goaround_attempts (length entries + 2) p entries moving (gp_MaxCascade policy)
                             (time_add (ac_At command) (gp_Delay policy));
  let working := update_flight targetIndex clear_freeze input in
  result ← resultWithGoAroundGroup working (fl_RunwayGroupID target) allocated (fl_Callsign target);
  working ← fold_outcome (goaround_order (fl_RunwayGroupID target) (fl_Callsign target)) working (re_Entries result);
  working ← fold_outcome (goaround_capture (in_Revision input) cascaded) working (re_Entries result);
  Ok (mk_decision working result true).

(** ** What the cascade does *)

Definition pushed_entry (e : allocatedEntry) (t : Time) : allocatedEntry :=
  mk_alloc (ae_flight e) t ReasonGoAroundCascade.

Definition callsigns (l : list allocatedEntry) : list string := (λ e : allocatedEntry, fl_Callsign (ae_flight e)) <$> l.

Definition manual_freeze (e : allocatedEntry) : bool := freeze_is (fl_FreezeReason (ae_flight e)) FreezeManual.

(** [pushed] moved to [times]; [behind] stays; everything from [lead] up to the
    first entry that stays keeps the required spacing. *)
Record cascade_outcome (p : preparedPolicy) (limit : Z) (lead : allocatedEntry)
    (pushed behind : list allocatedEntry) (times : list Time) (cascaded : gset string) : Prop := {
  co_times : length times = length pushed;
  co_spaced : chain (λ a b, adjacentValid p a b = true)
                (lead :: zip_with pushed_entry pushed times ++ option_list (head behind));
  co_manual : Forall (λ e, manual_freeze e = false) pushed;
  co_names : cascaded = list_to_set (callsigns pushed);
  co_bound : Z.of_nat (size cascaded) ≤ limit
}.

Lemma size_insert_le (x : string) (X : gset string) : (size ({[x]} ∪ X) ≤ S (size X))%nat.
Proof.
  rewrite size_union_alt, size_singleton. pose proof (subseteq_size (X ∖ {[x]}) X (subseteq_difference_l _ _ _ (reflexivity X))). lia.
Qed.

Lemma follow_slot_valid p last flight t :
  follow_slot p last flight = Ok t → adjacentValid p last (mk_alloc flight t "") = true.
Proof.
  unfold follow_slot. intros E. bind_inv E. destruct r as [first|]; [|done].
  apply (iterate_inv (follow_step p last flight) (λ _, True)
           (λ t, adjacentValid p last (mk_alloc flight t "") = true)) in E; [done|done| |done].
  intros s r _. unfold follow_step. destruct (adjacentValid _ _ _) eqn:Ev; [by intros [= <-]|].
  intros Hs. bind_inv Hs. by destruct r0.
Qed.

Lemma cascade_from_inl p moving limit lead rest result done0 result' cascaded :
  Z.of_nat (size done0) ≤ limit →
  cascade_from p moving limit lead rest result done0 = Ok (inl (result', cascaded)) →
  ∃ pushed behind times names, rest = pushed ++ behind ∧
    result' = result ++ zip_with pushed_entry pushed times ++ behind ∧
    cascaded = done0 ∪ names ∧ names = list_to_set (callsigns pushed) ∧
    length times = length pushed ∧ Forall (λ e, manual_freeze e = false) pushed ∧
    chain (λ a b, adjacentValid p a b = true)
      (lead :: zip_with pushed_entry pushed times ++ option_list (head behind)) ∧
    Z.of_nat (size cascaded) ≤ limit.
Proof.
  revert lead result done0. induction rest as [|next rest IH]; intros lead result done0 Hsz; cbn [cascade_from].
  - intros [= <- <-]. exists [], [], [], ∅. rewrite app_nil_r, union_empty_r_L. split_and!; [done|simpl; by rewrite ?app_nil_r|done|done|done|done|done|done].
  - destruct (adjacentValid p lead next) eqn:Ev.
    { intros [= <- <-]. exists [], (next :: rest), [], ∅. rewrite union_empty_r_L. split_and!; [done|done|done|done|done|done|by split|done]. }
    destruct (freeze_is _ _) eqn:Em; [done|]. destruct (Z.leb_spec limit (Z.of_nat (size done0))); [done|].
    intros E. bind_inv E. apply follow_slot_valid in E0.
    apply IH in E as (pushed & behind & times & names & -> & -> & -> & -> & Hlen & Hm & Hch & Hb); [|].
    + exists (next :: pushed), behind, (r :: times), (list_to_set (callsigns (next :: pushed))).
      split_and!; [done|by rewrite <-app_assoc| |done|simpl; lia|by constructor| |].
      * cbn [callsigns fmap list_fmap list_to_set]. apply leibniz_equiv. intros x. rewrite !elem_of_union. tauto.
      * cbn [zip_with app]. apply chain_cons. split; [exact Hch|intros ? [= <-]; exact E0].
      * done.
    + pose proof (size_insert_le (fl_Callsign (ae_flight next)) done0). cbn [ae_flight] in *. lia.
Qed.

(** The entries [current] with [moving] placed at [candidate]. *)
Definition cascaded_at (p : preparedPolicy) (current : list allocatedEntry) (moving : preparedFlight)
    (candidate : Time) (limit : Z) (result : list allocatedEntry) (cascaded : gset string) : Prop :=
  ∃ ahead pushed behind times,
    current = ahead ++ pushed ++ behind ∧
    ahead = take (position current candidate) current ∧
    (∀ e, last ahead = Some e →
       requiredGap p (ae_flight e) moving candidate ≤ time_sub candidate (ae_time e)) ∧
    result = ahead ++ mk_alloc moving candidate ReasonGoAround :: zip_with pushed_entry pushed times ++ behind ∧
    cascade_outcome p limit (mk_alloc moving candidate ReasonGoAround) pushed behind times cascaded.

Lemma cascadeGoAround_facts p current moving candidate limit result cascaded :
  0 ≤ limit →
  cascadeGoAround p current moving candidate limit = Ok (inl (result, cascaded)) →
  cascaded_at p current moving candidate limit result cascaded.
Proof.
  intros Hlimit. unfold cascadeGoAround. cbv zeta. set (k := position current candidate).
  intros E. destruct (match last (take k current) with Some _ => _ | None => None end) as [t|] eqn:Er; [done|].
  apply cascade_from_inl in E as (pushed & behind & times & names & Hrest & -> & -> & -> & ? & ? & ? & ?);
    [|by rewrite size_empty].
  rewrite union_empty_l_L in *. exists (take k current), pushed, behind, times. split_and!.
  - by rewrite <-Hrest, take_drop.
  - done.
  - intros e He. rewrite He in Er. by destruct (Z.ltb_spec (time_sub candidate (ae_time e))
      (requiredGap p (ae_flight e) moving candidate)).
  - by rewrite <-app_assoc.
  - by split.
Qed.

(** A retry is asked for only behind the arrival ahead or a manual freeze. *)
Lemma cascade_from_inr p moving limit lead rest result done0 t :
  cascade_from p moving limit lead rest result done0 = Ok (inr t) →
  ∃ e, e ∈ rest ∧ manual_freeze e = true ∧
    t = time_add (ae_time e) (requiredGap p (ae_flight e) moving (ae_time e)).
Proof.
  revert lead result done0. induction rest as [|next rest IH]; intros lead result done0; cbn [cascade_from]; [done|].
  destruct (adjacentValid p lead next); [done|].
  destruct (freeze_is _ _) eqn:Em; [intros [= <-]; exists next; split_and!; [left|..]; done|].
  destruct (limit <=? _); [done|]. intros E. bind_inv E.
  apply IH in E as (e & He & ? & ?). exists e. split_and!; [by right|..]; done.
Qed.

(** ** The cascade ends *)

Record gaps_bounded (p : preparedPolicy) : Prop := {
  gb_pairs : ∀ pair d, pp_spacing p !! pair = Some d → 0 ≤ d < 2^63;
  gb_fallback : 0 ≤ pp_fallback p < 2^63
}.

Lemma requiredGap_bounded p a b t :
  grid_wf p → gaps_bounded p → 0 ≤ requiredGap p a b t < 2^63.
Proof.
  intros Hwf [Hp Hf]. pose proof (intervalAt_nonneg p t Hwf).
  assert (Hw : 0 ≤ wakeGap p a b < 2^63).
  { unfold wakeGap. destruct (pf_known a && pf_known b); [|done].
    destruct (pp_spacing p !! _) eqn:E; [by eapply Hp|lia]. }
  assert (Hs : sameSTARGap p a b t < 2^63).
  { unfold sameSTARGap. repeat case_match; try lia.
    match goal with |- dur_mul ?x ?y < _ => pose proof (wrap64_range (x * y)) as Hr end.
    unfold in_int64 in Hr. unfold dur_mul. lia. }
  unfold requiredGap. unfold Hour, Minute, Second in *. lia.
Qed.

(** Far enough behind, any arrival is separated. *)
Lemma adjacentValid_far p a b : grid_wf p → gaps_bounded p →
  ns (ae_time a) + 2^63 ≤ ns (ae_time b) → adjacentValid p a b = true.
Proof.
  intros Hwf Hb Hfar. unfold adjacentValid.
  replace (after (ae_time b) (ae_time a)) with true by (symmetry; time_lia). cbn [negb].
  pose proof (requiredGap_bounded p (ae_flight a) (ae_flight b) (ae_time b) Hwf Hb).
  apply Z.leb_le, time_sub_ge'; lia.
Qed.

Lemma follow_slot_returns p lead flight :
  grid_wf p → grid_horizon p → gaps_bounded p → po_ContinuousSpacing p = true →
  returns (follow_slot p lead flight).
Proof.
  intros Hwf Hh Hb Hc. unfold follow_slot. apply returns_bind; [by apply next_grid_returns|].
  intros [first|] E; [|done]. apply next_grid_continuous in E as (Hfirst & _); [|done|done].
  pose proof (requiredGap_bounded p (ae_flight lead) flight (ae_time lead) Hwf Hb).
  simpl in Hfirst.
  apply (iterate_returns _ (λ _, True) (λ t, Z.max 0 (ns (ae_time lead) + 2^63 - ns t))); [| |done|lia].
  - intros t _. unfold follow_step. destruct (adjacentValid _ _ _); [done|].
    apply returns_bind; [by apply next_grid_returns|]. intros [t'|] _; done.
  - intros t t' _. unfold follow_step. destruct (adjacentValid _ _ _) eqn:Ev; [done|]. intros E. bind_inv E.
    destruct r as [next|]; [|done]. injection E as <-.
    apply next_grid_continuous in E0 as (Ht' & _); [|done|done]. simpl in Ht'. unfold Nanosecond in Ht'.
    split; [done|].
    assert (ns t < ns (ae_time lead) + 2^63); [|lia].
    destruct (Z.lt_ge_cases (ns t) (ns (ae_time lead) + 2^63)); [done|].
    by rewrite adjacentValid_far in Ev.
Qed.

Lemma cascade_from_returns p moving limit lead rest result done0 :
  grid_wf p → grid_horizon p → gaps_bounded p → po_ContinuousSpacing p = true →
  returns (cascade_from p moving limit lead rest result done0).
Proof.
  intros Hwf Hh Hb Hc. revert lead result done0.
  induction rest as [|next rest IH]; intros lead result done0; cbn [cascade_from]; [done|].
  destruct (adjacentValid _ _ _); [done|]. destruct (freeze_is _ _); [done|]. destruct (_ <=? _); [done|].
  apply returns_bind; [by apply follow_slot_returns|auto].
Qed.

(** Under continuous spacing the attempts of a go-around come to an end,
    the search for each following slot included. *)
Theorem goaround_attempts_returns attempts p entries moving limit earliest :
  grid_wf p → grid_horizon p → gaps_bounded p → po_ContinuousSpacing p = true →
  returns (goaround_attempts attempts p entries moving limit earliest).
Proof.
  intros Hwf Hh Hb Hc. revert earliest. induction attempts as [|n IH]; intros earliest; cbn [goaround_attempts]; [done|].
  apply returns_bind; [by apply next_grid_returns|]. intros [c|] _; [|done].
  apply returns_bind.
  - unfold cascadeGoAround. cbv zeta.
    destruct (match last (take (position entries c) entries) with Some _ => _ | None => None end); [done|].
    by apply cascade_from_returns.
  - intros [done0|t] _; [done|apply IH].
Qed.

(** ** Where the go-around goes *)

Lemma cascadeGoAround_retry p current moving candidate limit t :
  grid_wf p → gaps_bounded p → time_ordered current →
  cascadeGoAround p current moving candidate limit = Ok (inr t) → ns candidate ≤ ns t.
Proof.
  intros Hwf Hb Hord. unfold cascadeGoAround. cbv zeta.
  pose proof (λ a b t, requiredGap_bounded p a b t Hwf Hb) as Hgap.
  destruct (position_split current candidate Hord) as (_ & _ & Hhi).
  destruct (match last (take _ current) with Some _ => _ | None => None end) as [t'|] eqn:Er.
  - intros [= <-]. destruct (last (take _ current)) as [e|]; [|done].
    destruct (Z.ltb_spec (time_sub candidate (ae_time e)) (requiredGap p (ae_flight e) moving candidate)) as [Hlt|_]; [|done].
    injection Er as <-. simpl. apply time_sub_lt in Hlt; [lia|]. by apply Hgap.
  - intros (e & He & _ & ->)%cascade_from_inr. specialize (Hhi e He). specialize (Hgap (ae_flight e) moving (ae_time e)).
    simpl. unfold entry_ns in Hhi. lia.
Qed.

Lemma goaround_attempts_facts attempts p entries moving limit earliest result cascaded :
  grid_wf p → gaps_bounded p → po_ContinuousSpacing p = true → time_ordered entries → 0 ≤ limit →
  goaround_attempts attempts p entries moving limit earliest = Ok (result, cascaded) →
  ∃ candidate, ns earliest ≤ ns candidate ∧ started p candidate ∧ ¬ blocked p candidate ∧
    cascaded_at p entries moving candidate limit result cascaded.
Proof.
  intros Hwf Hb Hc Hord Hl. revert earliest. induction attempts as [|n IH]; intros earliest; cbn [goaround_attempts]; [done|].
  intros E. bind_inv E. destruct r as [c|]; [|done]. bind_inv E.
  apply next_grid_continuous in E0 as (Hle & Hst & Hbl); [|done|done]. destruct r as [[result' cascaded']|t].
  - injection E as -> ->. exists c. split_and!; [done..|by apply cascadeGoAround_facts].
  - apply cascadeGoAround_retry in E1; [|done..]. apply IH in E as (c' & ? & ? & ? & ?).
    exists c'. split_and!; [lia|done..].
Qed.

(** C27: Under continuous spacing a go-around gets an unblocked slot not before
    the requested instant; the arrivals ahead and those after the last pushed
    one keep their entries, the pushed ones stay in their order directly behind
    it, none of them is manually frozen, at most [limit] callsigns are pushed,
    and from the go-around to the first arrival that stays every pair keeps the
    required spacing. *)
Theorem goaround_correct attempts p entries moving limit earliest result cascaded :
  grid_wf p → gaps_bounded p → po_ContinuousSpacing p = true → 0 ≤ limit →
  goaround_attempts attempts p (sortEntries entries) moving limit earliest = Ok (result, cascaded) →
  ∃ candidate, ns earliest ≤ ns candidate ∧ started p candidate ∧ ¬ blocked p candidate ∧
    cascaded_at p (sortEntries entries) moving candidate limit result cascaded.
Proof. intros. eapply goaround_attempts_facts; eauto. apply settled_ordered, sortEntries_settled. Qed.

Lemma policy_gaps_bounded id p : policy_wf id p → gaps_bounded p.
Proof.
  intros Hp. pose proof (pw_fallback _ _ Hp) as [? ?]. split; [|lia].
  intros pair d Hd. pose proof (pw_nonneg _ _ Hp pair d Hd). lia.
Qed.

(** ** The operation on the whole input *)

(** What a go-around of [target] may change of a flight: every flight keeps all
    but its freeze and manual order, and a flight other than the target keeps
    its freeze. *)
Definition repositioned (target : string) (f g : Flight) : Prop :=
  clear_freeze g = clear_freeze f ∧
  (fl_Callsign f ≠ target → ∃ m c, g = set_ManualOrder m (set_CapturedSlot c f)).

Lemma clear_freeze_callsign f g : clear_freeze g = clear_freeze f → fl_Callsign g = fl_Callsign f.
Proof. intros Heq. exact (f_equal fl_Callsign Heq). Qed.

#[export] Instance repositioned_preorder target : PreOrder (repositioned target).
Proof.
  split.
  - intros f. split; [done|]. intros _. exists (fl_ManualOrder f), (fl_CapturedSlot f). by destruct f.
  - intros f g h [Hfg Hfg'] [Hgh Hgh']. split; [by etrans|]. intros Hne.
    destruct (Hfg' Hne) as (m & c & ->). destruct (Hgh' Hne) as (m' & c' & ->).
    exists m', c'. by destruct f.
Qed.

Lemma set_CapturedSlot_repositioned target c f : repositioned target f (set_CapturedSlot c f).
Proof. split; [by destruct f|]. intros _. exists (fl_ManualOrder f), c. by destruct f. Qed.

Lemma set_ManualOrder_repositioned target m f : repositioned target f (set_ManualOrder m f).
Proof. split; [by destruct f|]. intros _. exists m, (fl_CapturedSlot f). by destruct f. Qed.

Lemma goaround_order_edited group target working e w :
  goaround_order group target working e = Ok w → edited (repositioned target) working w.
Proof.
  unfold goaround_order. destruct (negb _); [by intros [= <-]|]. intros E. bind_inv E. bind_inv E.
  destruct (_ && _); [by injection E as <-|]. injection E as <-.
  apply edited_update; [apply _|apply set_ManualOrder_repositioned].
Qed.

Lemma goaround_capture_edited target revision cascaded working e w :
  goaround_capture revision cascaded working e = Ok w → edited (repositioned target) working w.
Proof.
  unfold goaround_capture. destruct (negb _); [by intros [= <-]|]. intros E. bind_inv E. bind_inv E.
  destruct (_ || _); [|by injection E as <-]. injection E as <-.
  apply edited_update; [apply _|apply set_CapturedSlot_repositioned].
Qed.

Lemma edited_fold {A} R (step : Input → A → outcome Input) l input w :
  PreOrder R → (∀ w a w', step w a = Ok w' → edited R w w') →
  fold_outcome step input l = Ok w → edited R input w.
Proof.
  intros HR Hstep. apply (fold_outcome_inv step (edited R input)); [|apply edited_preorder, _].
  intros s a s' Hs Ha. etrans; [exact Hs|by eapply Hstep].
Qed.

(** *** The candidate of the target *)

Lemma add_goaround_entries group target l r :
  re_Entries (foldl (add_goaround_entry group target) r l) =
    re_Entries r ++ ((λ ie, goaround_candidate group target ie.1 ie.2) <$> l).
Proof.
  revert r. induction l as [|[i e] l IH]; intros r; cbn [foldl]; [by rewrite app_nil_r|].
  rewrite IH. cbn [add_goaround_entry re_Entries]. by rewrite <-app_assoc.
Qed.

Lemma add_other_entries input group l r r' e :
  fold_outcome (add_other_group input group) r l = Ok r' → e ∈ re_Entries r → e ∈ re_Entries r'.
Proof.
  intros E He. revert E. apply (fold_outcome_inv _ (λ r, e ∈ re_Entries r)); [|done]. clear He.
  intros s policy s' He. unfold add_other_group. destruct (str_eqb _ _); [by intros [= <-]|].
  intros E. bind_inv E. injection E as <-. cbn [re_Entries]. apply elem_of_app. by left.
Qed.

Lemma resultWithGoAroundGroup_entry input group allocated target r i a :
  resultWithGoAroundGroup input group allocated target = Ok r → allocated !! i = Some a →
  goaround_candidate group target i a ∈ re_Entries r.
Proof.
  unfold resultWithGoAroundGroup. cbv zeta. intros E Ha. bind_inv E. injection E as <-. cbn [re_Entries].
  apply elem_of_sort_slice. eapply add_other_entries; [exact E0|].
  rewrite add_goaround_entries. cbn [re_Entries app]. apply list_elem_of_fmap. exists (i, a). split; [done|].
  apply list_elem_of_lookup. exists i. rewrite list_lookup_imap, Ha. done.
Qed.

Lemma edited_update_at (R : Flight → Flight → Prop) index g input f :
  Reflexive R → in_Flights input !! index = Some f → R f (g f) → edited R input (update_flight index g input).
Proof.
  intros Hrefl Hf Hg. split; [|done..]. simpl. apply Forall2_same_length_lookup_2; [by rewrite length_alter|].
  intros i x y Hx Hy. destruct (decide (i = index)) as [->|Hne].
  - rewrite list_lookup_alter_eq, Hf in Hy. rewrite Hf in Hx. injection Hx as <-. by injection Hy as <-.
  - rewrite list_lookup_alter_ne in Hy by done. rewrite Hx in Hy. by injection Hy as <-.
Qed.

Lemma clear_freeze_repositioned f : repositioned (fl_Callsign f) f (clear_freeze f).
Proof. split; [by destruct f|done]. Qed.

(** The stages of a go-around that succeeds. *)
Lemma ApplyGoAround_stages input policy command d :
  ApplyGoAround input policy command = Ok d →
  ∃ targetIndex target policies prepared p entries moving allocated cascaded working result,
    in_Flights input !! targetIndex = Some target ∧ fl_Callsign target = ac_Callsign command ∧
    inactive (fl_State target) = false ∧
    prepareInput input = Ok (policies, prepared) ∧ policies !! fl_RunwayGroupID target = Some p ∧
    0 < gp_Delay policy ∧ 1 ≤ gp_MaxCascade policy ∧
    goaround_attempts (length (sortEntries entries) + 2) p (sortEntries entries) moving (gp_MaxCascade policy)
      (time_add (ac_At command) (gp_Delay policy)) = Ok (allocated, cascaded) ∧
    fl_Callsign moving = fl_Callsign target ∧
    resultWithGoAroundGroup (update_flight targetIndex clear_freeze input) (fl_RunwayGroupID target) allocated
      (fl_Callsign target) = Ok result ∧
    edited (repositioned (ac_Callsign command)) input working ∧ d = mk_decision working result true.
Proof.
  unfold ApplyGoAround. intros E. bind_inv E. bind_inv E. bind_inv E. destruct r1 as [targetIndex target].
  bind_inv E. bind_inv E. bind_inv E. destruct r3 as [policies prepared]. bind_inv E. bind_inv E. bind_inv E.
  bind_inv E. destruct r6 as [allocated cascaded]. bind_inv E. bind_inv E. bind_inv E. injection E as <-.
  apply activeFlight_ok in E2 as (Hi & Hid & Hact). unfold GoAroundPolicy_Validate in E0.
  apply guard_err_ok in E0. bsplit. zbool.
  exists targetIndex, target, policies, prepared, r3, r4, (map_Flight clear_freeze r5), allocated, cascaded, r8, r6.
  split_and!; try done.
  - unfold deref in E6. by destruct (policies !! _); [injection E6 as ->|].
  - assert (Hl : last (filter (λ f : preparedFlight, fl_Callsign f = fl_Callsign target)
               (default [] (prepared !! fl_RunwayGroupID target))) = Some r5)
      by (unfold deref in E8; by destruct (last _); [injection E8 as ->|]).
    apply last_Some_elem_of, list_elem_of_filter in Hl as [Hc _]. exact Hc.
  - rewrite <-Hid. etrans; [by eapply edited_update_at; [apply _|exact Hi|apply clear_freeze_repositioned]|].
    etrans; [eapply edited_fold; [apply _| |exact E11]; intros ???; apply goaround_order_edited|].
    eapply edited_fold; [apply _| |exact E12]. intros ???. apply goaround_capture_edited.
Qed.

Lemma prepared_continuous input policies flights group p :
  typed_input input → continuous input → prepareInput input = Ok (policies, flights) →
  policies !! group = Some p → policy_wf group p ∧ po_ContinuousSpacing p = true.
Proof.
  intros Ht Hc E Hp. destruct (io_policies _ _ _ (prepareInput_ok _ _ _ Ht E) group p Hp)
    as (Hwf & raw & Hraw & gaps & closures & Hpol & _).
  split; [done|]. rewrite Hpol. simpl. unfold continuous in Hc. rewrite Forall_forall in Hc. by apply Hc.
Qed.

(** A successful go-around gives the flight an unprotected slot no earlier
    than the requested delay after the command, and changes nothing in the input
    but freezes and manual orders: other flights keep their freeze, and policies
    and revision are kept. *)
Theorem ApplyGoAround_correct input policy command d :
  typed_input input → continuous input → ApplyGoAround input policy command = Ok d →
  edited (repositioned (ac_Callsign command)) input (de_Input d) ∧
  ∃ e, e ∈ re_Entries (de_Candidate d) ∧ ce_Callsign e = ac_Callsign command ∧
    ns (ac_At command) + gp_Delay policy ≤ ns (ce_Time e) ∧
    ce_Protected e = false ∧ ce_FreezeReason e = FreezeNone ∧ ce_Reason e = ReasonGoAround.
Proof.
  intros Ht Hc E. apply ApplyGoAround_stages in E as (i & target & policies & prepared & p & entries & moving &
    allocated & cascaded & working & result & Hi & Hid & _ & Hprep & Hp & Hd & Hm & Hgo & Hmoving & Hres & Hed & ->).
  cbn [de_Input de_Candidate]. split; [done|].
  destruct (prepared_continuous _ _ _ _ _ Ht Hc Hprep Hp) as [Hwf Hcp].
  apply goaround_attempts_facts in Hgo as (c & Hle & _ & _ & ahead & pushed & behind & times & _ & _ & _ & -> & _);
    [|apply Hwf|by eapply policy_gaps_bounded|done|apply settled_ordered, sortEntries_settled|lia].
  simpl in Hle.
  assert (Ha : (ahead ++ mk_alloc moving c ReasonGoAround :: zip_with pushed_entry pushed times ++ behind) !! length ahead
               = Some (mk_alloc moving c ReasonGoAround)) by by rewrite list_lookup_middle.
  pose proof (resultWithGoAroundGroup_entry _ _ _ _ _ _ _ Hres Ha) as Hentry.
  eexists. split; [exact Hentry|]. unfold goaround_candidate.
  cbn [ae_flight ae_time ae_reason ce_Callsign ce_Time ce_Protected ce_FreezeReason ce_Reason].
  rewrite Hmoving, str_eqb_refl. split_and!; done.
Qed.

(** ** Revisions *)

Section stale.
Context (input : Input) (m : CommandMetadata).
Hypothesis Hid : validID (cm_CommandID m) = true.
Hypothesis Hstale : cm_ExpectedRevision m ≠ in_Revision input.

Lemma stale_metadata {A} (k : unit → outcome A) : refused (validateMetadata m (in_Revision input) ≫= k).
Proof using Hid Hstale. unfold validateMetadata. rewrite Hid. simpl. rewrite (proj2 (Z.eqb_neq _ _) Hstale). by eexists. Qed.

Lemma stale_action {A} callsign at_ (k : unit → outcome A) :
  refused (validateFlightAction m (in_Revision input) callsign at_ ≫= k).
Proof using Hid Hstale.
  unfold validateFlightAction, validateMetadata. rewrite Hid. simpl. rewrite (proj2 (Z.eqb_neq _ _) Hstale). by eexists.
Qed.
End stale.

(** C30: a command issued against another revision is refused with a revision
    conflict by every operation that takes a command - move, manual freeze and its
    release, rate, swap and go-around - whatever the input. A swap must be well
    formed and a go-around policy valid, which both are checked before the revision. *)
Theorem stale_revision_refused input (m : CommandMetadata) :
  validID (cm_CommandID m) = true → cm_ExpectedRevision m ≠ in_Revision input →
  (∀ c, mv_Metadata c = m → refused (ApplyMove input c)) ∧
  (∀ c, ac_Metadata c = m → refused (ApplyManualFreeze input c)) ∧
  (∀ c, ac_Metadata c = m → refused (ReleaseManualFreeze input c)) ∧
  (∀ c, rt_Metadata c = m → refused (ApplyRate input c)) ∧
  (∀ c, sw_Metadata c = m → SwapFlightsCommand_Validate c = Ok tt → refused (ApplySwap input c)) ∧
  (∀ policy c, ac_Metadata c = m → GoAroundPolicy_Validate policy = Ok tt → refused (ApplyGoAround input policy c)).
Proof.
  intros Hid Hr. split_and!.
  - intros c Hm. unfold ApplyMove, MoveFlightCommand_Validate, validateMetadata. rewrite Hm, Hid. simpl.
    rewrite (proj2 (Z.eqb_neq _ _) Hr). by eexists.
  - intros c Hm. unfold ApplyManualFreeze, FlightActionCommand_Validate. rewrite Hm. by apply stale_action.
  - intros c Hm. unfold ReleaseManualFreeze, FlightActionCommand_Validate. rewrite Hm. by apply stale_action.
  - intros c Hm. unfold ApplyRate, SetRateCommand_Validate, validateMetadata. rewrite Hm, Hid. simpl.
    rewrite (proj2 (Z.eqb_neq _ _) Hr). by eexists.
  - intros c Hm Hs. unfold ApplySwap. rewrite Hs, Hm. by apply stale_metadata.
  - intros policy c Hm Hp. unfold ApplyGoAround, FlightActionCommand_Validate. rewrite Hp, Hm. by apply stale_action.
Qed.

(** ** Instances *)

Definition ex_around : Input :=
  mk_input 7 [ex_policy 30 [] []] []
    [set_CurrentSlot (Some (ex_slot (clock 20 0) 1)) (ex_flight "SAS1" "M" StateGoAround (clock 20 0));
     ex_committed "SAS2" "ERNOV" (clock 26 0) (clock 26 0) 2;
     ex_committed "SAS3" "TUDLO" (clock 28 0) (clock 28 0) 3;
     ex_committed "SAS4" "TUDLO" (clock 40 0) (clock 40 0) 4].

Definition ex_around_policy : GoAroundPolicy := mk_goaround (20 * Minute) 3.
Definition ex_around_command : FlightActionCommand := mk_action (ex_metadata 7) "SAS1" (clock 6 0).
Definition ex_around_decision : Decision := decision_or (ApplyGoAround ex_around ex_around_policy ex_around_command).

Lemma ApplyGoAround_correct_witness :
  (λ e, (ce_Callsign e, ce_Time e)) <$> re_Entries (de_Candidate ex_around_decision) =
    [("SAS1"%string, clock 26 0); ("SAS2"%string, clock 28 0); ("SAS3"%string, clock 30 0); ("SAS4"%string, clock 40 0)] ∧
  edited (repositioned (ac_Callsign ex_around_command)) ex_around (de_Input ex_around_decision) ∧
  ∃ e, e ∈ re_Entries (de_Candidate ex_around_decision) ∧ ce_Callsign e = ac_Callsign ex_around_command ∧
    ns (ac_At ex_around_command) + gp_Delay ex_around_policy ≤ ns (ce_Time e) ∧
    ce_Protected e = false ∧ ce_FreezeReason e = FreezeNone ∧ ce_Reason e = ReasonGoAround.
Proof.
  split; [vm_compute; reflexivity|].
  apply (ApplyGoAround_correct ex_around ex_around_policy ex_around_command).
  - apply Forall_singleton, ex_policy_typed. split; vm_compute; [discriminate|reflexivity].
  - by repeat constructor.
  - vm_compute. reflexivity.
Defined.

(** The prepared entries of [ex_around] other than the go-around's. *)
Definition ex_around_prepared : preparedPolicy * list preparedFlight :=
  match prepareInput ex_around with
  | Ok (policies, prepared) =>
      (default ex_prepared (policies !! ex_group), default [] (prepared !! ex_group))
  | _ => (ex_prepared, [])
  end.

Definition ex_around_entries : list allocatedEntry :=
  match fold_outcome (goaround_entry "SAS1") [] (snd ex_around_prepared) with Ok l => l | _ => [] end.

Definition ex_around_moving : preparedFlight :=
  default (mk_pflight (ex_flight "" "" StateStable zero_time) "" false None "") (head (snd ex_around_prepared)).

Definition ex_around_allocated : list allocatedEntry * gset string :=
  match goaround_attempts 5 (fst ex_around_prepared) (sortEntries ex_around_entries) ex_around_moving 3 (clock 26 0) with
  | Ok r => r | _ => ([], ∅) end.

Lemma ex_around_wf : policy_wf ex_group (fst ex_around_prepared) ∧ po_ContinuousSpacing (fst ex_around_prepared) = true.
Proof.
  destruct (prepareInput ex_around) as [[policies prepared]| | |] eqn:E; [|vm_compute in E; discriminate..].
  destruct (policies !! ex_group) as [p|] eqn:Ep.
  - unfold ex_around_prepared. rewrite E, Ep. simpl. eapply prepared_continuous; [| |exact E|exact Ep].
    + apply Forall_singleton, ex_policy_typed. split; vm_compute; [discriminate|reflexivity].
    + by repeat constructor.
  - exfalso. assert (Hk : match prepareInput ex_around with Ok (m, _) => is_nil (m !! ex_group) | _ => true end = false)
      by (vm_compute; reflexivity). rewrite E, Ep in Hk. discriminate.
Qed.

Lemma goaround_correct_witness :
  (λ e : allocatedEntry, (fl_Callsign (ae_flight e), ae_time e)) <$> fst ex_around_allocated =
    [("SAS1"%string, clock 26 0); ("SAS2"%string, clock 28 0); ("SAS3"%string, clock 30 0); ("SAS4"%string, clock 40 0)] ∧
  ∃ candidate, ns (clock 26 0) ≤ ns candidate ∧ started (fst ex_around_prepared) candidate ∧
    ¬ blocked (fst ex_around_prepared) candidate ∧
    cascaded_at (fst ex_around_prepared) (sortEntries ex_around_entries) ex_around_moving candidate 3
      (fst ex_around_allocated) (snd ex_around_allocated).
Proof.
  split; [vm_compute; reflexivity|]. destruct ex_around_wf as [Hwf Hc].
  apply (goaround_correct 5); [apply Hwf|by apply (policy_gaps_bounded ex_group)|done|lia|vm_compute; reflexivity].
Defined.

Lemma goaround_attempts_returns_witness :
  returns (goaround_attempts 5 (fst ex_around_prepared) (sortEntries ex_around_entries) ex_around_moving 3 (clock 26 0)).
Proof.
  destruct ex_around_wf as [Hwf Hc]. apply goaround_attempts_returns; [apply Hwf| |by apply (policy_gaps_bounded ex_group)|done].
  split; repeat constructor; vm_compute; discriminate.
Defined.

(** ** Pushed forward

    The gap the cascade adds is that of the slot in front, the gap it checks that
    of the slot behind. Where the rate falls in between, the arrival it pushes
    lands earlier than before, and earlier than its own estimate. *)

Definition ex_pull : Input :=
  mk_input 7 [set_Rates [mk_rate (clock 0 0) 60; mk_rate (clock 40 0) 6] (ex_policy 60 [] [])] []
    [set_CurrentSlot (Some (ex_slot (clock 20 0) 1)) (ex_flight "SAS1" "M" StateGoAround (clock 20 0));
     ex_committed "SAS2" "ERNOV" (clock 42 0) (clock 42 0) 2].

Definition ex_pull_policy : GoAroundPolicy := mk_goaround (30 * Minute) 3.
Definition ex_pull_command : FlightActionCommand := mk_action (ex_metadata 7) "SAS1" (clock 7 0).

(** A go-around can pull a following arrival forward: in this input the
    stable arrival, estimated and sequenced at minute 42, is given minute 38
    although the policy tolerates 30 seconds before the estimate. *)
Theorem goaround_pulls_forward :
  ∃ d e, ApplyGoAround ex_pull ex_pull_policy ex_pull_command = Ok d ∧
    e ∈ re_Entries (de_Candidate d) ∧ ce_Callsign e = "SAS2"%string ∧ ce_Reason e = ReasonGoAroundCascade ∧
    ce_OperationalTETA e = clock 42 0 ∧ ce_Time e = clock 38 0.
Proof.
  eexists (decision_or (ApplyGoAround ex_pull ex_pull_policy ex_pull_command)), _.
  split; [vm_compute; reflexivity|].
  split; [vm_compute; right; left|]. split_and!; vm_compute; reflexivity.
Qed.

Lemma stale_revision_refused_witness :
  (∀ c, mv_Metadata c = ex_metadata 6 → refused (ApplyMove ex_sequence c)) ∧
  (∀ c, ac_Metadata c = ex_metadata 6 → refused (ApplyManualFreeze ex_sequence c)) ∧
  (∀ c, ac_Metadata c = ex_metadata 6 → refused (ReleaseManualFreeze ex_sequence c)) ∧
  (∀ c, rt_Metadata c = ex_metadata 6 → refused (ApplyRate ex_sequence c)) ∧
  (∀ c, sw_Metadata c = ex_metadata 6 → SwapFlightsCommand_Validate c = Ok tt → refused (ApplySwap ex_sequence c)) ∧
  (∀ policy c, ac_Metadata c = ex_metadata 6 → GoAroundPolicy_Validate policy = Ok tt → refused (ApplyGoAround ex_sequence policy c)).
Proof. apply (stale_revision_refused ex_sequence (ex_metadata 6)); [vm_compute; reflexivity|discriminate]. Defined.
