(* ===== verification/Lifecycle.v ===== *)
(** * The lifecycle reducer

    [internal/aman/lifecycle/reducer.go]: [Reduce] applies one piece of
    evidence about a flight to its persisted aggregate, with the parts of
    [internal/aman/types.go] it reads: the lifecycle state, the absence timer
    and their validation. The aggregate is a value: the code copies what it
    changes. Fields of the aggregate and of its prediction the reducer never
    looks at are the type parameters [O] and [P]; [local_format] is the
    rendering of instants outside UTC, which depends on the host's zones. *)

From Stdlib Require Import Ascii String.
From stdpp Require Import pretty.
From S2P Require Import Prelude GoTime SequenceData DomainValues.

Local Open Scope Z_scope.

(** ** Statuses, reasons, evidence *)

Definition DataFresh : string := "fresh".
Definition DataStale : string := "stale".
Definition DataDisconnected : string := "disconnected".

Definition DataStatus_Valid (s : string) : bool :=
  str_eqb s DataFresh || str_eqb s DataStale || str_eqb s DataDisconnected.

Inductive LifecycleReason :=
| ReasonInitial | ReasonAirborneDetected | ReasonUnstableHorizon | ReasonStableHorizon
| ReasonGoAroundConfirmed | ReasonLandingConfirmed | ReasonSuddenAppearance | ReasonManualRemoval
| ReasonDiverted | ReasonLandedTimeout | ReasonPlannedCancellation | ReasonSourceDisappearance
| ReasonOther (value : string).

Definition LifecycleReason_Valid (r : LifecycleReason) : bool :=
  match r with ReasonOther _ => false | _ => true end.

Inductive EventKind :=
| EventAirborneDetected | EventPredictionAccepted | EventDataStatusChanged | EventSourceRestarted
| EventSuddenAppearance | EventFlightObserved | EventFlightMissing | EventRemovalTimeout
| EventPredictionExpired | EventGoAroundConfirmed | EventLandingConfirmed | EventManualRemoval
| EventLandedTimeout | EventPlannedCancellation
| EventOther (value : string).

#[export] Instance EventKind_eq_dec : EqDecision EventKind.
Proof. solve_decision. Defined.

Definition EventKind_Valid (k : EventKind) : bool := match k with EventOther _ => false | _ => true end.

Definition kind_is (a b : EventKind) : bool := bool_decide (a = b).

Definition kind_text (k : EventKind) : string :=
  match k with
  | EventAirborneDetected => "airborne_detected"
  | EventPredictionAccepted => "prediction_accepted"
  | EventDataStatusChanged => "data_status_changed"
  | EventSourceRestarted => "source_restarted"
  | EventSuddenAppearance => "sudden_appearance"
  | EventFlightObserved => "flight_observed"
  | EventFlightMissing => "flight_missing"
  | EventRemovalTimeout => "removal_timeout"
  | EventPredictionExpired => "prediction_expired"
  | EventGoAroundConfirmed => "go_around_confirmed"
  | EventLandingConfirmed => "landing_confirmed"
  | EventManualRemoval => "manual_removal"
  | EventLandedTimeout => "landed_timeout"
  | EventPlannedCancellation => "planned_cancellation"
  | EventOther value => value
  end.

Definition state_text (s : FlightState) : string :=
  match s with
  | StatePlanned => "planned"
  | StateAirborne => "airborne"
  | StateUnstable => "unstable"
  | StateStable => "stable"
  | StateLanded => "landed"
  | StateGoAround => "go_around"
  | StateRemoved => "removed"
  | StateOther value => value
  end.

(** ** Domain values *)

Definition transition_error (state : FlightState) (event : EventKind) (message : string) : error :=
  DomainError ErrorInvalidTransition "%s from %s: %s" [AStr (kind_text event); AStr (state_text state); AStr message].

Definition FeederETASourcePassed : string := "passed".

Definition FeederETASource_Valid (s : string) : bool :=
  str_eqb s "route" || str_eqb s "holding" || str_eqb s "manual" || str_eqb s FeederETASourcePassed.

Record FeederETAState := mk_feeder_eta { fe_ETA : option Time; fe_Source : string; fe_Passed : bool }.

Definition FeederETAState_Validate (s : FeederETAState) : outcome unit :=
  _ ← guard_err (negb (FeederETASource_Valid (fe_Source s))) (invalid_argument "feeder ETA source is invalid");
  if fe_Passed s then
    guard_err (negb (str_eqb (fe_Source s) FeederETASourcePassed) || not_nil (fe_ETA s))
      (invalid_argument "passed feeder must use passed provenance without an ETA")
  else
    _ ← guard_err (str_eqb (fe_Source s) FeederETASourcePassed || is_nil (fe_ETA s))
          (invalid_argument "unpassed feeder requires an ETA and timing provenance");
    eta ← deref (fe_ETA s);
    requireUTCTime "feeder ETA" eta.

Record AbsenceState := mk_absence { ab_MissingSince : Time; ab_RemovalDueAt : option Time; ab_Remaining : Duration }.

Record LifecycleState := mk_lifecycle {
  ls_EnteredAt : Time;
  ls_Reason : LifecycleReason;
  ls_LastEventID : string;
  ls_LastEventFingerprint : string;
  ls_LastEventAt : Time;
  ls_ReconciliationPending : bool;
  ls_Absence : option AbsenceState
}.

Definition set_timer (pending : bool) (absence : option AbsenceState) (s : LifecycleState) : LifecycleState :=
  mk_lifecycle (ls_EnteredAt s) (ls_Reason s) (ls_LastEventID s) (ls_LastEventFingerprint s) (ls_LastEventAt s)
    pending absence.

Definition SuddenInsideFreeze : string := "sudden_appearance_inside_freeze_horizon_manual_review".

Record OperationalException := mk_exception { oe_Reason : string; oe_DetectedAt : Time }.

Record Prediction (P : Type) := mk_prediction {
  pr_Publishable : bool;
  pr_DegradationReason : option string;
  pr_rest : P
}.
Arguments mk_prediction {P} _ _ _.
Arguments pr_Publishable {P} _.
Arguments pr_DegradationReason {P} _.
Arguments pr_rest {P} _.

Record AMANFlight (O P : Type) := mk_aman {
  af_State : FlightState;
  af_DataStatus : string;
  af_Prediction : option (Prediction P);
  af_OperationalException : option OperationalException;
  af_Lifecycle : option LifecycleState;
  af_UpdatedAt : Time;
  af_rest : O
}.
Arguments mk_aman {O P} _ _ _ _ _ _ _.
Arguments af_State {O P} _.
Arguments af_DataStatus {O P} _.
Arguments af_Prediction {O P} _.
Arguments af_OperationalException {O P} _.
Arguments af_Lifecycle {O P} _.
Arguments af_UpdatedAt {O P} _.
Arguments af_rest {O P} _.

(** ** Validation of the persisted lifecycle *)

Definition LifecycleState_Validate (s : LifecycleState) : outcome unit :=
  _ ← guard_err (negb (LifecycleReason_Valid (ls_Reason s))) (invalid_argument "lifecycle reason is invalid");
  _ ← requireUTCTime "lifecycle entered at" (ls_EnteredAt s);
  _ ← requireUTCTime "lifecycle last event at" (ls_LastEventAt s);
  guard_err (negb (isTrimmedNonEmpty (ls_LastEventID s)) || negb (isTrimmedNonEmpty (ls_LastEventFingerprint s)))
    (invalid_argument "lifecycle last event identity is required").

Definition AbsenceState_Validate (s : AbsenceState) : outcome unit :=
  _ ← requireUTCTime "absence missing since" (ab_MissingSince s);
  _ ← guard_err (ab_Remaining s <? 0) (invalid_argument "absence remaining duration cannot be negative");
  match ab_RemovalDueAt s with
  | None => Ok tt
  | Some due =>
      _ ← guard_err (negb (ab_Remaining s =? 0)) (invalid_argument "running absence timer cannot retain a paused duration");
      _ ← requireUTCTime "absence removal due at" due;
      guard_err (before due (ab_MissingSince s)) (invalid_argument "absence removal deadline cannot predate disappearance")
  end.

Definition lifecycleReasonMatchesState (reason : LifecycleReason) (state : FlightState) : bool :=
  match reason with
  | ReasonInitial => true
  | ReasonAirborneDetected => state_is state StateAirborne
  | ReasonUnstableHorizon => state_is state StateUnstable
  | ReasonStableHorizon => state_is state StateStable
  | ReasonGoAroundConfirmed => state_is state StateGoAround
  | ReasonLandingConfirmed => state_is state StateLanded
  | ReasonSuddenAppearance => state_is state StateAirborne || state_is state StateUnstable || state_is state StateStable
  | ReasonManualRemoval | ReasonDiverted | ReasonLandedTimeout | ReasonPlannedCancellation => state_is state StateRemoved
  | ReasonSourceDisappearance => state_is state StateRemoved
  | ReasonOther _ => false
  end.

(** The lifecycle part of [AMANFlight.Validate]. *)
Definition validate_lifecycle {O P} (f : AMANFlight O P) : outcome unit :=
  match af_Lifecycle f with
  | None => Ok tt
  | Some s =>
      _ ← LifecycleState_Validate s;
      _ ← guard_err (after (ls_EnteredAt s) (ls_LastEventAt s))
            (invalid_argument "lifecycle state entry cannot follow its event cursor");
      _ ← guard_err (negb (lifecycleReasonMatchesState (ls_Reason s) (af_State f)))
            (invalid_argument "lifecycle reason does not match flight state");
      match ls_Absence s with
      | None => Ok tt
      | Some absence =>
          _ ← AbsenceState_Validate absence;
          guard_err (ls_ReconciliationPending s && not_nil (ab_RemovalDueAt absence))
            (invalid_argument "pending source reconciliation cannot run an absence timer")
      end
  end.

Definition validate_exception {O P} (f : AMANFlight O P) : outcome unit :=
  match af_OperationalException f with
  | None => Ok tt
  | Some e =>
      _ ← guard_err (negb (str_eqb (oe_Reason e) SuddenInsideFreeze))
            (invalid_argument "operational exception reason is invalid");
      requireUTCTime "operational exception detected at" (oe_DetectedAt e)
  end.

(** The conjuncts of [AMANFlight.Validate] about the fields the reducer writes. *)
Definition validate_aggregate {O P} (f : AMANFlight O P) : outcome unit :=
  _ ← guard_err (negb (FlightState_Valid (af_State f)) || negb (DataStatus_Valid (af_DataStatus f)))
        (invalid_argument "flight has an invalid state");
  _ ← validate_lifecycle f;
  _ ← validate_exception f;
  requireUTCTime "updated at" (af_UpdatedAt f).

(** ** Configuration and events *)

Record Config := mk_config {
  lc_UnstableHorizon : Duration;
  lc_StableHorizon : Duration;
  lc_SuperstableHorizon : Duration;
  lc_MinimumUnstableDwell : Duration;
  lc_RemovalTimeout : Duration
}.

Definition DefaultConfig : Config := mk_config (45 * Minute) (20 * Minute) (10 * Minute) (2 * Minute) (5 * Minute).

Definition Config_Validate (c : Config) : outcome unit :=
  _ ← guard_err (lc_UnstableHorizon c <=? 0) (invalid_argument "Unstable horizon must be greater than zero");
  _ ← guard_err ((lc_StableHorizon c <=? 0) || (lc_UnstableHorizon c <=? lc_StableHorizon c))
        (invalid_argument "Stable horizon must be positive and shorter than the Unstable horizon");
  _ ← guard_err ((lc_SuperstableHorizon c <=? 0) || (lc_StableHorizon c <=? lc_SuperstableHorizon c))
        (invalid_argument "Superstable horizon must be positive and shorter than the Stable horizon");
  _ ← guard_err (lc_MinimumUnstableDwell c <? 0) (invalid_argument "minimum Unstable dwell cannot be negative");
  guard_err (lc_RemovalTimeout c <=? 0) (invalid_argument "removal timeout must be greater than zero").

Record Event := mk_event {
  ev_ID : string;
  ev_Kind : EventKind;
  ev_OccurredAt : Time;
  ev_DataStatus : string;
  ev_OperationalTETA : option Time;
  ev_FeederETA : option FeederETAState
}.

Record Transition := mk_transition {
  tr_EventID : string;
  tr_From : FlightState;
  tr_To : FlightState;
  tr_Reason : LifecycleReason;
  tr_At : Time
}.

Record Reduced (O P : Type) := mk_reduced {
  rd_Flight : AMANFlight O P;
  rd_Transition : option Transition;
  rd_Duplicate : bool
}.
Arguments mk_reduced {O P} _ _ _.
Arguments rd_Flight {O P} _.
Arguments rd_Transition {O P} _.
Arguments rd_Duplicate {O P} _.

Definition validateEvent (event : Event) : outcome unit :=
  _ ← guard_err (negb (EventKind_Valid (ev_Kind event))) (invalid_argument "lifecycle event kind is invalid");
  _ ← guard_err (str_empty (ev_ID event) || negb (str_eqb (TrimSpace (ev_ID event)) (ev_ID event)))
        (invalid_argument "lifecycle event ID is required");
  _ ← guard_err (is_zero (ev_OccurredAt event) || negb (is_utc (ev_OccurredAt event)))
        (invalid_argument "lifecycle event time must be UTC");
  if kind_is (ev_Kind event) EventDataStatusChanged then
    guard_err (negb (DataStatus_Valid (ev_DataStatus event)) || not_nil (ev_OperationalTETA event))
      (invalid_argument "data-status event payload is invalid")
  else if kind_is (ev_Kind event) EventSuddenAppearance then
    guard_err (negb (str_empty (ev_DataStatus event)) ||
               match ev_OperationalTETA event with
               | None => true
               | Some teta => is_zero teta || negb (is_utc teta) || negb (after teta (ev_OccurredAt event))
               end)
      (invalid_argument "sudden appearance requires a future UTC operational TETA")
  else
    _ ← guard_err (negb (str_empty (ev_DataStatus event))) (invalid_argument "only a data-status event may change DataStatus");
    if kind_is (ev_Kind event) EventPredictionAccepted then
      _ ← guard_err (match ev_OperationalTETA event with
                     | None => true
                     | Some teta => is_zero teta || negb (is_utc teta)
                     end) (invalid_argument "accepted prediction requires a UTC operational TETA");
      match ev_FeederETA event with
      | None => Ok tt
      | Some feeder =>
          match FeederETAState_Validate feeder with
          | Err _ => Err (invalid_argument "accepted prediction feeder ETA is invalid")
          | r => r
          end
      end
    else
      guard_err (not_nil (ev_OperationalTETA event) || not_nil (ev_FeederETA event))
        (invalid_argument "only an accepted prediction may carry timing evidence").

(** Feeder-fix timing that makes a flight eligible: passed, or within the horizon. *)
Definition StableFeederEligible (feeder : option FeederETAState) (now : Time) (horizon : Duration) : outcome bool :=
  match feeder with
  | None => Ok false
  | Some feeder =>
      match FeederETAState_Validate feeder with
      | Ok _ =>
          if fe_Passed feeder then Ok true
          else eta ← deref (fe_ETA feeder); Ok (time_sub eta now <=? horizon)
      | Err _ => Ok false
      | Panic => Panic
      | Hang => Hang
      end
  end.

Definition SuperstableFeederEligible (feeder : option FeederETAState) (now : Time) (horizon : Duration) : outcome bool :=
  StableFeederEligible feeder now horizon.

(** ** The transition function *)

Definition terminal_guard (state : FlightState) (kind : EventKind) : outcome unit :=
  guard_err (state_is state StateRemoved) (transition_error state kind "Removed is terminal").

(** The successor state with its reason; [None] keeps the state. *)
Definition nextState {O P} (config : Config) (flight : AMANFlight O P) (enteredAt : Time) (event : Event)
  : outcome (option (FlightState * LifecycleReason)) :=
  let state := af_State flight in
  let kind := ev_Kind event in
  match kind with
  | EventDataStatusChanged | EventSourceRestarted => _ ← terminal_guard state kind; Ok None
  | EventSuddenAppearance =>
      _ ← guard_err (negb (state_is state StatePlanned))
            (transition_error state kind "sudden appearance requires a newly planned aggregate");
      teta ← deref (ev_OperationalTETA event);
      if time_sub teta (ev_OccurredAt event) <=? lc_UnstableHorizon config
      then Ok (Some (StateUnstable, ReasonSuddenAppearance)) else Ok (Some (StateAirborne, ReasonSuddenAppearance))
  | EventFlightObserved | EventFlightMissing | EventPredictionExpired =>
      _ ← terminal_guard state kind;
      _ ← guard_err ((kind_is kind EventFlightObserved || kind_is kind EventFlightMissing)
                     && negb (str_eqb (af_DataStatus flight) DataFresh))
            (transition_error state kind "current reconciliation requires fresh source data");
      Ok None
  | EventRemovalTimeout =>
      _ ← terminal_guard state kind;
      match (if negb (str_eqb (af_DataStatus flight) DataFresh) then None
             else s ← af_Lifecycle flight;
                  if ls_ReconciliationPending s then None
                  else absence ← ls_Absence s; ab_RemovalDueAt absence) with
      | None => Err (transition_error state kind "removal requires a running fresh-data absence timer")
      | Some due =>
          _ ← guard_err (before (ev_OccurredAt event) due)
                (transition_error state kind "removal timeout has not elapsed");
          Ok (Some (StateRemoved, ReasonSourceDisappearance))
      end
  | EventAirborneDetected =>
      match state with
      | StatePlanned => Ok (Some (StateAirborne, ReasonAirborneDetected))
      | StateAirborne => Ok None
      | _ => Err (transition_error state kind "airborne evidence cannot enter this state")
      end
  | EventPredictionAccepted =>
      if negb (str_eqb (af_DataStatus flight) DataFresh) then Ok None
      else
        teta ← deref (ev_OperationalTETA event);
        match state with
        | StateAirborne | StateGoAround =>
            if time_sub teta (ev_OccurredAt event) <=? lc_UnstableHorizon config
            then Ok (Some (StateUnstable, ReasonUnstableHorizon)) else Ok None
        | StateUnstable =>
            eligible ← StableFeederEligible (ev_FeederETA event) (ev_OccurredAt event) (lc_StableHorizon config);
            if eligible && (lc_MinimumUnstableDwell config <=? time_sub (ev_OccurredAt event) enteredAt)
            then Ok (Some (StateStable, ReasonStableHorizon)) else Ok None
        | StateStable => Ok None
        | _ => Err (transition_error state kind "prediction cannot advance this state")
        end
  | EventGoAroundConfirmed =>
      _ ← guard_err (negb (state_is state StateUnstable) && negb (state_is state StateStable))
            (transition_error state kind "go-around requires an arriving flight");
      Ok (Some (StateGoAround, ReasonGoAroundConfirmed))
  | EventLandingConfirmed =>
      match state with
      | StateAirborne | StateUnstable | StateStable | StateGoAround => Ok (Some (StateLanded, ReasonLandingConfirmed))
      | _ => Err (transition_error state kind "landing requires an airborne flight")
      end
  | EventManualRemoval => _ ← terminal_guard state kind; Ok (Some (StateRemoved, ReasonManualRemoval))
  | EventLandedTimeout =>
      _ ← guard_err (negb (state_is state StateLanded)) (transition_error state kind "landing timeout requires Landed");
      Ok (Some (StateRemoved, ReasonLandedTimeout))
  | EventPlannedCancellation =>
      _ ← guard_err (negb (state_is state StatePlanned)) (transition_error state kind "planned cancellation requires Planned");
      Ok (Some (StateRemoved, ReasonPlannedCancellation))
  | EventOther _ => Err (invalid_argument "lifecycle event kind is invalid")
  end.

(** ** The absence timer and the operational exception *)

Definition pauseAbsence (absence : option AbsenceState) (at_ : Time) : option AbsenceState :=
  match absence with
  | Some (mk_absence since (Some due) _) =>
      let remaining := time_sub due at_ in
      Some (mk_absence since None (if remaining <? 0 then 0 else remaining))
  | _ => absence
  end.

Definition applySourceStatus (s : LifecycleState) (at_ : Time) : LifecycleState :=
  set_timer true (pauseAbsence (ls_Absence s) at_) s.

Definition applyMissing (config : Config) (s : LifecycleState) (at_ : Time) : LifecycleState :=
  set_timer false
    (match ls_Absence s with
     | None => Some (mk_absence at_ (Some (time_add at_ (lc_RemovalTimeout config))) 0)
     | Some (mk_absence since None remaining) => Some (mk_absence since (Some (time_add at_ remaining)) 0)
     | Some absence => Some absence
     end) s.

Definition suddenException (config : Config) (event : Event) : outcome (option OperationalException) :=
  teta ← deref (ev_OperationalTETA event);
  if lc_SuperstableHorizon config <? time_sub teta (ev_OccurredAt event) then Ok None
  else Ok (Some (mk_exception SuddenInsideFreeze (ev_OccurredAt event))).

Definition PredictionExpiredSourceData : string := "source_data_expired".

Definition expire {P} (p : Prediction P) : Prediction P := mk_prediction false (Some PredictionExpiredSourceData) (pr_rest p).

(** The aggregate written back, from its parts. *)
Definition applyOperationalExceptionState {O P} (config : Config) (flight : AMANFlight O P) (s : LifecycleState)
    (event : Event) : outcome (AMANFlight O P) :=
  let rebuild prediction exception s :=
    mk_aman (af_State flight) (af_DataStatus flight) prediction exception (Some s) (af_UpdatedAt flight) (af_rest flight) in
  let prediction := af_Prediction flight in
  let exception := af_OperationalException flight in
  match ev_Kind event with
  | EventDataStatusChanged | EventSourceRestarted =>
      Ok (rebuild prediction exception (applySourceStatus s (ev_OccurredAt event)))
  | EventSuddenAppearance =>
      exception ← suddenException config event;
      Ok (rebuild prediction exception (set_timer false None s))
  | EventFlightObserved => Ok (rebuild prediction exception (set_timer false None s))
  | EventFlightMissing => Ok (rebuild prediction exception (applyMissing config s (ev_OccurredAt event)))
  | EventPredictionExpired => Ok (rebuild (expire <$> prediction) exception s)
  | _ => Ok (rebuild prediction exception s)
  end.

(** The edges of the state machine. *)
Inductive lifecycle_edge : FlightState → EventKind → FlightState → Prop :=
| edge_airborne : lifecycle_edge StatePlanned EventAirborneDetected StateAirborne
| edge_sudden_near : lifecycle_edge StatePlanned EventSuddenAppearance StateUnstable
| edge_sudden_far : lifecycle_edge StatePlanned EventSuddenAppearance StateAirborne
| edge_cancelled : lifecycle_edge StatePlanned EventPlannedCancellation StateRemoved
| edge_unstable : lifecycle_edge StateAirborne EventPredictionAccepted StateUnstable
| edge_unstable_again : lifecycle_edge StateGoAround EventPredictionAccepted StateUnstable
| edge_stable : lifecycle_edge StateUnstable EventPredictionAccepted StateStable
| edge_around_unstable : lifecycle_edge StateUnstable EventGoAroundConfirmed StateGoAround
| edge_around_stable : lifecycle_edge StateStable EventGoAroundConfirmed StateGoAround
| edge_landed_airborne : lifecycle_edge StateAirborne EventLandingConfirmed StateLanded
| edge_landed_unstable : lifecycle_edge StateUnstable EventLandingConfirmed StateLanded
| edge_landed_stable : lifecycle_edge StateStable EventLandingConfirmed StateLanded
| edge_landed_around : lifecycle_edge StateGoAround EventLandingConfirmed StateLanded
| edge_landed_timeout : lifecycle_edge StateLanded EventLandedTimeout StateRemoved
| edge_manual state : state ≠ StateRemoved → lifecycle_edge state EventManualRemoval StateRemoved
| edge_disappeared state : state ≠ StateRemoved → lifecycle_edge state EventRemovalTimeout StateRemoved.

Definition new_status (event : Event) (status : string) : string :=
  if kind_is (ev_Kind event) EventDataStatusChanged then ev_DataStatus event
  else if kind_is (ev_Kind event) EventSourceRestarted then DataDisconnected
  else if kind_is (ev_Kind event) EventSuddenAppearance then DataFresh
  else status.

(** ** The reducer *)

Section reducer.
Context (local_format : Time → string).

Definition FormatRFC3339Nano (t : Time) : string := if is_utc t then format_utc t else local_format t.

Definition fingerprint (event : Event) : string :=
  let teta := match ev_OperationalTETA event with Some t => FormatRFC3339Nano t | None => ""%string end in
  let base := (kind_text (ev_Kind event) +:+ "|" +:+ FormatRFC3339Nano (ev_OccurredAt event) +:+ "|"
               +:+ ev_DataStatus event +:+ "|" +:+ teta)%string in
  match ev_FeederETA event with
  | None => base
  | Some feeder =>
      let eta := match fe_ETA feeder with Some t => FormatRFC3339Nano t | None => ""%string end in
      (base +:+ "|" +:+ fe_Source feeder +:+ "|" +:+ (if fe_Passed feeder then "true" else "false") +:+ "|" +:+ eta)%string
  end.

Context {O P : Type}.

(** What the cursor says of an event: a retry, or an event to apply. *)
Definition cursor (flight : AMANFlight O P) (event : Event) : outcome bool :=
  let refuse := transition_error (af_State flight) (ev_Kind event) in
  match af_Lifecycle flight with
  | Some s =>
      if str_eqb (ev_ID event) (ls_LastEventID s) then
        if str_eqb (fingerprint event) (ls_LastEventFingerprint s) then Ok true
        else Err (refuse "event ID was reused with different content")
      else
        _ ← guard_err (negb (after (ev_OccurredAt event) (ls_LastEventAt s))) (refuse "event is out of order");
        Ok false
  | None =>
      _ ← guard_err (before (ev_OccurredAt event) (af_UpdatedAt flight)) (refuse "event predates the aggregate");
      Ok false
  end.

Definition apply_event (config : Config) (flight : AMANFlight O P) (event : Event) : outcome (Reduced O P) :=
  let enteredAt := match af_Lifecycle flight with Some s => ls_EnteredAt s | None => af_UpdatedAt flight end in
  let reason := match af_Lifecycle flight with Some s => ls_Reason s | None => ReasonInitial end in
  let from := af_State flight in
  next ← nextState config flight enteredAt event;
  let '(to, transitionReason) := match next with Some (to, r) => (to, r) | None => (from, ReasonOther "") end in
  let changed := negb (state_is to from) in
  let s := mk_lifecycle (if changed then ev_OccurredAt event else enteredAt)
             (if changed then transitionReason else reason)
             (ev_ID event) (fingerprint event) (ev_OccurredAt event)
             (match af_Lifecycle flight with Some s => ls_ReconciliationPending s | None => false end)
             (match af_Lifecycle flight with Some s => ls_Absence s | None => None end) in
  flight ← applyOperationalExceptionState config
             (mk_aman to (new_status event (af_DataStatus flight)) (af_Prediction flight) (af_OperationalException flight)
                (af_Lifecycle flight) (ev_OccurredAt event) (af_rest flight)) s event;
  Ok (mk_reduced flight
        (if changed then Some (mk_transition (ev_ID event) from to transitionReason (ev_OccurredAt event)) else None) false).

Definition Reduce (config : Config) (flight : AMANFlight O P) (event : Event) : outcome (Reduced O P) :=
  _ ← Config_Validate config;
  _ ← validateEvent event;
  _ ← guard_err (negb (FlightState_Valid (af_State flight)) || negb (DataStatus_Valid (af_DataStatus flight)))
        (invalid_argument "flight lifecycle state is invalid");
  duplicate ← cursor flight event;
  if duplicate : bool then Ok (mk_reduced flight None true) else apply_event config flight event.
End reducer.

(** ** Facts *)

(** *** Text *)

Definition chars (s : string) : list ascii := String.list_ascii_of_string s.

Lemma chars_app a b : chars (a +:+ b)%string = chars a ++ chars b.
Proof. induction a as [|c a IH]; simpl; [done|by f_equal]. Qed.

Lemma trim_left_head l c : head l = Some c → is_space c = false → trim_left l = l.
Proof. destruct l as [|d l]; [done|]. intros [= ->] Hc. simpl. by rewrite Hc. Qed.

Definition starts_ok (l : list ascii) : Prop := ∃ c, head l = Some c ∧ is_space c = false.
Definition ends_ok (l : list ascii) : Prop := ∃ c, last l = Some c ∧ is_space c = false.

Lemma ends_ok_app l l' : ends_ok l' → ends_ok (l ++ l').
Proof. intros (c & Hl & Hc). exists c. by rewrite last_app, Hl. Qed.

Lemma starts_ok_app l l' : starts_ok l → starts_ok (l ++ l').
Proof. intros (c & Hl & Hc). exists c. by destruct l. Qed.

Lemma trim_chars_id l : starts_ok l → ends_ok l → trim_chars l = l.
Proof.
  intros (c & Hc & Hs) (d & Hd & Ht). unfold trim_chars. rewrite (trim_left_head l c) by done.
  rewrite (trim_left_head (rev l) d); [apply rev_involutive|by rewrite rev_alt, <-head_reverse in *|done].
Qed.

Lemma trimmed_intro s : starts_ok (chars s) → ends_ok (chars s) → isTrimmedNonEmpty s = true.
Proof.
  intros Hs He. unfold isTrimmedNonEmpty, TrimSpace. fold (chars s). rewrite trim_chars_id by done.
  unfold chars. rewrite String.string_of_list_ascii_of_string, str_eqb_refl, andb_true_r.
  destruct s; [by destruct Hs as (? & ? & _)|done].
Qed.

Lemma kind_text_starts k : EventKind_Valid k = true → starts_ok (chars (kind_text k)).
Proof. destruct k; intros Hk; try done; (eexists; split; [reflexivity|reflexivity]). Qed.

Lemma ends_char c : is_space c = false → ends_ok [c].
Proof. intros. by exists c. Qed.

Lemma ends_str a b : ends_ok (chars b) → ends_ok (chars (a +:+ b)%string).
Proof. rewrite chars_app. apply ends_ok_app. Qed.

Lemma format_utc_ends t : ends_ok (chars (format_utc t)).
Proof.
  unfold format_utc. cbv zeta. destruct (civil _) as [[y m] d].
  repeat apply ends_str. by exists "Z"%char.
Qed.

Section facts.
Context (local_format : Time → string).
Hypothesis Hlocal : ∀ t, ends_ok (chars (local_format t)).
Context {O P : Type}.
Implicit Types (f : AMANFlight O P) (r : Reduced O P).

Lemma format_ends t : ends_ok (chars (FormatRFC3339Nano local_format t)).
Proof using Hlocal. unfold FormatRFC3339Nano. destruct (is_utc t); [apply format_utc_ends|done]. Qed.

Lemma bar_ends o : ends_ok (chars ("|" +:+ match o with Some t => FormatRFC3339Nano local_format t | None => "" end)%string).
Proof using Hlocal. destruct o; [apply ends_str, format_ends|by exists "|"%char]. Qed.

Lemma fingerprint_trimmed event :
  EventKind_Valid (ev_Kind event) = true → isTrimmedNonEmpty (fingerprint local_format event) = true.
Proof using Hlocal.
  intros Hk. unfold fingerprint. cbv zeta. apply trimmed_intro.
  - destruct (ev_FeederETA event); rewrite !chars_app; repeat apply starts_ok_app; by apply kind_text_starts.
  - destruct (ev_FeederETA event) as [feeder|].
    + do 5 apply ends_str. apply (bar_ends (fe_ETA feeder)).
    + do 5 apply ends_str. apply (bar_ends (ev_OperationalTETA event)).
Qed.

(** *** What an accepted event does *)

Definition timer_after (config : Config) (event : Event) (pending : bool) (absence : option AbsenceState)
  : bool * option AbsenceState :=
  let s := mk_lifecycle zero_time ReasonInitial "" "" zero_time pending absence in
  let s' := match ev_Kind event with
            | EventDataStatusChanged | EventSourceRestarted => applySourceStatus s (ev_OccurredAt event)
            | EventSuddenAppearance | EventFlightObserved => set_timer false None s
            | EventFlightMissing => applyMissing config s (ev_OccurredAt event)
            | _ => s
            end in
  (ls_ReconciliationPending s', ls_Absence s').

Definition lifecycle_pending f : bool := match af_Lifecycle f with Some s => ls_ReconciliationPending s | None => false end.
Definition lifecycle_absence f : option AbsenceState := match af_Lifecycle f with Some s => ls_Absence s | None => None end.
Definition entered_at f : Time := match af_Lifecycle f with Some s => ls_EnteredAt s | None => af_UpdatedAt f end.
Definition entry_reason f : LifecycleReason := match af_Lifecycle f with Some s => ls_Reason s | None => ReasonInitial end.

(** The aggregate and the transition an applied event leaves. *)
Record applied (config : Config) f (event : Event) r (next : option (FlightState * LifecycleReason)) : Prop := {
  ap_next : nextState config f (entered_at f) event = Ok next;
  ap_state : af_State (rd_Flight r) = match next with Some (to, _) => to | None => af_State f end;
  ap_status : af_DataStatus (rd_Flight r) = new_status event (af_DataStatus f);
  ap_rest : af_rest (rd_Flight r) = af_rest f;
  ap_updated : af_UpdatedAt (rd_Flight r) = ev_OccurredAt event;
  ap_changed : ∀ to reason, next = Some (to, reason) → to ≠ af_State f;
  ap_lifecycle : af_Lifecycle (rd_Flight r) =
    Some (mk_lifecycle (match next with Some _ => ev_OccurredAt event | None => entered_at f end)
            (match next with Some (_, reason) => reason | None => entry_reason f end)
            (ev_ID event) (fingerprint local_format event) (ev_OccurredAt event)
            (timer_after config event (lifecycle_pending f) (lifecycle_absence f)).1
            (timer_after config event (lifecycle_pending f) (lifecycle_absence f)).2);
  ap_exception : af_OperationalException (rd_Flight r) = af_OperationalException f ∨
    af_OperationalException (rd_Flight r) = None ∨
    af_OperationalException (rd_Flight r) = Some (mk_exception SuddenInsideFreeze (ev_OccurredAt event));
  ap_transition : rd_Transition r =
    match next with
    | Some (to, reason) => Some (mk_transition (ev_ID event) (af_State f) to reason (ev_OccurredAt event))
    | None => None
    end;
  ap_fresh : rd_Duplicate r = false
}.

Lemma nextState_changes config f at_ event to reason :
  nextState config f at_ event = Ok (Some (to, reason)) → to ≠ af_State f ∧ lifecycleReasonMatchesState reason to = true ∧
  FlightState_Valid to = true ∧ LifecycleReason_Valid reason = true.
Proof using Type.
  unfold nextState, terminal_guard. cbv zeta. intros E.
  destruct (ev_Kind event); repeat first [discriminate E | bind_inv E | case_match]; simplify_eq;
    repeat match goal with H : guard_err _ _ = Ok _ |- _ => apply guard_err_ok in H end; unfold state_is in *;
    destruct (af_State f); done.
Qed.

Lemma applyOperationalExceptionState_spec config f s event f' :
  applyOperationalExceptionState config f s event = Ok f' →
  ∃ pred ex, (ex = af_OperationalException f ∨ ex = None ∨ ex = Some (mk_exception SuddenInsideFreeze (ev_OccurredAt event))) ∧
    f' = mk_aman (af_State f) (af_DataStatus f) pred ex
           (Some (set_timer (timer_after config event (ls_ReconciliationPending s) (ls_Absence s)).1
                    (timer_after config event (ls_ReconciliationPending s) (ls_Absence s)).2 s))
           (af_UpdatedAt f) (af_rest f).
Proof using Type.
  unfold applyOperationalExceptionState, timer_after. destruct s as [en re id fp la pe ab]. intros E.
  destruct (ev_Kind event); try (injection E as <-; do 2 eexists; split; [left; reflexivity|reflexivity]).
  cbv zeta in E. apply bind_ok in E as (ex & E1 & E2). injection E2 as <-. unfold suddenException in E1.
  apply bind_ok in E1 as (teta & _ & E1). exists (af_Prediction f), ex.
  split; [|reflexivity]. destruct (_ <? _); injection E1 as <-; auto.
Qed.

Lemma apply_event_applied config f event r :
  apply_event local_format config f event = Ok r → ∃ next, applied config f event r next.
Proof using Type.
  unfold apply_event. cbv zeta. fold (entered_at f). fold (entry_reason f).
  fold (lifecycle_pending f). fold (lifecycle_absence f). intros E. bind_inv E. rename r0 into next. exists next.
  match type of E with (let '(_, _) := ?m in _) = _ => destruct m as [to reason] eqn:En end.
  assert (Hch : negb (state_is to (af_State f)) = match next with Some _ => true | None => false end).
  { unfold state_is. destruct next as [[to' reason']|]; simplify_eq.
    - apply nextState_changes in E0 as [Hne _]. by rewrite bool_decide_false.
    - by rewrite bool_decide_true. }
  rewrite Hch in E. bind_inv E. injection E as <-.
  assert (Hto : to = match next with Some (to, _) => to | None => af_State f end) by (by destruct next as [[??]|]; simplify_eq).
  apply applyOperationalExceptionState_spec in E1 as (pred & ex & Hex & ->).
  split; cbn [rd_Flight rd_Transition rd_Duplicate af_State af_DataStatus af_rest af_UpdatedAt af_Lifecycle af_OperationalException]; try done.
  - intros to' reason' ->. by apply nextState_changes in E0 as [? _].
  - destruct next as [[??]|]; by simplify_eq.
  - destruct next as [[??]|]; by simplify_eq.
Qed.

(** A result of the reducer is a retry or an applied event. *)
Lemma Reduce_cases config f event r :
  Reduce local_format config f event = Ok r →
  Config_Validate config = Ok tt ∧ validateEvent event = Ok tt ∧
  FlightState_Valid (af_State f) = true ∧ DataStatus_Valid (af_DataStatus f) = true ∧
  ((cursor local_format f event = Ok true ∧ r = mk_reduced f None true) ∨
   (cursor local_format f event = Ok false ∧ ∃ next, applied config f event r next)).
Proof using Type.
  unfold Reduce. intros E. bind_inv E. bind_inv E. bind_inv E. bind_inv E. destruct r0, r1.
  apply guard_err_ok in E2. bsplit. zbool. split_and!; [done|done|by destruct (FlightState_Valid _)|by destruct (DataStatus_Valid _)|].
  destruct r3; [left; by simplify_eq|right]. split; [done|by apply apply_event_applied].
Qed.

(** *** Validity as a proposition *)

Lemma AbsenceState_Validate_iff a :
  AbsenceState_Validate a = Ok tt ↔
    valid_time (ab_MissingSince a) ∧ 0 ≤ ab_Remaining a ∧
    ∀ due, ab_RemovalDueAt a = Some due → ab_Remaining a = 0 ∧ valid_time due ∧ ns (ab_MissingSince a) ≤ ns due.
Proof using Type.
  unfold AbsenceState_Validate. rewrite !bind_unit_iff, requireUTCTime_iff, guard_err_iff, Z.ltb_ge.
  destruct (ab_RemovalDueAt a) as [due|];
    [|by split; intros (? & ? & _); split_and!].
  rewrite !bind_unit_iff, requireUTCTime_iff, !guard_err_iff, negb_false_iff, Z.eqb_eq. unfold before. rewrite Z.ltb_ge.
  split; [intros (? & ? & ? & ? & ?); split_and!; [done|done|by intros ? [= <-]]|].
  intros (? & ? & H). by destruct (H due eq_refl) as (? & ? & ?).
Qed.

(** The timer at the cursor [last]: valid, never running while a reconciliation
    is pending, and started before. *)
Definition timer_ok (last : Time) (pending : bool) (absence : option AbsenceState) : Prop :=
  ∀ a, absence = Some a →
    AbsenceState_Validate a = Ok tt ∧ (pending = true → ab_RemovalDueAt a = None) ∧ ns (ab_MissingSince a) ≤ ns last.

Lemma timer_after_ok config event last pending absence :
  0 < lc_RemovalTimeout config → valid_time (ev_OccurredAt event) → 0 < ns (ev_OccurredAt event) →
  ns last ≤ ns (ev_OccurredAt event) → timer_ok last pending absence →
  timer_ok (ev_OccurredAt event) (timer_after config event pending absence).1 (timer_after config event pending absence).2.
Proof using Type.
  intros Hrt [Hz Hutc] Hpos Hle Hok.
  assert (Hsame : timer_ok (ev_OccurredAt event) pending absence).
  { intros a Ha. destruct (Hok a Ha) as (? & ? & ?). split_and!; [done|done|lia]. }
  assert (Hdue : ∀ d, 0 ≤ d → valid_time (time_add (ev_OccurredAt event) d)).
  { intros d Hd. split; [unfold is_zero, time_add; simpl; apply Z.eqb_neq; lia|done]. }
  assert (Hpause : timer_ok (ev_OccurredAt event) true (pauseAbsence absence (ev_OccurredAt event))).
  { intros a Ha. destruct absence as [[since [due|] rem]|]; simpl in Ha; [| |done]; injection Ha as <-;
      destruct (Hok _ eq_refl) as (Hv & Hp & Hs); apply AbsenceState_Validate_iff in Hv as (Hv1 & Hv2 & Hv3); simpl in *.
    - split_and!; [|done|lia]. apply AbsenceState_Validate_iff. simpl. split_and!; [done| |done].
      destruct (Z.ltb_spec (time_sub due (ev_OccurredAt event)) 0); lia.
    - split_and!; [|done|lia]. apply AbsenceState_Validate_iff. simpl. by split_and!. }
  unfold timer_after. destruct (ev_Kind event); cbn [applySourceStatus applyMissing set_timer ls_ReconciliationPending ls_Absence fst snd];
    try done.
  intros a Ha. destruct absence as [[since [due|] rem]|]; injection Ha as <-; simpl.
  - destruct (Hok _ eq_refl) as (? & ? & ?). split_and!; [done|done|simpl in *; lia].
  - destruct (Hok _ eq_refl) as (Hv & _ & Hs). apply AbsenceState_Validate_iff in Hv as (Hv1 & Hv2 & _). simpl in *.
    split_and!; [|done|lia]. apply AbsenceState_Validate_iff. simpl. split_and!; [done|done|].
    intros ? [= <-]. split_and!; [done|by apply Hdue|simpl; lia].
  - split_and!; [|done|lia]. apply AbsenceState_Validate_iff. simpl. split_and!; [done|done|].
    intros ? [= <-]. split_and!; [done|apply Hdue; lia|simpl; lia].
Qed.

Lemma validateEvent_facts event :
  validateEvent event = Ok tt →
  EventKind_Valid (ev_Kind event) = true ∧ isTrimmedNonEmpty (ev_ID event) = true ∧ valid_time (ev_OccurredAt event) ∧
  (ev_Kind event = EventDataStatusChanged → DataStatus_Valid (ev_DataStatus event) = true).
Proof using Type.
  unfold validateEvent. rewrite !bind_unit_iff, !guard_err_iff. intros (Hk & Hid & Ht & Hrest).
  apply negb_false_iff in Hk. apply orb_false_iff in Hid as [He Htrim], Ht as [Hz Hu].
  apply negb_false_iff in Htrim, Hu. split_and!; [done| |done|].
  - unfold isTrimmedNonEmpty. by rewrite He, Htrim.
  - intros Hkind. rewrite Hkind in Hrest. apply guard_err_iff, orb_false_iff in Hrest as [Hv _]. by apply negb_false_iff in Hv.
Qed.

Record lifecycle_ok (state : FlightState) (s : LifecycleState) : Prop := {
  lo_reason : LifecycleReason_Valid (ls_Reason s) = true;
  lo_entered : valid_time (ls_EnteredAt s);
  lo_last : valid_time (ls_LastEventAt s);
  lo_id : isTrimmedNonEmpty (ls_LastEventID s) = true;
  lo_fingerprint : isTrimmedNonEmpty (ls_LastEventFingerprint s) = true;
  lo_order : ns (ls_EnteredAt s) ≤ ns (ls_LastEventAt s);
  lo_matches : lifecycleReasonMatchesState (ls_Reason s) state = true
}.

Lemma LifecycleState_iff s state :
  (LifecycleState_Validate s = Ok tt ∧ after (ls_EnteredAt s) (ls_LastEventAt s) = false ∧
   lifecycleReasonMatchesState (ls_Reason s) state = true) ↔ lifecycle_ok state s.
Proof using Type.
  unfold LifecycleState_Validate, after. rewrite !bind_unit_iff, !requireUTCTime_iff, !guard_err_iff, orb_false_iff, !negb_false_iff, Z.ltb_ge.
  split; [by intros ((? & ? & ? & ? & ?) & ? & ?)|by intros [? ? ? ? ? ? ?]].
Qed.

Lemma validate_aggregate_iff f :
  validate_aggregate f = Ok tt ↔
    FlightState_Valid (af_State f) = true ∧ DataStatus_Valid (af_DataStatus f) = true ∧ valid_time (af_UpdatedAt f) ∧
    (∀ e, af_OperationalException f = Some e → oe_Reason e = SuddenInsideFreeze ∧ valid_time (oe_DetectedAt e)) ∧
    (∀ s, af_Lifecycle f = Some s → lifecycle_ok (af_State f) s ∧
       ∀ a, ls_Absence s = Some a → AbsenceState_Validate a = Ok tt ∧
         (ls_ReconciliationPending s = true → ab_RemovalDueAt a = None)).
Proof using Type.
  assert (Hlife : validate_lifecycle f = Ok tt ↔ ∀ s, af_Lifecycle f = Some s → lifecycle_ok (af_State f) s ∧
       ∀ a, ls_Absence s = Some a → AbsenceState_Validate a = Ok tt ∧
         (ls_ReconciliationPending s = true → ab_RemovalDueAt a = None)).
  { unfold validate_lifecycle. destruct (af_Lifecycle f) as [s|]; [|done].
    rewrite !bind_unit_iff, !guard_err_iff, negb_false_iff. setoid_rewrite <-LifecycleState_iff.
    destruct (ls_Absence s) as [a|] eqn:Ea.
    - rewrite bind_unit_iff, guard_err_iff, andb_false_iff. unfold not_nil. rewrite negb_false_iff.
      assert (Hp : (ls_ReconciliationPending s = false ∨ is_nil (ab_RemovalDueAt a) = true) ↔
                   (ls_ReconciliationPending s = true → ab_RemovalDueAt a = None))
        by (destruct (ls_ReconciliationPending s), (ab_RemovalDueAt a); simpl; intuition congruence).
      rewrite Hp. split.
      + intros (? & ? & ? & ? & ?) s' Hs. injection Hs as <-. split; [by split_and!|].
        intros a' Ha'. rewrite Ea in Ha'. by injection Ha' as <-.
      + intros H. destruct (H s eq_refl) as ((? & ? & ?) & Ha). destruct (Ha a Ea). by split_and!.
    - split.
      + intros (? & ? & ? & _) s' Hs. injection Hs as <-. split; [by split_and!|by rewrite Ea].
      + intros H. destruct (H s eq_refl) as ((? & ? & ?) & _). by split_and!. }
  assert (Hex : validate_exception f = Ok tt ↔
    ∀ e, af_OperationalException f = Some e → oe_Reason e = SuddenInsideFreeze ∧ valid_time (oe_DetectedAt e)).
  { unfold validate_exception. destruct (af_OperationalException f) as [e|]; [|done].
    rewrite bind_unit_iff, guard_err_iff, requireUTCTime_iff, negb_false_iff, str_eqb_eq.
    split; [by intros [? ?] ? [= <-]|intros H; by apply H]. }
  unfold validate_aggregate. rewrite !bind_unit_iff, guard_err_iff, requireUTCTime_iff, Hlife, Hex, orb_false_iff, !negb_false_iff.
  tauto.
Qed.

(** The invariant of a persisted aggregate: valid, with a timer started no later than its cursor. *)
Definition aggregate_ok f : Prop :=
  validate_aggregate f = Ok tt ∧
  ∀ s a, af_Lifecycle f = Some s → ls_Absence s = Some a → ns (ab_MissingSince a) ≤ ns (ls_LastEventAt s).

Lemma cursor_fresh f event :
  cursor local_format f event = Ok false →
  match af_Lifecycle f with
  | Some s => ev_ID event ≠ ls_LastEventID s ∧ ns (ls_LastEventAt s) < ns (ev_OccurredAt event)
  | None => ns (af_UpdatedAt f) ≤ ns (ev_OccurredAt event)
  end.
Proof using Type.
  unfold cursor. cbv zeta. destruct (af_Lifecycle f) as [s|].
  - destruct (str_eqb _ _) eqn:E; [destruct (str_eqb (fingerprint _ _) _); discriminate|]. apply str_eqb_neq in E.
    intros H. bind_inv H. apply guard_err_ok in E0. apply negb_false_iff in E0. split; [done|time_lia].
  - intros H. bind_inv H. apply guard_err_ok in E. time_lia.
Qed.

Lemma aggregate_timer f : aggregate_ok f → timer_ok (match af_Lifecycle f with Some s => ls_LastEventAt s | None => af_UpdatedAt f end)
  (lifecycle_pending f) (lifecycle_absence f).
Proof using Type.
  intros [Hv Hm]. apply validate_aggregate_iff in Hv as (_ & _ & _ & _ & Hl). unfold lifecycle_pending, lifecycle_absence.
  destruct (af_Lifecycle f) as [s|]; [|done]. intros a Ha. destruct (Hl s eq_refl) as [_ Hla].
  destruct (Hla a Ha) as [? ?]. split_and!; [done|done|by apply (Hm s a)].
Qed.

Lemma applied_lifecycle_ok config f event r next s :
  validate_aggregate f = Ok tt → validateEvent event = Ok tt → cursor local_format f event = Ok false →
  applied config f event r next → af_Lifecycle (rd_Flight r) = Some s → lifecycle_ok (af_State (rd_Flight r)) s.
Proof using Hlocal.
  intros Hv Hev Hcur Hap Hs. apply validate_aggregate_iff in Hv as (Hst & Hds & Hup & Hex & Hl).
  apply validateEvent_facts in Hev as (Hk & Hid & Ht & _). apply cursor_fresh in Hcur.
  rewrite (ap_lifecycle _ _ _ _ _ Hap) in Hs. injection Hs as <-.
  assert (Hent : valid_time (entered_at f) ∧ ns (entered_at f) ≤ ns (ev_OccurredAt event)).
  { unfold entered_at. destruct (af_Lifecycle f) as [s|]; [|done]. destruct (Hl s eq_refl) as [Hlo _].
    split; [apply Hlo|]. pose proof (lo_order _ _ Hlo). lia. }
  pose proof (ap_state _ _ _ _ _ Hap) as Hstate. destruct next as [[to reason]|].
  - destruct (nextState_changes _ _ _ _ _ _ (ap_next _ _ _ _ _ Hap)) as (_ & Hm & _ & Hr).
    rewrite Hstate. split; simpl; [done|done|done|done|by apply fingerprint_trimmed|lia|done].
  - assert (Hreason : LifecycleReason_Valid (entry_reason f) = true ∧ lifecycleReasonMatchesState (entry_reason f) (af_State f) = true).
    { unfold entry_reason. destruct (af_Lifecycle f) as [s|]; [|done]. destruct (Hl s eq_refl) as [Hlo _]. split; apply Hlo. }
    rewrite Hstate. split; simpl; [apply Hreason|apply Hent|done|done|by apply fingerprint_trimmed|apply Hent|apply Hreason].
Qed.

Lemma applied_ok config f event r next :
  Config_Validate config = Ok tt → aggregate_ok f → validateEvent event = Ok tt → 0 < ns (ev_OccurredAt event) →
  cursor local_format f event = Ok false → applied config f event r next → aggregate_ok (rd_Flight r).
Proof using Hlocal.
  intros Hc Hok Hev Hpos Hcur Hap. pose proof (aggregate_timer f Hok) as Htimer. destruct Hok as [Hv _].
  pose proof (applied_lifecycle_ok _ _ _ _ _ (mk_lifecycle _ _ _ _ _ _ _) Hv Hev Hcur Hap (ap_lifecycle _ _ _ _ _ Hap)) as Hlo.
  apply validate_aggregate_iff in Hv as (Hst & Hds & Hup & Hex & _).
  apply validateEvent_facts in Hev as (Hk & Hid & Ht & Hstatus). apply cursor_fresh in Hcur.
  assert (Hrt : 0 < lc_RemovalTimeout config).
  { unfold Config_Validate in Hc. rewrite !bind_unit_iff, !guard_err_iff in Hc. destruct Hc as (_ & _ & _ & _ & Hc). lia. }
  eapply (timer_after_ok config event) in Htimer; [|done|done|done|by destruct (af_Lifecycle f); [apply Z.lt_le_incl, Hcur|]].
  split; [apply validate_aggregate_iff; split_and!|].
  - rewrite (ap_state _ _ _ _ _ Hap). destruct next as [[to reason]|]; [|done].
    by destruct (nextState_changes _ _ _ _ _ _ (ap_next _ _ _ _ _ Hap)) as (_ & _ & ? & _).
  - rewrite (ap_status _ _ _ _ _ Hap). unfold new_status, kind_is.
    case_bool_decide; [by apply Hstatus|]. case_bool_decide; [done|]. by case_bool_decide.
  - by rewrite (ap_updated _ _ _ _ _ Hap).
  - intros e He. destruct (ap_exception _ _ _ _ _ Hap) as [H|[H|H]]; rewrite H in He; [by apply Hex|done|by injection He as <-].
  - intros s Hs. rewrite (ap_lifecycle _ _ _ _ _ Hap) in Hs. injection Hs as <-. split; [exact Hlo|].
    intros a Ha. destruct (Htimer a Ha) as (? & ? & _). done.
  - intros s a Hs Ha. rewrite (ap_lifecycle _ _ _ _ _ Hap) in Hs. injection Hs as <-. by destruct (Htimer a Ha) as (_ & _ & ?).
Qed.
End facts.

Definition timer_running {O P} (f : AMANFlight O P) : bool :=
  match lifecycle_absence f with Some absence => not_nil (ab_RemovalDueAt absence) | None => false end.

Definition last_event_at {O P} (f : AMANFlight O P) : Time :=
  match af_Lifecycle f with Some s => ls_LastEventAt s | None => af_UpdatedAt f end.

(** ** Properties *)

Section properties.
Context (local_format : Time → string) {O P : Type}.
Implicit Types (f : AMANFlight O P) (r : Reduced O P).

(** C7: The reducer keeps the aggregate valid: after any accepted event the
    lifecycle reason fits the state, the entry time does not follow the event
    cursor, and the absence timer is consistent and never runs while a source
    reconciliation is pending. Instants rendered outside UTC are assumed not to
    end in white space. *)
Theorem Reduce_valid config f event r :
  (∀ t, ends_ok (chars (local_format t))) →
  aggregate_ok f → 0 < ns (ev_OccurredAt event) →
  Reduce local_format config f event = Ok r → aggregate_ok (rd_Flight r).
Proof using Type.
  intros Hlocal Hok Hpos (Hc & Hev & _ & _ & [[_ ->]|[Hcur [next Hap]]])%Reduce_cases; [done|].
  by eapply applied_ok.
Qed.

(** Retrying an accepted event is idempotent: the second application
    returns the same aggregate, marked duplicate, without a transition. *)
Theorem Reduce_idempotent config f event r :
  Reduce local_format config f event = Ok r →
  Reduce local_format config (rd_Flight r) event = Ok (mk_reduced (rd_Flight r) None true).
Proof using Type.
  intros E. pose proof E as (Hc & Hev & Hst & Hds & [[Hcur ->]|[Hcur [next Hap]]])%Reduce_cases.
  { exact E. }
  assert (Hst' : FlightState_Valid (af_State (rd_Flight r)) = true).
  { rewrite (ap_state _ _ _ _ _ _ Hap). destruct next as [[to reason]|]; [|done].
    by destruct (nextState_changes _ _ _ _ _ _ (ap_next _ _ _ _ _ _ Hap)) as (_ & _ & ? & _). }
  assert (Hds' : DataStatus_Valid (af_DataStatus (rd_Flight r)) = true).
  { apply validateEvent_facts in Hev as (_ & _ & _ & Hstatus).
    rewrite (ap_status _ _ _ _ _ _ Hap). unfold new_status, kind_is.
    case_bool_decide; [by apply Hstatus|]. case_bool_decide; [done|]. by case_bool_decide. }
  unfold Reduce. rewrite Hc, Hev, Hst', Hds'. simpl. unfold cursor. rewrite (ap_lifecycle _ _ _ _ _ _ Hap). simpl.
  by rewrite !str_eqb_refl.
Qed.

(** An accepted event that is not a retry moves the cursor strictly forward
    in time; an event at or before the cursor is refused. *)
Theorem Reduce_ordered config f event r s :
  Reduce local_format config f event = Ok r → af_Lifecycle f = Some s → rd_Duplicate r = false →
  ns (ls_LastEventAt s) < ns (ev_OccurredAt event) ∧ af_UpdatedAt (rd_Flight r) = ev_OccurredAt event ∧
  ∃ s', af_Lifecycle (rd_Flight r) = Some s' ∧ ls_LastEventAt s' = ev_OccurredAt event ∧ ls_LastEventID s' = ev_ID event.
Proof using Type.
  intros (_ & _ & _ & _ & [[_ ->]|[Hcur [next Hap]]])%Reduce_cases Hs Hd; [done|].
  apply cursor_fresh in Hcur. rewrite Hs in Hcur. split_and!; [apply Hcur|by apply (ap_updated _ _ _ _ _ _ Hap)|].
  rewrite (ap_lifecycle _ _ _ _ _ _ Hap). by eexists.
Qed.

(** *** The state machine *)

Lemma nextState_edge config f at_ event to reason :
  nextState config f at_ event = Ok (Some (to, reason)) → lifecycle_edge (af_State f) (ev_Kind event) to.
Proof using Type.
  unfold nextState, terminal_guard. cbv zeta. intros E.
  destruct (ev_Kind event); repeat first [discriminate E | bind_inv E | case_match]; simplify_eq;
    repeat match goal with H : guard_err _ _ = Ok _ |- _ => apply guard_err_ok in H end; unfold state_is in *;
    destruct (af_State f); try done; by constructor.
Qed.

Lemma edge_to_stable state kind :
  lifecycle_edge state kind StateStable → state = StateUnstable ∧ kind = EventPredictionAccepted.
Proof using Type. by inversion 1. Qed.

Lemma Reduce_edge_kind config f event r :
  Reduce local_format config f event = Ok r → af_State (rd_Flight r) = StateStable → af_State f ≠ StateStable →
  af_State f = StateUnstable ∧ ev_Kind event = EventPredictionAccepted ∧
  ∃ next, nextState config f (entered_at f) event = Ok (Some next).
Proof using Type.
  intros (_ & _ & _ & _ & [[_ ->]|[_ [next Hap]]])%Reduce_cases Hs Hns; [done|].
  pose proof (ap_state _ _ _ _ _ _ Hap) as Hst. destruct next as [[to reason]|]; [|congruence].
  rewrite Hs in Hst. symmetry in Hst. subst to.
  pose proof (nextState_edge _ _ _ _ _ _ (ap_next _ _ _ _ _ _ Hap)) as [Hf Hk]%edge_to_stable.
  split_and!; [done|done|]. exists (StateStable, reason). apply Hap.
Qed.

(** One accepted event, retries included. *)
Definition lifecycle_step (config : Config) f f' : Prop :=
  ∃ event r, Reduce local_format config f event = Ok r ∧ f' = rd_Flight r.

(** A transition is reported exactly when the state changes, and then it is
    an edge of the state machine labelled by the event. *)
Theorem Reduce_edges config f event r :
  Reduce local_format config f event = Ok r →
  match rd_Transition r with
  | Some t => tr_From t = af_State f ∧ tr_To t = af_State (rd_Flight r) ∧ tr_At t = ev_OccurredAt event ∧
      lifecycle_edge (af_State f) (ev_Kind event) (af_State (rd_Flight r))
  | None => af_State (rd_Flight r) = af_State f
  end.
Proof using Type.
  intros (_ & _ & _ & _ & [[_ ->]|[_ [next Hap]]])%Reduce_cases; [done|].
  rewrite (ap_transition _ _ _ _ _ _ Hap), (ap_state _ _ _ _ _ _ Hap). destruct next as [[to reason]|]; [|done].
  split_and!; [done..|]. eapply nextState_edge, Hap.
Qed.

Lemma step_state config f f' :
  lifecycle_step config f f' → af_State f' = af_State f ∨ ∃ kind, lifecycle_edge (af_State f) kind (af_State f').
Proof using Type.
  intros (event & r & (_ & _ & _ & _ & [[_ ->]|[_ [next Hap]]])%Reduce_cases & ->); [by left|].
  pose proof (ap_state _ _ _ _ _ _ Hap) as Hs. destruct next as [[to reason]|]; [right|by left].
  exists (ev_Kind event). rewrite Hs. eapply nextState_edge, Hap.
Qed.

(** Whatever events follow, a removed flight stays removed and a landed
    flight is never in another state than landed or removed. *)
Theorem lifecycle_terminal config f f' :
  rtc (lifecycle_step config) f f' →
  (af_State f = StateRemoved → af_State f' = StateRemoved) ∧
  (af_State f = StateLanded → af_State f' = StateLanded ∨ af_State f' = StateRemoved).
Proof using Type.
  induction 1 as [f|f g f' Hstep _ [IHr IHl]]; [by auto|]. apply step_state in Hstep as [Heq|[kind Hedge]].
  - rewrite Heq in IHr, IHl. done.
  - split; intros Hf; rewrite Hf in Hedge; inversion Hedge; subst; auto.
Qed.

(** A flight becomes stable only from unstable, on a prediction accepted
    with fresh data, after the minimum dwell, with a valid feeder-fix estimate
    that is passed or within the stable horizon. *)
Theorem Reduce_stable_entry config f event r :
  Reduce local_format config f event = Ok r →
  af_State (rd_Flight r) = StateStable → af_State f ≠ StateStable →
  af_State f = StateUnstable ∧ ev_Kind event = EventPredictionAccepted ∧ af_DataStatus f = DataFresh ∧
  lc_MinimumUnstableDwell config ≤ time_sub (ev_OccurredAt event) (entered_at f) ∧
  ∃ feeder, ev_FeederETA event = Some feeder ∧ FeederETAState_Validate feeder = Ok tt ∧
    (fe_Passed feeder = true ∨
     ∃ eta, fe_ETA feeder = Some eta ∧ time_sub eta (ev_OccurredAt event) ≤ lc_StableHorizon config).
Proof using Type.
  intros E Hs Hns. pose proof (Reduce_edge_kind _ _ _ _ E Hs Hns) as (Hf & Hk & next & Hnext).
  split; [done|]. split; [done|]. unfold nextState in Hnext. cbv zeta in Hnext. rewrite Hk, Hf in Hnext.
  destruct (str_eqb (af_DataStatus f) DataFresh) eqn:Ed; [|done]. apply str_eqb_eq in Ed. split; [done|].
  cbn [negb] in Hnext. bind_inv Hnext. bind_inv Hnext. unfold StableFeederEligible in E1.
  destruct r1; [|done]. cbn [andb] in Hnext. destruct (Z.leb_spec (lc_MinimumUnstableDwell config) (time_sub (ev_OccurredAt event) (entered_at f))); [|done].
  split; [done|]. destruct (ev_FeederETA event) as [feeder|]; [|done]. exists feeder. split; [done|].
  destruct (FeederETAState_Validate feeder) as [[]| | |]; try done. split; [done|].
  destruct (fe_Passed feeder); [by left|right]. destruct (fe_ETA feeder) as [eta|]; [|done].
  exists eta. split; [done|]. injection E1 as E1. by apply Z.leb_le.
Qed.

(** *** The absence timer

    How long a flight has been observed absent is told by the events alone: an
    absence opens with [EventFlightMissing], a change of the source status closes
    the open stretch, and a flight that is seen again starts from nothing. *)

Record absence_log := mk_log { al_since : option Z; al_total : Z }.

Definition never_absent : absence_log := mk_log None 0.

Definition log_event (l : absence_log) (event : Event) : absence_log :=
  let now := ns (ev_OccurredAt event) in
  match ev_Kind event with
  | EventFlightObserved | EventSuddenAppearance => never_absent
  | EventFlightMissing => mk_log (Some (default now (al_since l))) (al_total l)
  | EventDataStatusChanged | EventSourceRestarted =>
      mk_log None (al_total l + match al_since l with Some since => now - since | None => 0 end)
  | _ => l
  end.

Definition absence_of (events : list Event) : absence_log := foldl log_event never_absent events.

(** The time observed absent until [now]: the closed stretches and the open one *)
Definition absent_for (l : absence_log) (now : Z) : Z :=
  al_total l + match al_since l with Some since => now - since | None => 0 end.

(** The events that were applied, oldest first, since the flight had no absence;
    a retry applies nothing. *)
Inductive history (config : Config) : list Event → AMANFlight O P → Prop :=
| history_start f : lifecycle_absence f = None → history config [] f
| history_applied events f event r :
    history config events f → Reduce local_format config f event = Ok r → rd_Duplicate r = false →
    history config (events ++ [event]) (rd_Flight r).

(** What is left on the timer, at the cursor. *)
Definition credit f : Z :=
  match lifecycle_absence f with
  | Some (mk_absence _ (Some due) _) => ns due - ns (last_event_at f)
  | Some (mk_absence _ None remaining) => remaining
  | None => 0
  end.

(** The timer and the log agree: the timer runs in an open stretch, on fresh data,
    and what is left on it and the time observed absent make up the timeout. *)
Record agrees (config : Config) f (l : absence_log) : Prop := {
  ag_running : not_nil (al_since l) = timer_running f;
  ag_fresh : timer_running f = true → af_DataStatus f = DataFresh ∧ lifecycle_pending f = false;
  ag_past : 0 ≤ absent_for l (ns (last_event_at f));
  ag_none : lifecycle_absence f = None → l = never_absent;
  ag_lower : lifecycle_absence f ≠ None → lc_RemovalTimeout config ≤ credit f + absent_for l (ns (last_event_at f));
  ag_upper : lifecycle_absence f ≠ None → credit f + absent_for l (ns (last_event_at f)) ≤ lc_RemovalTimeout config ∨ credit f ≤ 0
}.

Lemma applied_timer config f event r next :
  applied local_format config f event r next →
  lifecycle_absence (rd_Flight r) = (timer_after config event (lifecycle_pending f) (lifecycle_absence f)).2 ∧
  lifecycle_pending (rd_Flight r) = (timer_after config event (lifecycle_pending f) (lifecycle_absence f)).1 ∧
  last_event_at (rd_Flight r) = ev_OccurredAt event.
Proof using Type.
  intros Hap. unfold lifecycle_absence at 1, lifecycle_pending at 2, last_event_at. by rewrite (ap_lifecycle _ _ _ _ _ _ Hap).
Qed.

(** A flight is reported missing on fresh data only. *)
Lemma missing_fresh config f at_ event next :
  nextState config f at_ event = Ok next → ev_Kind event = EventFlightMissing → af_DataStatus f = DataFresh.
Proof using Type.
  unfold nextState. cbv zeta. intros E Hk. rewrite Hk in E. bind_inv E. bind_inv E. apply guard_err_ok in E1.
  apply str_eqb_eq. by destruct (str_eqb _ _).
Qed.

Lemma cursor_advances f event : cursor local_format f event = Ok false → ns (last_event_at f) ≤ ns (ev_OccurredAt event).
Proof using Type. intros H%cursor_fresh. unfold last_event_at. destruct (af_Lifecycle f); [|done]. lia. Qed.

Lemma agrees_applied config f event r next l :
  0 < lc_RemovalTimeout config < 2^63 → agrees config f l → cursor local_format f event = Ok false →
  applied local_format config f event r next → agrees config (rd_Flight r) (log_event l event).
Proof using Type.
  intros HT [Hrun Hfresh Hpast Hnone Hlo Hup] Hcur%cursor_advances Hap.
  destruct (applied_timer _ _ _ _ _ Hap) as (Habs & Hpend & Hlast). pose proof (ap_status _ _ _ _ _ _ Hap) as Hst.
  pose proof (missing_fresh config f _ event next (ap_next _ _ _ _ _ _ Hap)) as Hmiss.
  unfold credit, timer_running, absent_for in *. revert Hrun Hfresh Hpast Hnone Hlo Hup.
  set (last := ns (last_event_at f)) in *. set (now := ns (ev_OccurredAt event)) in *.
  destruct l as [[since|] total], (lifecycle_absence f) as [[msince [due|] rem]|]; simpl; intros Hrun Hfresh Hpast Hnone Hlo Hup; try done.
  all: try (specialize (Hnone eq_refl); unfold never_absent in Hnone; simplify_eq).
  all: try specialize (Hlo ltac:(done)); try specialize (Hup ltac:(done)).
  all: unfold timer_after, log_event, new_status, kind_is in *; destruct (ev_Kind event); simpl in *.
  all: constructor; unfold timer_running, credit, absent_for; rewrite ?Habs, ?Hlast, ?Hpend, ?Hst; fold now; simpl; try done; try lia.
  all: try (intros _; split; [by apply Hmiss|done]).
  all: intros _; unfold time_sub, sat64, min_int64, max_int64; fold now;
    repeat match goal with |- context [if ?c then _ else _] => destruct c eqn:? end; zbool; try lia.
Qed.

Lemma history_agrees config events f :
  0 < lc_RemovalTimeout config < 2^63 → history config events f → agrees config f (absence_of events).
Proof using Type.
  intros HT. induction 1 as [f Hf|events f event r _ IH E Hd].
  - by split; unfold timer_running; try rewrite Hf.
  - unfold absence_of. rewrite foldl_snoc. apply Reduce_cases in E as (_ & _ & _ & _ & [[_ ->]|[Hcur [next Hap]]]); [done|].
    by eapply agrees_applied.
Qed.

(** C8: A flight is removed for having disappeared only when it is absent and has been
    observed absent for the whole removal timeout since it was last present, counting
    no time during which the source was stale, restarting or awaiting reconciliation;
    and once it has been, the removal is accepted. The time observed absent is
    counted on the events, apart from the timer of the reducer. *)
Theorem removal_needs_absence config events f event :
  Config_Validate config = Ok tt → lc_RemovalTimeout config < 2^63 → history config events f → ev_Kind event = EventRemovalTimeout →
  let absent := is_Some (al_since (absence_of events)) ∧
                lc_RemovalTimeout config ≤ absent_for (absence_of events) (ns (ev_OccurredAt event)) in
  (∀ r, Reduce local_format config f event = Ok r → rd_Duplicate r = false → af_State (rd_Flight r) = StateRemoved ∧ absent) ∧
  (validateEvent event = Ok tt → cursor local_format f event = Ok false → FlightState_Valid (af_State f) = true →
   af_State f ≠ StateRemoved → absent → ∃ r, Reduce local_format config f event = Ok r ∧ af_State (rd_Flight r) = StateRemoved).
Proof using Type.
  intros Hc HT Hh Hk. assert (HT0 : 0 < lc_RemovalTimeout config).
  { unfold Config_Validate in Hc. rewrite !bind_unit_iff, !guard_err_iff in Hc. destruct Hc as (_ & _ & _ & _ & Hc). lia. }
  destruct (history_agrees _ _ _ (conj HT0 HT) Hh) as [Hrun Hfresh _ _ Hlo Hup]. cbv zeta.
  set (l := absence_of events) in *. unfold absent_for in *. split.
  - intros r (_ & _ & _ & _ & [[_ ->]|[Hcur [next Hap]]])%Reduce_cases Hd; [done|].
    pose proof (ap_state _ _ _ _ _ _ Hap) as Hs. apply ap_next in Hap.
    unfold nextState in Hap. cbv zeta in Hap. rewrite Hk in Hap. bind_inv Hap.
    unfold credit, timer_running, lifecycle_absence in *. destruct (str_eqb _ _); [|done]. cbn [negb] in Hap.
    destruct (af_Lifecycle f) as [s|]; [|done]. simpl in Hap. destruct (ls_ReconciliationPending s); [done|].
    destruct (ls_Absence s) as [[since [due|] rem]|]; simpl in Hap; [|done..]. bind_inv Hap. apply guard_err_ok in E0.
    injection Hap as <-. simpl in *. specialize (Hlo ltac:(done)). destruct (al_since l); [|done]. split_and!; [done|done|time_lia].
  - intros Hev Hcur Hst Hne [[since Hs] Habs]. rewrite Hs in *. simpl in Hrun. symmetry in Hrun. destruct (Hfresh Hrun) as [Hds Hp].
    apply cursor_advances in Hcur as Hle. unfold credit, timer_running, lifecycle_absence, lifecycle_pending in *.
    destruct (af_Lifecycle f) as [s|] eqn:El; [|done]. destruct (ls_Absence s) as [[ms [due|] rem]|] eqn:Ea; simpl in *; try done.
    assert (Hnext : ∀ at_, nextState config f at_ event = Ok (Some (StateRemoved, ReasonSourceDisappearance))).
    { intros at_. unfold nextState, terminal_guard, state_is. cbv zeta. rewrite Hk, Hds, El, bool_decide_false by done. simpl. rewrite Hp, Ea. simpl.
      unfold before. rewrite (proj2 (Z.ltb_ge _ _)); [done|]. specialize (Hup ltac:(done)). unfold last_event_at in *. rewrite El in *. lia. }
    unfold Reduce. rewrite Hc, Hev, Hst, Hds, Hcur. simpl. unfold apply_event. rewrite Hnext. simpl.
    unfold applyOperationalExceptionState. rewrite Hk. simpl. by eexists.
Qed.
End properties.

(** ** Instances

    A flight that goes missing, loses its source for a while and is removed. *)

Definition zone (t : Time) : string := "+01:00".

Definition at_minute (minutes : Z) : Time := mk_time (63000000000 * Second + minutes * Minute) true.

Definition ex_aman (state : FlightState) (status : string) : AMANFlight unit unit :=
  mk_aman state status (Some (mk_prediction true None tt)) None None (at_minute 0) tt.

Definition evidence (id : string) (kind : EventKind) (minutes : Z) : Event :=
  mk_event id kind (at_minute minutes) (if kind_is kind EventDataStatusChanged then DataFresh else "") None None.

Definition ex_events : list Event :=
  [evidence "e1" EventFlightMissing 1; evidence "e2" EventSourceRestarted 3;
   evidence "e3" EventDataStatusChanged 20; evidence "e4" EventFlightMissing 21].

Definition ex_reduce (f : AMANFlight unit unit) (event : Event) : outcome (AMANFlight unit unit) :=
  r ← Reduce zone DefaultConfig f event; Ok (rd_Flight r).

Definition ex_after (n : nat) : AMANFlight unit unit :=
  match fold_outcome ex_reduce (ex_aman StateStable DataFresh) (take n ex_events) with
  | Ok f => f | _ => ex_aman StatePlanned "" end.

Definition ex_reduced (f : AMANFlight unit unit) (event : Event) : Reduced unit unit :=
  match Reduce zone DefaultConfig f event with Ok r => r | _ => mk_reduced f None true end.

Definition ex_timeout : Event := evidence "e5" EventRemovalTimeout 24.

Definition ex_prediction (minutes eta : Z) : Event :=
  mk_event "p1" EventPredictionAccepted (at_minute minutes) "" (Some (at_minute 60))
    (Some (mk_feeder_eta (Some (at_minute eta)) "route" false)).

Lemma zone_ends t : ends_ok (chars (zone t)).
Proof. by exists "0"%char. Qed.

Lemma Reduce_valid_witness :
  af_State (rd_Flight (ex_reduced (ex_after 4) ex_timeout)) = StateRemoved ∧
  aggregate_ok (rd_Flight (ex_reduced (ex_after 4) ex_timeout)).
Proof.
  split; [vm_compute; reflexivity|].
  apply (Reduce_valid zone DefaultConfig (ex_after 4) ex_timeout);
    [exact zone_ends| |vm_compute; reflexivity|vm_compute; reflexivity].
  split; [vm_compute; reflexivity|]. intros s a Hs Ha.
  assert (Hb : opt_test (λ s, opt_test (λ a, ns (ab_MissingSince a) <=? ns (ls_LastEventAt s)) (ls_Absence s))
                 (af_Lifecycle (ex_after 4)) = true) by (vm_compute; reflexivity).
  rewrite Hs in Hb. simpl in Hb. rewrite Ha in Hb. by apply Z.leb_le.
Defined.

Lemma Reduce_idempotent_witness :
  Reduce zone DefaultConfig (rd_Flight (ex_reduced (ex_after 4) ex_timeout)) ex_timeout =
  Ok (mk_reduced (rd_Flight (ex_reduced (ex_after 4) ex_timeout)) None true).
Proof. apply (Reduce_idempotent zone DefaultConfig (ex_after 4)). vm_compute. reflexivity. Defined.

Lemma Reduce_ordered_witness :
  ns (at_minute 21) < ns (at_minute 24) ∧
  af_UpdatedAt (rd_Flight (ex_reduced (ex_after 4) ex_timeout)) = at_minute 24 ∧
  ∃ s', af_Lifecycle (rd_Flight (ex_reduced (ex_after 4) ex_timeout)) = Some s' ∧ ls_LastEventAt s' = at_minute 24 ∧
    ls_LastEventID s' = "e5"%string.
Proof.
  destruct (af_Lifecycle (ex_after 4)) as [s|] eqn:Es; [|vm_compute in Es; discriminate].
  assert (Hlast : ls_LastEventAt s = at_minute 21).
  { transitivity (last_event_at (ex_after 4)); [|vm_compute; reflexivity]. unfold last_event_at. by rewrite Es. }
  rewrite <-Hlast. apply (Reduce_ordered zone DefaultConfig (ex_after 4) ex_timeout); [vm_compute; reflexivity|exact Es|vm_compute; reflexivity].
Defined.

Lemma Reduce_edges_witness :
  match rd_Transition (ex_reduced (ex_after 4) ex_timeout) with
  | Some t => tr_From t = af_State (ex_after 4) ∧
      tr_To t = af_State (rd_Flight (ex_reduced (ex_after 4) ex_timeout)) ∧ tr_At t = ev_OccurredAt ex_timeout ∧
      lifecycle_edge (af_State (ex_after 4)) (ev_Kind ex_timeout)
        (af_State (rd_Flight (ex_reduced (ex_after 4) ex_timeout)))
  | None => af_State (rd_Flight (ex_reduced (ex_after 4) ex_timeout)) = af_State (ex_after 4)
  end.
Proof. apply (Reduce_edges zone DefaultConfig (ex_after 4) ex_timeout). vm_compute. reflexivity. Defined.

Definition ex_landed : AMANFlight unit unit := ex_aman StateLanded DataFresh.
Definition ex_gone : AMANFlight unit unit := rd_Flight (ex_reduced ex_landed (evidence "e1" EventLandedTimeout 1)).

Lemma lifecycle_terminal_witness :
  (af_State ex_landed = StateRemoved → af_State ex_gone = StateRemoved) ∧
  (af_State ex_landed = StateLanded → af_State ex_gone = StateLanded ∨ af_State ex_gone = StateRemoved).
Proof.
  apply (lifecycle_terminal zone DefaultConfig ex_landed ex_gone).
  apply rtc_once. exists (evidence "e1" EventLandedTimeout 1), (ex_reduced ex_landed (evidence "e1" EventLandedTimeout 1)).
  split; [vm_compute; reflexivity|reflexivity].
Defined.

Lemma Reduce_stable_entry_witness :
  lc_MinimumUnstableDwell DefaultConfig ≤ time_sub (at_minute 30) (entered_at (ex_aman StateUnstable DataFresh)).
Proof.
  apply (Reduce_stable_entry zone DefaultConfig (ex_aman StateUnstable DataFresh) (ex_prediction 30 45)
           (ex_reduced (ex_aman StateUnstable DataFresh) (ex_prediction 30 45)));
    [vm_compute; reflexivity|vm_compute; reflexivity|vm_compute; discriminate].
Defined.

(** The flight is observed absent from minute 1 to 3 and from minute 21 on. *)
Lemma ex_applied (n : nat) :
  Reduce zone DefaultConfig (ex_after n) (nth n ex_events ex_timeout) = Ok (mk_reduced (ex_after (S n)) None false) →
  history zone DefaultConfig (take n ex_events) (ex_after n) →
  history zone DefaultConfig (take n ex_events ++ [nth n ex_events ex_timeout]) (ex_after (S n)).
Proof. intros E Hh. exact (history_applied zone DefaultConfig _ _ _ _ Hh E eq_refl). Qed.

Lemma ex_history : history zone DefaultConfig ex_events (ex_after 4).
Proof.
  apply (ex_applied 3); [vm_compute; reflexivity|]. apply (ex_applied 2); [vm_compute; reflexivity|].
  apply (ex_applied 1); [vm_compute; reflexivity|]. apply (ex_applied 0); [vm_compute; reflexivity|].
  apply history_start. vm_compute. reflexivity.
Qed.

(** At minute 24 it has been absent for five minutes in all, a minute before it has not. *)
Lemma removal_needs_absence_witness :
  absent_for (absence_of ex_events) (ns (at_minute 24)) = 5 * Minute ∧
  (∃ r, Reduce zone DefaultConfig (ex_after 4) ex_timeout = Ok r ∧ af_State (rd_Flight r) = StateRemoved) ∧
  ∀ r, Reduce zone DefaultConfig (ex_after 4) (evidence "e5" EventRemovalTimeout 23) ≠ Ok r ∨ rd_Duplicate r = true.
Proof.
  split; [vm_compute; reflexivity|]. split.
  - apply (removal_needs_absence zone DefaultConfig ex_events (ex_after 4) ex_timeout);
      [vm_compute; reflexivity|vm_compute; reflexivity|exact ex_history|vm_compute; reflexivity..|vm_compute; discriminate|].
    split; [vm_compute; by eexists|vm_compute; discriminate].
  - intros r. destruct (rd_Duplicate r) eqn:Ed; [by right|left]. intros E.
    destruct (removal_needs_absence zone DefaultConfig ex_events (ex_after 4) (evidence "e5" EventRemovalTimeout 23)) as [Honly _];
      [vm_compute; reflexivity|vm_compute; reflexivity|exact ex_history|reflexivity|].
    destruct (Honly r E Ed) as (_ & _ & Hlong). vm_compute in Hlong. by apply Hlong.
Defined.

(** A removed flight still accepts a prediction while its data is not
    fresh: the event is no retry and moves the cursor, where every other event
    is refused because removal is terminal. *)
Theorem removed_accepts_stale_prediction :
  Reduce zone DefaultConfig (ex_aman StateRemoved DataStale) (evidence "e1" EventDataStatusChanged 1) =
    Err (transition_error StateRemoved EventDataStatusChanged "Removed is terminal") ∧
  ∃ r, Reduce zone DefaultConfig (ex_aman StateRemoved DataStale) (ex_prediction 30 45) = Ok r ∧
    rd_Duplicate r = false ∧ af_UpdatedAt (rd_Flight r) = at_minute 30.
Proof. split; [vm_compute; reflexivity|]. eexists. split; [vm_compute; reflexivity|]. by split. Qed.
