(* ===== verification/SequenceQueue.v ===== *)
(** * Queue offers and vacancy promotion

    [queue.go]: [CalculateQueueOffers] finds the occupied earlier slots a
    movable flight could take, [compactStableFlights] moves committed flights
    into earlier vacancies, [GenerateWithVacancyPromotions] puts both in front of
    a new calculation; [gap_fill.go]: [fillSTARSpacingGaps] lets another stream
    use the room same-STAR spacing leaves.

    Two iterations over Go maps have no fixed order: the groups of
    [CalculateQueueOffers] and its candidates by key. The model takes the groups
    in order of their identifier and the keys in order of their first offer; the
    final sort makes the result the same, the order of the groups could only
    choose which of several errors is returned. *)

From S2P Require Import Prelude GoTime SequenceData SequenceGrid SequenceSpacing SequenceOrder.
From S2P Require Import SequencePlacement SequenceAllocation SequenceOptimize SequencePrepare SequenceEngine SequenceExamples.
From S2P Require Import SequenceSafety SequenceCommands SequencePolicy SequenceGoAround.

Local Open Scope Z_scope.

Record QueueOffer := mk_offer {
  qo_Callsign : string;
  qo_RunwayGroupID : string;
  qo_CandidateSlot : Slot;
  qo_QueuePosition : Z;
  qo_ExpiresAt : Time;
  qo_AirportRevision : Z;
  qo_Reason : string
}.

Definition QueueOfferEarlierOccupiedSlot : string := "earlier_occupied_slot".

Record queueEntry := mk_qentry { qe_flight : preparedFlight; qe_slot : Slot }.

Definition allocated_of (e : queueEntry) : allocatedEntry :=
  mk_alloc (qe_flight e) (sl_Time (qe_slot e)) (sl_Reason (qe_slot e)).

(** ** Eligibility and boundaries *)

Definition queueEligible (f : preparedFlight) : bool :=
  (state_is (fl_State f) StateUnstable || state_is (fl_State f) StateStable)
  && freeze_is (fl_FreezeReason f) FreezeNone && is_nil (fl_ManualOrder f) && is_nil (fl_ReleaseRank f).

(** A freeze or a manual order: a flight no other may cross. *)
Definition boundary (f : preparedFlight) : bool := frozen (fl_FreezeReason f) || not_nil (fl_ManualOrder f).

Definition crossesProtectedOrder (entries : list queueEntry) (candidateIndex targetIndex : nat) : bool :=
  existsb (λ e, boundary (qe_flight e)) (drop (candidateIndex + 1) (take targetIndex entries)).

Definition crossesProtectedTime (entries : list queueEntry) (candidateTime targetTime : Time) : bool :=
  existsb (λ e, after (sl_Time (qe_slot e)) candidateTime && before (sl_Time (qe_slot e)) targetTime
                && boundary (qe_flight e)) entries.

Definition crossesStableOrder (entries : list queueEntry) (target : preparedFlight) (candidate : Time) : bool :=
  match pf_stableOrder target with
  | None => false
  | Some order =>
      existsb (λ e, negb (str_eqb (fl_Callsign (qe_flight e)) (fl_Callsign target))
                    && opt_test (λ o, ((o <? order) && negb (after candidate (sl_Time (qe_slot e))))
                                      || ((order <? o) && negb (before candidate (sl_Time (qe_slot e)))))
                                (pf_stableOrder (qe_flight e))) entries
  end.

Definition isGridSlot (p : preparedPolicy) (candidate : Time) : outcome bool :=
  grid ← previousGridAtOrBefore p candidate;
  Ok (opt_test (λ g, time_eqb g candidate) grid).

Definition promotionLowerBound (p : preparedPolicy) (f : preparedFlight) (at_ : Time) : Time :=
  let lower := time_add (fl_OperationalTETA f) (dur_neg (po_EarlyTolerance p)) in
  let lower := if negb (after lower at_) then time_add at_ Nanosecond else lower in
  match fl_PromotionNotBefore f with
  | Some t => if before lower t then t else lower
  | None => lower
  end.

Definition stablePromotionEligible (f : preparedFlight) : bool :=
  if (negb (state_is (fl_State f) StateStable) && negb (fl_HoldingSlotProtected f))
     || not_nil (fl_ManualOrder f) || not_nil (fl_ReleaseRank f) || is_nil (fl_CurrentSlot f) then false
  else match fl_FreezeReason f with
       | FreezeNone => fl_ProtectCurrentSlot f
       | FreezeSuperstable => not_nil (fl_CapturedSlot f)
       | _ => false
       end.

Definition queueEntryIndex (entries : list queueEntry) (callsign : string) : option nat :=
  fst <$> list_find (λ e, fl_Callsign (qe_flight e) = callsign) entries.

Definition queueSlotOccupied (entries : list queueEntry) (slot : Slot) : bool :=
  existsb (λ e, time_eqb (sl_Time (qe_slot e)) (sl_Time slot)) entries.

(** ** Committed entries *)

Definition committed_order (a b : queueEntry) : bool :=
  let s := qe_slot a in
  let t := qe_slot b in
  if negb (sl_Sequence s =? sl_Sequence t) then sl_Sequence s <? sl_Sequence t
  else if negb (time_eqb (sl_Time s) (sl_Time t)) then before (sl_Time s) (sl_Time t)
  else str_ltb (fl_Callsign (qe_flight a)) (fl_Callsign (qe_flight b)).

Definition slot_order (a b : queueEntry) : bool :=
  let s := qe_slot a in
  let t := qe_slot b in
  if negb (time_eqb (sl_Time s) (sl_Time t)) then before (sl_Time s) (sl_Time t)
  else if negb (sl_Sequence s =? sl_Sequence t) then sl_Sequence s <? sl_Sequence t
  else str_ltb (fl_Callsign (qe_flight a)) (fl_Callsign (qe_flight b)).

Definition queue_entry (revision : Z) (entries : list queueEntry) (f : preparedFlight) : outcome (list queueEntry) :=
  if inactive (fl_State f) then Ok entries
  else match fl_CurrentSlot f with
       | None => Ok entries
       | Some slot =>
           if negb (sl_Revision slot =? revision) || str_empty (sl_Reason slot)
           then Err (Errorf "flight %q has a stale or incomplete committed slot" [AStr (fl_Callsign f)])
           else Ok (entries ++ [mk_qentry f slot])
       end.

(** Neighbours in committed order whose sequence or time does not increase. *)
Fixpoint unordered_slots (entries : list queueEntry) : option string :=
  match entries with
  | a :: ((b :: _) as rest) =>
      if (sl_Sequence (qe_slot b) =? sl_Sequence (qe_slot a)) || negb (after (sl_Time (qe_slot b)) (sl_Time (qe_slot a)))
      then Some (sl_RunwayGroupID (qe_slot b))
      else unordered_slots rest
  | _ => None
  end.

Definition queueEntries (revision : Z) (flights : list preparedFlight) : outcome (list queueEntry) :=
  entries ← fold_outcome (queue_entry revision) [] flights;
  let entries := sort_slice committed_order entries in
  match unordered_slots entries with
  | Some group => Err (Errorf "runway group %q has duplicate or unordered committed slots" [AStr group])
  | None => Ok entries
  end.

(** ** Queue offers *)

Record pendingOffer := mk_pending { pe_offer : QueueOffer; pe_assigned : Z; pe_flight : preparedFlight }.

(** The key of a candidate slot: its group, sequence and instant. *)
Definition offerKey : Type := string * Z * Time.

(** The offer of the entry at [candidateIndex] to the one at [targetIndex], if the code makes it. *)
Definition offer_for (revision : Z) (p : preparedPolicy) (group : string) (validity : Duration) (at_ : Time)
    (entries : list queueEntry) (targetIndex candidateIndex : nat) (target candidate : queueEntry) : option pendingOffer :=
  let slot := qe_slot candidate in
  let expiresAt := earlier_of (time_add at_ validity) (sl_Time slot) in
  if boundary (qe_flight candidate) then None
  else if before (sl_Time slot) (time_add (fl_OperationalTETA (qe_flight target)) (dur_neg (po_EarlyTolerance p))) then None
  else if crossesProtectedOrder entries candidateIndex targetIndex then None
  else if negb (after expiresAt at_) then None
  else
    let remaining := allocated_of <$> (take candidateIndex entries
                       ++ drop (candidateIndex + 1) (take targetIndex entries) ++ drop (targetIndex + 1) entries) in
    if pl_valid (queuePlacement p remaining (qe_flight target) (sl_Time slot))
    then Some (mk_pending
                 (mk_offer (fl_Callsign (qe_flight target)) group slot 0 expiresAt revision QueueOfferEarlierOccupiedSlot)
                 (sl_Sequence (qe_slot target)) (qe_flight target))
    else None.

Definition target_offers (revision : Z) (p : preparedPolicy) (group : string) (validity : Duration) (at_ : Time)
    (entries : list queueEntry) (targetIndex : nat) (target : queueEntry) : list pendingOffer :=
  if negb (queueEligible (qe_flight target)) then []
  else omap (λ ic : nat * queueEntry, offer_for revision p group validity at_ entries targetIndex ic.1 target ic.2)
            (imap pair (take targetIndex entries)).

Definition group_offers (revision : Z) (policies : gmap string preparedPolicy) (validity : Duration) (at_ : Time)
    (pending : list pendingOffer) (gf : string * list preparedFlight) : outcome (list pendingOffer) :=
  entries ← queueEntries revision gf.2;
  p ← deref (policies !! gf.1);
  Ok (pending ++ (imap (target_offers revision p gf.1 validity at_ entries) entries ≫= id)).

Definition offer_key (o : pendingOffer) : offerKey :=
  (qo_RunwayGroupID (pe_offer o), sl_Sequence (qo_CandidateSlot (pe_offer o)), sl_Time (qo_CandidateSlot (pe_offer o))).

Definition pending_less (a b : pendingOffer) : bool :=
  if negb (pe_assigned a =? pe_assigned b) then pe_assigned a <? pe_assigned b
  else flightLess (pe_flight a) (pe_flight b).

Definition set_QueuePosition (position : Z) (o : QueueOffer) : QueueOffer :=
  mk_offer (qo_Callsign o) (qo_RunwayGroupID o) (qo_CandidateSlot o) position (qo_ExpiresAt o) (qo_AirportRevision o) (qo_Reason o).

(** The queue of one candidate slot, numbered from 1. *)
Definition slot_queue (candidates : list pendingOffer) : list QueueOffer :=
  imap (λ index o, set_QueuePosition (Z.of_nat index + 1) (pe_offer o)) (sort_slice pending_less candidates).

Definition offer_less (a b : QueueOffer) : bool :=
  let s := qo_CandidateSlot a in
  let t := qo_CandidateSlot b in
  if negb (str_eqb (qo_RunwayGroupID a) (qo_RunwayGroupID b)) then str_ltb (qo_RunwayGroupID a) (qo_RunwayGroupID b)
  else if negb (sl_Sequence s =? sl_Sequence t) then sl_Sequence s <? sl_Sequence t
  else if negb (time_eqb (sl_Time s) (sl_Time t)) then before (sl_Time s) (sl_Time t)
  else if negb (qo_QueuePosition a =? qo_QueuePosition b) then qo_QueuePosition a <? qo_QueuePosition b
  else str_ltb (qo_Callsign a) (qo_Callsign b).

Definition CalculateQueueOffers (input : Input) (validity : Duration) (at_ : Time) : outcome (list QueueOffer) :=
  _ ← guard_err (in_Revision input =? 0) (Errorf "queue offers require a committed airport revision" []);
  _ ← guard_err (validity <=? 0) (Errorf "queue offers require positive validity" []);
  _ ← guard_err (negb (validUTC at_)) (Errorf "queue offer calculation time must be UTC" []);
  '(policies, prepared) ← prepareInput input;
  pending ← fold_outcome (group_offers (in_Revision input) policies validity at_) []
              (sort_slice (λ a b, str_ltb a.1 b.1) (map_to_list prepared));
  let queues := (λ key, slot_queue (filter (λ o, offer_key o = key) pending)) <$> remove_dups (offer_key <$> pending) in
  Ok (sort_slice offer_less (queues ≫= id)).

(** ** Compaction of committed flights *)

Record VacancyPromotion := mk_promotion { vp_Callsign : string; vp_From : Slot; vp_To : Slot }.

(** What the compaction and the offers change: the entries in slot order, the
    promoted slots and the promotions in the order they were made. *)
Record vacancy := mk_vacancy {
  va_entries : list queueEntry;
  va_slots : gmap string Slot;
  va_promotions : list VacancyPromotion
}.

Definition set_slot (to : Slot) (e : queueEntry) : queueEntry := mk_qentry (qe_flight e) to.

(** [boundary.After(lower)] raises the bound. *)
Definition raise_bound (lower : Time) (boundary_ : Time) : Time := if after boundary_ lower then boundary_ else lower.

(** The first instant behind every freeze, manual order and earlier stable flight. *)
Definition compaction_lower (p : preparedPolicy) (entries : list queueEntry) (target : queueEntry) (at_ : Time) : Time :=
  foldl (λ lower e,
      let f := qe_flight e in
      if str_eqb (fl_Callsign f) (fl_Callsign (qe_flight target))
         || negb (before (sl_Time (qe_slot e)) (sl_Time (qe_slot target))) then lower
      else if boundary f || orderAfter (pf_stableOrder f) (pf_stableOrder (qe_flight target))
      then raise_bound lower (time_add (sl_Time (qe_slot e)) Nanosecond)
      else lower)
    (promotionLowerBound p (qe_flight target) at_) entries.

(** One turn of the search for an earlier slot, [inr] the slot found. *)
Definition compaction_step (p : preparedPolicy) (entries : list queueEntry) (remaining : list allocatedEntry)
    (target : queueEntry) (candidate : Time) : outcome (Time + option Time) :=
  let bound := sl_Time (qe_slot target) in
  if negb (before candidate bound) then Ok (inr None)
  else
    let allowed := negb (crossesProtectedTime entries candidate bound)
                   && negb (crossesStableOrder entries (qe_flight target) candidate) in
    let r := placement p remaining (qe_flight target) candidate in
    if allowed && pl_valid r then Ok (inr (Some candidate))
    else
      let next_target := if allowed && after (pl_later r) candidate then pl_later r
                         else time_add candidate (if po_ContinuousSpacing p then intervalAt p candidate else Nanosecond) in
      next ← nextGridAtOrAfter p next_target;
      match next with
      | Some candidate => Ok (inl candidate)
      | None => Ok (inr None)
      end.

(** The search from [lower] on; every turn moves on by a nanosecond at least. *)
Definition compaction_search (p : preparedPolicy) (entries : list queueEntry) (remaining : list allocatedEntry)
    (target : queueEntry) (lower : Time) : outcome (option Time) :=
  first ← nextGridAtOrAfter p lower;
  match first with
  | None => Ok None
  | Some candidate =>
      iterate (Z.to_pos (Z.max 0 (ns (sl_Time (qe_slot target)) - ns candidate) + 1))
        (compaction_step p entries remaining target) candidate
  end.

(** [promotionIndexes]: the position of each callsign's promotion. *)
Definition promotion_indexes (promotions : list VacancyPromotion) : gmap string nat :=
  foldl (λ m iv, <[vp_Callsign iv.2 := iv.1]> m) ∅ (imap pair promotions).

Definition set_To (to : Slot) (v : VacancyPromotion) : VacancyPromotion := mk_promotion (vp_Callsign v) (vp_From v) to.

(** The target at [index] moved to [to]. *)
Definition promote (index : nat) (target : queueEntry) (to : Slot) (s : vacancy * gmap string nat) : outcome (vacancy * gmap string nat) :=
  let '(v, indexes) := s in
  let callsign := fl_Callsign (qe_flight target) in
  from ← deref (fl_CurrentSlot (qe_flight target));
  let entries := sort_slice slot_order (alter (set_slot to) index (va_entries v)) in
  let slots := <[callsign := to]> (va_slots v) in
  match indexes !! callsign with
  | Some i => Ok (mk_vacancy entries slots (alter (set_To to) i (va_promotions v)), indexes)
  | None => Ok (mk_vacancy entries slots (va_promotions v ++ [mk_promotion callsign from to]),
                <[callsign := length (va_promotions v)]> indexes)
  end.

Definition promoted_slot (target : queueEntry) (candidate : Time) : Slot :=
  let s := qe_slot target in
  mk_slot candidate (sl_RunwayGroupID s) (sl_Sequence s) (sl_Revision s) ReasonQueuePromotion.

Definition remaining_entries (entries : list queueEntry) (index : nat) : list allocatedEntry :=
  allocated_of <$> (take index entries ++ drop (S index) entries).

Definition compact_one (p : preparedPolicy) (at_ : Time) (s : vacancy * gmap string nat) (callsign : string)
  : outcome (vacancy * gmap string nat) :=
  let entries := va_entries s.1 in
  match queueEntryIndex entries callsign with
  | None => Ok s
  | Some index =>
      target ← deref (entries !! index);
      found ← compaction_search p entries (remaining_entries entries index) target (compaction_lower p entries target at_);
      match found with
      | None => Ok s
      | Some candidate => promote index target (promoted_slot target candidate) s
      end
  end.

Definition compactStableFlights (p : preparedPolicy) (v : vacancy) (at_ : Time) : outcome vacancy :=
  let stableCallsigns := (λ e, fl_Callsign (qe_flight e))
                           <$> filter (λ e, stablePromotionEligible (qe_flight e) = true) (va_entries v) in
  s ← fold_outcome (compact_one p at_) (v, promotion_indexes (va_promotions v)) stableCallsigns;
  Ok s.1.

(** ** Filling same-STAR gaps *)

Definition freely_frozen (f : Flight) : bool :=
  freeze_is (fl_FreezeReason f) FreezeNone || freeze_is (fl_FreezeReason f) FreezeSuperstable.

Definition gapFillEligible (f : preparedFlight) : bool :=
  negb (str_empty (fl_STARFamily f)) && is_nil (fl_ManualOrder f) && is_nil (fl_ReleaseRank f)
  && negb (fl_RebuildRetained f) && negb (fl_RebuildTMA f) && not_nil (fl_PromotionNotBefore f)
  && freely_frozen f
  && (state_is (fl_State f) StateStable || state_is (fl_State f) StateUnstable || state_is (fl_State f) StateAirborne).

Definition canPassForSTARGap (target crossed : preparedFlight) : bool :=
  is_nil (fl_ManualOrder crossed) && negb (str_empty (fl_STARFamily crossed))
  && negb (str_eqb (fl_STARFamily crossed) (fl_STARFamily target))
  && freely_frozen crossed && negb (fl_RebuildRetained crossed) && negb (fl_RebuildTMA crossed)
  && (str_empty (fl_HoldingQueueID target) || negb (str_eqb (fl_HoldingQueueID target) (fl_HoldingQueueID crossed))).

Fixpoint fill_attempts (attempts : nat) (p : preparedPolicy) (remaining : list allocatedEntry) (f : preparedFlight)
    (limit : Time) (candidate : option Time) : outcome (option Time) :=
  match attempts, candidate with
  | S attempts, Some candidate =>
      if negb (before candidate limit) then Ok None
      else
        let r := placementWithStableOrder p remaining f candidate false in
        if pl_valid r then Ok (Some candidate)
        else next ← nextGridAtOrAfter p (pl_later r); fill_attempts attempts p remaining f limit next
  | _, _ => Ok None
  end.

(** The bound of a filler behind the flights it may not pass. *)
Definition fill_lower (p : preparedPolicy) (at_ : Time) (f : preparedFlight) (crossed : list allocatedEntry) : Time :=
  let lower := promotionLowerBound p f at_ in
  let lower := match fl_SlotNotBefore f with Some t => raise_bound lower t | None => lower end in
  foldl (λ lower e, if canPassForSTARGap f (ae_flight e) then lower
                    else raise_bound lower (time_add (ae_time e) Nanosecond)) lower crossed.

(** The entry at [index] put between [leading] and [trailing], if it fits there. *)
Definition fill_with (p : preparedPolicy) (at_ : Time) (entries : list allocatedEntry) (gap index : nat)
    (leading trailing target : allocatedEntry) : outcome (option (list allocatedEntry)) :=
  let f := ae_flight target in
  let lower := fill_lower p at_ f (drop (gap + 1) (take index entries)) in
  if negb (before lower (ae_time trailing)) then Ok None
  else
    let exposes := match last (take index entries), entries !! S index with
                   | Some a, Some b => negb (adjacentValid p a b)
                   | _, _ => false
                   end in
    if exposes then Ok None
    else
      let remaining := take index entries ++ drop (S index) entries in
      let lower := raise_bound lower (time_add (ae_time leading) (requiredGap p (ae_flight leading) f lower)) in
      first ← nextGridAtOrAfter p lower;
      found ← fill_attempts (length remaining + length (po_Gaps p) + length (po_Closures p) + length (pp_rates p) + 1)
                p remaining f (ae_time trailing) first;
      match found with
      | None => Ok None
      | Some candidate =>
          Ok (Some (sortEntries (remaining ++ [mk_alloc (noteOperation "gap_fill" f) candidate (ae_reason target)])))
      end.

(** The first success of [try] over a list. *)
Fixpoint first_found {A B} (try : A → outcome (option B)) (l : list A) : outcome (option B) :=
  match l with
  | [] => Ok None
  | a :: l => r ← try a; match r with Some b => Ok (Some b) | None => first_found try l end
  end.

Definition fill_gap (p : preparedPolicy) (at_ : Time) (entries : list allocatedEntry) (moved : gset string)
    (gap : nat) : outcome (option (list allocatedEntry * string)) :=
  leading ← deref (entries !! gap);
  let family := fl_STARFamily (ae_flight leading) in
  if str_empty family then (Ok None : outcome (option (list allocatedEntry * string)))
  else
    match list_find (λ e, fl_STARFamily (ae_flight e) = family) (drop (gap + 1) entries) with
    | None => Ok None
    | Some (offset, trailing) =>
        let trailingIndex := (gap + 1 + offset)%nat in
        if sameSTARGap p (ae_flight leading) (ae_flight trailing) (ae_time trailing) <=? intervalAt p (ae_time trailing)
        then Ok None
        else
          first_found (λ index,
              target ← deref (entries !! index);
              let f := ae_flight target in
              if bool_decide (fl_Callsign f ∈ moved) || negb (gapFillEligible f) || str_eqb (fl_STARFamily f) family
              then Ok None
              else
                r ← fill_with p at_ entries gap index leading trailing target;
                Ok (option_map (λ l, (l, fl_Callsign f)) r))
            (seq (trailingIndex + 1) (length entries - (trailingIndex + 1)))
    end.

Fixpoint fill_rounds (rounds : nat) (p : preparedPolicy) (at_ : Time) (entries : list allocatedEntry)
    (moved : gset string) : outcome (list allocatedEntry) :=
  match rounds with
  | O => Ok entries
  | S rounds =>
      found ← first_found (fill_gap p at_ entries moved) (seq 0 (length entries - 1));
      match found with
      | None => Ok entries
      | Some (entries, callsign) => fill_rounds rounds p at_ entries ({[callsign]} ∪ moved)
      end
  end.

(** Each round moves another flight, so as many rounds as entries are enough. *)
Definition fillSTARSpacingGaps (p : preparedPolicy) (entries : list allocatedEntry) (at_ : Time)
  : outcome (list allocatedEntry) :=
  if negb (po_AllowCrossFeederOvertake p) then Ok entries
  else fill_rounds (length entries) p at_ entries ∅.

(** ** Vacancy promotion *)

Definition note_flight (kind : string) (f : Flight) : Flight := set_Operations (fl_Operations f ++ [kind]) f.

Definition note_operation (flights : list Flight) (o : Operation) : list Flight :=
  (λ f, if str_eqb (fl_Callsign f) (op_Callsign o) then note_flight (op_Kind o) f else f) <$> flights.

(** The last entry of a callsign, as the map built from the entries holds it. *)
Definition entry_of (entries : list CandidateEntry) (callsign : string) : option CandidateEntry :=
  last (filter (λ e, ce_Callsign e = callsign) entries).

Definition carry_slot (baseline : Result) (f : Flight) : Flight :=
  match fl_CurrentSlot f with
  | None => f
  | Some slot =>
      if not_nil (fl_ManualOrder f) || (negb (state_is (fl_State f) StateStable) && negb (fl_HoldingSlotProtected f)) then f
      else match entry_of (re_Entries baseline) (fl_Callsign f) with
           | None => f
           | Some e =>
               set_CurrentSlot
                 (Some (mk_slot (if str_eqb (ce_Reason e) ReasonStable then ce_Time e else sl_Time slot)
                          (sl_RunwayGroupID slot) (ce_Sequence e) (sl_Revision slot) (sl_Reason slot))) f
           end
  end.

Definition vacancyBaselineInput (input : Input) (baseline : Result) : Input :=
  mk_input (in_Revision input) (in_Policies input) (in_STARFamilyPolicies input)
    (carry_slot baseline <$> foldl note_operation (in_Flights input) (re_Operations baseline)).

Definition baseline_entry (revision : Z) (group : string) (flights : list preparedFlight) (entries : list queueEntry)
    (candidate : CandidateEntry) : outcome (list queueEntry) :=
  if negb (str_eqb (ce_RunwayGroupID candidate) group) then Ok entries
  else match last (filter (λ f : preparedFlight, fl_Callsign f = ce_Callsign candidate) flights) with
       | None => Err (Errorf "baseline flight %q is missing from runway group %q" [AStr (ce_Callsign candidate); AStr group])
       | Some f => Ok (entries ++ [mk_qentry f (mk_slot (ce_Time candidate) group (ce_Sequence candidate) revision (ce_Reason candidate))])
       end.

Definition baselineQueueEntries (revision : Z) (group : string) (flights : list preparedFlight) (baseline : Result)
  : outcome (list queueEntry) :=
  fold_outcome (baseline_entry revision group flights) [] (re_Entries baseline).

(** An offer of this group and revision that has not expired. *)
Definition offer_current (revision : Z) (group : string) (at_ : Time) (o : QueueOffer) : bool :=
  str_eqb (qo_RunwayGroupID o) group && (qo_AirportRevision o =? revision)
  && (sl_Revision (qo_CandidateSlot o) =? revision) && str_eqb (sl_RunwayGroupID (qo_CandidateSlot o)) group
  && after (qo_ExpiresAt o) at_.

Definition consume_offer (revision : Z) (p : preparedPolicy) (group : string) (at_ : Time) (v : vacancy) (o : QueueOffer)
  : outcome vacancy :=
  let slot := qo_CandidateSlot o in
  let entries := va_entries v in
  if negb (offer_current revision group at_ o) || not_nil (va_slots v !! qo_Callsign o) || queueSlotOccupied entries slot
  then Ok v
  else match queueEntryIndex entries (qo_Callsign o) with
  | None => Ok v
  | Some index =>
      target ← deref (entries !! index);
      let f := qe_flight target in
      if negb (queueEligible f) || negb (before (sl_Time slot) (sl_Time (qe_slot target))) then Ok v
      else
        grid ← isGridSlot p (sl_Time slot);
        if negb grid || before (sl_Time slot) (promotionLowerBound p f at_)
           || crossesProtectedTime entries (sl_Time slot) (sl_Time (qe_slot target))
           || crossesStableOrder entries f (sl_Time slot)
           || negb (pl_valid (placement p (remaining_entries entries index) f (sl_Time slot)))
        then Ok v
        else match fl_CurrentSlot f with
             | None => Ok v
             | Some from =>
                 Ok (mk_vacancy (sort_slice slot_order (alter (set_slot slot) index entries))
                       (<[fl_Callsign f := slot]> (va_slots v))
                       (va_promotions v ++ [mk_promotion (fl_Callsign f) from slot]))
             end
  end.

(** The first promotion of a callsign redirected, or a new one. *)
Definition record_promotion (callsign : string) (from to : Slot) (promotions : list VacancyPromotion) : list VacancyPromotion :=
  match list_find (λ v, vp_Callsign v = callsign) promotions with
  | Some (i, _) => alter (set_To to) i promotions
  | None => promotions ++ [mk_promotion callsign from to]
  end.

Definition fill_entry (entries : list queueEntry) (s : list Flight * vacancy) (e : allocatedEntry)
  : outcome (list Flight * vacancy) :=
  let '(working, v) := s in
  let callsign := fl_Callsign (ae_flight e) in
  index ← deref (queueEntryIndex entries callsign);
  previous ← deref (entries !! index);
  if negb (before (ae_time e) (sl_Time (qe_slot previous))) then Ok s
  else
    let old := qe_slot previous in
    let to := mk_slot (ae_time e) (sl_RunwayGroupID old) (sl_Sequence old) (sl_Revision old) ReasonQueuePromotion in
    Ok (note_operation working (mk_operation callsign "gap_fill"),
        mk_vacancy (va_entries v) (<[callsign := to]> (va_slots v))
          (match fl_CurrentSlot (ae_flight e) with
           | Some from => record_promotion callsign from to (va_promotions v)
           | None => va_promotions v
           end)).

Definition promote_group (input : Input) (policies : gmap string preparedPolicy) (baseline : Result)
    (canonical : list QueueOffer) (at_ : Time) (s : list Flight * vacancy) (gf : string * list preparedFlight)
  : outcome (list Flight * vacancy) :=
  let '(working, v) := s in
  entries ← baselineQueueEntries (in_Revision input) gf.1 gf.2 baseline;
  p ← deref (policies !! gf.1);
  v ← fold_outcome (consume_offer (in_Revision input) p gf.1 at_) (mk_vacancy entries (va_slots v) (va_promotions v)) canonical;
  v ← compactStableFlights p v at_;
  filled ← fillSTARSpacingGaps p (allocated_of <$> va_entries v) at_;
  fold_outcome (fill_entry (va_entries v)) (working, v) filled.

(** Go's zero value, read from a map for a missing key. *)
Definition zero_flight : Flight :=
  mk_flight [] "" "" (StateOther "") None zero_time None None "" "" "" None None (FreezeOther "") None None
    None None "" None "" None 0 None None false None false None false false None.

Definition original (input : Input) (callsign : string) : Flight :=
  default zero_flight (last (filter (λ f, fl_Callsign f = callsign) (in_Flights input))).

Definition report_promotion (input : Input) (r : Result) (v : VacancyPromotion) : outcome VacancyPromotion :=
  from ← deref (fl_CurrentSlot (original input (vp_Callsign v)));
  Ok (mk_promotion (vp_Callsign v) from
        (match list_find (λ e, ce_Callsign e = vp_Callsign v) (re_Entries r) with
         | Some (_, e) => mk_slot (ce_Time e) (ce_RunwayGroupID e) (ce_Sequence e) (in_Revision input) (ce_Reason e)
         | None => vp_To v
         end)).

Definition with_movements (input : Input) (r : Result) : Result :=
  mk_result (re_Operations r) (re_Entries r)
    (omap (λ e, movementFor (original input (ce_Callsign e)) e) (re_Entries r)) (re_Warnings r).

Fixpoint map_outcome {A B} (f : A → outcome B) (l : list A) : outcome (list B) :=
  match l with
  | [] => Ok []
  | a :: l => b ← f a; bs ← map_outcome f l; Ok (b :: bs)
  end.

Definition GenerateWithVacancyPromotions (input : Input) (offers : list QueueOffer) (at_ : Time)
  : outcome (Result * list VacancyPromotion) :=
  _ ← guard_err (in_Revision input =? 0) (Errorf "vacancy promotion requires a committed airport revision" []);
  _ ← guard_err (negb (validUTC at_)) (Errorf "vacancy promotion time must be UTC" []);
  '(policies, _) ← prepareInput input;
  baseline ← generate input ∅;
  if HasConflicts baseline then Ok (baseline, [])
  else
    let working := vacancyBaselineInput input baseline in
    prepared ← prepareFlights (in_Flights working) policies;
    '(flights, v) ← fold_outcome (promote_group input policies baseline (sort_slice offer_less offers) at_)
                      (in_Flights working, mk_vacancy [] ∅ []) (sort_slice (λ a b, str_ltb a.1 b.1) (map_to_list prepared));
    let flights := (λ f, if not_nil (va_slots v !! fl_Callsign f) then note_flight "vacancy_promotion" f else f) <$> flights in
    result ← generate (mk_input (in_Revision working) (in_Policies working) (in_STARFamilyPolicies working) flights) (va_slots v);
    if HasConflicts result then fallback ← Generate input; Ok (fallback, [])
    else
      promotions ← map_outcome (report_promotion input result) (va_promotions v);
      Ok (with_movements input result, promotions).

(** ** Facts: what the working copy keeps *)

Definition kept_part (f : Flight) : Flight := set_Operations [] (set_CurrentSlot None f).

(** Only the committed slot and the recorded operations differ. *)
Definition kept (f g : Flight) : Prop := kept_part g = kept_part f.

#[export] Instance kept_preorder : PreOrder kept.
Proof. split; [by intros ?|]. intros f g h Hfg Hgh. unfold kept in *. by rewrite Hgh. Qed.

Lemma note_flight_kept kind f : kept f (note_flight kind f).
Proof. by destruct f. Qed.

Lemma Forall2_fmap_kept (g : Flight → Flight) l : (∀ f, kept f (g f)) → Forall2 kept l (g <$> l).
Proof. intros Hg. induction l as [|f l IH]; [constructor|]. rewrite fmap_cons. by constructor. Qed.

Lemma note_operation_kept l o : Forall2 kept l (note_operation l o).
Proof. apply Forall2_fmap_kept. intros f. destruct (str_eqb _ _); [apply note_flight_kept|done]. Qed.

Lemma foldl_note_kept l ops : Forall2 kept l (foldl note_operation l ops).
Proof.
  revert l. induction ops as [|o ops IH]; intros l; [done|]. simpl. etrans; [apply note_operation_kept|apply IH].
Qed.

Lemma carry_slot_kept baseline f : kept f (carry_slot baseline f).
Proof.
  unfold carry_slot. destruct (fl_CurrentSlot f) eqn:E; [|done]. destruct (_ || _); [done|].
  destruct (entry_of _ _); [|done]. by destruct f.
Qed.

Lemma vacancyBaselineInput_kept input baseline :
  Forall2 kept (in_Flights input) (in_Flights (vacancyBaselineInput input baseline)).
Proof. etrans; [apply foldl_note_kept|]. apply Forall2_fmap_kept, carry_slot_kept. Qed.

Lemma fill_entry_kept entries s e s' : fill_entry entries s e = Ok s' → Forall2 kept s.1 s'.1.
Proof.
  destruct s as [working v]. unfold fill_entry. intros E. bind_inv E. bind_inv E.
  destruct (negb _); injection E as <-; [done|]. apply note_operation_kept.
Qed.

Lemma promote_group_kept input policies baseline canonical at_ s gf s' :
  promote_group input policies baseline canonical at_ s gf = Ok s' → Forall2 kept s.1 s'.1.
Proof.
  destruct s as [working v]. unfold promote_group. intros E. do 5 bind_inv E.
  change working with (working, r2).1.
  apply (fold_outcome_inv _ (λ s, Forall2 kept (working, r2).1 s.1)) in E; [done| |done].
  intros s a s'' Hs Ha. etrans; [exact Hs|by eapply fill_entry_kept].
Qed.

(** *** Who may be promoted *)

(** A promoted callsign belongs to a flight free of freezes other than the superstable one. *)
Definition promotable (flights : list Flight) (slots : gmap string Slot) : Prop :=
  map_Forall (λ callsign _, ∃ f, f ∈ flights ∧ fl_Callsign f = callsign ∧ freely_frozen f = true) slots.

(** The flight [f] is one of the list, as far as callsign and freeze go. *)
Definition known_in (flights : list Flight) (f : Flight) : Prop :=
  ∃ g, g ∈ flights ∧ fl_Callsign g = fl_Callsign f ∧ fl_FreezeReason g = fl_FreezeReason f.

Definition entries_of (flights : list Flight) (entries : list queueEntry) : Prop :=
  Forall (λ e, known_in flights (qe_flight e)) entries.

Lemma promotable_insert flights slots (f : Flight) to :
  promotable flights slots → known_in flights f → freely_frozen f = true → promotable flights (<[fl_Callsign f := to]> slots).
Proof.
  intros Hp (g & Hg & Hc & Hz) Hf. apply map_Forall_insert_2; [|done]. exists g. split_and!; [done|done|].
  unfold freely_frozen. by rewrite Hz.
Qed.

Lemma entries_of_moved flights entries index to :
  entries_of flights entries → entries_of flights (sort_slice slot_order (alter (set_slot to) index entries)).
Proof.
  intros He. apply (Forall_perm _ _ _ (sort_slice_perm _ _)). apply Forall_alter; [done|]. by intros [f s].
Qed.

Lemma entries_of_lookup flights entries index e :
  entries_of flights entries → entries !! index = Some e → known_in flights (qe_flight e).
Proof. intros He Hi. unfold entries_of in He. rewrite Forall_lookup in He. by apply (He index). Qed.

Lemma queueEligible_free f : queueEligible f = true → freely_frozen f = true.
Proof. unfold queueEligible, freely_frozen. intros H. bsplit. by rewrite H2. Qed.

Lemma stablePromotionEligible_free f : stablePromotionEligible f = true → freely_frozen f = true.
Proof.
  unfold stablePromotionEligible, freely_frozen, freeze_is. destruct (_ || is_nil (fl_CurrentSlot f)); [done|].
  by destruct (fl_FreezeReason f).
Qed.

Definition entry_callsign (e : queueEntry) : string := fl_Callsign (qe_flight e).

(** The invariant of the promotion loops over the flights of a group. *)
Record vacancy_ok (flights : list Flight) (v : vacancy) : Prop := {
  vo_entries : entries_of flights (va_entries v);
  vo_nodup : NoDup (entry_callsign <$> va_entries v);
  vo_slots : promotable flights (va_slots v)
}.

Lemma moved_callsigns index to entries :
  entry_callsign <$> sort_slice slot_order (alter (set_slot to) index entries) ≡ₚ entry_callsign <$> entries.
Proof.
  rewrite (sort_slice_perm slot_order). revert index.
  induction entries as [|e l IH]; intros [|index]; simpl; [done..|]. apply perm_skip, IH.
Qed.

Lemma vacancy_ok_moved flights v index target to promotions :
  vacancy_ok flights v → va_entries v !! index = Some target → freely_frozen (qe_flight target) = true →
  vacancy_ok flights (mk_vacancy (sort_slice slot_order (alter (set_slot to) index (va_entries v)))
                        (<[entry_callsign target := to]> (va_slots v)) promotions).
Proof.
  intros [He Hn Hs] Hi Hf. split; cbn [va_entries va_slots].
  - by apply entries_of_moved.
  - by rewrite moved_callsigns.
  - apply promotable_insert; [done|by eapply entries_of_lookup|done].
Qed.

Lemma deref_ok {A} (o : option A) a : deref o = Ok a → o = Some a.
Proof. destruct o; [by intros [= ->]|done]. Qed.

Lemma consume_offer_ok flights revision p group at_ v o v' :
  vacancy_ok flights v → consume_offer revision p group at_ v o = Ok v' → vacancy_ok flights v'.
Proof.
  intros Hv. unfold consume_offer. cbv zeta. destruct (_ || queueSlotOccupied _ _); [by intros [= <-]|].
  destruct (queueEntryIndex _ _) as [index|]; [|by intros [= <-]]. intros E. bind_inv E. apply deref_ok in E0.
  destruct (queueEligible (qe_flight r)) eqn:Eq; [|by injection E as <-]. cbn [negb orb] in E.
  destruct (negb _) in E; [by injection E as <-|]. bind_inv E. destruct (_ || _); [by injection E as <-|].
  destruct (fl_CurrentSlot _); [|by injection E as <-]. injection E as <-.
  by apply vacancy_ok_moved; [..|apply queueEligible_free].
Qed.

Lemma queueEntryIndex_Some entries callsign i :
  queueEntryIndex entries callsign = Some i → ∃ e, entries !! i = Some e ∧ entry_callsign e = callsign.
Proof.
  unfold queueEntryIndex. destruct (list_find _ _) as [[j e]|] eqn:E; [|done]. intros [= <-].
  apply list_find_Some in E as (? & ? & _). by exists e.
Qed.

Lemma same_flight (flights : list Flight) (f g : Flight) :
  NoDup (fl_Callsign <$> flights) → f ∈ flights → g ∈ flights → fl_Callsign f = fl_Callsign g → f = g.
Proof.
  intros Hn Hf Hg Heq. apply list_elem_of_lookup in Hf as [i Hi], Hg as [j Hj].
  assert (i = j) as ->; [|by rewrite Hi in Hj; injection Hj].
  eapply (NoDup_lookup _ _ _ (fl_Callsign g) Hn); rewrite list_lookup_fmap; [by rewrite Hi; simpl; f_equal|by rewrite Hj].
Qed.

Lemma promote_ok flights index target to v indexes s' :
  vacancy_ok flights v → va_entries v !! index = Some target → freely_frozen (qe_flight target) = true →
  promote index target to (v, indexes) = Ok s' → vacancy_ok flights s'.1.
Proof.
  intros Hv Hi Hf E. unfold promote in E. bind_inv E.
  destruct (indexes !! _); injection E as <-; cbn [fst]; by apply vacancy_ok_moved.
Qed.

Lemma compact_one_ok flights p at_ s callsign s' :
  NoDup (fl_Callsign <$> flights) → vacancy_ok flights s.1 →
  (∃ f, f ∈ flights ∧ fl_Callsign f = callsign ∧ freely_frozen f = true) →
  compact_one p at_ s callsign = Ok s' → vacancy_ok flights s'.1.
Proof.
  intros Hn Hv (f & Hf & Hc & Hz). unfold compact_one. cbv zeta.
  destruct (queueEntryIndex _ _) as [index|] eqn:Ei; [|by intros [= <-]]. intros E. bind_inv E. apply deref_ok in E0.
  apply queueEntryIndex_Some in Ei as (e & He & Hec). rewrite E0 in He. injection He as <-.
  bind_inv E. destruct r0 as [candidate|]; [|by injection E as <-]. destruct s as [v indexes].
  eapply promote_ok; [exact Hv|exact E0| |exact E].
  destruct (entries_of_lookup _ _ _ _ (vo_entries _ _ Hv) E0) as (g & Hg & Hgc & Hgz).
  assert (g = f) as -> by (apply (same_flight flights); [done..|]; by rewrite Hc, Hgc).
  unfold freely_frozen in *. by rewrite <-Hgz.
Qed.

Lemma compactStableFlights_ok flights p v at_ v' :
  NoDup (fl_Callsign <$> flights) → vacancy_ok flights v →
  compactStableFlights p v at_ = Ok v' → vacancy_ok flights v'.
Proof.
  intros Hn Hv. unfold compactStableFlights. cbv zeta. intros E. bind_inv E. injection E as <-.
  apply (fold_outcome_inv_in _ (λ s, vacancy_ok flights s.1)) in E0; [done| |done].
  intros s callsign s' Hin Hs. apply (compact_one_ok flights); [done|done|].
  apply list_elem_of_fmap in Hin as (e & -> & He). apply list_elem_of_filter in He as [He Hin].
  pose proof (vo_entries _ _ Hv) as Hall. unfold entries_of in Hall. rewrite Forall_forall in Hall.
  destruct (Hall e Hin) as (g & Hg & Hgc & Hgz). exists g. split_and!; [done|done|].
  unfold freely_frozen. rewrite Hgz. by apply stablePromotionEligible_free.
Qed.

(** *** Gap filling moves eligible flights only *)

Lemma first_found_Some {A B} (try : A → outcome (option B)) l b :
  first_found try l = Ok (Some b) → ∃ a, a ∈ l ∧ try a = Ok (Some b).
Proof.
  induction l as [|a l IH]; simpl; [done|]. intros E. bind_inv E. destruct r as [b'|].
  - injection E as ->. exists a. split; [left|done].
  - apply IH in E as (a' & ? & ?). exists a'. split; [by right|done].
Qed.

Lemma noteOperation_callsign kind f : fl_Callsign (noteOperation kind f) = fl_Callsign f.
Proof. unfold noteOperation. by destruct (existsb _ _). Qed.

Lemma fill_with_spec p at_ entries gap index leading trailing target l :
  fill_with p at_ entries gap index leading trailing target = Ok (Some l) →
  ∃ candidate, l = sortEntries ((take index entries ++ drop (S index) entries)
                     ++ [mk_alloc (noteOperation "gap_fill" (ae_flight target)) candidate (ae_reason target)]).
Proof.
  unfold fill_with. cbv zeta. destruct (negb _); [done|].
  destruct (match last _ with Some _ => _ | None => false end); [done|]. intros E. bind_inv E. bind_inv E.
  destruct r0 as [candidate|]; [|done]. injection E as <-. by exists candidate.
Qed.

Lemma fill_gap_spec p at_ entries moved gap l callsign :
  fill_gap p at_ entries moved gap = Ok (Some (l, callsign)) →
  ∃ index target candidate, entries !! index = Some target ∧ gapFillEligible (ae_flight target) = true ∧
    fl_Callsign (ae_flight target) = callsign ∧ (callsign ∉ moved) ∧
    l = sortEntries ((take index entries ++ drop (S index) entries)
          ++ [mk_alloc (noteOperation "gap_fill" (ae_flight target)) candidate (ae_reason target)]).
Proof.
  unfold fill_gap. intros E. bind_inv E. destruct (str_empty _); [done|].
  destruct (list_find _ _) as [[offset trailing]|]; [|done]. cbv zeta in E. destruct (_ <=? _); [done|].
  apply first_found_Some in E as (index & _ & E). bind_inv E. apply deref_ok in E1.
  destruct (bool_decide _ || _ || _) eqn:Ec; [done|]. apply orb_false_iff in Ec as [Ec _]. apply orb_false_iff in Ec as [Em Eg].
  bind_inv E. destruct r1 as [l'|]; [|done]. injection E as -> <-.
  apply fill_with_spec in E2 as (candidate & ->).
  exists index, r0, candidate. split_and!; [done|by apply negb_false_iff|done|by apply bool_decide_eq_false in Em|done].
Qed.

(** An entry that was there, or one of the flights that may fill. *)
Definition filled (l0 : list allocatedEntry) (e : allocatedEntry) : Prop :=
  e ∈ l0 ∨ ∃ e0, e0 ∈ l0 ∧ fl_Callsign (ae_flight e) = fl_Callsign (ae_flight e0) ∧ gapFillEligible (ae_flight e0) = true.

Lemma fill_rounds_filled rounds p at_ l0 entries moved l :
  Forall (filled l0) entries → fill_rounds rounds p at_ entries moved = Ok l → Forall (filled l0) l.
Proof.
  revert entries moved. induction rounds as [|n IH]; intros entries moved He E; simpl in E; [by injection E as <-|].
  bind_inv E. destruct r as [[l' callsign]|]; [|by injection E as <-]. apply IH in E; [done|].
  apply first_found_Some in E0 as (gap & _ & E0).
  apply fill_gap_spec in E0 as (index & target & candidate & Hi & Hg & _ & _ & ->).
  apply (Forall_perm _ _ _ (sortEntries_perm _)), Forall_app. split; [apply Forall_app; split; [by apply Forall_take|by apply Forall_drop]|].
  apply Forall_singleton. right. rewrite Forall_lookup in He. destruct (He index target Hi) as [Hin|(e0 & Hin & Hc & Hg0)].
  - exists target. split_and!; [done|apply noteOperation_callsign|done].
  - exists e0. split_and!; [done| |done]. simpl. by rewrite noteOperation_callsign.
Qed.

Lemma fillSTARSpacingGaps_filled p entries at_ l :
  fillSTARSpacingGaps p entries at_ = Ok l → Forall (filled entries) l.
Proof.
  assert (Hall : Forall (filled entries) entries) by (apply Forall_forall; intros e He; by left).
  unfold fillSTARSpacingGaps. destruct (negb _); [by intros [= <-]|]. by apply fill_rounds_filled.
Qed.

Lemma gapFillEligible_free f : gapFillEligible f = true → freely_frozen f = true.
Proof. unfold gapFillEligible. rewrite !andb_true_iff. tauto. Qed.

Lemma fill_entry_ok flights entries s e s' :
  entries_of flights entries → NoDup (entry_callsign <$> entries) → filled (allocated_of <$> entries) e →
  promotable flights (va_slots s.2) → fill_entry entries s e = Ok s' → promotable flights (va_slots s'.2).
Proof.
  intros Hent Hn Hf Hp. destruct s as [working v]. unfold fill_entry. cbn [snd] in *. intros E. bind_inv E. bind_inv E.
  apply deref_ok in E0, E1. destruct (negb _) eqn:Eb; injection E as <-; cbn [snd va_slots]; [done|].
  apply queueEntryIndex_Some in E0 as (q & Hq & Hc). rewrite E1 in Hq. injection Hq as <-. destruct Hf as [Hin|(e0 & Hin & Hc0 & Hg)].
  - exfalso. apply list_elem_of_fmap in Hin as (q & -> & Hq). apply list_elem_of_lookup in Hq as [j Hj].
    assert (r = j) as ->.
    { eapply (NoDup_lookup _ _ _ _ Hn); rewrite list_lookup_fmap; [by rewrite E1; simpl; f_equal|by rewrite Hj; simpl; f_equal]. }
    rewrite E1 in Hj. injection Hj as ->. simpl in Eb. apply negb_false_iff in Eb. time_lia.
  - apply list_elem_of_fmap in Hin as (q & -> & Hq). simpl in Hc0, Hg. rewrite Hc0.
    apply promotable_insert; [done| |by apply gapFillEligible_free].
    unfold entries_of in Hent. rewrite Forall_forall in Hent. by apply Hent.
Qed.

(** *** The groups in turn *)

Lemma baseline_entries_facts revision group flights baseline entries :
  baselineQueueEntries revision group flights baseline = Ok entries →
  entry_callsign <$> entries = ce_Callsign <$> filter (λ e, ce_RunwayGroupID e = group) (re_Entries baseline) ∧
  Forall (λ e, qe_flight e ∈ flights) entries.
Proof.
  unfold baselineQueueEntries.
  assert (Hgen : ∀ l entries0, Forall (λ e, qe_flight e ∈ flights) entries0 →
    fold_outcome (baseline_entry revision group flights) entries0 l = Ok entries →
    entry_callsign <$> entries = (entry_callsign <$> entries0) ++ (ce_Callsign <$> filter (λ e, ce_RunwayGroupID e = group) l) ∧
    Forall (λ e, qe_flight e ∈ flights) entries).
  { intros l. induction l as [|c l IH]; intros entries0 H0 E; simpl in E.
    - injection E as <-. by rewrite filter_nil, app_nil_r.
    - bind_inv E. unfold baseline_entry in E0. rewrite filter_cons. destruct (str_eqb _ group) eqn:Eg; simpl in E0.
      + apply str_eqb_eq in Eg. rewrite decide_True by done.
        destruct (last _) as [f|] eqn:El; [|done]. injection E0 as <-.
        apply last_Some_elem_of, list_elem_of_filter in El as [Hc Hf].
        apply IH in E as [-> ?]; [|apply Forall_app; split; [done|by constructor]].
        split; [|done]. rewrite fmap_app, <-app_assoc. unfold entry_callsign at 2. simpl. by rewrite Hc.
      + apply str_eqb_neq in Eg. rewrite decide_False by done. injection E0 as <-. by apply IH. }
  intros E. by apply Hgen in E.
Qed.

Lemma promote_group_ok input policies baseline canonical at_ (flights : list Flight) s group values s' :
  NoDup (fl_Callsign <$> flights) → NoDup (ce_Callsign <$> re_Entries baseline) →
  Forall (λ f : preparedFlight, known_in flights f) values → promotable flights (va_slots s.2) →
  promote_group input policies baseline canonical at_ s (group, values) = Ok s' → promotable flights (va_slots s'.2).
Proof.
  intros Hn Hnb Hvalues Hp. destruct s as [working v]. cbn [snd] in Hp. unfold promote_group. cbn [fst snd]. intros E.
  bind_inv E. bind_inv E. bind_inv E. bind_inv E. bind_inv E.
  apply baseline_entries_facts in E0 as [Hcs Hin].
  assert (H0 : vacancy_ok flights (mk_vacancy r (va_slots v) (va_promotions v))).
  { split; cbn [va_entries va_slots]; [|rewrite Hcs; by apply NoDup_fmap_filter|done].
    unfold entries_of. eapply Forall_impl; [exact Hin|]. intros e He. rewrite Forall_forall in Hvalues. by apply Hvalues. }
  assert (H1 : vacancy_ok flights r1).
  { eapply (fold_outcome_inv _ (vacancy_ok flights)); [|exact H0|exact E2]. intros ???. apply consume_offer_ok. }
  assert (H2 : vacancy_ok flights r2) by (by eapply compactStableFlights_ok).
  apply (fold_outcome_inv_in _ (λ s, promotable flights (va_slots s.2))) in E; [done| |apply H2].
  intros s e s'' He Hs. apply fill_entry_ok; [apply H2|apply H2| |done].
  apply fillSTARSpacingGaps_filled in E4. rewrite Forall_forall in E4. by apply E4.
Qed.

Lemma prepared_known (flights : list Flight) policies (prepared : gmap string (list preparedFlight)) group values :
  prepareFlights flights policies = Ok prepared → prepared !! group = Some values →
  Forall (λ f : preparedFlight, known_in flights f) values.
Proof.
  intros E Hv. apply prepareFlights_ok in E as (seen & [H _ _ _]). specialize (H group). simpl in H. rewrite Hv in H. simpl in H.
  rewrite H. unfold group_flights. destruct (policies !! group) as [p|]; [|done].
  apply Forall_forall. intros f Hf. apply list_elem_of_fmap in Hf as (raw & -> & Hraw).
  apply list_elem_of_filter in Hraw as [_ Hraw]. by exists raw.
Qed.

(** *** The whole calculation *)

Lemma kept_id f g : kept f g →
  fl_Callsign g = fl_Callsign f ∧ fl_RunwayGroupID g = fl_RunwayGroupID f ∧ fl_State g = fl_State f ∧
  fl_FreezeReason g = fl_FreezeReason f ∧ fl_CapturedSlot g = fl_CapturedSlot f.
Proof.
  intros H. unfold kept in H.
  split_and!; [exact (f_equal fl_Callsign H)|exact (f_equal fl_RunwayGroupID H)|exact (f_equal fl_State H)
    |exact (f_equal fl_FreezeReason H)|exact (f_equal fl_CapturedSlot H)].
Qed.

Lemma known_in_kept l l' f : Forall2 kept l l' → known_in l' f → known_in l f.
Proof.
  intros Hk (g & Hg & Hc & Hz). apply list_elem_of_lookup in Hg as [i Hi].
  destruct (Forall2_lookup_r _ _ _ _ _ Hk Hi) as (h & Hh & Hhg). apply kept_id in Hhg as (H1 & _ & _ & H4 & _).
  exists h. split_and!; [by eapply list_elem_of_lookup_2|congruence|congruence].
Qed.

Definition promoted_from (input : Input) (r : Result) (slots : gmap string Slot) : Prop :=
  ∃ working r0, edited kept input working ∧ generate working slots = Ok r0 ∧ r = with_movements input r0 ∧
    HasConflicts r0 = false.

Lemma note_promoted_kept (slots : gmap string Slot) l :
  Forall2 kept l ((λ f, if not_nil (slots !! fl_Callsign f) then note_flight "vacancy_promotion" f else f) <$> l).
Proof. apply Forall2_fmap_kept. intros f. destruct (not_nil _); [apply note_flight_kept|done]. Qed.

Lemma promotion_stages input offers at_ r promotions :
  typed_input input → continuous input → GenerateWithVacancyPromotions input offers at_ = Ok (r, promotions) →
  (promotions = [] ∧ generate input ∅ = Ok r) ∨
  ∃ slots, promotable (in_Flights input) slots ∧ promoted_from input r slots.
Proof.
  intros Ht Hc. unfold GenerateWithVacancyPromotions. intros E. bind_inv E. bind_inv E. bind_inv E. destruct r2 as [policies flights].
  bind_inv E. rename r2 into baseline. destruct (HasConflicts baseline) eqn:Ec; [injection E as <- <-; by left|].
  set (working := vacancyBaselineInput input baseline) in *. cbv zeta in E. bind_inv E. rename r2 into prepared. bind_inv E.
  destruct r2 as [flights' v]. set (final := mk_input _ _ _ _) in E. bind_inv E. rename r2 into result.
  destruct (HasConflicts result) eqn:Er.
  { bind_inv E. injection E as <- <-. left. done. }
  bind_inv E. injection E as <- <-. right. exists (va_slots v).
  assert (Hbase : NoDup (ce_Callsign <$> re_Entries baseline) ∧ NoDup (fl_Callsign <$> in_Flights input)).
  { destruct (generate_generated _ _ _ E3) as (policies' & flights0 & runs & Hgen).
    pose proof (complete_callsigns input ∅ baseline policies' flights0 runs Ht Hc Hgen Ec) as Hperm.
    pose proof (io_nodup _ _ _ (calculation_input _ _ _ _ _ _ Ht Hgen)) as Hn.
    split; [|done]. rewrite Hperm. by apply NoDup_fmap_filter. }
  assert (Hfold : Forall2 kept (in_Flights working) flights' ∧ promotable (in_Flights input) (va_slots v)).
  { apply (fold_outcome_inv_in _ (λ s, Forall2 kept (in_Flights working) s.1 ∧ promotable (in_Flights input) (va_slots s.2))) in E5;
      [done| |by split; [|apply map_Forall_empty]].
    intros s [group values] s' Hin [Hk Hp] Hs. apply elem_of_sort_slice, elem_of_map_to_list in Hin. split.
    - etrans; [exact Hk|by eapply promote_group_kept].
    - eapply promote_group_ok; [apply Hbase|apply Hbase| |exact Hp|exact Hs].
      eapply Forall_impl; [by eapply prepared_known|]. intros f Hf. simpl in Hf.
      exact (known_in_kept _ _ _ (vacancyBaselineInput_kept input baseline) Hf). }
  destruct Hfold as [Hk Hp]. split; [done|]. exists final, result. split_and!; [|done|done|done].
  split; [|done..]. etrans; [apply (vacancyBaselineInput_kept input baseline)|]. etrans; [exact Hk|apply note_promoted_kept].
Qed.

Lemma kept_active_callsigns l l' :
  Forall2 kept l l' →
  fl_Callsign <$> filter (λ f, inactive (fl_State f) = false) l' = fl_Callsign <$> filter (λ f, inactive (fl_State f) = false) l.
Proof.
  induction 1 as [|f g l l' Hk _ IH]; [done|]. apply kept_id in Hk as (H1 & _ & H3 & _). rewrite !filter_cons, H3.
  destruct (decide _); [by rewrite !fmap_cons, IH, H1|done].
Qed.

(** Either way the result is the calculation of an input that only differs in
    committed slots and recorded operations. *)
Lemma promotion_calculation input offers at_ r promotions :
  typed_input input → continuous input → GenerateWithVacancyPromotions input offers at_ = Ok (r, promotions) →
  ∃ working slots r0, edited kept input working ∧ promotable (in_Flights input) slots ∧
    generate working slots = Ok r0 ∧ re_Entries r = re_Entries r0 ∧ HasConflicts r = HasConflicts r0.
Proof.
  intros Ht Hc [(_ & E)|(slots & Hp & working & r0 & Hed & E & -> & _)]%promotion_stages; [| |done..].
  - exists input, ∅, r. split_and!; [apply edited_preorder, _|apply map_Forall_empty|done..].
  - by exists working, slots, r0.
Qed.

(** Promotion into vacancies never breaks the sequence: a conflict-free
    result holds exactly the active flights of the input, and any two
    consecutive arrivals of a group keep rate and wake separation. *)
Theorem vacancy_safe input offers at_ r promotions :
  typed_input input → continuous input → GenerateWithVacancyPromotions input offers at_ = Ok (r, promotions) →
  HasConflicts r = false →
  ce_Callsign <$> re_Entries r ≡ₚ fl_Callsign <$> filter (λ f, inactive (fl_State f) = false) (in_Flights input) ∧
  ∃ working policies flights, edited kept input working ∧ prepareInput working = Ok (policies, flights) ∧
    ∀ a b, a ∈ re_Entries r → b ∈ re_Entries r → ce_RunwayGroupID a = ce_RunwayGroupID b →
      ce_Sequence b = ce_Sequence a + 1 →
      ∃ p, policies !! ce_RunwayGroupID a = Some p ∧ separated_candidates p a b.
Proof.
  intros Ht Hc E Hn. destruct (promotion_calculation _ _ _ _ _ Ht Hc E) as (working & slots & r0 & Hed & _ & Hg & He & Hh).
  rewrite Hh in Hn. rewrite He. pose proof (edited_typed _ _ _ Hed Ht) as Ht'. pose proof (edited_continuous _ _ _ Hed Hc) as Hc'.
  destruct (generate_generated _ _ _ Hg) as (policies & flights & runs & Hgen). split.
  - rewrite (complete_callsigns _ _ _ _ _ _ Ht' Hc' Hgen Hn). by rewrite (kept_active_callsigns _ _ (ed_flights _ _ _ Hed)).
  - exists working, policies, flights. split_and!; [done|apply Hgen|]. intros a b.
    by apply (consecutive_separated _ _ _ _ _ _ Ht' Hc' Hgen).
Qed.

(** Promotion never moves a flight frozen by the terminal area or by a
    controller: in a conflict-free result it sits on its captured slot. *)
Theorem vacancy_keeps_freezes input offers at_ r promotions f :
  typed_input input → continuous input → GenerateWithVacancyPromotions input offers at_ = Ok (r, promotions) →
  HasConflicts r = false → f ∈ in_Flights input → inactive (fl_State f) = false → freely_frozen f = false →
  ∃ e slot, e ∈ re_Entries r ∧ ce_Callsign e = fl_Callsign f ∧ ce_RunwayGroupID e = fl_RunwayGroupID f ∧
    fl_CapturedSlot f = Some slot ∧ ce_Time e = sl_Time slot.
Proof.
  intros Ht Hc E Hn Hf Hact Hfree.
  destruct (promotion_calculation _ _ _ _ _ Ht Hc E) as (working & slots & r0 & Hed & Hp & Hg & He & Hh).
  rewrite Hh in Hn. rewrite He. pose proof (edited_typed _ _ _ Hed Ht) as Ht'. pose proof (edited_continuous _ _ _ Hed Hc) as Hc'.
  apply list_elem_of_lookup in Hf as [i Hi]. destruct (edited_lookup _ _ _ _ _ Hed Hi) as (g & Hgi & Hk).
  apply kept_id in Hk as (H1 & H2 & H3 & H4 & H5). pose proof (list_elem_of_lookup_2 _ _ _ Hi) as Hf.
  destruct (generate_generated _ _ _ Hg) as (policies & flights & runs & Hgen).
  assert (Hnone : slots !! fl_Callsign f = None).
  { destruct (slots !! fl_Callsign f) as [to|] eqn:Es; [|done]. destruct (Hp _ _ Es) as (h & Hh' & Hhc & Hhf).
    assert (Hnd : NoDup (fl_Callsign <$> in_Flights input)).
    { replace (fl_Callsign <$> in_Flights input) with (fl_Callsign <$> in_Flights working).
      - apply (io_nodup _ _ _ (calculation_input _ _ _ _ _ _ Ht' Hgen)).
      - pose proof (ed_flights _ _ _ Hed) as Hall. clear -Hall. induction Hall as [|x y l l' Hk _ IH]; [done|].
        rewrite !fmap_cons, IH. by apply kept_id in Hk as (-> & _). }
    rewrite (same_flight _ h f Hnd Hh' Hf Hhc) in Hhf. congruence. }
  rewrite <-H1 in Hnone. rewrite <-H3 in Hact.
  destruct (frozen_entry _ _ _ _ _ _ Ht' Hc' Hgen g Hn (list_elem_of_lookup_2 _ _ _ Hgi) Hact) as (e & slot & ? & ? & ? & ? & ? & _); [|done|].
  - rewrite H4. unfold freely_frozen, freeze_is in Hfree. apply orb_false_iff in Hfree as [Hz _].
    apply bool_decide_eq_false in Hz. by apply frozen_true.
  - exists e, slot. split_and!; [done|congruence..].
Qed.

(** ** Facts: compaction *)

Lemma raise_bound_ge lower b : ns lower ≤ ns (raise_bound lower b) ∧ ns b ≤ ns (raise_bound lower b).
Proof. unfold raise_bound. time_lia. Qed.

Lemma compaction_lower_ge p entries target at_ :
  ns (promotionLowerBound p (qe_flight target) at_) ≤ ns (compaction_lower p entries target at_).
Proof.
  unfold compaction_lower. generalize (promotionLowerBound p (qe_flight target) at_). induction entries as [|e l IH]; intros t; simpl; [lia|].
  etrans; [|apply IH]. destruct (_ || _); [done|]. destruct (_ || _); [apply raise_bound_ge|done].
Qed.

Record compaction_slot (p : preparedPolicy) (entries : list queueEntry) (remaining : list allocatedEntry)
    (target : queueEntry) (lower c : Time) : Prop := {
  cs_lower : ns lower ≤ ns c;
  cs_earlier : ns c < ns (sl_Time (qe_slot target));
  cs_started : started p c;
  cs_unblocked : ¬ blocked p c;
  cs_fits : fits p remaining (qe_flight target) c;
  cs_protected : crossesProtectedTime entries c (sl_Time (qe_slot target)) = false;
  cs_stable : crossesStableOrder entries (qe_flight target) c = false
}.

Section compaction.
Context (p : preparedPolicy) (at_ : Time).
Hypothesis Hwf : grid_wf p.
Hypothesis Hcont : po_ContinuousSpacing p = true.

Lemma compaction_next entries remaining target c c' :
  started p c → compaction_step p entries remaining target c = Ok (inl c') →
  ns c < ns (sl_Time (qe_slot target)) ∧ ns c < ns c' ∧ started p c' ∧ ¬ blocked p c'.
Proof using Hwf Hcont.
  intros Hst. unfold compaction_step. cbv zeta. destruct (before c _) eqn:Eb; [|done]. cbn [negb].
  set (allowed := negb _ && negb _). set (r := placement _ _ _ _). destruct (allowed && pl_valid r); [done|].
  intros E. bind_inv E. destruct r0 as [c''|]; [|done]. injection E as <-.
  apply next_grid_continuous in E0 as (Hle & Hs & Hb); [|done..]. split_and!; [time_lia| |done|done].
  destruct (allowed && after (pl_later r) c) eqn:Ea.
  - apply andb_true_iff in Ea as [_ Ea]. unfold after in Ea. apply Z.ltb_lt in Ea. lia.
  - rewrite Hcont in Hle. unfold started in Hst. simpl in Hle. lia.
Qed.

Lemma compaction_search_facts entries remaining target lower c :
  compaction_search p entries remaining target lower = Ok (Some c) → compaction_slot p entries remaining target lower c.
Proof using Hwf Hcont.
  unfold compaction_search. intros E. bind_inv E. destruct r as [first|]; [|done].
  apply next_grid_continuous in E0 as (Hle & Hst & Hb); [|done..].
  refine (iterate_inv _ (λ t, ns lower ≤ ns t ∧ started p t ∧ ¬ blocked p t)
            (λ o, ∀ c, o = Some c → compaction_slot p entries remaining target lower c) _ _ _ _ _ _ E c eq_refl); [| |done].
  - intros t t' (? & ? & ?) Hs. apply compaction_next in Hs as (? & ? & ? & ?); [|done]. split_and!; [lia|done..].
  - intros t o (H1 & H2 & H3) Hs c' ->. unfold compaction_step in Hs. cbv zeta in Hs.
    destruct (before t _) eqn:Eb; [|done]. cbn [negb] in Hs.
    destruct (crossesProtectedTime _ _ _) eqn:Ep; cbn [negb andb] in Hs; [bind_inv Hs; by destruct r|].
    destruct (crossesStableOrder _ _ _) eqn:Es; cbn [negb andb] in Hs; [bind_inv Hs; by destruct r|].
    destruct (pl_valid _) eqn:Ev; [|bind_inv Hs; by destruct r]. injection Hs as <-.
    split; try done; [time_lia|by eapply placement_fits].
Qed.

Lemma compaction_search_returns entries remaining target lower :
  grid_horizon p → returns (compaction_search p entries remaining target lower).
Proof using Hwf Hcont.
  intros Hh. unfold compaction_search. apply returns_bind; [by apply next_grid_returns|]. intros [first|] E; [|done].
  apply next_grid_continuous in E as (_ & Hst & _); [|done..].
  apply (iterate_returns _ (started p) (λ t, Z.max 0 (ns (sl_Time (qe_slot target)) - ns t))); [| |done|lia].
  - intros t _. unfold compaction_step. cbv zeta. destruct (negb (before _ _)); [done|]. destruct (_ && pl_valid _); [done|].
    apply returns_bind; [by apply next_grid_returns|]. by intros [?|] _.
  - intros t t' Ht Hs. apply compaction_next in Hs as (? & ? & ? & _); [|done]. split; [done|]. lia.
Qed.

(** What compaction does to an entry. *)
Definition compacted (e e' : queueEntry) : Prop :=
  qe_flight e' = qe_flight e ∧
  (qe_slot e' = qe_slot e ∨
   (stablePromotionEligible (qe_flight e) = true ∧ ns (sl_Time (qe_slot e')) < ns (sl_Time (qe_slot e)) ∧
    ns (promotionLowerBound p (qe_flight e) at_) ≤ ns (sl_Time (qe_slot e')) ∧ ¬ blocked p (sl_Time (qe_slot e')))).

#[local] Instance compacted_preorder : PreOrder compacted.
Proof using Type.
  split; [intros e; split; [done|by left]|].
  intros e e' e'' [Hf H] [Hf' H']. split; [congruence|]. destruct H' as [Hs|(H1 & H2 & H3 & H4)].
  - rewrite Hs. done.
  - rewrite Hf in *. destruct H as [Hs|(_ & H5 & _)]; [rewrite Hs in *; by right|]. right. split_and!; [done|lia|done|done].
Qed.

Definition compacted_list (l l' : list queueEntry) : Prop := ∃ m, Forall2 compacted l m ∧ l' ≡ₚ m.

Lemma compacted_list_trans l l' l'' : compacted_list l l' → compacted_list l' l'' → compacted_list l l''.
Proof using Type.
  intros (m & Hm & Hp) (m' & Hm' & Hp'). destruct (Permutation_Forall2 Hp Hm') as (n & Hn & Hpn).
  exists n. split; [by etrans|by rewrite Hp'].
Qed.

Lemma compacted_list_flights l l' : compacted_list l l' → qe_flight <$> l' ≡ₚ qe_flight <$> l.
Proof using Type.
  intros (m & Hm & ->). induction Hm as [|x y l m [Hf _] _ IH]; [done|]. by rewrite !fmap_cons, IH, Hf.
Qed.

Lemma promote_compacted index target candidate v indexes s' :
  va_entries v !! index = Some target → compacted target (set_slot (promoted_slot target candidate) target) →
  promote index target (promoted_slot target candidate) (v, indexes) = Ok s' → compacted_list (va_entries v) (va_entries s'.1).
Proof using Type.
  intros Hi Hc E. unfold promote in E. bind_inv E.
  assert (Hl : compacted_list (va_entries v) (sort_slice slot_order (alter (set_slot (promoted_slot target candidate)) index (va_entries v)))).
  { exists (alter (set_slot (promoted_slot target candidate)) index (va_entries v)). split; [|apply sort_slice_perm].
    apply Forall2_same_length_lookup_2; [by rewrite length_alter|]. intros j x y Hx Hy.
    destruct (decide (j = index)) as [->|Hne].
    - rewrite list_lookup_alter_eq, Hx in Hy. injection Hy as <-. rewrite Hi in Hx. by injection Hx as <-.
    - rewrite list_lookup_alter_ne, Hx in Hy by done. injection Hy as <-. done. }
  destruct (indexes !! _); injection E as <-; exact Hl.
Qed.

(** A callsign of the compaction's work list belongs to an eligible entry. *)
Definition eligible_callsign (entries : list queueEntry) (callsign : string) : Prop :=
  ∃ e, e ∈ entries ∧ entry_callsign e = callsign ∧ stablePromotionEligible (qe_flight e) = true.

Lemma eligible_target entries0 entries callsign index target :
  NoDup (entry_callsign <$> entries0) → qe_flight <$> entries ≡ₚ qe_flight <$> entries0 →
  eligible_callsign entries0 callsign → entries !! index = Some target → entry_callsign target = callsign →
  stablePromotionEligible (qe_flight target) = true.
Proof using Type.
  intros Hn Hp (e & He & Hc & Hel) Ht Htc.
  assert (Hin : qe_flight target ∈ qe_flight <$> entries0).
  { rewrite <-Hp. apply list_elem_of_fmap_2. by eapply list_elem_of_lookup_2. }
  apply list_elem_of_fmap in Hin as (e' & Hee & He'). apply list_elem_of_lookup in He as [i Hi], He' as [j Hj].
  assert (i = j) as ->.
  { eapply (NoDup_lookup _ _ _ callsign Hn); rewrite list_lookup_fmap; [by rewrite Hi; simpl; f_equal|].
    rewrite Hj. simpl. f_equal. rewrite <-Htc. unfold entry_callsign. by rewrite Hee. }
  rewrite Hi in Hj. injection Hj as ->. by rewrite Hee.
Qed.

Lemma compact_one_compacted entries0 s callsign s' :
  NoDup (entry_callsign <$> entries0) → eligible_callsign entries0 callsign →
  compacted_list entries0 (va_entries s.1) → compact_one p at_ s callsign = Ok s' →
  compacted_list entries0 (va_entries s'.1).
Proof using Hwf Hcont.
  intros Hn Hel Hl. unfold compact_one. cbv zeta. destruct (queueEntryIndex _ _) as [index|] eqn:Ei; [|by intros [= <-]].
  intros E. bind_inv E. apply deref_ok in E0. apply queueEntryIndex_Some in Ei as (e & He & Hec).
  rewrite E0 in He. injection He as <-. bind_inv E. destruct r0 as [c|]; [|by injection E as <-]. destruct s as [v indexes].
  eapply compacted_list_trans; [exact Hl|]. eapply promote_compacted; [exact E0| |exact E].
  apply compaction_search_facts in E1. split; [done|right]. cbn [qe_slot set_slot promoted_slot sl_Time].
  pose proof (compaction_lower_ge p (va_entries v) r at_). split_and!; [|apply E1| |apply E1].
  - by eapply (eligible_target entries0); [|by apply compacted_list_flights| |exact E0|].
  - pose proof (cs_lower _ _ _ _ _ _ E1). cbn [fst] in *. lia.
Qed.

Lemma work_list_eligible entries callsign :
  callsign ∈ entry_callsign <$> filter (λ e, stablePromotionEligible (qe_flight e) = true) entries →
  eligible_callsign entries callsign.
Proof using Type.
  intros Hin. apply list_elem_of_fmap in Hin as (e & -> & He). apply list_elem_of_filter in He as [He Hin]. by exists e.
Qed.

Lemma compactStableFlights_facts v v' :
  NoDup (entry_callsign <$> va_entries v) → compactStableFlights p v at_ = Ok v' →
  compacted_list (va_entries v) (va_entries v').
Proof using Hwf Hcont.
  intros Hn. unfold compactStableFlights. cbv zeta. intros E. bind_inv E. injection E as <-.
  apply (fold_outcome_inv_in _ (λ s, compacted_list (va_entries v) (va_entries s.1))) in E0; [done| |].
  - intros s callsign s' Hin Hs. apply compact_one_compacted; [done|by apply work_list_eligible|done].
  - exists (va_entries v). split; [|done]. cbn [fst]. clear -at_. induction (va_entries v); by constructor.
Qed.

Lemma compact_one_returns entries0 s callsign :
  grid_horizon p → NoDup (entry_callsign <$> entries0) → eligible_callsign entries0 callsign →
  compacted_list entries0 (va_entries s.1) → returns (compact_one p at_ s callsign).
Proof using Hwf Hcont.
  intros Hh Hn Hel Hl. unfold compact_one. cbv zeta. destruct (queueEntryIndex _ _) as [index|] eqn:Ei; [|done].
  apply queueEntryIndex_Some in Ei as (e & He & Hec). rewrite He. apply returns_bind; [done|]. intros ? [= <-].
  apply returns_bind; [by apply compaction_search_returns|]. intros [c|] _; [|done]. destruct s as [v indexes].
  assert (Helig : stablePromotionEligible (qe_flight e) = true)
    by (by eapply (eligible_target entries0); [|by apply compacted_list_flights| |exact He|]).
  unfold promote. assert (Hslot : is_Some (fl_CurrentSlot (qe_flight e))).
  { unfold stablePromotionEligible in Helig. destruct (fl_CurrentSlot (qe_flight e)); [by eexists|].
    cbn [is_nil] in Helig. by rewrite !orb_true_r in Helig. }
  destruct Hslot as [slot ->]. simpl. by destruct (indexes !! _).
Qed.
End compaction.

(** Under continuous spacing compaction always comes to an end, and moves
    flights forward only: each entry keeps its flight, and either its slot or an
    unblocked earlier one, not before the flight's promotion bound, and then the
    flight was eligible (stable or holding, without manual order, release rank
    or freeze other than the superstable one). *)
Theorem compactStableFlights_correct p v at_ :
  grid_wf p → grid_horizon p → po_ContinuousSpacing p = true → NoDup (entry_callsign <$> va_entries v) →
  returns (compactStableFlights p v at_) ∧
  ∀ v', compactStableFlights p v at_ = Ok v' → compacted_list p at_ (va_entries v) (va_entries v').
Proof.
  intros Hwf Hh Hc Hn. split; [|by intros; apply compactStableFlights_facts].
  unfold compactStableFlights. cbv zeta. apply returns_bind; [|done].
  apply (fold_outcome_returns_inv _ (λ s, compacted_list p at_ (va_entries v) (va_entries s.1))).
  - intros s callsign Hin Hs. apply (compact_one_returns p at_ Hwf Hc (va_entries v)); [done|done|by apply work_list_eligible|done].
  - intros s callsign s' Hin Hs. apply compact_one_compacted; [done|done|done|by apply work_list_eligible|done].
  - exists (va_entries v). split; [|done]. apply Forall_Forall2_diag, Forall_forall. intros e _. split; [done|by left].
Qed.

(** ** Facts: queue offers *)

Lemma unordered_slots_chain entries :
  unordered_slots entries = None → chain (λ a b, ns (sl_Time (qe_slot a)) < ns (sl_Time (qe_slot b))) entries.
Proof.
  induction entries as [|a [|b l] IH]; [done..|]. cbn [unordered_slots]. destruct (_ || _) eqn:E; [done|]. intros H.
  split; [|by apply IH]. apply orb_false_iff in E as [_ E]. apply negb_false_iff in E. time_lia.
Qed.

(** What an offer of [candidate]'s slot to [target] tells. *)
Record offer_ok (p : preparedPolicy) (validity : Duration) (at_ : Time) (target candidate : queueEntry) (o : QueueOffer) : Prop := {
  oo_callsign : qo_Callsign o = fl_Callsign (qe_flight target);
  oo_slot : qo_CandidateSlot o = qe_slot candidate;
  oo_eligible : queueEligible (qe_flight target) = true;
  oo_open : boundary (qe_flight candidate) = false;
  oo_earlier : ns (sl_Time (qe_slot candidate)) < ns (sl_Time (qe_slot target));
  oo_reachable : ns (fl_OperationalTETA (qe_flight target)) + dur_neg (po_EarlyTolerance p) ≤ ns (sl_Time (qe_slot candidate));
  oo_alive : ns at_ < ns (qo_ExpiresAt o);
  oo_expires : ns (qo_ExpiresAt o) ≤ ns at_ + validity ∧ ns (qo_ExpiresAt o) ≤ ns (sl_Time (qe_slot candidate))
}.

Lemma offer_for_ok revision p group validity at_ entries j i target candidate o :
  queueEligible (qe_flight target) = true → ns (sl_Time (qe_slot candidate)) < ns (sl_Time (qe_slot target)) →
  offer_for revision p group validity at_ entries j i target candidate = Some o →
  offer_ok p validity at_ target candidate (pe_offer o) ∧ qo_RunwayGroupID (pe_offer o) = group ∧
  qo_AirportRevision (pe_offer o) = revision ∧ crossesProtectedOrder entries i j = false.
Proof.
  intros Hel Hlt. unfold offer_for. cbv zeta. destruct (boundary _) eqn:Eb; [done|]. destruct (before _ _) eqn:Et; [done|].
  destruct (crossesProtectedOrder _ _ _) eqn:Ec; [done|]. destruct (after _ at_) eqn:Ea; [|done]. cbn [negb].
  destruct (pl_valid _); [|done]. intros [= <-]. cbn [pe_offer qo_RunwayGroupID qo_AirportRevision]. split_and!; [|done..].
  split; cbn; try done.
  - unfold before, time_add in Et. simpl in Et. apply Z.ltb_ge in Et. lia.
  - unfold after in Ea. by apply Z.ltb_lt in Ea.
  - pose proof (earlier_of_le (time_add at_ validity) (sl_Time (qe_slot candidate))) as [H1 H2]. simpl in H1. done.
Qed.

Definition offer_of_input (input : Input) (validity : Duration) (at_ : Time) (o : QueueOffer) : Prop :=
  ∃ policies prepared (p : preparedPolicy) flights entries i j target candidate,
    prepareInput input = Ok (policies, prepared) ∧ policies !! qo_RunwayGroupID o = Some p ∧
    prepared !! qo_RunwayGroupID o = Some flights ∧ queueEntries (in_Revision input) flights = Ok entries ∧
    (i < j)%nat ∧ entries !! i = Some candidate ∧ entries !! j = Some target ∧
    crossesProtectedOrder entries i j = false ∧ offer_ok p validity at_ target candidate o.

Lemma queueEntries_ordered revision flights entries :
  queueEntries revision flights = Ok entries → chain (λ a b, ns (sl_Time (qe_slot a)) < ns (sl_Time (qe_slot b))) entries.
Proof.
  unfold queueEntries. intros E. bind_inv E. destruct (unordered_slots _) eqn:Eu; [done|]. injection E as <-.
  by apply unordered_slots_chain.
Qed.

Lemma group_offers_ok input policies prepared validity at_ group flights pending pending' :
  prepareInput input = Ok (policies, prepared) → prepared !! group = Some flights →
  Forall (λ o, offer_of_input input validity at_ (pe_offer o) ∧ qo_AirportRevision (pe_offer o) = in_Revision input) pending →
  group_offers (in_Revision input) policies validity at_ pending (group, flights) = Ok pending' →
  Forall (λ o, offer_of_input input validity at_ (pe_offer o) ∧ qo_AirportRevision (pe_offer o) = in_Revision input) pending'.
Proof.
  intros Hprep Hfl Hp. unfold group_offers. cbn [fst snd]. intros E. bind_inv E. bind_inv E. injection E as <-.
  apply deref_ok in E1. apply Forall_app. split; [done|]. apply Forall_forall. intros o Ho.
  apply list_elem_of_bind in Ho as (l & Ho & Hl). apply list_elem_of_lookup in Hl as [j Hj].
  rewrite list_lookup_imap in Hj. destruct (r !! j) as [target|] eqn:Et; [|done]. injection Hj as <-. simpl in Ho.
  unfold target_offers in Ho. destruct (queueEligible _) eqn:Eq; [|by apply elem_of_nil in Ho]. cbn [negb] in Ho.
  apply list_elem_of_omap in Ho as ([i candidate] & Hi & Ho). apply list_elem_of_lookup in Hi as [k Hk].
  rewrite list_lookup_imap in Hk. destruct (take j r !! k) as [c|] eqn:Ek; [|done]. injection Hk as <- <-.
  apply lookup_take_Some in Ek as [Ek Hlt]. simpl in Ho.
  assert (Htime : ns (sl_Time (qe_slot c)) < ns (sl_Time (qe_slot target))).
  { eapply (chain_trans_lookup (λ a b, ns (sl_Time (qe_slot a)) < ns (sl_Time (qe_slot b))) r k j);
      [intros; lia|by eapply queueEntries_ordered|done..]. }
  apply offer_for_ok in Ho as (Hok & Hg & Hr & Hc); [|done|done]. split; [|done].
  exists policies, prepared, r0, flights, r, k, j, target, c. rewrite Hg. by split_and!.
Qed.

Definition offer_slot (o : QueueOffer) : offerKey :=
  (qo_RunwayGroupID o, sl_Sequence (qo_CandidateSlot o), sl_Time (qo_CandidateSlot o)).

Lemma slot_queue_positions l : qo_QueuePosition <$> slot_queue l = seqZ 1 (Z.of_nat (length l)).
Proof.
  unfold slot_queue. rewrite <-(Permutation_length (sort_slice_perm pending_less l)).
  generalize (sort_slice pending_less l). intros l'. apply list_eq. intros i.
  rewrite list_lookup_fmap, list_lookup_imap. destruct (l' !! i) as [o|] eqn:E; simpl.
  - apply lookup_lt_Some in E. symmetry. apply lookup_seqZ. lia.
  - apply lookup_ge_None in E. symmetry. apply lookup_seqZ_ge. lia.
Qed.

Lemma slot_queue_elem o l : o ∈ slot_queue l → ∃ q n, q ∈ l ∧ o = set_QueuePosition n (pe_offer q).
Proof.
  unfold slot_queue. rewrite list_elem_of_lookup. intros [i Hi]. rewrite list_lookup_imap in Hi.
  destruct (_ !! i) as [q|] eqn:E; [|done]. injection Hi as <-. exists q, (Z.of_nat i + 1). split; [|done].
  apply list_elem_of_lookup_2 in E. by apply elem_of_sort_slice in E.
Qed.

Lemma offer_of_input_position input validity at_ o n :
  offer_of_input input validity at_ o → offer_of_input input validity at_ (set_QueuePosition n o).
Proof.
  intros (policies & prepared & p & flights & entries & i & j & target & candidate & H1 & H2 & H3 & H4 & H5 & H6 & H7 & H8 & [? ? ? ? ? ? ? ?]).
  exists policies, prepared, p, flights, entries, i, j, target, candidate. split_and!; done.
Qed.

(** The queues of distinct keys do not mix. *)
Lemma queues_of_key (keys : list offerKey) (pending : list pendingOffer) key :
  NoDup keys → ∃ n, qo_QueuePosition
    <$> filter (λ o, offer_slot o = key) (keys ≫= λ k, slot_queue (filter (λ o, offer_key o = k) pending)) = seqZ 1 (Z.of_nat n).
Proof.
  assert (Hkey : ∀ k o, o ∈ slot_queue (filter (λ o, offer_key o = k) pending) → offer_slot o = k).
  { intros k o (q & n & Hq & ->)%slot_queue_elem. apply list_elem_of_filter in Hq as [<- _]. done. }
  induction keys as [|k keys IH]; intros Hn; [by exists 0%nat|]. apply NoDup_cons in Hn as [Hk Hn].
  rewrite bind_cons, filter_app, fmap_app. destruct (decide (k = key)) as [->|Hne].
  - exists (length (filter (λ o, offer_key o = key) pending)). rewrite (filter_all _ (slot_queue _)), (filter_none _ (mbind _ _)).
    + by rewrite app_nil_r, slot_queue_positions.
    + apply Forall_forall. intros o (k & Ho & Hin)%list_elem_of_bind Heq. apply Hkey in Ho. by subst.
    + apply Forall_forall. apply Hkey.
  - destruct (IH Hn) as [n Hn']. exists n. rewrite (filter_none _ (slot_queue _)); [done|].
    apply Forall_forall. intros o Ho Heq. apply Hkey in Ho. congruence.
Qed.

(** Every queue offer is a real opportunity: its slot is the committed slot
    of an earlier flight of the same runway group without freeze or manual
    order, no protected flight lies between, the flight offered is movable and
    can reach the slot within its early tolerance, and the offer is alive and
    expires within its validity and before the slot. The offers of one slot are
    numbered 1, 2, ... without gaps. *)
Theorem CalculateQueueOffers_correct input validity at_ offers :
  CalculateQueueOffers input validity at_ = Ok offers →
  Forall (λ o, offer_of_input input validity at_ o ∧ qo_AirportRevision o = in_Revision input) offers ∧
  ∀ key, ∃ n, qo_QueuePosition <$> filter (λ o, offer_slot o = key) offers ≡ₚ seqZ 1 (Z.of_nat n).
Proof.
  unfold CalculateQueueOffers. intros E. do 4 bind_inv E. destruct r2 as [policies prepared]. bind_inv E. rename r2 into pending.
  cbv zeta in E. injection E as <-.
  assert (Hp : Forall (λ o, offer_of_input input validity at_ (pe_offer o) ∧ qo_AirportRevision (pe_offer o) = in_Revision input) pending).
  { eapply (fold_outcome_inv_in _ (λ pending, Forall (λ o, offer_of_input input validity at_ (pe_offer o) ∧
        qo_AirportRevision (pe_offer o) = in_Revision input) pending)); [| |exact E4]; [|done].
    intros s [group flights] s' Hin Hs. apply elem_of_sort_slice, elem_of_map_to_list in Hin.
    by apply (group_offers_ok input policies prepared). }
  split.
  - apply (Forall_perm _ _ _ (sort_slice_perm _ _)), Forall_forall. intros o (l & Ho & Hl)%list_elem_of_bind.
    apply list_elem_of_fmap in Hl as (key & -> & _). apply slot_queue_elem in Ho as (q & n & Hq & ->).
    apply list_elem_of_filter in Hq as [_ Hq]. rewrite Forall_forall in Hp. destruct (Hp q Hq) as [? ?].
    split; [by apply offer_of_input_position|done].
  - intros key. destruct (queues_of_key (remove_dups (offer_key <$> pending)) pending key) as [n Hn]; [apply NoDup_remove_dups|].
    exists n. rewrite <-Hn. apply fmap_Permutation.
    match goal with |- ?a ≡ₚ _ => transitivity a; [done|] end.
    assert (Hflat : ∀ (ks : list offerKey), ((λ key, slot_queue (filter (λ o, offer_key o = key) pending)) <$> ks) ≫= id =
              (ks ≫= λ k, slot_queue (filter (λ o, offer_key o = k) pending))).
    { induction ks as [|k ks IH]; [done|]. by rewrite fmap_cons, !bind_cons, IH. }
    rewrite <-Hflat. apply filter_Permutation, sort_slice_perm.
Qed.

(** ** Instances *)

(** A frozen arrival, a stable one with a vacancy in front and an unstable one. *)
Definition ex_vacancy : Input :=
  mk_input 1 [ex_policy 30 [] []] []
    [set_CurrentSlot (Some (ex_slot (clock 20 0) 1)) ex_frozen;
     ex_committed "SAS2" "ERNOV" (clock 22 0) (clock 28 0) 2;
     set_CurrentSlot (Some (ex_slot (clock 30 0) 3)) (ex_flight "SAS3" "M" StateUnstable (clock 27 0))].

Lemma ex_vacancy_typed : typed_input ex_vacancy.
Proof. apply Forall_singleton, ex_policy_typed. split; vm_compute; [discriminate|reflexivity]. Qed.

Lemma ex_vacancy_continuous : continuous ex_vacancy.
Proof. by repeat constructor. Qed.

Definition ex_promoted : Result * list VacancyPromotion :=
  match GenerateWithVacancyPromotions ex_vacancy [] (clock 10 0) with Ok r => r | _ => (mk_result [] [] [] [], []) end.

Lemma ex_promoted_ok : GenerateWithVacancyPromotions ex_vacancy [] (clock 10 0) = Ok (fst ex_promoted, snd ex_promoted).
Proof. vm_compute. reflexivity. Qed.

Lemma vacancy_safe_witness :
  (λ e, (ce_Callsign e, ce_Time e)) <$> re_Entries (fst ex_promoted) =
    [("SAS1"%string, clock 20 0); ("SAS2"%string, clock 22 0); ("SAS3"%string, clock 27 0)] ∧
  ce_Callsign <$> re_Entries (fst ex_promoted) ≡ₚ
    fl_Callsign <$> filter (λ f, inactive (fl_State f) = false) (in_Flights ex_vacancy) ∧
  ∃ working policies flights, edited kept ex_vacancy working ∧ prepareInput working = Ok (policies, flights) ∧
    ∀ a b, a ∈ re_Entries (fst ex_promoted) → b ∈ re_Entries (fst ex_promoted) →
      ce_RunwayGroupID a = ce_RunwayGroupID b → ce_Sequence b = ce_Sequence a + 1 →
      ∃ p, policies !! ce_RunwayGroupID a = Some p ∧ separated_candidates p a b.
Proof.
  split; [vm_compute; reflexivity|].
  apply (vacancy_safe ex_vacancy [] (clock 10 0) (fst ex_promoted) (snd ex_promoted));
    [exact ex_vacancy_typed|exact ex_vacancy_continuous|exact ex_promoted_ok|vm_compute; reflexivity].
Defined.

Lemma vacancy_keeps_freezes_witness :
  ∃ e slot, e ∈ re_Entries (fst ex_promoted) ∧ ce_Callsign e = "SAS1"%string ∧ ce_RunwayGroupID e = ex_group ∧
    fl_CapturedSlot (set_CurrentSlot (Some (ex_slot (clock 20 0) 1)) ex_frozen) = Some slot ∧ ce_Time e = sl_Time slot.
Proof.
  apply (vacancy_keeps_freezes ex_vacancy [] (clock 10 0) (fst ex_promoted) (snd ex_promoted)
           (set_CurrentSlot (Some (ex_slot (clock 20 0) 1)) ex_frozen));
    [exact ex_vacancy_typed|exact ex_vacancy_continuous|exact ex_promoted_ok|vm_compute; reflexivity
    |left|vm_compute; reflexivity..].
Defined.

Definition ex_vacancy_prepared : preparedPolicy * list preparedFlight :=
  match prepareInput ex_vacancy with
  | Ok (policies, prepared) => (default ex_prepared (policies !! ex_group), default [] (prepared !! ex_group))
  | _ => (ex_prepared, [])
  end.

Lemma ex_vacancy_wf :
  policy_wf ex_group (fst ex_vacancy_prepared) ∧ po_ContinuousSpacing (fst ex_vacancy_prepared) = true.
Proof.
  destruct (prepareInput ex_vacancy) as [[policies prepared]| | |] eqn:E; [|vm_compute in E; discriminate..].
  destruct (policies !! ex_group) as [p|] eqn:Ep.
  - unfold ex_vacancy_prepared. rewrite E, Ep. simpl.
    eapply prepared_continuous; [exact ex_vacancy_typed|exact ex_vacancy_continuous|exact E|exact Ep].
  - exfalso. assert (Hk : match prepareInput ex_vacancy with Ok (m, _) => is_nil (m !! ex_group) | _ => true end = false)
      by (vm_compute; reflexivity). rewrite E, Ep in Hk. discriminate.
Qed.

Definition ex_queue : vacancy :=
  mk_vacancy (match queueEntries 1 (snd ex_vacancy_prepared) with Ok l => l | _ => [] end) ∅ [].

Lemma compactStableFlights_correct_witness :
  (match compactStableFlights (fst ex_vacancy_prepared) ex_queue (clock 10 0) with
   | Ok v => (λ e, (entry_callsign e, sl_Time (qe_slot e))) <$> va_entries v | _ => [] end) =
    [("SAS1"%string, clock 20 0); ("SAS2"%string, clock 22 0); ("SAS3"%string, clock 30 0)] ∧
  returns (compactStableFlights (fst ex_vacancy_prepared) ex_queue (clock 10 0)) ∧
  ∀ v', compactStableFlights (fst ex_vacancy_prepared) ex_queue (clock 10 0) = Ok v' →
    compacted_list (fst ex_vacancy_prepared) (clock 10 0) (va_entries ex_queue) (va_entries v').
Proof.
  split; [vm_compute; reflexivity|]. destruct ex_vacancy_wf as [Hwf Hc].
  apply compactStableFlights_correct; [apply Hwf|split; repeat constructor; vm_compute; discriminate|exact Hc|].
  apply (bool_decide_unpack (NoDup (entry_callsign <$> va_entries ex_queue))). vm_compute. exact I.
Defined.

Definition ex_offers : list QueueOffer :=
  match CalculateQueueOffers ex_vacancy (5 * Minute) (clock 10 0) with Ok l => l | _ => [] end.

Lemma CalculateQueueOffers_correct_witness :
  (λ o, (qo_Callsign o, sl_Time (qo_CandidateSlot o), qo_QueuePosition o)) <$> ex_offers = [("SAS3"%string, clock 28 0, 1)] ∧
  Forall (λ o, offer_of_input ex_vacancy (5 * Minute) (clock 10 0) o ∧ qo_AirportRevision o = in_Revision ex_vacancy) ex_offers ∧
  ∀ key, ∃ n, qo_QueuePosition <$> filter (λ o, offer_slot o = key) ex_offers ≡ₚ seqZ 1 (Z.of_nat n).
Proof.
  split; [vm_compute; reflexivity|].
  apply (CalculateQueueOffers_correct ex_vacancy (5 * Minute) (clock 10 0) ex_offers). vm_compute. reflexivity.
Defined.
