(* ===== verification/VacancySafety.v ===== *)
(** * Which vacancies a flight may take

    The moves of [queue.go] before the final calculation: [consume_offer] gives an
    empty slot to the flight it was offered to, [compactStableFlights] pulls
    committed flights forward. Every move is legal at the moment it is made
    ([vacate]), and what a sequence of legal moves keeps is proved by induction on
    the sequence. *)

From S2P Require Import Prelude GoTime SequenceData SequenceGrid SequenceSpacing SequenceOrder.
From S2P Require Import SequencePlacement SequenceAllocation SequenceOptimize SequencePrepare SequenceEngine SequenceExamples.
From S2P Require Import SequenceSafety SequenceCommands SequencePolicy SequenceGoAround SequenceQueue.

Local Open Scope Z_scope.

Definition slot_ns (e : queueEntry) : Z := ns (sl_Time (qe_slot e)).

(** A flight no other may overtake: frozen, in manual order, or ahead in the stable order. *)
Definition protects (e g : queueEntry) : Prop :=
  boundary (qe_flight e) = true ∨ orderAfter (pf_stableOrder (qe_flight e)) (pf_stableOrder (qe_flight g)) = true.

Definition in_time_order (l : list queueEntry) : Prop := chain (λ a b, slot_ns a ≤ slot_ns b) l.

Lemma slot_order_asym a b : slot_order a b = true → slot_order b a = false.
Proof.
  unfold slot_order, time_eqb. cbv zeta. rewrite (Z.eqb_sym (ns (sl_Time (qe_slot b)))), (Z.eqb_sym (sl_Sequence (qe_slot b))).
  destruct (ns _ =? ns _) eqn:E1; cbn [negb]; [|time_lia]. destruct (sl_Sequence _ =? sl_Sequence _) eqn:E2; cbn [negb]; [apply str_ltb_asym|].
  rewrite Z.ltb_lt, Z.ltb_ge. lia.
Qed.

Lemma slot_sorted l : in_time_order (sort_slice slot_order l).
Proof.
  eapply chain_mono; [|apply sort_slice_adj, slot_order_asym]. intros a b. unfold slot_order, slot_ns, time_eqb. cbv zeta.
  destruct (ns _ =? ns _) eqn:E; cbn [negb]; [|time_lia]. zbool. lia.
Qed.

Lemma intervalAt_ns (p : preparedPolicy) t t' : ns t = ns t' → intervalAt p t = intervalAt p t'.
Proof. intros H. unfold intervalAt, rateAt, after. by rewrite H. Qed.

Lemma blocked_ns (p : preparedPolicy) t t' : ns t = ns t' → blocked p t → blocked p t'.
Proof. unfold blocked. by intros ->. Qed.

(** An entry does not fit on the instant of another one. *)
Lemma fits_distinct (p : preparedPolicy) entries f c e :
  time_ordered entries → fits p entries f c → started p c → e ∈ entries → entry_ns e ≠ ns c.
Proof.
  intros Ho Hf Hst He Heq. destruct (position_split entries c Ho) as (Hsplit & Hlo & Hhi).
  rewrite Hsplit in He. apply elem_of_app in He as [He%Hlo|He]; [lia|].
  destruct (drop (position entries c) entries) as [|x l] eqn:Ed; [by apply elem_of_nil in He|].
  assert (Hx : entries !! position entries c = Some x) by (by rewrite <-(Nat.add_0_r (position _ _)), <-lookup_drop, Ed).
  assert (Hxc : entry_ns x = ns c).
  { assert (Hox : time_ordered (x :: l)) by (rewrite Hsplit in Ho; by apply chain_app_inv in Ho as [_ ?]).
    pose proof (ordered_head_least x l e Hox He). pose proof (Hhi x ltac:(left)). lia. }
  pose proof (fit_trailing _ _ _ _ Hf x Hx) as Hgap. pose proof (requiredGap_base p f (ae_flight x) (ae_time x)) as Hb.
  unfold started in Hst. rewrite (intervalAt_ns p (ae_time x) c Hxc) in Hb. unfold entry_ns in Hxc.
  unfold time_sub in Hgap. rewrite Hxc, Z.sub_diag in Hgap. vm_compute (sat64 0) in Hgap. lia.
Qed.

Section vacancies.
Context (p : preparedPolicy) (at_ : Time).

(** A move that both loops make: of a flight that may be promoted, to an earlier free
    slot it can reach, past no flight that is protected against it. *)
Record legal (entries : list queueEntry) (index : nat) (target : queueEntry) (to : Slot) : Prop := {
  lg_eligible : queueEligible (qe_flight target) || stablePromotionEligible (qe_flight target) = true;
  lg_earlier : ns (sl_Time to) < slot_ns target;
  lg_bound : ns (promotionLowerBound p (qe_flight target) at_) ≤ ns (sl_Time to);
  lg_started : started p (sl_Time to);
  lg_unblocked : ¬ blocked p (sl_Time to);
  lg_fits : fits p (remaining_entries entries index) (qe_flight target) (sl_Time to);
  lg_protected : crossesProtectedTime entries (sl_Time to) (sl_Time (qe_slot target)) = false;
  lg_stable : crossesStableOrder entries (qe_flight target) (sl_Time to) = false
}.

Inductive vacate : vacancy → vacancy → Prop :=
| vacate_move v v' index target to :
    va_entries v !! index = Some target → legal (va_entries v) index target to →
    va_entries v' = sort_slice slot_order (alter (set_slot to) index (va_entries v)) →
    va_slots v' = <[entry_callsign target := to]> (va_slots v) →
    vacate v v'.

(** *** What the loops do is a sequence of legal moves *)

Hypothesis Hwf : grid_wf p.
Hypothesis Hcont : po_ContinuousSpacing p = true.

Lemma isGridSlot_free c : isGridSlot p c = Ok true → started p c ∧ ¬ blocked p c.
Proof using Hwf.
  unfold isGridSlot. intros E. bind_inv E. destruct r as [g|]; [|done]. injection E as E. simpl in E. unfold time_eqb in E.
  apply Z.eqb_eq in E. apply previous_grid_facts in E0 as (_ & Hs & Hb); [|done]. split.
  - unfold started in *. by rewrite <-(intervalAt_ns p g c E).
  - intros Hc. apply Hb. by apply (blocked_ns p c g).
Qed.

Lemma consume_vacates revision group v o v' : consume_offer revision p group at_ v o = Ok v' → rtc vacate v v'.
Proof using Hwf.
  unfold consume_offer. cbv zeta. destruct (_ || queueSlotOccupied _ _); [by intros [= <-]|].
  destruct (queueEntryIndex _ _) as [index|]; [|by intros [= <-]]. intros E. bind_inv E. apply deref_ok in E0.
  destruct (queueEligible (qe_flight r)) eqn:Eq; [|by injection E as <-]. cbn [negb orb] in E.
  destruct (before _ _) eqn:Eb in E; [|by injection E as <-]. cbn [negb] in E. bind_inv E.
  destruct (negb _ || _ || _ || _ || _) eqn:Eg in E; [by injection E as <-|].
  apply orb_false_iff in Eg as [Eg Ev%negb_false_iff]. apply orb_false_iff in Eg as [Eg Es]. apply orb_false_iff in Eg as [Eg Ep].
  apply orb_false_iff in Eg as [->%negb_false_iff El]. apply isGridSlot_free in E1 as [Hst Hbl].
  destruct (fl_CurrentSlot _); [|by injection E as <-]. injection E as <-. apply rtc_once.
  eapply vacate_move; [exact E0| |reflexivity|reflexivity]. unfold slot_ns.
  split; [by rewrite Eq|unfold slot_ns; time_lia|time_lia|done|done|by eapply placement_fits|done|done].
Qed.

Lemma moved_flights index to entries :
  qe_flight <$> sort_slice slot_order (alter (set_slot to) index entries) ≡ₚ qe_flight <$> entries.
Proof using Type.
  rewrite (sort_slice_perm slot_order). revert index.
  induction entries as [|e l IH]; intros [|index]; simpl; [done..|]. apply perm_skip, IH.
Qed.

Lemma vacate_flights v v' : rtc vacate v v' → qe_flight <$> va_entries v' ≡ₚ qe_flight <$> va_entries v.
Proof using Type.
  induction 1 as [v|v v1 v' Hs _ ->]; [done|]. destruct Hs as [v v1 index target to _ _ -> _]. apply moved_flights.
Qed.

Lemma compact_vacates entries0 s callsign s' :
  NoDup (entry_callsign <$> entries0) → eligible_callsign entries0 callsign → qe_flight <$> va_entries s.1 ≡ₚ qe_flight <$> entries0 →
  compact_one p at_ s callsign = Ok s' → rtc vacate s.1 s'.1.
Proof using Hwf Hcont.
  intros Hn Hel Hfl. unfold compact_one. cbv zeta. destruct (queueEntryIndex _ _) as [index|] eqn:Ei; [|by intros [= <-]].
  intros E. bind_inv E. apply deref_ok in E0. apply queueEntryIndex_Some in Ei as (e & He & Hec).
  rewrite E0 in He. injection He as <-. bind_inv E. destruct r0 as [c|]; [|by injection E as <-]. destruct s as [v indexes].
  apply compaction_search_facts in E1; [|done..]. cbn [fst] in *.
  assert (Hlegal : legal (va_entries v) index r (promoted_slot r c)).
  { pose proof (compaction_lower_ge p (va_entries v) r at_). destruct E1 as [H1 H2 H3 H4 H5 H6 H7].
    split; cbn [promoted_slot sl_Time]; try done; [|lia].
    rewrite (eligible_target entries0 (va_entries v) callsign index r) by done. apply orb_true_r. }
  unfold promote in E. bind_inv E. apply rtc_once.
  destruct (indexes !! _); injection E as <-; by eapply vacate_move.
Qed.

Lemma compaction_vacates v v' :
  NoDup (entry_callsign <$> va_entries v) → compactStableFlights p v at_ = Ok v' → rtc vacate v v'.
Proof using Hwf Hcont.
  intros Hn. unfold compactStableFlights. cbv zeta. intros E. bind_inv E. injection E as <-.
  apply (fold_outcome_inv_in _ (λ s, rtc vacate v s.1)) in E0; [done| |done].
  intros s callsign s' Hin Hs Hc. etrans; [exact Hs|].
  eapply (compact_vacates (va_entries v)); [done|by apply work_list_eligible|by apply vacate_flights|done].
Qed.

(** *** What a sequence of legal moves keeps *)

(** The slot of a flight before and after: unchanged, or an earlier one that is recorded. *)
Definition slot_evolves (v v' : vacancy) (e e' : queueEntry) : Prop :=
  qe_slot e' = qe_slot e ∧ va_slots v' !! entry_callsign e = va_slots v !! entry_callsign e ∨
  queueEligible (qe_flight e) || stablePromotionEligible (qe_flight e) = true ∧ slot_ns e' < slot_ns e ∧
  ns (promotionLowerBound p (qe_flight e) at_) ≤ slot_ns e' ∧ ¬ blocked p (sl_Time (qe_slot e')) ∧
  va_slots v' !! entry_callsign e = Some (qe_slot e').

Record evolves (v v' : vacancy) : Prop := {
  ev_flights : qe_flight <$> va_entries v' ≡ₚ qe_flight <$> va_entries v;
  ev_slots : ∀ e e', e ∈ va_entries v → e' ∈ va_entries v' → qe_flight e' = qe_flight e → slot_evolves v v' e e';
  ev_order : ∀ e g e' g', e ∈ va_entries v → g ∈ va_entries v → e' ∈ va_entries v' → g' ∈ va_entries v' →
    qe_flight e' = qe_flight e → qe_flight g' = qe_flight g → protects e g → slot_ns e < slot_ns g → slot_ns e' < slot_ns g'
}.

Lemma entry_between (l l' : list queueEntry) e : qe_flight <$> l' ≡ₚ qe_flight <$> l → e ∈ l → ∃ e', e' ∈ l' ∧ qe_flight e' = qe_flight e.
Proof using Type.
  intros Hp He. apply (list_elem_of_fmap_2 qe_flight) in He. rewrite <-Hp in He. apply list_elem_of_fmap in He as (e' & ? & ?). eauto.
Qed.

Lemma protects_flights e g e' g' : qe_flight e' = qe_flight e → qe_flight g' = qe_flight g → protects e g → protects e' g'.
Proof using Type. unfold protects. by intros -> ->. Qed.

Lemma evolves_trans v1 v2 v3 : evolves v1 v2 → evolves v2 v3 → evolves v1 v3.
Proof using Type.
  intros [F1 S1 O1] [F2 S2 O2]. split; [by rewrite F2| |].
  - intros e e'' He He'' Hf. destruct (entry_between _ _ _ F1 He) as (e' & He' & Hf').
    specialize (S1 e e' He He' Hf'). specialize (S2 e' e'' He' He'' ltac:(congruence)). unfold slot_evolves, slot_ns, entry_callsign in *.
    rewrite Hf' in S2. destruct S2 as [[H1 H2]|(H1 & H2 & H3 & H4 & H5)], S1 as [[H6 H7]|(H6 & H7 & H8 & H9 & H10)].
    + left. split; congruence.
    + right. rewrite H1, H2. by split_and!.
    + right. rewrite H6 in H2. by split_and!.
    + right. split_and!; try done. lia.
  - intros e g e'' g'' He Hg He'' Hg'' Hfe Hfg Hp Hlt.
    destruct (entry_between _ _ _ F1 He) as (e' & He' & Hfe'). destruct (entry_between _ _ _ F1 Hg) as (g' & Hg' & Hfg').
    apply (O2 e' g' e'' g''); try congruence; [by eapply protects_flights|by apply (O1 e g e' g')].
Qed.

(** An entry after a move is the moved one or one of the others. *)
Lemma moved_entry index to entries target e' :
  entries !! index = Some target → e' ∈ sort_slice slot_order (alter (set_slot to) index entries) →
  e' = set_slot to target ∨ ∃ j, j ≠ index ∧ entries !! j = Some e'.
Proof using Type.
  intros Hi He. apply elem_of_sort_slice, list_elem_of_lookup in He as [j Hj]. destruct (decide (j = index)) as [->|Hne]; [left|right].
  - rewrite list_lookup_alter_eq, Hi in Hj. by injection Hj as <-.
  - rewrite list_lookup_alter_ne in Hj by done. eauto.
Qed.

Lemma same_entry_callsign entries i j e e' :
  NoDup (entry_callsign <$> entries) → entries !! i = Some e → entries !! j = Some e' → qe_flight e' = qe_flight e → i = j.
Proof using Type.
  intros Hn Hi Hj Hf. apply (NoDup_lookup _ _ _ (entry_callsign e) Hn); rewrite list_lookup_fmap; [by rewrite Hi|].
  rewrite Hj. simpl. unfold entry_callsign. by rewrite Hf.
Qed.

Lemma remaining_elem entries index j e :
  entries !! j = Some e → j ≠ index → allocated_of e ∈ remaining_entries entries index.
Proof using Type.
  intros Hj Hne. unfold remaining_entries. apply list_elem_of_fmap_2, elem_of_app. destruct (decide (j < index)%nat).
  - left. apply list_elem_of_lookup. exists j. by rewrite lookup_take_lt.
  - right. apply list_elem_of_lookup. exists (j - S index)%nat. rewrite lookup_drop. by replace (S index + (j - S index))%nat with j by lia.
Qed.

Lemma remaining_ordered entries index : in_time_order entries → time_ordered (remaining_entries entries index).
Proof using Type.
  intros Ho. unfold remaining_entries, time_ordered. apply chain_fmap.
  apply chain_lookup. intros k a b Ha Hb. assert (Hl : ∀ j i x y, (i < j)%nat → entries !! i = Some x → entries !! j = Some y → slot_ns x ≤ slot_ns y).
  { intros j i x y Hij Hx Hy. eapply (chain_trans_lookup (λ a b, slot_ns a ≤ slot_ns b) entries); [intros ???; lia|exact Ho|exact Hij|done|done]. }
  assert (Hat : ∀ k x, (take index entries ++ drop (S index) entries) !! k = Some x →
            entries !! (if decide (k < index ∧ k < length entries)%nat then k else S k) = Some x).
  { intros k' x Hx. apply lookup_app_Some in Hx as [Hx|[Hlen Hx]].
    - apply lookup_take_Some in Hx as [Hx Hlt]. apply lookup_lt_Some in Hx as Hlt'. by rewrite decide_True.
    - rewrite length_take in *. rewrite lookup_drop in Hx. apply lookup_lt_Some in Hx as Hlt. rewrite decide_False by lia.
      rewrite <-Hx. f_equal. lia. }
  apply Hat in Ha, Hb. unfold entry_ns, allocated_of. cbn [ae_time].
  eapply (Hl _ _ a b); [|exact Ha|exact Hb]. repeat case_decide; lia.
Qed.

(** One legal move puts nothing before a flight protected against it. *)
Lemma legal_passes_none entries index target to j e :
  in_time_order entries → entries !! index = Some target → legal entries index target to →
  entries !! j = Some e → j ≠ index → fl_Callsign (qe_flight e) ≠ fl_Callsign (qe_flight target) →
  protects e target → slot_ns e < slot_ns target → slot_ns e < ns (sl_Time to).
Proof using Type.
  intros Ho Hi Hl Hj Hne Hc Hp Hlt. pose proof (fits_distinct p _ _ _ _ (remaining_ordered entries index Ho) (lg_fits _ _ _ _ Hl)
    (lg_started _ _ _ _ Hl) (remaining_elem _ _ _ _ Hj Hne)) as Hd. unfold entry_ns in Hd. cbn [allocated_of ae_time] in Hd.
  apply list_elem_of_lookup_2 in Hj. destruct Hp as [Hb|Hs].
  - pose proof (lg_protected _ _ _ _ Hl) as Hcross. unfold crossesProtectedTime in Hcross.
    rewrite existsb_exists_false in Hcross. unfold slot_ns in *. specialize (Hcross e Hj). simpl in Hcross. rewrite Hb, andb_true_r in Hcross.
    time_lia.
  - pose proof (lg_stable _ _ _ _ Hl) as Hcross. unfold crossesStableOrder, orderAfter in *.
    destruct (pf_stableOrder (qe_flight e)) as [o|] eqn:Eo, (pf_stableOrder (qe_flight target)) as [o'|]; try done.
    rewrite existsb_exists_false in Hcross. specialize (Hcross e Hj). rewrite Eo in Hcross. cbn [opt_test] in Hcross. rewrite Hs in Hcross.
    destruct (str_eqb _ _) eqn:Ec in Hcross; [by apply str_eqb_eq in Ec|]. unfold slot_ns in *. cbn [negb andb] in Hcross. time_lia.
Qed.

Record tidy (v : vacancy) : Prop := { td_names : NoDup (entry_callsign <$> va_entries v); td_order : in_time_order (va_entries v) }.

Lemma other_callsign entries i j e e' :
  NoDup (entry_callsign <$> entries) → entries !! i = Some e → entries !! j = Some e' → j ≠ i → entry_callsign e' ≠ entry_callsign e.
Proof using Type.
  intros Hn Hi Hj Hne Hc. apply Hne. apply (NoDup_lookup _ _ _ (entry_callsign e) Hn); rewrite list_lookup_fmap; [by rewrite Hj; simpl; f_equal|by rewrite Hi].
Qed.

Lemma vacate_tidy v v' : vacate v v' → tidy v → tidy v'.
Proof using Type.
  intros [v1 v2 index target to Hi Hl He Hs] [Hn _]. split; rewrite He; [by rewrite moved_callsigns|apply slot_sorted].
Qed.

Lemma vacate_evolves v v' : vacate v v' → tidy v → evolves v v'.
Proof using Type.
  intros [v1 v2 index target to Hi Hl He Hs] [Hn Ho].
  (* an entry after the move, by the one before *)
  assert (Hcase : ∀ e e', e ∈ va_entries v1 → e' ∈ va_entries v2 → qe_flight e' = qe_flight e →
            e = target ∧ e' = set_slot to target ∨ e' = e ∧ ∃ j, va_entries v1 !! j = Some e ∧ j ≠ index).
  { intros e e' Hin Hin' Hf. rewrite He in Hin'. apply list_elem_of_lookup in Hin as [i Hie].
    destruct (moved_entry _ _ _ _ _ Hi Hin') as [->|(j & Hj & Hje)].
    - left. split; [|done]. rewrite (same_entry_callsign _ i index e target Hn Hie Hi Hf) in Hie. congruence.
    - right. rewrite (same_entry_callsign _ i j e e' Hn Hie Hje Hf) in Hie. rewrite Hie in Hje. injection Hje as ->. eauto. }
  split.
  - rewrite He. apply moved_flights.
  - intros e e' Hin Hin' Hf. destruct (Hcase e e' Hin Hin' Hf) as [[-> ->]|[-> (j & Hj & Hne)]].
    + right. rewrite Hs, lookup_insert_eq. split_and!; try apply Hl; done.
    + left. rewrite Hs, lookup_insert_ne by (intros Heq; by apply (other_callsign _ _ _ _ _ Hn Hi Hj Hne)). done.
  - intros e g e' g' Hine Hing Hine' Hing' Hfe Hfg Hp Hlt.
    destruct (Hcase e e' Hine Hine' Hfe) as [[-> ->]|[-> (j & Hj & Hne)]], (Hcase g g' Hing Hing' Hfg) as [[-> ->]|[-> (k & Hk & Hnk)]].
    + lia.
    + pose proof (lg_earlier _ _ _ _ Hl). unfold slot_ns in *. cbn [set_slot qe_slot] in *. lia.
    + apply (legal_passes_none (va_entries v1) index target to j); [done..| |done|done]. by apply (other_callsign _ _ _ _ _ Hn Hi Hj).
    + done.
Qed.

Lemma evolves_refl v : tidy v → evolves v v.
Proof using Type.
  intros [Hn _].
  assert (Hsame : ∀ e e', e ∈ va_entries v → e' ∈ va_entries v → qe_flight e' = qe_flight e → e' = e).
  { intros e e' [i Hi]%list_elem_of_lookup [j Hj]%list_elem_of_lookup Hf. rewrite (same_entry_callsign _ i j e e' Hn Hi Hj Hf) in Hi. congruence. }
  split; [done| |].
  - intros e e' He He' Hf. left. by rewrite (Hsame e e').
  - intros e g e' g' He Hg He' Hg' Hfe Hfg _. by rewrite (Hsame e e'), (Hsame g g').
Qed.

Lemma vacates_evolve v v' : rtc vacate v v' → tidy v → evolves v v'.
Proof using Type.
  induction 1 as [v|v v1 v' Hs _ IH]; intros Ht; [by apply evolves_refl|].
  eapply evolves_trans; [by apply vacate_evolves|by apply IH, (vacate_tidy v)].
Qed.

(** The two loops of a group, one after the other. *)
Lemma stages_vacate revision group v offers v1 v2 :
  NoDup (entry_callsign <$> va_entries v) →
  fold_outcome (consume_offer revision p group at_) v offers = Ok v1 → compactStableFlights p v1 at_ = Ok v2 → rtc vacate v v2.
Proof using Hwf Hcont.
  intros Hn Ho Hc. assert (H1 : rtc vacate v v1).
  { eapply (fold_outcome_inv _ (λ v1, rtc vacate v v1)); [|done|exact Ho]. intros s o s' Hs Hso. etrans; [exact Hs|by eapply consume_vacates]. }
  etrans; [exact H1|]. apply compaction_vacates; [|done].
  pose proof (fmap_Permutation fl_Callsign _ _ (fmap_Permutation pf_Flight _ _ (vacate_flights _ _ H1))) as Hp.
  rewrite <-!list_fmap_compose in Hp. unfold entry_callsign in *. by rewrite Hp.
Qed.
End vacancies.

(** C26: Consuming the offers of a runway group and then compacting its committed
    flights keeps every flight once and moves flights forward only. A flight keeps
    its slot, or it was eligible and has an earlier one, not before its promotion
    bound and not in a gap or a closure of the runway, and that slot is the one that
    is recorded for the final calculation. And no flight comes to lie before one it
    may not pass: whoever is behind a frozen flight, a flight in manual order or a
    flight ahead in the stable order stays behind it. *)
Theorem vacancies_taken p revision group at_ v offers v1 v2 :
  grid_wf p → po_ContinuousSpacing p = true →
  NoDup (entry_callsign <$> va_entries v) → in_time_order (va_entries v) →
  fold_outcome (consume_offer revision p group at_) v offers = Ok v1 → compactStableFlights p v1 at_ = Ok v2 →
  qe_flight <$> va_entries v2 ≡ₚ qe_flight <$> va_entries v ∧
  (∀ e e', e ∈ va_entries v → e' ∈ va_entries v2 → qe_flight e' = qe_flight e →
     qe_slot e' = qe_slot e ∧ va_slots v2 !! entry_callsign e = va_slots v !! entry_callsign e ∨
     queueEligible (qe_flight e) || stablePromotionEligible (qe_flight e) = true ∧ slot_ns e' < slot_ns e ∧
     ns (promotionLowerBound p (qe_flight e) at_) ≤ slot_ns e' ∧ ¬ blocked p (sl_Time (qe_slot e')) ∧
     va_slots v2 !! entry_callsign e = Some (qe_slot e')) ∧
  (∀ e g e' g', e ∈ va_entries v → g ∈ va_entries v → e' ∈ va_entries v2 → g' ∈ va_entries v2 →
     qe_flight e' = qe_flight e → qe_flight g' = qe_flight g → protects e g → slot_ns e < slot_ns g → slot_ns e' < slot_ns g').
Proof.
  intros Hwf Hcont Hn Ho H1 H2. pose proof (stages_vacate p at_ Hwf Hcont revision group v offers v1 v2 Hn H1 H2) as Hv.
  by destruct (vacates_evolve p at_ v v2 Hv) as [? ? ?].
Qed.

(** ** Instances

    A vacancy at minute 24 that was offered to the last flight, which stable traffic
    does not hold back; the stable flight then moves up behind the frozen one. *)
Definition ex_offered : Input :=
  mk_input 1 [ex_policy 30 [] []] []
    [set_CurrentSlot (Some (ex_slot (clock 20 0) 1)) ex_frozen;
     ex_committed "SAS2" "ERNOV" (clock 22 0) (clock 28 0) 3;
     set_CurrentSlot (Some (ex_slot (clock 30 0) 4)) (ex_flight "SAS3" "M" StateUnstable (clock 23 0))].

Definition ex_offer : QueueOffer :=
  mk_offer "SAS3" ex_group (ex_slot (clock 24 0) 2) 1 (clock 15 0) 1 QueueOfferEarlierOccupiedSlot.

Definition ex_before : vacancy :=
  Eval vm_compute in mk_vacancy
    (match prepareInput ex_offered with
     | Ok (_, prepared) => match queueEntries 1 (default [] (prepared !! ex_group)) with Ok l => l | _ => [] end
     | _ => [] end) ∅ [].

Definition ex_consumed : vacancy :=
  match fold_outcome (consume_offer 1 (fst ex_vacancy_prepared) ex_group (clock 10 0)) ex_before [ex_offer] with Ok v => v | _ => ex_before end.

Definition ex_compacted : vacancy :=
  match compactStableFlights (fst ex_vacancy_prepared) ex_consumed (clock 10 0) with Ok v => v | _ => ex_consumed end.

Lemma vacancies_taken_witness :
  (λ e, (entry_callsign e, sl_Time (qe_slot e))) <$> va_entries ex_compacted =
    [("SAS1"%string, clock 20 0); ("SAS2"%string, clock 22 0); ("SAS3"%string, clock 24 0)] ∧
  qe_flight <$> va_entries ex_compacted ≡ₚ qe_flight <$> va_entries ex_before ∧
  ∀ e g e' g', e ∈ va_entries ex_before → g ∈ va_entries ex_before → e' ∈ va_entries ex_compacted → g' ∈ va_entries ex_compacted →
    qe_flight e' = qe_flight e → qe_flight g' = qe_flight g → protects e g → slot_ns e < slot_ns g → slot_ns e' < slot_ns g'.
Proof.
  split; [vm_compute; reflexivity|]. destruct ex_vacancy_wf as [Hwf Hc].
  destruct (vacancies_taken (fst ex_vacancy_prepared) 1 ex_group (clock 10 0) ex_before [ex_offer] ex_consumed ex_compacted) as (Hf & _ & Ho).
  - apply Hwf.
  - exact Hc.
  - apply (bool_decide_unpack (NoDup (entry_callsign <$> va_entries ex_before))). vm_compute. exact I.
  - vm_compute. by split_and!.
  - vm_compute. reflexivity.
  - vm_compute. reflexivity.
  - split; [exact Hf|exact Ho].
Defined.
