(* ===== verification/SequenceGapFill.v ===== *)
(** * Gap filling and spacing diagnostics

    The room same-STAR spacing leaves between two arrivals may be used by
    another stream ([gap_fill.go]: [fillSTARSpacingGaps], defined in
    SequenceQueue): this keeps the whole runway sequence separated, loses no
    flight and moves flights forward only. [diagnostics.go]:
    [SpacingDiagnostics] reports the spacing the allocator really uses. *)

From S2P Require Import Prelude GoTime SequenceData SequenceGrid SequenceSpacing SequenceOrder.
From S2P Require Import SequencePlacement SequenceAllocation SequenceOptimize SequencePrepare SequenceEngine SequenceExamples.
From S2P Require Import SequenceSafety SequenceCommands SequencePolicy SequenceGoAround SequenceQueue.

Local Open Scope Z_scope.

(** ** Spacing diagnostics *)

Record SpacingSnapshot := mk_snapshot {
  ss_Callsign : string;
  ss_RunwayGroup : string;
  ss_STARFamily : string;
  ss_DemandCount : Z;
  ss_Threshold : Z;
  ss_Active : bool
}.

(** The demand times in the half-open window around [at_], counted one by one. *)
Definition count_window (times : list Time) (at_ : Time) : Z :=
  let start := time_add at_ (dur_div (dur_neg demandWindow) 2) in
  let end_ := time_add at_ (dur_div demandWindow 2) in
  Z.of_nat (length (filter (λ t, negb (before t start) && before t end_ = true) times)).

Definition allocation_at (f : preparedFlight) : Time :=
  match fl_CurrentSlot f with Some slot => sl_Time slot | None => fl_OperationalTETA f end.

Definition snapshot (group : string) (p : preparedPolicy) (f : preparedFlight) : SpacingSnapshot :=
  let '(spacing, configured) := spacingFor (pp_starFamilies p) (fl_STARFamily f) (po_SameSTARSpacing p) in
  let count := match fl_DemandArrivalAt f with Some at_ => count_window (pp_demandTimes p) at_ | None => 0 end in
  let active := configured && negb (str_empty (fl_STARFamily f)) && ss_Enabled spacing
                && (0 <? rateAt p (allocation_at f))
                && (bool_decide (fl_STARFamily f ∈ pp_activeHoldingFamilies p)
                    || (not_nil (fl_DemandArrivalAt f) && (ss_ActivationRatePerHour spacing <=? u64 (u64 count * 4)))) in
  mk_snapshot (fl_Callsign f) group (fl_STARFamily f) count (ss_ActivationRatePerHour spacing) active.

Definition snapshot_less (a b : SpacingSnapshot) : bool := str_ltb (ss_Callsign a) (ss_Callsign b).

(** An input that cannot be prepared has no diagnostics; callsigns are distinct,
    so the order of the groups does not matter. *)
Definition SpacingDiagnostics (input : Input) : outcome (list SpacingSnapshot) :=
  match prepareInput input with
  | Ok (policies, flights) =>
      result ← fold_outcome (λ l (gf : string * list preparedFlight),
                   p ← deref (policies !! gf.1); Ok (l ++ (snapshot gf.1 p <$> gf.2))) [] (map_to_list flights);
      Ok (sort_slice snapshot_less result)
  | Err _ => Ok []
  | Panic => Panic
  | Hang => Hang
  end.

(** *** The count is the allocator's *)

Lemma count_filter (times : list Time) s e :
  chain (λ a b, ns a ≤ ns b) times → ns s ≤ ns e →
  Z.of_nat (length (filter (λ t, negb (before t s) && before t e = true) times)) =
    Z.of_nat (sort_search_list (λ t, negb (before t e)) times) - Z.of_nat (sort_search_list (λ t, negb (before t s)) times).
Proof.
  intros Hs Hse.
  assert (Hcount : ∀ x, Z.of_nat (sort_search_list (λ t, negb (before t x)) times) =
                        Z.of_nat (length (filter (λ t, before t x = true) times))).
  { intros x. assert (Hm : chain (λ a b, negb (before a x) = true → negb (before b x) = true) times).
    { eapply chain_mono; [|exact Hs]. intros a b Hab. simpl. time_lia. }
    pose proof (sort_search_list_spec (λ t, negb (before t x)) times Hm) as (Hle & Hlo & Hhi).
    set (k := sort_search_list _ times) in *. rewrite <-(take_drop k times), filter_app, length_app.
    rewrite (filter_all _ (take k times)), (filter_none _ (drop k times)).
    - simpl. rewrite length_take. lia.
    - eapply Forall_impl; [exact Hhi|]. intros t Ht. simpl in Ht. by destruct (before t x).
    - eapply Forall_impl; [exact Hlo|]. intros t Ht. simpl in Ht. by destruct (before t x). }
  rewrite !Hcount. clear Hcount Hs. induction times as [|t l IH]; [done|]. rewrite !filter_cons.
  destruct (before t s) eqn:Es, (before t e) eqn:Ee; cbn [negb andb];
    repeat (destruct (decide _) as [?|?]; try done); simpl in *; try lia. exfalso. time_lia.
Qed.

Lemma count_window_demand p at_ :
  chain (λ a b, ns a ≤ ns b) (pp_demandTimes p) → count_window (pp_demandTimes p) at_ = demand_count p at_.
Proof. intros Hs. unfold count_window, demand_count. apply count_filter; [done|]. apply Z.add_le_mono_l. vm_compute. discriminate. Qed.

Lemma rateAt_nonneg p t : grid_wf p → 0 ≤ rateAt p t.
Proof.
  intros Hwf. unfold rateAt. destruct (sort_search_list _ _) as [|i]; [done|]. destruct (pp_rates p !! i) as [r|] eqn:Er; [|done].
  pose proof (gw_rates _ Hwf) as Hr. rewrite Forall_lookup in Hr. specialize (Hr i r Er). simpl in Hr. lia.
Qed.

(** A spacing snapshot reports what the allocator does: behind an arrival of
    the same STAR family the flight, at its current slot or else its estimate,
    is given the configured number of empty slots exactly when the snapshot says
    the spacing is active, and no same-STAR spacing otherwise. *)
Theorem snapshot_is_allocator group p (leading f : preparedFlight) :
  grid_wf p → chain (λ a b, ns a ≤ ns b) (pp_demandTimes p) → fl_STARFamily leading = fl_STARFamily f →
  let spacing := (spacingFor (pp_starFamilies p) (fl_STARFamily f) (po_SameSTARSpacing p)).1 in
  sameSTARGap p leading f (allocation_at f) =
    if ss_Active (snapshot group p f)
    then dur_mul (u32 (ss_MinimumEmptySlots spacing + 1)) (rateInterval (rateAt p (allocation_at f)))
    else 0.
Proof.
  intros Hwf Hs Hfam. unfold sameSTARGap, snapshot. rewrite Hfam, str_eqb_refl.
  destruct (spacingFor _ _ _) as [spacing configured]. cbn [fst ss_Active negb].
  destruct (str_empty (fl_STARFamily f)); cbn [orb negb]; [by rewrite andb_false_r|].
  destruct configured, (ss_Enabled spacing); cbn [negb orb andb]; try done.
  pose proof (rateAt_nonneg p (allocation_at f) Hwf). destruct (Z.eqb_spec (rateAt p (allocation_at f)) 0) as [Hz|Hz].
  - by rewrite Hz.
  - replace (0 <? rateAt p (allocation_at f)) with true by (symmetry; apply Z.ltb_lt; lia). cbn [andb].
    unfold demandBusy. destruct (fl_DemandArrivalAt f) as [at_|].
    + rewrite count_window_demand by done. cbn [not_nil is_nil negb andb].
      by destruct (bool_decide _), (_ <=? _).
    + by destruct (bool_decide _).
Qed.

(** ** Gap filling *)

(** A sequence in slot order whose neighbours keep the required spacing. *)
Record spaced_sequence (p : preparedPolicy) (l : list allocatedEntry) : Prop := {
  sq_settled : settled l;
  sq_started : Forall (entry_started p) l;
  sq_adjacent : chain (λ a b, adjacentValid p a b = true) l
}.

(** The same for a sequence with pairs that need not be apart. *)
Record spaced_except (p : preparedPolicy) (exempt : allocatedEntry → allocatedEntry → Prop) (l : list allocatedEntry) : Prop := {
  se_settled : settled l;
  se_started : Forall (entry_started p) l;
  se_spaced : chain (λ a b, exempt a b ∨ adjacentValid p a b = true) l
}.

Lemma spaced_sequence_except p l : spaced_sequence p l ↔ spaced_except p (λ _ _, False) l.
Proof.
  split; intros [H1 H2 H3]; (split; [done|done|]); eapply chain_mono; [|exact H3| |exact H3]; cbv beta; intros a b; tauto.
Qed.

Lemma adjacent_ordered p l : chain (λ a b, adjacentValid p a b = true) l → chain (λ a b, entry_ns a < entry_ns b) l.
Proof. apply chain_mono. intros a b. apply adjacentValid_lt. Qed.

Lemma adjacent_settled p l : chain (λ a b, adjacentValid p a b = true) l → settled l.
Proof.
  intros H%adjacent_ordered. eapply chain_mono; [|exact H]. intros a b Hab. simpl.
  by apply entryLess_asym, entryLess_lt.
Qed.

Lemma adjacent_settled_pair p a b : adjacentValid p a b = true → entryLess b a = false.
Proof. intros H. by eapply entryLess_asym, entryLess_lt, adjacentValid_lt. Qed.

Lemma noteOperation_spacing kind f : same_spacing (noteOperation kind f) f.
Proof. unfold noteOperation. by destruct (existsb _ _). Qed.

(** A fitting entry inserted into a spaced sequence. *)
Lemma insert_spaced p exempt l (f f' : preparedFlight) c r :
  spaced_except p exempt l → fits p l f c → started p c → same_spacing f' f →
  spaced_except p exempt (sortEntries (l ++ [mk_alloc f' c r])).
Proof.
  intros [Hset Hst Hch] Hf Hc Hsp. pose proof (settled_ordered _ Hset) as Hord.
  destruct (position_split l c Hord) as (Hsplit & Hlo & Hhi).
  set (k := position l c) in *. set (x := mk_alloc f' c r).
  assert (Hsame : same_entry x (mk_alloc f c r)) by (split; [exact Hsp|done]).
  assert (Hlead : ∀ y, last (take k l) = Some y → adjacentValid p y x = true)
    by (intros; rewrite Hsame; by eapply fits_leading).
  assert (Htrail : ∀ y, head (drop k l) = Some y → adjacentValid p x y = true).
  { intros y Hy. rewrite head_lookup, lookup_drop, Nat.add_0_r in Hy. rewrite Hsame. eapply fits_trailing; [done| |done].
    rewrite Forall_lookup in Hst. by eapply Hst. }
  assert (Hhi' : ∀ y, y ∈ drop k l → entry_ns x < entry_ns y).
  { intros y Hy. destruct (drop k l) as [|z l'] eqn:Ed; [by apply elem_of_nil in Hy|].
    specialize (Htrail z eq_refl). apply adjacentValid_lt in Htrail.
    assert (Ho : time_ordered (z :: l')).
    { rewrite Hsplit in Hord. apply chain_app_inv in Hord as [_ Hord]. exact Hord. }
    pose proof (ordered_head_least z l' y Ho Hy). lia. }
  assert (Hins : sortEntries (l ++ [x]) = take k l ++ x :: drop k l).
  { rewrite Hsplit at 1. apply sortEntries_insert; [by rewrite <-Hsplit| |done]. intros y Hy. by apply Hlo. }
  split; [apply sortEntries_settled| |].
  2:{ rewrite Hins. rewrite Hsplit in Hch. apply chain_app_inv in Hch as [? ?]. apply chain_insert; auto. }
  apply (Forall_perm _ _ _ (sortEntries_perm _)), Forall_app. split; [done|by constructor].
Qed.

(** A chain without one of its entries. *)
Lemma chain_remove {A} (R : A → A → Prop) l index :
  chain R l → (∀ a b, last (take index l) = Some a → l !! S index = Some b → R a b) →
  chain R (take index l ++ drop (S index) l).
Proof.
  intros Hch Hab. rewrite <-(take_drop index l) in Hch. apply chain_app_inv in Hch as [H1 H2].
  assert (H3 : chain R (drop (S index) l)).
  { rewrite <-Nat.add_1_r, <-drop_drop. rewrite <-(take_drop 1 (drop index l)) in H2. by apply chain_app_inv in H2 as [_ ?]. }
  destruct (drop (S index) l) as [|b l'] eqn:Ed; [by rewrite app_nil_r|].
  assert (Hb : l !! S index = Some b) by (rewrite <-(Nat.add_0_r (S index)), <-lookup_drop, Ed; done).
  apply chain_cons in H3 as [H3 H4]. apply chain_insert; [done|done| |done]. intros a Ha. by apply Hab.
Qed.

(** A spaced sequence without an entry whose neighbours are apart. *)
Lemma remove_spaced p exempt l index :
  spaced_except p exempt l →
  (∀ a b, last (take index l) = Some a → l !! S index = Some b → adjacentValid p a b = true) →
  spaced_except p exempt (take index l ++ drop (S index) l).
Proof.
  intros [Hset Hst Hch] Hab. split.
  - apply chain_remove; [done|]. intros a b Ha Hb. by eapply adjacent_settled_pair, Hab.
  - apply Forall_app. split; [by apply Forall_take|by apply Forall_drop].
  - apply chain_remove; [done|]. intros a b Ha Hb. right. by apply Hab.
Qed.

(** *** Where a rejected candidate goes on *)

Lemma later_of_mono a b t : t ≤ ns a → t ≤ ns (later_of a b).
Proof. intros. pose proof (later_of_ge a b). lia. Qed.

Lemma placement_later p l f c b : ns c < ns (pl_later (placementWithStableOrder p l f c b)).
Proof.
  unfold placementWithStableOrder. destruct (opt_test _ _) eqn:Enb.
  { destruct (fl_SlotNotBefore f); [|done]. simpl in *. time_lia. }
  destruct (blockingGap p c) as [g|] eqn:Eg; [apply blockingGap_Some in Eg; simpl; lia|].
  set (s0 := mk_placement true _ _). set (s1 := match last _ with Some _ => _ | None => s0 end).
  set (s2 := match l !! _ with Some _ => _ | None => s1 end).
  assert (H0 : ns c + 1 ≤ ns (pl_later s0)) by (simpl; unfold Nanosecond; lia).
  assert (H1 : ns c + 1 ≤ ns (pl_later s1)).
  { subst s1. destruct (last _); [|done]. unfold place_after_leading.
    destruct (_ || _); destruct (_ <? _); cbn [reject_earlier reject_later pl_later]; by try apply later_of_mono. }
  assert (H2 : ns c + 1 ≤ ns (pl_later s2)).
  { subst s2. destruct (l !! _); [|done]. unfold place_before_trailing.
    destruct (_ || _); destruct (_ <? _); cbn [reject_earlier reject_later pl_later]; by repeat apply later_of_mono. }
  assert (H3 : ∀ l' s, ns c + 1 ≤ ns (pl_later s) → ns c + 1 ≤ ns (pl_later (foldl (place_after_holding p f c) s l'))).
  { induction l' as [|e l' IH]; intros s Hs; [done|]. simpl. apply IH. unfold place_after_holding.
    repeat case_match; cbn [reject_earlier reject_later pl_later]; by try apply later_of_mono. }
  destruct (_ || _); [specialize (H3 l s2 H2); lia|lia].
Qed.

Section filling.
Context (p : preparedPolicy) (at_ : Time).
Hypothesis Hwf : grid_wf p.
Hypothesis Hcont : po_ContinuousSpacing p = true.

Lemma fill_attempts_None attempts remaining f limit : fill_attempts attempts p remaining f limit None = Ok None.
Proof using Type. by destruct attempts. Qed.

Lemma fill_attempts_facts attempts remaining f limit first c :
  (∀ t, first = Some t → started p t ∧ ¬ blocked p t) →
  fill_attempts attempts p remaining f limit first = Ok (Some c) →
  fits p remaining f c ∧ started p c ∧ ¬ blocked p c ∧ ns c < ns limit ∧ ∀ t, first = Some t → ns t ≤ ns c.
Proof using Hwf Hcont.
  revert first. induction attempts as [|n IH]; intros [t|] Hgood E; try done. simpl in E.
  destruct (Hgood t eq_refl) as [Hst Hub]. destruct (before t limit) eqn:Eb; [|done]. cbn [negb] in E.
  destruct (pl_valid _) eqn:Ev.
  - injection E as <-. split_and!; [by eapply placement_fits|done|done|time_lia|by intros ? [= <-]].
  - bind_inv E. pose proof (placement_later p remaining f t false) as Hlater.
    destruct r as [t'|]; [|by rewrite fill_attempts_None in E]. apply IH in E as (H1 & H2 & H3 & H4 & H5).
    + split_and!; [done..|]. intros ? [= <-].
      apply next_grid_continuous in E0 as (Hle & _ & _); [|done..]. specialize (H5 t' eq_refl). lia.
    + intros ? [= <-]. by apply next_grid_continuous in E0 as (_ & ? & ?).
Qed.

(** What one filler does to the sequence. *)
Record filler (entries : list allocatedEntry) (index : nat) (target : allocatedEntry) (limit : Time)
    (l : list allocatedEntry) (c : Time) : Prop := {
  fi_result : l = sortEntries ((take index entries ++ drop (S index) entries)
                    ++ [mk_alloc (noteOperation "gap_fill" (ae_flight target)) c (ae_reason target)]);
  fi_spaced : ∀ exempt, spaced_except p exempt entries → spaced_except p exempt l;
  fi_earlier : ns c < ns limit;
  fi_bound : ns (promotionLowerBound p (ae_flight target) at_) ≤ ns c;
  fi_unblocked : ¬ blocked p c
}.

Lemma fill_lower_ge f crossed : ns (promotionLowerBound p f at_) ≤ ns (fill_lower p at_ f crossed).
Proof using Type.
  unfold fill_lower. cbv zeta.
  assert (H0 : ns (promotionLowerBound p f at_) ≤
    ns (match fl_SlotNotBefore f with Some t => raise_bound (promotionLowerBound p f at_) t | None => promotionLowerBound p f at_ end)).
  { destruct (fl_SlotNotBefore f); [apply raise_bound_ge|done]. }
  revert H0. generalize (match fl_SlotNotBefore f with Some t => raise_bound (promotionLowerBound p f at_) t | None => promotionLowerBound p f at_ end).
  induction crossed as [|e l IH]; intros t Ht; [done|]. simpl. apply IH. destruct (canPassForSTARGap _ _); [done|].
  etrans; [exact Ht|apply raise_bound_ge].
Qed.

Lemma fill_with_filler entries gap index leading trailing target l :
  fill_with p at_ entries gap index leading trailing target = Ok (Some l) →
  ∃ c, filler entries index target (ae_time trailing) l c.
Proof using Hwf Hcont.
  unfold fill_with. cbv zeta. set (f := ae_flight target). set (crossed := drop _ _).
  destruct (negb (before _ _)); [done|].
  destruct (match last (take index entries) with Some _ => _ | None => false end) eqn:Ex; [done|].
  intros E. bind_inv E. bind_inv E. destruct r0 as [c|]; [|done]. injection E as <-.
  destruct r as [t|]; [|by rewrite fill_attempts_None in E1].
  apply fill_attempts_facts in E1 as (H1 & H2 & H3 & H4 & H5).
  - exists c. split; [done| |done| |done].
    + intros exempt Hs. apply insert_spaced with f; [|done|done|apply noteOperation_spacing]. apply remove_spaced; [done|]. intros a b Ha Hb.
      rewrite Ha, Hb in Ex. by apply negb_false_iff in Ex.
    + pose proof (fill_lower_ge f crossed).
      apply next_grid_continuous in E0 as (Hle & _ & _); [|done..]. specialize (H5 t eq_refl).
      pose proof (raise_bound_ge (fill_lower p at_ f crossed) (time_add (ae_time leading)
          (requiredGap p (ae_flight leading) f (fill_lower p at_ f crossed)))) as [? _]. unfold f in *. lia.
  - intros ? [= <-]. by apply next_grid_continuous in E0 as (_ & ? & ?).
Qed.

Lemma fill_gap_filler entries moved gap l callsign :
  fill_gap p at_ entries moved gap = Ok (Some (l, callsign)) →
  ∃ index target j trailing c, entries !! index = Some target ∧ gapFillEligible (ae_flight target) = true ∧
    fl_Callsign (ae_flight target) = callsign ∧ (callsign ∉ moved) ∧
    (j < index)%nat ∧ entries !! j = Some trailing ∧ filler entries index target (ae_time trailing) l c.
Proof using Hwf Hcont.
  unfold fill_gap. intros E. bind_inv E. destruct (str_empty _); [done|].
  destruct (list_find _ _) as [[offset trailing]|] eqn:Ef; [|done]. cbv zeta in E. destruct (_ <=? _); [done|].
  apply list_find_Some in Ef as (Ht & _). rewrite lookup_drop in Ht.
  apply first_found_Some in E as (index & Hindex & E). bind_inv E. apply deref_ok in E1.
  destruct (bool_decide _ || _ || _) eqn:Ec; [done|]. apply orb_false_iff in Ec as [Ec _]. apply orb_false_iff in Ec as [Em Eg].
  bind_inv E. destruct r1 as [l'|]; [|done]. injection E as -> <-.
  apply fill_with_filler in E2 as (c & Hf). apply elem_of_seq in Hindex.
  exists index, r0, (gap + 1 + offset)%nat, trailing, c.
  split_and!; [done|by apply negb_false_iff|done|by apply bool_decide_eq_false in Em|lia|done|done].
Qed.

(** An entry left alone, or a flight moved forward into a gap. *)
Definition gap_filled (l0 : list allocatedEntry) (e : allocatedEntry) : Prop :=
  e ∈ l0 ∨ ∃ e0, e0 ∈ l0 ∧ ae_flight e = noteOperation "gap_fill" (ae_flight e0) ∧
    gapFillEligible (ae_flight e0) = true ∧ ns (ae_time e) < ns (ae_time e0) ∧
    ns (promotionLowerBound p (ae_flight e0) at_) ≤ ns (ae_time e) ∧ ¬ blocked p (ae_time e).

Record filling (exempt : allocatedEntry → allocatedEntry → Prop) (l0 entries : list allocatedEntry) (moved : gset string) : Prop := {
  fg_spaced : spaced_except p exempt entries;
  fg_callsigns : callsigns entries ≡ₚ callsigns l0;
  fg_filled : Forall (λ e, gap_filled l0 e ∧ (fl_Callsign (ae_flight e) ∉ moved → e ∈ l0)) entries
}.

Lemma callsigns_replace entries index target x :
  entries !! index = Some target → fl_Callsign (ae_flight x) = fl_Callsign (ae_flight target) →
  callsigns (sortEntries ((take index entries ++ drop (S index) entries) ++ [x])) ≡ₚ callsigns entries.
Proof using Type.
  intros Hi Hx. unfold callsigns. rewrite sortEntries_perm. rewrite <-(take_drop_middle entries index target Hi) at 3.
  rewrite !fmap_app, fmap_cons, <-app_assoc. apply Permutation_app_head.
  change (?a ++ (?f <$> [x])) with (a ++ [fl_Callsign (ae_flight x)]). rewrite Hx. by rewrite Permutation_app_comm.
Qed.

Lemma filling_step exempt l0 entries moved gap l callsign :
  filling exempt l0 entries moved → fill_gap p at_ entries moved gap = Ok (Some (l, callsign)) →
  filling exempt l0 l ({[callsign]} ∪ moved).
Proof using Hwf Hcont.
  intros [Hs Hc Hf] (index & target & j & trailing & c & Hi & Hg & Hcs & Hm & Hj & Ht & Hfi)%fill_gap_filler.
  pose proof (fi_result _ _ _ _ _ _ Hfi) as Hl. split; [by apply (fi_spaced _ _ _ _ _ _ Hfi exempt)| |].
  - rewrite Hl, (callsigns_replace entries index target) by (done || apply noteOperation_callsign). done.
  - rewrite Hl. apply (Forall_perm _ _ _ (sortEntries_perm _)). rewrite !Forall_app.
    assert (Hf' : Forall (λ e, gap_filled l0 e ∧ (fl_Callsign (ae_flight e) ∉ {[callsign]} ∪ moved → e ∈ l0)) entries).
    { eapply Forall_impl; [exact Hf|]. intros e [He1 He2]. split; [done|]. intros Hne. apply He2. intros Hin.
      apply Hne, elem_of_union. by right. }
    split_and!; [by apply Forall_take|by apply Forall_drop|]. apply Forall_singleton.
    rewrite Forall_lookup in Hf. destruct (Hf index target Hi) as [_ Htarget]. rewrite Hcs in Htarget. specialize (Htarget Hm).
    assert (Hcx : fl_Callsign (noteOperation "gap_fill" (ae_flight target)) = callsign) by by rewrite noteOperation_callsign.
    split; [right|intros Hne; exfalso; apply Hne; cbn [ae_flight]; rewrite Hcx; set_solver].
    exists target. cbn [ae_flight ae_time]. split_and!; [done|done|done| |apply Hfi|apply Hfi].
    pose proof (fi_earlier _ _ _ _ _ _ Hfi).
    assert (entry_ns trailing ≤ entry_ns target); [|unfold entry_ns in *; lia].
    eapply (chain_trans_lookup (λ a b, entry_ns a ≤ entry_ns b) entries j index);
      [intros; lia|apply settled_ordered, Hs|done..].
Qed.

Lemma fill_rounds_filling exempt rounds l0 entries moved l :
  filling exempt l0 entries moved → fill_rounds rounds p at_ entries moved = Ok l → ∃ moved', filling exempt l0 l moved'.
Proof using Hwf Hcont.
  revert entries moved. induction rounds as [|n IH]; intros entries moved He E; simpl in E; [injection E as <-; eauto|].
  bind_inv E. destruct r as [[l' callsign]|]; [|injection E as <-; eauto].
  apply first_found_Some in E0 as (gap & _ & E0). eapply IH; [|exact E]. by eapply filling_step.
Qed.
(** *** Gap filling ends *)

Lemma first_found_returns {A B} (try : A → outcome (option B)) l :
  (∀ a, a ∈ l → returns (try a)) → returns (first_found try l).
Proof using Type.
  induction l as [|a l IH]; intros Htry; [done|]. simpl. apply returns_bind; [apply Htry; left|].
  intros [b|] _; [done|]. apply IH. intros a' Ha. apply Htry. by right.
Qed.

Lemma fill_attempts_returns attempts remaining f limit first :
  grid_horizon p → returns (fill_attempts attempts p remaining f limit first).
Proof using Hwf.
  intros Hh. revert first. induction attempts as [|n IH]; intros [t|]; [done..| |done]. simpl.
  destruct (negb _); [done|]. destruct (pl_valid _); [done|]. apply returns_bind; [by apply next_grid_returns|].
  intros; apply IH.
Qed.

Lemma fill_gap_returns entries moved gap :
  grid_horizon p → (gap < length entries)%nat → returns (fill_gap p at_ entries moved gap).
Proof using Hwf.
  intros Hh [leading Hl]%lookup_lt_is_Some. unfold fill_gap. rewrite Hl. apply returns_bind; [done|]. intros ? [= <-].
  cbv zeta. destruct (str_empty _); [done|]. destruct (list_find _ _) as [[offset trailing]|]; [|done].
  destruct (_ <=? _); [done|]. apply first_found_returns. intros index Hi%elem_of_seq.
  destruct (entries !! index) as [target|] eqn:Et; [|apply lookup_ge_None in Et; lia].
  apply returns_bind; [done|]. intros ? [= <-]. destruct (_ || _); [done|]. apply returns_bind; [|done].
  unfold fill_with. cbv zeta. destruct (negb _); [done|]. destruct (match last _ with Some _ => _ | None => _ end); [done|].
  apply returns_bind; [by apply next_grid_returns|]. intros first _.
  apply returns_bind; [by apply fill_attempts_returns|]. by intros [?|] _.
Qed.

Lemma fill_rounds_returns rounds entries moved : grid_horizon p → returns (fill_rounds rounds p at_ entries moved).
Proof using Hwf.
  intros Hh. revert entries moved. induction rounds as [|n IH]; intros entries moved; [done|]. simpl.
  apply returns_bind; [|intros [[l callsign]|] _; [apply IH|done]].
  apply first_found_returns. intros gap Hg%elem_of_seq. apply fill_gap_returns; [done|lia].
Qed.

Lemma filling_facts exempt entries l :
  spaced_except p exempt entries → fillSTARSpacingGaps p entries at_ = Ok l →
  spaced_except p exempt l ∧ callsigns l ≡ₚ callsigns entries ∧ Forall (gap_filled entries) l.
Proof using Hwf Hcont.
  intros Hs E. unfold fillSTARSpacingGaps in E. assert (H0 : filling exempt entries entries ∅).
  { split; [done|done|]. apply Forall_forall. intros e He. split; [by left|done]. }
  assert (H1 : ∃ moved, filling exempt entries l moved).
  { destruct (negb _); [injection E as <-; eauto|]. by eapply fill_rounds_filling. }
  destruct H1 as [moved [H1 H2 H3]]. split_and!; [done|done|]. eapply Forall_impl; [exact H3|]. by intros e [? _].
Qed.
End filling.

(** Filling same-STAR gaps always ends. It keeps the runway sequence in
    order and every neighbouring pair separated, loses and adds no flight, and
    only moves eligible flights forward, onto unblocked slots not before their
    promotion bound; every other entry is left as it was. *)
Theorem fillSTARSpacingGaps_correct p at_ entries :
  grid_wf p → grid_horizon p → po_ContinuousSpacing p = true → spaced_sequence p entries →
  returns (fillSTARSpacingGaps p entries at_) ∧
  ∀ l, fillSTARSpacingGaps p entries at_ = Ok l →
    spaced_sequence p l ∧ callsigns l ≡ₚ callsigns entries ∧ Forall (gap_filled p at_ entries) l.
Proof.
  intros Hwf Hh Hc Hs. split; [unfold fillSTARSpacingGaps; destruct (negb _); [done|by apply fill_rounds_returns]|].
  intros l E. rewrite spaced_sequence_except in *. by apply filling_facts.
Qed.

(** ** Instances *)

(** Two arrivals of one STAR family with an empty slot between them, and a
    third of another stream that may use it. *)
Definition ex_gap_policy : Policy :=
  mk_policy ex_group true true [mk_rate (clock 0 0) 30] [] [] (30 * Second)
    CPHSeparationRules (3 * Minute) (mk_spacing true 1 1).

Definition ex_stream (callsign family : string) (slot : Time) (sequence : Z) : Flight :=
  mk_flight [] callsign ex_group StateStable (Some slot) (clock 20 0) None (Some (clock 15 0)) "M" family family None None
    FreezeNone None None None (Some (ex_slot slot sequence)) "" None "" None 0 None None false None true None false false None.

Definition ex_gap_input : Input :=
  mk_input 1 [ex_gap_policy] []
    [ex_stream "SAS1" "ERNOV" (clock 20 0) 1; ex_stream "SAS2" "ERNOV" (clock 24 0) 2; ex_stream "SAS3" "TUDLO" (clock 26 0) 3].

Definition ex_gap_prepared : preparedPolicy * list preparedFlight :=
  match prepareInput ex_gap_input with
  | Ok (policies, prepared) => (default ex_prepared (policies !! ex_group), default [] (prepared !! ex_group))
  | _ => (ex_prepared, [])
  end.

Definition ex_gap_entries : list allocatedEntry :=
  match queueEntries 1 (snd ex_gap_prepared) with Ok l => allocated_of <$> l | _ => [] end.

Definition ex_gap_filled : list allocatedEntry :=
  match fillSTARSpacingGaps (fst ex_gap_prepared) ex_gap_entries (clock 10 0) with Ok l => l | _ => [] end.

Lemma ex_gap_typed : typed_input ex_gap_input.
Proof.
  assert (H30 : in_uint32 30) by (split; [done|reflexivity]).
  apply Forall_singleton. destruct (ex_policy_typed 30 [] [] H30) as (H1 & H2 & H3 & H4).
  exact (conj H1 (conj H2 (conj H3 H4))).
Qed.

Lemma ex_gap_wf :
  grid_wf (fst ex_gap_prepared) ∧ po_ContinuousSpacing (fst ex_gap_prepared) = true.
Proof.
  destruct (prepareInput ex_gap_input) as [[policies prepared]| | |] eqn:E; [|vm_compute in E; discriminate..].
  destruct (policies !! ex_group) as [p|] eqn:Ep.
  - unfold ex_gap_prepared. rewrite E, Ep. simpl.
    destruct (prepared_continuous ex_gap_input policies prepared ex_group p) as [Hwf Hc];
      [exact ex_gap_typed|by repeat constructor|exact E|exact Ep|]. split; [apply Hwf|exact Hc].
  - exfalso. assert (Hk : match prepareInput ex_gap_input with Ok (m, _) => is_nil (m !! ex_group) | _ => true end = false)
      by (vm_compute; reflexivity). rewrite E, Ep in Hk. discriminate.
Qed.

Lemma fillSTARSpacingGaps_correct_witness :
  (λ e : allocatedEntry, (fl_Callsign (ae_flight e), ae_time e)) <$> ex_gap_filled =
    [("SAS1"%string, clock 20 0); ("SAS3"%string, clock 22 0); ("SAS2"%string, clock 24 0)] ∧
  returns (fillSTARSpacingGaps (fst ex_gap_prepared) ex_gap_entries (clock 10 0)) ∧
  spaced_sequence (fst ex_gap_prepared) ex_gap_filled ∧ callsigns ex_gap_filled ≡ₚ callsigns ex_gap_entries ∧
  Forall (gap_filled (fst ex_gap_prepared) (clock 10 0) ex_gap_entries) ex_gap_filled.
Proof.
  split; [vm_compute; reflexivity|]. destruct ex_gap_wf as [Hwf Hc].
  refine ((λ H, conj (proj1 H) (proj2 H ex_gap_filled _))
            (fillSTARSpacingGaps_correct (fst ex_gap_prepared) (clock 10 0) ex_gap_entries Hwf _ Hc _));
    [vm_compute; reflexivity|split; repeat constructor; vm_compute; discriminate|].
  assert (Hadj : chain (λ a b, adjacentValid (fst ex_gap_prepared) a b = true) ex_gap_entries) by (vm_compute; auto).
  split; [by eapply adjacent_settled| |exact Hadj].
  apply Forall_forall. intros e He. unfold entry_started, started.
  assert (Hall : forallb (λ e, 0 <? intervalAt (fst ex_gap_prepared) (ae_time e)) ex_gap_entries = true) by (vm_compute; reflexivity).
  rewrite forallb_forall in Hall. apply Z.ltb_lt, Hall. by apply list_elem_of_In.
Defined.

Lemma snapshot_is_allocator_witness :
  sameSTARGap (fst ex_gap_prepared) (nth 0 (snd ex_gap_prepared) ex_around_moving) (nth 1 (snd ex_gap_prepared) ex_around_moving)
    (allocation_at (nth 1 (snd ex_gap_prepared) ex_around_moving)) = 4 * Minute ∧
  sameSTARGap (fst ex_gap_prepared) (nth 0 (snd ex_gap_prepared) ex_around_moving) (nth 1 (snd ex_gap_prepared) ex_around_moving)
    (allocation_at (nth 1 (snd ex_gap_prepared) ex_around_moving)) =
    if ss_Active (snapshot ex_group (fst ex_gap_prepared) (nth 1 (snd ex_gap_prepared) ex_around_moving))
    then dur_mul (u32 (ss_MinimumEmptySlots (spacingFor (pp_starFamilies (fst ex_gap_prepared))
           (fl_STARFamily (nth 1 (snd ex_gap_prepared) ex_around_moving)) (po_SameSTARSpacing (fst ex_gap_prepared))).1 + 1))
           (rateInterval (rateAt (fst ex_gap_prepared) (allocation_at (nth 1 (snd ex_gap_prepared) ex_around_moving))))
    else 0.
Proof.
  split; [vm_compute; reflexivity|].
  apply snapshot_is_allocator; [apply ex_gap_wf|vm_compute; repeat split; discriminate|vm_compute; reflexivity].
Defined.
