(* ===== verification/SequenceRebuild.v ===== *)
(** * Rebuild of the arrival sequence

    [rebuild.go]: [ApplyArrivalSequenceRebuild]. A rebuild keeps the flights
    that are frozen by a controller or have no usable timing, places the
    arrivals inside the terminal area by their estimates, then the aircraft in
    the holds, whose stacks are merged by holding age from the lowest level up,
    and last the inbound rest. Releases from the holds are in merge order, and
    a minute apart within a hold.

    The code ranges over maps of runway groups, flights and queues; what it
    appends there it sorts afterwards, and the sort keys are distinct as
    callsigns are, so the model visits the maps in any one order. Only which of
    several errors is reported can depend on it. *)

From S2P Require Import Prelude GoTime SequenceData SequenceGrid SequenceSpacing SequenceOrder.
From S2P Require Import SequencePlacement SequenceAllocation SequenceOptimize SequencePrepare SequenceEngine SequenceExamples.
From S2P Require Import SequenceCommands SequencePolicy SequenceGoAround SequenceQueue SequenceGapFill.

Local Open Scope Z_scope.

(** ** Data *)

Record RebuildDiagnostic := mk_diagnostic {
  dg_Code : string;
  dg_Callsign : string;
  dg_Blocker : option string;
  dg_Message : string
}.

Record ArrivalSequenceRebuildOutcome := mk_rebuild_outcome {
  ro_ReleaseOrder : list string;
  ro_Diagnostics : list RebuildDiagnostic
}.

Record RebuildDecision := mk_rebuild_decision {
  rbd_Decision : Decision;
  rbd_Outcome : ArrivalSequenceRebuildOutcome
}.

Definition diagnose (code message : string) (f : Flight) : RebuildDiagnostic :=
  mk_diagnostic code (fl_Callsign f) None message.

(** ** The working input *)

(** In a hold, but without the evidence a release needs. *)
Definition unevidenced (f : Flight) : bool :=
  negb (str_empty (fl_HoldingStackID f) || fl_RebuildTMA f) &&
  (is_nil (fl_HoldingAltitudeFeet f) || is_nil (fl_HoldingStartedAt f) || (fl_HoldingTransit f <=? 0)).

Definition blocked_holds (flights : list Flight) : gset string :=
  list_to_set (fl_HoldingStackID <$> filter (λ f, unevidenced f = true) flights).

Definition evidence_diagnostics (flights : list Flight) : list RebuildDiagnostic :=
  diagnose "holding_evidence_unavailable"
    "Holding level, entry time or fix-to-runway transit is unavailable; reservations in this hold are retained"
    <$> filter (λ f, unevidenced f = true) flights.

Definition routinely_frozen (f : Flight) : bool :=
  freeze_is (fl_FreezeReason f) FreezeSuperstable || freeze_is (fl_FreezeReason f) FreezeTMA.

Definition lift_freeze (f : Flight) : Flight :=
  set_CapturedSlot None (set_FrozenOperationalTETA None (set_FrozenAt None (set_FreezeReason FreezeNone f))).

(** The body of the loop over the working flights. *)
Definition rebuild_flight (blocked : gset string) (f : Flight) : Flight :=
  let f := set_ReleaseRank None (set_ManualOrder None f) in
  let f := if negb (fl_RebuildTMA f) && bool_decide (fl_HoldingStackID f ∈ blocked) then set_RebuildRetained true f else f in
  if negb (fl_RebuildRetained f) && negb (freeze_is (fl_FreezeReason f) FreezeManual) then
    let f := set_ProtectCurrentSlot false f in
    if routinely_frozen f then lift_freeze f else f
  else if unfrozen f && not_nil (fl_CurrentSlot f) then set_ProtectCurrentSlot true f
  else f.

Definition rebuild_input (input : Input) : Input :=
  set_Flights (rebuild_flight (blocked_holds (in_Flights input)) <$> in_Flights input) input.

(** ** Retained flights *)

Definition isRetained (f : Flight) : bool := fl_RebuildRetained f || frozen (fl_FreezeReason f).

(** [allocated], [tmaLast] and the diagnostics of the outcome. *)
Record rebuild := mk_rebuild {
  rs_allocated : gmap string (list allocatedEntry);
  rs_tmaLast : gmap string Time;
  rs_diagnostics : list RebuildDiagnostic
}.

Definition entries_in {A} (m : gmap string (list A)) (group : string) : list A :=
  default [] (m !! group).
Definition last_in (m : gmap string Time) (group : string) : Time := default zero_time (m !! group).

Definition retained_slot (f : Flight) : option Slot :=
  match fl_CapturedSlot f with Some slot => Some slot | None => fl_CurrentSlot f end.

Definition no_timing (f : Flight) : RebuildDiagnostic :=
  diagnose "retained_without_slot" "Aircraft cannot be rebuilt without usable timing" f.

(** The last argument of [tmaLast] raised to [t]. *)
Definition raise_last (m : gmap string Time) (group : string) (t : Time) : gmap string Time :=
  if after t (last_in m group) then <[group := t]> m else m.

Definition retain_one (p : preparedPolicy) (group : string) (s : rebuild) (f : preparedFlight) : outcome rebuild :=
  if negb (isRetained f) then Ok s
  else
    match retained_slot f with
    | None => Ok (mk_rebuild (rs_allocated s) (rs_tmaLast s) (rs_diagnostics s ++ [no_timing f]))
    | Some slot =>
        _ ← guard_err (not_nil (blockingClosure p (sl_Time slot)) || (intervalAt p (sl_Time slot) =? 0))
              (invalidTransition "retained slot is incompatible with runway availability" []);
        Ok (mk_rebuild
              (<[group := entries_in (rs_allocated s) group ++ [mk_alloc f (sl_Time slot) (protectedReason f)]]> (rs_allocated s))
              (if fl_RebuildTMA f then raise_last (rs_tmaLast s) group (sl_Time slot) else rs_tmaLast s)
              (rs_diagnostics s))
    end.

Definition retained_conflict (a b : allocatedEntry) : error :=
  invalidTransition "retained reservations %s and %s violate runway separation"
    [AStr (fl_Callsign (ae_flight a)); AStr (fl_Callsign (ae_flight b))].

(** Retained reservations from [at_] on keep the separation. *)
Fixpoint check_retained (p : preparedPolicy) (at_ : Time) (entries : list allocatedEntry) : outcome unit :=
  match entries with
  | a :: (b :: _) as rest =>
      _ ← guard_err (negb (before (ae_time b) at_) && negb (adjacentValid p a b)) (retained_conflict a b);
      check_retained p at_ rest
  | _ => Ok tt
  end.

Definition sort_group (group : string) (m : gmap string (list allocatedEntry)) : gmap string (list allocatedEntry) :=
  match m !! group with Some entries => <[group := sortEntries entries]> m | None => m end.

Definition retain_group (policies : gmap string preparedPolicy) (at_ : Time) (s : rebuild)
    (gf : string * list preparedFlight) : outcome rebuild :=
  let '(group, flights) := gf in
  p ← deref (policies !! group);
  s ← fold_outcome (retain_one p group) s flights;
  let s := mk_rebuild (sort_group group (rs_allocated s)) (rs_tmaLast s) (rs_diagnostics s) in
  _ ← check_retained p at_ (entries_in (rs_allocated s) group);
  Ok s.

(** ** Placing a flight *)

(** [findCandidate], [append] and [sortEntries] with the flight's own bound. *)
Definition place (policies : gmap string preparedPolicy) (wrap : error → error) (s : rebuild) (f : preparedFlight)
  : outcome (Time * rebuild) :=
  let group := fl_RunwayGroupID f in
  p ← deref (policies !! group);
  let entries := entries_in (rs_allocated s) group in
  candidate ← match findCandidate p entries f with Err e => Err (wrap e) | r => r end;
  Ok (candidate,
      mk_rebuild (<[group := sortEntries (entries ++ [mk_alloc f candidate ReasonRateWTC])]> (rs_allocated s))
        (rs_tmaLast s) (rs_diagnostics s)).

Definition raise_to (lower : Time) (t : option Time) : Time :=
  match t with Some t => later_of lower t | None => lower end.

(** Queue evidence no longer binds; [lower] does. *)
Definition rebuilt_bound (lower : Time) (f : preparedFlight) : preparedFlight :=
  set_stableOrder None
    (map_Flight (λ f, set_ArrivalQueueTime None (set_ActiveHoldingSince None (set_HoldingQueueTime None
                        (set_SlotNotBefore (Some lower) f)))) f).

(** ** Arrivals inside the terminal area *)

Definition teta_less (a b : preparedFlight) : bool :=
  if negb (time_eqb (fl_OperationalTETA a) (fl_OperationalTETA b)) then before (fl_OperationalTETA a) (fl_OperationalTETA b)
  else str_ltb (fl_Callsign a) (fl_Callsign b).

Definition tma_lower (at_ last_ : Time) (f : preparedFlight) : Time :=
  let lower := later_of (time_add at_ Second) (fl_OperationalTETA f) in
  raise_to (later_of lower last_) (fl_SlotNotBefore f).

Definition tma_step (policies : gmap string preparedPolicy) (at_ : Time) (s : rebuild) (f : preparedFlight) : outcome rebuild :=
  let group := fl_RunwayGroupID f in
  let f := rebuilt_bound (tma_lower at_ (last_in (rs_tmaLast s) group) f) f in
  '(candidate, s) ← place policies id s f;
  Ok (mk_rebuild (rs_allocated s) (<[group := candidate]> (rs_tmaLast s)) (rs_diagnostics s)).

(** Retained reservations ahead of the terminal-area traffic are reported. *)
Definition priority_exception (tmaLast : Time) (e : allocatedEntry) : option RebuildDiagnostic :=
  if isRetained (ae_flight e) && negb (fl_RebuildTMA (ae_flight e)) && before (ae_time e) tmaLast
  then Some (diagnose "protected_tma_priority_exception" "Retained reservation precedes traffic already in the TMA" (ae_flight e))
  else None.

Definition priority_exceptions (s : rebuild) : list RebuildDiagnostic :=
  map_to_list (rs_allocated s) ≫= λ '(group, entries), omap (priority_exception (last_in (rs_tmaLast s) group)) entries.

(** ** The holds *)

(** The code dereferences [HoldingStartedAt] and [HoldingAltitudeFeet] here; the
    flights of a hold that is not blocked have both ([queued_evidence]). *)
Definition holdingAgeLess (a b : preparedFlight) : bool :=
  let x := default zero_time (fl_HoldingStartedAt a) in
  let y := default zero_time (fl_HoldingStartedAt b) in
  if negb (time_eqb x y) then before x y else str_ltb (fl_Callsign a) (fl_Callsign b).

Definition stack_less (a b : preparedFlight) : bool :=
  let x := default 0 (fl_HoldingAltitudeFeet a) in
  let y := default 0 (fl_HoldingAltitudeFeet b) in
  if negb (x =? y) then x <? y else holdingAgeLess a b.

(** A stack, with the lowest aircraft first. *)
Abbreviation stacks := (gmap string (list preparedFlight)).

Definition queue_flight (queues : stacks) (f : preparedFlight) : stacks :=
  <[fl_HoldingStackID f := entries_in queues (fl_HoldingStackID f) ++ [f]]> queues.

Definition hold_queues (held : list preparedFlight) : stacks :=
  sort_slice stack_less <$> foldl queue_flight ∅ held.

(** The oldest head of the stacks. *)
Definition older_head (selected : option (string * preparedFlight)) (q : string * list preparedFlight)
  : option (string * preparedFlight) :=
  match q.2, selected with
  | [], _ => selected
  | f :: _, None => Some (q.1, f)
  | f :: _, Some (_, oldest) => if holdingAgeLess f oldest then Some (q.1, f) else selected
  end.

Definition merge_step (s : stacks * list preparedFlight) : outcome (stacks * list preparedFlight + list preparedFlight) :=
  let '(queues, ordered) := s in
  if bool_decide (queues = ∅) then Ok (inr ordered)
  else
    '(selected, f) ← deref (foldl older_head None (map_to_list queues));
    let rest := tail (entries_in queues selected) in
    Ok (inl (match rest with [] => delete selected queues | _ => <[selected := rest]> queues end, ordered ++ [f])).

(** Every turn takes a flight out of the stacks. *)
Definition merge_stacks (held : list preparedFlight) : outcome (list preparedFlight) :=
  iterate (Pos.of_succ_nat (length held)) merge_step (hold_queues held, []).

(** The state of the loop over the merged holds. *)
Record holding_state := mk_holding_state {
  hs_rebuild : rebuild;
  hs_working : Input;
  hs_releases : gmap string Time;
  hs_globalRelease : Time;
  hs_heldLast : gmap string Time
}.

Definition release_exception (s : holding_state) (f : Flight) (release : Time) : bool :=
  before release (hs_globalRelease s) ||
  (negb (is_zero (last_in (hs_releases s) (fl_HoldingStackID f))) &&
   before release (time_add (last_in (hs_releases s) (fl_HoldingStackID f)) Minute)).

(** The release of a retained flight, from its current slot. *)
Definition retained_release (s : holding_state) (f : preparedFlight) : holding_state :=
  match fl_CurrentSlot f with
  | None => s
  | Some slot =>
      let release := time_add (sl_Time slot) (dur_neg (fl_HoldingTransit f)) in
      let r := hs_rebuild s in
      let diagnostics := if release_exception s f release
        then [diagnose "protected_release_exception"
                "Retained reservation conflicts with the preferred release order; the calculated EAT remains available" f]
        else [] in
      mk_holding_state (mk_rebuild (rs_allocated r) (rs_tmaLast r) (rs_diagnostics r ++ diagnostics))
        (hs_working s) (raise_last (hs_releases s) (fl_HoldingStackID f) release)
        (later_of (hs_globalRelease s) release) (raise_last (hs_heldLast s) (fl_RunwayGroupID f) (sl_Time slot))
  end.

(** The bound of a released flight: behind the previous release, a minute behind
    the previous one of its hold, and behind the terminal-area traffic. *)
Definition held_lower (s : holding_state) (f : preparedFlight) : Time :=
  let previous := last_in (hs_releases s) (fl_HoldingStackID f) in
  let lower := hs_globalRelease s in
  let lower := if negb (is_zero previous) then later_of lower (time_add previous Minute) else lower in
  let lower := raise_to (time_add lower (fl_HoldingTransit f)) (fl_SlotNotBefore f) in
  later_of lower (last_in (rs_tmaLast (hs_rebuild s)) (fl_RunwayGroupID f)).

Definition cannot_allocate (f : Flight) (e : error) : error :=
  invalidTransition "rebuild cannot allocate %s: %v" [AStr (fl_Callsign f); AErr e].

Definition held_step (policies : gmap string preparedPolicy) (s : holding_state) (rf : nat * preparedFlight)
  : outcome holding_state :=
  let '(rank, f) := rf in
  let value := Some (Z.of_nat rank + 1) in
  let f := map_Flight (set_ReleaseRank value) f in
  index ← deref (flightIndex (in_Flights (hs_working s)) (fl_Callsign f));
  let s := mk_holding_state (hs_rebuild s) (update_flight index (set_ReleaseRank value) (hs_working s))
             (hs_releases s) (hs_globalRelease s) (hs_heldLast s) in
  if isRetained f then Ok (retained_release s f)
  else
    let lower := held_lower s f in
    let f := rebuilt_bound lower (map_Flight (set_OperationalTETA lower) f) in
    '(candidate, r) ← place policies (cannot_allocate f) (hs_rebuild s) f;
    let release := time_add candidate (dur_neg (fl_HoldingTransit f)) in
    Ok (mk_holding_state r (hs_working s) (<[fl_HoldingStackID f := release]> (hs_releases s)) release
          (raise_last (hs_heldLast s) (fl_RunwayGroupID f) candidate)).

(** ** The inbound rest *)

Definition inbound_lower (at_ : Time) (tmaLast heldLast : gmap string Time) (f : preparedFlight) : Time :=
  raise_to (later_of (later_of at_ (last_in tmaLast (fl_RunwayGroupID f))) (last_in heldLast (fl_RunwayGroupID f)))
    (fl_SlotNotBefore f).

Definition inbound_step (policies : gmap string preparedPolicy) (at_ : Time) (heldLast : gmap string Time) (s : rebuild)
    (f : preparedFlight) : outcome rebuild :=
  '(_, s) ← place policies id s (rebuilt_bound (inbound_lower at_ (rs_tmaLast s) heldLast f) f);
  Ok s.

(** ** The result *)

Definition by_callsign (flights : list preparedFlight) (callsign : string) : option preparedFlight :=
  snd <$> list_find (λ f : preparedFlight, fl_Callsign f = callsign) flights.

(** Inbound traffic is bound by its own lower bound only again. *)
Definition restore_bound (flights : list preparedFlight) (e : allocatedEntry) : allocatedEntry :=
  let f := ae_flight e in
  if is_nil (fl_ReleaseRank f) && negb (fl_RebuildTMA f) && negb (isRetained f) then
    mk_alloc (map_Flight (set_SlotNotBefore (f0 ← by_callsign flights (fl_Callsign f); fl_SlotNotBefore (pf_Flight f0))) f)
      (ae_time e) (ae_reason e)
  else e.

Definition rebuild_entry (group : string) (index : nat) (e : allocatedEntry) : CandidateEntry :=
  let f := ae_flight e in
  mk_entry (fl_Callsign f) group (Z.of_nat index + 1) (ae_time e) (fl_OperationalTETA f) (pf_category f)
    (fl_FreezeReason f) (isRetained f) (ae_reason e).

Definition add_rebuild_entry (group : string) (r : Result) (ie : nat * allocatedEntry) : Result :=
  let '(index, e) := ie in
  let candidate := rebuild_entry group index e in
  mk_result (re_Operations r) (re_Entries r ++ [candidate])
    (re_Movements r ++ match movementFor (ae_flight e) candidate with Some m => [m] | None => [] end) (re_Warnings r).

Definition finish_group (policies : gmap string preparedPolicy) (flights : list preparedFlight) (at_ : Time)
    (allocated : gmap string (list allocatedEntry)) (r : Result) (group : string) : outcome Result :=
  p ← deref (policies !! group);
  filled ← fillSTARSpacingGaps p (restore_bound flights <$> entries_in allocated group) at_;
  Ok (foldl (add_rebuild_entry group) r (imap pair filled)).

Definition rebuild_result (policies : gmap string preparedPolicy) (flights : list preparedFlight) (at_ : Time)
    (allocated : gmap string (list allocatedEntry)) : outcome Result :=
  fold_outcome (finish_group policies flights at_ allocated) (mk_result [] [] [] [])
    (sort_slice str_ltb (map_to_list allocated).*1).

Definition diagnostic_less (a b : RebuildDiagnostic) : bool :=
  if negb (str_eqb (dg_Callsign a) (dg_Callsign b)) then str_ltb (dg_Callsign a) (dg_Callsign b)
  else str_ltb (dg_Code a) (dg_Code b).

(** ** The operation *)

Definition rebuilt_tma (f : Flight) : bool := fl_RebuildTMA f && negb (isRetained f).
Definition rebuilt_held (blocked : gset string) (f : Flight) : bool :=
  negb (rebuilt_tma f) && negb (str_empty (fl_HoldingStackID f)) && negb (bool_decide (fl_HoldingStackID f ∈ blocked)) &&
  negb (fl_RebuildTMA f).
Definition rebuilt_inbound (blocked : gset string) (f : Flight) : bool :=
  negb (rebuilt_tma f) && negb (rebuilt_held blocked f) && negb (isRetained f).

(** The flights of all groups, which the code collects in [byID]. *)
Definition all_flights (groups : gmap string (list preparedFlight)) : list preparedFlight :=
  map_to_list groups ≫= snd.

Definition rebuild_sequence (at_ : Time) (blocked : gset string) (working : Input)
    (policies : gmap string preparedPolicy) (groups : gmap string (list preparedFlight))
  : outcome (list string * holding_state * Result) :=
  let flights := all_flights groups in
  let sub (P : Flight → bool) := filter (λ f : preparedFlight, P f = true) flights in
  s ← fold_outcome (retain_group policies at_) (mk_rebuild ∅ ∅ []) (map_to_list groups);
  s ← fold_outcome (tma_step policies at_) s (sort_slice teta_less (sub rebuilt_tma));
  let s := mk_rebuild (rs_allocated s) (rs_tmaLast s) (rs_diagnostics s ++ priority_exceptions s) in
  ordered ← merge_stacks (sub (rebuilt_held blocked));
  h ← fold_outcome (held_step policies) (mk_holding_state s working ∅ (time_add at_ Second) ∅) (imap pair ordered);
  s ← fold_outcome (inbound_step policies at_ (hs_heldLast h)) (hs_rebuild h)
        (sort_slice teta_less (sub (rebuilt_inbound blocked)));
  r ← rebuild_result policies flights at_ (rs_allocated s);
  Ok ((λ f : preparedFlight, fl_Callsign f) <$> ordered,
      mk_holding_state s (hs_working h) (hs_releases h) (hs_globalRelease h) (hs_heldLast h), r).

Definition ApplyArrivalSequenceRebuild (input : Input) (at_ : Time) : outcome RebuildDecision :=
  _ ← guard_err (negb (validUTC at_)) (invalidArgument "rebuild requires a UTC calculation time" []);
  let blocked := blocked_holds (in_Flights input) in
  let working := rebuild_input input in
  '(policies, groups) ← prepareInput working;
  '(order, s, result) ← rebuild_sequence at_ blocked working policies groups;
  let diagnostics := sort_slice diagnostic_less
    (evidence_diagnostics (in_Flights input) ++ rs_diagnostics (hs_rebuild s)) in
  Ok (mk_rebuild_decision
        (mk_decision (hs_working s) result
           ((0 <? length (re_Movements result))%nat || negb (inputsEqualOrder input (hs_working s))))
        (mk_rebuild_outcome order diagnostics)).

(** ** The allocated entries of all groups *)

Definition flat {A} (m : gmap string (list A)) : list A := map_to_list m ≫= snd.

Lemma bind_fmap_snd {A} (l : list (string * list A)) : l ≫= snd = concat (snd <$> l).
Proof. induction l as [|[g x] l IH]; [done|]. rewrite bind_cons, fmap_cons. simpl. by rewrite IH. Qed.

Lemma concat_perm {A} (l k : list (list A)) : l ≡ₚ k → concat l ≡ₚ concat k.
Proof.
  induction 1 as [| |x y l|? ? ? ? IH1 ? IH2]; simpl; [done|by apply Permutation_app| |by rewrite IH1].
  rewrite !app_assoc. apply Permutation_app; [apply Permutation_app_comm|done].
Qed.

Lemma flat_delete {A} (m : gmap string (list A)) group : flat m ≡ₚ entries_in m group ++ flat (delete group m).
Proof.
  unfold flat, entries_in. rewrite !bind_fmap_snd. destruct (m !! group) as [l|] eqn:E.
  - rewrite <-(map_to_list_delete m group l E). done.
  - by rewrite delete_id by done.
Qed.

Lemma flat_insert {A} (m : gmap string (list A)) group l : flat (<[group := l]> m) ≡ₚ l ++ flat (delete group m).
Proof.
  rewrite (flat_delete _ group). unfold entries_in. rewrite lookup_insert_eq, delete_insert_eq. done.
Qed.

Lemma entries_flat {A} (m : gmap string (list A)) group e : e ∈ entries_in m group → e ∈ flat m.
Proof. rewrite (flat_delete m group), elem_of_app. by left. Qed.

Lemma flat_entries {A} (m : gmap string (list A)) e : e ∈ flat m → ∃ group, group ∈ (map_to_list m).*1 ∧ e ∈ entries_in m group.
Proof.
  unfold flat. rewrite list_elem_of_bind. intros ([group l] & He & Hm). exists group. split.
  - by apply (list_elem_of_fmap_2 fst) in Hm.
  - apply elem_of_map_to_list in Hm. unfold entries_in. by rewrite Hm.
Qed.

Lemma entries_insert {A} (m : gmap string (list A)) group l g :
  entries_in (<[group := l]> m) g = if decide (g = group) then l else entries_in m g.
Proof.
  unfold entries_in. case_decide as Hg; [by rewrite Hg, lookup_insert_eq|by rewrite lookup_insert_ne].
Qed.

Lemma last_insert m group t g : last_in (<[group := t]> m) g = if decide (g = group) then t else last_in m g.
Proof. unfold last_in. case_decide as Hg; [by rewrite Hg, lookup_insert_eq|by rewrite lookup_insert_ne]. Qed.

Lemma raise_last_ge m group t g :
  ns (last_in m g) ≤ ns (last_in (raise_last m group t) g) ∧ ns t ≤ ns (last_in (raise_last m group t) group).
Proof.
  unfold raise_last, after. destruct (Z.ltb_spec (ns (last_in m group)) (ns t)); [|lia]. rewrite !last_insert.
  split; case_decide; subst; try done; lia.
Qed.

Lemma raise_to_ge lower t : ns lower ≤ ns (raise_to lower t) ∧ ∀ u, t = Some u → ns u ≤ ns (raise_to lower t).
Proof.
  destruct t as [u|]; simpl; [|done]. pose proof (later_of_ge lower u). split; [lia|]. intros ? [= <-]. lia.
Qed.

(** ** Retained flights *)

Definition retained_entry (f : preparedFlight) : option allocatedEntry :=
  if isRetained f
  then option_map (λ slot, mk_alloc f (sl_Time slot) (protectedReason f)) (retained_slot f) else None.

(** A retained flight without a slot is left out and reported. *)
Definition untimed (f : Flight) : bool := isRetained f && is_nil (retained_slot f).

Lemma retain_one_spec p group s f s' :
  grid_wf p → retain_one p group s f = Ok s' →
  entries_in (rs_allocated s') group = entries_in (rs_allocated s) group ++ option_list (retained_entry f) ∧
  (∀ g, g ≠ group → rs_allocated s' !! g = rs_allocated s !! g) ∧
  rs_diagnostics s' = rs_diagnostics s ++ (no_timing <$> filter (λ f, untimed f = true) [pf_Flight f]) ∧
  Forall (entry_started p) (option_list (retained_entry f)).
Proof.
  intros Hwf. unfold retain_one, retained_entry, untimed. rewrite filter_cons, filter_nil.
  destruct (isRetained f) eqn:Er; cbn [negb andb].
  2:{ intros [= <-]. simpl. by rewrite !app_nil_r. }
  destruct (retained_slot f) as [slot|]; cbn [is_nil option_map option_list].
  - rewrite bind_unit_iff, guard_err_iff. intros [Hc [= <-]]. simpl.
    rewrite entries_insert, decide_True by done. split_and!; [done| |by rewrite app_nil_r|].
    + intros g Hg. by rewrite lookup_insert_ne.
    + apply Forall_singleton. unfold entry_started, started. simpl. bsplit. zbool.
      pose proof (intervalAt_nonneg p (sl_Time slot) Hwf). lia.
  - intros [= <-]. simpl. by rewrite app_nil_r.
Qed.

Lemma retain_fold_spec p group s flights s' :
  grid_wf p → fold_outcome (retain_one p group) s flights = Ok s' →
  entries_in (rs_allocated s') group = entries_in (rs_allocated s) group ++ omap retained_entry flights ∧
  (∀ g, g ≠ group → rs_allocated s' !! g = rs_allocated s !! g) ∧
  rs_diagnostics s' = rs_diagnostics s ++ (no_timing <$> filter (λ f, untimed f = true) (pf_Flight <$> flights)) ∧
  Forall (entry_started p) (omap retained_entry flights).
Proof.
  intros Hwf. revert s. induction flights as [|f l IH]; intros s E; simpl in E.
  - injection E as <-. simpl. by rewrite !app_nil_r.
  - bind_inv E. apply retain_one_spec in E0 as (H1 & H2 & H3 & H4); [|done]. destruct (IH _ E) as (I1 & I2 & I3 & I4).
    rewrite I1, H1, I3, H3. rewrite fmap_cons. change (pf_Flight f :: (pf_Flight <$> l)) with ([pf_Flight f] ++ (pf_Flight <$> l)).
    rewrite filter_app, fmap_app, <-!app_assoc.
    assert (Ho : omap retained_entry (f :: l) = option_list (retained_entry f) ++ omap retained_entry l)
      by (simpl; by destruct (retained_entry f)).
    rewrite Ho. split_and!; [done| |done|by apply Forall_app]. intros g Hg. by rewrite I2, H2.
Qed.

(** Two retained reservations of which the later one is over. *)
Definition past (at_ : Time) (a b : allocatedEntry) : Prop :=
  isRetained (ae_flight a) = true ∧ isRetained (ae_flight b) = true ∧ ns (ae_time b) < ns at_.

Lemma check_retained_spec p at_ l u :
  check_retained p at_ l = Ok u → chain (λ a b, ns (ae_time b) < ns at_ ∨ adjacentValid p a b = true) l.
Proof.
  induction l as [|a l IH]; [done|]. destruct l as [|b l]; [done|].
  change (check_retained p at_ (a :: b :: l)) with
    (_ ← guard_err (negb (before (ae_time b) at_) && negb (adjacentValid p a b)) (retained_conflict a b);
     check_retained p at_ (b :: l)).
  rewrite bind_unit_iff, guard_err_iff. intros [Hg Hc].
  change ((ns (ae_time b) < ns at_ ∨ adjacentValid p a b = true) ∧
          chain (λ a b, ns (ae_time b) < ns at_ ∨ adjacentValid p a b = true) (b :: l)). split; [|by apply IH].
  apply andb_false_iff in Hg as [Hg|Hg]; apply negb_false_iff in Hg; [left; time_lia|by right].
Qed.

Lemma check_retained_returns p at_ l : returns (check_retained p at_ l).
Proof.
  induction l as [|a l IH]; [done|]. destruct l as [|b l]; [done|].
  change (check_retained p at_ (a :: b :: l)) with
    (_ ← guard_err (negb (before (ae_time b) at_) && negb (adjacentValid p a b)) (retained_conflict a b);
     check_retained p at_ (b :: l)).
  apply returns_bind; [apply returns_guard|done].
Qed.

Lemma retained_entry_flight f e : retained_entry f = Some e → ae_flight e = f ∧ isRetained f = true.
Proof. unfold retained_entry. destruct (isRetained f); [|done]. destruct (retained_slot f); [|done]. by intros [= <-]. Qed.

Lemma retained_entries_flight (flights : list preparedFlight) e :
  e ∈ omap retained_entry flights → ae_flight e ∈ flights ∧ isRetained (ae_flight e) = true.
Proof. rewrite list_elem_of_omap. intros (f & Hf & He). by destruct (retained_entry_flight f e He) as [-> ?]. Qed.

(** What the visit of a runway group establishes. *)
Record retained_group (p : preparedPolicy) (at_ : Time) (flights : list preparedFlight) (entries : list allocatedEntry) : Prop := {
  rg_entries : entries = sortEntries (omap retained_entry flights);
  rg_spaced : spaced_except p (past at_) entries
}.

Lemma flat_change {A} (m m' : gmap string (list A)) group :
  (∀ g, g ≠ group → m' !! g = m !! g) → entries_in m group = [] → flat m' ≡ₚ flat m ++ entries_in m' group.
Proof.
  intros Hm Hnil. rewrite (flat_delete m' group), (flat_delete m group), Hnil, Permutation_app_comm. simpl.
  replace (delete group m') with (delete group m); [done|]. apply map_eq. intros g.
  destruct (decide (g = group)) as [->|Hg]; [by rewrite !lookup_delete_eq|]. rewrite !lookup_delete_ne by done. by rewrite Hm.
Qed.

Lemma sort_group_entries group (m : gmap string (list allocatedEntry)) g :
  entries_in (sort_group group m) g = if decide (g = group) then sortEntries (entries_in m group) else entries_in m g.
Proof.
  unfold sort_group. destruct (m !! group) as [l|] eqn:E.
  - rewrite entries_insert. unfold entries_in at 2. by rewrite E.
  - unfold entries_in. case_decide as Hg; [by rewrite Hg, E|done].
Qed.

Lemma sort_group_lookup group m g : g ≠ group → sort_group group m !! g = m !! g.
Proof. intros Hg. unfold sort_group. destruct (m !! group); [by rewrite lookup_insert_ne|done]. Qed.

Lemma retain_group_spec policies at_ s group flights s' p :
  policies !! group = Some p → grid_wf p → entries_in (rs_allocated s) group = [] →
  retain_group policies at_ s (group, flights) = Ok s' →
  retained_group p at_ flights (entries_in (rs_allocated s') group) ∧
  (∀ g, g ≠ group → rs_allocated s' !! g = rs_allocated s !! g) ∧
  rs_diagnostics s' = rs_diagnostics s ++ (no_timing <$> filter (λ f, untimed f = true) (pf_Flight <$> flights)).
Proof.
  intros Hp Hwf Hnil. unfold retain_group. rewrite Hp. intros E. simpl in E. bind_inv E. bind_inv E. injection E as <-.
  apply retain_fold_spec in E0 as (H1 & H2 & H3 & H4); [|done]. rewrite Hnil in H1. simpl in H1.
  cbn [rs_allocated rs_diagnostics] in *. rewrite sort_group_entries, decide_True, H1 in * by done. split_and!; [|..|done].
  - split; [done|]. split; [apply sortEntries_settled|by apply (Forall_perm _ _ _ (sortEntries_perm _))|].
    apply check_retained_spec in E1. eapply chain_mono_in; [|exact E1].
    intros a b Ha Hb [Hab|Hab]; [left|by right]. unfold past.
    unfold sortEntries in Ha, Hb. rewrite elem_of_sort_slice in Ha, Hb.
    apply retained_entries_flight in Ha as [_ ?], Hb as [_ ?]. done.
  - intros g Hg. rewrite sort_group_lookup by done. by apply H2.
Qed.

Lemma retain_stage_spec policies at_ (l : list (string * list preparedFlight)) s s' :
  NoDup l.*1 → (∀ g, g ∈ l.*1 → entries_in (rs_allocated s) g = []) →
  (∀ g p, policies !! g = Some p → grid_wf p) →
  fold_outcome (retain_group policies at_) s l = Ok s' →
  (∀ g flights p, (g, flights) ∈ l → policies !! g = Some p → retained_group p at_ flights (entries_in (rs_allocated s') g)) ∧
  (∀ g, g ∉ l.*1 → rs_allocated s' !! g = rs_allocated s !! g) ∧
  flat (rs_allocated s') ≡ₚ flat (rs_allocated s) ++ omap retained_entry (l ≫= snd) ∧
  rs_diagnostics s' = rs_diagnostics s ++ (no_timing <$> filter (λ f, untimed f = true) (pf_Flight <$> (l ≫= snd))).
Proof.
  revert s. induction l as [|[group flights] l IH]; intros s Hnd Hnil Hpol E.
  - injection E as <-. split_and!; [by intros ??? ?%elem_of_nil|done|..]; simpl; by rewrite app_nil_r.
  - cbn [fold_outcome] in E. bind_inv E. rewrite fmap_cons in *. cbn [fst] in *. apply NoDup_cons in Hnd as [Hn Hnd].
    destruct (policies !! group) as [p|] eqn:Hp; [|unfold retain_group in E0; by rewrite Hp in E0].
    pose proof (Hpol _ _ Hp) as Hwf. eapply retain_group_spec in E0 as (H1 & H2 & H3); [|done|done|apply Hnil; left].
    destruct (IH r Hnd) as (I1 & I2 & I3 & I4); [| |exact E|].
    + intros g Hg. unfold entries_in. rewrite H2 by (intros ->; done). apply Hnil. by right.
    + done.
    + split_and!.
      * intros g fs q [[= -> ->]|Hin]%elem_of_cons Hq; [|by apply I1]. unfold entries_in in *. rewrite I2 by done.
        assert (q = p) as -> by congruence. done.
      * intros g Hg. rewrite elem_of_cons in Hg. rewrite I2 by tauto. apply H2. tauto.
      * rewrite I3, (flat_change _ _ group H2), (rg_entries _ _ _ _ H1), sortEntries_perm, bind_cons by (apply Hnil; left).
        cbn [snd]. by rewrite omap_app, <-app_assoc.
      * rewrite I4, H3, bind_cons. cbn [snd]. by rewrite fmap_app, filter_app, fmap_app, <-app_assoc.
Qed.

(** ** Placing keeps the entries apart *)

Section rebuilding.
Context (policies : gmap string preparedPolicy) (at_ : Time).
Hypothesis Hpolicies : ∀ g p, policies !! g = Some p → policy_wf g p ∧ po_ContinuousSpacing p = true.

Definition entry_known (p : preparedPolicy) (group : string) (e : allocatedEntry) : Prop :=
  fl_RunwayGroupID (ae_flight e) = group ∧ category_known p (ae_flight e).

Record group_ok (p : preparedPolicy) (group : string) (l : list allocatedEntry) : Prop := {
  go_spaced : spaced_except p (past at_) l;
  go_known : Forall (entry_known p group) l
}.

Definition allocated_ok (m : gmap string (list allocatedEntry)) : Prop :=
  ∀ g p, policies !! g = Some p → group_ok p g (entries_in m g).

(** A new entry on a usable slot of its flight, apart from its neighbours. *)
Record placed (s : rebuild) (f : preparedFlight) (c : Time) (s' : rebuild) : Prop := {
  pc_allocated : allocated_ok (rs_allocated s');
  pc_flat : flat (rs_allocated s') ≡ₚ flat (rs_allocated s) ++ [mk_alloc f c ReasonRateWTC];
  pc_bound : ∀ t, fl_SlotNotBefore f = Some t → ns t ≤ ns c;
  pc_slot : ∃ p, policies !! fl_RunwayGroupID f = Some p ∧ good_slot p f c;
  pc_tmaLast : rs_tmaLast s' = rs_tmaLast s;
  pc_diagnostics : rs_diagnostics s' = rs_diagnostics s
}.

Definition flight_known (f : preparedFlight) : Prop :=
  ∀ p, policies !! fl_RunwayGroupID f = Some p → category_known p f.

Lemma place_spec wrap s f c s' :
  flight_known f → allocated_ok (rs_allocated s) → place policies wrap s f = Ok (c, s') → placed s f c s'.
Proof using Hpolicies.
  intros Hk Hok. unfold place. destruct (policies !! fl_RunwayGroupID f) as [p|] eqn:Ep; [|done].
  cbn [deref mbind outcome_bind]. intros (r & E & [= <- <-])%bind_ok.
  destruct (findCandidate _ _ _) as [r'| | |] eqn:Ec in E; [injection E as ->|done..].
  destruct (Hpolicies _ _ Ep) as [Hwf Hcont]. destruct (Hok _ _ Ep) as [Hsp Hkn].
  apply findCandidate_facts in Ec as [Hf Hg]; [|apply Hwf|done]. split; simpl; [|..|done|done].
  - intros g q Hq. rewrite entries_insert. case_decide as Hd; [|by apply Hok]. subst g.
    assert (q = p) as -> by congruence. split.
    + by apply insert_spaced with f; [|done|apply Hg|].
    + apply (Forall_perm _ _ _ (sortEntries_perm _)), Forall_app. split; [done|]. apply Forall_singleton.
      split; [done|]. by apply Hk.
  - rewrite flat_insert, sortEntries_perm, (flat_delete (rs_allocated s) (fl_RunwayGroupID f)).
    rewrite <-!app_assoc. apply Permutation_app_head, Permutation_app_comm.
  - apply Hf.
  - exists p. by split.
Qed.

Lemma place_returns wrap s (f : preparedFlight) :
  (∀ g p, policies !! g = Some p → grid_horizon p) → is_Some (policies !! fl_RunwayGroupID f) → returns (place policies wrap s f).
Proof using Hpolicies.
  intros Hh [p Hp]. unfold place. rewrite Hp. cbn [deref mbind outcome_bind]. apply returns_bind; [|done].
  destruct (Hpolicies _ _ Hp) as [Hwf _]. pose proof (findCandidate_returns p (entries_in (rs_allocated s) (fl_RunwayGroupID f)) f (pw_grid _ _ Hwf) (Hh _ _ Hp)).
  by destruct (findCandidate _ _ _).
Qed.

(** *** Terminal-area arrivals *)

Definition entry_group (e : allocatedEntry) : string := fl_RunwayGroupID (ae_flight e).
Definition entry_retained (e : allocatedEntry) : bool := isRetained (ae_flight e).

(** The entry of a placed flight. *)
Record placed_as (f : preparedFlight) (e : allocatedEntry) : Prop := {
  as_callsign : fl_Callsign (ae_flight e) = fl_Callsign f;
  as_group : entry_group e = fl_RunwayGroupID f;
  as_stack : fl_HoldingStackID (ae_flight e) = fl_HoldingStackID f;
  as_transit : fl_HoldingTransit (ae_flight e) = fl_HoldingTransit f;
  as_tma : fl_RebuildTMA (ae_flight e) = fl_RebuildTMA f;
  as_retained : entry_retained e = isRetained f;
  as_bound : ∀ t, fl_SlotNotBefore f = Some t → ns t ≤ entry_ns e;
  as_usable : ∃ p, policies !! fl_RunwayGroupID f = Some p ∧ started p (ae_time e) ∧ ¬ blocked p (ae_time e)
}.

Lemma placed_as_bound s lower f c s' :
  placed s (rebuilt_bound lower f) c s' → (∀ t, fl_SlotNotBefore f = Some t → ns t ≤ ns lower) →
  placed_as f (mk_alloc (rebuilt_bound lower f) c ReasonRateWTC) ∧ ns lower ≤ ns c.
Proof using Type.
  intros Hp Hl. assert (Hc : ns lower ≤ ns c) by by apply (pc_bound _ _ _ _ Hp).
  split; [|done]. split; try done.
  - intros t Ht. specialize (Hl t Ht). unfold entry_ns. simpl. lia.
  - destruct (pc_slot _ _ _ _ Hp) as (p & Hpp & Hg). exists p. split; [done|]. split; apply Hg.
Qed.

Record tma_trace (s0 s : rebuild) (fs : list preparedFlight) (es : list allocatedEntry) : Prop := {
  tt_allocated : allocated_ok (rs_allocated s);
  tt_flat : flat (rs_allocated s) ≡ₚ flat (rs_allocated s0) ++ es;
  tt_placed : Forall2 (λ f e, placed_as f e ∧ ns at_ + Second ≤ entry_ns e ∧ ns (fl_OperationalTETA f) ≤ entry_ns e) fs es;
  tt_order : in_order (λ a b, entry_group a = entry_group b → entry_ns a ≤ entry_ns b) es;
  tt_last : Forall (λ e, entry_ns e ≤ ns (last_in (rs_tmaLast s) (entry_group e))) es;
  tt_raised : ∀ g, ns (last_in (rs_tmaLast s0) g) ≤ ns (last_in (rs_tmaLast s) g);
  tt_diagnostics : rs_diagnostics s = rs_diagnostics s0
}.

Lemma tma_lower_ge last_ f :
  let lower := tma_lower at_ last_ f in
  ns at_ + Second ≤ ns lower ∧ ns (fl_OperationalTETA f) ≤ ns lower ∧ ns last_ ≤ ns lower ∧
  ∀ t, fl_SlotNotBefore f = Some t → ns t ≤ ns lower.
Proof using Type.
  unfold tma_lower. cbv zeta. set (a := time_add at_ Second).
  pose proof (later_of_ge a (fl_OperationalTETA f)). set (b := later_of a _) in *.
  pose proof (later_of_ge b last_). set (c := later_of b _) in *.
  pose proof (raise_to_ge c (fl_SlotNotBefore f)) as [? ?]. unfold a in *. simpl in *. split_and!; [lia..|done].
Qed.

Lemma tma_step_trace s0 s fs es f s' :
  flight_known f → tma_trace s0 s fs es → tma_step policies at_ s f = Ok s' → ∃ e, tma_trace s0 s' (fs ++ [f]) (es ++ [e]).
Proof using Hpolicies.
  intros Hk [T1 T2 T3 T4 T5 T6 T7]. unfold tma_step. set (lower := tma_lower _ _ _).
  intros ([c s1] & E & [= <-])%bind_ok. apply place_spec in E as Hp; [|exact Hk|done].
  destruct (tma_lower_ge (last_in (rs_tmaLast s) (fl_RunwayGroupID f)) f) as (L1 & L2 & L3 & L4). fold lower in L1, L2, L3, L4.
  destruct (placed_as_bound _ _ _ _ _ Hp L4) as [Has Hc]. set (e := mk_alloc _ _ _) in Has. exists e.
  assert (He : entry_ns e = ns c) by done. assert (Hg : entry_group e = fl_RunwayGroupID f) by done.
  pose proof (pc_tmaLast _ _ _ _ Hp) as Ht. split; cbn [rs_allocated rs_tmaLast rs_diagnostics].
  - apply Hp.
  - rewrite (pc_flat _ _ _ _ Hp), T2. by rewrite <-app_assoc.
  - apply Forall2_app; [done|]. constructor; [|done]. split; [done|lia].
  - apply in_order_snoc; [done|]. intros a Ha Hga. rewrite Forall_forall in T5. specialize (T5 a Ha). cbv beta in T5.
    rewrite Hga, Hg in T5. lia.
  - apply Forall_app. split; [|apply Forall_singleton; rewrite last_insert, decide_True by done; lia].
    eapply Forall_impl; [exact T5|]. intros a Ha. cbv beta in *. rewrite last_insert. case_decide as Hd; [|by rewrite Ht].
    change (entry_group a = fl_RunwayGroupID f) in Hd. rewrite Hd in Ha. lia.
  - intros g. rewrite last_insert. specialize (T6 g). case_decide as Hd; [|by rewrite Ht].
    change (g = fl_RunwayGroupID f) in Hd. subst g. lia.
  - by rewrite (pc_diagnostics _ _ _ _ Hp).
Qed.

(** *** Releases from the holds *)

(** When the aircraft of an entry leaves its hold. *)
Definition release_ns (e : allocatedEntry) : Z := entry_ns e - fl_HoldingTransit (ae_flight e).
Definition entry_stack (e : allocatedEntry) : string := fl_HoldingStackID (ae_flight e).

(** [b] is released after [a], and a minute later from the same hold. *)
Definition released_behind (a b : allocatedEntry) : Prop :=
  release_ns a ≤ release_ns b ∧ (entry_stack a = entry_stack b → release_ns a + Minute ≤ release_ns b).

Record held_trace (s0 : rebuild) (s : holding_state) (fs : list preparedFlight) (es : list allocatedEntry) : Prop := {
  ht_allocated : allocated_ok (rs_allocated (hs_rebuild s));
  ht_flat : flat (rs_allocated (hs_rebuild s)) ≡ₚ flat (rs_allocated s0) ++ es;
  ht_placed : Forall2 (λ f e, placed_as f e ∧ is_Some (fl_ReleaseRank (ae_flight e))) fs es;
  ht_order : in_order released_behind es;
  ht_released : Forall (λ e, ns at_ + Second ≤ release_ns e ≤ ns (hs_globalRelease s) ∧
                             release_ns e ≤ ns (last_in (hs_releases s) (entry_stack e)) ∧
                             ns (last_in (rs_tmaLast s0) (entry_group e)) ≤ entry_ns e) es;
  ht_global : ns at_ + Second ≤ ns (hs_globalRelease s);
  ht_tmaLast : rs_tmaLast (hs_rebuild s) = rs_tmaLast s0;
  ht_diagnostics : rs_diagnostics s0 ⊆ rs_diagnostics (hs_rebuild s)
}.

Lemma held_lower_ge s (f : preparedFlight) :
  let lower := held_lower s f in
  let previous := last_in (hs_releases s) (fl_HoldingStackID f) in
  ns (hs_globalRelease s) + fl_HoldingTransit f ≤ ns lower ∧
  (is_zero previous = false → ns previous + Minute + fl_HoldingTransit f ≤ ns lower) ∧
  ns (last_in (rs_tmaLast (hs_rebuild s)) (fl_RunwayGroupID f)) ≤ ns lower ∧
  ∀ t, fl_SlotNotBefore f = Some t → ns t ≤ ns lower.
Proof using Type.
  unfold held_lower. cbv zeta. set (previous := last_in (hs_releases s) _). set (last_ := last_in (rs_tmaLast _) _).
  set (a := if negb (is_zero previous) then _ else _).
  assert (Ha : ns (hs_globalRelease s) ≤ ns a ∧ (is_zero previous = false → ns previous + Minute ≤ ns a)).
  { unfold a. destruct (is_zero previous); simpl; [done|].
    pose proof (later_of_ge (hs_globalRelease s) (time_add previous Minute)). simpl in *. split; [lia|intros; lia]. }
  clearbody a. set (b := time_add a _). pose proof (raise_to_ge b (fl_SlotNotBefore f)) as [Hb Hs].
  set (c := raise_to b _) in *. pose proof (later_of_ge c last_). unfold b in Hb. simpl in Hb.
  split_and!; [lia|intros Hz; destruct Ha as [_ Ha]; specialize (Ha Hz); lia|lia|]. intros t Ht. specialize (Hs t Ht). lia.
Qed.

Definition sound_transit (f : Flight) : Prop := 0 < fl_HoldingTransit f < 2^63.

Lemma release_time c f : sound_transit f → ns (time_add c (dur_neg (fl_HoldingTransit f))) = ns c - fl_HoldingTransit f.
Proof using Type. intros Hf. unfold sound_transit in Hf. simpl. unfold dur_neg. rewrite wrap64_id; [lia|]. unfold in_int64. lia. Qed.

(** A retained flight may only hold the later ones back. *)
Lemma retained_release_trace s0 s fs es (f : preparedFlight) :
  held_trace s0 s fs es → held_trace s0 (retained_release s f) fs es.
Proof using Type.
  intros [H1 H2 H3 H4 H5 H6 H7 H8]. unfold retained_release. destruct (fl_CurrentSlot f) as [slot|]; [|done].
  set (release := time_add _ _). pose proof (later_of_ge (hs_globalRelease s) release).
  split; cbn [rs_allocated rs_tmaLast rs_diagnostics hs_rebuild hs_releases hs_globalRelease]; try done.
  - eapply Forall_impl; [exact H5|]. intros e (Ha & Hb & Hc). cbv beta.
    pose proof (raise_last_ge (hs_releases s) (fl_HoldingStackID f) release (entry_stack e)) as [? _]. split_and!; lia || done.
  - lia.
  - intros d Hd. apply elem_of_app. left. by apply H8.
Qed.

Lemma held_step_trace s0 s fs es rank (f : preparedFlight) s' :
  0 ≤ ns at_ → sound_transit f → flight_known f → held_trace s0 s fs es → held_step policies s (rank, f) = Ok s' →
  if isRetained f then held_trace s0 s' fs es else ∃ e, held_trace s0 s' (fs ++ [f]) (es ++ [e]).
Proof using Hpolicies.
  intros Hat Htr Hk Ht. unfold held_step. intros (index & _ & E)%bind_ok. revert E. set (s1 := mk_holding_state _ _ _ _ _).
  set (g := map_Flight _ f). change (isRetained g) with (isRetained f).
  assert (Ht1 : held_trace s0 s1 fs es) by (destruct Ht; by split). clearbody s1.
  destruct (isRetained f) eqn:Er; [intros [= <-]; by apply retained_release_trace|].
  set (lower := held_lower s1 g). set (h := map_Flight (set_OperationalTETA lower) g).
  intros ([c r] & E & [= <-])%bind_ok. destruct Ht1 as [H1 H2 H3 H4 H5 H6 H7 H8].
  apply place_spec in E as Hp; [|exact Hk|done].
  destruct (held_lower_ge s1 g) as (L1 & L2 & L3 & L4). fold lower in L1, L2, L3, L4.
  destruct (placed_as_bound _ _ h _ _ Hp L4) as [Has Hc]. set (e := mk_alloc _ _ _) in Has. exists e.
  assert (Hrel : release_ns e = ns c - fl_HoldingTransit f) by done.
  assert (Hstack : entry_stack e = fl_HoldingStackID f) by done.
  pose proof (release_time c f Htr) as Hrt. change (fl_HoldingTransit g) with (fl_HoldingTransit f) in *.
  change (fl_HoldingStackID g) with (fl_HoldingStackID f) in *. change (fl_RunwayGroupID g) with (fl_RunwayGroupID f) in *.
  change (fl_HoldingTransit (rebuilt_bound lower h)) with (fl_HoldingTransit f).
  change (fl_HoldingStackID (rebuilt_bound lower h)) with (fl_HoldingStackID f).
  set (release := time_add c _) in *.
  assert (Hbehind : ∀ a, a ∈ es → released_behind a e).
  { intros a Ha. rewrite Forall_forall in H5. destruct (H5 a Ha) as ([Ha1 Ha2] & Ha3 & _). split; [lia|].
    intros Hs. rewrite Hs, Hstack in Ha3. rewrite Hrel.
    destruct (is_zero _) eqn:Ez in L2; [|specialize (L2 eq_refl); lia]. exfalso. revert Ez. unfold is_zero. rewrite Z.eqb_eq.
    unfold Second in *. lia. }
  split; cbn [rs_allocated rs_tmaLast rs_diagnostics hs_rebuild hs_releases hs_globalRelease].
  - apply Hp.
  - rewrite (pc_flat _ _ _ _ Hp), H2. by rewrite <-app_assoc.
  - apply Forall2_app; [done|]. constructor; [|done]. split; [|by eexists].
    destruct Has. by split.
  - by apply in_order_snoc.
  - apply Forall_app. split.
    + rewrite Forall_forall in H5 |- *. intros a Ha. destruct (H5 a Ha) as ([Ha1 Ha2] & Ha3 & Ha4).
      pose proof (Hbehind a Ha) as [Hb1 Hb2]. split_and!; [lia|lia| |done].
      rewrite last_insert. case_decide as Hd; [lia|done].
    + apply Forall_singleton. rewrite last_insert, decide_True by done. rewrite Hrel. split_and!; [lia|lia|lia|].
      change (entry_group e) with (fl_RunwayGroupID f). rewrite <-H7. change (entry_ns e) with (ns c). lia.
  - lia.
  - by rewrite (pc_tmaLast _ _ _ _ Hp).
  - by rewrite (pc_diagnostics _ _ _ _ Hp).
Qed.
End rebuilding.

(** ** Merging the stacks

    The merge as a relation: any head that no head is older than may come next. *)

Definition without_head (stack : string) (rest : list preparedFlight) (queues : stacks) : stacks :=
  match rest with [] => delete stack queues | _ => <[stack := rest]> queues end.

Inductive merged : stacks → list preparedFlight → Prop :=
| merged_nil : merged ∅ []
| merged_cons queues stack f rest l :
    queues !! stack = Some (f :: rest) →
    (∀ s g q, queues !! s = Some (g :: q) → holdingAgeLess g f = false) →
    merged (without_head stack rest queues) l →
    merged queues (f :: l).

Lemma holdingAgeLess_false a b :
  holdingAgeLess a b = false ↔
    let x := ns (default zero_time (fl_HoldingStartedAt a)) in
    let y := ns (default zero_time (fl_HoldingStartedAt b)) in
    y < x ∨ x = y ∧ str_ltb (fl_Callsign a) (fl_Callsign b) = false.
Proof.
  unfold holdingAgeLess, time_eqb, before. cbv zeta. set (x := ns _). set (y := ns (default zero_time (fl_HoldingStartedAt b))).
  destruct (Z.eqb_spec x y); simpl.
  - split; [intros ?; by right|]. intros [?|[_ ?]]; [lia|done].
  - rewrite Z.ltb_ge. split; [intros ?; left; lia|]. intros [?|[? _]]; lia.
Qed.

Lemma holdingAgeLess_asym a b : holdingAgeLess a b = true → holdingAgeLess b a = false.
Proof.
  unfold holdingAgeLess. rewrite (time_eqb_sym (default zero_time (fl_HoldingStartedAt b))).
  destruct (time_eqb _ _); simpl; [apply str_ltb_asym|apply before_asym].
Qed.

Lemma holdingAgeLess_trans a b c :
  holdingAgeLess b a = false → holdingAgeLess c b = false → holdingAgeLess c a = false.
Proof.
  rewrite !holdingAgeLess_false. cbv zeta. pose proof (str_ltb_false_trans (fl_Callsign a) (fl_Callsign b) (fl_Callsign c)).
  intros [?|[? ?]] [?|[? ?]]; try (left; lia). right. split; [lia|auto].
Qed.

(** No stack is empty, and a stack holds the aircraft of one hold, lowest first. *)
Record stacked (queues : stacks) : Prop := {
  sk_nonempty : ∀ s, queues !! s ≠ Some [];
  sk_stack : ∀ s q, queues !! s = Some q → Forall (λ f : preparedFlight, fl_HoldingStackID f = s) q
}.

Lemma stacked_without queues stack f rest :
  stacked queues → queues !! stack = Some (f :: rest) → stacked (without_head stack rest queues).
Proof.
  intros [H1 H2] Hq. specialize (H2 stack _ Hq) as Hf. apply Forall_cons in Hf as [_ Hf].
  unfold without_head. destruct rest as [|g rest]; split.
  - intros s. rewrite lookup_delete_Some. intros [_ Hs]. by apply (H1 s).
  - intros s q. rewrite lookup_delete_Some. intros [_ Hs]. by apply H2.
  - intros s. rewrite lookup_insert_Some. intros [[_ [=]]|[_ Hs]]. by apply (H1 s).
  - intros s q. rewrite lookup_insert_Some. intros [[<- <-]|[_ Hs]]; [done|by apply H2].
Qed.

Lemma older_head_spec (l : list (string * list preparedFlight)) selected :
  (∀ s q, (s, q) ∈ l → q ≠ []) →
  match foldl older_head selected l with
  | None => selected = None ∧ l = []
  | Some (s, f) =>
      ((∃ q, (s, f :: q) ∈ l) ∨ selected = Some (s, f)) ∧
      (∀ s' g q, (s', g :: q) ∈ l → holdingAgeLess g f = false) ∧
      (∀ s' g, selected = Some (s', g) → holdingAgeLess g f = false)
  end.
Proof.
  revert selected. induction l as [|[s q] l IH]; intros selected Hne.
  - simpl. destruct selected as [[s f]|]; [|done]. split_and!; [by right|by intros ??? ?%elem_of_nil|].
    intros ?? [= -> ->]. destruct (holdingAgeLess _ _) eqn:E; [|done]. by rewrite (holdingAgeLess_asym _ _ E) in E.
  - assert (Hirr : ∀ f, holdingAgeLess f f = false).
    { intros f. destruct (holdingAgeLess f f) eqn:E; [|done]. by rewrite (holdingAgeLess_asym _ _ E) in E. }
    cbn [foldl]. destruct q as [|f q]; [by destruct (Hne s []); [left|]|].
    specialize (IH (older_head selected (s, f :: q))). destruct (foldl _ _ l) as [[s1 f1]|].
    + destruct IH as (I1 & I2 & I3); [intros ?? ?; apply (Hne s0); by right|].
      unfold older_head in I1, I3. cbn [fst snd] in I1, I3. destruct selected as [[s2 f2]|].
      * destruct (holdingAgeLess f f2) eqn:E.
        -- split_and!.
           ++ destruct I1 as [[q' ?]|[= <- <-]]; left; [exists q'; by right|exists q; left].
           ++ intros s' g q' [[= -> -> ->]|Hin]%elem_of_cons; [by eapply I3|by eapply I2].
           ++ intros ?? [= <- <-]. eapply holdingAgeLess_trans; [by eapply I3|]. by apply holdingAgeLess_asym.
        -- split_and!.
           ++ destruct I1 as [[q' ?]|[= <- <-]]; [left; exists q'; by right|by right].
           ++ intros s' g q' [[= -> -> ->]|Hin]%elem_of_cons; [|by eapply I2].
              eapply holdingAgeLess_trans; [by eapply I3|done].
           ++ intros ?? [= <- <-]. by eapply I3.
      * split_and!; [|intros s' g q' [[= -> -> ->]|Hin]%elem_of_cons; [by eapply I3|by eapply I2]|done].
        destruct I1 as [[q' ?]|[= <- <-]]; left; [exists q'; by right|exists q; left].
    + destruct IH as [IH _]; [intros ?? ?; apply (Hne s0); by right|]. exfalso. unfold older_head in IH. cbn [fst snd] in IH.
      destruct selected as [[s2 f2]|]; [by destruct (holdingAgeLess f f2)|done].
Qed.

(** A turn takes the oldest head. *)
Lemma merge_step_spec queues ordered :
  stacked queues →
  (queues = ∅ ∧ merge_step (queues, ordered) = Ok (inr ordered)) ∨
  ∃ stack f rest, queues !! stack = Some (f :: rest) ∧
    (∀ s g q, queues !! s = Some (g :: q) → holdingAgeLess g f = false) ∧
    merge_step (queues, ordered) = Ok (inl (without_head stack rest queues, ordered ++ [f])).
Proof.
  intros [Hne _]. unfold merge_step. case_bool_decide as Hq; [by left|right].
  assert (Hnil : ∀ s q, (s, q) ∈ map_to_list queues → q ≠ []).
  { intros s q Hs ->. apply elem_of_map_to_list in Hs. by apply (Hne s). }
  pose proof (older_head_spec (map_to_list queues) None Hnil) as Ho. destruct (foldl _ _ _) as [[s f]|].
  - destruct Ho as ([[q Hs]|[=]] & H2 & _).
    apply elem_of_map_to_list in Hs. exists s, f, q. split_and!; [done| |].
    + intros s' g q' Hs'. apply (H2 s' g q'). by apply elem_of_map_to_list.
    + simpl. unfold entries_in. rewrite Hs. simpl. by destruct q.
  - destruct Ho as [_ Ho]. apply map_to_list_empty_iff in Ho. done.
Qed.

Lemma flat_without queues stack f rest :
  queues !! stack = Some (f :: rest) → flat queues ≡ₚ f :: flat (without_head stack rest queues).
Proof.
  intros Hq. rewrite (flat_delete queues stack). unfold entries_in. rewrite Hq. simpl. f_equiv.
  unfold without_head. destruct rest as [|g rest]; [done|]. by rewrite flat_insert.
Qed.

Lemma merge_stacks_merged held :
  stacked (hold_queues held) → flat (hold_queues held) ≡ₚ held →
  ∃ l, merge_stacks held = Ok l ∧ merged (hold_queues held) l ∧ l ≡ₚ held.
Proof.
  intros Hsk Hperm.
  assert (Hloop : ∀ n queues ordered, stacked queues → (length (flat queues) < n)%nat →
    ∃ l, loop_nat n merge_step (queues, ordered) = Ok (inr (ordered ++ l)) ∧ merged queues l ∧ l ≡ₚ flat queues).
  { induction n as [|n IH]; intros queues ordered Hs Hn; [lia|]. cbn [loop_nat].
    destruct (merge_step_spec queues ordered Hs) as [[-> ->]|(stack & f & rest & Hq & Hold & ->)].
    - exists []. rewrite app_nil_r. by repeat constructor.
    - pose proof (flat_without _ _ _ _ Hq) as Hf. rewrite Hf in Hn. cbn [length] in Hn.
      destruct (IH (without_head stack rest queues) (ordered ++ [f])) as (l & El & Hl & Hp);
        [by eapply stacked_without|lia|].
      exists (f :: l). cbn [mbind outcome_bind]. rewrite El, <-app_assoc. split_and!; [done|by econstructor|by rewrite Hp, Hf]. }
  destruct (Hloop (S (length held)) (hold_queues held) [] Hsk) as (l & El & Hl & Hp); [rewrite Hperm; lia|].
  exists l. unfold merge_stacks, iterate. rewrite loop_loop_nat, SuccNat2Pos.id_succ, El. split_and!; [done|done|by etrans].
Qed.

(** *** What the stacks are *)

Lemma foldl_queue held queues s :
  entries_in (foldl queue_flight queues held) s =
  entries_in queues s ++ filter (λ f : preparedFlight, fl_HoldingStackID f = s) held.
Proof.
  revert queues. induction held as [|f l IH]; intros queues; simpl; [by rewrite app_nil_r|].
  rewrite IH, filter_cons. unfold queue_flight. rewrite entries_insert. repeat case_decide; subst; try done.
  by rewrite <-app_assoc.
Qed.

Lemma hold_queues_lookup held s q :
  hold_queues held !! s = Some q → q = sort_slice stack_less (filter (λ f : preparedFlight, fl_HoldingStackID f = s) held).
Proof.
  unfold hold_queues. rewrite lookup_fmap. intros (q' & Hq & ->)%fmap_Some.
  pose proof (foldl_queue held ∅ s) as Hf. unfold entries_in in Hf. rewrite Hq in Hf. simpl in Hf. by rewrite Hf.
Qed.

Lemma foldl_queue_nonempty held queues s :
  (∀ s, queues !! s ≠ Some []) → foldl queue_flight queues held !! s ≠ Some [].
Proof.
  revert queues. induction held as [|f l IH]; intros queues Hq; simpl; [apply Hq|]. apply IH. intros s'.
  unfold queue_flight. rewrite lookup_insert_Some. intros [[_ H]|[_ H]]; [by destruct (entries_in _ _)|by apply (Hq s')].
Qed.

Lemma hold_queues_stacked held : stacked (hold_queues held).
Proof.
  split.
  - intros s Hs. unfold hold_queues in Hs. rewrite lookup_fmap in Hs. apply fmap_Some in Hs as (q & Hq & Hs).
    assert (q = []) as ->; [|by eapply foldl_queue_nonempty; [|exact Hq]].
    apply Permutation_nil. rewrite Hs. apply sort_slice_perm.
  - intros s q ->%hold_queues_lookup. apply (Forall_perm _ _ _ (sort_slice_perm _ _)), Forall_forall.
    intros f Hf. by apply list_elem_of_filter in Hf as [? _].
Qed.

Lemma flat_fmap (g : list preparedFlight → list preparedFlight) (m : stacks) :
  (∀ l, g l ≡ₚ l) → flat (g <$> m) ≡ₚ flat m.
Proof.
  intros Hg. unfold flat. rewrite map_to_list_fmap, !bind_fmap_snd, <-list_fmap_compose.
  induction (map_to_list m) as [|[s q] l IH]; [done|]. simpl. by rewrite Hg, IH.
Qed.

Lemma hold_queues_flat held : flat (hold_queues held) ≡ₚ held.
Proof.
  unfold hold_queues. rewrite flat_fmap by apply sort_slice_perm.
  assert (H : ∀ queues, flat (foldl queue_flight queues held) ≡ₚ flat queues ++ held).
  { induction held as [|f l IH]; intros queues; simpl; [by rewrite app_nil_r|]. rewrite IH. unfold queue_flight.
    rewrite flat_insert, (flat_delete queues (fl_HoldingStackID f)). rewrite <-!app_assoc. apply Permutation_app_head.
    by rewrite <-Permutation_middle. }
  rewrite H. done.
Qed.

(** *** What a merge gives *)

Definition of_stack (s : string) (l : list preparedFlight) : list preparedFlight :=
  filter (λ f : preparedFlight, fl_HoldingStackID f = s) l.

Lemma entries_without queues stack f rest s :
  queues !! stack = Some (f :: rest) →
  entries_in (without_head stack rest queues) s = if decide (s = stack) then rest else entries_in queues s.
Proof.
  intros Hq. unfold without_head, entries_in. destruct rest as [|g rest]; case_decide as Hs.
  - by rewrite Hs, lookup_delete_eq.
  - by rewrite lookup_delete_ne.
  - by rewrite Hs, lookup_insert_eq.
  - by rewrite lookup_insert_ne.
Qed.

Lemma merged_stack queues l s : stacked queues → merged queues l → of_stack s l = entries_in queues s.
Proof.
  intros Hs Hm. induction Hm as [|queues stack f rest l Hq _ Hm IH]; [done|].
  specialize (IH (stacked_without _ _ _ _ Hs Hq)). rewrite (entries_without _ _ _ _ _ Hq) in IH.
  unfold of_stack in *. rewrite filter_cons, IH. pose proof (sk_stack _ Hs _ _ Hq) as Hf. apply Forall_cons in Hf as [Hf _].
  rewrite Hf. case_decide as Hd.
  - subst s. rewrite decide_True by done. unfold entries_in. by rewrite Hq.
  - by rewrite decide_False.
Qed.

(** Nothing that could be released next holds longer. *)
Definition oldest_first (l : list preparedFlight) : Prop :=
  ∀ i f s g q, l !! i = Some f → of_stack s (drop i l) = g :: q → holdingAgeLess g f = false.

Lemma merged_oldest queues l : stacked queues → merged queues l → oldest_first l.
Proof.
  intros Hs Hm. induction Hm as [|queues stack f rest l Hq Hold Hm IH]; [intros [|i] ????; done|].
  intros [|i] f' s g q Hi Hd; simpl in Hi, Hd.
  - injection Hi as <-. change (of_stack s (f :: l) = g :: q) in Hd.
    rewrite (merged_stack queues (f :: l) s Hs) in Hd by (by econstructor).
    unfold entries_in in Hd. destruct (queues !! s) as [q'|] eqn:E; [|done]. simpl in Hd. subst q'. by eapply Hold.
  - by eapply (IH (stacked_without _ _ _ _ Hs Hq)).
Qed.
