(* ===== verification/RebuildSafety.v ===== *)
(** * Correctness of the rebuild

    The properties of [ApplyArrivalSequenceRebuild] ([rebuild.go]), whose
    definitions and single steps are in [SequenceRebuild]: the result is
    separated and complete, releases are in merge order and spaced, the terminal
    area lands first, and the rebuild returns. [rebuilt] unfolds a successful
    call into its loops and [staged] joins what the loops did. *)

From S2P Require Import Prelude GoTime SequenceData SequenceGrid SequenceSpacing SequenceOrder.
From S2P Require Import SequencePlacement SequenceAllocation SequenceOptimize SequencePrepare SequenceEngine SequenceExamples.
From S2P Require Import SequenceCommands SequencePolicy SequenceGoAround SequenceQueue SequenceGapFill SequenceRebuild.

Local Open Scope Z_scope.

(** ** The stages of a successful rebuild *)

(** What a successful rebuild went through. *)
Record rebuilt (input : Input) (at_ : Time) (policies : gmap string preparedPolicy)
    (groups : gmap string (list preparedFlight)) (d : RebuildDecision) (s1 s2 : rebuild) (ordered : list preparedFlight)
    (h : holding_state) (s3 : rebuild) : Prop := {
  rb_utc : validUTC at_ = true;
  rb_prepared : prepareInput (rebuild_input input) = Ok (policies, groups);
  rb_retained : fold_outcome (retain_group policies at_) (mk_rebuild ∅ ∅ []) (map_to_list groups) = Ok s1;
  rb_tma : fold_outcome (tma_step policies at_) s1
    (sort_slice teta_less (filter (λ f : preparedFlight, rebuilt_tma f = true) (all_flights groups))) = Ok s2;
  rb_merged : merge_stacks (filter (λ f : preparedFlight, rebuilt_held (blocked_holds (in_Flights input)) f = true) (all_flights groups))
    = Ok ordered;
  rb_held : fold_outcome (held_step policies)
    (mk_holding_state (mk_rebuild (rs_allocated s2) (rs_tmaLast s2) (rs_diagnostics s2 ++ priority_exceptions s2))
       (rebuild_input input) ∅ (time_add at_ Second) ∅) (imap pair ordered) = Ok h;
  rb_inbound : fold_outcome (inbound_step policies at_ (hs_heldLast h)) (hs_rebuild h)
    (sort_slice teta_less (filter (λ f : preparedFlight, rebuilt_inbound (blocked_holds (in_Flights input)) f = true) (all_flights groups)))
    = Ok s3;
  rb_result : rebuild_result policies (all_flights groups) at_ (rs_allocated s3) = Ok (de_Candidate (rbd_Decision d));
  rb_order : ro_ReleaseOrder (rbd_Outcome d) = (λ f : preparedFlight, fl_Callsign f) <$> ordered;
  rb_diagnostics : ro_Diagnostics (rbd_Outcome d) ≡ₚ evidence_diagnostics (in_Flights input) ++ rs_diagnostics s3
}.

Lemma rebuild_rebuilt input at_ d :
  ApplyArrivalSequenceRebuild input at_ = Ok d →
  ∃ policies groups s1 s2 ordered h s3, rebuilt input at_ policies groups d s1 s2 ordered h s3.
Proof.
  unfold ApplyArrivalSequenceRebuild. rewrite bind_unit_iff, guard_err_iff. intros [Hat E].
  apply negb_false_iff in Hat.
  apply bind_ok in E as ([policies groups] & Hp & E). apply bind_ok in E as ([[order s] r] & Hs & [= <-]).
  unfold rebuild_sequence in Hs. cbv zeta in Hs.
  apply bind_ok in Hs as (s1 & H1 & Hs). apply bind_ok in Hs as (s2 & H2 & Hs). apply bind_ok in Hs as (ordered & H3 & Hs).
  apply bind_ok in Hs as (h & H4 & Hs). apply bind_ok in Hs as (s3 & H5 & Hs). apply bind_ok in Hs as (r' & H6 & [= <- <- <-]).
  exists policies, groups, s1, s2, ordered, h, s3. split; try done. simpl. apply sort_slice_perm.
Qed.

(** *** The flights of all groups *)

Definition canonical_flight (f : Flight) : Flight :=
  set_SelectedSTARFamily (canonicalSTARFamily (fl_SelectedSTARFamily f)) (set_STARFamily (canonicalSTARFamily (fl_STARFamily f)) f).

Lemma all_flights_raw input policies groups :
  input_ok input policies groups → pf_Flight <$> all_flights groups ≡ₚ canonical_flight <$> in_Flights input.
Proof.
  intros Hin. set (K := (map_to_list groups).*1).
  assert (Hall : pf_Flight <$> all_flights groups =
                 canonical_flight <$> (K ≫= λ g, filter (λ f, fl_RunwayGroupID f = g) (in_Flights input))).
  { unfold all_flights, K. assert (Hsub : ∀ g l, (g, l) ∈ map_to_list groups → groups !! g = Some l)
      by (intros g l; apply elem_of_map_to_list).
    revert Hsub. induction (map_to_list groups) as [|[g l] kl IH]; intros Hsub; [done|].
    rewrite fmap_cons, !bind_cons, !fmap_app. f_equal; [|apply IH; intros ???; apply Hsub; by right].
    cbn [fst snd]. pose proof (io_group _ _ _ Hin g) as Hg. rewrite (Hsub g l) in Hg by left. exact Hg. }
  rewrite Hall. apply fmap_Permutation, bind_filter_key; [apply NoDup_fst_map_to_list|].
  apply Forall_forall. intros f Hf. unfold K. apply list_elem_of_fmap.
  pose proof (io_group _ _ _ Hin (fl_RunwayGroupID f)) as Hg.
  destruct (groups !! fl_RunwayGroupID f) as [l|] eqn:E.
  - exists (fl_RunwayGroupID f, l). split; [done|]. by apply elem_of_map_to_list.
  - exfalso. simpl in Hg. symmetry in Hg. apply fmap_nil_inv in Hg. apply (not_elem_of_nil f).
    rewrite <-Hg. by apply list_elem_of_filter.
Qed.

Section parts.
Context (input : Input) (at_ : Time).
Context (policies : gmap string preparedPolicy) (groups : gmap string (list preparedFlight)).
Hypothesis Htyped : typed_input input.
Hypothesis Hcont : continuous input.
Hypothesis Hprepared : prepareInput (rebuild_input input) = Ok (policies, groups).

Lemma rebuild_input_ok : input_ok (rebuild_input input) policies groups.
Proof using Htyped Hprepared. by apply prepareInput_ok. Qed.

Lemma rebuild_policy g p : policies !! g = Some p → policy_wf g p ∧ po_ContinuousSpacing p = true.
Proof using Htyped Hcont Hprepared.
  intros Hp. destruct (io_policies _ _ _ rebuild_input_ok g p Hp) as (Hwf & raw & Hraw & gaps & closures & Hpol & _).
  split; [done|]. rewrite Hpol. simpl. unfold continuous in Hcont. rewrite Forall_forall in Hcont. by apply Hcont.
Qed.

Lemma group_flight g flights (f : preparedFlight) :
  groups !! g = Some flights → f ∈ flights →
  fl_RunwayGroupID f = g ∧ ∃ p, policies !! g = Some p ∧ category_known p f.
Proof using Htyped Hprepared.
  intros Hg Hf. pose proof rebuild_input_ok as Hin.
  pose proof (io_flights _ _ _ Hin g) as Hw. rewrite Hg, Forall_forall in Hw. destruct (Hw f Hf) as [Hgf _ _ _ _].
  split; [done|]. assert (Hraw : pf_Flight f ∈ pf_Flight <$> flights) by by apply list_elem_of_fmap_2.
  pose proof (io_group _ _ _ Hin g) as Hgr. rewrite Hg in Hgr. simpl in Hgr. rewrite Hgr in Hraw.
  apply list_elem_of_fmap in Hraw as (raw & _ & Hraw). apply list_elem_of_filter in Hraw as [Hrg Hraw].
  pose proof (io_known _ _ _ Hin) as Hk. rewrite Forall_forall in Hk. destruct (Hk raw Hraw) as [p Hp]. rewrite Hrg in Hp.
  exists p. split; [done|]. pose proof (io_known_category _ _ _ Hin _ _ Hp) as Hc. rewrite Hg, Forall_forall in Hc. by apply Hc.
Qed.

Lemma all_flights_known (f : preparedFlight) : f ∈ all_flights groups → flight_known policies f ∧ is_Some (policies !! fl_RunwayGroupID f).
Proof using Htyped Hprepared.
  intros ([g l] & Hf & Hg)%list_elem_of_bind. apply elem_of_map_to_list in Hg. cbn [snd] in Hf.
  destruct (group_flight g l f Hg Hf) as (Hgf & p & Hp & Hk). unfold flight_known. rewrite Hgf, Hp. split; [|by eexists].
  intros q [= <-]. done.
Qed.

Lemma retained_allocated s1 :
  fold_outcome (retain_group policies at_) (mk_rebuild ∅ ∅ []) (map_to_list groups) = Ok s1 →
  allocated_ok policies at_ (rs_allocated s1) ∧
  flat (rs_allocated s1) ≡ₚ omap retained_entry (all_flights groups) ∧
  rs_diagnostics s1 = no_timing <$> filter (λ f, untimed f = true) (pf_Flight <$> all_flights groups).
Proof using Htyped Hcont Hprepared.
  intros E. apply retain_stage_spec in E as (H1 & H2 & H3 & H4); [|apply NoDup_fst_map_to_list|by intros|].
  2:{ intros g p Hp. by apply (rebuild_policy g p). }
  split_and!; [|by rewrite H3|by rewrite H4].
  intros g p Hp. destruct (groups !! g) as [l|] eqn:Eg.
  - destruct (H1 g l p) as [Hl Hsp]; [by apply elem_of_map_to_list|done|]. split; [done|]. rewrite Hl.
    apply (Forall_perm _ _ _ (sortEntries_perm _)), Forall_forall. intros e He.
    apply retained_entries_flight in He as [He _]. destruct (group_flight g l _ Eg He) as (Hgf & q & Hq & Hk).
    assert (q = p) as -> by congruence. by split.
  - assert (Hnil : entries_in (rs_allocated s1) g = []).
    { unfold entries_in. rewrite H2; [done|]. intros ([g' l] & -> & Hg)%list_elem_of_fmap.
      apply elem_of_map_to_list in Hg. simpl in Eg. congruence. }
    rewrite Hnil. split; [|done]. by repeat constructor.
Qed.

Lemma all_flights_source (f : preparedFlight) :
  f ∈ all_flights groups →
  ∃ raw, raw ∈ in_Flights input ∧ pf_Flight f = canonical_flight (rebuild_flight (blocked_holds (in_Flights input)) raw).
Proof using Htyped Hprepared.
  intros Hf. apply (list_elem_of_fmap_2 pf_Flight) in Hf. rewrite (all_flights_raw _ _ _ rebuild_input_ok) in Hf.
  apply list_elem_of_fmap in Hf as (f0 & -> & Hf). simpl in Hf.
  apply list_elem_of_fmap in Hf as (raw & -> & Hf). by exists raw.
Qed.

(** [rebuild_flight] leaves the holding evidence alone. *)
Lemma rebuild_flight_holding blocked f :
  let g := rebuild_flight blocked f in
  fl_Callsign g = fl_Callsign f ∧ fl_HoldingStackID g = fl_HoldingStackID f ∧ fl_RebuildTMA g = fl_RebuildTMA f ∧
  fl_HoldingAltitudeFeet g = fl_HoldingAltitudeFeet f ∧ fl_HoldingStartedAt g = fl_HoldingStartedAt f ∧
  fl_HoldingTransit g = fl_HoldingTransit f ∧ fl_OperationalTETA g = fl_OperationalTETA f ∧
  fl_RunwayGroupID g = fl_RunwayGroupID f ∧ fl_SlotNotBefore g = fl_SlotNotBefore f ∧ fl_ManualOrder g = None.
Proof using Type. unfold rebuild_flight, lift_freeze. cbv zeta. by repeat case_match. Qed.

(** An aircraft that is queued for release has all the evidence for it. *)
Lemma queued_evidence (f : preparedFlight) :
  f ∈ all_flights groups → rebuilt_held (blocked_holds (in_Flights input)) f = true →
  is_Some (fl_HoldingAltitudeFeet f) ∧ is_Some (fl_HoldingStartedAt f) ∧ 0 < fl_HoldingTransit f.
Proof using Htyped Hprepared.
  intros (raw & Hraw & Hf)%all_flights_source. unfold rebuilt_held.
  destruct (rebuild_flight_holding (blocked_holds (in_Flights input)) raw) as (_ & H2 & H3 & H4 & H5 & H6 & _).
  assert (E : unevidenced f = unevidenced raw) by (unfold unevidenced; rewrite Hf; simpl; by rewrite H2, H3, H4, H5, H6).
  intros Hh. apply andb_true_iff in Hh as [[[_ Hs]%andb_true_iff Hb]%andb_true_iff Ht].
  apply negb_true_iff in Hs, Hb, Ht. apply bool_decide_eq_false in Hb.
  assert (Hu : unevidenced f = false).
  { rewrite E. apply not_true_is_false. intros Hu. apply Hb. rewrite Hf. simpl. rewrite H2. unfold blocked_holds.
    apply elem_of_list_to_set, list_elem_of_fmap_2, list_elem_of_filter. done. }
  unfold unevidenced in Hu. rewrite Hs, Ht in Hu. simpl in Hu. apply orb_false_iff in Hu as [[Ha Hst]%orb_false_iff Htr].
  destruct (fl_HoldingAltitudeFeet f), (fl_HoldingStartedAt f); try done. zbool. split_and!; [by eexists|by eexists|lia].
Qed.
End parts.

(** *** The stages together *)

(** The folds of the placing loops. *)
Lemma tma_trace_fold policies at_ s0 s fs es l s' :
  (∀ g p, policies !! g = Some p → policy_wf g p ∧ po_ContinuousSpacing p = true) →
  Forall (flight_known policies) l → tma_trace policies at_ s0 s fs es → fold_outcome (tma_step policies at_) s l = Ok s' →
  ∃ es', tma_trace policies at_ s0 s' (fs ++ l) (es ++ es').
Proof.
  intros Hpol. revert s fs es. induction l as [|f l IH]; intros s fs es Hk Ht E; cbn [fold_outcome] in E.
  - injection E as <-. exists []. by rewrite !app_nil_r.
  - apply Forall_cons in Hk as [Hf Hk]. apply bind_ok in E as (s1 & E1 & E).
    destruct (tma_step_trace policies at_ Hpol _ _ _ _ _ _ Hf Ht E1) as [e Ht1].
    destruct (IH s1 (fs ++ [f]) (es ++ [e]) Hk Ht1 E) as [es' Ht']. exists (e :: es').
    by rewrite <-!app_assoc in Ht'.
Qed.

Lemma held_trace_fold policies at_ s0 s fs es (l : list (nat * preparedFlight)) s' :
  (∀ g p, policies !! g = Some p → policy_wf g p ∧ po_ContinuousSpacing p = true) → 0 ≤ ns at_ →
  Forall (λ f : preparedFlight, flight_known policies f ∧ sound_transit f) l.*2 → held_trace policies at_ s0 s fs es →
  fold_outcome (held_step policies) s l = Ok s' →
  ∃ es', held_trace policies at_ s0 s' (fs ++ filter (λ f : preparedFlight, isRetained f = false) l.*2) (es ++ es').
Proof.
  intros Hpol Hat. revert s fs es. induction l as [|[rank f] l IH]; intros s fs es Hk Ht E; cbn [fold_outcome] in E.
  - injection E as <-. exists []. by rewrite !app_nil_r.
  - rewrite fmap_cons in *. cbn [snd] in *. apply Forall_cons in Hk as [[Hf Htr] Hk]. apply bind_ok in E as (s1 & E1 & E).
    pose proof (held_step_trace policies at_ Hpol _ _ _ _ _ _ _ Hat Htr Hf Ht E1) as Hs. rewrite filter_cons.
    destruct (isRetained f) eqn:Er.
    + rewrite decide_False by done. by eapply IH.
    + rewrite decide_True by done. destruct Hs as [e Hs].
      destruct (IH s1 (fs ++ [f]) (es ++ [e]) Hk Hs E) as [es' Ht']. exists (e :: es').
      by rewrite <-!app_assoc in Ht'.
Qed.

Record inbound_trace (policies : gmap string preparedPolicy) (at_ : Time) (s0 s : rebuild) (fs : list preparedFlight)
    (es : list allocatedEntry) : Prop := {
  it_allocated : allocated_ok policies at_ (rs_allocated s);
  it_flat : flat (rs_allocated s) ≡ₚ flat (rs_allocated s0) ++ es;
  it_placed : Forall2 (placed_as policies) fs es;
  it_diagnostics : rs_diagnostics s = rs_diagnostics s0
}.

Lemma inbound_trace_fold policies at_ heldLast s0 s fs es l s' :
  (∀ g p, policies !! g = Some p → policy_wf g p ∧ po_ContinuousSpacing p = true) →
  Forall (flight_known policies) l → inbound_trace policies at_ s0 s fs es →
  fold_outcome (inbound_step policies at_ heldLast) s l = Ok s' →
  ∃ es', inbound_trace policies at_ s0 s' (fs ++ l) (es ++ es').
Proof.
  intros Hpol. revert s fs es. induction l as [|f l IH]; intros s fs es Hk Ht E; cbn [fold_outcome] in E.
  - injection E as <-. exists []. by rewrite !app_nil_r.
  - apply Forall_cons in Hk as [Hf Hk]. apply bind_ok in E as (s1 & E1 & E).
    unfold inbound_step in E1. set (lower := inbound_lower _ _ _ _) in E1. apply bind_ok in E1 as ([c s2] & E1 & [= <-]).
    apply (place_spec policies at_ Hpol) in E1 as Hp; [|exact Hf|apply Ht].
    destruct (placed_as_bound _ _ _ _ _ _ _ Hp) as [Has _].
    { intros t Hft. unfold lower, inbound_lower. by apply raise_to_ge. }
    set (e := mk_alloc _ _ _) in Has. destruct (IH s2 (fs ++ [f]) (es ++ [e]) Hk) as [es' Ht']; [|done|].
    + split; [apply Hp| | |].
      * rewrite (pc_flat _ _ _ _ _ _ Hp), (it_flat _ _ _ _ _ _ Ht). by rewrite <-app_assoc.
      * apply Forall2_app; [apply Ht|by constructor].
      * by rewrite (pc_diagnostics _ _ _ _ _ _ Hp), (it_diagnostics _ _ _ _ _ _ Ht).
    + exists (e :: es'). by rewrite <-!app_assoc in Ht'.
Qed.

(** The flights a rebuild has a slot for, by what happens to them. *)
Lemma flights_partition blocked (l : list preparedFlight) :
  filter (λ f : preparedFlight, untimed f = false) l ≡ₚ
  filter (λ f : preparedFlight, isRetained f && negb (untimed f) = true) l ++
  filter (λ f : preparedFlight, rebuilt_tma f = true) l ++
  filter (λ f : preparedFlight, isRetained f = false) (filter (λ f : preparedFlight, rebuilt_held blocked f = true) l) ++
  filter (λ f : preparedFlight, rebuilt_inbound blocked f = true) l.
Proof.
  set (N := λ f : preparedFlight, negb (untimed f)).
  rewrite (list_filter_iff (λ f : preparedFlight, untimed f = false) (λ f, N f = true))
    by (intros f; unfold N; by rewrite negb_true_iff).
  rewrite <-(filter_split N (λ f : preparedFlight, isRetained f)).
  rewrite <-(filter_split (λ f : preparedFlight, N f && negb (isRetained f)) (λ f : preparedFlight, rebuilt_tma f)).
  rewrite <-(filter_split (λ f : preparedFlight, N f && negb (isRetained f) && negb (rebuilt_tma f)) (λ f : preparedFlight, rebuilt_held blocked f)).
  rewrite list_filter_filter. repeat apply Permutation_app; apply reflexive_eq, list_filter_iff; intros f; unfold N, untimed, rebuilt_inbound, rebuilt_held, rebuilt_tma;
    destruct (isRetained f), (fl_RebuildTMA f), (str_empty (fl_HoldingStackID f)), (bool_decide (fl_HoldingStackID f ∈ blocked)), (is_nil (retained_slot f)); simpl; naive_solver.
Qed.

Lemma callsigns_placed policies (P : preparedFlight → allocatedEntry → Prop) fs es :
  (∀ f e, P f e → placed_as policies f e) → Forall2 P fs es → callsigns es = (λ f : preparedFlight, fl_Callsign f) <$> fs.
Proof.
  intros HP H. unfold callsigns. induction H as [|f e fs es Hfe _ IH]; [done|]. rewrite !fmap_cons, IH.
  by rewrite (as_callsign _ _ _ (HP _ _ Hfe)).
Qed.

Lemma callsigns_retained (l : list preparedFlight) :
  callsigns (omap retained_entry l) =
  (λ f : preparedFlight, fl_Callsign f) <$> filter (λ f : preparedFlight, isRetained f && negb (untimed f) = true) l.
Proof.
  induction l as [|f l IH]; [done|]. rewrite filter_cons. unfold callsigns in *. simpl. unfold retained_entry at 1.
  case_decide as Hd; unfold untimed in Hd; destruct (isRetained f), (retained_slot f); simpl in Hd |- *; try done; first [exact IH|f_equal; exact IH].
Qed.

(** A successful rebuild with the entries of its stages. *)
Record staged (input : Input) (at_ : Time) (policies : gmap string preparedPolicy)
    (groups : gmap string (list preparedFlight)) (ordered : list preparedFlight) (s2 s3 : rebuild)
    (tmas helds ins : list allocatedEntry) : Prop := {
  sg_allocated : allocated_ok policies at_ (rs_allocated s3);
  sg_flat : flat (rs_allocated s3) ≡ₚ omap retained_entry (all_flights groups) ++ tmas ++ helds ++ ins;
  sg_tma : ∃ s1, tma_trace policies at_ s1 s2
    (sort_slice teta_less (filter (λ f : preparedFlight, rebuilt_tma f = true) (all_flights groups))) tmas;
  sg_held : ∃ h, held_trace policies at_ (mk_rebuild (rs_allocated s2) (rs_tmaLast s2) (rs_diagnostics s2 ++ priority_exceptions s2))
    h (filter (λ f : preparedFlight, isRetained f = false) ordered) helds;
  sg_inbound : Forall2 (placed_as policies)
    (sort_slice teta_less (filter (λ f : preparedFlight, rebuilt_inbound (blocked_holds (in_Flights input)) f = true) (all_flights groups))) ins;
  sg_ordered : merged (hold_queues (filter (λ f : preparedFlight, rebuilt_held (blocked_holds (in_Flights input)) f = true) (all_flights groups))) ordered ∧
    ordered ≡ₚ filter (λ f : preparedFlight, rebuilt_held (blocked_holds (in_Flights input)) f = true) (all_flights groups);
  sg_diagnostics : no_timing <$> filter (λ f, untimed f = true) (pf_Flight <$> all_flights groups) ⊆ rs_diagnostics s3
}.

Definition typed_transits (input : Input) : Prop := Forall (λ f, in_int64 (fl_HoldingTransit f)) (in_Flights input).

Lemma imap_pair_snd {A} (l : list A) : (imap pair l).*2 = l.
Proof. rewrite fmap_imap. etrans; [apply (imap_const id)|apply list_fmap_id]. Qed.

Lemma rebuilt_staged input at_ policies groups d s1 s2 ordered h s3 :
  typed_input input → typed_transits input → continuous input → 0 ≤ ns at_ →
  rebuilt input at_ policies groups d s1 s2 ordered h s3 →
  ∃ tmas helds ins, staged input at_ policies groups ordered s2 s3 tmas helds ins.
Proof.
  intros Hty Htr Hc Hat [_ Hp H1 H2 H3 H4 H5 _ _ _].
  set (blocked := blocked_holds (in_Flights input)) in *.
  pose proof (rebuild_policy input policies groups Hty Hc Hp) as Hpol.
  assert (Hknown : ∀ P : preparedFlight → Prop, ∀ `{!∀ x, base.Decision (P x)} (l : list preparedFlight),
    l ≡ₚ filter P (all_flights groups) → Forall (flight_known policies) l).
  { intros P ? l Hl. apply Forall_forall. intros f Hf. rewrite Hl in Hf. apply list_elem_of_filter in Hf as [_ Hf].
    by destruct (all_flights_known input policies groups Hty Hp f Hf). }
  destruct (retained_allocated input at_ policies groups Hty Hc Hp s1 H1) as (Ha1 & Hf1 & Hd1).
  edestruct (tma_trace_fold policies at_ s1 s1 [] []) as [tmas Ht]; [exact Hpol|eapply Hknown, sort_slice_perm| |exact H2|].
  { split; try done; by rewrite app_nil_r. }
  destruct (merge_stacks_merged (filter (λ f : preparedFlight, rebuilt_held blocked f = true) (all_flights groups))
    (hold_queues_stacked _) (hold_queues_flat _)) as (l & El & Hm & Hl).
  rewrite H3 in El. injection El as <-.
  set (s2' := mk_rebuild (rs_allocated s2) _ _) in H4.
  edestruct (held_trace_fold policies at_ s2' (mk_holding_state s2' (rebuild_input input) ∅ (time_add at_ Second) ∅) [] [])
    as [helds Hh]; [exact Hpol|exact Hat|..|exact H4|].
  { rewrite imap_pair_snd. apply Forall_forall. intros f Hf.
    split; [by eapply (proj1 (Forall_forall _ _)); [eapply Hknown, Hl|]|].
    rewrite Hl in Hf. apply list_elem_of_filter in Hf as [Hheld Hf].
    destruct (queued_evidence input policies groups Hty Hp f Hf Hheld) as (_ & _ & Hpos). split; [done|].
    destruct (all_flights_source input policies groups Hty Hp f Hf) as (raw & Hraw & Hfr). rewrite Hfr. simpl.
    destruct (rebuild_flight_holding (blocked_holds (in_Flights input)) raw) as (_ & _ & _ & _ & _ & -> & _).
    unfold typed_transits in Htr. rewrite Forall_forall in Htr. apply (Htr raw Hraw). }
  { destruct Ht as [Ht _ _ _ _ _ _]. split; try done; first [by rewrite app_nil_r|simpl; lia]. }
  rewrite imap_pair_snd in Hh. simpl in Hh.
  edestruct (inbound_trace_fold policies at_ (hs_heldLast h) (hs_rebuild h) (hs_rebuild h) [] []) as [ins Hi];
    [exact Hpol|eapply Hknown, sort_slice_perm| |exact H5|].
  { destruct Hh as [Hh _ _ _ _ _ _ _]. split; try done. by rewrite app_nil_r. }
  exists tmas, helds, ins. simpl in Ht, Hi. split.
  - apply Hi.
  - rewrite (it_flat _ _ _ _ _ _ Hi), (ht_flat _ _ _ _ _ _ Hh). simpl. by rewrite (tt_flat _ _ _ _ _ _ Ht), Hf1, <-!app_assoc.
  - by exists s1.
  - by exists h.
  - apply Hi.
  - by split.
  - rewrite (it_diagnostics _ _ _ _ _ _ Hi). intros x Hx. apply (ht_diagnostics _ _ _ _ _ _ Hh). simpl.
    apply elem_of_app. left. rewrite (tt_diagnostics _ _ _ _ _ _ Ht), Hd1. done.
Qed.

(** *** The entries of the result *)

Lemma restore_bound_cases flights e :
  restore_bound flights e = e ∨
  (∃ v, restore_bound flights e = mk_alloc (map_Flight (set_SlotNotBefore v) (ae_flight e)) (ae_time e) (ae_reason e)) ∧
  fl_ReleaseRank (ae_flight e) = None ∧ fl_RebuildTMA (ae_flight e) = false ∧ entry_retained e = false.
Proof.
  unfold restore_bound. destruct (is_nil _ && negb _ && negb _) eqn:E; [|by left]. right.
  apply andb_true_iff in E as [[H1 H2]%andb_true_iff H3]. apply negb_true_iff in H2, H3.
  split; [by eexists|]. split_and!; [by destruct (fl_ReleaseRank (ae_flight e))|done|done].
Qed.

Lemma restore_bound_less flights a b : entryLess (restore_bound flights a) (restore_bound flights b) = entryLess a b.
Proof.
  destruct (restore_bound_cases flights a) as [->|[[u ->] _]], (restore_bound_cases flights b) as [->|[[v ->] _]]; done.
Qed.

Lemma restore_bound_same flights e : same_entry (restore_bound flights e) e.
Proof. destruct (restore_bound_cases flights e) as [->|[[u ->] _]]; [done|]. by repeat split. Qed.

Lemma restore_bound_flight flights e :
  entry_retained (restore_bound flights e) = entry_retained e ∧ ae_time (restore_bound flights e) = ae_time e ∧
  fl_Callsign (ae_flight (restore_bound flights e)) = fl_Callsign (ae_flight e) ∧
  gapFillEligible (ae_flight (restore_bound flights e)) = gapFillEligible (ae_flight e) ∧
  entry_group (restore_bound flights e) = entry_group e ∧
  (∀ p, category_known p (ae_flight e) → category_known p (ae_flight (restore_bound flights e))).
Proof. destruct (restore_bound_cases flights e) as [->|[[u ->] _]]; done. Qed.

Lemma restored_ok at_ p group l flights :
  group_ok at_ p group l → group_ok at_ p group (restore_bound flights <$> l).
Proof.
  intros [[H1 H2 H3] H4]. split; [split|].
  - apply chain_fmap. eapply chain_mono; [|exact H1]. cbv beta. intros a b Hab. by rewrite restore_bound_less.
  - apply Forall_fmap. eapply Forall_impl; [exact H2|]. intros e He. unfold compose, entry_started.
    by destruct (restore_bound_flight flights e) as (_ & -> & _).
  - apply chain_fmap. eapply chain_mono; [|exact H3]. cbv beta. intros a b [(Ha & Hb & Ht)|Hab]; [left|right].
    + pose proof (restore_bound_flight flights a) as (Hra & _). pose proof (restore_bound_flight flights b) as (Hrb & Htb & _).
      unfold past, entry_retained in *. by rewrite Hra, Hrb, Htb.
    + by rewrite !restore_bound_same.
  - apply Forall_fmap. eapply Forall_impl; [exact H4|]. intros e [He1 He2].
    destruct (restore_bound_flight flights e) as (_ & _ & _ & _ & Hg & Hk). split; [|by apply Hk].
    change (entry_group (restore_bound flights e) = group). by rewrite Hg.
Qed.

Lemma foldl_rebuild_entries group l k r :
  re_Entries (foldl (add_rebuild_entry group) r (imap (λ i e, ((k + i)%nat, e)) l)) =
  re_Entries r ++ imap (λ i, rebuild_entry group (k + i)) l.
Proof.
  revert k r. induction l as [|e l IH]; intros k r; [by rewrite app_nil_r|]. rewrite !imap_cons. cbn [foldl].
  rewrite (imap_ext _ (λ i e, ((S k + i)%nat, e)) l) by (intros; simpl; f_equal; lia).
  rewrite IH. cbn [add_rebuild_entry re_Entries]. rewrite <-app_assoc. simpl. do 2 f_equal.
  apply imap_ext. intros i x _. simpl. f_equal. lia.
Qed.

Definition filled_run (policies : gmap string preparedPolicy) (flights : list preparedFlight) (at_ : Time)
    (m : gmap string (list allocatedEntry)) (ru : string * list allocatedEntry) : Prop :=
  ∃ p, policies !! ru.1 = Some p ∧ fillSTARSpacingGaps p (restore_bound flights <$> entries_in m ru.1) at_ = Ok ru.2.

Definition run_entries_of (ru : string * list allocatedEntry) : list CandidateEntry := imap (rebuild_entry ru.1) ru.2.

Lemma rebuild_result_runs policies flights at_ m r :
  rebuild_result policies flights at_ m = Ok r →
  ∃ runs, runs.*1 ≡ₚ (map_to_list m).*1 ∧ Forall (filled_run policies flights at_ m) runs ∧
    re_Entries r = runs ≫= run_entries_of.
Proof.
  unfold rebuild_result. intros E.
  assert (H : ∀ groups r0, fold_outcome (finish_group policies flights at_ m) r0 groups = Ok r →
    ∃ runs, runs.*1 = groups ∧ Forall (filled_run policies flights at_ m) runs ∧
      re_Entries r = re_Entries r0 ++ (runs ≫= run_entries_of)).
  { induction groups as [|g groups IH]; intros r0 E0; cbn [fold_outcome] in E0.
    - injection E0 as <-. exists []. by rewrite app_nil_r.
    - apply bind_ok in E0 as (r1 & E1 & E0). destruct (IH r1 E0) as (runs & Hg & Hr & He).
      unfold finish_group in E1. apply bind_ok in E1 as (p & Hp & E1). apply bind_ok in E1 as (l & Hl & [= <-]).
      exists ((g, l) :: runs). rewrite fmap_cons, Hg. split_and!; [done| |].
      + constructor; [|done]. exists p. split; [by apply deref_ok in Hp|done].
      + rewrite He. pose proof (foldl_rebuild_entries g l 0 r0) as Hf. simpl in Hf.
        change (imap pair l) with (imap (λ i e, (i, e)) l). rewrite Hf, <-app_assoc. done. }
  destruct (H _ _ E) as (runs & Hg & Hr & He). exists runs. split_and!; [|done|done].
  rewrite Hg. apply sort_slice_perm.
Qed.

(** An entry of the result and the entry it was placed as. *)
Record filled_entry (e0 e : allocatedEntry) : Prop := {
  fe_callsign : fl_Callsign (ae_flight e) = fl_Callsign (ae_flight e0);
  fe_retained : entry_retained e = entry_retained e0;
  fe_group : entry_group e = entry_group e0;
  fe_known : ∀ p, category_known p (ae_flight e0) → category_known p (ae_flight e);
  fe_time : gapFillEligible (ae_flight e0) = false → ae_time e = ae_time e0
}.

Lemma filled_run_spec policies at_ m flights g l p :
  policy_wf g p → po_ContinuousSpacing p = true → policies !! g = Some p → group_ok at_ p g (entries_in m g) →
  filled_run policies flights at_ m (g, l) →
  group_ok at_ p g l ∧ callsigns l ≡ₚ callsigns (entries_in m g) ∧
  ∀ e, e ∈ l → ∃ e0, e0 ∈ entries_in m g ∧ filled_entry e0 e.
Proof.
  intros Hwf Hc Hp Hok (p' & Hp' & E). simpl in Hp', E. assert (p' = p) as -> by congruence.
  pose proof (restored_ok at_ p g _ flights Hok) as [Hsp Hkn].
  destruct (filling_facts p at_ (pw_grid _ _ Hwf) Hc _ _ _ Hsp E) as (H1 & H2 & H3).
  assert (Hfrom : ∀ e, e ∈ l → ∃ e0, e0 ∈ entries_in m g ∧ filled_entry e0 e).
  { intros e He. rewrite Forall_forall in H3. specialize (H3 e He).
    assert (Hr : ∀ x, x ∈ restore_bound flights <$> entries_in m g → ∃ e0, e0 ∈ entries_in m g ∧ filled_entry e0 x ∧
                        gapFillEligible (ae_flight x) = gapFillEligible (ae_flight e0)).
    { intros x (e0 & -> & He0)%list_elem_of_fmap. exists e0. split; [done|].
      destruct (restore_bound_flight flights e0) as (R1 & R2 & R3 & R4 & R5 & R6). by split. }
    destruct H3 as [Hin|(x & Hx & Hfl & Hel & _)].
    - destruct (Hr e Hin) as (e0 & He0 & Hfe & _). by exists e0.
    - destruct (Hr x Hx) as (e0 & He0 & [F1 F2 F3 F4 _] & Hel'). exists e0. split; [done|].
      assert (Hn : same_spacing (ae_flight e) (ae_flight x) ∧ entry_retained e = entry_retained x ∧ entry_group e = entry_group x ∧
                   ∀ p, category_known p (ae_flight x) → category_known p (ae_flight e)).
      { unfold entry_retained, entry_group. rewrite Hfl. split; [apply noteOperation_spacing|].
        unfold noteOperation. by destruct (existsb _ _). }
      destruct Hn as (_ & N2 & N3 & N4). split.
      + rewrite Hfl, noteOperation_callsign. done.
      + by rewrite N2.
      + by rewrite N3.
      + auto.
      + intros Hf. congruence. }
  split_and!; [|rewrite H2; unfold callsigns; rewrite <-list_fmap_compose; apply reflexive_eq, list_fmap_ext; intros i e _;
                by destruct (restore_bound_flight flights e) as (_ & _ & ? & _)|done].
  split; [done|]. apply Forall_forall. intros e He. destruct (Hfrom e He) as (e0 & He0 & Hfe).
  pose proof (go_known _ _ _ _ Hok) as Hk. rewrite Forall_forall in Hk. destruct (Hk e0 He0) as [Hg0 Hk0]. split.
  - change (entry_group e = g). by rewrite (fe_group _ _ Hfe).
  - by apply (fe_known _ _ Hfe).
Qed.

Section finished.
Context (policies : gmap string preparedPolicy) (at_ : Time) (m : gmap string (list allocatedEntry)).
Context (flights : list preparedFlight) (runs : list (string * list allocatedEntry)).
Hypothesis Hpol : ∀ g p, policies !! g = Some p → policy_wf g p ∧ po_ContinuousSpacing p = true.
Hypothesis Hok : allocated_ok policies at_ m.
Hypothesis Hgroups : runs.*1 ≡ₚ (map_to_list m).*1.
Hypothesis Hruns : Forall (filled_run policies flights at_ m) runs.

Lemma finished_run g l :
  (g, l) ∈ runs → ∃ p, policies !! g = Some p ∧ policy_wf g p ∧ group_ok at_ p g l ∧ callsigns l ≡ₚ callsigns (entries_in m g) ∧
    ∀ e, e ∈ l → ∃ e0, e0 ∈ entries_in m g ∧ filled_entry e0 e.
Proof using Hpol Hok Hruns.
  intros Hin. pose proof (proj1 (Forall_forall _ _) Hruns _ Hin) as Hr. destruct Hr as (p & Hp & E). simpl in Hp.
  destruct (Hpol _ _ Hp) as [Hwf Hc]. exists p. split_and!; [done|done|..];
    apply (filled_run_spec policies at_ m flights g l p Hwf Hc Hp (Hok _ _ Hp)); exists p; done.
Qed.

(** A candidate comes from one run, at the position of its sequence number. *)
Lemma finished_candidate c :
  c ∈ runs ≫= run_entries_of → ∃ g l i e, (g, l) ∈ runs ∧ l !! i = Some e ∧ c = rebuild_entry g i e.
Proof using Type.
  rewrite list_elem_of_bind. intros ([g l] & Hc & Hin). unfold run_entries_of in Hc. apply list_elem_of_lookup in Hc as [i Hi].
  rewrite list_lookup_imap in Hi. simpl in Hi. destruct (l !! i) as [e|] eqn:E; [|done]. injection Hi as <-. eauto 7.
Qed.

Lemma finished_same_run g l l' : (g, l) ∈ runs → (g, l') ∈ runs → l = l'.
Proof using Hgroups.
  intros H H'. apply list_elem_of_lookup in H as [i Hi], H' as [j Hj].
  assert (Hnd : NoDup runs.*1) by (rewrite Hgroups; apply NoDup_fst_map_to_list).
  assert (i = j) as ->; [|congruence]. eapply NoDup_lookup; [exact Hnd|..]; rewrite list_lookup_fmap; [by rewrite Hi|by rewrite Hj].
Qed.

(** What a candidate was placed as. *)
Lemma finished_source c :
  c ∈ runs ≫= run_entries_of →
  ∃ e0, e0 ∈ flat m ∧ ce_Callsign c = fl_Callsign (ae_flight e0) ∧ ce_RunwayGroupID c = entry_group e0 ∧
    ce_Protected c = entry_retained e0 ∧ (gapFillEligible (ae_flight e0) = false → ce_Time c = ae_time e0).
Proof using Hpol Hok Hruns.
  intros (g & l & i & e & Hin & Hi & ->)%finished_candidate. destruct (finished_run g l Hin) as (p & Hp & _ & Hg & _ & Hfrom).
  apply list_elem_of_lookup_2 in Hi. destruct (Hfrom e Hi) as (e0 & He0 & Hfe). exists e0. simpl.
  split_and!; [by apply entries_flat in He0|apply Hfe| |apply Hfe|apply Hfe].
  rewrite <-(fe_group _ _ Hfe). pose proof (go_known _ _ _ _ Hg) as Hk. rewrite Forall_forall in Hk. by destruct (Hk e Hi) as [<- _].
Qed.

Lemma finished_separated a b :
  a ∈ runs ≫= run_entries_of → b ∈ runs ≫= run_entries_of → ce_RunwayGroupID a = ce_RunwayGroupID b →
  ce_Sequence b = ce_Sequence a + 1 →
  ∃ p, policies !! ce_RunwayGroupID a = Some p ∧
    (separated_candidates p a b ∨ ce_Protected a = true ∧ ce_Protected b = true ∧ ns (ce_Time b) < ns at_).
Proof using Hpol Hok Hgroups Hruns.
  intros (g & l & i & ea & Hin & Hi & ->)%finished_candidate (g' & l' & j & eb & Hin' & Hj & ->)%finished_candidate Hg Hs.
  simpl in Hg, Hs. subst g'. assert (l' = l) as -> by by eapply finished_same_run. assert (j = S i) as -> by lia.
  destruct (finished_run g l Hin) as (p & Hp & Hwf & [[Hset Hst Hch] Hk] & _). exists p. split; [done|].
  pose proof (proj1 (chain_lookup _ _) Hch i ea eb Hi Hj) as [(H1 & H2 & H3)|Hadj]; [by right|left].
  rewrite Forall_forall in Hk. destruct (Hk ea ltac:(by eapply list_elem_of_lookup_2)) as [_ Ha].
  destruct (Hk eb ltac:(by eapply list_elem_of_lookup_2)) as [_ Hb].
  destruct (adjacentValid_spec p ea eb (pw_grid _ _ Hwf) Hadj) as [Hlt Hgap]. split; simpl; [|done].
  rewrite <-(wakeGap_minimum _ _ _ _ Hwf Ha Hb).
  pose proof (requiredGap_base p (ae_flight ea) (ae_flight eb) (ae_time eb)).
  pose proof (requiredGap_wake p (ae_flight ea) (ae_flight eb) (ae_time eb)). lia.
Qed.

Lemma finished_callsigns : ce_Callsign <$> (runs ≫= run_entries_of) ≡ₚ callsigns (flat m).
Proof using Hpol Hok Hgroups Hruns.
  assert (Hflat : flat m ≡ₚ runs.*1 ≫= entries_in m).
  { rewrite Hgroups. unfold flat. assert (H : ∀ g l, (g, l) ∈ map_to_list m → entries_in m g = l).
    { intros g l Hl. apply elem_of_map_to_list in Hl. unfold entries_in. by rewrite Hl. }
    revert H. clear Hgroups. induction (map_to_list m) as [|[g l] kl IH]; intros H; [done|]. rewrite fmap_cons, !bind_cons.
    cbn [fst snd]. rewrite (H g l), IH by (left || (intros; apply H; by right)). done. }
  unfold callsigns. rewrite Hflat. assert (Hall : ∀ g l, (g, l) ∈ runs → callsigns l ≡ₚ callsigns (entries_in m g)).
  { intros g l Hl. by destruct (finished_run g l Hl) as (_ & _ & _ & _ & ? & _). }
  clear Hflat Hruns Hgroups. induction runs as [|[g l] rs IH]; [done|]. rewrite fmap_cons, !bind_cons, !fmap_app.
  rewrite IH by (intros; apply Hall; by right). apply Permutation_app; [|done]. cbn [fst].
  unfold callsigns in Hall. rewrite <-(Hall g l) by left. unfold run_entries_of. cbn [fst snd]. rewrite fmap_imap.
  apply reflexive_eq. etrans; [|apply (imap_const (λ e : allocatedEntry, fl_Callsign (ae_flight e)))]. done.
Qed.
End finished.

(** ** The properties *)

Section claims.
Context (input : Input) (at_ : Time) (d : RebuildDecision).
Context (policies : gmap string preparedPolicy) (groups : gmap string (list preparedFlight)).
Context (s1 s2 s3 : rebuild) (ordered : list preparedFlight) (h : holding_state).
Hypothesis Htyped : typed_input input.
Hypothesis Hcont : continuous input.
Hypothesis Hrebuilt : rebuilt input at_ policies groups d s1 s2 ordered h s3.

Definition kept_callsigns : list string :=
  fl_Callsign <$> filter (λ f, untimed (rebuild_flight (blocked_holds (in_Flights input)) f) = false) (in_Flights input).

Lemma all_flights_filter (P : Flight → bool) :
  pf_Flight <$> filter (λ f : preparedFlight, P f = true) (all_flights groups) ≡ₚ
  filter (λ f, P f = true) (canonical_flight ∘ rebuild_flight (blocked_holds (in_Flights input)) <$> in_Flights input).
Proof using Htyped Hrebuilt.
  pose proof (filter_fmap (λ f : Flight, P f = true) pf_Flight (all_flights groups)) as E.
  etrans; [apply reflexive_eq; symmetry; exact E|].
  rewrite (all_flights_raw _ _ _ (rebuild_input_ok input policies groups Htyped (rb_prepared _ _ _ _ _ _ _ _ _ _ Hrebuilt))).
  simpl. by rewrite list_fmap_compose.
Qed.

Lemma staged_callsigns tmas helds ins :
  staged input at_ policies groups ordered s2 s3 tmas helds ins → callsigns (flat (rs_allocated s3)) ≡ₚ kept_callsigns.
Proof using Htyped Hrebuilt.
  intros [_ Hf [s Ht] [h' Hh] Hi [_ Ho] _].
  assert (E : callsigns (flat (rs_allocated s3)) ≡ₚ
    (λ f : preparedFlight, fl_Callsign f) <$> filter (λ f : preparedFlight, untimed f = false) (all_flights groups)).
  { unfold callsigns. rewrite Hf, !fmap_app. fold (callsigns (omap retained_entry (all_flights groups))) (callsigns tmas) (callsigns helds) (callsigns ins).
    rewrite callsigns_retained, (callsigns_placed policies _ _ _ (λ f e H, proj1 H) (tt_placed _ _ _ _ _ _ Ht)).
    rewrite (callsigns_placed policies _ _ _ (λ f e H, proj1 H) (ht_placed _ _ _ _ _ _ Hh)).
    rewrite (callsigns_placed policies _ _ _ (λ f e H, H) Hi), !sort_slice_perm, Ho.
    rewrite (flights_partition (blocked_holds (in_Flights input))), !fmap_app. done. }
  rewrite E. unfold kept_callsigns.
  pose proof (all_flights_filter (λ f, negb (untimed f))) as Hp. apply (fmap_Permutation fl_Callsign) in Hp.
  rewrite <-list_fmap_compose, filter_fmap, <-list_fmap_compose in Hp.
  assert (Hcs : ∀ f, (fl_Callsign ∘ (canonical_flight ∘ rebuild_flight (blocked_holds (in_Flights input)))) f = fl_Callsign f)
    by (intros f; apply rebuild_flight_holding).
  rewrite (list_fmap_ext _ fl_Callsign) in Hp by (intros; apply Hcs).
  rewrite (list_filter_iff _ (λ f : preparedFlight, negb (untimed f) = true)) by (intros f; by rewrite negb_true_iff).
  rewrite (list_filter_iff (λ f, untimed (rebuild_flight _ f) = false)
    (λ f, negb (untimed ((canonical_flight ∘ rebuild_flight (blocked_holds (in_Flights input))) f)) = true))
    by (intros f; by rewrite negb_true_iff).
  exact Hp.
Qed.

Lemma kept_callsigns_nodup : NoDup kept_callsigns.
Proof using Htyped Hrebuilt.
  apply NoDup_fmap_filter.
  pose proof (io_nodup _ _ _ (rebuild_input_ok input policies groups Htyped (rb_prepared _ _ _ _ _ _ _ _ _ _ Hrebuilt))) as Hn.
  simpl in Hn. rewrite <-list_fmap_compose in Hn. erewrite list_fmap_ext; [exact Hn|].
  intros i f _. symmetry. apply rebuild_flight_holding.
Qed.

Lemma rebuilt_finished tmas helds ins :
  staged input at_ policies groups ordered s2 s3 tmas helds ins →
  ∃ runs, runs.*1 ≡ₚ (map_to_list (rs_allocated s3)).*1 ∧
    Forall (filled_run policies (all_flights groups) at_ (rs_allocated s3)) runs ∧
    re_Entries (de_Candidate (rbd_Decision d)) = runs ≫= run_entries_of.
Proof using Hrebuilt. intros _. apply rebuild_result_runs. apply Hrebuilt. Qed.

(** The slot of a terminal-area or released aircraft is the one it was placed on. *)
Lemma placed_candidate tmas helds ins c e :
  staged input at_ policies groups ordered s2 s3 tmas helds ins →
  c ∈ re_Entries (de_Candidate (rbd_Decision d)) → e ∈ tmas ++ helds → ce_Callsign c = fl_Callsign (ae_flight e) →
  fl_RebuildTMA (ae_flight e) = true ∨ is_Some (fl_ReleaseRank (ae_flight e)) →
  ce_Time c = ae_time e ∧ ce_RunwayGroupID c = entry_group e.
Proof using Htyped Hcont Hrebuilt.
  intros Hs Hc He Hce Hfix. destruct (rebuilt_finished _ _ _ Hs) as (runs & Hg & Hr & Hen). rewrite Hen in Hc.
  pose proof (rebuild_policy input policies groups Htyped Hcont (rb_prepared _ _ _ _ _ _ _ _ _ _ Hrebuilt)) as Hpol.
  destruct (finished_source policies at_ (rs_allocated s3) (all_flights groups) runs Hpol (sg_allocated _ _ _ _ _ _ _ _ _ _ Hs) Hr c Hc)
    as (e0 & He0 & Hcs & Hgr & _ & Htime).
  assert (e0 = e) as ->.
  { assert (Hin : e ∈ flat (rs_allocated s3)).
    { rewrite (sg_flat _ _ _ _ _ _ _ _ _ _ Hs). set_solver. }
    pose proof kept_callsigns_nodup as Hn. rewrite <-(staged_callsigns _ _ _ Hs) in Hn.
    apply list_elem_of_lookup in He0 as [i Hi], Hin as [j Hj].
    assert (i = j) as <-; [|congruence]. unfold callsigns in Hn.
    eapply NoDup_lookup; [exact Hn|..]; rewrite list_lookup_fmap; [by rewrite Hi|]. rewrite Hj. simpl. by rewrite <-Hcs, Hce. }
  split; [|done]. apply Htime. unfold gapFillEligible.
  destruct Hfix as [->|[r ->]]; simpl; repeat rewrite ?andb_false_r, ?andb_false_l; done.
Qed.
End claims.

(** C33: In a rebuilt sequence two consecutive arrivals of a runway group are
    apart by the rate interval and the wake minimum of their categories; only
    two retained reservations of the past may be closer. *)
Theorem rebuild_separated input at_ d a b :
  typed_input input → typed_transits input → continuous input → 0 ≤ ns at_ →
  ApplyArrivalSequenceRebuild input at_ = Ok d →
  a ∈ re_Entries (de_Candidate (rbd_Decision d)) → b ∈ re_Entries (de_Candidate (rbd_Decision d)) →
  ce_RunwayGroupID a = ce_RunwayGroupID b → ce_Sequence b = ce_Sequence a + 1 →
  ∃ policies groups p, prepareInput (rebuild_input input) = Ok (policies, groups) ∧ policies !! ce_RunwayGroupID a = Some p ∧
    (separated_candidates p a b ∨ ce_Protected a = true ∧ ce_Protected b = true ∧ ns (ce_Time b) < ns at_).
Proof.
  intros Hty Htr Hc Hat E Ha Hb Hg Hs. destruct (rebuild_rebuilt _ _ _ E) as (policies & groups & s1 & s2 & ordered & h & s3 & Hr).
  destruct (rebuilt_staged _ _ _ _ _ _ _ _ _ _ Hty Htr Hc Hat Hr) as (tmas & helds & ins & Hst).
  destruct (rebuilt_finished _ _ _ _ _ _ _ _ _ _ Hr _ _ _ Hst) as (runs & Hgr & Hruns & Hen). rewrite Hen in Ha, Hb.
  destruct (finished_separated policies at_ (rs_allocated s3) (all_flights groups) runs
    (rebuild_policy input policies groups Hty Hc (rb_prepared _ _ _ _ _ _ _ _ _ _ Hr)) (sg_allocated _ _ _ _ _ _ _ _ _ _ Hst)
    Hgr Hruns a b Ha Hb Hg Hs) as (p & Hp & Hsep).
  exists policies, groups, p. split_and!; [apply Hr|done|done].
Qed.

(** A rebuilt sequence holds every flight exactly once, except the retained
    flights without any slot, and each of those is reported. *)
Theorem rebuild_complete input at_ d :
  typed_input input → typed_transits input → continuous input → 0 ≤ ns at_ →
  ApplyArrivalSequenceRebuild input at_ = Ok d →
  let untimed_flight f := untimed (rebuild_flight (blocked_holds (in_Flights input)) f) in
  ce_Callsign <$> re_Entries (de_Candidate (rbd_Decision d)) ≡ₚ
    fl_Callsign <$> filter (λ f, untimed_flight f = false) (in_Flights input) ∧
  ∀ f, f ∈ in_Flights input → untimed_flight f = true → no_timing f ∈ ro_Diagnostics (rbd_Outcome d).
Proof.
  intros Hty Htr Hc Hat E. destruct (rebuild_rebuilt _ _ _ E) as (policies & groups & s1 & s2 & ordered & h & s3 & Hr).
  destruct (rebuilt_staged _ _ _ _ _ _ _ _ _ _ Hty Htr Hc Hat Hr) as (tmas & helds & ins & Hst).
  destruct (rebuilt_finished _ _ _ _ _ _ _ _ _ _ Hr _ _ _ Hst) as (runs & Hgr & Hruns & Hen). cbv zeta. split.
  - rewrite Hen, (finished_callsigns policies at_ (rs_allocated s3) (all_flights groups) runs
      (rebuild_policy input policies groups Hty Hc (rb_prepared _ _ _ _ _ _ _ _ _ _ Hr)) (sg_allocated _ _ _ _ _ _ _ _ _ _ Hst)
      Hgr Hruns). by apply (staged_callsigns _ _ _ _ _ _ _ _ _ _ Hty Hr _ _ _ Hst).
  - intros f Hf Hu. rewrite (rb_diagnostics _ _ _ _ _ _ _ _ _ _ Hr). apply elem_of_app. right.
    apply (sg_diagnostics _ _ _ _ _ _ _ _ _ _ Hst). apply list_elem_of_fmap.
    exists (canonical_flight (rebuild_flight (blocked_holds (in_Flights input)) f)). split.
    + unfold no_timing, diagnose. simpl. by destruct (rebuild_flight_holding (blocked_holds (in_Flights input)) f) as [-> _].
    + apply list_elem_of_filter. split; [done|].
      rewrite (all_flights_raw _ _ _ (rebuild_input_ok input policies groups Hty (rb_prepared _ _ _ _ _ _ _ _ _ _ Hr))).
      by do 2 apply list_elem_of_fmap_2.
Qed.

(** *** Release order *)

Lemma in_order_filter {A} (P : A → Prop) `{!∀ x, base.Decision (P x)} (R : A → A → Prop) (l : list A) :
  in_order R (filter P l) → in_order (λ a b, P a → P b → R a b) l.
Proof.
  induction l as [|x l IH]; [intros _ i j a b _ Hi; by rewrite lookup_nil in Hi|].
  rewrite filter_cons. case_decide as Hx.
  - rewrite in_order_cons. intros [H1 H2]. apply in_order_cons. split; [|by apply IH].
    intros a Ha _ HPa. apply H1. by apply list_elem_of_filter.
  - intros Hl. apply in_order_cons. split; [|by apply IH]. intros a _ HPx. done.
Qed.

Lemma in_order_Forall2 {A B} (P : A → B → Prop) (R : B → B → Prop) (l : list A) (k : list B) :
  Forall2 P l k → in_order R k → in_order (λ a a', ∃ b b', b ∈ k ∧ b' ∈ k ∧ P a b ∧ P a' b' ∧ R b b') l.
Proof.
  intros HP HR i j a a' Hij Hi Hj. destruct (Forall2_lookup_l _ _ _ _ _ HP Hi) as (b & Hb & Hab).
  destruct (Forall2_lookup_l _ _ _ _ _ HP Hj) as (b' & Hb' & Hab'). exists b, b'.
  split_and!; [by eapply list_elem_of_lookup_2..|done|done|by eapply HR].
Qed.

Lemma stack_less_asym a b : stack_less a b = true → stack_less b a = false.
Proof.
  unfold stack_less. rewrite (Z.eqb_sym (default 0 (fl_HoldingAltitudeFeet b))). destruct (Z.eqb_spec (default 0 (fl_HoldingAltitudeFeet a)) (default 0 (fl_HoldingAltitudeFeet b)));
    simpl; [apply holdingAgeLess_asym|]. rewrite Z.ltb_lt, Z.ltb_ge. lia.
Qed.

(** When the aircraft of a candidate leaves its hold. *)
Definition departs (c : CandidateEntry) (f : Flight) : Z := ns (ce_Time c) - fl_HoldingTransit f.

(** C34: The rebuild releases the aircraft of the holds, lowest first within a stack, and
    among those that could be next the one that holds longest. Of any two aircraft in
    this order that are not retained, the later one leaves no earlier than the other,
    both after the calculation time, and a minute later when both leave the same hold.
    Retained aircraft - frozen ones and those whose reservation is kept - stay on their
    reservations, which can break the order. *)
Theorem rebuild_release_order input at_ d :
  typed_input input → typed_transits input → continuous input → 0 ≤ ns at_ →
  ApplyArrivalSequenceRebuild input at_ = Ok d →
  ∃ ordered : list preparedFlight,
    ro_ReleaseOrder (rbd_Outcome d) = (λ f : preparedFlight, fl_Callsign f) <$> ordered ∧
    pf_Flight <$> ordered ≡ₚ filter (λ f, rebuilt_held (blocked_holds (in_Flights input)) f = true)
      (canonical_flight ∘ rebuild_flight (blocked_holds (in_Flights input)) <$> in_Flights input) ∧
    oldest_first ordered ∧ (∀ s, chain (λ f g, stack_less g f = false) (of_stack s ordered)) ∧
    in_order (λ f g : preparedFlight, isRetained f = false → isRetained g = false → ∀ a b,
        a ∈ re_Entries (de_Candidate (rbd_Decision d)) → b ∈ re_Entries (de_Candidate (rbd_Decision d)) →
        ce_Callsign a = fl_Callsign f → ce_Callsign b = fl_Callsign g →
        ns at_ + Second ≤ departs a f ≤ departs b g ∧
        (fl_HoldingStackID f = fl_HoldingStackID g → departs a f + Minute ≤ departs b g)) ordered.
Proof.
  intros Hty Htr Hc Hat E. destruct (rebuild_rebuilt _ _ _ E) as (policies & groups & s1 & s2 & ordered & h & s3 & Hr).
  destruct (rebuilt_staged _ _ _ _ _ _ _ _ _ _ Hty Htr Hc Hat Hr) as (tmas & helds & ins & Hst).
  exists ordered. destruct (sg_ordered _ _ _ _ _ _ _ _ _ _ Hst) as [Hm Ho].
  set (held := filter _ (all_flights groups)) in Hm, Ho.
  split_and!; [apply Hr| | | |].
  - rewrite Ho. by apply (all_flights_filter _ _ _ _ _ _ _ _ _ _ Hty Hr).
  - by eapply merged_oldest, Hm; apply hold_queues_stacked.
  - intros s. rewrite (merged_stack _ _ s (hold_queues_stacked _) Hm). unfold entries_in.
    destruct (hold_queues held !! s) as [q|] eqn:Eq; [|done]. apply hold_queues_lookup in Eq as ->.
    apply sort_slice_adj, stack_less_asym.
  - destruct (sg_held _ _ _ _ _ _ _ _ _ _ Hst) as [h' Hh]. intros i j f g Hij Hi Hj Hf Hg a b Ha Hb Hca Hcb.
    pose proof (in_order_filter _ _ _ (in_order_Forall2 _ _ _ _ (ht_placed _ _ _ _ _ _ Hh) (ht_order _ _ _ _ _ _ Hh))) as Hord.
    destruct (Hord i j f g Hij Hi Hj Hf Hg) as (e & e' & He & He' & [Pf Rf] & [Pg Rg] & Hbehind & Hmin).
    assert (Hin : ∀ x, x ∈ helds → x ∈ tmas ++ helds) by set_solver.
    destruct (placed_candidate _ _ _ _ _ _ _ _ _ _ Hty Hc Hr _ _ _ a e Hst Ha (Hin _ He)) as [Ta _];
      [by rewrite (as_callsign _ _ _ Pf)|by right|].
    destruct (placed_candidate _ _ _ _ _ _ _ _ _ _ Hty Hc Hr _ _ _ b e' Hst Hb (Hin _ He')) as [Tb _];
      [by rewrite (as_callsign _ _ _ Pg)|by right|].
    pose proof (ht_released _ _ _ _ _ _ Hh) as Hrel. rewrite Forall_forall in Hrel. destruct (Hrel e He) as ([Hlo _] & _).
    unfold departs, release_ns, entry_stack, entry_ns in *.
    rewrite Ta, Tb, <-(as_transit _ _ _ Pf), <-(as_transit _ _ _ Pg), <-(as_stack _ _ _ Pf), <-(as_stack _ _ _ Pg).
    split; [lia|done].
Qed.

(** *** Priority of the terminal area *)

(** The prepared flight of a flight of the input. *)
Lemma prepared_source input policies groups f :
  input_ok (rebuild_input input) policies groups → f ∈ in_Flights input →
  ∃ f' : preparedFlight, f' ∈ all_flights groups ∧
    pf_Flight f' = canonical_flight (rebuild_flight (blocked_holds (in_Flights input)) f).
Proof.
  intros Hin Hf. assert (H : canonical_flight (rebuild_flight (blocked_holds (in_Flights input)) f) ∈ pf_Flight <$> all_flights groups).
  { rewrite (all_flights_raw _ _ _ Hin). simpl. by do 2 apply list_elem_of_fmap_2. }
  apply list_elem_of_fmap in H as (f' & -> & Hf'). by exists f'.
Qed.

Lemma sorted_teta_before (l : list preparedFlight) (f g : preparedFlight) :
  f ∈ l → g ∈ l → ns (fl_OperationalTETA f) < ns (fl_OperationalTETA g) →
  ∃ i j, (i < j)%nat ∧ sort_slice teta_less l !! i = Some f ∧ sort_slice teta_less l !! j = Some g.
Proof.
  intros Hf Hg Hlt. apply (elem_of_sort_slice teta_less) in Hf, Hg.
  apply list_elem_of_lookup in Hf as [i Hi], Hg as [j Hj]. exists i, j. split; [|done].
  assert (Hc : chain (λ a b : preparedFlight, ns (fl_OperationalTETA a) ≤ ns (fl_OperationalTETA b)) (sort_slice teta_less l)).
  { apply sort_time_key; unfold teta_less, time_eqb, before; intros a b.
    - destruct (Z.eqb_spec (ns (fl_OperationalTETA a)) (ns (fl_OperationalTETA b))); simpl; [intros _; lia|].
      rewrite Z.ltb_lt. lia.
    - intros ?. rewrite (proj2 (Z.eqb_neq _ _)) by lia. simpl. apply Z.ltb_lt. lia. }
  destruct (Nat.lt_total i j) as [?|[->|?]]; [done| |].
  { rewrite Hi in Hj. injection Hj as ->. lia. }
  pose proof (chain_trans_lookup (λ a b : preparedFlight, ns (fl_OperationalTETA a) ≤ ns (fl_OperationalTETA b))
    (sort_slice teta_less l) j i g f ltac:(cbv beta; intros; lia) Hc ltac:(done) Hj Hi). cbv beta in *. lia.
Qed.

(** A rebuild lands the arrivals inside the terminal area, unless retained,
    after the calculation time, no earlier than estimated and in the order of
    their estimates, and no aircraft released from a hold lands ahead of one. *)
Theorem rebuild_tma_first input at_ d f a :
  typed_input input → typed_transits input → continuous input → 0 ≤ ns at_ →
  ApplyArrivalSequenceRebuild input at_ = Ok d →
  let blocked := blocked_holds (in_Flights input) in
  let rebuilt f := rebuild_flight blocked f in
  f ∈ in_Flights input → rebuilt_tma (rebuilt f) = true →
  a ∈ re_Entries (de_Candidate (rbd_Decision d)) → ce_Callsign a = fl_Callsign f →
  ns at_ + Second ≤ ns (ce_Time a) ∧ ns (fl_OperationalTETA f) ≤ ns (ce_Time a) ∧
  ∀ g b, g ∈ in_Flights input → b ∈ re_Entries (de_Candidate (rbd_Decision d)) → ce_Callsign b = fl_Callsign g →
    fl_RunwayGroupID f = fl_RunwayGroupID g →
    (rebuilt_tma (rebuilt g) = true → ns (fl_OperationalTETA f) < ns (fl_OperationalTETA g) → ns (ce_Time a) ≤ ns (ce_Time b)) ∧
    (rebuilt_held blocked (rebuilt g) = true → isRetained (rebuilt g) = false → ns (ce_Time a) ≤ ns (ce_Time b)).
Proof.
  intros Hty Htr Hc Hat E. destruct (rebuild_rebuilt _ _ _ E) as (policies & groups & s1 & s2 & ordered & h & s3 & Hr).
  destruct (rebuilt_staged _ _ _ _ _ _ _ _ _ _ Hty Htr Hc Hat Hr) as (tmas & helds & ins & Hst).
  cbv zeta. intros Hf Hft Ha Hca. pose proof (rebuild_input_ok input policies groups Hty (rb_prepared _ _ _ _ _ _ _ _ _ _ Hr)) as Hin.
  set (blocked := blocked_holds (in_Flights input)) in *.
  destruct (sg_tma _ _ _ _ _ _ _ _ _ _ Hst) as [s Ht]. destruct (sg_held _ _ _ _ _ _ _ _ _ _ Hst) as [h' Hh].
  set (fs := filter (λ f : preparedFlight, rebuilt_tma f = true) (all_flights groups)) in Ht.
  assert (Htma : ∀ x c, x ∈ in_Flights input → rebuilt_tma (rebuild_flight blocked x) = true →
    c ∈ re_Entries (de_Candidate (rbd_Decision d)) → ce_Callsign c = fl_Callsign x →
    ∃ f' : preparedFlight, f' ∈ fs ∧ fl_OperationalTETA f' = fl_OperationalTETA x ∧ fl_RunwayGroupID f' = fl_RunwayGroupID x ∧
      ∀ e, e ∈ tmas → placed_as policies f' e → ce_Time c = ae_time e).
  { intros x c Hx Hxt Hcin Hcs. destruct (prepared_source _ _ _ x Hin Hx) as (f' & Hf' & Hfl). fold blocked in Hfl. exists f'.
    destruct (rebuild_flight_holding blocked x) as (R1 & _ & R3 & _ & _ & _ & R7 & R8 & _).
    split_and!; [apply list_elem_of_filter; by rewrite Hfl|by rewrite Hfl|by rewrite Hfl|].
    intros e He Has. eapply (placed_candidate _ _ _ _ _ _ _ _ _ _ Hty Hc Hr _ _ _ c e Hst Hcin).
    - apply elem_of_app. by left.
    - rewrite (as_callsign _ _ _ Has), Hfl. simpl. by rewrite R1.
    - left. rewrite (as_tma _ _ _ Has), Hfl. simpl. rewrite R3. unfold rebuilt_tma in Hxt.
      rewrite R3 in Hxt. by apply andb_true_iff in Hxt as [? _]. }
  destruct (Htma f a Hf Hft Ha Hca) as (f' & Hf' & Tf & Gf & Tmf).
  assert (Hplaced : ∀ x : preparedFlight, x ∈ fs → ∃ e, e ∈ tmas ∧ placed_as policies x e ∧ ns at_ + Second ≤ entry_ns e ∧
                       ns (fl_OperationalTETA x) ≤ entry_ns e).
  { intros x Hx. apply (elem_of_sort_slice teta_less) in Hx. apply list_elem_of_lookup in Hx as [i Hi].
    destruct (Forall2_lookup_l _ _ _ _ _ (tt_placed _ _ _ _ _ _ Ht) Hi) as (e & He & Has & H1 & H2).
    exists e. split_and!; [by eapply list_elem_of_lookup_2|done..]. }
  destruct (Hplaced f' Hf') as (e & He & Has & H1 & H2). rewrite (Tmf e He Has). fold (entry_ns e).
  split_and!; [done|by rewrite <-Tf|]. intros g b Hg Hb Hcb Hgr. split.
  - intros Hgt Hlt. destruct (Htma g b Hg Hgt Hb Hcb) as (g' & Hg' & Tg & Gg & Tmg).
    destruct (sorted_teta_before fs f' g' Hf' Hg') as (i & j & Hij & Hi & Hj); [by rewrite Tf, Tg|].
    destruct (in_order_Forall2 _ _ _ _ (tt_placed _ _ _ _ _ _ Ht) (tt_order _ _ _ _ _ _ Ht) i j f' g' Hij Hi Hj)
      as (x & y & Hx & Hy & [Px _] & [Py _] & Hxy).
    rewrite (Tmg y Hy Py). fold (entry_ns y). assert (Hxe : ae_time x = ae_time e).
    { transitivity (ce_Time a); [symmetry|]; by apply Tmf. }
    unfold entry_ns in *. rewrite <-Hxe. apply Hxy. rewrite (as_group _ _ _ Px), (as_group _ _ _ Py). congruence.
  - intros Hgh Hgret. destruct (prepared_source _ _ _ g Hin Hg) as (g' & Hg' & Hfl). fold blocked in Hfl.
    destruct (rebuild_flight_holding blocked g) as (R1 & _ & _ & _ & _ & _ & _ & R8 & _).
    assert (Hgo : g' ∈ filter (λ f : preparedFlight, isRetained f = false) ordered).
    { apply list_elem_of_filter. split; [by rewrite Hfl|]. destruct (sg_ordered _ _ _ _ _ _ _ _ _ _ Hst) as [_ ->].
      apply list_elem_of_filter. by rewrite Hfl. }
    apply list_elem_of_lookup in Hgo as [j Hj].
    destruct (Forall2_lookup_l _ _ _ _ _ (ht_placed _ _ _ _ _ _ Hh) Hj) as (y & Hy & Py & Ry). apply list_elem_of_lookup_2 in Hy.
    destruct (placed_candidate _ _ _ _ _ _ _ _ _ _ Hty Hc Hr _ _ _ b y Hst Hb) as [-> _];
      [apply elem_of_app; by right|rewrite (as_callsign _ _ _ Py), Hfl; simpl; by rewrite R1|by right|]. fold (entry_ns y).
    pose proof (ht_released _ _ _ _ _ _ Hh) as Hrel. rewrite Forall_forall in Hrel. destruct (Hrel y Hy) as (_ & _ & Hlast).
    pose proof (tt_last _ _ _ _ _ _ Ht) as Hl. rewrite Forall_forall in Hl. specialize (Hl e He). simpl in Hlast.
    assert (Hyg : entry_group y = entry_group e).
    { rewrite (as_group _ _ _ Py), (as_group _ _ _ Has), Gf, Hfl. simpl. by rewrite R8. }
    rewrite Hyg in Hlast. cbv beta in Hl. lia.
Qed.

(** *** Termination *)

Lemma prepared_groups input policies groups g :
  prepareInput input = Ok (policies, groups) → is_Some (groups !! g) → is_Some (policies !! g).
Proof.
  unfold prepareInput. intros (families & _ & E)%bind_ok. apply bind_ok in E as (base & _ & E).
  apply bind_ok in E as (flights & E & [= <- <-]). unfold prepareFlights in E. apply bind_ok in E as (s & E & [= <-]).
  intros Hg. rewrite map_lookup_imap. assert (Hs : is_Some (base !! g)).
  { revert Hg. refine (fold_outcome_inv _ (λ s, is_Some (fls_result s !! g) → is_Some (base !! g)) _ _ _ _ _ E); [|by intros [? ?]].
    intros s1 raw s2 IH E1. unfold add_flight in E1. apply bind_ok in E1 as (_ & _ & E1). apply bind_ok in E1 as (_ & _ & E1).
    destruct (base !! fl_RunwayGroupID raw) as [p|] eqn:Ep; [|done]. apply bind_ok in E1 as (_ & _ & [= <-]). simpl.
    rewrite lookup_insert_is_Some. intros [<-|[_ ?]]; [by rewrite Ep|auto]. }
  destruct Hs as [p ->]. simpl. destruct (fls_result s !! g); by eexists.
Qed.

Section termination.
Context (policies : gmap string preparedPolicy) (at_ : Time).
Hypothesis Hpolicies : ∀ g p, policies !! g = Some p → policy_wf g p ∧ po_ContinuousSpacing p = true.
Hypothesis Hhorizon : ∀ g p, policies !! g = Some p → grid_horizon p.

(** Every group with entries has a policy. *)
Definition groups_known (m : gmap string (list allocatedEntry)) : Prop := ∀ g, is_Some (m !! g) → is_Some (policies !! g).

Lemma place_known wrap s f c s' :
  groups_known (rs_allocated s) → place policies wrap s f = Ok (c, s') → groups_known (rs_allocated s').
Proof using Type.
  intros Hk. unfold place. intros (p & Hp & E)%bind_ok. apply deref_ok in Hp. apply bind_ok in E as (r & _ & [= <- <-]).
  intros g. simpl. rewrite lookup_insert_is_Some. intros [<-|[_ ?]]; [by eexists|by apply Hk].
Qed.

Lemma retain_group_returns s (gf : string * list preparedFlight) :
  is_Some (policies !! gf.1) → returns (retain_group policies at_ s gf).
Proof using Type.
  destruct gf as [g flights]. intros [p Hp]. unfold retain_group. simpl in Hp. rewrite Hp. cbn [deref mbind outcome_bind].
  apply returns_bind; [|intros s' _; apply returns_bind; [apply check_retained_returns|done]].
  apply fold_outcome_returns. intros s' f _. unfold retain_one. destruct (negb _); [done|]. destruct (retained_slot f); [|done].
  apply returns_bind; [apply returns_guard|done].
Qed.

Lemma retain_one_known p g s f s' :
  is_Some (policies !! g) → groups_known (rs_allocated s) → retain_one p g s f = Ok s' → groups_known (rs_allocated s').
Proof using Type.
  intros Hg Hk. unfold retain_one. destruct (negb _); [by intros [= <-]|]. destruct (retained_slot f); [|by intros [= <-]].
  rewrite bind_unit_iff. intros [_ [= <-]] g'. simpl. rewrite lookup_insert_is_Some. intros [<-|[_ ?]]; [done|by apply Hk].
Qed.

Lemma retain_group_known s gf s' :
  groups_known (rs_allocated s) → retain_group policies at_ s gf = Ok s' → groups_known (rs_allocated s').
Proof using Type.
  destruct gf as [g flights]. intros Hk. unfold retain_group. intros (p & Hp & E)%bind_ok. apply deref_ok in Hp.
  apply bind_ok in E as (s1 & E1 & E). apply bind_ok in E as (_ & _ & [= <-]). simpl.
  assert (H1 : groups_known (rs_allocated s1)).
  { refine (fold_outcome_inv _ (λ s, groups_known (rs_allocated s)) _ _ _ _ Hk E1). intros ???. apply retain_one_known. by eexists. }
  intros g'. unfold sort_group. destruct (rs_allocated s1 !! g) as [l|] eqn:El; [|apply H1].
  rewrite lookup_insert_is_Some. intros [<-|[_ ?]]; [by eexists|by apply H1].
Qed.

Lemma tma_step_known s f s' :
  groups_known (rs_allocated s) → tma_step policies at_ s f = Ok s' → groups_known (rs_allocated s').
Proof using Type. intros Hk. unfold tma_step. intros ([c s1] & E & [= <-])%bind_ok. exact (place_known _ _ _ _ _ Hk E). Qed.

Lemma inbound_step_known heldLast s f s' :
  groups_known (rs_allocated s) → inbound_step policies at_ heldLast s f = Ok s' → groups_known (rs_allocated s').
Proof using Type. intros Hk. unfold inbound_step. intros ([c s1] & E & [= <-])%bind_ok. exact (place_known _ _ _ _ _ Hk E). Qed.

(** The holding loop keeps the callsigns of the working input. *)
Record holding_known (callsigns : list string) (s : holding_state) : Prop := {
  hk_groups : groups_known (rs_allocated (hs_rebuild s));
  hk_flights : fl_Callsign <$> in_Flights (hs_working s) = callsigns
}.

Lemma retained_release_known cs s f : holding_known cs s → holding_known cs (retained_release s f).
Proof using Type. intros [H1 H2]. unfold retained_release. by destruct (fl_CurrentSlot f). Qed.

Lemma held_step_known cs s rf s' : holding_known cs s → held_step policies s rf = Ok s' → holding_known cs s'.
Proof using Type.
  destruct rf as [rank f]. intros Hk. unfold held_step. intros (index & _ & E)%bind_ok. revert E. set (s1 := mk_holding_state _ _ _ _ _).
  assert (H1 : holding_known cs s1).
  { destruct Hk as [Hg Hf]. split; [done|]. simpl. rewrite (list_fmap_alter _ _ id) by by apply Forall_forall.
    by rewrite list_alter_id. }
  clearbody s1. destruct (isRetained _); [intros [= <-]; by apply retained_release_known|].
  intros ([c r] & E & [= <-])%bind_ok. split; [exact (place_known _ _ _ _ _ (hk_groups _ _ H1) E)|apply H1].
Qed.

Lemma flightIndex_known flights id : id ∈ fl_Callsign <$> flights → is_Some (flightIndex flights id).
Proof using Type.
  intros (f & -> & Hf)%list_elem_of_fmap. unfold flightIndex.
  destruct (list_find_elem_of (λ g, fl_Callsign g = fl_Callsign f) flights f Hf eq_refl) as [[i g] ->]. by eexists.
Qed.

Lemma held_step_returns cs s (rf : nat * preparedFlight) :
  holding_known cs s → fl_Callsign rf.2 ∈ cs → is_Some (policies !! fl_RunwayGroupID rf.2) → returns (held_step policies s rf).
Proof using Hpolicies Hhorizon.
  destruct rf as [rank f]. intros [_ Hf] Hin Hp. simpl in *. unfold held_step. rewrite <-Hf in Hin.
  destruct (flightIndex_known _ _ Hin) as [index ->]. cbn [deref mbind outcome_bind]. destruct (isRetained _); [done|].
  apply returns_bind; [|by intros [? ?]]. by apply (place_returns policies Hpolicies).
Qed.

Lemma finish_group_returns flights m r g : is_Some (policies !! g) → returns (finish_group policies flights at_ m r g).
Proof using Hpolicies Hhorizon.
  intros [p Hp]. unfold finish_group. rewrite Hp. cbn [deref mbind outcome_bind]. apply returns_bind; [|done].
  unfold fillSTARSpacingGaps. destruct (negb _); [done|]. apply fill_rounds_returns; [by apply (Hpolicies g)|by apply (Hhorizon g)].
Qed.
End termination.

(** C35: A rebuild always returns, with a sequence or an error. *)
Theorem rebuild_returns input at_ :
  typed_input input → continuous input → input_horizon input → returns (ApplyArrivalSequenceRebuild input at_).
Proof.
  intros Hty Hc Hh. unfold ApplyArrivalSequenceRebuild. apply returns_bind; [apply returns_guard|]. intros _ _.
  apply returns_bind; [apply prepareInput_returns|]. intros [policies groups] Hp. apply returns_bind; [|by intros [[? ?] ?]].
  pose proof (rebuild_policy input policies groups Hty Hc Hp) as Hpol.
  assert (Hhor : ∀ g p, policies !! g = Some p → grid_horizon p).
  { intros g p Hg. destruct (io_policies _ _ _ (rebuild_input_ok input policies groups Hty Hp) g p Hg) as (_ & raw & Hraw & Hfrom).
    apply (prepared_horizon raw); [|done]. unfold input_horizon in Hh. rewrite Forall_forall in Hh. by apply Hh. }
  set (blocked := blocked_holds (in_Flights input)).
  assert (Hsub : ∀ f, f ∈ all_flights groups → is_Some (policies !! fl_RunwayGroupID (pf_Flight f)))
    by (intros f Hf; apply (all_flights_known input policies groups Hty Hp f Hf)).
  unfold rebuild_sequence. cbv zeta.
  apply returns_bind.
  { apply fold_outcome_returns. intros s gf Hgf. apply retain_group_returns. apply (prepared_groups _ _ _ _ Hp).
    destruct gf as [g l]. apply elem_of_map_to_list in Hgf. by eexists. }
  intros s1 E1. assert (K1 : groups_known policies (rs_allocated s1)).
  { refine (fold_outcome_inv _ (λ s, groups_known policies (rs_allocated s)) _ _ _ _ _ E1); [apply retain_group_known|].
    intros g [? Hg]. simpl in Hg. by rewrite lookup_empty in Hg. }
  apply returns_bind.
  { apply fold_outcome_returns. intros s f Hf. apply elem_of_sort_slice, list_elem_of_filter in Hf as [_ Hf]. unfold tma_step.
    apply returns_bind; [|by intros [? ?]]. apply (place_returns policies Hpol); [done|]. exact (Hsub f Hf). }
  intros s2 E2. assert (K2 : groups_known policies (rs_allocated s2))
    by (refine (fold_outcome_inv _ (λ s, groups_known policies (rs_allocated s)) _ _ _ _ K1 E2); apply tma_step_known).
  destruct (merge_stacks_merged (filter (λ f : preparedFlight, rebuilt_held blocked f = true) (all_flights groups))
    (hold_queues_stacked _) (hold_queues_flat _)) as (ordered & -> & _ & Ho). cbn [mbind outcome_bind].
  set (h0 := mk_holding_state _ _ _ _ _). set (cs := fl_Callsign <$> in_Flights (rebuild_input input)).
  assert (K0 : holding_known policies cs h0) by (by split).
  apply returns_bind.
  { apply (fold_outcome_returns_inv _ (holding_known policies cs)); [| |done].
    - intros s [rank f] Hf Hs. apply (list_elem_of_fmap_2 snd) in Hf. rewrite imap_pair_snd in Hf. simpl in Hf.
      rewrite Ho in Hf. apply list_elem_of_filter in Hf as [_ Hf]. apply (held_step_returns policies Hpol Hhor cs); [done| |by apply Hsub].
      destruct (all_flights_source input policies groups Hty Hp f Hf) as (raw & Hraw & Hfl). simpl. rewrite Hfl. unfold cs. simpl.
      apply (list_elem_of_fmap_2 fl_Callsign). by apply list_elem_of_fmap_2.
    - intros s a s' _. apply held_step_known. }
  intros h E3. assert (K3 : holding_known policies cs h)
    by (refine (fold_outcome_inv _ (holding_known policies cs) _ _ _ _ K0 E3); intros ???; apply held_step_known).
  apply returns_bind.
  { apply fold_outcome_returns. intros s f Hf. apply elem_of_sort_slice, list_elem_of_filter in Hf as [_ Hf]. unfold inbound_step.
    apply returns_bind; [|by intros [? ?]]. apply (place_returns policies Hpol); [done|]. exact (Hsub f Hf). }
  intros s3 E4. assert (K4 : groups_known policies (rs_allocated s3))
    by (refine (fold_outcome_inv _ (λ s, groups_known policies (rs_allocated s)) _ _ _ _ (hk_groups _ _ _ K3) E4); intros ???; apply inbound_step_known).
  apply returns_bind; [|done]. unfold rebuild_result. apply fold_outcome_returns. intros r g Hg.
  apply (finish_group_returns policies at_ Hpol Hhor). apply K4. apply elem_of_sort_slice, list_elem_of_fmap in Hg as ([g' l] & -> & Hg).
  apply elem_of_map_to_list in Hg. by eexists.
Qed.

(** ** Instances *)

Definition ex_stack_flight (callsign : string) (teta : Time) (stack : string) (level : option Z) (since : option Time)
    (tma retained : bool) (slot : option Slot) : Flight :=
  mk_flight [] callsign ex_group StateUnstable None teta None None "M" "" "" None None FreezeNone None None None slot
    stack level "" None (if str_empty stack then 0 else 10 * Minute) None None false None false None tma retained since.

(** Two arrivals in the terminal area, three aircraft in two holds, one in a
    hold without a known level, one inbound, and one retained without a slot. *)
Definition ex_rebuild_input : Input :=
  mk_input 3 [ex_policy 30 [] []] []
    [ex_stack_flight "TMA1" (clock 14 0) "" None None true false None;
     ex_stack_flight "TMA2" (clock 12 0) "" None None true false None;
     ex_stack_flight "HLD1" (clock 20 0) "ERNOV" (Some 7000) (Some (clock 2 0)) false false None;
     ex_stack_flight "HLD2" (clock 20 0) "ERNOV" (Some 8000) (Some (clock 1 0)) false false None;
     ex_stack_flight "HLD3" (clock 20 0) "TUDLO" (Some 9000) (Some (clock 3 0)) false false None;
     ex_stack_flight "BLK1" (clock 22 0) "ROSBI" None (Some (clock 1 0)) false false (Some (ex_slot (clock 23 0) 2));
     ex_stack_flight "INB1" (clock 15 0) "" None None false false None;
     ex_stack_flight "UNT1" (clock 16 0) "" None None false true None].

Definition ex_rebuilt : RebuildDecision :=
  match ApplyArrivalSequenceRebuild ex_rebuild_input (clock 10 0) with
  | Ok d => d
  | _ => mk_rebuild_decision (mk_decision ex_rebuild_input (mk_result [] [] [] []) false) (mk_rebuild_outcome [] [])
  end.

Definition ex_rebuilt_entry (i : nat) : CandidateEntry :=
  nth i (re_Entries (de_Candidate (rbd_Decision ex_rebuilt))) (mk_entry "" "" 0 zero_time zero_time "" FreezeNone false "").

Lemma ex_rebuild_typed : typed_input ex_rebuild_input.
Proof. apply Forall_singleton, ex_policy_typed. split; vm_compute; [discriminate|reflexivity]. Qed.

Lemma ex_rebuild_transits : typed_transits ex_rebuild_input.
Proof.
  apply Forall_forall. intros f Hf. apply (bool_decide_unpack (- 2^63 ≤ fl_HoldingTransit f ∧ fl_HoldingTransit f < 2^63)).
  revert f Hf. apply Forall_forall. repeat (apply Forall_cons; split; [vm_compute; exact I|]). apply Forall_nil_2.
Qed.

Lemma ex_rebuild_continuous : continuous ex_rebuild_input.
Proof. by repeat constructor. Qed.

Lemma ex_rebuild_ok : ApplyArrivalSequenceRebuild ex_rebuild_input (clock 10 0) = Ok ex_rebuilt.
Proof. vm_compute. reflexivity. Qed.

Lemma ex_rebuilt_in i : (i < 7)%nat → ex_rebuilt_entry i ∈ re_Entries (de_Candidate (rbd_Decision ex_rebuilt)).
Proof.
  intros Hi. apply list_elem_of_lookup. exists i.
  do 7 (destruct i as [|i]; [vm_compute; reflexivity|]). lia.
Qed.

Lemma rebuild_separated_witness :
  ∃ policies groups p, prepareInput (rebuild_input ex_rebuild_input) = Ok (policies, groups) ∧
    policies !! ce_RunwayGroupID (ex_rebuilt_entry 2) = Some p ∧
    (separated_candidates p (ex_rebuilt_entry 2) (ex_rebuilt_entry 3) ∨
     ce_Protected (ex_rebuilt_entry 2) = true ∧ ce_Protected (ex_rebuilt_entry 3) = true ∧ ns (ce_Time (ex_rebuilt_entry 3)) < ns (clock 10 0)).
Proof.
  apply (rebuild_separated ex_rebuild_input (clock 10 0) ex_rebuilt);
    [exact ex_rebuild_typed|exact ex_rebuild_transits|exact ex_rebuild_continuous|vm_compute; discriminate|exact ex_rebuild_ok
    |apply ex_rebuilt_in; lia|apply ex_rebuilt_in; lia|vm_compute; reflexivity|vm_compute; reflexivity].
Defined.

Lemma rebuild_complete_witness :
  ce_Callsign <$> re_Entries (de_Candidate (rbd_Decision ex_rebuilt)) =
    ["TMA2"; "TMA1"; "HLD1"; "BLK1"; "HLD2"; "HLD3"; "INB1"]%string ∧
  let untimed_flight f := untimed (rebuild_flight (blocked_holds (in_Flights ex_rebuild_input)) f) in
  ce_Callsign <$> re_Entries (de_Candidate (rbd_Decision ex_rebuilt)) ≡ₚ
    fl_Callsign <$> filter (λ f, untimed_flight f = false) (in_Flights ex_rebuild_input) ∧
  ∀ f, f ∈ in_Flights ex_rebuild_input → untimed_flight f = true → no_timing f ∈ ro_Diagnostics (rbd_Outcome ex_rebuilt).
Proof.
  split; [vm_compute; reflexivity|].
  apply (rebuild_complete ex_rebuild_input (clock 10 0) ex_rebuilt);
    [exact ex_rebuild_typed|exact ex_rebuild_transits|exact ex_rebuild_continuous|vm_compute; discriminate|exact ex_rebuild_ok].
Defined.

Lemma rebuild_release_order_witness :
  ro_ReleaseOrder (rbd_Outcome ex_rebuilt) = ["HLD1"; "HLD2"; "HLD3"]%string ∧
  ∃ ordered : list preparedFlight,
    ro_ReleaseOrder (rbd_Outcome ex_rebuilt) = (λ f : preparedFlight, fl_Callsign f) <$> ordered ∧
    pf_Flight <$> ordered ≡ₚ filter (λ f, rebuilt_held (blocked_holds (in_Flights ex_rebuild_input)) f = true)
      (canonical_flight ∘ rebuild_flight (blocked_holds (in_Flights ex_rebuild_input)) <$> in_Flights ex_rebuild_input) ∧
    oldest_first ordered ∧ (∀ s, chain (λ f g, stack_less g f = false) (of_stack s ordered)) ∧
    in_order (λ f g : preparedFlight, isRetained f = false → isRetained g = false → ∀ a b,
        a ∈ re_Entries (de_Candidate (rbd_Decision ex_rebuilt)) → b ∈ re_Entries (de_Candidate (rbd_Decision ex_rebuilt)) →
        ce_Callsign a = fl_Callsign f → ce_Callsign b = fl_Callsign g →
        ns (clock 10 0) + Second ≤ departs a f ≤ departs b g ∧
        (fl_HoldingStackID f = fl_HoldingStackID g → departs a f + Minute ≤ departs b g)) ordered.
Proof.
  split; [vm_compute; reflexivity|].
  apply (rebuild_release_order ex_rebuild_input (clock 10 0) ex_rebuilt);
    [exact ex_rebuild_typed|exact ex_rebuild_transits|exact ex_rebuild_continuous|vm_compute; discriminate|exact ex_rebuild_ok].
Defined.

Lemma rebuild_tma_first_witness :
  let f := nth 0 (in_Flights ex_rebuild_input) ex_frozen in
  let blocked := blocked_holds (in_Flights ex_rebuild_input) in
  let rebuilt f := rebuild_flight blocked f in
  ns (clock 10 0) + Second ≤ ns (ce_Time (ex_rebuilt_entry 1)) ∧ ns (fl_OperationalTETA f) ≤ ns (ce_Time (ex_rebuilt_entry 1)) ∧
  ∀ g b, g ∈ in_Flights ex_rebuild_input → b ∈ re_Entries (de_Candidate (rbd_Decision ex_rebuilt)) → ce_Callsign b = fl_Callsign g →
    fl_RunwayGroupID f = fl_RunwayGroupID g →
    (rebuilt_tma (rebuilt g) = true → ns (fl_OperationalTETA f) < ns (fl_OperationalTETA g) → ns (ce_Time (ex_rebuilt_entry 1)) ≤ ns (ce_Time b)) ∧
    (rebuilt_held blocked (rebuilt g) = true → isRetained (rebuilt g) = false → ns (ce_Time (ex_rebuilt_entry 1)) ≤ ns (ce_Time b)).
Proof.
  apply (rebuild_tma_first ex_rebuild_input (clock 10 0) ex_rebuilt (nth 0 (in_Flights ex_rebuild_input) ex_frozen) (ex_rebuilt_entry 1));
    [exact ex_rebuild_typed|exact ex_rebuild_transits|exact ex_rebuild_continuous|vm_compute; discriminate|exact ex_rebuild_ok
    |left|vm_compute; reflexivity|apply ex_rebuilt_in; lia|vm_compute; reflexivity].
Defined.

Lemma rebuild_returns_witness : returns (ApplyArrivalSequenceRebuild ex_rebuild_input (clock 10 0)).
Proof.
  apply rebuild_returns; [exact ex_rebuild_typed|exact ex_rebuild_continuous|repeat constructor; vm_compute; discriminate].
Defined.
