(* ===== verification/RunwayCapacity.v ===== *)
(** * Runway capacity: gaps, closures and reservations

    [internal/aman/runway_gap.go], [runway_gap_normalization.go],
    [runway_closure.go], [capacity_reservation.go], and the part of
    [AirportState.Validate] ([types.go]) that reads them. A gap withdraws the
    runway from its start on until before its end; the accepted gaps of a group
    are kept sorted and apart. [MergeRunwayGap] is shown to add exactly the
    instants of the new gap and to keep a valid state valid. The capacity a
    list of intervals withdraws is the set [covered] of its instants, compared
    up to set equivalence. *)

From stdpp Require Import propset.
From S2P Require Import Prelude GoTime SequenceData DomainValues.

Local Open Scope Z_scope.

(** ** Data *)

Record RunwayGap := mk_rgap {
  gp_ID : string;
  gp_Start : Time;
  gp_End : Time;
  gp_Label : string;
  gp_CreatedAt : Time;
  gp_CreatedBy : string
}.

Record RunwayCapacityReservation := mk_reservation {
  cr_ID : string;
  cr_Start : Time;
  cr_End : Time;
  cr_Label : string;
  cr_CreatedAt : Time;
  cr_CreatedBy : string
}.

Record RunwayGroupSelectionPoint := mk_selection {
  sp_EffectiveAt : Time;
  sp_CommandRevision : Z;
  sp_Source : string
}.

Definition RunwayGroupSelectionSourceFMPCommand : string := "fmp_command".

Record RunwayGroupSequenceWarning := mk_gwarning {
  gw_Code : string;
  gw_Callsign : string;
  gw_RelatedCallsign : string;
  gw_STARFamily : string
}.

Record RunwayGroupPolicy := mk_group {
  rg_ID : string;
  rg_Active : bool;
  rg_Selected : bool;
  rg_SelectionSchedule : list RunwayGroupSelectionPoint;
  rg_SelectionConflict : option string;
  rg_ActiveRatePerHour : Z;
  rg_RateEffectiveAt : option Time;
  rg_RateSchedule : list RatePoint;
  rg_SameSTARSpacing : option SameSTARSpacing;
  rg_SequenceWarnings : list RunwayGroupSequenceWarning;
  rg_Gaps : list RunwayGap;
  rg_Closures : list RunwayClosure;
  rg_CapacityReservations : list RunwayCapacityReservation
}.

Definition set_capacity (gaps : list RunwayGap) (reservations : list RunwayCapacityReservation) (g : RunwayGroupPolicy)
  : RunwayGroupPolicy :=
  mk_group (rg_ID g) (rg_Active g) (rg_Selected g) (rg_SelectionSchedule g) (rg_SelectionConflict g)
    (rg_ActiveRatePerHour g) (rg_RateEffectiveAt g) (rg_RateSchedule g) (rg_SameSTARSpacing g) (rg_SequenceWarnings g)
    gaps (rg_Closures g) reservations.

Definition set_Gaps (gaps : list RunwayGap) (g : RunwayGroupPolicy) : RunwayGroupPolicy :=
  set_capacity gaps (rg_CapacityReservations g) g.

(** ** Validation of one value *)

Definition required (message value : string) : outcome unit :=
  guard_err (negb (isTrimmedNonEmpty value)) (invalid_argument message).

Definition RunwayGap_Validate (g : RunwayGap) : outcome unit :=
  _ ← required "runway gap ID is required and must be canonical" (gp_ID g);
  _ ← required "runway gap label is required and must be canonical" (gp_Label g);
  _ ← required "runway gap creator is required and must be canonical" (gp_CreatedBy g);
  _ ← requireUTCTime "runway gap start" (gp_Start g);
  _ ← requireUTCTime "runway gap end" (gp_End g);
  _ ← requireUTCTime "runway gap creation time" (gp_CreatedAt g);
  guard_err (negb (before (gp_Start g) (gp_End g))) (invalid_argument "runway gap start must be before end").

Definition RunwayClosure_Validate (c : RunwayClosure) : outcome unit :=
  _ ← required "runway closure ID is required and must be canonical" (cl_ID c);
  _ ← required "runway closure reason is required and must be canonical" (cl_Reason c);
  _ ← required "runway closure creator is required and must be canonical" (cl_CreatedBy c);
  _ ← requireUTCTime "runway closure start" (cl_Start c);
  _ ← match cl_End c with
      | None => Ok tt
      | Some e =>
          _ ← requireUTCTime "runway closure end" e;
          guard_err (negb (before (cl_Start c) e)) (invalid_argument "runway closure start must be before end")
      end;
  requireUTCTime "runway closure creation time" (cl_CreatedAt c).

Definition RunwayCapacityReservation_Validate (r : RunwayCapacityReservation) : outcome unit :=
  _ ← required "capacity reservation ID is required and must be canonical" (cr_ID r);
  _ ← required "capacity reservation label is required and must be canonical" (cr_Label r);
  _ ← required "capacity reservation creator is required and must be canonical" (cr_CreatedBy r);
  _ ← requireUTCTime "capacity reservation start" (cr_Start r);
  _ ← requireUTCTime "capacity reservation end" (cr_End r);
  _ ← guard_err (negb (before (cr_Start r) (cr_End r))) (invalid_argument "capacity reservation start must be before end");
  requireUTCTime "capacity reservation creation time" (cr_CreatedAt r).

Definition DefaultCapacityReservationLabel : string := "FLIGHT".

Definition NewRunwayCapacityReservation (commandID : string) (start end_ : Time) (label : string)
    (createdAt : Time) (createdBy : string) : outcome RunwayCapacityReservation :=
  let label := if str_empty label then DefaultCapacityReservationLabel else label in
  let reservation := mk_reservation commandID start end_ label createdAt createdBy in
  _ ← RunwayCapacityReservation_Validate reservation;
  Ok reservation.

(** ** Canonical orders *)

Definition runwayGapLess (a b : RunwayGap) : bool :=
  if negb (time_eqb (gp_Start a) (gp_Start b)) then before (gp_Start a) (gp_Start b)
  else if negb (time_eqb (gp_End a) (gp_End b)) then before (gp_End a) (gp_End b)
  else str_ltb (gp_ID a) (gp_ID b).

Definition runwayClosureLess (a b : RunwayClosure) : bool :=
  if negb (time_eqb (cl_Start a) (cl_Start b)) then before (cl_Start a) (cl_Start b)
  else match cl_End a, cl_End b with
       | Some _, None => true
       | None, Some _ => false
       | Some x, Some y => if negb (time_eqb x y) then before x y else str_ltb (cl_ID a) (cl_ID b)
       | None, None => str_ltb (cl_ID a) (cl_ID b)
       end.

Definition runwayCapacityReservationLess (a b : RunwayCapacityReservation) : bool :=
  if negb (time_eqb (cr_Start a) (cr_Start b)) then before (cr_Start a) (cr_Start b)
  else if negb (time_eqb (cr_End a) (cr_End b)) then before (cr_End a) (cr_End b)
  else str_ltb (cr_ID a) (cr_ID b).

(** ** Validation of the groups' capacity

    [AirportState.Validate], without its checks of the fields that carry no
    capacity. The identities seen so far are shared by all groups. *)

Record capacity_ids := mk_ids { ci_gaps : gset string; ci_closures : gset string; ci_reservations : gset string }.

Fixpoint validate_rates (previous : option RatePoint) (rates : list RatePoint) : outcome unit :=
  match rates with
  | [] => Ok tt
  | rate :: rest =>
      _ ← guard_err (rp_ArrivalsPerHour rate =? 0) (invalid_argument "runway group scheduled rate must be greater than zero");
      _ ← requireUTCTime "runway group scheduled rate effective at" (rp_EffectiveAt rate);
      _ ← guard_err (opt_test (λ r, negb (after (rp_EffectiveAt rate) (rp_EffectiveAt r))) previous)
            (invalid_argument "runway group rate schedule must be strictly ordered");
      validate_rates (Some rate) rest
  end.

(** The shape of the three loops that follow: every value is valid, its identity
    is new, and it comes after its predecessor. *)
Fixpoint validate_list {A} (Validate : A → outcome unit) (id : A → string) (duplicate : string)
    (ordered : A → A → outcome unit) (ids : gset string) (previous : option A) (l : list A) : outcome (gset string) :=
  match l with
  | [] => Ok ids
  | a :: rest =>
      _ ← Validate a;
      _ ← guard_err (bool_decide (id a ∈ ids)) (invalid_argument duplicate);
      _ ← match previous with Some p => ordered p a | None => Ok tt end;
      validate_list Validate id duplicate ordered ({[id a]} ∪ ids) (Some a) rest
  end.

Definition validate_gaps (ids : gset string) (gaps : list RunwayGap) : outcome (gset string) :=
  validate_list RunwayGap_Validate gp_ID "airport state contains duplicate runway gap ID"
    (λ previous gap,
       _ ← guard_err (negb (runwayGapLess previous gap)) (invalid_argument "runway group gaps must be unique and strictly ordered");
       guard_err (negb (before (gp_End previous) (gp_Start gap))) (invalid_argument "runway group gaps must not overlap or touch"))
    ids None gaps.

Definition validate_closures (ids : gset string) (closures : list RunwayClosure) : outcome (gset string) :=
  validate_list RunwayClosure_Validate cl_ID "airport state contains duplicate runway closure ID"
    (λ previous closure, guard_err (negb (runwayClosureLess previous closure))
       (invalid_argument "runway group closures must be unique and strictly ordered"))
    ids None closures.

Definition validate_reservations (ids : gset string) (reservations : list RunwayCapacityReservation)
  : outcome (gset string) :=
  validate_list RunwayCapacityReservation_Validate cr_ID "airport state contains duplicate capacity reservation ID"
    (λ previous r, guard_err (negb (runwayCapacityReservationLess previous r))
       (invalid_argument "runway group capacity reservations must be unique and strictly ordered"))
    ids None reservations.

Definition validate_group_rates (group : RunwayGroupPolicy) : outcome unit :=
  _ ← match rg_RateEffectiveAt group with
      | None => Ok tt
      | Some at_ =>
          _ ← guard_err (rg_ActiveRatePerHour group =? 0) (invalid_argument "runway group active rate must be greater than zero");
          requireUTCTime "runway group rate effective at" at_
      end;
  _ ← validate_rates None (rg_RateSchedule group);
  guard_err (opt_test (λ s, ss_Enabled s && ((ss_ActivationRatePerHour s =? 0) || (ss_MinimumEmptySlots s =? 0)))
               (rg_SameSTARSpacing group)) (invalid_argument "runway group same-STAR spacing is invalid").

(** The loops over the selection schedule and over the warnings. *)
Fixpoint validate_selections (previous : option RunwayGroupSelectionPoint) (l : list RunwayGroupSelectionPoint)
  : outcome unit :=
  match l with
  | [] => Ok tt
  | selection :: rest =>
      _ ← requireUTCTime "runway group selection effective at" (sp_EffectiveAt selection);
      _ ← guard_err (opt_test (λ p, negb (after (sp_EffectiveAt selection) (sp_EffectiveAt p))) previous)
            (invalid_argument "runway group selection schedule must be strictly ordered");
      _ ← guard_err (negb (str_empty (sp_Source selection)) &&
                     negb (str_eqb (sp_Source selection) RunwayGroupSelectionSourceFMPCommand))
            (invalid_argument "runway group selection source is invalid");
      validate_selections (Some selection) rest
  end.

Definition runwayGroupWarningLess (a b : RunwayGroupSequenceWarning) : bool :=
  if negb (str_eqb (gw_Callsign a) (gw_Callsign b)) then str_ltb (gw_Callsign a) (gw_Callsign b)
  else if negb (str_eqb (gw_RelatedCallsign a) (gw_RelatedCallsign b))
       then str_ltb (gw_RelatedCallsign a) (gw_RelatedCallsign b)
       else str_ltb (gw_STARFamily a) (gw_STARFamily b).

Fixpoint validate_warnings (previous : option RunwayGroupSequenceWarning) (l : list RunwayGroupSequenceWarning)
  : outcome unit :=
  match l with
  | [] => Ok tt
  | w :: rest =>
      _ ← guard_err (negb (str_eqb (gw_Code w) "protected_same_star_spacing") || negb (isTrimmedNonEmpty (gw_Callsign w)) ||
                     negb (isTrimmedNonEmpty (gw_RelatedCallsign w)) || negb (isTrimmedNonEmpty (gw_STARFamily w)) ||
                     str_eqb (gw_Callsign w) (gw_RelatedCallsign w))
            (invalid_argument "runway group sequence warning is invalid");
      _ ← guard_err (opt_test (λ p, negb (runwayGroupWarningLess p w)) previous)
            (invalid_argument "runway group sequence warnings must be unique and strictly ordered");
      validate_warnings (Some w) rest
  end.

Definition validate_selection (group : RunwayGroupPolicy) : outcome unit :=
  _ ← validate_selections None (rg_SelectionSchedule group);
  guard_err (opt_test (λ conflict, str_empty (TrimSpace conflict)) (rg_SelectionConflict group))
    (invalid_argument "runway group selection conflict cannot be empty").

(** From the selection on, in the order of the code. *)
Definition validate_capacity (ids : capacity_ids) (group : RunwayGroupPolicy) : outcome capacity_ids :=
  _ ← validate_selection group;
  _ ← validate_group_rates group;
  _ ← validate_warnings None (rg_SequenceWarnings group);
  gaps ← validate_gaps (ci_gaps ids) (rg_Gaps group);
  closures ← validate_closures (ci_closures ids) (rg_Closures group);
  reservations ← validate_reservations (ci_reservations ids) (rg_CapacityReservations group);
  Ok (mk_ids gaps closures reservations).

Record groups_seen := mk_seen { gs_groups : gset string; gs_selected : nat; gs_ids : capacity_ids }.

Definition selected_count (group : RunwayGroupPolicy) : nat := if rg_Selected group then 1 else 0.

Definition validate_group (s : groups_seen) (group : RunwayGroupPolicy) : outcome groups_seen :=
  _ ← guard_err (str_empty (TrimSpace (rg_ID group))) (invalid_argument "runway group ID is required");
  _ ← guard_err (bool_decide (rg_ID group ∈ gs_groups s)) (invalid_argument "airport state contains duplicate runway group");
  let selected := (gs_selected s + selected_count group)%nat in
  _ ← guard_err (rg_Selected group && (1 <? selected)%nat)
        (invalid_argument "airport state cannot select more than one runway group");
  ids ← validate_capacity (gs_ids s) group;
  Ok (mk_seen ({[rg_ID group]} ∪ gs_groups s) selected ids).

Definition validate_groups (groups : list RunwayGroupPolicy) : outcome unit :=
  _ ← fold_outcome validate_group (mk_seen ∅ 0 (mk_ids ∅ ∅ ∅)) groups;
  Ok tt.

(** ** Normalisation of an operator's gap *)

Record RunwayGapIntervalInput := mk_gap_input {
  gi_Start : Time;
  gi_End : option Time;
  gi_SlotCount : option Z
}.

Record RunwayGapInterval := mk_interval { iv_start : Time; iv_end : Time }.

Definition runwayGapSlotDuration (slotCount arrivalsPerHour : Z) : option Duration :=
  if max_int64 / Hour <? slotCount then None
  else Some (dur_div (dur_mul Hour slotCount) arrivalsPerHour).

Definition NormalizeRunwayGapInterval (input : RunwayGapIntervalInput) (arrivalsPerHour : Z) : outcome RunwayGapInterval :=
  _ ← requireUTCTime "runway gap start" (gi_Start input);
  _ ← guard_err (arrivalsPerHour =? 0) (invalid_argument "runway gap arrival rate must be positive");
  _ ← guard_err (Bool.eqb (is_nil (gi_End input)) (is_nil (gi_SlotCount input)))
        (invalid_argument "runway gap requires exactly one end or slot count");
  end_ ← match gi_End input with
         | Some e => _ ← requireUTCTime "runway gap end" e; Ok e
         | None =>
             count ← deref (gi_SlotCount input);
             _ ← guard_err (count =? 0) (invalid_argument "runway gap slot count must be positive");
             match runwayGapSlotDuration count arrivalsPerHour with
             | None => Err (invalid_argument "runway gap slot duration exceeds the supported range")
             | Some duration => Ok (time_add (gi_Start input) duration)
             end
         end;
  _ ← guard_err (negb (before (gi_Start input) end_)) (invalid_argument "runway gap start must be before end");
  Ok (mk_interval (gi_Start input) end_).

(** ** Merging a gap into a group *)

Record RunwayGapMergeInput := mk_merge_input {
  mi_RunwayGroupID : string;
  mi_CommandID : string;
  mi_Interval : RunwayGapInterval;
  mi_Label : string;
  mi_CreatedAt : Time;
  mi_CreatedBy : string
}.

Record RunwayGapMergeResult := mk_merged {
  mr_RunwayGroups : list RunwayGroupPolicy;
  mr_Union : RunwayGap;
  mr_ReplacedIDs : list string
}.

Definition set_bounds (start end_ : Time) (g : RunwayGap) : RunwayGap :=
  mk_rgap (gp_ID g) start end_ (gp_Label g) (gp_CreatedAt g) (gp_CreatedBy g).

(** [union] widened to contain [gap]. *)
Definition absorb (union gap : RunwayGap) : RunwayGap :=
  set_bounds (if before (gp_Start gap) (gp_Start union) then gp_Start gap else gp_Start union)
             (if after (gp_End gap) (gp_End union) then gp_End gap else gp_End union) union.

Definition apart (gap union : RunwayGap) : bool :=
  before (gp_End gap) (gp_Start union) || before (gp_End union) (gp_Start gap).

(** One sweep over the gaps, each with its entry of [merged]; the last component
    is [changed]. *)
Fixpoint merge_sweep (union : RunwayGap) (gaps : list (RunwayGap * bool)) : list (RunwayGap * bool) * RunwayGap * bool :=
  match gaps with
  | [] => ([], union, false)
  | (gap, merged) :: rest =>
      if merged || apart gap union then
        let '(rest, union, changed) := merge_sweep union rest in ((gap, merged) :: rest, union, changed)
      else
        let '(rest, union, _) := merge_sweep (absorb union gap) rest in ((gap, true) :: rest, union, true)
  end.

Definition merge_step (s : list (RunwayGap * bool) * RunwayGap)
  : outcome ((list (RunwayGap * bool) * RunwayGap) + (list (RunwayGap * bool) * RunwayGap)) :=
  let '(gaps, union, changed) := merge_sweep s.2 s.1 in
  Ok (if changed : bool then inl (gaps, union) else inr (gaps, union)).

(** The gaps with their marks, and the union, after the sweeps. *)
Definition merge_gaps (gaps : list RunwayGap) (union : RunwayGap) : outcome (list (RunwayGap * bool) * RunwayGap) :=
  iterate (Pos.of_succ_nat (length gaps)) merge_step ((λ g, (g, false)) <$> gaps, union).

Record merge_state := mk_mstate { ms_result : RunwayGapMergeResult; ms_found : bool }.

Definition merge_group (input : RunwayGapMergeInput) (s : merge_state) (group : RunwayGroupPolicy)
  : outcome merge_state :=
  let '(mk_merged groups union replaced) := ms_result s in
  _ ← guard_err (existsb (λ g, str_eqb (gp_ID g) (gp_ID union)) (rg_Gaps group))
        (invalid_argument "runway gap command ID already exists");
  if negb (str_eqb (rg_ID group) (mi_RunwayGroupID input)) then
    Ok (mk_mstate (mk_merged (groups ++ [group]) union replaced) (ms_found s))
  else
    _ ← guard_err (ms_found s) (invalid_argument "runway gap runway group is not unique");
    '(gaps, union) ← merge_gaps (sort_slice runwayGapLess (rg_Gaps group)) union;
    let merged := (filter (λ g, g.2 = true) gaps).*1 in
    let retained := (filter (λ g, g.2 = false) gaps).*1 in
    Ok (mk_mstate (mk_merged (groups ++ [set_Gaps (sort_slice runwayGapLess (retained ++ [union])) group]) union
                     (replaced ++ (gp_ID <$> merged))) true).

Definition new_gap (input : RunwayGapMergeInput) : RunwayGap :=
  mk_rgap (mi_CommandID input) (iv_start (mi_Interval input)) (iv_end (mi_Interval input)) (mi_Label input)
    (mi_CreatedAt input) (mi_CreatedBy input).

Definition MergeRunwayGap (groups : list RunwayGroupPolicy) (input : RunwayGapMergeInput)
  : outcome RunwayGapMergeResult :=
  _ ← guard_err (negb (isTrimmedNonEmpty (mi_RunwayGroupID input))) (invalid_argument "runway gap runway group is required");
  _ ← RunwayGap_Validate (new_gap input);
  s ← fold_outcome (merge_group input) (mk_mstate (mk_merged [] (new_gap input) []) false) groups;
  _ ← guard_err (negb (ms_found s)) (invalid_argument "runway gap runway group does not exist");
  Ok (ms_result s).

(** ** Sets of instants *)

(** A value that occupies the instants from its start on until before its end. *)
Class Span (A : Type) := { span_start : A → Time; span_end : A → Time }.

#[export] Instance Gap_span : Span Gap := { span_start := gap_Start; span_end := gap_End }.
#[export] Instance RunwayGap_span : Span RunwayGap := { span_start := gp_Start; span_end := gp_End }.
#[export] Instance reservation_span : Span RunwayCapacityReservation := { span_start := cr_Start; span_end := cr_End }.

Definition span {A} `{Span A} (a : A) : propset Z := {[ t | ns (span_start a) ≤ t < ns (span_end a) ]}.

(** The instants a list of intervals withdraws. *)
Definition covered {A} `{Span A} (l : list A) : propset Z := {[ t | ∃ a, a ∈ l ∧ t ∈ span a ]}.

Section covered.
Context {A : Type} `{Span A}.
Implicit Types (a : A) (l : list A).

Lemma elem_of_span a t : t ∈ span a ↔ ns (span_start a) ≤ t < ns (span_end a).
Proof. done. Qed.

Lemma elem_of_covered l t : t ∈ covered l ↔ ∃ a, a ∈ l ∧ t ∈ span a.
Proof. done. Qed.

Lemma covered_nil : covered ([] : list A) ≡ ∅.
Proof. intros t. rewrite elem_of_covered. set_solver. Qed.

Lemma covered_app l k : covered (l ++ k) ≡ covered l ∪ covered k.
Proof. intros t. rewrite elem_of_union, !elem_of_covered. setoid_rewrite elem_of_app. firstorder. Qed.

Lemma covered_singleton a : covered [a] ≡ span a.
Proof. intros t. rewrite elem_of_covered. setoid_rewrite list_elem_of_singleton. naive_solver. Qed.

Lemma covered_cons a l : covered (a :: l) ≡ span a ∪ covered l.
Proof. by rewrite (covered_app [a] l), covered_singleton. Qed.

#[export] Instance covered_proper : Proper ((≡ₚ) ==> (≡)) (covered (A := A)).
Proof. intros l k Hlk t. rewrite !elem_of_covered. by setoid_rewrite Hlk. Qed.
End covered.

Create Rewrite HintDb covered.
#[export] Hint Rewrite @covered_app @covered_cons @covered_singleton @covered_nil : covered.

(** ** Merging gaps *)

Lemma runwayGapLess_asym a b : runwayGapLess a b = true → runwayGapLess b a = false.
Proof.
  unfold runwayGapLess, time_eqb, before. intros H. repeat case_match; zbool; try done; try lia. by apply str_ltb_asym.
Qed.

Lemma runwayGapLess_before a b : ns (gp_Start a) < ns (gp_Start b) → runwayGapLess a b = true.
Proof. unfold runwayGapLess, time_eqb, before. intros H. case_match; zbool; [done|lia]. Qed.

Definition marked (gaps : list (RunwayGap * bool)) : list RunwayGap := (filter (λ g, g.2 = true) gaps).*1.
Definition unmarked (gaps : list (RunwayGap * bool)) : list RunwayGap := (filter (λ g, g.2 = false) gaps).*1.

Lemma marked_cons g m gaps : marked ((g, m) :: gaps) = (if m : bool then [g] else []) ++ marked gaps.
Proof. unfold marked. rewrite filter_cons. by destruct m. Qed.

Lemma unmarked_cons g m gaps : unmarked ((g, m) :: gaps) = (if m : bool then [] else [g]) ++ unmarked gaps.
Proof. unfold unmarked. rewrite filter_cons. by destruct m. Qed.

Lemma marked_split gaps : marked gaps ++ unmarked gaps ≡ₚ gaps.*1.
Proof.
  induction gaps as [|[g m] l IH]; [done|]. rewrite marked_cons, unmarked_cons. destruct m; simpl.
  - by rewrite IH.
  - by rewrite <-Permutation_middle, IH.
Qed.

Lemma unmarked_sublist gaps : unmarked gaps `sublist_of` gaps.*1.
Proof.
  induction gaps as [|[g m] l IH]; [done|]. rewrite unmarked_cons. destruct m; simpl; [by apply sublist_cons|by apply sublist_skip].
Qed.

(** Two intervals that are not apart make up one interval. *)
Lemma absorb_span union gap : apart gap union = false → span (absorb union gap) ≡ span union ∪ span gap.
Proof.
  intros Ha t. unfold apart in Ha. rewrite elem_of_union, !elem_of_span. simpl.
  unfold before, after in *. zbool. repeat case_match; zbool; lia.
Qed.

(** The union so far, made of the new gap and the marked gaps of [gaps]. *)
Record merged_from (u0 : RunwayGap) (gaps : list (RunwayGap * bool)) (u : RunwayGap) : Prop := {
  mf_span : span u ≡ span u0 ∪ covered (marked gaps);
  mf_identity : u = set_bounds (gp_Start u) (gp_End u) u0;
  mf_start : gp_Start u = gp_Start u0 ∨ ∃ g, g ∈ marked gaps ∧ gp_Start u = gp_Start g;
  mf_end : gp_End u = gp_End u0 ∨ ∃ g, g ∈ marked gaps ∧ gp_End u = gp_End g
}.

Lemma merged_from_mark u0 pre g post u :
  apart g u = false → merged_from u0 (pre ++ (g, false) :: post) u → merged_from u0 (pre ++ (g, true) :: post) (absorb u g).
Proof.
  intros Ha [Hs Hi Hst Hen].
  assert (Hm : ∀ m, marked (pre ++ (g, m) :: post) = marked pre ++ (if m : bool then [g] else []) ++ marked post).
  { intros m. unfold marked. rewrite filter_app, filter_cons, fmap_app. by destruct m. }
  assert (Hin : ∀ x, x ∈ marked (pre ++ (g, false) :: post) → x ∈ marked (pre ++ (g, true) :: post)).
  { intros x. rewrite !Hm. set_solver. }
  assert (Hg : g ∈ marked (pre ++ (g, true) :: post)) by (rewrite Hm; set_solver).
  split.
  - rewrite absorb_span by done. rewrite Hs, !Hm. autorewrite with covered. set_solver.
  - rewrite Hi. done.
  - simpl. destruct (before _ _); [right; by exists g|]. destruct Hst as [Hst|(x & Hx & E)]; [by left|right; exists x; auto].
  - simpl. destruct (after _ _); [right; by exists g|]. destruct Hen as [Hen|(x & Hx & E)]; [by left|right; exists x; auto].
Qed.

Lemma merge_sweep_merged u0 pre gaps u gaps' u' changed :
  merge_sweep u gaps = (gaps', u', changed) → merged_from u0 (pre ++ gaps) u →
  merged_from u0 (pre ++ gaps') u' ∧ gaps'.*1 = gaps.*1.
Proof.
  revert pre u gaps' u' changed. induction gaps as [|[g m] l IH]; intros pre u gaps' u' changed E Hm; simpl in E.
  { by injection E as <- <- _. }
  destruct (m || apart g u) eqn:Ea; destruct (merge_sweep _ l) as [[l' v] c] eqn:El; injection E as <- <- _.
  - destruct (IH (pre ++ [(g, m)]) _ _ _ _ El) as [H1 H2]; [by rewrite <-app_assoc|].
    rewrite <-app_assoc in H1. split; [done|by rewrite !fmap_cons, H2].
  - apply orb_false_iff in Ea as [-> Ea].
    destruct (IH (pre ++ [(g, true)]) _ _ _ _ El) as [H1 H2]; [rewrite <-app_assoc; by apply merged_from_mark|].
    rewrite <-app_assoc in H1. split; [done|by rewrite !fmap_cons, H2].
Qed.

(** A sweep that changes something marks another gap; one that does not has
    found every unmarked gap apart from the union. *)
Lemma merge_sweep_unmarked gaps u gaps' u' (changed : bool) :
  merge_sweep u gaps = (gaps', u', changed) →
  (length (unmarked gaps') + (if changed then 1 else 0) ≤ length (unmarked gaps))%nat ∧
  (changed = false → u' = u ∧ Forall (λ g, apart g u = true) (unmarked gaps')).
Proof.
  revert u gaps' u' changed. induction gaps as [|[g m] l IH]; intros u gaps' u' changed E; simpl in E.
  { injection E as <- <- <-. split; [done|]. by split. }
  destruct (m || apart g u) eqn:Ea; destruct (merge_sweep _ l) as [[l' v] c] eqn:El; injection E as <- <- <-;
    destruct (IH _ _ _ _ El) as [H1 H2]; rewrite !unmarked_cons, !length_app.
  - split; [lia|]. intros ->. destruct (H2 eq_refl) as [-> H3]. split; [done|]. destruct m; [done|by constructor].
  - apply orb_false_iff in Ea as [-> _]. simpl. split; [destruct c; lia|done].
Qed.

(** What the sweeps leave: nothing unmarked touches the union any more. *)
Lemma merge_gaps_facts gaps u0 marks u :
  merge_gaps gaps u0 = Ok (marks, u) →
  merged_from u0 marks u ∧ marks.*1 = gaps ∧ Forall (λ g, apart g u = true) (unmarked marks).
Proof.
  unfold merge_gaps.
  assert (Hinit : merged_from u0 ((λ g, (g, false)) <$> gaps) u0 ∧ ((λ g, (g, false)) <$> gaps).*1 = gaps).
  { assert (Hn : marked ((λ g, (g, false)) <$> gaps) = []) by (induction gaps; [done|]; rewrite fmap_cons, marked_cons; done).
    split; [split; [rewrite Hn; autorewrite with covered; set_solver|by destruct u0|by left|by left]|].
    rewrite <-list_fmap_compose. apply list_fmap_id. }
  apply (iterate_inv merge_step (λ s, merged_from u0 s.1 s.2 ∧ s.1.*1 = gaps)
    (λ s, merged_from u0 s.1 s.2 ∧ s.1.*1 = gaps ∧ Forall (λ g, apart g s.2 = true) (unmarked s.1))); [..|exact Hinit];
  intros [l v] [l' v'] [H1 H2] Es; unfold merge_step in Es; cbn [fst snd] in *;
    destruct (merge_sweep v l) as [[l1 v1] c] eqn:El; destruct c; try discriminate Es; injection Es as -> ->;
    destruct (merge_sweep_merged u0 [] _ _ _ _ _ El H1) as [H3 H4].
  - split; [done|congruence].
  - destruct (merge_sweep_unmarked _ _ _ _ _ El) as [_ H5]. destruct (H5 eq_refl) as [-> H6].
    split_and!; [done|congruence|done].
Qed.

Lemma merge_gaps_returns gaps u0 : returns (merge_gaps gaps u0).
Proof.
  unfold merge_gaps. apply (iterate_returns merge_step (λ _, True) (λ s, Z.of_nat (length (unmarked s.1)))); [| |done|].
  - intros [l v] _. unfold merge_step. by destruct (merge_sweep _ _) as [[? ?] []].
  - intros [l v] [l' v'] _ Es. unfold merge_step in Es. cbn [fst snd] in *.
    destruct (merge_sweep v l) as [[l1 v1] c] eqn:El. destruct c; [|discriminate Es]. injection Es as -> ->.
    apply merge_sweep_unmarked in El as [H _]. split; [done|lia].
  - assert (Hn : (length (unmarked ((λ g, (g, false)) <$> gaps)) ≤ length gaps)%nat).
    { unfold unmarked. rewrite length_fmap. etrans; [apply length_filter|]. by rewrite length_fmap. }
    simpl. lia.
Qed.

(** *** The whole operation *)

(** What merging did to one group: [kept] gaps stay, [replaced] ones became
    part of the union. *)
Record merged_group (input : RunwayGapMergeInput) (r : RunwayGapMergeResult) (group group' : RunwayGroupPolicy)
    (kept replaced : list RunwayGap) : Prop := {
  mg_group : group' = set_Gaps (rg_Gaps group') group;
  mg_before : rg_Gaps group ≡ₚ kept ++ replaced;
  mg_after : rg_Gaps group' ≡ₚ mr_Union r :: kept;
  mg_covered : covered (rg_Gaps group') ≡ covered (rg_Gaps group) ∪ span (new_gap input);
  mg_apart : Forall (λ g, apart g (mr_Union r) = true) kept;
  mg_replaced : mr_ReplacedIDs r = gp_ID <$> replaced;
  mg_order : chain (λ a b, runwayGapLess b a = false) (rg_Gaps group');
  mg_union : ∃ marks, merged_from (new_gap input) marks (mr_Union r) ∧ marked marks = replaced
}.

Definition same_gap_identity (a b : RunwayGap) : Prop :=
  gp_ID a = gp_ID b ∧ gp_Label a = gp_Label b ∧ gp_CreatedAt a = gp_CreatedAt b ∧ gp_CreatedBy a = gp_CreatedBy b.

Section merging.
Implicit Types (groups : list RunwayGroupPolicy) (group : RunwayGroupPolicy).

Definition other_group (input : RunwayGapMergeInput) group : Prop :=
  rg_ID group ≠ mi_RunwayGroupID input.

Definition fresh_group (input : RunwayGapMergeInput) group : Prop :=
  Forall (λ g, gp_ID g ≠ mi_CommandID input) (rg_Gaps group).

(** The state of the loop after the groups [done]. *)
Inductive merging (input : RunwayGapMergeInput) (done : list RunwayGroupPolicy) : merge_state → Prop :=
| merging_before : Forall (other_group input) done →
    merging input done (mk_mstate (mk_merged done (new_gap input) []) false)
| merging_after pre group post group' kept replaced r : done = pre ++ group :: post →
    rg_ID group = mi_RunwayGroupID input → Forall (other_group input) (pre ++ post) →
    mr_RunwayGroups r = pre ++ group' :: post → merged_group input r group group' kept replaced →
    merging input done (mk_mstate r true).

Lemma merged_group_ext input r r' group group' kept replaced :
  mr_Union r' = mr_Union r → mr_ReplacedIDs r' = mr_ReplacedIDs r →
  merged_group input r group group' kept replaced → merged_group input r' group group' kept replaced.
Proof using Type. intros Hu Hr []. split; rewrite ?Hu, ?Hr; done. Qed.

Lemma merged_from_id u0 gaps u : merged_from u0 gaps u → same_gap_identity u u0.
Proof using Type. intros [_ -> _ _]. done. Qed.

Lemma merge_group_merges input group marks u (groups : list RunwayGroupPolicy) :
  merge_gaps (sort_slice runwayGapLess (rg_Gaps group)) (new_gap input) = Ok (marks, u) →
  let gaps := sort_slice runwayGapLess (unmarked marks ++ [u]) in
  merged_group input (mk_merged groups u (gp_ID <$> marked marks)) group (set_Gaps gaps group) (unmarked marks) (marked marks).
Proof using Type.
  intros (Hm & Hg & Ha)%merge_gaps_facts gaps. pose proof (marked_split marks) as Hp. rewrite Hg, sort_slice_perm in Hp.
  assert (Hgaps : gaps ≡ₚ u :: unmarked marks) by (unfold gaps; rewrite sort_slice_perm; apply Permutation_app_comm).
  split; simpl; try done.
  - by rewrite <-Hp, Permutation_app_comm.
  - rewrite Hgaps, <-Hp. autorewrite with covered. rewrite (mf_span _ _ _ Hm). set_solver.
  - apply sort_slice_adj, runwayGapLess_asym.
  - by exists marks.
Qed.

Lemma merge_group_step input groups s group s' :
  merging input groups s → merge_group input s group = Ok s' →
  merging input (groups ++ [group]) s' ∧ fresh_group input group.
Proof using Type.
  intros Hs E. unfold merge_group in E.
  assert (Hid : gp_ID (mr_Union (ms_result s)) = mi_CommandID input).
  { destruct Hs as [|pre grp post grp' kept replaced r _ _ _ _ [_ _ _ _ _ _ _ (marks & Hu & _)]]; [done|].
    by destruct (merged_from_id _ _ _ Hu). }
  destruct (ms_result s) as [gs u reps] eqn:Er. simpl in Hid. bind_inv E. apply guard_err_ok in E0.
  split; cycle 1.
  { apply Forall_forall. intros g Hg Hgid. rewrite existsb_exists_false in E0. specialize (E0 g Hg). simpl in E0.
    apply str_eqb_neq in E0. congruence. }
  clear E0. destruct (negb (str_eqb (rg_ID group) (mi_RunwayGroupID input))) eqn:Eg.
  - apply negb_true_iff, str_eqb_neq in Eg. injection E as <-. destruct Hs as [Ho|pre grp post grp' kept replaced r' -> Hg Ho Hr Hm]; simpl in *.
    + injection Er as <- <- <-. constructor. apply Forall_app. split; [done|by constructor].
    + subst r'. simpl in Hr. rewrite Hr. eapply (merging_after _ _ pre grp (post ++ [group]) grp' kept replaced).
      * by rewrite <-app_assoc.
      * done.
      * rewrite app_assoc. apply Forall_app. split; [done|by constructor].
      * simpl. by rewrite <-app_assoc.
      * by eapply merged_group_ext; [| |exact Hm].
  - apply negb_false_iff, str_eqb_eq in Eg. bind_inv E. apply guard_err_ok in E0.
    destruct Hs as [Ho|]; [|done]. simpl in Er. injection Er as <- <- <-. bind_inv E. destruct r1 as [marks u]. injection E as <-.
    eapply (merging_after _ _ groups group []); [done|done|by rewrite app_nil_r|done|]. by apply merge_group_merges.
Qed.

Lemma merge_groups_merging input groups rest s s' :
  merging input groups s → fold_outcome (merge_group input) s rest = Ok s' →
  merging input (groups ++ rest) s' ∧ Forall (fresh_group input) rest.
Proof using Type.
  revert groups s. induction rest as [|g l IH]; intros groups s Hs E; simpl in E.
  { injection E as <-. by rewrite app_nil_r. }
  bind_inv E. destruct (merge_group_step _ _ _ _ _ Hs E0) as [Hr Hf].
  destruct (IH _ _ Hr E) as [H1 H2]. rewrite <-app_assoc in H1. split; [done|by constructor].
Qed.

Lemma MergeRunwayGap_facts groups input r :
  MergeRunwayGap groups input = Ok r →
  RunwayGap_Validate (new_gap input) = Ok tt ∧ Forall (fresh_group input) groups ∧
  ∃ pre group post group' kept replaced, groups = pre ++ group :: post ∧ rg_ID group = mi_RunwayGroupID input ∧
    Forall (other_group input) (pre ++ post) ∧ mr_RunwayGroups r = pre ++ group' :: post ∧
    merged_group input r group group' kept replaced.
Proof using Type.
  unfold MergeRunwayGap. intros E. bind_inv E. bind_inv E. destruct r1. bind_inv E. bind_inv E. apply guard_err_ok in E3. injection E as <-.
  destruct (merge_groups_merging input [] groups _ r1 (merging_before _ _ (Forall_nil_2 _)) E2) as [Hm Hf].
  simpl in Hm. split_and!; [done|done|]. destruct Hm as [|pre group post group' kept replaced res -> ? ? ? ?]; [done|].
  by exists pre, group, post, group', kept, replaced.
Qed.
End merging.

(** *** What a valid state is *)

Definition fresh (ids : gset string) (l : list string) : Prop := NoDup l ∧ ∀ x, x ∈ l → x ∉ ids.

Lemma fresh_app ids l k : fresh ids (l ++ k) ↔ fresh ids l ∧ fresh (list_to_set l ∪ ids) k.
Proof. unfold fresh. rewrite NoDup_app. set_solver. Qed.

Lemma fresh_cons ids x l : fresh ids (x :: l) ↔ (x ∉ ids) ∧ fresh ({[x]} ∪ ids) l.
Proof. unfold fresh. rewrite NoDup_cons. set_solver. Qed.

Lemma fresh_empty l : fresh ∅ l ↔ NoDup l.
Proof. unfold fresh. set_solver. Qed.

Lemma validate_list_iff {A} (V : A → outcome unit) id duplicate (ord : A → A → outcome unit) ids previous l ids' :
  validate_list V id duplicate ord ids previous l = Ok ids' ↔
    Forall (λ a, V a = Ok tt) l ∧ fresh ids (id <$> l) ∧ (∀ p a, previous = Some p → head l = Some a → ord p a = Ok tt) ∧
    chain (λ a b, ord a b = Ok tt) l ∧ ids' = list_to_set (id <$> l) ∪ ids.
Proof.
  revert ids previous. induction l as [|a l IH]; intros ids previous.
  { simpl. rewrite (left_id_L ∅ (∪)). split; [intros [= <-]|by intros (_ & _ & _ & _ & ->)].
    split_and!; [done|split; [constructor|set_solver]|done|done|done]. }
  cbn [validate_list]. rewrite !bind_unit_iff, guard_err_iff, bool_decide_eq_false, IH, Forall_cons, fmap_cons, fresh_cons.
  rewrite list_to_set_cons, chain_cons.
  assert (Hu : list_to_set (id <$> l) ∪ ({[id a]} ∪ ids) = {[id a]} ∪ list_to_set (id <$> l) ∪ ids) by set_solver.
  rewrite Hu. split.
  - intros (? & ? & Hp & ? & ? & Ho & ? & ?). split_and!; try done; [by intros p b -> [= <-]|].
    intros b Hb. by apply (Ho a b).
  - intros ([? ?] & [? ?] & Hp & [? Ho] & ?). split_and!; try done; [destruct previous as [p|]; [by apply (Hp p a)|done]|].
    intros p b [= <-] Hb. by apply Ho.
Qed.

Lemma validate_first_iff {A} (V : A → outcome unit) id duplicate (ord : A → A → outcome unit) ids l ids' :
  validate_list V id duplicate ord ids None l = Ok ids' ↔
    (Forall (λ a, V a = Ok tt) l ∧ chain (λ a b, ord a b = Ok tt) l) ∧ fresh ids (id <$> l) ∧
    ids' = list_to_set (id <$> l) ∪ ids.
Proof. rewrite validate_list_iff. naive_solver. Qed.

(** Gaps that start before they end, in order and apart. *)
Definition gaps_ok (gaps : list RunwayGap) : Prop :=
  Forall (λ g, RunwayGap_Validate g = Ok tt) gaps ∧ chain (λ a b, ns (gp_End a) < ns (gp_Start b)) gaps.

Lemma RunwayGap_Validate_iff g :
  RunwayGap_Validate g = Ok tt ↔
    (isTrimmedNonEmpty (gp_ID g) = true ∧ isTrimmedNonEmpty (gp_Label g) = true ∧ isTrimmedNonEmpty (gp_CreatedBy g) = true) ∧
    (valid_time (gp_Start g) ∧ valid_time (gp_End g) ∧ valid_time (gp_CreatedAt g)) ∧ ns (gp_Start g) < ns (gp_End g).
Proof.
  unfold RunwayGap_Validate, required. rewrite !bind_unit_iff, !requireUTCTime_iff, !guard_err_iff, !negb_false_iff.
  unfold before. rewrite Z.ltb_lt. naive_solver.
Qed.

Lemma validate_gaps_iff ids gaps ids' :
  validate_gaps ids gaps = Ok ids' ↔ gaps_ok gaps ∧ fresh ids (gp_ID <$> gaps) ∧ ids' = list_to_set (gp_ID <$> gaps) ∪ ids.
Proof.
  unfold validate_gaps. rewrite validate_first_iff. unfold gaps_ok.
  assert (Hc : Forall (λ g, RunwayGap_Validate g = Ok tt) gaps →
    chain (λ a b, (_ ← guard_err (negb (runwayGapLess a b)) (invalid_argument "runway group gaps must be unique and strictly ordered");
                   guard_err (negb (before (gp_End a) (gp_Start b))) (invalid_argument "runway group gaps must not overlap or touch"))
                  = Ok tt) gaps ↔ chain (λ a b, ns (gp_End a) < ns (gp_Start b)) gaps).
  { intros Hv. split; apply chain_mono_in; intros a b Ha Hb; rewrite bind_unit_iff, !guard_err_iff, !negb_false_iff;
      unfold before; rewrite Z.ltb_lt; [naive_solver|]. intros Hab. split; [|done]. apply runwayGapLess_before.
    rewrite Forall_forall in Hv. specialize (Hv a Ha). apply RunwayGap_Validate_iff in Hv. lia. }
  naive_solver.
Qed.

Definition closures_ok (closures : list RunwayClosure) : Prop :=
  Forall (λ c, RunwayClosure_Validate c = Ok tt) closures ∧ chain (λ a b, runwayClosureLess a b = true) closures.

Definition reservations_ok (reservations : list RunwayCapacityReservation) : Prop :=
  Forall (λ r, RunwayCapacityReservation_Validate r = Ok tt) reservations ∧
  chain (λ a b, runwayCapacityReservationLess a b = true) reservations.

Lemma validate_ordered_iff {A} (V : A → outcome unit) id duplicate (less : A → A → bool) e ids l ids' :
  validate_list V id duplicate (λ a b, guard_err (negb (less a b)) e) ids None l = Ok ids' ↔
    (Forall (λ a, V a = Ok tt) l ∧ chain (λ a b, less a b = true) l) ∧ fresh ids (id <$> l) ∧
    ids' = list_to_set (id <$> l) ∪ ids.
Proof.
  rewrite validate_first_iff.
  assert (Hc : chain (λ a b, guard_err (negb (less a b)) e = Ok tt) l ↔ chain (λ a b, less a b = true) l).
  { split; apply chain_mono; intros a b; by rewrite guard_err_iff, negb_false_iff. }
  by rewrite Hc.
Qed.

(** What the validation asks of a group besides fresh identities. *)
Definition group_rest (group : RunwayGroupPolicy) : Prop :=
  str_empty (TrimSpace (rg_ID group)) = false ∧
  (validate_selection group = Ok tt ∧ validate_group_rates group = Ok tt ∧ validate_warnings None (rg_SequenceWarnings group) = Ok tt) ∧
  closures_ok (rg_Closures group) ∧ reservations_ok (rg_CapacityReservations group).

Definition group_ok (group : RunwayGroupPolicy) : Prop := group_rest group ∧ gaps_ok (rg_Gaps group).

Definition gap_ids (group : RunwayGroupPolicy) : list string := gp_ID <$> rg_Gaps group.
Definition closure_ids (group : RunwayGroupPolicy) : list string := cl_ID <$> rg_Closures group.
Definition reservation_ids (group : RunwayGroupPolicy) : list string := cr_ID <$> rg_CapacityReservations group.

(** Groups selected at the same time. *)
Definition selections (groups : list RunwayGroupPolicy) : nat := sum_list (selected_count <$> groups).

Record fresh_groups (s : groups_seen) (groups : list RunwayGroupPolicy) : Prop := {
  fr_groups : fresh (gs_groups s) (rg_ID <$> groups);
  fr_selected : selections groups = 0%nat ∨ (gs_selected s + selections groups ≤ 1)%nat;
  fr_gaps : fresh (ci_gaps (gs_ids s)) (groups ≫= gap_ids);
  fr_closures : fresh (ci_closures (gs_ids s)) (groups ≫= closure_ids);
  fr_reservations : fresh (ci_reservations (gs_ids s)) (groups ≫= reservation_ids)
}.

Definition ids_after (s : groups_seen) (group : RunwayGroupPolicy) : groups_seen :=
  mk_seen ({[rg_ID group]} ∪ gs_groups s) (gs_selected s + selected_count group)
    (mk_ids (list_to_set (gap_ids group) ∪ ci_gaps (gs_ids s))
       (list_to_set (closure_ids group) ∪ ci_closures (gs_ids s))
       (list_to_set (reservation_ids group) ∪ ci_reservations (gs_ids s))).

Lemma bind_ok_iff {A B} (m : outcome A) (k : A → outcome B) b : (a ← m; k a) = Ok b ↔ ∃ a, m = Ok a ∧ k a = Ok b.
Proof. split; [apply bind_ok|by intros (a & -> & ?)]. Qed.

Lemma fresh_groups_one s (group : RunwayGroupPolicy) :
  fresh_groups s [group] ↔
    (rg_ID group ∉ gs_groups s) ∧ rg_Selected group && (1 <? gs_selected s + selected_count group)%nat = false ∧ fresh (ci_gaps (gs_ids s)) (gap_ids group) ∧
    fresh (ci_closures (gs_ids s)) (closure_ids group) ∧ fresh (ci_reservations (gs_ids s)) (reservation_ids group).
Proof.
  assert (Hs : (selections [group] = 0%nat ∨ (gs_selected s + selections [group] ≤ 1)%nat) ↔
    rg_Selected group && (1 <? gs_selected s + selected_count group)%nat = false).
  { unfold selections, selected_count. destruct (rg_Selected group) eqn:Hg; [rewrite andb_true_l, Nat.ltb_ge|rewrite andb_false_l];
      simpl; rewrite Hg; split; try lia; by left. }
  split; [intros [[_ H1] H0%Hs H2 H3 H4]|intros (H1 & H0%Hs & H2 & H3 & H4); split]; cbn in *; rewrite ?app_nil_r in *; try done.
  - split_and!; [|done..]. apply H1. by apply list_elem_of_singleton.
  - split; [apply NoDup_singleton|]. by intros x ->%list_elem_of_singleton.
Qed.

Lemma validate_capacity_iff ids (group : RunwayGroupPolicy) ids' :
  validate_capacity ids group = Ok ids' ↔
    ∃ gaps closures reservations,
      (validate_selection group = Ok tt ∧ validate_group_rates group = Ok tt ∧ validate_warnings None (rg_SequenceWarnings group) = Ok tt) ∧
      validate_gaps (ci_gaps ids) (rg_Gaps group) = Ok gaps ∧
      validate_closures (ci_closures ids) (rg_Closures group) = Ok closures ∧
      validate_reservations (ci_reservations ids) (rg_CapacityReservations group) = Ok reservations ∧
      ids' = mk_ids gaps closures reservations.
Proof.
  unfold validate_capacity. rewrite !bind_unit_iff. split.
  - intros (? & ? & ? & (gaps & Hg & (closures & Hc & (reservations & Hr & [= <-])%bind_ok)%bind_ok)%bind_ok).
    by exists gaps, closures, reservations.
  - intros (gaps & closures & reservations & (? & ? & ?) & E1 & E2 & E3 & ->). cbn [mbind outcome_bind]. rewrite E1, E2, E3.
    by split_and!.
Qed.

Lemma validate_group_iff s (group : RunwayGroupPolicy) s' :
  validate_group s group = Ok s' ↔ group_ok group ∧ fresh_groups s [group] ∧ s' = ids_after s group.
Proof.
  unfold validate_group. rewrite !bind_unit_iff, !guard_err_iff, bool_decide_eq_false, bind_ok_iff, fresh_groups_one.
  setoid_rewrite validate_capacity_iff. setoid_rewrite validate_gaps_iff. unfold validate_closures, validate_reservations.
  setoid_rewrite validate_ordered_iff. unfold group_ok, group_rest. split.
  - intros (? & ? & ? & ids & (gs & cs & rs & (? & ? & ?) & (? & ? & ->) & (? & ? & ->) & (? & ? & ->) & ->) & [= <-]). by split_and!.
  - intros (((? & (? & ? & ?) & Hcs & Hrs) & ?) & (? & ? & ? & ? & ?) & ->). split; [done|]. split; [done|]. split; [done|].
    eexists. split; [|reflexivity]. eexists _, _, _. destruct Hcs, Hrs. by split_and!.
Qed.

Lemma fresh_groups_cons s (group : RunwayGroupPolicy) groups :
  fresh_groups s (group :: groups) ↔ fresh_groups s [group] ∧ fresh_groups (ids_after s group) groups.
Proof.
  assert (Hsplit : ∀ (f : RunwayGroupPolicy → list string) ids, fresh ids ((group :: groups) ≫= f) ↔
    fresh ids ([group] ≫= f) ∧ fresh (list_to_set (f group) ∪ ids) (groups ≫= f)).
  { intros f ids. cbn. rewrite app_nil_r. apply fresh_app. }
  assert (Hc : selections (group :: groups) = (selections [group] + selections groups)%nat ∧
    selected_count group = selections [group]) 
    by (unfold selections; rewrite !fmap_cons; generalize (selected_count group) (selected_count <$> groups); simpl; lia).
  destruct Hc as [Hc Hone].
  split.
  - intros [[H1 H2]%(fresh_app _ [rg_ID group]) H0 [H3 H4]%Hsplit [H5 H6]%Hsplit [H7 H8]%Hsplit].
    simpl in H2. rewrite (right_id_L ∅ (∪)) in H2. split; (split; [done|unfold ids_after; cbn [gs_selected]; lia|done..]).
  - intros [[H1 H0 H3 H5 H7] [H2 H9 H4 H6 H8]]. split; [| |by apply Hsplit..].
    + apply (fresh_app _ [rg_ID group]). simpl. by rewrite (right_id_L ∅ (∪)).
    + unfold ids_after in H9. cbn [gs_selected] in H9. lia.
Qed.

Lemma validate_groups_fold s (groups : list RunwayGroupPolicy) :
  (∃ s', fold_outcome validate_group s groups = Ok s') ↔ Forall group_ok groups ∧ fresh_groups s groups.
Proof.
  revert s. induction groups as [|g l IH]; intros s.
  { simpl. split; [|by eexists]. intros _. split; [done|]. split; [|by left|..]; (split; [constructor|set_solver]). }
  cbn [fold_outcome]. rewrite Forall_cons, fresh_groups_cons. setoid_rewrite bind_ok_iff. split.
  - intros (s' & s1 & (? & ? & ->)%validate_group_iff & Hs). destruct (IH (ids_after s g)) as [IH1 _]. naive_solver.
  - intros ([? ?] & ? & ?). destruct (IH (ids_after s g)) as [_ IH2]. destruct IH2 as [s' Hs']; [done|].
    exists s', (ids_after s g). split; [|done]. by apply validate_group_iff.
Qed.

(** A valid state: valid groups whose identities, and those of their gaps,
    closures and reservations, are all different. *)
Lemma validate_groups_iff (groups : list RunwayGroupPolicy) :
  validate_groups groups = Ok tt ↔
    Forall group_ok groups ∧ (NoDup (rg_ID <$> groups) ∧ (selections groups ≤ 1)%nat) ∧ NoDup (groups ≫= gap_ids) ∧
    NoDup (groups ≫= closure_ids) ∧ NoDup (groups ≫= reservation_ids).
Proof.
  unfold validate_groups. rewrite bind_ok_iff.
  assert (He : fresh_groups (mk_seen ∅ 0 (mk_ids ∅ ∅ ∅)) groups ↔
    (NoDup (rg_ID <$> groups) ∧ (selections groups ≤ 1)%nat) ∧ NoDup (groups ≫= gap_ids) ∧
    NoDup (groups ≫= closure_ids) ∧ NoDup (groups ≫= reservation_ids)).
  { split; [intros [? ? ? ? ?]|intros ([? ?] & ? & ? & ?); split]; simpl in *; rewrite ?fresh_empty in *; try split_and!; by try lia. }
  rewrite <-He, <-validate_groups_fold. naive_solver.
Qed.

Lemma groups_replaced pre (g g' : RunwayGroupPolicy) post :
  rg_ID g' = rg_ID g → rg_Selected g' = rg_Selected g →
  NoDup (rg_ID <$> pre ++ g :: post) ∧ (selections (pre ++ g :: post) ≤ 1)%nat →
  NoDup (rg_ID <$> pre ++ g' :: post) ∧ (selections (pre ++ g' :: post) ≤ 1)%nat.
Proof. unfold selections, selected_count. rewrite !fmap_app, !fmap_cons. by intros -> ->. Qed.

(** *** Merging keeps a state valid *)

Definition disjoint_gaps (a b : RunwayGap) : Prop := ns (gp_End a) < ns (gp_Start b) ∨ ns (gp_End b) < ns (gp_Start a).

Lemma apart_disjoint a b : apart a b = true → disjoint_gaps a b ∧ disjoint_gaps b a.
Proof. unfold apart, before, disjoint_gaps. intros. zbool. lia. Qed.

Lemma gaps_ok_pairwise gaps : gaps_ok gaps → pairwise disjoint_gaps gaps.
Proof.
  intros [Hv Hc]. apply (chain_pairwise (λ a b, ns (gp_End a) < ns (gp_Start b) ∧ ns (gp_Start b) < ns (gp_End b))).
  - lia.
  - unfold disjoint_gaps. lia.
  - eapply chain_mono_in; [|exact Hc]. intros a b Ha Hb Hab. split; [done|].
    rewrite Forall_forall in Hv. by destruct (proj1 (RunwayGap_Validate_iff b) (Hv b Hb)) as (_ & _ & ?).
Qed.

Lemma sorted_gaps_ok gaps :
  Forall (λ g, RunwayGap_Validate g = Ok tt) gaps → pairwise disjoint_gaps gaps →
  chain (λ a b, runwayGapLess b a = false) gaps → gaps_ok gaps.
Proof.
  intros Hv Hp Hc. split; [done|]. apply chain_lookup. intros i a b Ha Hb. rewrite chain_lookup in Hc.
  specialize (Hc i a b Ha Hb). simpl in Hc. destruct (Hp i (S i) a b) as [?|Hba]; [lia|done..|].
  rewrite Forall_lookup in Hv. destruct (proj1 (RunwayGap_Validate_iff _) (Hv _ _ Ha)) as (_ & _ & ?).
  destruct (proj1 (RunwayGap_Validate_iff _) (Hv _ _ Hb)) as (_ & _ & ?). rewrite runwayGapLess_before in Hc; [done|lia].
Qed.

Section merged.
Context (input : RunwayGapMergeInput) (r : RunwayGapMergeResult) (group group' : RunwayGroupPolicy) (kept replaced : list RunwayGap).
Hypothesis Hmerged : merged_group input r group group' kept replaced.
Hypothesis Hnew : RunwayGap_Validate (new_gap input) = Ok tt.

Lemma merged_union_valid : gaps_ok (rg_Gaps group) → RunwayGap_Validate (mr_Union r) = Ok tt.
Proof using Hmerged Hnew.
  intros [Hv _]. destruct (mg_union _ _ _ _ _ _ Hmerged) as (marks & [Hs Hi Hst Hen] & Hm).
  assert (Hin : ∀ g, g ∈ marked marks → RunwayGap_Validate g = Ok tt).
  { intros g Hg. rewrite Forall_forall in Hv. apply Hv. rewrite (mg_before _ _ _ _ _ _ Hmerged). set_solver. }
  apply RunwayGap_Validate_iff in Hnew as ((? & ? & ?) & (? & ? & ?) & Hlt). apply RunwayGap_Validate_iff.
  assert (Hspan : ns (gp_Start (new_gap input)) ∈ span (mr_Union r)).
  { rewrite Hs. apply elem_of_union_l, elem_of_span. simpl in *. lia. }
  apply elem_of_span in Hspan. simpl in Hspan. rewrite Hi. simpl. split_and!; try done.
  - destruct Hst as [->|(g & Hg%Hin%RunwayGap_Validate_iff & ->)]; [done|naive_solver].
  - destruct Hen as [->|(g & Hg%Hin%RunwayGap_Validate_iff & ->)]; [done|naive_solver].
  - lia.
Qed.

Lemma merged_gaps_ok : gaps_ok (rg_Gaps group) → gaps_ok (rg_Gaps group').
Proof using Hmerged Hnew.
  intros Hok. pose proof (merged_union_valid Hok) as Hu. pose proof (gaps_ok_pairwise _ Hok) as Hp. destruct Hok as [Hv _].
  rewrite (mg_before _ _ _ _ _ _ Hmerged) in Hv. apply Forall_app in Hv as [Hv _].
  apply (pairwise_perm _ _ _ (mg_before _ _ _ _ _ _ Hmerged)), pairwise_app_l in Hp.
  apply sorted_gaps_ok; [| |by apply Hmerged].
  - rewrite (mg_after _ _ _ _ _ _ Hmerged). by constructor.
  - apply (pairwise_perm _ _ _ (symmetry (mg_after _ _ _ _ _ _ Hmerged))). apply pairwise_cons; [|done].
    intros g Hg. pose proof (mg_apart _ _ _ _ _ _ Hmerged) as Ha. rewrite Forall_forall in Ha.
    by destruct (apart_disjoint _ _ (Ha g Hg)).
Qed.

Lemma merged_gap_ids : gap_ids group' ≡ₚ mi_CommandID input :: (gp_ID <$> kept).
Proof using Hmerged.
  unfold gap_ids. rewrite (mg_after _ _ _ _ _ _ Hmerged), fmap_cons.
  destruct (mg_union _ _ _ _ _ _ Hmerged) as (marks & [_ Hi _ _] & _). by rewrite Hi.
Qed.
End merged.

(** C36: Merging a gap into a runway group always returns. On success the group
    loses exactly the instants of the new gap besides those it had lost before;
    the union carries the identity, label and origin of the command, nothing
    kept touches it, the identities reported as replaced are those of the gaps
    it took in, and everything else about every group is as it was. *)
Theorem MergeRunwayGap_correct (groups : list RunwayGroupPolicy) input :
  returns (MergeRunwayGap groups input) ∧
  ∀ r, MergeRunwayGap groups input = Ok r →
    ∃ pre group post gaps kept replaced,
      groups = pre ++ group :: post ∧ rg_ID group = mi_RunwayGroupID input ∧
      mr_RunwayGroups r = pre ++ set_Gaps gaps group :: post ∧
      covered gaps ≡ covered (rg_Gaps group) ∪ span (new_gap input) ∧
      same_gap_identity (mr_Union r) (new_gap input) ∧
      rg_Gaps group ≡ₚ kept ++ replaced ∧ gaps ≡ₚ mr_Union r :: kept ∧ mr_ReplacedIDs r = gp_ID <$> replaced ∧
      Forall (disjoint_gaps (mr_Union r)) kept ∧ span (mr_Union r) ≡ span (new_gap input) ∪ covered replaced.
Proof.
  split.
  - unfold MergeRunwayGap, RunwayGap_Validate, required, requireUTCTime. apply returns_bind; [by destruct (negb _)|].
    intros _ _. apply returns_bind; [returns_tac|]. intros _ _. apply returns_bind; [|by intros s _; destruct (ms_found s)].
    apply fold_outcome_returns. intros s group _. unfold merge_group. destruct (ms_result s) as [gs u reps].
    apply returns_bind; [by destruct (existsb _ _)|]. intros _ _. destruct (negb _); [done|].
    apply returns_bind; [by destruct (ms_found s)|]. intros _ _.
    apply returns_bind; [apply merge_gaps_returns|]. by intros [? ?] _.
  - intros r (Hnew & _ & pre & group & post & group' & kept & replaced & -> & Hid & _ & Hr & Hm)%MergeRunwayGap_facts.
    destruct (mg_union _ _ _ _ _ _ Hm) as (marks & Hu & Hk). pose proof (mf_span _ _ _ Hu) as Hs. rewrite Hk in Hs.
    exists pre, group, post, (rg_Gaps group'), kept, replaced.
    split_and!; [done|done|by rewrite <-(mg_group _ _ _ _ _ _ Hm)|apply Hm|by eapply merged_from_id|apply Hm..| |done].
    eapply Forall_impl; [apply Hm|]. intros g Hg. by apply apart_disjoint.
Qed.

(** C37: Merging a gap keeps the airport state valid: identities stay distinct,
    and the gaps of every group sorted, valid, and apart from one another. *)
Theorem MergeRunwayGap_valid (groups : list RunwayGroupPolicy) input r :
  validate_groups groups = Ok tt → MergeRunwayGap groups input = Ok r → validate_groups (mr_RunwayGroups r) = Ok tt.
Proof.
  intros (Hok & Hids & Hgaps & Hcl & Hres)%validate_groups_iff
    (Hnew & Hfresh & pre & group & post & group' & kept & replaced & -> & Hid & _ & -> & Hm)%MergeRunwayGap_facts.
  apply Forall_app in Hok as [Hpre [Hg Hpost]%Forall_cons].
  assert (Hsame : group' = set_Gaps (rg_Gaps group') group) by apply Hm.
  assert (Hkeep : ∀ f : RunwayGroupPolicy → list string, f group' = f group → (pre ++ group' :: post) ≫= f = (pre ++ group :: post) ≫= f).
  { intros f Hf. rewrite !bind_app, !bind_cons. by rewrite Hf. }
  apply validate_groups_iff. split; [|split; [by apply (groups_replaced _ group); [rewrite Hsame|rewrite Hsame|]|split_and!]].
  - apply Forall_app. split; [done|]. constructor; [|done]. destruct Hg as [Hrest Hg].
    split; [by rewrite Hsame|by eapply merged_gaps_ok].
  - rewrite bind_app, bind_cons in Hgaps |- *. rewrite (merged_gap_ids _ _ _ _ _ _ Hm).
    assert (Hg' : gap_ids group ≡ₚ (gp_ID <$> kept) ++ (gp_ID <$> replaced)).
    { unfold gap_ids. by rewrite (mg_before _ _ _ _ _ _ Hm), fmap_app. }
    assert (Hx : ∀ l : list RunwayGroupPolicy, Forall (fresh_group input) l → mi_CommandID input ∉ l ≫= gap_ids).
    { intros l Hl (g & Hi & Hin)%list_elem_of_bind. rewrite Forall_forall in Hl. specialize (Hl g Hin).
      apply list_elem_of_fmap in Hi as (x & Hx & Hxg). unfold fresh_group in Hl. rewrite Forall_forall in Hl. by apply (Hl x Hxg). }
    apply Forall_app in Hfresh as [Hf1 [Hf2 Hf3]%Forall_cons]. pose proof (Hx _ Hf1). pose proof (Hx _ Hf3).
    assert (mi_CommandID input ∉ (gp_ID <$> kept)).
    { intros Hk. apply (Hx [group]); [by constructor|]. cbn. rewrite app_nil_r, Hg'. set_solver. }
    rewrite Hg' in Hgaps. clear -Hgaps H H0 H1. rewrite <-app_comm_cons, <-Permutation_middle.
    rewrite NoDup_cons, !NoDup_app in *. set_solver.
  - rewrite Hkeep; [done|]. by rewrite Hsame.
  - rewrite Hkeep; [done|]. by rewrite Hsame.
Qed.

(** ** Normalising an operator's gap *)

(** The longest gap that can be given in slots, about 292 years of hours. *)
Definition max_slots : Z := 2562047.

Lemma max_slots_exact : max_int64 / Hour = max_slots.
Proof. reflexivity. Qed.

Lemma slot_duration_exact count rate :
  0 < count ≤ max_slots → 0 < rate < 2^32 →
  runwayGapSlotDuration count rate = Some (Hour * count / rate) ∧ 1 ≤ Hour * count / rate < 2^63.
Proof.
  unfold max_slots. intros Hc Hr.
  assert (Hb : 1 ≤ Hour * count / rate ≤ Hour * count).
  { unfold Hour, Minute, Second. split; [apply Z.div_le_lower_bound; lia|apply Z.div_le_upper_bound; nia]. }
  assert (Hlim : Hour * count < 2^63) by (unfold Hour, Minute, Second; lia).
  split; [|lia]. unfold runwayGapSlotDuration, dur_div, dur_mul.
  rewrite max_slots_exact. destruct (Z.ltb_spec max_slots count) as [Hlt|_]; [unfold max_slots in *; lia|].
  assert (Hm : 0 ≤ Hour * count) by (unfold Hour, Minute, Second; lia).
  rewrite (wrap64_id (Hour * count)) by (unfold in_int64; lia).
  rewrite Z.quot_div_nonneg by lia. rewrite wrap64_id by (unfold in_int64; lia). done.
Qed.

Lemma slot_duration_large count rate : max_slots < count → runwayGapSlotDuration count rate = None.
Proof. unfold runwayGapSlotDuration. rewrite max_slots_exact. intros. by destruct (Z.ltb_spec max_slots count); [|lia]. Qed.

(** Normalising an operator's gap always returns, and accepts exactly the
    inputs that give a valid start, a positive rate, and either a valid end
    after the start or a number of slots from 1 to [max_slots]; the interval is
    then the one asked for, with an end computed as slots * 1 h / rate in exact
    arithmetic: no intermediate product overflows. *)
Theorem NormalizeRunwayGapInterval_correct input rate :
  in_uint32 rate → (∀ n, gi_SlotCount input = Some n → in_uint32 n) →
  returns (NormalizeRunwayGapInterval input rate) ∧
  ∀ i, NormalizeRunwayGapInterval input rate = Ok i ↔
    valid_time (gi_Start input) ∧ 0 < rate ∧ iv_start i = gi_Start input ∧
    ((gi_SlotCount input = None ∧ gi_End input = Some (iv_end i) ∧ valid_time (iv_end i) ∧ ns (iv_start i) < ns (iv_end i)) ∨
     (gi_End input = None ∧ ∃ n, gi_SlotCount input = Some n ∧ 0 < n ≤ max_slots ∧
        iv_end i = time_add (gi_Start input) (Hour * n / rate))).
Proof.
  intros Hrate Hcount. unfold in_uint32 in *. destruct input as [start end_ count]. simpl in *. split.
  - unfold NormalizeRunwayGapInterval. apply returns_bind; [apply requireUTCTime_returns|]. intros _ _.
    apply returns_bind; [by destruct (_ =? _)|]. intros _ _. simpl. destruct end_ as [e|], count as [n|]; simpl; try done.
    + apply returns_bind; [|intros; by destruct (negb _)]. apply returns_bind; [apply requireUTCTime_returns|done].
    + apply returns_bind; [|intros; by destruct (negb _)]. destruct (n =? 0); [done|]. by destruct (runwayGapSlotDuration _ _).
  - intros [istart iend]. unfold NormalizeRunwayGapInterval. simpl.
    rewrite !bind_unit_iff, requireUTCTime_iff, !guard_err_iff, Z.eqb_neq.
    destruct end_ as [e|], count as [n|]; simpl; [naive_solver| | |naive_solver].
    + rewrite bind_ok_iff. setoid_rewrite bind_unit_iff. setoid_rewrite requireUTCTime_iff. setoid_rewrite guard_err_iff.
      unfold before. setoid_rewrite negb_false_iff. setoid_rewrite Z.ltb_lt. split.
      * intros (? & ? & _ & x & (? & [= <-]) & ? & [= <- <-]). split_and!; [done|lia|done|]. by left.
      * intros (? & ? & -> & [(_ & [= ->] & ? & ?)|(? & _)]); [|done]. split_and!; [done|lia|done|]. by eexists.
    + specialize (Hcount n eq_refl). destruct (Z.eqb_spec n 0) as [->|Hn]; [split; [naive_solver|]|].
      { intros (_ & _ & _ & [(? & _)|(_ & ? & [= <-] & ? & _)]); [done|lia]. }
      destruct (Z.le_gt_cases n max_slots) as [Hle|Hgt]; cycle 1.
      { rewrite slot_duration_large by done. simpl. split; [naive_solver|].
        intros (_ & _ & _ & [(? & _)|(_ & ? & [= <-] & ? & _)]); [done|lia]. }
      destruct (Z.eq_dec rate 0) as [->|Hr]; [naive_solver lia|].
      destruct (slot_duration_exact n rate) as [-> ?]; [lia..|]. simpl.
      rewrite bind_unit_iff, guard_err_iff, negb_false_iff. unfold before. rewrite Z.ltb_lt. simpl. split.
      * intros (? & _ & _ & _ & [= <- <-]). split_and!; [done|lia|done|]. right. split; [done|]. exists n. split_and!; [done|lia..|done].
      * intros (? & ? & -> & [(? & _)|(_ & ? & [= <-] & ? & ->)]); [done|]. split_and!; [done|done|done|lia|done].
Qed.

(** ** Instances *)

Definition minute (m : Z) : Time := mk_time (m * Minute) true.

Definition ex_gap (id : string) (start end_ : Z) : RunwayGap := mk_rgap id (minute start) (minute end_) "works" (minute 1) "fmp".

Definition ex_groups : list RunwayGroupPolicy :=
  [mk_group "04L" true false [] None 30 None [] None [] [ex_gap "g0" 5 6] [] [];
   mk_group "22L" true true [mk_selection (minute 1) 7 "fmp_command"] None 30 None [] None []
     [ex_gap "g1" 10 20; ex_gap "g2" 30 40; ex_gap "g3" 42 50] [] []].

(** A gap that touches the first one of its group and overlaps the second. *)
Definition ex_merge : RunwayGapMergeInput :=
  mk_merge_input "22L" "c9" (mk_interval (minute 20) (minute 32)) "snow" (minute 2) "twr".

Definition ex_merged : RunwayGapMergeResult :=
  mk_merged
    [mk_group "04L" true false [] None 30 None [] None [] [ex_gap "g0" 5 6] [] [];
     mk_group "22L" true true [mk_selection (minute 1) 7 "fmp_command"] None 30 None [] None []
       [mk_rgap "c9" (minute 10) (minute 40) "snow" (minute 2) "twr"; ex_gap "g3" 42 50] [] []]
    (mk_rgap "c9" (minute 10) (minute 40) "snow" (minute 2) "twr") ["g1"; "g2"]%string.

Lemma ex_merge_ok : MergeRunwayGap ex_groups ex_merge = Ok ex_merged.
Proof. vm_compute. reflexivity. Qed.

Lemma MergeRunwayGap_correct_witness :
  MergeRunwayGap ex_groups ex_merge = Ok ex_merged ∧
  ∃ pre group post gaps kept replaced,
    ex_groups = pre ++ group :: post ∧ rg_ID group = mi_RunwayGroupID ex_merge ∧
    mr_RunwayGroups ex_merged = pre ++ set_Gaps gaps group :: post ∧
    covered gaps ≡ covered (rg_Gaps group) ∪ span (new_gap ex_merge) ∧
    same_gap_identity (mr_Union ex_merged) (new_gap ex_merge) ∧
    rg_Gaps group ≡ₚ kept ++ replaced ∧ gaps ≡ₚ mr_Union ex_merged :: kept ∧ mr_ReplacedIDs ex_merged = gp_ID <$> replaced ∧
    Forall (disjoint_gaps (mr_Union ex_merged)) kept ∧
    span (mr_Union ex_merged) ≡ span (new_gap ex_merge) ∪ covered replaced.
Proof.
  split; [exact ex_merge_ok|]. destruct (MergeRunwayGap_correct ex_groups ex_merge) as [_ H]. exact (H ex_merged ex_merge_ok).
Defined.

Lemma MergeRunwayGap_valid_witness :
  validate_groups ex_groups = Ok tt ∧ validate_groups (mr_RunwayGroups ex_merged) = Ok tt.
Proof.
  assert (Hv : validate_groups ex_groups = Ok tt) by (vm_compute; reflexivity).
  split; [exact Hv|]. exact (MergeRunwayGap_valid ex_groups ex_merge ex_merged Hv ex_merge_ok).
Defined.

(** Three slots at 36 arrivals an hour are five minutes. *)
Lemma NormalizeRunwayGapInterval_correct_witness :
  returns (NormalizeRunwayGapInterval (mk_gap_input (minute 20) None (Some 3)) 36) ∧
  NormalizeRunwayGapInterval (mk_gap_input (minute 20) None (Some 3)) 36 = Ok (mk_interval (minute 20) (minute 25)).
Proof.
  destruct (NormalizeRunwayGapInterval_correct (mk_gap_input (minute 20) None (Some 3)) 36) as [Hr Hi].
  - by vm_compute.
  - intros n [= <-]. by vm_compute.
  - split; [exact Hr|]. apply Hi. split_and!; [by vm_compute|done|reflexivity|]. right. split; [reflexivity|].
    exists 3. split_and!; [reflexivity|lia|done|reflexivity].
Defined.
