(* ===== verification/RunwayClosures.v ===== *)
(** * Closures and reservations placed behind an aircraft

    [internal/aman/runway_closure_normalization.go], and the accepting part of
    [CreateCapacityReservation] ([operational/capacity_reservation_commands.go]).
    A closure or a reservation may start "after" an aircraft: at the first grid
    opportunity behind its slot that no gap withdraws. That search is shown to be
    the engine's own grid search started one nanosecond later, step by step. *)

From S2P Require Import Prelude GoTime SequenceData DomainValues SequenceGrid RunwayCapacity.

Local Open Scope Z_scope.

(** ** Data *)

(** The fields of an aircraft that these commands read. *)
Record AnchorFlight := mk_anchor {
  an_Callsign : string;
  an_SelectedRunwayGroup : option string;
  an_Slot : option Slot
}.

Record CapacityState := mk_cstate {
  cs_Revision : Z;
  cs_Flights : list AnchorFlight;
  cs_RunwayGroups : list RunwayGroupPolicy
}.

Record RunwayClosureIntervalInput := mk_closure_input {
  ki_RunwayGroupID : string;
  ki_Start : option Time;
  ki_AfterCallsign : option string;
  ki_End : option Time
}.

Record RunwayClosureInterval := mk_cinterval { ci_start : Time; ci_end : option Time }.

(** ** The next opportunity *)

(** [rates] of the group, or its active rate. *)
Definition closure_rates (group : RunwayGroupPolicy) : list RatePoint :=
  match rg_RateSchedule group, rg_RateEffectiveAt group with
  | [], Some at_ => if 0 <? rg_ActiveRatePerHour group then [mk_rate at_ (rg_ActiveRatePerHour group)] else []
  | rates, _ => rates
  end.

Definition opportunity_overflow : error :=
  invalid_argument "runway closure next opportunity exceeds the supported range".

(** The first cell of one rate strictly after an instant. *)
Definition closure_cell (rate : RatePoint) (after_ : Time) : outcome Time :=
  let candidate := rp_EffectiveAt rate in
  if before after_ candidate then Ok candidate
  else
    let interval := rateInterval (rp_ArrivalsPerHour rate) in
    let delta := time_sub after_ candidate in
    let steps := dur_add (dur_div delta interval) 1 in
    _ ← guard_err (dur_div max_int64 interval <? steps) opportunity_overflow;
    let candidate := time_add candidate (dur_mul steps interval) in
    _ ← guard_err (negb (after candidate after_)) opportunity_overflow;
    Ok candidate.

(** The loop over the rates, up to the candidate it takes. *)
Fixpoint closure_candidate (rates : list RatePoint) (after_ : Time) : outcome Time :=
  match rates with
  | [] => Err (invalid_argument "runway closure runway has no later grid opportunity")
  | rate :: rest =>
      _ ← guard_err ((rp_ArrivalsPerHour rate =? 0) || negb (is_utc (rp_EffectiveAt rate)) || is_zero (rp_EffectiveAt rate))
            (invalid_argument "runway closure runway grid is invalid");
      let passed t := match rest with next :: _ => negb (before t (rp_EffectiveAt next)) | [] => false end in
      if passed after_ then closure_candidate rest after_
      else
        candidate ← closure_cell rate after_;
        if passed candidate then closure_candidate rest after_ else Ok candidate
  end.

(** The loop over the gaps from the index found on. *)
Fixpoint closure_gap (gaps : list RunwayGap) (candidate : Time) : option RunwayGap :=
  match gaps with
  | [] => None
  | gap :: rest =>
      if before candidate (gp_Start gap) then None
      else if before candidate (gp_End gap) then Some gap
      else closure_gap rest candidate
  end.

(** One call: [inl] is the recursive call, [inr] the opportunity. *)
Definition closure_step (group : RunwayGroupPolicy) (after_ : Time) : outcome (Time + Time) :=
  candidate ← closure_candidate (closure_rates group) after_;
  let index := sort_search_list (λ g, after (gp_End g) candidate) (rg_Gaps group) in
  match closure_gap (drop index (rg_Gaps group)) candidate with
  | Some gap => Ok (inl (time_add (gp_End gap) (- Nanosecond)))
  | None => Ok (inr candidate)
  end.

(** Every call but the last passes a gap. *)
Definition nextClosureOpportunity (group : RunwayGroupPolicy) (after_ : Time) : outcome Time :=
  iterate (Pos.of_succ_nat (S (length (rg_Gaps group)))) (closure_step group) after_.

(** ** Normalising a closure *)

Definition closureRunwayGroup (groups : list RunwayGroupPolicy) (id : string) : outcome RunwayGroupPolicy :=
  match list_find (λ g, rg_ID g = id) groups with
  | Some (_, group) => Ok group
  | None => Err (invalid_argument "runway closure runway group does not exist")
  end.

Definition closureAnchorFlight (flights : list AnchorFlight) (id : string) : outcome AnchorFlight :=
  _ ← guard_err (negb (isTrimmedNonEmpty id)) (invalid_argument "runway closure anchor aircraft is required");
  match list_find (λ f, an_Callsign f = id) flights with
  | Some (_, flight) => Ok flight
  | None => Err (invalid_argument "runway closure anchor aircraft does not exist")
  end.

Definition closure_anchor_start (state : CapacityState) (group : RunwayGroupPolicy) (id callsign : string)
  : outcome Time :=
  flight ← closureAnchorFlight (cs_Flights state) callsign;
  match an_SelectedRunwayGroup flight, an_Slot flight with
  | Some selected, Some slot =>
      _ ← guard_err (negb (str_eqb selected id) || negb (str_eqb (sl_RunwayGroupID slot) id))
            (invalid_argument "runway closure anchor belongs to another runway group");
      _ ← guard_err (negb (sl_Revision slot =? cs_Revision state)) (invalid_argument "runway closure anchor slot is stale");
      _ ← requireUTCTime "runway closure anchor slot" (sl_Time slot);
      nextClosureOpportunity group (sl_Time slot)
  | _, _ => Err (invalid_argument "runway closure anchor is not assigned")
  end.

Definition NormalizeRunwayClosureInterval (input : RunwayClosureIntervalInput) (state : CapacityState)
  : outcome RunwayClosureInterval :=
  let id := ki_RunwayGroupID input in
  _ ← guard_err (negb (isTrimmedNonEmpty id)) (invalid_argument "runway closure runway group is required");
  _ ← guard_err (Bool.eqb (is_nil (ki_Start input)) (is_nil (ki_AfterCallsign input)))
        (invalid_argument "runway closure requires exactly one absolute or after-aircraft start");
  group ← closureRunwayGroup (cs_RunwayGroups state) id;
  start ← match ki_Start input with
          | Some start => _ ← requireUTCTime "runway closure start" start; Ok start
          | None => callsign ← deref (ki_AfterCallsign input); closure_anchor_start state group id callsign
          end;
  _ ← match ki_End input with
      | None => Ok tt
      | Some e =>
          _ ← requireUTCTime "runway closure end" e;
          guard_err (negb (before start e)) (invalid_argument "runway closure start must be before end")
      end;
  Ok (mk_cinterval start (ki_End input)).

(** ** Reserving an opportunity behind an aircraft *)

Record CapacityReservationCommand := mk_reserve {
  rv_CommandID : string;
  rv_RunwayGroupID : string;
  rv_AfterCallsign : string;
  rv_Label : string;
  rv_ReceivedAt : Time;
  rv_Actor : string
}.

Definition rateOpportunityDuration (rate : Z) : Duration := u64 (Hour + rate - 1) / rate.

Definition set_Reservations (l : list RunwayCapacityReservation) (g : RunwayGroupPolicy) : RunwayGroupPolicy :=
  set_capacity (rg_Gaps g) l g.

Definition reservation_less (a b : RunwayCapacityReservation) : bool :=
  if negb (time_eqb (cr_Start a) (cr_Start b)) then before (cr_Start a) (cr_Start b) else str_ltb (cr_ID a) (cr_ID b).

Definition unavailable (message : string) : error := DomainError ErrorInvalidTransition message [].

(** Some capacity is already withdrawn in the interval. *)
Definition reserved_in (reservations : list RunwayCapacityReservation) (start end_ : Time) : bool :=
  existsb (λ r, before start (cr_End r) && before (cr_Start r) end_) reservations.
Definition gap_in (gaps : list RunwayGap) (start end_ : Time) : bool :=
  existsb (λ g, before start (gp_End g) && before (gp_Start g) end_) gaps.
Definition closed_in (closures : list RunwayClosure) (start end_ : Time) : bool :=
  existsb (λ c, match cl_End c with None => true | Some e => before start e end && before (cl_Start c) end_) closures.

Definition reserve_opportunity (command : CapacityReservationCommand) (state : CapacityState)
  : outcome CapacityState :=
  match list_find (λ g, rg_ID g = rv_RunwayGroupID command) (cs_RunwayGroups state) with
  | None => Err (DomainError ErrorNotFound "AMAN runway group was not found" [])
  | Some (index, group) =>
      interval ← NormalizeRunwayClosureInterval
                   (mk_closure_input (rv_RunwayGroupID command) None (Some (rv_AfterCallsign command)) None) state;
      _ ← guard_err (rg_ActiveRatePerHour group =? 0) (unavailable "capacity reservation requires an active runway rate");
      let start := ci_start interval in
      let end_ := time_add start (rateOpportunityDuration (rg_ActiveRatePerHour group)) in
      _ ← guard_err (reserved_in (rg_CapacityReservations group) start end_)
            (unavailable "runway opportunity is already reserved");
      _ ← guard_err (gap_in (rg_Gaps group) start end_) (unavailable "runway opportunity is unavailable");
      _ ← guard_err (closed_in (rg_Closures group) start end_) (unavailable "runway opportunity is unavailable");
      reservation ← NewRunwayCapacityReservation (rv_CommandID command) start end_ (rv_Label command)
                      (rv_ReceivedAt command) (rv_Actor command);
      let reservations := sort_slice reservation_less (rg_CapacityReservations group ++ [reservation]) in
      Ok (mk_cstate (cs_Revision state) (cs_Flights state)
            (alter (set_Reservations reservations) index (cs_RunwayGroups state)))
  end.

(** ** The engine's grid for the same capacity *)

Definition engine_gap (g : RunwayGap) : Gap := mk_gap (gp_Start g) (gp_End g).

(** The policy the engine would prepare of the group's rates and gaps alone. *)
Definition opportunity_policy (group : RunwayGroupPolicy) : preparedPolicy :=
  mk_ppolicy (mk_policy (rg_ID group) false false (closure_rates group) (engine_gap <$> rg_Gaps group) [] 0 [] 0
                (mk_spacing false 0 0))
    (closure_rates group) ∅ ∅ 0 (mk_pfamilies ∅ false) [] ∅.

Definition next_instant (t : Time) : Time := time_add t Nanosecond.

Lemma steps_agree delta I :
  0 ≤ delta → delta + 1 ≤ grid_span → 1 ≤ I ≤ Hour →
  let steps := dur_add (dur_div delta I) 1 in
  let engine := if dur_rem (delta + 1) I =? 0 then dur_div (delta + 1) I else dur_add (dur_div (delta + 1) I) 1 in
  steps = engine ∧ steps ≤ dur_div max_int64 I ∧ dur_mul steps I = steps * I ∧ delta < steps * I.
Proof.
  intros Hd Hd1 HI steps engine. pose proof (ceil_steps (delta + 1) I ltac:(lia) HI) as (He0 & Hem & He).
  cbv zeta in He0, Hem, He. fold engine in He0, Hem, He.
  assert (Hdiv : dur_div delta I = delta / I).
  { unfold dur_div. rewrite Z.quot_div_nonneg by lia. apply wrap64_id. unfold in_int64, grid_span, Hour, Minute, Second in *.
    split; [|apply Z.div_lt_upper_bound; nia]. transitivity 0; [lia|apply Z.div_pos; lia]. }
  assert (Hsteps : steps = delta / I + 1).
  { unfold steps, dur_add. rewrite Hdiv. apply wrap64_id. unfold in_int64, grid_span, Hour, Minute, Second in *.
    assert (0 ≤ delta / I ≤ delta) by (split; [apply Z.div_pos; lia|apply Z.div_le_upper_bound; nia]). lia. }
  pose proof (Z.div_mod delta I ltac:(lia)). pose proof (Z.mod_pos_bound delta I ltac:(lia)).
  assert (Heq : steps = engine) by nia. rewrite Heq. split_and!; [done| |done|lia].
  unfold dur_div. rewrite Z.quot_div_nonneg by (unfold max_int64; lia).
  assert (Hmax : engine * I ≤ max_int64) by (unfold max_int64, grid_span in *; lia).
  rewrite wrap64_id; [by apply Z.div_le_lower_bound; [lia|rewrite Z.mul_comm]|].
  unfold in_int64, max_int64. split; [transitivity 0; [lia|apply Z.div_pos; lia]|apply Z.div_lt_upper_bound; nia].
Qed.

(** A rate point the loop accepts. *)
Definition usable_rate (r : RatePoint) : Prop := 0 < rp_ArrivalsPerHour r < 2^32 ∧ valid_time (rp_EffectiveAt r).

(** The cell the engine takes of one rate. *)
Definition engine_cell (r : RatePoint) (target : Time) : Time :=
  if before target (rp_EffectiveAt r) then rp_EffectiveAt r
  else
    let interval := rateInterval (rp_ArrivalsPerHour r) in
    let delta := time_sub target (rp_EffectiveAt r) in
    let steps := dur_div delta interval in
    let steps := if dur_rem delta interval =? 0 then steps else dur_add steps 1 in
    time_add (rp_EffectiveAt r) (dur_mul steps interval).

Lemma engine_cell_start r t : usable_rate r → ns t = ns (rp_EffectiveAt r) → engine_cell r t = rp_EffectiveAt r.
Proof.
  intros [Hr _] Heq. pose proof (rateInterval_bounds _ Hr) as HI. unfold engine_cell. destruct (before t _); [done|].
  assert (Hd : time_sub t (rp_EffectiveAt r) = 0) by (unfold time_sub; rewrite Heq, Z.sub_diag; done).
  cbv zeta. rewrite Hd. unfold dur_rem, dur_div. rewrite Z.rem_0_l, Z.quot_0_l by lia. cbn [Z.eqb].
  change (wrap64 0) with 0. unfold time_add, dur_mul. rewrite Z.mul_0_l. change (wrap64 0) with 0. rewrite Z.add_0_r.
  by destruct (rp_EffectiveAt r).
Qed.

Lemma closure_cell_engine r after_ :
  usable_rate r → ns after_ + 1 ≤ ns (rp_EffectiveAt r) + grid_span →
  closure_cell r after_ = Ok (engine_cell r (next_instant after_)) ∧ ns after_ < ns (engine_cell r (next_instant after_)) ∧
  (before after_ (rp_EffectiveAt r) = true → engine_cell r (next_instant after_) = rp_EffectiveAt r).
Proof.
  intros Hu Hs. unfold closure_cell. destruct (before after_ (rp_EffectiveAt r)) eqn:Eb.
  - assert (He : engine_cell r (next_instant after_) = rp_EffectiveAt r).
    { destruct (before (next_instant after_) (rp_EffectiveAt r)) eqn:Eb'; [unfold engine_cell; by rewrite Eb'|].
      apply engine_cell_start; [done|]. unfold next_instant, Nanosecond in *. time_lia. }
    rewrite He. split_and!; [done|time_lia|done].
  - destruct Hu as [Hr _]. pose proof (rateInterval_bounds _ Hr) as HI. unfold engine_cell.
    set (I := rateInterval _) in *. set (delta := ns after_ - ns (rp_EffectiveAt r)).
    assert (Hge : 0 ≤ delta) by (unfold delta; time_lia).
    assert (Hspan : delta + 1 ≤ grid_span) by (unfold delta; lia).
    assert (Hd0 : time_sub after_ (rp_EffectiveAt r) = delta).
    { unfold time_sub. apply sat64_id. unfold in_int64, grid_span, Hour, Minute, Second in *. lia. }
    assert (Hd1 : time_sub (next_instant after_) (rp_EffectiveAt r) = delta + 1).
    { unfold time_sub, next_instant, Nanosecond, delta. simpl. rewrite sat64_id; [lia|].
      unfold in_int64, grid_span, Hour, Minute, Second in *. lia. }
    assert (Hb : before (next_instant after_) (rp_EffectiveAt r) = false).
    { unfold before. apply Z.ltb_ge. unfold next_instant, Nanosecond. simpl. lia. }
    destruct (steps_agree delta I) as (Hse & Hsl & Hsm & Hsd); [lia|lia|done|]. cbv zeta in *.
    rewrite Hd0, Hd1, Hb, <-Hse. destruct (Z.ltb_spec (dur_div max_int64 I) (dur_add (dur_div delta I) 1)) as [Hbad|_]; [lia|].
    cbn [guard_err mbind outcome_bind]. set (c := time_add (rp_EffectiveAt r) _).
    assert (Hlt : ns after_ < ns c) by (unfold c; simpl; rewrite Hsm; unfold delta in *; lia).
    assert (Hafter : after c after_ = true) by (unfold after; apply Z.ltb_lt; lia).
    rewrite Hafter. by split_and!.
Qed.

Lemma next_rate_grid_cons r next l t :
  ns (rp_EffectiveAt r) < ns (rp_EffectiveAt next) →
  next_rate_grid (r :: next :: l) t =
    if negb (before t (rp_EffectiveAt next)) then next_rate_grid (next :: l) t
    else if before (engine_cell r t) (rp_EffectiveAt next) then Some (engine_cell r t) else next_rate_grid (next :: l) t.
Proof.
  intros Hlt. unfold engine_cell. cbn [next_rate_grid]. destruct (negb (before t (rp_EffectiveAt next))); [done|].
  destruct (before t (rp_EffectiveAt r)); [|done]. unfold before.
  by destruct (Z.ltb_spec (ns (rp_EffectiveAt r)) (ns (rp_EffectiveAt next))); [|lia].
Qed.

Lemma next_rate_grid_one r t : next_rate_grid [r] t = Some (engine_cell r t).
Proof. unfold engine_cell. cbn [next_rate_grid]. by destruct (before t (rp_EffectiveAt r)). Qed.

(** The loop over the rates, for rates it accepts. *)
Lemma closure_candidate_cons r rest t :
  usable_rate r →
  closure_candidate (r :: rest) t =
    let passed u := match rest with next :: _ => negb (before u (rp_EffectiveAt next)) | [] => false end in
    if passed t then closure_candidate rest t
    else c ← closure_cell r t; if passed c then closure_candidate rest t else Ok c.
Proof. intros [Hr [Hz Hutc]]. cbn [closure_candidate]. destruct (Z.eqb_spec (rp_ArrivalsPerHour r) 0); [lia|]. by rewrite Hutc, Hz. Qed.

(** The loop over the rates finds the engine's next cell. *)
Lemma closure_candidate_engine rates after_ :
  rates ≠ [] → chain (λ a b, ns (rp_EffectiveAt a) < ns (rp_EffectiveAt b)) rates → Forall usable_rate rates →
  Forall (λ r, ns after_ + 1 ≤ ns (rp_EffectiveAt r) + grid_span) rates →
  ∃ c, closure_candidate rates after_ = Ok c ∧ next_rate_grid rates (next_instant after_) = Some c ∧ ns after_ < ns c.
Proof.
  induction rates as [|r rest IH]; [done|]. intros _ Hc Hu Hs.
  apply Forall_cons in Hu as [Hr Hu]. apply Forall_cons in Hs as [Hs Hspan].
  destruct (closure_cell_engine r after_ Hr Hs) as (Hcell & Hlt & Hfirst).
  rewrite closure_candidate_cons by done. rewrite Hcell. cbn [mbind outcome_bind]. set (c := engine_cell r (next_instant after_)) in *.
  destruct rest as [|next l]; [exists c; by rewrite next_rate_grid_one|].
  destruct Hc as [Hnext Hc]. destruct IH as (c' & H1 & H2 & H3); [done|done|done|done|].
  rewrite next_rate_grid_cons by done. fold c. rewrite H1, H2. cbv zeta. unfold before.
  assert (Hn : ns (next_instant after_) = ns after_ + 1) by done. rewrite Hn.
  assert (Hc0 : ns (rp_EffectiveAt r) ≤ ns after_ ∨ c = rp_EffectiveAt r).
  { destruct (before after_ (rp_EffectiveAt r)) eqn:E; [by right; apply Hfirst|left; time_lia]. }
  destruct (Z.ltb_spec (ns after_) (ns (rp_EffectiveAt next))), (Z.ltb_spec (ns after_ + 1) (ns (rp_EffectiveAt next))),
    (Z.ltb_spec (ns c) (ns (rp_EffectiveAt next))); cbn [negb]; try lia; eauto.
Qed.

(** *** The loop over the gaps *)

Lemma closure_gap_engine gaps p c :
  grid_wf p → po_Gaps p = engine_gap <$> gaps →
  engine_gap <$> closure_gap (drop (sort_search_list (λ g, after (gp_End g) c) gaps) gaps) c = blockingGap p c.
Proof.
  intros Hwf Hg.
  assert (Hmono : chain (λ a b, after (gp_End a) c = true → after (gp_End b) c = true) gaps).
  { apply chain_lookup. intros i a b Ha Hb.
    destruct (gaps_ordered p i (S i) (engine_gap a) (engine_gap b) Hwf) as [? ?]; [lia|by rewrite Hg, list_lookup_fmap, ?Ha, ?Hb..|].
    simpl in *. time_lia. }
  pose proof (sort_search_list_spec _ _ Hmono) as (_ & _ & Hhi).
  unfold blockingGap. rewrite Hg, (sort_search_list_fmap _ (λ g, after (gp_End g) c)) by done.
  set (k := sort_search_list _ gaps) in *. rewrite list_lookup_fmap.
  assert (Hk : gaps !! k = head (drop k gaps)) by (by rewrite head_lookup, lookup_drop, Nat.add_0_r). rewrite Hk.
  destruct (drop k gaps) as [|g l]; [done|]. apply Forall_cons in Hhi as [Hend _]. cbn [closure_gap lookup list_lookup fmap option_fmap option_map].
  unfold after, before in *. simpl. rewrite Hend, andb_true_r. by destruct (ns c <? ns (gp_Start g)).
Qed.

(** *** The whole search *)

Section opportunity.
Context (group : RunwayGroupPolicy).
Let p := opportunity_policy group.
Hypothesis Hwf : grid_wf p.
Hypothesis Hutc : Forall (λ r, valid_time (rp_EffectiveAt r)) (closure_rates group).

Lemma closure_rates_usable : Forall usable_rate (closure_rates group).
Proof using Hwf Hutc. apply Forall_and. split; [apply (gw_rates _ Hwf)|exact Hutc]. Qed.

Lemma horizon_rates t : in_horizon p t → Forall (λ r, ns t ≤ ns (rp_EffectiveAt r) + grid_span) (closure_rates group).
Proof using Hwf.
  intros Ht. destruct (grid_nonempty _ Hwf) as [r0 H0]. apply Forall_lookup. intros i r Hr.
  pose proof (head_first p i r r0 Hwf H0 Hr). specialize (Ht r0 H0). lia.
Qed.

Lemma closure_step_engine a :
  in_horizon p (next_instant a) →
  next_step p (next_instant a) =
    (r ← closure_step group a; Ok (match r with inl a' => inl (next_instant a') | inr c => inr (Some c) end)).
Proof using Hwf Hutc.
  intros Ha. destruct (closure_candidate_engine (closure_rates group) a) as (c & Hc & Hn & _);
    [apply (gw_nonempty _ Hwf)|apply (gw_sorted _ Hwf)|apply closure_rates_usable|by apply (horizon_rates (next_instant a))|].
  unfold closure_step, next_step, next_point, nextRateGridAtOrAfter. rewrite Hc.
  change (po_ContinuousSpacing p) with false. change (pp_rates p) with (closure_rates group). rewrite Hn.
  cbn [mbind outcome_bind]. change (blockingClosure p c) with (@None (option Time)). cbv iota.
  rewrite <-(closure_gap_engine (rg_Gaps group) p c Hwf eq_refl).
  destruct (closure_gap _ c) as [g|]; [|done]. cbn [fmap option_fmap option_map mbind outcome_bind].
  unfold next_instant, time_add, Nanosecond. simpl. rewrite <-Z.add_assoc. simpl. rewrite Z.add_0_r. by destruct (gp_End g).
Qed.

Lemma closure_step_ok a : in_horizon p (next_instant a) → ∃ r, closure_step group a = Ok r.
Proof using Hwf Hutc.
  intros Ha. destruct (closure_candidate_engine (closure_rates group) a) as (c & Hc & _);
    [apply (gw_nonempty _ Hwf)|apply (gw_sorted _ Hwf)|apply closure_rates_usable|by apply (horizon_rates (next_instant a))|].
  unfold closure_step. rewrite Hc. cbn [mbind outcome_bind]. destruct (closure_gap _ c); by eexists.
Qed.

(** The search is the engine's search from the next instant on. *)
Lemma nextClosureOpportunity_engine a :
  grid_horizon p → in_horizon p (next_instant a) →
  nextGridAtOrAfter p (next_instant a) = (c ← nextClosureOpportunity group a; Ok (Some c)).
Proof using Hwf Hutc.
  intros Hh Ha. unfold nextGridAtOrAfter, nextClosureOpportunity.
  assert (Hfuel : grid_fuel p = Pos.of_succ_nat (S (length (rg_Gaps group)))).
  { unfold grid_fuel. simpl. by rewrite length_fmap, Nat.add_0_r. }
  rewrite Hfuel. apply (iterate_simulation (closure_step group) (next_step p) next_instant Some (λ a, in_horizon p (next_instant a)));
    [|by intros; apply closure_step_engine|done].
  intros s s' Hs E. apply in_ends_horizon; [done|]. apply (next_step_end p (next_instant s)). by rewrite closure_step_engine, E.
Qed.
End opportunity.

(** The group's capacity can be searched: it has rates, all valid, and its gaps
    and rates are those of a valid state, within the range of exact arithmetic. *)
Record searchable (group : RunwayGroupPolicy) : Prop := {
  se_nonempty : closure_rates group ≠ [];
  se_typed : Forall (λ r, in_uint32 (rp_ArrivalsPerHour r)) (closure_rates group);
  se_rates : validate_group_rates group = Ok tt;
  se_gaps : gaps_ok (rg_Gaps group);
  se_horizon : grid_horizon (opportunity_policy group)
}.

Lemma validate_rates_iff previous rates :
  validate_rates previous rates = Ok tt ↔
    Forall (λ r, rp_ArrivalsPerHour r ≠ 0 ∧ valid_time (rp_EffectiveAt r)) rates ∧
    (∀ p r, previous = Some p → head rates = Some r → ns (rp_EffectiveAt p) < ns (rp_EffectiveAt r)) ∧
    chain (λ a b, ns (rp_EffectiveAt a) < ns (rp_EffectiveAt b)) rates.
Proof.
  revert previous. induction rates as [|r l IH]; intros previous; [done|]. cbn [validate_rates].
  rewrite !bind_unit_iff, !guard_err_iff, requireUTCTime_iff, Z.eqb_neq, IH, Forall_cons, chain_cons.
  assert (Hp : opt_test (λ q, negb (after (rp_EffectiveAt r) (rp_EffectiveAt q))) previous = false ↔
    ∀ p x, previous = Some p → head (r :: l) = Some x → ns (rp_EffectiveAt p) < ns (rp_EffectiveAt x)).
  { destruct previous as [q|]; simpl; [|naive_solver]. rewrite negb_false_iff. unfold after. rewrite Z.ltb_lt. naive_solver. }
  rewrite Hp. split.
  - intros (? & ? & ? & ? & Ho & ?). split_and!; try done. intros b Hb. by apply (Ho r b).
  - intros ([[? ?] ?] & ? & ? & Ho). split_and!; try done. intros q b [= <-] Hb. by apply Ho.
Qed.

Lemma searchable_wf (group : RunwayGroupPolicy) :
  searchable group → grid_wf (opportunity_policy group) ∧ Forall (λ r, valid_time (rp_EffectiveAt r)) (closure_rates group).
Proof.
  intros [Hn Ht Hr [Hv Hg] _].
  assert (Hrates : chain (λ a b, ns (rp_EffectiveAt a) < ns (rp_EffectiveAt b)) (closure_rates group) ∧
    Forall (λ r, rp_ArrivalsPerHour r ≠ 0 ∧ valid_time (rp_EffectiveAt r)) (closure_rates group)).
  { unfold validate_group_rates in Hr. rewrite !bind_unit_iff in Hr. destruct Hr as (Hactive & (H1 & _ & H2)%validate_rates_iff & _).
    unfold closure_rates. destruct (rg_RateSchedule group); [|done]. destruct (rg_RateEffectiveAt group) as [at_|]; [|done].
    destruct (Z.ltb_spec 0 (rg_ActiveRatePerHour group)); [|done]. rewrite bind_unit_iff, requireUTCTime_iff in Hactive.
    split; [done|]. constructor; [|done]. simpl. split; [lia|]. by destruct Hactive. }
  destruct Hrates as [Hc Hpos]. split; [|by eapply Forall_impl; [exact Hpos|]; intros ? []]. split; simpl; try done.
  - apply Forall_forall. intros r Hin. rewrite Forall_forall in Hpos, Ht. specialize (Hpos r Hin). specialize (Ht r Hin).
    unfold in_uint32 in Ht. lia.
  - apply chain_fmap. exact Hg.
  - apply Forall_fmap. eapply Forall_impl; [exact Hv|]. intros g (_ & _ & Hlt)%RunwayGap_Validate_iff. exact Hlt.
Qed.

Lemma nextClosureOpportunity_ok (group : RunwayGroupPolicy) a :
  searchable group → in_horizon (opportunity_policy group) (next_instant a) →
  ∃ c, nextClosureOpportunity group a = Ok c ∧ nextGridAtOrAfter (opportunity_policy group) (next_instant a) = Ok (Some c).
Proof.
  intros Hs Ha. destruct (searchable_wf _ Hs) as [Hwf Hutc]. pose proof (se_horizon _ Hs) as Hh. set (p := opportunity_policy group) in *.
  pose proof (nextClosureOpportunity_engine group Hwf Hutc a Hh Ha) as He. fold p in He.
  assert (Hr : returns (nextClosureOpportunity group a)).
  { pose proof (next_grid_returns p (next_instant a) Hwf Hh) as Hr. rewrite He in Hr. by destruct (nextClosureOpportunity group a). }
  assert (Hok : ∃ c, nextClosureOpportunity group a = Ok c).
  { apply (iterate_ok (closure_step group) (λ a, in_horizon p (next_instant a))); [|by intros; apply closure_step_ok|done|exact Hr].
    intros s s' Hin E. apply (in_ends_horizon p _ Hh), (next_step_end p (next_instant s)). unfold p. by rewrite closure_step_engine, E. }
  destruct Hok as [c Hc]. exists c. by rewrite He, Hc.
Qed.

Lemma opportunity_least (group : RunwayGroupPolicy) a c :
  searchable group → in_horizon (opportunity_policy group) (next_instant a) →
  nextGridAtOrAfter (opportunity_policy group) (next_instant a) = Ok (Some c) →
  ns a < ns c ∧
  least_from (λ t, grid_point (opportunity_policy group) t ∧ ¬ blocked (opportunity_policy group) t) (next_instant a) c.
Proof.
  intros Hs Ha Hn. destruct (searchable_wf _ Hs) as [Hwf _].
  pose proof (next_grid_correct _ _ _ Hwf (se_horizon _ Hs) Ha Hn) as Hl. split; [|done].
  destruct Hl as (_ & Hle & _). simpl in Hle. unfold Nanosecond in Hle. lia.
Qed.

(** C38: The opportunity behind an aircraft is the engine's: for a valid group
    whose times are within range the search always ends, with the same instant
    as the engine's grid search from the next nanosecond on, the earliest grid
    point after the aircraft that no gap withdraws. *)
Theorem nextClosureOpportunity_correct (group : RunwayGroupPolicy) after_ :
  searchable group → in_horizon (opportunity_policy group) (next_instant after_) →
  ∃ c, nextClosureOpportunity group after_ = Ok c ∧
    nextGridAtOrAfter (opportunity_policy group) (next_instant after_) = Ok (Some c) ∧ ns after_ < ns c ∧
    least_from (λ t, grid_point (opportunity_policy group) t ∧ ¬ blocked (opportunity_policy group) t) (next_instant after_) c.
Proof.
  intros Hs Ha. destruct (nextClosureOpportunity_ok group after_ Hs Ha) as (c & Hc & Hn). exists c.
  split; [done|split; [done|by apply opportunity_least]].
Qed.

(** *** What the normalisation accepts *)

Lemma closureRunwayGroup_ok (groups : list RunwayGroupPolicy) id group :
  closureRunwayGroup groups id = Ok group → group ∈ groups ∧ rg_ID group = id.
Proof.
  unfold closureRunwayGroup. destruct (list_find _ _) as [[j g]|] eqn:E; [|done]. intros [= <-].
  apply list_find_Some in E as (Hg & Hid & _). split; [by apply list_elem_of_lookup_2 in Hg|done].
Qed.

(** The anchor is assigned to the group in the current revision. *)
Definition anchored (state : CapacityState) (id callsign : string) (slot : Slot) : Prop :=
  ∃ f, f ∈ cs_Flights state ∧ an_Callsign f = callsign ∧ an_SelectedRunwayGroup f = Some id ∧ an_Slot f = Some slot ∧
    sl_RunwayGroupID slot = id ∧ sl_Revision slot = cs_Revision state.

Lemma closure_anchor_start_ok (state : CapacityState) group id callsign t :
  closure_anchor_start state group id callsign = Ok t →
  ∃ slot, anchored state id callsign slot ∧ nextClosureOpportunity group (sl_Time slot) = Ok t.
Proof.
  unfold closure_anchor_start, closureAnchorFlight. intros (f & Hf & E)%bind_ok. apply bind_unit_iff in Hf as [_ Hf].
  destruct (list_find _ _) as [[j f']|] eqn:El; [|done]. injection Hf as ->.
  apply list_find_Some in El as (Hf & Hcs & _). apply list_elem_of_lookup_2 in Hf.
  destruct (an_SelectedRunwayGroup f) as [sel|] eqn:Esel; [|done]. destruct (an_Slot f) as [slot|] eqn:Eslot; [|done].
  rewrite !bind_unit_iff, !guard_err_iff, orb_false_iff, !negb_false_iff, !str_eqb_eq, Z.eqb_eq in E.
  destruct E as ([-> Hid] & Hrev & _ & E). exists slot. split; [|done]. by exists f.
Qed.

Lemma NormalizeRunwayClosureInterval_ok input (state : CapacityState) i :
  NormalizeRunwayClosureInterval input state = Ok i →
  ∃ group, closureRunwayGroup (cs_RunwayGroups state) (ki_RunwayGroupID input) = Ok group ∧
    (∀ callsign, ki_AfterCallsign input = Some callsign →
       closure_anchor_start state group (ki_RunwayGroupID input) callsign = Ok (ci_start i)) ∧
    ci_end i = ki_End input ∧ ∀ e, ci_end i = Some e → valid_time e ∧ ns (ci_start i) < ns e.
Proof.
  unfold NormalizeRunwayClosureInterval. cbv zeta. rewrite !bind_unit_iff, !guard_err_iff.
  intros (_ & Hform & (group & Hg & (start & Hst & E)%bind_ok)%bind_ok). apply bind_unit_iff in E as [He [= <-]].
  exists group. cbn [ci_start ci_end]. split_and!; [done| |done|].
  - intros callsign Ha. rewrite Ha in Hst, Hform. destruct (ki_Start input); [done|exact Hst].
  - intros e Hend. rewrite Hend, bind_unit_iff, requireUTCTime_iff, guard_err_iff, negb_false_iff in He. unfold before in He.
    rewrite Z.ltb_lt in He. done.
Qed.

(** A closure given to start behind an aircraft starts at the first
    opportunity after the aircraft's slot, which is on this runway group and of
    the current revision; the end it was given, if any, is after that start. *)
Theorem NormalizeRunwayClosureInterval_after input (state : CapacityState) callsign i :
  Forall searchable (cs_RunwayGroups state) → ki_AfterCallsign input = Some callsign →
  NormalizeRunwayClosureInterval input state = Ok i →
  ∃ group slot, group ∈ cs_RunwayGroups state ∧ rg_ID group = ki_RunwayGroupID input ∧
    anchored state (rg_ID group) callsign slot ∧
    (in_horizon (opportunity_policy group) (next_instant (sl_Time slot)) →
       ns (sl_Time slot) < ns (ci_start i) ∧
       least_from (λ t, grid_point (opportunity_policy group) t ∧ ¬ blocked (opportunity_policy group) t)
         (next_instant (sl_Time slot)) (ci_start i)) ∧
    ci_end i = ki_End input ∧ ∀ e, ci_end i = Some e → valid_time e ∧ ns (ci_start i) < ns e.
Proof.
  intros Hs Ha (group & [Hg Hid]%closureRunwayGroup_ok & Hst & Hend)%NormalizeRunwayClosureInterval_ok.
  destruct (closure_anchor_start_ok _ _ _ _ _ (Hst _ Ha)) as (slot & Hanchor & Hc).
  exists group, slot. split_and!; [done|done|by rewrite Hid| |apply Hend..].
  intros Hin. rewrite Forall_forall in Hs. specialize (Hs group Hg).
  destruct (nextClosureOpportunity_ok _ _ Hs Hin) as (c & Hc' & Hn). rewrite Hc in Hc'. injection Hc' as ->.
  by apply opportunity_least.
Qed.

(** ** Reservations *)

Definition separate_reservations (a b : RunwayCapacityReservation) : Prop :=
  ns (cr_End a) ≤ ns (cr_Start b) ∨ ns (cr_End b) ≤ ns (cr_Start a).

(** A valid state whose reservations do not overlap within a group. *)
Definition capacity_ok (groups : list RunwayGroupPolicy) : Prop :=
  validate_groups groups = Ok tt ∧ Forall (λ g, pairwise separate_reservations (rg_CapacityReservations g)) groups.

Lemma reservation_less_asym a b : reservation_less a b = true → reservation_less b a = false.
Proof.
  unfold reservation_less, time_eqb, before. intros H. repeat case_match; zbool; try done; try lia. by apply str_ltb_asym.
Qed.

Lemma runwayCapacityReservationLess_before a b : ns (cr_Start a) < ns (cr_Start b) → runwayCapacityReservationLess a b = true.
Proof. unfold runwayCapacityReservationLess, time_eqb, before. intros H. case_match; zbool; [done|lia]. Qed.

Lemma reservation_Validate_span r : RunwayCapacityReservation_Validate r = Ok tt → ns (cr_Start r) < ns (cr_End r).
Proof.
  unfold RunwayCapacityReservation_Validate. rewrite !bind_unit_iff, !guard_err_iff, negb_false_iff. unfold before.
  rewrite Z.ltb_lt. by intros (_ & _ & _ & _ & _ & ? & _).
Qed.

Lemma sorted_reservations_ok l :
  Forall (λ r, RunwayCapacityReservation_Validate r = Ok tt) l → pairwise separate_reservations l →
  reservations_ok (sort_slice reservation_less l).
Proof.
  intros Hv Hp. pose proof (sort_slice_perm reservation_less l) as Hperm. symmetry in Hperm.
  rewrite Hperm in Hv. apply (pairwise_perm _ _ _ Hperm) in Hp. split; [done|].
  pose proof (sort_slice_adj reservation_less l reservation_less_asym) as Hc.
  apply chain_lookup. intros i a b Ha Hb. rewrite chain_lookup in Hc. specialize (Hc i a b Ha Hb). simpl in *.
  apply runwayCapacityReservationLess_before. rewrite Forall_lookup in Hv.
  pose proof (reservation_Validate_span _ (Hv _ _ Ha)). pose proof (reservation_Validate_span _ (Hv _ _ Hb)).
  destruct (Hp i (S i) a b) as [?|Hba]; [lia|done..|lia|].
  assert (Hlt : ns (cr_Start b) < ns (cr_Start a)) by lia.
  unfold reservation_less, time_eqb, before in Hc. case_match; zbool; lia.
Qed.

Lemma overlap_disjoint {A} `{Span A} (a : RunwayCapacityReservation) (l : list A) :
  (∀ x, x ∈ l → ns (cr_End a) ≤ ns (span_start x) ∨ ns (span_end x) ≤ ns (cr_Start a)) → span a ## covered l.
Proof. intros Hl t Ht (x & Hx & Hs). apply elem_of_span in Ht, Hs. simpl in Ht. destruct (Hl x Hx); lia. Qed.

(** The conflicts the command looks for, as disjointness. *)
Lemma reserve_apart group_reservations gaps closures start end_ r :
  cr_Start r = start → cr_End r = end_ →
  reserved_in group_reservations start end_ = false → gap_in gaps start end_ = false → closed_in closures start end_ = false →
  (∀ x, x ∈ group_reservations → separate_reservations r x ∧ separate_reservations x r) ∧ span r ## covered gaps ∧
  ∀ c t, c ∈ closures → t ∈ span r → ¬ (ns (cl_Start c) ≤ t ∧ match cl_End c with Some e => t < ns e | None => True end).
Proof.
  intros <- <- Hr Hg Hc. unfold reserved_in, gap_in, closed_in in *. rewrite existsb_exists_false in Hr. rewrite existsb_exists_false in Hg. rewrite existsb_exists_false in Hc. split_and!.
  - intros x Hx. specialize (Hr x Hx). unfold before, separate_reservations in *. simpl in Hr. zbool. lia.
  - apply overlap_disjoint. intros x Hx. specialize (Hg x Hx). unfold before in *. simpl in *. zbool. lia.
  - intros c t Hin Ht%elem_of_span. specialize (Hc c Hin). simpl in *. unfold before in *. destruct (cl_End c); zbool; lia.
Qed.

Lemma reserve_opportunity_ok command (state state' : CapacityState) :
  reserve_opportunity command state = Ok state' →
  ∃ pre group post r, cs_RunwayGroups state = pre ++ group :: post ∧ rg_ID group = rv_RunwayGroupID command ∧
    state' = mk_cstate (cs_Revision state) (cs_Flights state)
      (pre ++ set_Reservations (sort_slice reservation_less (rg_CapacityReservations group ++ [r])) group :: post) ∧
    RunwayCapacityReservation_Validate r = Ok tt ∧ cr_ID r = rv_CommandID command ∧
    cr_End r = time_add (cr_Start r) (rateInterval (rg_ActiveRatePerHour group)) ∧
    reserved_in (rg_CapacityReservations group) (cr_Start r) (cr_End r) = false ∧
    gap_in (rg_Gaps group) (cr_Start r) (cr_End r) = false ∧ closed_in (rg_Closures group) (cr_Start r) (cr_End r) = false ∧
    ∃ slot, anchored state (rg_ID group) (rv_AfterCallsign command) slot ∧ nextClosureOpportunity group (sl_Time slot) = Ok (cr_Start r).
Proof.
  unfold reserve_opportunity. destruct (list_find _ _) as [[index group]|] eqn:El; [|done].
  intros (i & Hi & E)%bind_ok. rewrite !bind_unit_iff, !guard_err_iff in E. destruct E as (_ & Hres & Hgap & Hcl & (r & Hr & [= <-])%bind_ok).
  unfold NewRunwayCapacityReservation in Hr. apply bind_unit_iff in Hr as [Hv [= <-]].
  destruct (NormalizeRunwayClosureInterval_ok _ _ _ Hi) as (group' & Hg' & Hst & _).
  specialize (Hst _ eq_refl). simpl in Hst, Hg'. unfold closureRunwayGroup in Hg'. rewrite El in Hg'. injection Hg' as <-.
  apply list_find_Some in El as (Hg & Hid & _). destruct (closure_anchor_start_ok _ _ _ _ _ Hst) as (slot & Ha & Hn).
  rewrite <-(take_drop_middle _ _ _ Hg). assert (Hlen : length (take index (cs_RunwayGroups state)) = index).
  { rewrite length_take. apply lookup_lt_Some in Hg. lia. }
  eexists (take index _), group, (drop (S index) _), _. split_and!; [done|done| |exact Hv|done|done|done|done|done|].
  - f_equal. rewrite take_drop_middle by done. rewrite <-(take_drop_middle _ _ _ Hg) at 1. rewrite <-Hlen at 1. rewrite alter_app_r_alt by lia.
    by rewrite Hlen, Nat.sub_diag.
  - exists slot. by rewrite Hid.
Qed.

(** A capacity reservation accepted behind an aircraft takes one rate
    interval from the opportunity after the aircraft's slot, overlaps no
    reservation, gap or closure of its group, and changes nothing else; under a
    new command identity the state stays valid and its reservations apart. *)
Theorem reserve_opportunity_correct command (state state' : CapacityState) :
  capacity_ok (cs_RunwayGroups state) →
  rv_CommandID command ∉ (cs_RunwayGroups state ≫= reservation_ids) →
  reserve_opportunity command state = Ok state' →
  capacity_ok (cs_RunwayGroups state') ∧
  ∃ pre group post r reservations,
    cs_RunwayGroups state = pre ++ group :: post ∧ rg_ID group = rv_RunwayGroupID command ∧
    state' = mk_cstate (cs_Revision state) (cs_Flights state) (pre ++ set_Reservations reservations group :: post) ∧
    reservations ≡ₚ r :: rg_CapacityReservations group ∧ cr_ID r = rv_CommandID command ∧
    cr_End r = time_add (cr_Start r) (rateInterval (rg_ActiveRatePerHour group)) ∧
    span r ## covered (rg_CapacityReservations group) ∧ span r ## covered (rg_Gaps group) ∧
    (∀ c t, c ∈ rg_Closures group → t ∈ span r →
       ¬ (ns (cl_Start c) ≤ t ∧ match cl_End c with Some e => t < ns e | None => True end)) ∧
    ∃ slot, anchored state (rg_ID group) (rv_AfterCallsign command) slot ∧
      nextClosureOpportunity group (sl_Time slot) = Ok (cr_Start r).
Proof.
  intros [Hvalid Hpair] Hnew (pre & group & post & r & Hgs & Hid & -> & Hv & Hrid & Hend & Hres & Hgap & Hcl & Hslot)%reserve_opportunity_ok.
  destruct (reserve_apart _ _ _ _ _ r eq_refl eq_refl Hres Hgap Hcl) as (Hsep & Hdg & Hdc). cbn [cs_RunwayGroups].
  set (old := rg_CapacityReservations group) in *. set (l := sort_slice reservation_less (old ++ [r])).
  assert (Hl : l ≡ₚ r :: old) by (unfold l; rewrite sort_slice_perm; apply Permutation_app_comm).
  rewrite Hgs in Hvalid, Hpair, Hnew. apply Forall_app in Hpair as [Hp1 [Hp2 Hp3]%Forall_cons].
  assert (Hp : pairwise separate_reservations (r :: old)) by by apply pairwise_cons.
  split; [|exists pre, group, post, r, l; split_and!; try done; apply overlap_disjoint; intros x Hx; by apply Hsep].
  split; [|apply Forall_app; split; [done|constructor; [|done]]; simpl; by eapply pairwise_perm; [symmetry; exact Hl|]].
  apply validate_groups_iff in Hvalid as (Hok & Hids & Hgaps & Hcls & Hrs). apply validate_groups_iff.
  apply Forall_app in Hok as [Hok1 [Hok2 Hok3]%Forall_cons]. rewrite !bind_app, !bind_cons in *.
  split; [|split; [by apply (groups_replaced _ group)|split_and!]].
  - apply Forall_app. split; [done|]. constructor; [|done]. destruct Hok2 as [(? & (? & ? & ?) & ? & [Hrv _]) ?].
    split; [|done]. split_and!; [done..|]. apply sorted_reservations_ok.
    + apply Forall_app. split; [done|by constructor].
    + eapply pairwise_perm; [|exact Hp]. by rewrite Permutation_app_comm.
  - done.
  - done.
  - assert (Hri : reservation_ids (set_Reservations l group) ≡ₚ rv_CommandID command :: reservation_ids group).
    { unfold reservation_ids. simpl. by rewrite Hl, fmap_cons, Hrid. }
    rewrite Hri, <-app_comm_cons, <-Permutation_middle. by constructor.
Qed.

(** ** Instances *)

Definition ex_runway : RunwayGroupPolicy :=
  mk_group "22L" true true [] None 30 None [mk_rate (minute 1) 30] None [] [ex_gap "g1" 11 20; ex_gap "g2" 30 40]
    [mk_closure "k1" (minute 50) None "snow" (minute 1) "ctl"] [].

(** The next cell after the slot at minute 9 is minute 11, where a gap begins;
    the first one behind the gap is minute 21. *)
Definition ex_capacity : CapacityState :=
  mk_cstate 7 [mk_anchor "SAS1" (Some "22L"%string) (Some (mk_slot (minute 9) "22L" 1 7 ReasonStable))] [ex_runway].

Definition ex_reserve : CapacityReservationCommand := mk_reserve "c5" "22L" "SAS1" "" (minute 2) "twr".

Definition ex_reservation : RunwayCapacityReservation := mk_reservation "c5" (minute 21) (minute 23) "FLIGHT" (minute 2) "twr".

Definition ex_reserved : CapacityState :=
  mk_cstate 7 (cs_Flights ex_capacity) [set_Reservations [ex_reservation] ex_runway].

Lemma ex_searchable : searchable ex_runway.
Proof.
  split; [done|by repeat constructor|vm_compute; reflexivity| |].
  - apply (validate_gaps_iff ∅ _ (list_to_set ["g1"; "g2"]%string ∪ ∅)). vm_compute. reflexivity.
  - split; repeat constructor; intros r [= <-]; vm_compute; discriminate.
Qed.

Lemma ex_anchor_horizon : in_horizon (opportunity_policy ex_runway) (next_instant (minute 9)).
Proof. intros r [= <-]. vm_compute. discriminate. Qed.

Lemma nextClosureOpportunity_correct_witness :
  nextClosureOpportunity ex_runway (minute 9) = Ok (minute 21) ∧
  ∃ c, nextClosureOpportunity ex_runway (minute 9) = Ok c ∧
    nextGridAtOrAfter (opportunity_policy ex_runway) (next_instant (minute 9)) = Ok (Some c) ∧ ns (minute 9) < ns c ∧
    least_from (λ t, grid_point (opportunity_policy ex_runway) t ∧ ¬ blocked (opportunity_policy ex_runway) t)
      (next_instant (minute 9)) c.
Proof.
  split; [vm_compute; reflexivity|]. exact (nextClosureOpportunity_correct ex_runway (minute 9) ex_searchable ex_anchor_horizon).
Defined.

Definition ex_closure_input : RunwayClosureIntervalInput := mk_closure_input "22L" None (Some "SAS1"%string) (Some (minute 60)).

Lemma NormalizeRunwayClosureInterval_after_witness :
  NormalizeRunwayClosureInterval ex_closure_input ex_capacity = Ok (mk_cinterval (minute 21) (Some (minute 60))) ∧
  ∃ group slot, group ∈ cs_RunwayGroups ex_capacity ∧ rg_ID group = "22L"%string ∧ anchored ex_capacity (rg_ID group) "SAS1" slot ∧
    (in_horizon (opportunity_policy group) (next_instant (sl_Time slot)) →
       ns (sl_Time slot) < ns (minute 21) ∧
       least_from (λ t, grid_point (opportunity_policy group) t ∧ ¬ blocked (opportunity_policy group) t)
         (next_instant (sl_Time slot)) (minute 21)) ∧
    Some (minute 60) = Some (minute 60) ∧ ∀ e, Some (minute 60) = Some e → valid_time e ∧ ns (minute 21) < ns e.
Proof.
  assert (E : NormalizeRunwayClosureInterval ex_closure_input ex_capacity = Ok (mk_cinterval (minute 21) (Some (minute 60))))
    by (vm_compute; reflexivity).
  split; [exact E|]. apply (NormalizeRunwayClosureInterval_after ex_closure_input ex_capacity "SAS1" _ (proj2 (Forall_singleton _ _) ex_searchable) eq_refl E).
Defined.

Lemma ex_capacity_ok : capacity_ok (cs_RunwayGroups ex_capacity).
Proof. split; [vm_compute; reflexivity|]. constructor; [|done]. by intros [|i] j a b. Qed.

Lemma reserve_opportunity_correct_witness :
  reserve_opportunity ex_reserve ex_capacity = Ok ex_reserved ∧ capacity_ok (cs_RunwayGroups ex_reserved).
Proof.
  assert (E : reserve_opportunity ex_reserve ex_capacity = Ok ex_reserved) by (vm_compute; reflexivity).
  split; [exact E|]. refine (proj1 (reserve_opportunity_correct ex_reserve ex_capacity ex_reserved ex_capacity_ok _ E)).
  apply (bool_decide_unpack ("c5"%string ∉ (cs_RunwayGroups ex_capacity ≫= reservation_ids))). vm_compute. exact I.
Defined.
