(* ===== verification/ReleasePlanner.v ===== *)
(** * Approach release planning

    [internal/aman/release/planner.go] and [internal/aman/release_types.go].
    Aircraft in a hold are offered a release time; a stream is a hold, a STAR
    family or a feeder fix, and two aircraft that share one are released with
    the spacing of the stream's rate period and of their wake categories. The
    planner revalidates the accepted reservations, counts the buffer in front
    of the runway, and hands out new releases in sweeps over the stream heads
    until a sweep brings nothing. [reservations] is the code's map from
    callsigns to reservations; a change through one of its pointers is an
    update of the map, since the planner clones what it reads. *)

From S2P Require Import Prelude GoTime SequenceData DomainValues SequenceGrid SequenceSpacing.

Local Open Scope Z_scope.

(** ** Data *)

Record ApproachReleasePolicy := mk_release_policy {
  ap_Enabled : bool;
  ap_TargetBuffer : Z;
  ap_TaperStart : Z;
  ap_MaxAdvanceSeconds : Z;
  ap_LookaheadSeconds : Z
}.

Record ApproachReleaseReservation := mk_release {
  ar_Episode : string;
  ar_HoldingID : string;
  ar_STARFamily : string;
  ar_FeederFix : string;
  ar_RunwayGroupID : string;
  ar_HoldingEntryAt : Time;
  ar_ReleaseAt : Time;
  ar_ReleasedAt : option Time;
  ar_Transit : Duration;
  ar_AdditionalApproachTime : Duration;
  ar_RouteDigest : string;
  ar_PolicyVersion : string
}.

Record ReleaseBufferSummary := mk_buffer {
  rb_BlockedReasons : list string;
  rb_Status : string;
  rb_Target : Z;
  rb_InApproach : Z;
  rb_Reserved : Z;
  rb_Incoming : Z;
  rb_Unknown : Z
}.

Record StreamSpacing := mk_stream_spacing {
  st_EffectiveAt : Time;
  st_Minimum : Duration;
  st_Busy : Duration
}.

Record Traffic := mk_traffic {
  tf_ReservationOrderAt : Time;
  tf_Spacing : list StreamSpacing;
  tf_NewHoldingEpisode : bool;
  tf_WakeCategory : string;
  tf_Callsign : string;
  tf_Active : bool;
  tf_Eligible : bool;
  tf_InApproach : bool;
  tf_Incoming : bool;
  tf_Unknown : bool;
  tf_Released : bool;
  tf_Episode : string;
  tf_HoldingID : string;
  tf_STARFamily : string;
  tf_FeederFix : string;
  tf_RouteDigest : string;
  tf_RunwayGroupID : string;
  tf_EntryAt : Time;
  tf_ReadyAt : Time;
  tf_BaselineReleaseAt : Time;
  tf_SlotAt : Time;
  tf_Transit : Duration;
  tf_MinimumSpacing : Duration;
  tf_BusySpacing : Duration;
  tf_Reservation : option ApproachReleaseReservation
}.

Record ReleaseInput := mk_release_input {
  pi_WorkloadUnknown : bool;
  pi_BlockedReason : string;
  pi_At : Time;
  pi_Policy : option ApproachReleasePolicy;
  pi_Traffic : list Traffic
}.

Record ReleaseDecision := mk_release_decision {
  rd_Callsign : string;
  rd_Reservation : option ApproachReleaseReservation
}.

Record ReleaseResult := mk_release_result {
  rr_Buffer : ReleaseBufferSummary;
  rr_Decisions : list ReleaseDecision
}.

Definition PolicyVersion : string := "aman-approach-release-v1".

Definition eta_traffic (f : Traffic) : Traffic :=
  mk_traffic (tf_ReservationOrderAt f) (tf_Spacing f) (tf_NewHoldingEpisode f) (tf_WakeCategory f) (tf_Callsign f)
    (tf_Active f) (tf_Eligible f) (tf_InApproach f) (tf_Incoming f) (tf_Unknown f) (tf_Released f) (tf_Episode f)
    (tf_HoldingID f) (tf_STARFamily f) (tf_FeederFix f) (tf_RouteDigest f) (tf_RunwayGroupID f) (tf_EntryAt f)
    (tf_ReadyAt f) (tf_BaselineReleaseAt f) (tf_SlotAt f) (tf_Transit f) (tf_MinimumSpacing f) (tf_BusySpacing f)
    (tf_Reservation f).

Definition set_Spacing (v : list StreamSpacing) (f : Traffic) : Traffic :=
  ltac:(record_set eta_traffic tf_Spacing v f).

Definition eta_release (r : ApproachReleaseReservation) : ApproachReleaseReservation :=
  mk_release (ar_Episode r) (ar_HoldingID r) (ar_STARFamily r) (ar_FeederFix r) (ar_RunwayGroupID r)
    (ar_HoldingEntryAt r) (ar_ReleaseAt r) (ar_ReleasedAt r) (ar_Transit r) (ar_AdditionalApproachTime r)
    (ar_RouteDigest r) (ar_PolicyVersion r).

Definition set_ReleasedAt (v : option Time) (r : ApproachReleaseReservation) : ApproachReleaseReservation :=
  ltac:(record_set eta_release ar_ReleasedAt v r).
Definition set_ReleaseAt (v : Time) (r : ApproachReleaseReservation) : ApproachReleaseReservation :=
  ltac:(record_set eta_release ar_ReleaseAt v r).
Definition set_HoldingEntryAt (v : Time) (r : ApproachReleaseReservation) : ApproachReleaseReservation :=
  ltac:(record_set eta_release ar_HoldingEntryAt v r).
Definition set_AdditionalApproachTime (v : Duration) (r : ApproachReleaseReservation) : ApproachReleaseReservation :=
  ltac:(record_set eta_release ar_AdditionalApproachTime v r).

(** Adds to the four counters. *)
Definition count (inApproach reserved incoming unknown : Z) (b : ReleaseBufferSummary) : ReleaseBufferSummary :=
  mk_buffer (rb_BlockedReasons b) (rb_Status b) (rb_Target b) (rb_InApproach b + inApproach) (rb_Reserved b + reserved)
    (rb_Incoming b + incoming) (rb_Unknown b + unknown).

Definition set_Status (status : string) (b : ReleaseBufferSummary) : ReleaseBufferSummary :=
  mk_buffer (rb_BlockedReasons b) status (rb_Target b) (rb_InApproach b) (rb_Reserved b) (rb_Incoming b) (rb_Unknown b).

Definition set_BlockedReasons (reasons : list string) (b : ReleaseBufferSummary) : ReleaseBufferSummary :=
  mk_buffer reasons (rb_Status b) (rb_Target b) (rb_InApproach b) (rb_Reserved b) (rb_Incoming b) (rb_Unknown b).

Definition Projected (b : ReleaseBufferSummary) : Z := rb_InApproach b + rb_Reserved b + rb_Incoming b.

(** ** Validation of the types *)

Definition ApproachReleasePolicy_Validate (p : ApproachReleasePolicy) : outcome unit :=
  _ ← guard_err ((ap_TargetBuffer p <=? 0) || (ap_TaperStart p <=? 0) || (ap_TargetBuffer p <=? ap_TaperStart p) ||
                 (ap_MaxAdvanceSeconds p <=? 0) || (ap_LookaheadSeconds p <=? 0))
        (invalid_argument "approach release policy requires positive settings and taper start below target");
  guard_err ((24 * Hour / Second <? ap_MaxAdvanceSeconds p) || (Hour / Second <? ap_LookaheadSeconds p))
    (invalid_argument "approach release policy durations are out of range").

Definition ApproachReleaseReservation_Validate (r : ApproachReleaseReservation) : outcome unit :=
  _ ← guard_err (str_empty (ar_Episode r) || str_empty (ar_HoldingID r) || str_empty (ar_STARFamily r) ||
                 str_empty (ar_FeederFix r) || str_empty (ar_RunwayGroupID r) || (ar_Transit r <=? 0) ||
                 (ar_AdditionalApproachTime r <? 0) || str_empty (ar_RouteDigest r) || str_empty (ar_PolicyVersion r))
        (invalid_argument "approach release reservation is incomplete");
  _ ← requireUTCTime "approach reservation release" (ar_ReleaseAt r);
  _ ← if is_zero (ar_HoldingEntryAt r) then Ok tt
      else
        _ ← requireUTCTime "reservation holding entry" (ar_HoldingEntryAt r);
        guard_err (negb (after (ar_ReleaseAt r) (ar_HoldingEntryAt r)))
          (invalid_argument "reservation release precedes holding entry");
  match ar_ReleasedAt r with
  | None => Ok tt
  | Some released =>
      _ ← guard_err (before released (ar_ReleaseAt r)) (invalid_argument "observed release precedes its accepted target");
      requireUTCTime "observed approach release" released
  end.

Definition ReleaseBufferSummary_Validate (b : ReleaseBufferSummary) : outcome unit :=
  _ ← guard_err (negb (str_eqb (rb_Status b) "ready") && negb (str_eqb (rb_Status b) "degraded") &&
                 negb (str_eqb (rb_Status b) "disabled")) (invalid_argument "release buffer status is invalid");
  guard_err ((rb_Target b <=? 0) || (rb_InApproach b <? 0) || (rb_Reserved b <? 0) || (rb_Incoming b <? 0) ||
             (rb_Unknown b <? 0)) (invalid_argument "release buffer counts are invalid").

(** ** Spacing within a stream *)

Definition Allowance (policy : ApproachReleasePolicy) (n : Z) : Duration :=
  if ap_TargetBuffer policy <=? n then 0
  else
    let seconds := ap_MaxAdvanceSeconds policy in
    let seconds :=
      if ap_TaperStart policy <? n
      then dur_div (dur_mul seconds (ap_TargetBuffer policy - n)) (ap_TargetBuffer policy - ap_TaperStart policy)
      else seconds in
    dur_mul seconds Second.

Definition shared (a b : string) : bool := negb (str_empty a) && str_eqb a b.

Definition sharedStream (a b : Traffic) : bool :=
  shared (tf_HoldingID a) (tf_HoldingID b) || shared (tf_STARFamily a) (tf_STARFamily b) ||
  shared (tf_FeederFix a) (tf_FeederFix b).

Definition wakeSpacing (leading trailing : string) : Duration :=
  match list_find (λ rule, sr_Leading rule = leading ∧ sr_Trailing rule = trailing) CPHSeparationRules with
  | Some (_, rule) => sr_Minimum rule
  | None => 3 * Minute
  end.

Fixpoint spacing_at (minimum busy : Duration) (points : list StreamSpacing) (at_ : Time) : Duration * Duration * Time :=
  match points with
  | [] => (minimum, busy, zero_time)
  | point :: rest =>
      if after (st_EffectiveAt point) at_ then (minimum, busy, st_EffectiveAt point)
      else spacing_at (st_Minimum point) (st_Busy point) rest at_
  end.

Definition streamSpacingAt (flight : Traffic) (at_ : Time) : Duration * Duration * Time :=
  spacing_at (tf_MinimumSpacing flight) (tf_BusySpacing flight) (tf_Spacing flight) at_.

Definition ceilReleaseTime (at_ : Time) : Time :=
  let rounded := truncate at_ Second in
  if before rounded at_ then time_add rounded Second else rounded.

Abbreviation reservations := (gmap string ApproachReleaseReservation).

(** When the leading aircraft leaves the hold. *)
Definition leadingAt (r : ApproachReleaseReservation) : Time :=
  match ar_ReleasedAt r with
  | Some released => if after released (ar_ReleaseAt r) then released else ar_ReleaseAt r
  | None => ar_ReleaseAt r
  end.

(** The spacing [flight] keeps behind [other] in a rate period. *)
Definition pair_spacing (minimum extra : Duration) (busy : bool) (flight other : Traffic) : Duration :=
  let spacing := Z.max minimum (wakeSpacing (tf_WakeCategory other) (tf_WakeCategory flight)) in
  let spacing := if busy then Z.max spacing extra else spacing in
  if str_eqb (tf_HoldingID flight) (tf_HoldingID other) then Z.max spacing Minute else spacing.

(** The reservation [flight] is spaced behind, if any. *)
Definition leader (flight : Traffic) (rs : reservations) (other : Traffic) : option ApproachReleaseReservation :=
  if str_eqb (tf_Callsign other) (tf_Callsign flight) || negb (sharedStream other flight) then None
  else rs !! tf_Callsign other.

Definition boundary_step (minimum extra : Duration) (busy : bool) (flight : Traffic) (rs : reservations)
    (candidate : Time) (other : Traffic) : Time :=
  match leader flight rs other with
  | Some r => later_of candidate (time_add (leadingAt r) (pair_spacing minimum extra busy flight other))
  | None => candidate
  end.

Definition streamReleaseBoundary (at_ : Time) (flight : Traffic) (traffic : list Traffic) (rs : reservations)
    (busy : bool) : Time * Time :=
  let '(minimum, extra, next) := streamSpacingAt flight at_ in
  (foldl (boundary_step minimum extra busy flight rs) at_ traffic, next).

Definition release_step (flight : Traffic) (traffic : list Traffic) (rs : reservations) (busy : bool) (at_ : Time)
  : outcome (Time + Time) :=
  let '(candidate, next) := streamReleaseBoundary at_ flight traffic rs busy in
  let candidate := ceilReleaseTime candidate in
  if negb (is_zero next) && negb (before candidate next) then Ok (inl (ceilReleaseTime next)) else Ok (inr candidate).

(** Every repetition passes a spacing point. *)
Definition earliestStreamRelease (start : Time) (flight : Traffic) (traffic : list Traffic) (rs : reservations)
    (busy : bool) : outcome Time :=
  iterate (Pos.of_succ_nat (length (tf_Spacing flight))) (release_step flight traffic rs busy) (ceilReleaseTime start).

Definition releasePredecessors (callsign : string) (traffic : list Traffic) (rs : reservations) : list Traffic :=
  match rs !! callsign with
  | None => traffic
  | Some self =>
      filter (λ f, opt_test (λ r, negb (after (ar_ReleaseAt r) (ar_ReleaseAt self))) (rs !! tf_Callsign f) = true) traffic
  end.

(** ** Revalidation of the accepted reservations *)

Definition order_at (f : Traffic) (r : ApproachReleaseReservation) : Time :=
  if negb (is_zero (tf_ReservationOrderAt f)) then tf_ReservationOrderAt f else ar_ReleaseAt r.

Definition reservation_order (rs : reservations) (f g : Traffic) : bool :=
  match rs !! tf_Callsign f, rs !! tf_Callsign g with
  | Some a, Some b =>
      let x := order_at f a in let y := order_at g b in
      if negb (time_eqb x y) then before x y else str_ltb (tf_Callsign f) (tf_Callsign g)
  | Some _, None => true
  | None, _ => false
  end.

(** A due or observed release cannot be moved. *)
Definition irrevocable (now : Time) (r : ApproachReleaseReservation) : bool :=
  not_nil (ar_ReleasedAt r) || negb (after (ar_ReleaseAt r) now).

Record revalidation := mk_revalidation {
  rv_preceding : list Traffic;
  rv_reservations : reservations;
  rv_reason : string
}.

(** The first instant a future offer may keep. *)
Definition offer_start (flight : Traffic) (at_ : Time) : Time :=
  let start := if after (tf_ReadyAt flight) at_ then tf_ReadyAt flight else at_ in
  if negb (after start (tf_EntryAt flight)) then time_add (tf_EntryAt flight) Second else start.

Definition timing_known (flight : Traffic) : bool :=
  negb (tf_Unknown flight) && (0 <? tf_Transit flight) && negb (is_zero (tf_EntryAt flight)) &&
  negb (is_zero (tf_ReadyAt flight)).

(** A future offer moved to [at_]. *)
Definition repaired (flight : Traffic) (at_ : Time) (r : ApproachReleaseReservation) : ApproachReleaseReservation :=
  let r := set_HoldingEntryAt (tf_EntryAt flight) (set_ReleaseAt at_ r) in
  if is_zero (tf_BaselineReleaseAt flight) then r
  else set_AdditionalApproachTime (Z.max 0 (time_sub (tf_BaselineReleaseAt flight) at_)) r.

Definition revalidate_step (now : Time) (s : revalidation) (flight : Traffic) : outcome revalidation :=
  let rs := rv_reservations s in
  match rs !! tf_Callsign flight with
  | None => Ok s
  | Some r =>
      let preceding := rv_preceding s ++ [flight] in
      if irrevocable now r then
        let entryAt := leadingAt r in
        let boundary := (streamReleaseBoundary entryAt flight (rv_preceding s) rs false).1 in
        Ok (mk_revalidation preceding rs
              (if after boundary entryAt then "approach_release_spacing_conflict"%string else rv_reason s))
      else if timing_known flight then
        at_ ← earliestStreamRelease (offer_start flight (ar_ReleaseAt r)) flight (rv_preceding s) rs false;
        let late := negb (is_zero (tf_BaselineReleaseAt flight)) && after at_ (ar_ReleaseAt r) &&
                    after at_ (tf_BaselineReleaseAt flight) in
        Ok (mk_revalidation preceding (<[tf_Callsign flight := repaired flight at_ r]> rs)
              (if late then "approach_release_timing_conflict"%string else rv_reason s))
      else Ok (mk_revalidation preceding rs (rv_reason s))
  end.

Definition revalidateReservations (now : Time) (traffic : list Traffic) (rs : reservations) : outcome revalidation :=
  fold_outcome (revalidate_step now) (mk_revalidation [] rs "") (sort_slice (reservation_order rs) traffic).

(** ** Planning *)

(** The accepted reservation a flight starts with. *)
Definition accepted (now : Time) (flight : Traffic) : option ApproachReleaseReservation :=
  match tf_Reservation flight with
  | None => None
  | Some r =>
      if tf_NewHoldingEpisode flight && negb (str_eqb (tf_Episode flight) (ar_Episode r)) then None
      else if tf_Released flight && is_nil (ar_ReleasedAt r) then Some (set_ReleasedAt (Some now) r)
      else Some r
  end.

Definition accept (now : Time) (rs : reservations) (flight : Traffic) : reservations :=
  if negb (tf_Active flight) then rs
  else match accepted now flight with Some r => <[tf_Callsign flight := r]> rs | None => rs end.

Definition countedReservation (horizon : Time) (r : option ApproachReleaseReservation) : bool :=
  opt_test (λ r, not_nil (ar_ReleasedAt r) || negb (after (ar_ReleaseAt r) horizon)) r.

Definition count_flight (horizon : Time) (rs : reservations) (b : ReleaseBufferSummary) (flight : Traffic)
  : ReleaseBufferSummary :=
  if negb (tf_Active flight) then b
  else
    let r := rs !! tf_Callsign flight in
    let b := if tf_Unknown flight then count 0 0 0 1 b else b in
    if tf_InApproach flight || opt_test (λ r, not_nil (ar_ReleasedAt r)) r then count 1 0 0 0 b
    else if countedReservation horizon r then count 0 1 0 0 b
    else if tf_Incoming flight then count 0 0 1 0 b
    else b.

(** A flight that may be offered a release, or an earlier one. *)
Definition candidate (now : Time) (rs : reservations) (considered : gset string) (flight : Traffic) : bool :=
  tf_Active flight && tf_Eligible flight && negb (tf_InApproach flight) &&
  negb (bool_decide (tf_Callsign flight ∈ considered)) &&
  negb (opt_test (λ r, negb (after (ar_ReleaseAt r) now)) (rs !! tf_Callsign flight)).

(** [older] waits in front of [flight] and has no release yet. *)
Definition pending_before (rs : reservations) (flight older : Traffic) : bool :=
  negb (str_eqb (tf_Callsign older) (tf_Callsign flight)) && tf_Active older && sharedStream older flight &&
  before (tf_EntryAt older) (tf_EntryAt flight) && is_nil (rs !! tf_Callsign older) &&
  (tf_Eligible older || negb (is_zero (tf_EntryAt older))).

Definition sweep_step (now : Time) (traffic : list Traffic) (rs : reservations) (considered : gset string)
    (sweep : list Traffic) (flight : Traffic) : list Traffic :=
  if candidate now rs considered flight && negb (existsb (pending_before rs flight) traffic) &&
     negb (existsb (λ chosen, sharedStream chosen flight) sweep)
  then sweep ++ [flight] else sweep.

(** The stream heads of one sweep. *)
Definition stream_heads (now : Time) (traffic : list Traffic) (rs : reservations) (considered : gset string) : list Traffic :=
  foldl (sweep_step now traffic rs considered) [] traffic.

Record planning := mk_planning {
  pl_reservations : reservations;
  pl_buffer : ReleaseBufferSummary;
  pl_considered : gset string;
  pl_progressed : bool
}.

Definition facts_complete (flight : Traffic) : bool :=
  negb ((tf_Transit flight <=? 0) || str_empty (tf_Episode flight) || str_empty (tf_HoldingID flight) ||
        str_empty (tf_STARFamily flight) || str_empty (tf_FeederFix flight) || str_empty (tf_RouteDigest flight) ||
        str_empty (tf_RunwayGroupID flight) || is_zero (tf_EntryAt flight) || is_zero (tf_BaselineReleaseAt flight)).

(** The number of aircraft in front of the runway once [flight] is released. *)
Definition projected_count (horizon : Time) (b : ReleaseBufferSummary) (existing : option ApproachReleaseReservation)
    (flight : Traffic) : Z :=
  let n := Projected b + 1 in
  let n := if countedReservation horizon existing then n - 1 else n in
  if tf_Incoming flight && negb (countedReservation horizon existing) then n - 1 else n.

(** The earliest release the allowance permits, before the stream's spacing. *)
Definition advance_start (policy : ApproachReleasePolicy) (now : Time) (n : Z) (flight : Traffic) : Time :=
  let at_ := time_add (tf_BaselineReleaseAt flight) (- Allowance policy n) in
  let at_ := if after (tf_ReadyAt flight) at_ then tf_ReadyAt flight else at_ in
  let at_ := if after now at_ then now else at_ in
  if negb (after at_ (tf_EntryAt flight)) then time_add (tf_EntryAt flight) Second else at_.

Definition new_release (flight : Traffic) (at_ : Time) : ApproachReleaseReservation :=
  mk_release (tf_Episode flight) (tf_HoldingID flight) (tf_STARFamily flight) (tf_FeederFix flight)
    (tf_RunwayGroupID flight) (tf_EntryAt flight) at_ None (tf_Transit flight)
    (time_sub (tf_BaselineReleaseAt flight) at_) (tf_RouteDigest flight) PolicyVersion.

Definition reserve_counts (horizon : Time) (existing : option ApproachReleaseReservation) (flight : Traffic)
    (b : ReleaseBufferSummary) : ReleaseBufferSummary :=
  if countedReservation horizon existing then b else count 0 1 (if tf_Incoming flight then -1 else 0) 0 b.

Definition consider (flight : Traffic) (s : planning) : planning :=
  mk_planning (pl_reservations s) (pl_buffer s) ({[tf_Callsign flight]} ∪ pl_considered s) (pl_progressed s).

Definition plan_flight (policy : ApproachReleasePolicy) (now horizon : Time) (traffic : list Traffic) (s : planning)
    (flight : Traffic) : outcome planning :=
  let s := consider flight s in
  if negb (facts_complete flight) then Ok s
  else
    let rs := pl_reservations s in
    let existing := rs !! tf_Callsign flight in
    let n := projected_count horizon (pl_buffer s) existing flight in
    at_ ← earliestStreamRelease (advance_start policy now n flight) flight
            (releasePredecessors (tf_Callsign flight) traffic rs) rs (ap_TargetBuffer policy <=? n);
    let advance := time_sub (tf_BaselineReleaseAt flight) at_ in
    if (advance <? 0) || opt_test (λ r, negb (before at_ (ar_ReleaseAt r))) existing ||
       after at_ (time_add now (dur_mul (ap_LookaheadSeconds policy) Second))
    then Ok s
    else Ok (mk_planning (<[tf_Callsign flight := new_release flight at_]> rs)
               (reserve_counts horizon existing flight (pl_buffer s)) (pl_considered s) true).

(** One round of the outer loop: a sweep and the offers to its heads. *)
Definition plan_round (policy : ApproachReleasePolicy) (now horizon : Time) (traffic : list Traffic) (s : planning)
  : outcome (planning + planning) :=
  let heads := stream_heads now traffic (pl_reservations s) (pl_considered s) in
  s ← fold_outcome (plan_flight policy now horizon traffic)
        (mk_planning (pl_reservations s) (pl_buffer s) (pl_considered s) false) heads;
  Ok (if pl_progressed s then inl s else inr s).

Definition traffic_less (a b : Traffic) : bool :=
  if negb (time_eqb (tf_ReadyAt a) (tf_ReadyAt b)) then before (tf_ReadyAt a) (tf_ReadyAt b)
  else if negb (time_eqb (tf_EntryAt a) (tf_EntryAt b)) then before (tf_EntryAt a) (tf_EntryAt b)
  else str_ltb (tf_Callsign a) (tf_Callsign b).

Definition sort_spacing (f : Traffic) : Traffic :=
  set_Spacing (sort_slice (λ a b, before (st_EffectiveAt a) (st_EffectiveAt b)) (tf_Spacing f)) f.

Definition plan_traffic (input : ReleaseInput) : list Traffic :=
  sort_slice traffic_less (sort_spacing <$> pi_Traffic input).

Definition plan_enabled (input : ReleaseInput) : bool :=
  opt_test (λ p, ap_Enabled p && is_ok (ApproachReleasePolicy_Validate p)) (pi_Policy input).

Definition plan_lookahead (input : ReleaseInput) : Duration :=
  match pi_Policy input with
  | Some p => if 0 <? ap_LookaheadSeconds p then dur_mul (ap_LookaheadSeconds p) Second else 2 * Minute
  | None => 2 * Minute
  end.

(** The summary before the traffic is counted. *)
Definition initial_buffer (input : ReleaseInput) : ReleaseBufferSummary :=
  mk_buffer (if str_empty (pi_BlockedReason input) then [] else [pi_BlockedReason input])
    (if plan_enabled input then "ready" else "disabled")
    (match pi_Policy input with Some p => ap_TargetBuffer p | None => 0 end)
    0 0 0 (if pi_WorkloadUnknown input then 1 else 0).

(** The reason that blocks offers, and the buffer once the traffic is counted. *)
Definition start_reason (input : ReleaseInput) (v : revalidation) : string :=
  if str_empty (rv_reason v) then pi_BlockedReason input else rv_reason v.

Definition start_buffer (input : ReleaseInput) (v : revalidation) : ReleaseBufferSummary :=
  let horizon := time_add (pi_At input) (plan_lookahead input) in
  let b := initial_buffer input in
  let b := if str_empty (rv_reason v) then b else set_BlockedReasons [rv_reason v] b in
  let b := foldl (count_flight horizon (rv_reservations v)) b (plan_traffic input) in
  if plan_enabled input && ((0 <? rb_Unknown b) || negb (str_empty (start_reason input v))) then set_Status "degraded" b else b.

Definition plan_start (input : ReleaseInput) : outcome revalidation :=
  let traffic := plan_traffic input in
  revalidateReservations (pi_At input) traffic (foldl (accept (pi_At input)) ∅ traffic).

(** The outer loop, which runs while the planner is enabled and nothing is
    unknown or blocked; a round that makes an offer considers a new aircraft. *)
Definition plan_offers (input : ReleaseInput) (rs : reservations) (b : ReleaseBufferSummary) (reason : string)
  : outcome planning :=
  let traffic := plan_traffic input in
  let horizon := time_add (pi_At input) (plan_lookahead input) in
  let s := mk_planning rs b ∅ false in
  match pi_Policy input with
  | Some policy =>
      if plan_enabled input && (rb_Unknown b =? 0) && str_empty reason
      then iterate (Pos.of_succ_nat (length traffic)) (plan_round policy (pi_At input) horizon traffic) s
      else Ok s
  | None => Ok s
  end.

Definition decisions_of (traffic : list Traffic) (rs : reservations) : list ReleaseDecision :=
  sort_slice (λ a b, str_ltb (rd_Callsign a) (rd_Callsign b))
    ((λ f, mk_release_decision (tf_Callsign f) (rs !! tf_Callsign f)) <$> traffic).

Definition Plan (input : ReleaseInput) : outcome ReleaseResult :=
  v ← plan_start input;
  s ← plan_offers input (rv_reservations v) (start_buffer input v) (start_reason input v);
  Ok (mk_release_result (pl_buffer s) (decisions_of (plan_traffic input) (pl_reservations s))).

(** ** The stream search *)

Definition whole_second (t : Time) : Prop := ns t mod Second = 0.

(** Released at [t], [flight] keeps its spacing behind every reservation of its
    stream among [traffic]. *)
Definition stream_clear (flight : Traffic) (traffic : list Traffic) (rs : reservations) (busy : bool) (t : Time) : Prop :=
  let '(minimum, extra, _) := streamSpacingAt flight t in
  ∀ other r, other ∈ traffic → leader flight rs other = Some r →
    ns (leadingAt r) + pair_spacing minimum extra busy flight other ≤ ns t.

Lemma ceil_whole t : whole_second (ceilReleaseTime t).
Proof.
  unfold whole_second, ceilReleaseTime. set (u := truncate t Second).
  assert (Hu : ns u mod Second = 0).
  { unfold u, Second. simpl. rewrite Zminus_mod, Z.mod_mod, Z.sub_diag by lia. done. }
  clearbody u. destruct (before u t); [|done]. unfold time_add. cbn [ns].
  rewrite <-(Zplus_mod_idemp_l (ns u)), Hu. done.
Qed.

Lemma ceil_bounds t : ns t ≤ ns (ceilReleaseTime t) < ns t + Second.
Proof.
  unfold ceilReleaseTime. pose proof (truncate_bounds t Second ltac:(done)) as Hb. revert Hb.
  generalize (truncate t Second). intros u Hb. unfold before. destruct (Z.ltb_spec (ns u) (ns t)); simpl; unfold Second in *; lia.
Qed.

Lemma ceil_least t s : whole_second s → ns t ≤ ns s → ns (ceilReleaseTime t) ≤ ns s.
Proof.
  intros Hs Hts. pose proof (ceil_bounds t) as Hb. pose proof (ceil_whole t) as Hc. unfold whole_second, Second in *.
  apply Z.div_exact in Hs, Hc; [|lia..]. lia.
Qed.

Lemma ceil_utc t : is_utc (ceilReleaseTime t) = is_utc t.
Proof. unfold ceilReleaseTime. by destruct (before _ _). Qed.

Lemma ceil_id t : whole_second t → ns (ceilReleaseTime t) = ns t.
Proof. intros Ht. pose proof (ceil_bounds t). pose proof (ceil_least t t Ht). lia. Qed.

(** A period lasts until the next spacing point. *)
Lemma spacing_at_period points m b t x y next :
  0 ≤ ns t → spacing_at m b points t = (x, y, next) →
  (next = zero_time ∧ ∀ s, ns t ≤ ns s → spacing_at m b points s = (x, y, next)) ∨
  (ns t < ns next ∧ next ∈ (st_EffectiveAt <$> points) ∧
   ∀ s, ns t ≤ ns s < ns next → spacing_at m b points s = (x, y, next)).
Proof.
  intros Ht. revert m b. induction points as [|p points IH]; intros m b; cbn [spacing_at].
  { intros [= <- <- <-]. by left. }
  unfold after at 1. destruct (Z.ltb_spec (ns t) (ns (st_EffectiveAt p))) as [Hlt|Hge].
  - intros [= <- <- <-]. right. split_and!; [done|by left|]. intros s Hs.
    unfold after. rewrite (proj2 (Z.ltb_lt _ _)) by lia. done.
  - intros [[-> H]|(Hn & Hin & H)]%IH; [left|right].
    + split; [done|]. intros s Hs. unfold after. rewrite (proj2 (Z.ltb_ge _ _)) by lia. by apply H.
    + split_and!; [done|by right|]. intros s Hs. unfold after. rewrite (proj2 (Z.ltb_ge _ _)) by lia. by apply H.
Qed.

Lemma boundary_le minimum extra busy flight rs at_ traffic t :
  ns (foldl (boundary_step minimum extra busy flight rs) at_ traffic) ≤ ns t ↔
    ns at_ ≤ ns t ∧ ∀ other r, other ∈ traffic → leader flight rs other = Some r →
      ns (leadingAt r) + pair_spacing minimum extra busy flight other ≤ ns t.
Proof.
  revert at_. induction traffic as [|o traffic IH]; intros at_; cbn [foldl].
  { split; [intros ?; split; [done|intros ??; by rewrite elem_of_nil]|naive_solver]. }
  rewrite IH. setoid_rewrite elem_of_cons. unfold boundary_step.
  destruct (leader flight rs o) as [r|] eqn:E; [|naive_solver].
  assert (Hl : ns (later_of at_ (time_add (leadingAt r) (pair_spacing minimum extra busy flight o))) ≤ ns t ↔
    ns at_ ≤ ns t ∧ ns (leadingAt r) + pair_spacing minimum extra busy flight o ≤ ns t) by (time_lia).
  rewrite Hl. naive_solver.
Qed.

Lemma boundary_ge minimum extra busy flight rs at_ traffic :
  ns at_ ≤ ns (foldl (boundary_step minimum extra busy flight rs) at_ traffic).
Proof. by apply (boundary_le minimum extra busy flight rs at_ traffic). Qed.

Section search.
Context (flight : Traffic) (traffic : list Traffic) (rs : reservations) (busy : bool) (start : Time).
Hypothesis Hstart : 0 ≤ ns start.

Definition search_inv (at_ : Time) : Prop :=
  whole_second at_ ∧ ns start ≤ ns at_ ∧
  ∀ s, whole_second s → ns start ≤ ns s < ns at_ → ¬ stream_clear flight traffic rs busy s.

Lemma search_start : search_inv (ceilReleaseTime start).
Proof.
  split; [apply ceil_whole|]. pose proof (ceil_bounds start). split; [lia|].
  intros s Hs Hb. pose proof (ceil_least start s Hs). lia.
Qed.

(** Within a period nothing before the boundary is clear. *)
Lemma period_clear at_ minimum extra next s :
  streamSpacingAt flight s = (minimum, extra, next) → ns at_ ≤ ns s →
  stream_clear flight traffic rs busy s ↔
  ns (foldl (boundary_step minimum extra busy flight rs) at_ traffic) ≤ ns s.
Proof. intros Hs Hle. unfold stream_clear. rewrite Hs, boundary_le. naive_solver. Qed.

Lemma release_step_cases at_ :
  search_inv at_ →
  (∃ next, next ∈ (st_EffectiveAt <$> tf_Spacing flight) ∧ ns at_ < ns next ∧
     release_step flight traffic rs busy at_ = Ok (inl (ceilReleaseTime next)) ∧ search_inv (ceilReleaseTime next)) ∨
  (∃ t, release_step flight traffic rs busy at_ = Ok (inr t) ∧
     least_from (λ t, whole_second t ∧ stream_clear flight traffic rs busy t) start t).
Proof using Hstart.
  intros (Hw & Hge & Hbefore). unfold release_step, streamReleaseBoundary.
  destruct (streamSpacingAt flight at_) as [[minimum extra] next] eqn:Esp.
  pose proof (boundary_ge minimum extra busy flight rs at_ traffic) as Hcand.
  set (candidate := foldl _ at_ traffic) in *. pose proof (ceil_bounds candidate) as Hceil.
  assert (Hperiod : ∀ s, ns at_ ≤ ns s → streamSpacingAt flight s = (minimum, extra, next) →
    stream_clear flight traffic rs busy s ↔ ns candidate ≤ ns s) by (intros; by eapply period_clear).
  clearbody candidate.
  assert (Hleast : ∀ s, whole_second s → ns start ≤ ns s → ns s < ns (ceilReleaseTime candidate) →
    streamSpacingAt flight s = (minimum, extra, next) ∨ ns s < ns at_ → ¬ stream_clear flight traffic rs busy s).
  { intros s Hs Hss Hsc Hp. destruct (Z.lt_ge_cases (ns s) (ns at_)) as [Hlt|Hge'].
    - apply Hbefore; [done|lia].
    - destruct Hp as [Hp|Hlt]; [|by apply Z.le_ngt in Hge']. rewrite Hperiod by done. intros Hc. pose proof (ceil_least candidate s Hs Hc). lia. }
  destruct (spacing_at_period _ _ _ at_ _ _ _ ltac:(lia) Esp) as [[-> Hp]|(Hn & Hin & Hp)].
  - right. eexists. split; [done|]. split_and!; [apply ceil_whole| |lia|].
    + apply Hperiod; [lia|apply Hp; lia|lia].
    + intros g [Hg Hclear] Hsg. destruct (Z.le_gt_cases (ns (ceilReleaseTime candidate)) (ns g)); [done|].
      exfalso. revert Hclear. apply Hleast; [done|done|lia|].
      destruct (Z.lt_ge_cases (ns g) (ns at_)); [by right|left; by apply Hp].
  - assert (Hz : is_zero next = false) by (unfold is_zero; apply Z.eqb_neq; lia).
    rewrite Hz. cbn [negb andb]. unfold before. destruct (Z.ltb_spec (ns (ceilReleaseTime candidate)) (ns next)) as [Hlt|Hle].
    + right. eexists. split; [done|]. split_and!; [apply ceil_whole|apply Hperiod; [lia|apply Hp; lia|lia]|lia|].
      intros g [Hg Hclear] Hsg. destruct (Z.le_gt_cases (ns (ceilReleaseTime candidate)) (ns g)); [done|].
      exfalso. revert Hclear. apply Hleast; [done|done|lia|].
      destruct (Z.lt_ge_cases (ns g) (ns at_)); [by right|left; apply Hp; lia].
    + left. exists next. pose proof (ceil_bounds next). split; [done|split; [done|split; [done|split; [apply ceil_whole|split; [lia|]]]]].
      intros s Hs [Hss Hsn]. destruct (Z.le_gt_cases (ns next) (ns s)) as [Hns|Hns].
      { pose proof (ceil_least next s Hs Hns). lia. }
      apply Hleast; [done|done|lia|]. destruct (Z.lt_ge_cases (ns s) (ns at_)); [by right|left; apply Hp; lia].
Qed.

(** The spacing points still ahead. *)
Definition points_ahead (at_ : Time) : Z :=
  Z.of_nat (length (filter (λ e, ns at_ < ns e) (st_EffectiveAt <$> tf_Spacing flight))).

Lemma points_ahead_decreases at_ at' next :
  next ∈ (st_EffectiveAt <$> tf_Spacing flight) → ns at_ < ns next ≤ ns at' → points_ahead at' < points_ahead at_.
Proof.
  intros Hin Hb. apply inj_lt, (length_filter_lt _ _ _ next); [intros e He; simpl in *; lia|done|lia..].
Qed.

Lemma earliest_ok :
  ∃ t, earliestStreamRelease start flight traffic rs busy = Ok t ∧
    least_from (λ t, whole_second t ∧ stream_clear flight traffic rs busy t) start t.
Proof using Hstart.
  unfold earliestStreamRelease.
  destruct (iterate_ok (release_step flight traffic rs busy) search_inv
    (Pos.of_succ_nat (length (tf_Spacing flight))) (ceilReleaseTime start)) as [t Ht].
  - intros s s' Hs E. destruct (release_step_cases s Hs) as [(n & _ & _ & E' & Hi)|(t & E' & _)]; rewrite E in E'; [|done].
    by injection E' as ->.
  - intros s Hs. destruct (release_step_cases s Hs) as [(n & _ & _ & -> & _)|(t & -> & _)]; by eexists.
  - apply search_start.
  - apply iterate_returns with (Inv := search_inv) (m := points_ahead).
    + intros s Hs. by destruct (release_step_cases s Hs) as [(n & _ & _ & -> & _)|(t & -> & _)].
    + intros s s' Hs E. destruct (release_step_cases s Hs) as [(n & Hin & Hn & E' & Hi)|(t & E' & _)]; rewrite E in E'; [|done].
      injection E' as ->. split; [done|]. pose proof (ceil_bounds n). split; [unfold points_ahead; lia|].
      apply (points_ahead_decreases _ _ n); [done|lia].
    + apply search_start.
    + unfold points_ahead. pose proof (length_filter (λ e, ns (ceilReleaseTime start) < ns e) (st_EffectiveAt <$> tf_Spacing flight)) as H.
      rewrite length_fmap in H. lia.
  - exists t. split; [done|]. revert Ht. apply iterate_inv with (Inv := search_inv).
    + intros s s' Hs E. destruct (release_step_cases s Hs) as [(n & _ & _ & E' & Hi)|(t' & E' & _)]; rewrite E in E'; [|done].
      by injection E' as ->.
    + intros s t' Hs E. destruct (release_step_cases s Hs) as [(n & _ & _ & E' & _)|(u & E' & Hu)]; rewrite E in E'; [done|].
      by injection E' as ->.
    + apply search_start.
Qed.
End search.

(** ** The offers as steps

    One offer of the planner, on the reservations and the buffer: the aircraft
    is the head of its streams, its release is the earliest clear whole second
    its facts allow, and it comes no later than the aircraft's slot permits. *)

Section offers.
Context (policy : ApproachReleasePolicy) (now horizon : Time) (traffic : list Traffic).

Definition offer_count (s : reservations * ReleaseBufferSummary) (flight : Traffic) : Z :=
  projected_count horizon s.2 (s.1 !! tf_Callsign flight) flight.

Record offered (s : reservations * ReleaseBufferSummary) (flight : Traffic) (at_ : Time) : Prop := {
  of_in : flight ∈ traffic;
  of_eligible : tf_Active flight = true ∧ tf_Eligible flight = true ∧ tf_InApproach flight = false;
  of_facts : facts_complete flight = true;
  of_head : ∀ older, older ∈ traffic → pending_before s.1 flight older = false;
  of_earliest : least_from (λ t, whole_second t ∧
      stream_clear flight (releasePredecessors (tf_Callsign flight) traffic s.1) s.1
        (ap_TargetBuffer policy <=? offer_count s flight) t)
    (advance_start policy now (offer_count s flight) flight) at_;
  of_earlier : ∀ r, s.1 !! tf_Callsign flight = Some r → ns at_ < ns (ar_ReleaseAt r);
  of_slot : ns at_ ≤ ns (tf_BaselineReleaseAt flight);
  of_window : ns at_ ≤ ns now + dur_mul (ap_LookaheadSeconds policy) Second
}.

Inductive offer : reservations * ReleaseBufferSummary → reservations * ReleaseBufferSummary → Prop :=
| offer_release rs b flight at_ :
    offered (rs, b) flight at_ →
    offer (rs, b) (<[tf_Callsign flight := new_release flight at_]> rs,
                   reserve_counts horizon (rs !! tf_Callsign flight) flight b).

Hypothesis Hnow : 0 ≤ ns now.

Lemma advance_start_bounds n flight :
  ns now ≤ ns (advance_start policy now n flight) ∧ ns (tf_ReadyAt flight) ≤ ns (advance_start policy now n flight) ∧
  ns (tf_EntryAt flight) < ns (advance_start policy now n flight) ∧
  ns (tf_BaselineReleaseAt flight) - Allowance policy n ≤ ns (advance_start policy now n flight).
Proof using Type.
  unfold advance_start. fold (later_of (time_add (tf_BaselineReleaseAt flight) (- Allowance policy n)) (tf_ReadyAt flight)).
  set (a := later_of _ _). fold (later_of a now). set (b := later_of a now). unfold after.
  pose proof (later_of_ge (time_add (tf_BaselineReleaseAt flight) (- Allowance policy n)) (tf_ReadyAt flight)) as Ha.
  pose proof (later_of_ge a now) as Hb. fold a in Ha. fold b in Hb. clearbody a b. unfold time_add, Second in *.
  cbn [ns] in *. destruct (Z.ltb_spec (ns (tf_EntryAt flight)) (ns b)); simpl; lia.
Qed.

(** A head of the sweep and the state in which it is offered a release. *)
Definition head (rs : reservations) (flight : Traffic) : Prop :=
  flight ∈ traffic ∧ (tf_Active flight = true ∧ tf_Eligible flight = true ∧ tf_InApproach flight = false) ∧
  ∀ older, older ∈ traffic → pending_before rs flight older = false.

Lemma plan_flight_ok s flight :
  head (pl_reservations s) flight →
  ∃ s', plan_flight policy now horizon traffic s flight = Ok s' ∧
    pl_considered s' = {[tf_Callsign flight]} ∪ pl_considered s ∧
    rtc offer (pl_reservations s, pl_buffer s) (pl_reservations s', pl_buffer s').
Proof using Hnow.
  intros (Hin & Hel & Hhead). unfold plan_flight. destruct (facts_complete flight) eqn:Ef; simpl.
  2: { exists (consider flight s). split_and!; [done|done|apply rtc_refl]. }
  set (n := projected_count _ _ _ _).
  destruct (earliest_ok flight (releasePredecessors (tf_Callsign flight) traffic (pl_reservations s))
    (pl_reservations s) (ap_TargetBuffer policy <=? n) (advance_start policy now n flight)) as (t & -> & Ht).
  { pose proof (advance_start_bounds n flight). lia. }
  cbn [mbind outcome_bind]. destruct (_ || _ || _) eqn:Estop.
  { exists (consider flight s). split_and!; [done|done|apply rtc_refl]. }
  apply orb_false_iff in Estop as [[Hadv Hold]%orb_false_iff Hwin].
  eexists. split_and!; [done|done|]. apply rtc_once. constructor. split; simpl; try done.
  - intros r Hr. cbn [consider pl_reservations] in Hold. rewrite Hr in Hold. simpl in Hold. unfold before in Hold. zbool. lia.
  - zbool. apply (time_sub_ge _ _ 0) in Hadv; [lia|done].
  - unfold after, time_add in Hwin. simpl in Hwin. zbool. lia.
Qed.

Lemma pending_before_mono rs rs' flight older :
  dom rs ⊆ dom rs' → pending_before rs flight older = false → pending_before rs' flight older = false.
Proof using Type.
  unfold pending_before. intros Hdom. destruct (rs !! tf_Callsign older) as [r|] eqn:E; simpl.
  - assert (Hr : is_Some (rs' !! tf_Callsign older)).
    { apply elem_of_dom, Hdom, elem_of_dom. by eexists. }
    destruct Hr as [r' ->]. simpl. by rewrite !andb_false_r.
  - rewrite andb_true_r. intros [-> | ->]%andb_false_iff; by rewrite ?andb_false_r.
Qed.

Lemma offer_dom s s' : rtc offer s s' → dom s.1 ⊆ dom s'.1.
Proof using Type.
  clear Hnow. induction 1 as [|s1 s2 s3 Hs _ IH]; [done|]. etrans; [|exact IH]. destruct Hs. simpl. rewrite dom_insert_L. set_solver.
Qed.

Lemma plan_heads_ok heads s :
  Forall (head (pl_reservations s)) heads →
  ∃ s', fold_outcome (plan_flight policy now horizon traffic) s heads = Ok s' ∧
    pl_considered s' = list_to_set (tf_Callsign <$> heads) ∪ pl_considered s ∧
    rtc offer (pl_reservations s, pl_buffer s) (pl_reservations s', pl_buffer s').
Proof using Hnow.
  revert s. induction heads as [|f heads IH]; intros s Hh.
  { exists s. split_and!; [done|set_solver|apply rtc_refl]. }
  apply Forall_cons in Hh as [Hf Hh]. destruct (plan_flight_ok s f Hf) as (s1 & E1 & Hc1 & Ho1).
  destruct (IH s1) as (s2 & E2 & Hc2 & Ho2).
  { eapply Forall_impl; [exact Hh|]. intros g (Hin & Hel & Hp). split_and!; [done|apply Hel..|].
    intros older Hold. eapply pending_before_mono; [apply (offer_dom _ _ Ho1)|by apply Hp]. }
  exists s2. split_and!; [by simpl; rewrite E1| |by etrans].
  rewrite Hc2, Hc1. simpl. set_solver.
Qed.

Lemma stream_heads_spec rs considered :
  Forall (λ f, head rs f ∧ (tf_Callsign f ∉ considered)) (stream_heads now traffic rs considered).
Proof using Type.
  clear Hnow. unfold stream_heads.
  assert (H : ∀ l sweep, l ⊆ traffic → Forall (λ f, head rs f ∧ (tf_Callsign f ∉ considered)) sweep →
    Forall (λ f, head rs f ∧ (tf_Callsign f ∉ considered)) (foldl (sweep_step now traffic rs considered) sweep l)).
  { induction l as [|f l IH]; intros sweep Hl Hs; [done|]. cbn [foldl]. apply IH; [set_solver|].
    unfold sweep_step. destruct (_ && _ && _) eqn:E; [|done]. bsplit. apply Forall_app. split; [done|].
    constructor; [|done]. unfold candidate in H. bsplit. apply bool_decide_eq_false in H3. split; [|done].
    split_and!; [set_solver|done..|]. by apply existsb_exists_false. }
  by apply H.
Qed.

Definition unconsidered (s : planning) : Z :=
  Z.of_nat (length (filter (λ f, tf_Callsign f ∉ pl_considered s) traffic)).

Lemma plan_round_cases s :
  ∃ s', rtc offer (pl_reservations s, pl_buffer s) (pl_reservations s', pl_buffer s') ∧
    (plan_round policy now horizon traffic s = Ok (inr s') ∨
     plan_round policy now horizon traffic s = Ok (inl s') ∧ unconsidered s' < unconsidered s).
Proof using Hnow.
  unfold plan_round. pose proof (stream_heads_spec (pl_reservations s) (pl_considered s)) as Hheads.
  set (heads := stream_heads _ _ _ _) in *.
  destruct (plan_heads_ok heads (mk_planning (pl_reservations s) (pl_buffer s) (pl_considered s) false)) as (s' & E & Hc & Ho).
  { eapply Forall_impl; [exact Hheads|]. by intros f [? _]. }
  exists s'. split; [done|]. rewrite E. cbn [mbind outcome_bind]. destruct (pl_progressed s') eqn:Ep; [right|by left]. split; [done|].
  destruct heads as [|f heads]; [by injection E as <-|]. apply Forall_cons in Hheads as [[[Hin _] Hf] _].
  apply inj_lt, (length_filter_lt _ _ _ f); [|done|done|]; rewrite Hc; [set_solver|]. simpl. set_solver.
Qed.

Lemma plan_rounds_ok s :
  ∃ s', iterate (Pos.of_succ_nat (length traffic)) (plan_round policy now horizon traffic) s = Ok s' ∧
    rtc offer (pl_reservations s, pl_buffer s) (pl_reservations s', pl_buffer s').
Proof using Hnow.
  destruct (iterate_ok (plan_round policy now horizon traffic) (λ _, True)
    (Pos.of_succ_nat (length traffic)) s) as [s' Hs']; [done| |done| |].
  - intros s1 _. destruct (plan_round_cases s1) as (s2 & _ & [-> | [-> _]]); by eexists.
  - apply iterate_returns with (Inv := λ _, True) (m := unconsidered); [..|done|].
    + intros s1 _. by destruct (plan_round_cases s1) as (s2 & _ & [-> | [-> _]]).
    + intros s1 s2 _ E. destruct (plan_round_cases s1) as (s3 & _ & [E' | [E' Hm]]); rewrite E in E'; [done|].
      injection E' as ->. split; [done|]. unfold unconsidered in *. lia.
    + unfold unconsidered. pose proof (length_filter (λ f, tf_Callsign f ∉ pl_considered s) traffic). lia.
  - exists s'. split; [done|]. revert Hs'.
    set (I s1 := rtc offer (pl_reservations s, pl_buffer s) (pl_reservations s1, pl_buffer s1)).
    apply (iterate_inv _ I I); [..|apply rtc_refl]; unfold I.
    + intros s1 s2 Ho E. destruct (plan_round_cases s1) as (s3 & Ho' & [E' | [E' _]]); rewrite E in E'; [done|].
      injection E' as ->. by etrans.
    + intros s1 s2 Ho E. destruct (plan_round_cases s1) as (s3 & Ho' & [E' | [E' _]]); rewrite E in E'; [|done].
      injection E' as ->. by etrans.
Qed.
End offers.
