(* ===== verification/ReleaseSafety.v ===== *)
(** * What the release planner promises

    The planner of [ReleasePlanner.v] ends and is a run of single offers from
    the revalidated reservations; its streams stay spaced and in order, its
    summary counts what its reservations say, due releases stay where they are,
    and the order of the traffic does not matter. *)

From S2P Require Import Prelude GoTime SequenceData DomainValues SequenceGrid SequenceSpacing.
From S2P Require Import ReleasePlanner.

Local Open Scope Z_scope.

(** ** Spacing within the streams *)

(** [f] leaves the hold its spacing after [g]. *)
Definition stream_behind (f : Traffic) (rf : ApproachReleaseReservation) (g : Traffic) (rg : ApproachReleaseReservation) : Prop :=
  let '(minimum, extra, _) := streamSpacingAt f (leadingAt rf) in
  ns (leadingAt rg) + pair_spacing minimum extra false f g ≤ ns (leadingAt rf).

Definition stream_spaced (traffic : list Traffic) (rs : reservations) : Prop :=
  ∀ f g rf rg, f ∈ traffic → g ∈ traffic → tf_Callsign f ≠ tf_Callsign g → sharedStream f g = true →
    rs !! tf_Callsign f = Some rf → rs !! tf_Callsign g = Some rg → stream_behind f rf g rg ∨ stream_behind g rg f rf.

(** A release is observed only when it was due. *)
Definition released_due (now : Time) (rs : reservations) : Prop :=
  ∀ c r, rs !! c = Some r → is_Some (ar_ReleasedAt r) → ns (ar_ReleaseAt r) ≤ ns now.

Lemma shared_sym a b : shared a b = shared b a.
Proof.
  unfold shared. rewrite str_eqb_sym. destruct (str_eqb b a) eqn:E; [|by rewrite !andb_false_r].
  apply str_eqb_eq in E as ->. done.
Qed.

Lemma sharedStream_sym f g : sharedStream f g = sharedStream g f.
Proof. unfold sharedStream. 
  by rewrite (shared_sym (tf_HoldingID f)), (shared_sym (tf_STARFamily f)), (shared_sym (tf_FeederFix f)).
Qed.

Lemma wakeSpacing_nonneg leading trailing : 0 ≤ wakeSpacing leading trailing.
Proof.
  unfold wakeSpacing. destruct (list_find _ _) as [[i rule]|] eqn:E; [|done].
  apply list_find_Some in E as (Hi & _ & _).
  assert (Hall : Forall (λ rule, 0 ≤ sr_Minimum rule) CPHSeparationRules) by (by repeat constructor).
  by eapply Forall_lookup_1 in Hall.
Qed.

Lemma pair_spacing_bounds minimum extra busy f g :
  0 ≤ pair_spacing minimum extra false f g ≤ pair_spacing minimum extra busy f g.
Proof.
  unfold pair_spacing. pose proof (wakeSpacing_nonneg (tf_WakeCategory g) (tf_WakeCategory f)).
  destruct busy, (str_eqb _ _); unfold Minute, Second; lia.
Qed.

Lemma leadingAt_ge r : ns (ar_ReleaseAt r) ≤ ns (leadingAt r).
Proof. unfold leadingAt. destruct (ar_ReleasedAt r); [|done]. time_lia. Qed.

Lemma leadingAt_future now r :
  (is_Some (ar_ReleasedAt r) → ns (ar_ReleaseAt r) ≤ ns now) → ns now < ns (ar_ReleaseAt r) → leadingAt r = ar_ReleaseAt r.
Proof. intros H Hf. unfold leadingAt. destruct (ar_ReleasedAt r) eqn:E; [|done]. specialize (H ltac:(by eexists)). lia. Qed.

(** [g] is in [leader]'s position for [f]. *)
Lemma leader_shared f g rs rg :
  tf_Callsign f ≠ tf_Callsign g → sharedStream f g = true → rs !! tf_Callsign g = Some rg → leader f rs g = Some rg.
Proof.
  intros Hne Hs Hg. unfold leader. rewrite (proj2 (str_eqb_neq _ _)) by done. by rewrite sharedStream_sym, Hs.
Qed.

(** A clear release is behind every reservation it was stream_spaced from. *)
Lemma clear_behind f rf traffic rs busy g rg :
  stream_clear f traffic rs busy (leadingAt rf) → g ∈ traffic → tf_Callsign f ≠ tf_Callsign g → sharedStream f g = true →
  rs !! tf_Callsign g = Some rg → stream_behind f rf g rg.
Proof.
  unfold stream_clear, stream_behind. destruct (streamSpacingAt f (leadingAt rf)) as [[minimum extra] next].
  intros Hc Hg Hne Hs Hrg. specialize (Hc g rg Hg (leader_shared f g rs rg Hne Hs Hrg)).
  pose proof (pair_spacing_bounds minimum extra busy f g). lia.
Qed.

Lemma behind_earlier f rf g rg rg' :
  ns (leadingAt rg') ≤ ns (leadingAt rg) → stream_behind f rf g rg → stream_behind f rf g rg'.
Proof. unfold stream_behind. destruct (streamSpacingAt f (leadingAt rf)) as [[minimum extra] next]. lia. Qed.

Lemma behind_le f rf g rg : stream_behind f rf g rg → ns (leadingAt rg) ≤ ns (leadingAt rf).
Proof.
  unfold stream_behind. destruct (streamSpacingAt f (leadingAt rf)) as [[minimum extra] next].
  pose proof (pair_spacing_bounds minimum extra false f g). lia.
Qed.

Section spacing.
Context (policy : ApproachReleasePolicy) (now horizon : Time) (traffic : list Traffic).
Hypothesis Hunique : ∀ f g, f ∈ traffic → g ∈ traffic → tf_Callsign f = tf_Callsign g → f = g.

(** A new release lies behind the reservations up to the one it replaces. *)
Lemma offered_behind s f at_ g rg :
  offered policy now horizon traffic s f at_ → g ∈ traffic → tf_Callsign f ≠ tf_Callsign g → sharedStream f g = true →
  s.1 !! tf_Callsign g = Some rg →
  (∀ rf, s.1 !! tf_Callsign f = Some rf → ns (ar_ReleaseAt rg) ≤ ns (ar_ReleaseAt rf)) →
  stream_behind f (new_release f at_) g rg.
Proof using Type.
  intros Ho Hg Hne Hs Hrg Hup. destruct (of_earliest _ _ _ _ _ _ _ Ho) as ([_ Hc] & _ & _).
  eapply (clear_behind f (new_release f at_)); [exact Hc| |done..]. unfold releasePredecessors.
  destruct (s.1 !! tf_Callsign f) as [rf|] eqn:Ef; [|done]. apply list_elem_of_filter. split; [|done].
  rewrite Hrg. simpl. specialize (Hup rf eq_refl). unfold after. apply negb_true_iff, Z.ltb_ge. lia.
Qed.

Lemma offered_not_before s f at_ : offered policy now horizon traffic s f at_ → ns now ≤ ns at_.
Proof using Type.
  intros Ho. destruct (of_earliest _ _ _ _ _ _ _ Ho) as (_ & Hge & _).
  pose proof (advance_start_bounds policy now (offer_count horizon s f) f). lia.
Qed.

(** A future reservation that is replaced was not released yet. *)
Lemma offered_replaces s f at_ rf :
  offered policy now horizon traffic s f at_ → released_due now s.1 → s.1 !! tf_Callsign f = Some rf →
  leadingAt rf = ar_ReleaseAt rf ∧ ns at_ < ns (leadingAt rf).
Proof using Type.
  intros Ho Hd Hrf. pose proof (of_earlier _ _ _ _ _ _ _ Ho rf Hrf). pose proof (offered_not_before _ _ _ Ho).
  rewrite (leadingAt_future now); [|by eauto|lia]. split; [done|lia].
Qed.

Lemma offered_pair s f at_ g rg :
  offered policy now horizon traffic s f at_ → released_due now s.1 → stream_spaced traffic s.1 → g ∈ traffic →
  tf_Callsign f ≠ tf_Callsign g → sharedStream f g = true → s.1 !! tf_Callsign g = Some rg →
  stream_behind f (new_release f at_) g rg ∨ stream_behind g rg f (new_release f at_).
Proof using Type.
  intros Ho Hd Hsp Hg Hne Hs Hrg. pose proof (of_in _ _ _ _ _ _ _ Ho) as Hf.
  destruct (s.1 !! tf_Callsign f) as [rf|] eqn:Ef.
  - destruct (Z.le_gt_cases (ns (ar_ReleaseAt rg)) (ns (ar_ReleaseAt rf))) as [Hle|Hgt].
    + left. eapply offered_behind; eauto. intros rf' E. rewrite Ef in E. by injection E as <-.
    + destruct (offered_replaces _ _ _ _ Ho Hd Ef) as [Hlead Hlt]. right. destruct (Hsp f g rf rg) as [Hb|Hb]; try done.
      * apply behind_le in Hb. rewrite Hlead in Hb. pose proof (leadingAt_ge rg). lia.
      * eapply behind_earlier; [|exact Hb]. change (leadingAt (new_release f at_)) with at_. lia.
  - left. eapply offered_behind; eauto. intros rf E. by rewrite Ef in E.
Qed.

Lemma offer_due s s' : offer policy now horizon traffic s s' → released_due now s.1 → released_due now s'.1.
Proof using Type.
  intros [rs b f at_ Ho] Hd c r. simpl in *. destruct (decide (tf_Callsign f = c)) as [<-|]; [|rewrite lookup_insert_ne by done; apply Hd].
  rewrite lookup_insert_eq. intros [= <-]. simpl. by intros [? ?].
Qed.

Lemma offer_spaced s s' :
  offer policy now horizon traffic s s' → released_due now s.1 → stream_spaced traffic s.1 → stream_spaced traffic s'.1.
Proof using Hunique.
  intros [rs b f at_ Ho] Hd Hsp. simpl in *.
  intros x y rx ry Hx Hy Hne Hs Hrx Hry. pose proof (of_in _ _ _ _ _ _ _ Ho) as Hf.
  destruct (decide (tf_Callsign f = tf_Callsign x)) as [E|Hnx].
  - apply (Hunique f x) in E as <-; [|done..]. rewrite lookup_insert_eq in Hrx. injection Hrx as <-.
    rewrite lookup_insert_ne in Hry by done. by eapply offered_pair.
  - rewrite lookup_insert_ne in Hrx by done. destruct (decide (tf_Callsign f = tf_Callsign y)) as [E|Hny].
    + apply (Hunique f y) in E as <-; [|done..]. rewrite lookup_insert_eq in Hry. injection Hry as <-.
      apply or_comm. eapply offered_pair; eauto. by rewrite sharedStream_sym.
    + rewrite lookup_insert_ne in Hry by done. eauto.
Qed.

End spacing.

(** *** Revalidation *)

Lemma irrevocable_false now r :
  irrevocable now r = false ↔ ar_ReleasedAt r = None ∧ ns now < ns (ar_ReleaseAt r).
Proof.
  unfold irrevocable, not_nil, after. rewrite orb_false_iff, !negb_false_iff, Z.ltb_lt.
  destruct (ar_ReleasedAt r); simpl; naive_solver.
Qed.

Lemma offer_start_bounds f at_ :
  ns at_ ≤ ns (offer_start f at_) ∧ ns (tf_ReadyAt f) ≤ ns (offer_start f at_) ∧ ns (tf_EntryAt f) < ns (offer_start f at_).
Proof.
  unfold offer_start. fold (later_of at_ (tf_ReadyAt f)). pose proof (later_of_ge at_ (tf_ReadyAt f)) as Hb.
  revert Hb. generalize (later_of at_ (tf_ReadyAt f)). intros b Hb. unfold after, time_add, Second.
  destruct (Z.ltb_spec (ns (tf_EntryAt f)) (ns b)); simpl; lia.
Qed.

Lemma repaired_fields f at_ r :
  ar_ReleaseAt (repaired f at_ r) = at_ ∧ ar_ReleasedAt (repaired f at_ r) = ar_ReleasedAt r ∧
  ar_HoldingEntryAt (repaired f at_ r) = tf_EntryAt f.
Proof. unfold repaired. by destruct (is_zero _). Qed.

(** A future offer moved to the first clear second at which its flight is ready. *)
Definition postponed (now : Time) (f : Traffic) (r r' : ApproachReleaseReservation) : Prop :=
  irrevocable now r = false ∧ ∃ at_, r' = repaired f at_ r ∧ whole_second at_ ∧ ns (ar_ReleaseAt r) ≤ ns at_ ∧
    ns (tf_ReadyAt f) ≤ ns at_ ∧ ns (tf_EntryAt f) < ns at_.

(** A future offer whose flight's timing is known, so that it can be moved. *)
Definition timed (now : Time) (rs : reservations) (g : Traffic) : Prop :=
  ∀ r, rs !! tf_Callsign g = Some r → irrevocable now r = true ∨ timing_known g = true.

Section revalidation.
Context (now : Time) (rs0 : reservations).
Hypothesis Hnow : 0 ≤ ns now.

Record revalidated (seen : list Traffic) (s : revalidation) : Prop := {
  va_preceding : ∀ g, g ∈ rv_preceding s ↔ g ∈ seen ∧ is_Some (rs0 !! tf_Callsign g);
  va_same : ∀ c, (c ∉ tf_Callsign <$> seen) → rv_reservations s !! c = rs0 !! c;
  va_moved : ∀ g, g ∈ seen → rv_reservations s !! tf_Callsign g = rs0 !! tf_Callsign g ∨
    ∃ r r', rs0 !! tf_Callsign g = Some r ∧ rv_reservations s !! tf_Callsign g = Some r' ∧ postponed now g r r';
  va_spaced : rv_reason s = ""%string →
    (∀ g, g ∈ seen → timed now rs0 g) → stream_spaced seen (rv_reservations s)
}.

Lemma revalidated_dom seen s g : revalidated seen s → g ∈ seen →
  is_Some (rv_reservations s !! tf_Callsign g) ↔ is_Some (rs0 !! tf_Callsign g).
Proof using Type.
  intros Hv Hg. destruct (va_moved _ _ Hv g Hg) as [-> |(r & r' & -> & -> & _)]; [done|].
  split; intros _; by eexists.
Qed.

(** The next flight is stream_spaced behind those before it. *)
Lemma spaced_snoc seen f rs rs' rf preceding :
  stream_spaced seen rs → (tf_Callsign f ∉ tf_Callsign <$> seen) → (∀ c, c ≠ tf_Callsign f → rs' !! c = rs !! c) →
  rs' !! tf_Callsign f = Some rf → (∀ g, g ∈ seen → is_Some (rs !! tf_Callsign g) → g ∈ preceding) →
  stream_clear f preceding rs false (leadingAt rf) → stream_spaced (seen ++ [f]) rs'.
Proof using Type.
  intros Hsp Hnew Hsame Hrf Hpre Hclear.
  assert (Hin : ∀ g, g ∈ seen → tf_Callsign g ≠ tf_Callsign f).
  { intros g Hg E. apply Hnew. rewrite <-E. by apply list_elem_of_fmap_2. }
  assert (Hf : ∀ g rg, g ∈ seen → sharedStream f g = true → rs' !! tf_Callsign g = Some rg → stream_behind f rf g rg).
  { intros g rg Hg Hs Hrg. specialize (Hin g Hg). rewrite Hsame in Hrg by done.
    eapply (clear_behind f rf preceding rs false g); [done|apply Hpre; [done|by eexists]|done..]. }
  intros x y rx ry Hx Hy Hne Hs Hrx Hry.
  apply elem_of_app in Hx as [Hx| ->%list_elem_of_singleton], Hy as [Hy| ->%list_elem_of_singleton]; [..|done].
  - apply (Hsp x y); [done..| |]; rewrite <-Hsame; auto.
  - right. rewrite Hrf in Hry. injection Hry as <-. apply Hf; [done|by rewrite sharedStream_sym|done].
  - left. rewrite Hrf in Hrx. injection Hrx as <-. by apply Hf.
Qed.

Lemma forall_snoc {A} (P : A → Prop) l x : (∀ g, g ∈ l ++ [x] → P g) ↔ (∀ g, g ∈ l → P g) ∧ P x.
Proof using Type. setoid_rewrite elem_of_app. setoid_rewrite list_elem_of_singleton. naive_solver. Qed.

Lemma revalidated_snoc seen s f r r' rs' reason :
  revalidated seen s → (tf_Callsign f ∉ tf_Callsign <$> seen) → rs0 !! tf_Callsign f = Some r →
  (∀ c, c ≠ tf_Callsign f → rs' !! c = rv_reservations s !! c) → rs' !! tf_Callsign f = Some r' →
  r' = r ∨ postponed now f r r' → (reason = ""%string → rv_reason s = ""%string) →
  (reason = ""%string → irrevocable now r = true ∨ timing_known f = true →
   stream_clear f (rv_preceding s) (rv_reservations s) false (leadingAt r')) →
  revalidated (seen ++ [f]) (mk_revalidation (rv_preceding s ++ [f]) rs' reason).
Proof using Type.
  clear Hnow. intros Hv Hnew Hr Hsame Hr' Hmoved Hreason Hclear. split; cbn [rv_preceding rv_reservations rv_reason].
  - intros g. rewrite !elem_of_app, (va_preceding _ _ Hv), list_elem_of_singleton.
    split; [intros [[? ?]| ->]|]; [naive_solver| |naive_solver]. split; [by right|by eexists].
  - intros c. rewrite fmap_app. intros [Hc Hf]%not_elem_of_app. rewrite Hsame by set_solver. by apply (va_same _ _ Hv).
  - apply forall_snoc. split.
    + intros g Hg. rewrite Hsame by (intros E; apply Hnew; rewrite <-E; by apply list_elem_of_fmap_2).
      by apply (va_moved _ _ Hv).
    + rewrite Hr', Hr. destruct Hmoved as [-> |Hp]; [by left|right; by eexists _, _].
  - intros E Ht%forall_snoc. destruct Ht as [Ht Htf]. eapply spaced_snoc; [..|by apply Hclear; auto]; try done.
    + by apply (va_spaced _ _ Hv); [apply Hreason|].
    + intros g Hg Hs. apply (va_preceding _ _ Hv). by rewrite <-(revalidated_dom _ _ _ Hv Hg).
Qed.

(** A flight without a reservation is passed over. *)
Lemma revalidated_skip seen s f :
  revalidated seen s → (tf_Callsign f ∉ tf_Callsign <$> seen) → rs0 !! tf_Callsign f = None → revalidated (seen ++ [f]) s.
Proof using Type.
  clear Hnow. intros Hv Hnew Hr. assert (Hr' : rv_reservations s !! tf_Callsign f = None) by (by rewrite (va_same _ _ Hv)). split.
  - intros g. rewrite (va_preceding _ _ Hv), elem_of_app, list_elem_of_singleton. split; [naive_solver|].
    intros [[?| ->] Hs]; [done|]. rewrite Hr in Hs. by destruct Hs.
  - intros c. rewrite fmap_app. intros [Hc _]%not_elem_of_app. by apply (va_same _ _ Hv).
  - apply forall_snoc. split; [apply (va_moved _ _ Hv)|left; by rewrite Hr].
  - intros E Ht%forall_snoc. intros x y rx ry Hx Hy Hne Hs Hrx Hry.
    apply elem_of_app in Hx as [Hx| ->%list_elem_of_singleton]; [|by rewrite Hr' in Hrx].
    apply elem_of_app in Hy as [Hy| ->%list_elem_of_singleton]; [|by rewrite Hr' in Hry].
    by apply (va_spaced _ _ Hv E (proj1 Ht) x y).
Qed.

Lemma revalidate_step_ok seen s f :
  revalidated seen s → (tf_Callsign f ∉ tf_Callsign <$> seen) →
  ∃ s', revalidate_step now s f = Ok s' ∧ revalidated (seen ++ [f]) s'.
Proof using Hnow.
  intros Hv Hnew. unfold revalidate_step. pose proof (va_same _ _ Hv _ Hnew) as Hsame. rewrite Hsame.
  destruct (rs0 !! tf_Callsign f) as [r|] eqn:Er; [|exists s; split; [done|by apply revalidated_skip]].
  destruct (irrevocable now r) eqn:Ei.
  { eexists. split; [done|]. eapply (revalidated_snoc _ _ _ r r); [done..|by left| |].
    - by destruct (after _ _).
    - unfold after, streamReleaseBoundary, stream_clear. destruct (streamSpacingAt _ _) as [[minimum extra] next]. simpl.
      destruct (Z.ltb_spec (ns (leadingAt r)) (ns (foldl (boundary_step minimum extra false f (rv_reservations s)) (leadingAt r) (rv_preceding s))))
        as [|Hle]; [done|]. apply boundary_le in Hle as [_ Hle]. intros _ _. exact Hle. }
  destruct (timing_known f) eqn:Et.
  2: { eexists. split; [done|]. eapply (revalidated_snoc _ _ _ r r); [done..|by left|done|]. intros _ [?|?]; congruence. }
  pose proof Ei as [Hnone Hfuture]%irrevocable_false. pose proof (offer_start_bounds f (ar_ReleaseAt r)) as Hb.
  destruct (earliest_ok f (rv_preceding s) (rv_reservations s) false (offer_start f (ar_ReleaseAt r))) as (t & -> & [Hw Hc] & Hge & _);
    [lia|]. destruct (repaired_fields f t r) as (Hra & Hrd & _).
  eexists. split; [done|]. eapply (revalidated_snoc _ _ _ r (repaired f t r)); [done..|intros c ?; by rewrite lookup_insert_ne|apply lookup_insert_eq| | |].
  - right. split; [done|]. exists t. split_and!; [done|done|lia..].
  - by destruct (_ && _).
  - intros _ _. unfold leadingAt. by rewrite Hrd, Hnone, Hra.
Qed.

Lemma revalidate_fold l seen s :
  revalidated seen s → NoDup (tf_Callsign <$> seen ++ l) →
  ∃ s', fold_outcome (revalidate_step now) s l = Ok s' ∧ revalidated (seen ++ l) s'.
Proof using Hnow.
  revert seen s. induction l as [|f l IH]; intros seen s Hv Hnd.
  { exists s. by rewrite app_nil_r. }
  destruct (revalidate_step_ok seen s f Hv) as (s1 & E1 & Hv1).
  { rewrite fmap_app in Hnd. apply NoDup_app in Hnd as (_ & Hd & _). intros Hin. apply (Hd _ Hin). by left. }
  destruct (IH (seen ++ [f]) s1 Hv1) as (s2 & E2 & Hv2); [by rewrite <-app_assoc|].
  exists s2. rewrite <-app_assoc in Hv2. split; [|done]. simpl. by rewrite E1.
Qed.
End revalidation.

(** Revalidation only postpones future offers, and without a conflict it leaves
    every stream stream_spaced. *)
Lemma revalidate_ok now traffic rs :
  0 ≤ ns now → NoDup (tf_Callsign <$> traffic) →
  ∃ v, revalidateReservations now traffic rs = Ok v ∧
    (∀ g, g ∈ traffic → rv_reservations v !! tf_Callsign g = rs !! tf_Callsign g ∨
       ∃ r r', rs !! tf_Callsign g = Some r ∧ rv_reservations v !! tf_Callsign g = Some r' ∧ postponed now g r r') ∧
    (∀ c, (c ∉ tf_Callsign <$> traffic) → rv_reservations v !! c = rs !! c) ∧
    (rv_reason v = ""%string →
     (∀ g, g ∈ traffic → timed now rs g) → stream_spaced traffic (rv_reservations v)).
Proof.
  intros Hnow Hnd. unfold revalidateReservations. set (l := sort_slice _ traffic).
  assert (Hl : ∀ g, g ∈ l ↔ g ∈ traffic) by (intros g; apply elem_of_sort_slice).
  assert (Hlc : ∀ c, c ∈ tf_Callsign <$> l ↔ c ∈ tf_Callsign <$> traffic).
  { intros c. unfold l. by rewrite sort_slice_perm. }
  destruct (revalidate_fold now rs Hnow l [] (mk_revalidation [] rs "")) as (v & E & Hv).
  - split; simpl; [set_solver|done|set_solver|]. intros _ _ x y rx ry Hx. by apply elem_of_nil in Hx.
  - simpl. unfold l. by rewrite sort_slice_perm.
  - exists v. simpl in Hv. split_and!; [done| | |].
    + intros g Hg. by apply (va_moved _ _ _ _ Hv), Hl.
    + intros c Hc. apply (va_same _ _ _ _ Hv). by rewrite Hlc.
    + intros Hreason Ht x y rx ry Hx Hy. apply (va_spaced _ _ _ _ Hv); [done| |by apply Hl..].
      intros g Hg. by apply Ht, Hl.
Qed.

(** ** The planner as a run of offers *)

Lemma plan_traffic_perm input : plan_traffic input ≡ₚ sort_spacing <$> pi_Traffic input.
Proof. apply sort_slice_perm. Qed.

Lemma plan_traffic_callsigns input : tf_Callsign <$> plan_traffic input ≡ₚ tf_Callsign <$> pi_Traffic input.
Proof. rewrite plan_traffic_perm, <-list_fmap_compose. done. Qed.

Definition plan_horizon (input : ReleaseInput) : Time := time_add (pi_At input) (plan_lookahead input).

(** Whether new offers may be made. *)
Definition offering (input : ReleaseInput) (b : ReleaseBufferSummary) (reason : string) : bool :=
  plan_enabled input && (rb_Unknown b =? 0) && str_empty reason.

(** What the planner may do from the state in which offering begins. *)
Definition plan_run (input : ReleaseInput) (s : reservations * ReleaseBufferSummary) (reason : string)
    (s' : reservations * ReleaseBufferSummary) : Prop :=
  match pi_Policy input with
  | Some policy =>
      if offering input s.2 reason
      then rtc (offer policy (pi_At input) (plan_horizon input) (plan_traffic input)) s s' else s' = s
  | None => s' = s
  end.

Lemma plan_offers_ok input rs b reason :
  0 ≤ ns (pi_At input) →
  ∃ s, plan_offers input rs b reason = Ok s ∧ plan_run input (rs, b) reason (pl_reservations s, pl_buffer s).
Proof.
  intros Hnow. unfold plan_offers, plan_run. destruct (pi_Policy input) as [policy|]; [|by eexists].
  unfold offering. destruct (_ && _ && _); [|by eexists].
  destruct (plan_rounds_ok policy (pi_At input) (plan_horizon input) (plan_traffic input) Hnow (mk_planning rs b ∅ false))
    as (s & E & Ho). by exists s.
Qed.

Lemma plan_run_cases input s reason s' :
  plan_run input s reason s' →
  s' = s ∨ ∃ policy, pi_Policy input = Some policy ∧ plan_enabled input = true ∧ offering input s.2 reason = true ∧
    rtc (offer policy (pi_At input) (plan_horizon input) (plan_traffic input)) s s'.
Proof.
  unfold plan_run. destruct (pi_Policy input) as [policy|]; [|by left].
  destruct (offering input s.2 reason) eqn:E; [|by left]. intros H. right. exists policy.
  split_and!; [done| |done|done]. unfold offering in E. by bsplit.
Qed.

(** An invariant of the offers holds in the end. *)
Lemma plan_run_inv input (I : reservations * ReleaseBufferSummary → Prop) s reason s' :
  (∀ policy s1 s2, pi_Policy input = Some policy → plan_enabled input = true →
     offer policy (pi_At input) (plan_horizon input) (plan_traffic input) s1 s2 → I s1 → I s2) →
  plan_run input s reason s' → I s → I s'.
Proof.
  intros Hstep [-> |(policy & Hp & Hen & _ & Hrun)]%plan_run_cases; [done|].
  induction Hrun as [|s1 s2 s3 Ho _ IH]; [done|]. intros Hi. by eapply IH, Hstep.
Qed.

(** The summary agrees with a count of the traffic on a map of reservations. *)
Record counted (input : ReleaseInput) (rs : reservations) (b : ReleaseBufferSummary) : Prop := {
  cd_counts : let b' := foldl (count_flight (plan_horizon input) rs) (initial_buffer input) (plan_traffic input) in
    rb_InApproach b = rb_InApproach b' ∧ rb_Reserved b = rb_Reserved b' ∧ rb_Incoming b = rb_Incoming b' ∧
    rb_Unknown b = rb_Unknown b';
  cd_target : rb_Target b = rb_Target (initial_buffer input);
  cd_status : rb_Status b = "ready"%string ∨ rb_Status b = "degraded"%string ∨ rb_Status b = "disabled"%string
}.

Lemma count_flight_labels horizon rs b l reasons :
  foldl (count_flight horizon rs) (set_BlockedReasons reasons b) l =
  set_BlockedReasons reasons (foldl (count_flight horizon rs) b l).
Proof.
  revert b. induction l as [|f l IH]; intros b; [done|]. cbn [foldl]. rewrite <-IH. f_equal.
  unfold count_flight. by repeat case_match.
Qed.

Lemma count_flight_keeps horizon rs b l :
  rb_Status (foldl (count_flight horizon rs) b l) = rb_Status b ∧
  rb_BlockedReasons (foldl (count_flight horizon rs) b l) = rb_BlockedReasons b ∧
  rb_Target (foldl (count_flight horizon rs) b l) = rb_Target b.
Proof.
  revert b. induction l as [|f l IH]; intros b; [done|]. cbn [foldl]. destruct (IH (count_flight horizon rs b f)) as (-> & -> & ->).
  unfold count_flight. by repeat case_match.
Qed.

Lemma start_counted input v : counted input (rv_reservations v) (start_buffer input v).
Proof.
  unfold start_buffer. fold (plan_horizon input).
  set (b := if str_empty (rv_reason v) then initial_buffer input else _).
  assert (Hb : ∃ reasons, b = set_BlockedReasons reasons (initial_buffer input)).
  { unfold b. destruct (str_empty _); [exists (rb_BlockedReasons (initial_buffer input)); done|by eexists]. }
  destruct Hb as [reasons ->]. rewrite count_flight_labels.
  destruct (count_flight_keeps (plan_horizon input) (rv_reservations v) (initial_buffer input) (plan_traffic input)) as (Hst & _ & Ht).
  split; [by destruct (_ && _)|by destruct (_ && _)|]. destruct (_ && _); simpl; [tauto|]. rewrite Hst. simpl.
  destruct (plan_enabled input); tauto.
Qed.

(** Nothing is blocked when the summary names no reason. *)
Lemma start_unblocked input v : rb_BlockedReasons (start_buffer input v) = [] → rv_reason v = ""%string.
Proof.
  unfold start_buffer. fold (plan_horizon input). destruct (str_empty (rv_reason v)) eqn:E; [by apply str_eqb_eq in E|].
  intros H. exfalso. rewrite count_flight_labels in H. by destruct (_ && _).
Qed.

(** *** Counting *)

Lemma count_count i r n u i' r' n' u' b :
  count i r n u (count i' r' n' u' b) = count i' r' n' u' (count i r n u b).
Proof. unfold count. simpl. f_equal; lia. Qed.

Lemma count_flight_count horizon rs i r n u b f :
  count_flight horizon rs (count i r n u b) f = count i r n u (count_flight horizon rs b f).
Proof. unfold count_flight. repeat case_match; try done; by rewrite ?(count_count i r n u). Qed.

Lemma count_flights_reserve horizon existing f rs b l :
  foldl (count_flight horizon rs) (reserve_counts horizon existing f b) l =
  reserve_counts horizon existing f (foldl (count_flight horizon rs) b l).
Proof.
  unfold reserve_counts. destruct (countedReservation horizon existing); [done|].
  revert b. induction l as [|g l IH]; intros b; [done|]. cbn [foldl]. by rewrite count_flight_count, IH.
Qed.

Lemma count_flights_other horizon rs c r b l :
  (c ∉ tf_Callsign <$> l) → foldl (count_flight horizon (<[c := r]> rs)) b l = foldl (count_flight horizon rs) b l.
Proof.
  revert b. induction l as [|g l IH]; intros b Hc; [done|]. rewrite fmap_cons, not_elem_of_cons in Hc. destruct Hc as [Hg Hl].
  cbn [foldl]. rewrite IH by done. f_equal. unfold count_flight. by rewrite lookup_insert_ne.
Qed.

(** The place in the buffer moves exactly as [reserve_counts] says. *)
Lemma count_flight_offer horizon rs b f r :
  tf_Active f = true → tf_InApproach f = false → ar_ReleasedAt r = None → ns (ar_ReleaseAt r) ≤ ns horizon →
  (∀ r', rs !! tf_Callsign f = Some r' → ar_ReleasedAt r' = None) →
  count_flight horizon (<[tf_Callsign f := r]> rs) b f =
  reserve_counts horizon (rs !! tf_Callsign f) f (count_flight horizon rs b f).
Proof.
  intros Ha Hi Hr Hh Hold.
  assert (Hnot : opt_test (λ r0, not_nil (ar_ReleasedAt r0)) (rs !! tf_Callsign f) = false).
  { destruct (rs !! tf_Callsign f) as [r'|]; [|done]. simpl. by rewrite (Hold r'). }
  assert (Hc : countedReservation horizon (Some r) = true).
  { unfold countedReservation, after. simpl. rewrite (proj2 (Z.ltb_ge _ _)) by done. apply orb_true_r. }
  unfold reserve_counts, count_flight. rewrite Ha, Hi, lookup_insert_eq, Hnot, Hc. simpl. rewrite Hr. simpl.
  destruct (countedReservation horizon (rs !! tf_Callsign f)); [done|].
  destruct (tf_Incoming f); [|done]. unfold count. destruct (tf_Unknown f); simpl; f_equal; lia.
Qed.

Section counting.
Context (policy : ApproachReleasePolicy) (now horizon : Time) (traffic : list Traffic) (b0 : ReleaseBufferSummary).
Hypothesis Hcallsigns : NoDup (tf_Callsign <$> traffic).
Hypothesis Hwindow : ns now + dur_mul (ap_LookaheadSeconds policy) Second ≤ ns horizon.

Lemma offer_count_ok s s' :
  offer policy now horizon traffic s s' → released_due now s.1 →
  s.2 = foldl (count_flight horizon s.1) b0 traffic → s'.2 = foldl (count_flight horizon s'.1) b0 traffic.
Proof using Hcallsigns Hwindow.
  intros [rs b f at_ Ho] Hd Hb. simpl in *. pose proof (of_in _ _ _ _ _ _ _ Ho) as Hin.
  destruct (of_eligible _ _ _ _ _ _ _ Ho) as (Ha & _ & Hi).
  apply list_elem_of_split in Hin as (l1 & l2 & E). rewrite E in Hcallsigns, Hb. rewrite E.
  rewrite fmap_app, fmap_cons in Hcallsigns. apply NoDup_app in Hcallsigns as (_ & H1 & [H2 _]%NoDup_cons).
  assert (H1' : tf_Callsign f ∉ tf_Callsign <$> l1) by (intros Hc; apply (H1 _ Hc); left).
  rewrite foldl_app in Hb |- *. cbn [foldl] in Hb |- *. rewrite !count_flights_other by done. rewrite count_flight_offer; try done.
  - by rewrite count_flights_reserve, Hb.
  - simpl. pose proof (of_window _ _ _ _ _ _ _ Ho). lia.
  - intros r' Hr'. destruct (ar_ReleasedAt r') eqn:Er; [|done]. exfalso.
    destruct (offered_replaces _ _ _ _ _ _ _ _ Ho Hd Hr') as [_ Hlt].
    pose proof (of_earlier _ _ _ _ _ _ _ Ho r' Hr') as He. pose proof (offered_not_before _ _ _ _ _ _ _ Ho) as Hge.
    specialize (Hd _ _ Hr' ltac:(by eexists)). lia.
Qed.

Lemma offers_count_ok s s' :
  rtc (offer policy now horizon traffic) s s' → released_due now s.1 →
  s.2 = foldl (count_flight horizon s.1) b0 traffic → s'.2 = foldl (count_flight horizon s'.1) b0 traffic.
Proof using Hcallsigns Hwindow.
  induction 1 as [|s1 s2 s3 Ho _ IH]; [done|]. intros Hd Hs. apply IH; [by eapply offer_due|by eapply offer_count_ok].
Qed.
End counting.

(** The place of an aircraft in front of the runway. *)
Inductive buffer_place := InApproachPlace | ReservedPlace | IncomingPlace | NoPlace.

#[export] Instance buffer_place_eq_dec : EqDecision buffer_place.
Proof. solve_decision. Defined.

Definition place (horizon : Time) (rs : reservations) (f : Traffic) : buffer_place :=
  if tf_InApproach f then InApproachPlace
  else match rs !! tf_Callsign f with
       | Some r =>
           if not_nil (ar_ReleasedAt r) then InApproachPlace
           else if negb (after (ar_ReleaseAt r) horizon) then ReservedPlace
           else if tf_Incoming f then IncomingPlace else NoPlace
       | None => if tf_Incoming f then IncomingPlace else NoPlace
       end.

Definition in_place (horizon : Time) (rs : reservations) (p : buffer_place) (traffic : list Traffic) : Z :=
  Z.of_nat (length (filter (λ f, tf_Active f = true ∧ place horizon rs f = p) traffic)).

Definition unknown_traffic (traffic : list Traffic) : Z :=
  Z.of_nat (length (filter (λ f, tf_Active f = true ∧ tf_Unknown f = true) traffic)).

Lemma in_place_cons horizon rs p f l :
  in_place horizon rs p (f :: l) = (if decide (tf_Active f = true ∧ place horizon rs f = p) then 1 else 0) + in_place horizon rs p l.
Proof. unfold in_place. rewrite filter_cons. case_decide; simpl; lia. Qed.

Lemma unknown_traffic_cons f l :
  unknown_traffic (f :: l) = (if decide (tf_Active f = true ∧ tf_Unknown f = true) then 1 else 0) + unknown_traffic l.
Proof. unfold unknown_traffic. rewrite filter_cons. case_decide; simpl; lia. Qed.

Lemma count_flight_place horizon rs b f :
  let n p := if decide (tf_Active f = true ∧ place horizon rs f = p) then 1 else 0 in
  count_flight horizon rs b f =
  count (n InApproachPlace) (n ReservedPlace) (n IncomingPlace)
    (if decide (tf_Active f = true ∧ tf_Unknown f = true) then 1 else 0) b.
Proof.
  unfold count_flight, place, countedReservation, not_nil, is_nil, opt_test. destruct (tf_Active f); simpl.
  2: { unfold count. destruct b; simpl. f_equal; lia. }
  destruct (rs !! tf_Callsign f) as [r|]; [destruct (ar_ReleasedAt r); [|destruct (after (ar_ReleaseAt r) horizon)]|];
    destruct (tf_InApproach f), (tf_Incoming f), (tf_Unknown f); simpl;
    unfold count; destruct b; simpl; f_equal; lia.
Qed.

Lemma count_flights_places horizon rs b l :
  foldl (count_flight horizon rs) b l =
  count (in_place horizon rs InApproachPlace l) (in_place horizon rs ReservedPlace l) (in_place horizon rs IncomingPlace l)
    (unknown_traffic l) b.
Proof.
  revert b. induction l as [|f l IH]; intros b.
  { unfold count. destruct b; simpl. f_equal; unfold in_place, unknown_traffic; simpl; lia. }
  cbn [foldl]. rewrite IH, count_flight_place, !in_place_cons, unknown_traffic_cons. unfold count. simpl. f_equal; lia.
Qed.

Lemma unknown_traffic_none l f : unknown_traffic l = 0 → f ∈ l → tf_Active f = true → tf_Unknown f = false.
Proof.
  unfold unknown_traffic. intros Hn Hf Ha. destruct (tf_Unknown f) eqn:E; [|done]. exfalso.
  assert (Hin : f ∈ filter (λ f, tf_Active f = true ∧ tf_Unknown f = true) l) by (by apply list_elem_of_filter).
  destruct (filter _ l) as [|g k]; [by apply elem_of_nil in Hin|simpl in Hn; lia].
Qed.

(** *** The accepted reservations *)

Definition initial (now : Time) (f : Traffic) : option ApproachReleaseReservation :=
  if tf_Active f then accepted now f else None.

Lemma accept_other now l rs c : (c ∉ tf_Callsign <$> l) → foldl (accept now) rs l !! c = rs !! c.
Proof.
  revert rs. induction l as [|g l IH]; intros rs Hc; [done|]. rewrite fmap_cons, not_elem_of_cons in Hc. destruct Hc as [Hg Hl].
  cbn [foldl]. rewrite IH by done. unfold accept. destruct (tf_Active g); [|done]. simpl.
  destruct (accepted now g); [by rewrite lookup_insert_ne|done].
Qed.

Lemma accept_lookup now l f : NoDup (tf_Callsign <$> l) → f ∈ l → foldl (accept now) ∅ l !! tf_Callsign f = initial now f.
Proof.
  intros Hnd (l1 & l2 & ->)%list_elem_of_split. rewrite fmap_app, fmap_cons in Hnd.
  apply NoDup_app in Hnd as (_ & H1 & [H2 _]%NoDup_cons).
  assert (H1' : tf_Callsign f ∉ tf_Callsign <$> l1) by (intros Hc; apply (H1 _ Hc); left).
  rewrite foldl_app. cbn [foldl]. rewrite accept_other by done. unfold accept at 1, initial.
  destruct (tf_Active f); simpl; [destruct (accepted now f); [apply lookup_insert_eq|]|]; rewrite accept_other by done; apply lookup_empty.
Qed.

(** The facts handed to the planner: aircraft are told apart by their callsign,
    and a release is observed only once it was due. *)
Record plan_facts (input : ReleaseInput) : Prop := {
  pf_now : 0 ≤ ns (pi_At input);
  pf_callsigns : NoDup (tf_Callsign <$> pi_Traffic input);
  pf_released : ∀ f r, f ∈ pi_Traffic input → tf_Reservation f = Some r →
    tf_Released f = true ∨ is_Some (ar_ReleasedAt r) → ns (ar_ReleaseAt r) ≤ ns (pi_At input)
}.

Lemma plan_traffic_elem input f : f ∈ plan_traffic input ↔ ∃ f0, f0 ∈ pi_Traffic input ∧ f = sort_spacing f0.
Proof. rewrite plan_traffic_perm, list_elem_of_fmap. naive_solver. Qed.

Lemma initial_released input f r :
  plan_facts input → f ∈ plan_traffic input → initial (pi_At input) f = Some r → is_Some (ar_ReleasedAt r) →
  ns (ar_ReleaseAt r) ≤ ns (pi_At input).
Proof.
  intros Hf (f0 & Hin & ->)%plan_traffic_elem. unfold initial, accepted. simpl.
  destruct (tf_Active f0); [|done]. destruct (tf_Reservation f0) as [r0|] eqn:Er; [|done].
  pose proof (pf_released _ Hf f0 r0 Hin Er) as Hr. destruct (_ && _); [done|].
  destruct (tf_Released f0 && _) eqn:E; intros [= <-] Hs; [|by apply Hr; right]. bsplit. simpl. apply Hr. by left.
Qed.

Lemma plan_unique input f g :
  plan_facts input → f ∈ plan_traffic input → g ∈ plan_traffic input → tf_Callsign f = tf_Callsign g → f = g.
Proof.
  intros Hf Hin Hin' E. pose proof (pf_callsigns _ Hf) as Hnd. rewrite <-plan_traffic_callsigns in Hnd.
  apply list_elem_of_lookup in Hin as [i Hi], Hin' as [j Hj].
  assert (i = j) as <-; [|congruence]. eapply NoDup_lookup; [exact Hnd|..]; rewrite list_lookup_fmap.
  - by rewrite Hi.
  - by rewrite Hj, E.
Qed.

(** The state after revalidation, in terms of the facts. *)
Record revalidated_start (input : ReleaseInput) (v : revalidation) : Prop := {
  rs_start : plan_start input = Ok v;
  rs_moved : ∀ f, f ∈ plan_traffic input →
    rv_reservations v !! tf_Callsign f = initial (pi_At input) f ∨
    ∃ r r', initial (pi_At input) f = Some r ∧ rv_reservations v !! tf_Callsign f = Some r' ∧ postponed (pi_At input) f r r';
  rs_due : released_due (pi_At input) (rv_reservations v);
  rs_spaced : rv_reason v = ""%string →
    (∀ f r, f ∈ plan_traffic input → initial (pi_At input) f = Some r → irrevocable (pi_At input) r = true ∨ timing_known f = true) →
    stream_spaced (plan_traffic input) (rv_reservations v)
}.

Lemma plan_start_ok input : plan_facts input → ∃ v, revalidated_start input v.
Proof.
  intros Hf. pose proof (pf_callsigns _ Hf) as Hnd. rewrite <-plan_traffic_callsigns in Hnd.
  destruct (revalidate_ok (pi_At input) (plan_traffic input) (foldl (accept (pi_At input)) ∅ (plan_traffic input)) (pf_now _ Hf) Hnd)
    as (v & E & Hmoved & Hother & Hsp).
  assert (Hi : ∀ f, f ∈ plan_traffic input →
    foldl (accept (pi_At input)) ∅ (plan_traffic input) !! tf_Callsign f = initial (pi_At input) f) by (intros; by apply accept_lookup).
  assert (Hm : ∀ f, f ∈ plan_traffic input → rv_reservations v !! tf_Callsign f = initial (pi_At input) f ∨
    ∃ r r', initial (pi_At input) f = Some r ∧ rv_reservations v !! tf_Callsign f = Some r' ∧ postponed (pi_At input) f r r').
  { intros f Hin. rewrite <-(Hi f Hin). by apply Hmoved. }
  exists v. split; [done|done| |].
  - intros c r Hc Hr. destruct (decide (c ∈ tf_Callsign <$> plan_traffic input)) as [Hin|Hout].
    2: { rewrite Hother, accept_other in Hc by done. by rewrite lookup_empty in Hc. }
    apply list_elem_of_fmap in Hin as (f & -> & Hin). destruct (Hm f Hin) as [E'|(r0 & r' & _ & E' & Hp)]; rewrite Hc in E'.
    + by eapply initial_released.
    + injection E' as <-. destruct Hp as [[Hnone _]%irrevocable_false (t & -> & _)].
      destruct (repaired_fields f t r0) as (_ & Hrd & _). rewrite Hrd, Hnone in Hr. by destruct Hr.
  - intros Hr Ht. apply Hsp; [done|]. intros g Hg r. rewrite (Hi g Hg). by apply Ht.
Qed.

Lemma plan_outcome input :
  plan_facts input →
  ∃ v rs b, revalidated_start input v ∧
    plan_run input (rv_reservations v, start_buffer input v) (start_reason input v) (rs, b) ∧
    Plan input = Ok (mk_release_result b (decisions_of (plan_traffic input) rs)).
Proof.
  intros Hf. destruct (plan_start_ok input Hf) as [v Hv].
  destruct (plan_offers_ok input (rv_reservations v) (start_buffer input v) (start_reason input v) (pf_now _ Hf)) as (s & E & Hrun).
  exists v, (pl_reservations s), (pl_buffer s). split; [done|]. split; [done|]. unfold Plan.
  rewrite (rs_start _ _ Hv). cbn [mbind outcome_bind]. by rewrite E.
Qed.

Lemma decision_elem traffic rs c d :
  mk_release_decision c d ∈ decisions_of traffic rs ↔ ∃ f, f ∈ traffic ∧ c = tf_Callsign f ∧ d = rs !! tf_Callsign f.
Proof. unfold decisions_of. rewrite elem_of_sort_slice, list_elem_of_fmap. naive_solver. Qed.

(** The decision on a flight is its entry of the final map. *)
Lemma plan_decision input f d rs :
  plan_facts input → f ∈ plan_traffic input → mk_release_decision (tf_Callsign f) d ∈ decisions_of (plan_traffic input) rs →
  d = rs !! tf_Callsign f.
Proof. intros Hf Hin (g & Hg & E & ->)%decision_elem. by rewrite E. Qed.

Lemma policy_valid p :
  is_ok (ApproachReleasePolicy_Validate p) = true →
  0 < ap_TaperStart p < ap_TargetBuffer p ∧ 0 < ap_MaxAdvanceSeconds p ≤ 86400 ∧ 0 < ap_LookaheadSeconds p ≤ 3600.
Proof.
  intros H. assert (E : ApproachReleasePolicy_Validate p = Ok tt).
  { by destruct (ApproachReleasePolicy_Validate p) as [[]| | |]. }
  unfold ApproachReleasePolicy_Validate in E. apply bind_unit_iff in E as [E1%guard_err_iff E2%guard_err_iff]. bsplit.
  change (24 * Hour / Second) with 86400 in *. change (Hour / Second) with 3600 in *. zbool. lia.
Qed.

Lemma plan_window input policy :
  pi_Policy input = Some policy → plan_enabled input = true →
  ns (pi_At input) + dur_mul (ap_LookaheadSeconds policy) Second ≤ ns (plan_horizon input).
Proof.
  unfold plan_enabled, plan_horizon, plan_lookahead. intros ->. intros [_ Hv%policy_valid]%andb_true_iff.
  rewrite (proj2 (Z.ltb_lt _ _)) by lia. unfold time_add. cbn [ns]. lia.
Qed.

(** ** What the planner promises *)

(** The search for a release ends, at the earliest whole second from its
    start on at which the aircraft keeps, in the rate period then in force, its
    spacing behind every reservation of its stream. *)
Theorem earliestStreamRelease_correct start flight traffic rs busy :
  0 ≤ ns start →
  ∃ t, earliestStreamRelease start flight traffic rs busy = Ok t ∧
    least_from (λ t, whole_second t ∧ stream_clear flight traffic rs busy t) start t.
Proof. apply earliest_ok. Qed.

(** C31: Planning ends, and is a run of single offers from the revalidated
    reservations: every change it makes is an offer to the oldest aircraft of
    its streams, at the earliest clear second, before its slot and within the
    lookahead; while anything is unknown or blocked there is no offer. *)
Theorem Plan_refines_offers input :
  plan_facts input →
  ∃ v rs b, plan_start input = Ok v ∧
    plan_run input (rv_reservations v, start_buffer input v) (start_reason input v) (rs, b) ∧
    Plan input = Ok (mk_release_result b (decisions_of (plan_traffic input) rs)).
Proof. intros Hf. destruct (plan_outcome input Hf) as (v & rs & b & Hv & ? & ?). exists v, rs, b. split; [apply Hv|done]. Qed.

Lemma run_blocked input s reason s' :
  plan_run input s reason s' → rb_BlockedReasons s'.2 = rb_BlockedReasons s.2 ∧ rb_Unknown s'.2 = rb_Unknown s.2.
Proof.
  intros Hrun. eapply (plan_run_inv input (λ s', rb_BlockedReasons s'.2 = rb_BlockedReasons s.2 ∧ rb_Unknown s'.2 = rb_Unknown s.2)); [|exact Hrun|done].
  intros policy s1 s2 _ _ [rs b f at_ _] [H1 H2]. simpl in *. unfold reserve_counts.
  destruct (countedReservation _ _); simpl; (split; [done|lia]).
Qed.

(** When nothing is unknown, the timing of the future offers is known. *)
Lemma start_timed input v :
  (∀ f res, f ∈ pi_Traffic input → tf_Reservation f = Some res → irrevocable (pi_At input) res = false →
     0 < tf_Transit f ∧ is_zero (tf_EntryAt f) = false ∧ is_zero (tf_ReadyAt f) = false) →
  rb_Unknown (start_buffer input v) = 0 →
  ∀ f r, f ∈ plan_traffic input → initial (pi_At input) f = Some r →
    irrevocable (pi_At input) r = true ∨ timing_known f = true.
Proof.
  intros Ht Hu f r Hin Hr. destruct (irrevocable (pi_At input) r) eqn:Ei; [by left|right].
  assert (Hk : tf_Active f = true → tf_Unknown f = false).
  { destruct (start_counted input v) as [(_ & _ & _ & Hc) _ _]. rewrite Hu, count_flights_places in Hc. simpl in Hc.
    apply (unknown_traffic_none (plan_traffic input)); [|done].
    unfold unknown_traffic in *. destruct (pi_WorkloadUnknown input); lia. }
  apply plan_traffic_elem in Hin as (f0 & Hin & ->). unfold initial, accepted in Hr. simpl in *.
  destruct (tf_Active f0) eqn:Ea; [|done]. destruct (tf_Reservation f0) as [res|] eqn:Eres; [|done].
  destruct (_ && _) in Hr; [done|]. destruct (_ && _) in Hr; injection Hr as <-; [done|].
  destruct (Ht f0 res Hin Eres Ei) as (H1 & H2 & H3). unfold timing_known. simpl. rewrite Hk, H2, H3 by done.
  by rewrite (proj2 (Z.ltb_lt _ _)).
Qed.

(** C32: When the plan is neither blocked nor uncertain, any two aircraft of a stream that
    hold a release leave the hold their spacing apart: the one that follows keeps the
    spacing of its rate period and wake category. Every reservation for the future in
    the input must have a known timing - a positive transit, an entry time and a time
    of readiness: revalidation passes over reservations whose timing is unknown, which
    may lie closer together. The callsigns are unique and releases that were observed
    were due. *)
Theorem Plan_spaced input r :
  plan_facts input →
  (∀ f res, f ∈ pi_Traffic input → tf_Reservation f = Some res → irrevocable (pi_At input) res = false →
     0 < tf_Transit f ∧ is_zero (tf_EntryAt f) = false ∧ is_zero (tf_ReadyAt f) = false) →
  Plan input = Ok r → rb_BlockedReasons (rr_Buffer r) = [] → rb_Unknown (rr_Buffer r) = 0 →
  ∀ f g rf rg, f ∈ plan_traffic input → g ∈ plan_traffic input → tf_Callsign f ≠ tf_Callsign g → sharedStream f g = true →
    mk_release_decision (tf_Callsign f) (Some rf) ∈ rr_Decisions r →
    mk_release_decision (tf_Callsign g) (Some rg) ∈ rr_Decisions r →
    stream_behind f rf g rg ∨ stream_behind g rg f rf.
Proof.
  intros Hf Ht Hr Hb Hu. destruct (plan_outcome input Hf) as (v & rs & b & Hv & Hrun & E). rewrite Hr in E. injection E as ->.
  simpl in *. destruct (run_blocked _ _ _ _ Hrun) as [Hb' Hu']. simpl in *. rewrite Hb in Hb'. rewrite Hu in Hu'.
  assert (Hsp : stream_spaced (plan_traffic input) rs).
  { assert (Hs : released_due (pi_At input) rs ∧ stream_spaced (plan_traffic input) rs); [|by destruct Hs].
    apply (plan_run_inv input (λ s, released_due (pi_At input) s.1 ∧ stream_spaced (plan_traffic input) s.1) _ _ _ ) in Hrun; [done| |].
    - intros policy s1 s2 _ _ Ho [Hd Hs]. split; [by eapply offer_due|]. eapply offer_spaced; eauto. intros; by eapply plan_unique.
    - split; [apply Hv|]. apply (rs_spaced _ _ Hv); [by eapply start_unblocked|].
      by apply (start_timed input v). }
  intros f g rf rg Hin Hing Hne Hs Hdf Hdg. apply plan_decision in Hdf, Hdg; try done. by apply (Hsp f g).
Qed.

Lemma summary_valid input rs b :
  counted input rs b → 0 < rb_Target (initial_buffer input) → ReleaseBufferSummary_Validate b = Ok tt.
Proof.
  intros [Hc Ht Hs] Hpos. cbv zeta in Hc. rewrite count_flights_places in Hc. destruct Hc as (H1 & H2 & H3 & H4). simpl in *.
  unfold ReleaseBufferSummary_Validate. rewrite bind_unit_iff, !guard_err_iff. split.
  - rewrite <-!negb_orb. apply negb_false_iff. destruct Hs as [-> | [-> | ->]]; done.
  - rewrite !orb_false_iff, Z.leb_gt, !Z.ltb_ge. unfold in_place, unknown_traffic in *.
    destruct (pi_WorkloadUnknown input); lia.
Qed.

(** The start of offering counts as the code counts. *)
Lemma start_offering input v :
  offering input (start_buffer input v) (start_reason input v) = true →
  start_buffer input v =
  foldl (count_flight (plan_horizon input) (rv_reservations v)) (initial_buffer input) (plan_traffic input).
Proof.
  unfold offering. intros [[Hen Hu]%andb_true_iff Hr]%andb_true_iff. revert Hu. unfold start_buffer. fold (plan_horizon input).
  assert (Hv : str_empty (rv_reason v) = true).
  { unfold start_reason in Hr. destruct (str_empty (rv_reason v)) eqn:E; [done|]. by rewrite E in Hr. }
  rewrite Hv, Hr, Hen. simpl. rewrite orb_false_r. destruct (0 <? _) eqn:E; [|done]. simpl. zbool. lia.
Qed.

(** The summary counts the aircraft in front of the runway as the final
    reservations place them: in the approach, released within the lookahead,
    or about to enter, each active aircraft at most once. *)
Theorem Plan_counts input r :
  plan_facts input → Plan input = Ok r →
  ∃ rs, rr_Decisions r = decisions_of (plan_traffic input) rs ∧
    let n p := in_place (plan_horizon input) rs p (plan_traffic input) in
    rb_InApproach (rr_Buffer r) = n InApproachPlace ∧ rb_Reserved (rr_Buffer r) = n ReservedPlace ∧
    rb_Incoming (rr_Buffer r) = n IncomingPlace ∧
    Projected (rr_Buffer r) = n InApproachPlace + n ReservedPlace + n IncomingPlace ∧
    rb_Unknown (rr_Buffer r) = (if pi_WorkloadUnknown input then 1 else 0) + unknown_traffic (plan_traffic input) ∧
    (∀ p, pi_Policy input = Some p → 0 < ap_TargetBuffer p → ReleaseBufferSummary_Validate (rr_Buffer r) = Ok tt).
Proof.
  intros Hf Hr. destruct (plan_outcome input Hf) as (v & rs & b & Hv & Hrun & E). rewrite Hr in E. injection E as ->.
  exists rs. split; [done|]. simpl.
  assert (Hc : counted input rs b).
  { pose proof (start_counted input v) as Hstart. destruct (plan_run_cases _ _ _ _ Hrun) as [[= -> ->]|(policy & Hp & Hen & Hoff & Ho)]; [done|].
    pose proof (pf_callsigns _ Hf) as Hnd. rewrite <-plan_traffic_callsigns in Hnd.
    eapply (offers_count_ok _ _ _ _ _ Hnd (plan_window _ _ Hp Hen)) in Ho; [|apply Hv|by apply start_offering]. simpl in Ho.
    rewrite Ho. destruct (count_flight_keeps (plan_horizon input) rs (initial_buffer input) (plan_traffic input)) as (Hst & _ & Htg).
    split; [done|done|]. rewrite Hst. simpl. destruct (plan_enabled input); tauto. }
  pose proof (cd_counts _ _ _ Hc) as Hcounts. cbv zeta in Hcounts. rewrite count_flights_places in Hcounts.
  destruct Hcounts as (H1 & H2 & H3 & H4). simpl in *. unfold Projected. split_and!; try lia.
  intros p Hp Hpos. apply (summary_valid _ _ _ Hc). simpl. by rewrite Hp.
Qed.

(** *** Single decisions *)

(** With a buffer target far from the range of [int] the allowance is computed exactly. *)
Lemma Allowance_bounds p n :
  is_ok (ApproachReleasePolicy_Validate p) = true → ap_TargetBuffer p < 2^40 →
  0 ≤ Allowance p n ≤ ap_MaxAdvanceSeconds p * Second ∧ (ap_TargetBuffer p ≤ n → Allowance p n = 0).
Proof.
  intros Hv%policy_valid Ht. unfold Allowance. destruct (Z.leb_spec (ap_TargetBuffer p) n); [unfold Second; lia|].
  split; [|lia]. set (m := if _ <? _ then _ else _).
  assert (Hm : 0 ≤ m ≤ ap_MaxAdvanceSeconds p).
  { unfold m. destruct (Z.ltb_spec (ap_TaperStart p) n); [|lia]. unfold dur_mul, dur_div.
    assert (Hp : 0 ≤ ap_MaxAdvanceSeconds p * (ap_TargetBuffer p - n) ≤ ap_MaxAdvanceSeconds p * (ap_TargetBuffer p - ap_TaperStart p)) by nia.
    rewrite (wrap64_id (_ * _)) by (unfold in_int64; nia).
    rewrite Z.quot_div_nonneg by lia.
    assert (Hd : 0 ≤ ap_MaxAdvanceSeconds p * (ap_TargetBuffer p - n) / (ap_TargetBuffer p - ap_TaperStart p) ≤ ap_MaxAdvanceSeconds p).
    { split; [apply Z.div_pos; lia|]. apply Z.div_le_upper_bound; [lia|]. nia. }
    rewrite wrap64_id by (unfold in_int64; lia). done. }
  unfold dur_mul, Second. rewrite wrap64_id by (unfold in_int64; lia). lia.
Qed.

(** A release handed out at [now]. *)
Record granted (policy : ApproachReleasePolicy) (now : Time) (f : Traffic) (r : ApproachReleaseReservation) : Prop := {
  gr_eligible : tf_Active f = true ∧ tf_Eligible f = true ∧ tf_InApproach f = false;
  gr_reservation : r = new_release f (ar_ReleaseAt r);
  gr_second : whole_second (ar_ReleaseAt r);
  gr_ready : ns now ≤ ns (ar_ReleaseAt r) ∧ ns (tf_ReadyAt f) ≤ ns (ar_ReleaseAt r) ∧ ns (tf_EntryAt f) < ns (ar_ReleaseAt r);
  gr_window : ns (ar_ReleaseAt r) ≤ ns now + ap_LookaheadSeconds policy * Second;
  gr_advance : 0 ≤ ns (tf_BaselineReleaseAt f) - ns (ar_ReleaseAt r) ≤ ap_MaxAdvanceSeconds policy * Second;
  gr_additional : ar_AdditionalApproachTime r = ns (tf_BaselineReleaseAt f) - ns (ar_ReleaseAt r)
}.

Lemma offered_granted policy now horizon traffic s f at_ :
  is_ok (ApproachReleasePolicy_Validate policy) = true → ap_TargetBuffer policy < 2^40 →
  offered policy now horizon traffic s f at_ → granted policy now f (new_release f at_).
Proof.
  intros Hv Ht Ho. pose proof (of_earliest _ _ _ _ _ _ _ Ho) as ([Hw _] & Hge & _).
  pose proof (advance_start_bounds policy now (offer_count horizon s f) f) as (H1 & H2 & H3 & H4).
  pose proof (Allowance_bounds policy (offer_count horizon s f) Hv Ht) as [Ha _].
  pose proof (of_slot _ _ _ _ _ _ _ Ho) as Hs. pose proof (of_window _ _ _ _ _ _ _ Ho) as Hwin. apply policy_valid in Hv.
  assert (Hl : dur_mul (ap_LookaheadSeconds policy) Second = ap_LookaheadSeconds policy * Second).
  { unfold dur_mul, Second. rewrite wrap64_id; [done|unfold in_int64; lia]. }
  rewrite Hl in Hwin. split; cbn [new_release ar_ReleaseAt ar_AdditionalApproachTime]; try done; try lia.
  - apply (of_eligible _ _ _ _ _ _ _ Ho).
  - unfold time_sub. rewrite sat64_id; [done|]. unfold in_int64, Second in *. lia.
Qed.

(** The last offer to a flight, if there was one, and what it replaced. *)
Definition offer_of (policy : ApproachReleasePolicy) (now horizon : Time) (traffic : list Traffic) (rs0 : reservations)
    (f : Traffic) (d : option ApproachReleaseReservation) : Prop :=
  d = rs0 !! tf_Callsign f ∨
  ∃ at_ s, d = Some (new_release f at_) ∧ offered policy now horizon traffic s f at_ ∧
    ∀ r, rs0 !! tf_Callsign f = Some r → ns at_ < ns (ar_ReleaseAt r).

Lemma offers_of policy now horizon traffic rs0 s s' :
  (∀ f g, f ∈ traffic → g ∈ traffic → tf_Callsign f = tf_Callsign g → f = g) →
  rtc (offer policy now horizon traffic) s s' →
  (∀ f, f ∈ traffic → offer_of policy now horizon traffic rs0 f (s.1 !! tf_Callsign f)) →
  ∀ f, f ∈ traffic → offer_of policy now horizon traffic rs0 f (s'.1 !! tf_Callsign f).
Proof.
  intros Hu. induction 1 as [|s1 s2 s3 Hs _ IH]; [done|]. intros Hi. apply IH. intros f Hf.
  destruct Hs as [rs b g at_ Ho]. simpl in *. pose proof (of_in _ _ _ _ _ _ _ Ho) as Hg.
  destruct (decide (tf_Callsign g = tf_Callsign f)) as [E|Hne]; [|rewrite lookup_insert_ne by done; by apply Hi].
  apply Hu in E as <-; [|done..]. rewrite lookup_insert_eq. right. exists at_, (rs, b). split_and!; [done|done|].
  intros r Hr. destruct (Hi g Hf) as [E|(at' & s' & E & Ho' & Hlt)].
  - rewrite <-E in Hr. by apply (of_earlier _ _ _ _ _ _ _ Ho).
  - pose proof (of_earlier _ _ _ _ _ _ _ Ho _ E) as Hearly. simpl in Hearly. specialize (Hlt r Hr). lia.
Qed.

(** The final reservation of a flight: the revalidated one or a grant. *)
Lemma run_decision input v rs b f :
  plan_facts input → (∀ p, pi_Policy input = Some p → ap_TargetBuffer p < 2^40) →
  plan_run input (rv_reservations v, start_buffer input v) (start_reason input v) (rs, b) → f ∈ plan_traffic input →
  rs !! tf_Callsign f = rv_reservations v !! tf_Callsign f ∨
  ∃ p r1, pi_Policy input = Some p ∧ plan_enabled input = true ∧ rs !! tf_Callsign f = Some r1 ∧
    granted p (pi_At input) f r1 ∧ ∀ r, rv_reservations v !! tf_Callsign f = Some r → ns (ar_ReleaseAt r1) < ns (ar_ReleaseAt r).
Proof.
  intros Hf Ht [[= -> ->]|(p & Hp & Hen & _ & Hrun)]%plan_run_cases Hin; [by left|].
  assert (Hu : ∀ f g, f ∈ plan_traffic input → g ∈ plan_traffic input → tf_Callsign f = tf_Callsign g → f = g)
    by (intros; by eapply plan_unique).
  destruct (offers_of _ _ _ _ (rv_reservations v) _ _ Hu Hrun (λ _ _, or_introl eq_refl) f Hin) as [E|(at_ & s & E & Ho & Hlt)]; [by left|right].
  exists p, (new_release f at_). split_and!; [done..| |exact Hlt]. eapply offered_granted; [|by apply Ht|exact Ho].
  unfold plan_enabled in Hen. rewrite Hp in Hen. simpl in Hen. by apply andb_true_iff in Hen as [_ ?].
Qed.

(** Every decision either keeps the accepted reservation, or postpones a
    future one until its flight is ready, or grants a release, earlier than any
    it replaces, that lies after the entry and readiness of the aircraft, no
    later than its slot allows and at most the maximum advance before that. A
    release that is due or was observed is never moved. *)
Theorem Plan_decisions input r f d :
  plan_facts input → (∀ p, pi_Policy input = Some p → ap_TargetBuffer p < 2^40) → Plan input = Ok r →
  f ∈ plan_traffic input → mk_release_decision (tf_Callsign f) d ∈ rr_Decisions r →
  (d = initial (pi_At input) f ∨
   (∃ r0 r1, initial (pi_At input) f = Some r0 ∧ d = Some r1 ∧ postponed (pi_At input) f r0 r1) ∨
   (∃ p r1, pi_Policy input = Some p ∧ plan_enabled input = true ∧ d = Some r1 ∧ granted p (pi_At input) f r1)) ∧
  (∀ r0, initial (pi_At input) f = Some r0 → irrevocable (pi_At input) r0 = true → d = Some r0).
Proof.
  intros Hf Ht Hr Hin Hd. destruct (plan_outcome input Hf) as (v & rs & b & Hv & Hrun & E). rewrite Hr in E. injection E as ->.
  simpl in Hd. apply plan_decision in Hd; [|done..]. subst d.
  pose proof (rs_moved _ _ Hv f Hin) as Hm. destruct (run_decision _ _ _ _ _ Hf Ht Hrun Hin) as [Hk|(p & r1 & Hp & Hen & E & Hg & Hlt)].
  - rewrite Hk. destruct Hm as [-> |(r0 & r1 & Ei & -> & Hp)].
    + split; [by left|]. by intros r0 ->.
    + split; [right; left; by exists r0, r1|]. intros r Hr0 Hi. rewrite Ei in Hr0. injection Hr0 as ->. by destruct Hp as [Hp _]; rewrite Hi in Hp.
  - split; [right; right; by exists p, r1|]. intros r0 Hr0 Hi. exfalso. pose proof (gr_ready _ _ _ _ Hg) as [Hnow _].
    assert (Hdue : ns (ar_ReleaseAt r0) ≤ ns (pi_At input)).
    { destruct (ar_ReleasedAt r0) eqn:Erel; [eapply initial_released; eauto|]. unfold irrevocable, after in Hi. rewrite Erel in Hi.
      simpl in Hi. zbool. lia. }
    destruct Hm as [Em|(r & r' & Ei & _ & Hpost & _)].
    + rewrite Hr0 in Em. specialize (Hlt r0 Em). lia.
    + rewrite Hr0 in Ei. injection Ei as <-. by rewrite Hi in Hpost.
Qed.

(** *** Order within the streams *)

(** [g] waits longer in a stream of [f] and may itself be released, or is known
    to hold. *)
Definition senior (g f : Traffic) : Prop :=
  tf_Callsign g ≠ tf_Callsign f ∧ tf_Active g = true ∧ sharedStream g f = true ∧ ns (tf_EntryAt g) < ns (tf_EntryAt f) ∧
  (tf_Eligible g = true ∨ is_zero (tf_EntryAt g) = false).

Lemma senior_pending rs f g : senior g f → pending_before rs f g = false → is_Some (rs !! tf_Callsign g).
Proof.
  intros (Hne & Ha & Hs & He & Hel). unfold pending_before, before.
  rewrite (proj2 (str_eqb_neq _ _)), Ha, Hs, (proj2 (Z.ltb_lt _ _)) by done. simpl.
  assert (Hor : tf_Eligible g || negb (is_zero (tf_EntryAt g)) = true).
  { destruct Hel as [-> | ->]; [done|]. simpl. apply orb_true_r. }
  rewrite Hor, andb_true_r. destruct (rs !! tf_Callsign g); [by eexists|done].
Qed.

Section order.
Context (policy : ApproachReleasePolicy) (now horizon : Time) (traffic : list Traffic) (rs0 : reservations).
Hypothesis Hunique : ∀ f g, f ∈ traffic → g ∈ traffic → tf_Callsign f = tf_Callsign g → f = g.

(** Every flight that was newly given a release is behind its seniors. *)
Definition seniority (rs : reservations) : Prop :=
  ∀ f g rf, f ∈ traffic → g ∈ traffic → senior g f → rs0 !! tf_Callsign f = None → rs !! tf_Callsign f = Some rf →
    ∃ rg, rs !! tf_Callsign g = Some rg ∧ stream_behind f rf g rg.

Lemma offer_seniority s s' :
  offer policy now horizon traffic s s' → released_due now s.1 → seniority s.1 → seniority s'.1.
Proof using Hunique.
  intros [rs b h at_ Ho] Hd Hsen f g rf Hf Hg Hs Hnone Hrf. simpl in *. pose proof (of_in _ _ _ _ _ _ _ Ho) as Hh.
  pose proof Hs as (Hne & _ & Hshared & _ & _).
  destruct (decide (tf_Callsign h = tf_Callsign f)) as [E|Hhf].
  - apply Hunique in E as ->; [|done..]. rewrite lookup_insert_eq in Hrf. injection Hrf as <-.
    destruct (senior_pending rs f g Hs) as [rg Hrg]; [by apply (of_head _ _ _ _ _ _ _ Ho)|].
    exists rg. rewrite lookup_insert_ne by done. split; [done|].
    eapply (offered_behind _ _ _ _ (rs, b)); [exact Ho|done|done|by rewrite sharedStream_sym|done|].
    intros rf0 Hrf0. destruct (Hsen f g rf0) as (rg' & Hrg' & Hb); [done..|]. simpl in Hrf0.
    rewrite Hrg in Hrg'. injection Hrg' as <-. apply behind_le in Hb.
    destruct (offered_replaces _ _ _ _ _ _ _ _ Ho Hd Hrf0) as [El _]. rewrite El in Hb. pose proof (leadingAt_ge rg). lia.
  - rewrite lookup_insert_ne in Hrf by done. destruct (Hsen f g rf) as (rg & Hrg & Hb); [done..|].
    destruct (decide (tf_Callsign h = tf_Callsign g)) as [E|Hhg]; [|exists rg; by rewrite lookup_insert_ne].
    apply Hunique in E as ->; [|done..]. rewrite lookup_insert_eq. eexists. split; [done|].
    destruct (offered_replaces _ _ _ _ _ _ _ _ Ho Hd Hrg) as [_ Hlt].
    eapply behind_earlier; [|exact Hb]. change (leadingAt (new_release g at_)) with at_. lia.
Qed.
End order.

(** An aircraft is never released for the first time ahead of one that
    waits longer in its stream: that one holds a release too, and the new one
    keeps its spacing behind it. *)
Theorem Plan_seniority input r f g rf :
  plan_facts input → Plan input = Ok r → f ∈ plan_traffic input → g ∈ plan_traffic input → senior g f →
  initial (pi_At input) f = None → mk_release_decision (tf_Callsign f) (Some rf) ∈ rr_Decisions r →
  ∃ rg, mk_release_decision (tf_Callsign g) (Some rg) ∈ rr_Decisions r ∧ stream_behind f rf g rg.
Proof.
  intros Hf Hr Hin Hing Hs Hnone Hd. destruct (plan_outcome input Hf) as (v & rs & b & Hv & Hrun & E). rewrite Hr in E.
  injection E as ->. simpl in *. apply plan_decision in Hd; [|done..].
  assert (Hsen : released_due (pi_At input) rs ∧ seniority (plan_traffic input) (rv_reservations v) rs).
  { apply (plan_run_inv input (λ s, released_due (pi_At input) s.1 ∧ seniority (plan_traffic input) (rv_reservations v) s.1)) in Hrun;
      [done| |].
    - intros policy s1 s2 _ _ Ho [Hdue Hsn]. split; [by eapply offer_due|].
      eapply offer_seniority; eauto. intros; by eapply plan_unique.
    - split; [apply Hv|]. intros x y rx _ _ _ Hx Hx'. simpl in Hx'. by rewrite Hx in Hx'. }
  destruct Hsen as [_ Hsen]. destruct (Hsen f g rf) as (rg & Hrg & Hb); try done.
  - destruct (rs_moved _ _ Hv f Hin) as [-> |(r0 & r1 & Ei & _)]; [done|by rewrite Hnone in Ei].
  - exists rg. split; [|done]. apply decision_elem. by exists g.
Qed.

(** *** Order of the input *)

Lemma traffic_less_asym a b : traffic_less a b = true → traffic_less b a = false.
Proof.
  unfold traffic_less, time_eqb, before. rewrite (Z.eqb_sym (ns (tf_ReadyAt b))), (Z.eqb_sym (ns (tf_EntryAt b))).
  destruct (Z.eqb_spec (ns (tf_ReadyAt a)) (ns (tf_ReadyAt b))); simpl; [|intros; zbool; lia].
  destruct (Z.eqb_spec (ns (tf_EntryAt a)) (ns (tf_EntryAt b))); simpl; [|intros; zbool; lia]. apply str_ltb_asym.
Qed.

Lemma traffic_less_false a b :
  traffic_less b a = false ↔
    ns (tf_ReadyAt a) < ns (tf_ReadyAt b) ∨ ns (tf_ReadyAt a) = ns (tf_ReadyAt b) ∧
      (ns (tf_EntryAt a) < ns (tf_EntryAt b) ∨ ns (tf_EntryAt a) = ns (tf_EntryAt b) ∧ str_ltb (tf_Callsign b) (tf_Callsign a) = false).
Proof.
  unfold traffic_less, time_eqb, before.
  destruct (Z.eqb_spec (ns (tf_ReadyAt b)) (ns (tf_ReadyAt a))); simpl; [|rewrite Z.ltb_ge; lia].
  destruct (Z.eqb_spec (ns (tf_EntryAt b)) (ns (tf_EntryAt a))); simpl; [naive_solver lia|rewrite Z.ltb_ge; lia].
Qed.

Lemma traffic_less_trans a b c : traffic_less b a = false → traffic_less c b = false → traffic_less c a = false.
Proof.
  rewrite !traffic_less_false. pose proof (str_ltb_false_trans (tf_Callsign a) (tf_Callsign b) (tf_Callsign c)).
  intros [?|[? [?|[? ?]]]] [?|[? [?|[? ?]]]]; try (left; lia); right; (split; [lia|]); try (left; lia). right. split; [lia|auto].
Qed.

(** The plan does not depend on the order in which the traffic is given. *)
Theorem Plan_order_independent input input' :
  NoDup (tf_Callsign <$> pi_Traffic input) → pi_Traffic input ≡ₚ pi_Traffic input' →
  pi_WorkloadUnknown input = pi_WorkloadUnknown input' → pi_BlockedReason input = pi_BlockedReason input' →
  pi_At input = pi_At input' → pi_Policy input = pi_Policy input' → Plan input = Plan input'.
Proof.
  intros Hnd Hp. destruct input as [w r now p traffic], input' as [w' r' now' p' traffic']. simpl in *. intros -> -> -> ->.
  assert (Ht : plan_traffic (mk_release_input w' r' now' p' traffic) = plan_traffic (mk_release_input w' r' now' p' traffic')).
  { unfold plan_traffic. simpl. apply sort_slice_unique; [apply traffic_less_asym|apply traffic_less_trans| |by rewrite Hp].
    intros a b (a0 & -> & Ha)%list_elem_of_fmap (b0 & -> & Hb)%list_elem_of_fmap H1 H2.
    apply traffic_less_false in H1, H2. simpl in *. assert (E : tf_Callsign a0 = tf_Callsign b0).
    { symmetry. apply str_ltb_total; naive_solver lia. }
    apply list_elem_of_lookup in Ha as [i Hi], Hb as [j Hj].
    assert (i = j) as <-; [|congruence]. eapply NoDup_lookup; [exact Hnd|..]; rewrite list_lookup_fmap; [by rewrite Hi|by rewrite Hj, E]. }
  unfold Plan, plan_start, plan_offers, start_buffer. by rewrite Ht.
Qed.

(** ** Instances *)

Definition clock_s (s : Z) : Time := mk_time (s * Second) true.

(** Noon; three aircraft hold, the first two in one stream. *)
Definition ex_noon : Time := clock_s 43200.

Definition ex_release_policy : ApproachReleasePolicy := mk_release_policy true 10 6 600 120.

Definition ex_held (callsign stream : string) (entry baseline : Z) (res : option ApproachReleaseReservation) : Traffic :=
  mk_traffic zero_time [mk_stream_spacing (clock_s 0) (90 * Second) (180 * Second)] false "M" callsign true true false
    false false false callsign stream stream stream "geometry" "22L" (clock_s entry) ex_noon (clock_s baseline)
    (clock_s (baseline + 720)) (12 * Minute) (90 * Second) (180 * Second) res.

(** The third one was due at 11:59 and has not left yet. *)
Definition ex_due : ApproachReleaseReservation :=
  mk_release "SAS3" "ROSBI" "ROSBI" "ROSBI" "22L" (clock_s 42600) (clock_s 43140) None (12 * Minute) 0 "geometry" PolicyVersion.

Definition ex_traffic : list Traffic :=
  [ex_held "SAS2" "LUGAS" 43170 43290 None; ex_held "SAS1" "LUGAS" 43140 43260 None;
   ex_held "SAS3" "ROSBI" 42600 43140 (Some ex_due)].

Definition ex_release_input : ReleaseInput := mk_release_input false "" ex_noon (Some ex_release_policy) ex_traffic.

(** [SAS1] leaves at once, [SAS2] behind it. *)
Definition ex_plan_result : ReleaseResult :=
  mk_release_result (mk_buffer [] "ready" 10 0 3 0 0)
    [mk_release_decision "SAS1" (Some (new_release (sort_spacing (ex_held "SAS1" "LUGAS" 43140 43260 None)) ex_noon));
     mk_release_decision "SAS2" (Some (new_release (sort_spacing (ex_held "SAS2" "LUGAS" 43170 43290 None)) (clock_s 43290)));
     mk_release_decision "SAS3" (Some ex_due)].

Lemma ex_plan : Plan ex_release_input = Ok ex_plan_result.
Proof. vm_compute. reflexivity. Qed.

Lemma ex_facts : plan_facts ex_release_input.
Proof.
  split; [done|by apply (bool_decide_unpack _); vm_compute|].
  intros f r Hin. change (f ∈ ex_traffic) in Hin. unfold ex_traffic in Hin. rewrite !elem_of_cons, elem_of_nil in Hin. destruct Hin as [-> | [-> | [-> |[]]]]; intros [= <-]; by intros _.
Qed.

Lemma earliestStreamRelease_correct_witness :
  let flight := ex_held "SAS2" "LUGAS" 43170 43290 None in
  let first := ex_held "SAS1" "LUGAS" 43140 43260 None in
  let rs : reservations := {["SAS1"%string := new_release first ex_noon]} in
  ∃ t, earliestStreamRelease ex_noon flight [first] rs false = Ok t ∧
    least_from (λ t, whole_second t ∧ stream_clear flight [first] rs false t) ex_noon t.
Proof. intros flight first rs. apply (earliestStreamRelease_correct ex_noon flight [first] rs false). done. Defined.

Lemma Plan_refines_offers_witness :
  ∃ v rs b, plan_start ex_release_input = Ok v ∧
    plan_run ex_release_input (rv_reservations v, start_buffer ex_release_input v) (start_reason ex_release_input v) (rs, b) ∧
    Plan ex_release_input = Ok (mk_release_result b (decisions_of (plan_traffic ex_release_input) rs)).
Proof. apply (Plan_refines_offers ex_release_input), ex_facts. Defined.

Lemma ex_timing f res :
  f ∈ pi_Traffic ex_release_input → tf_Reservation f = Some res → irrevocable ex_noon res = false →
  0 < tf_Transit f ∧ is_zero (tf_EntryAt f) = false ∧ is_zero (tf_ReadyAt f) = false.
Proof. intros Hin _ _. change (f ∈ ex_traffic) in Hin. unfold ex_traffic in Hin. rewrite !elem_of_cons, elem_of_nil in Hin. by destruct Hin as [-> | [-> | [-> |[]]]]. Qed.

Lemma ex_elem f : f ∈ sort_spacing <$> ex_traffic → f ∈ plan_traffic ex_release_input.
Proof. by rewrite plan_traffic_perm. Qed.

Lemma Plan_spaced_witness :
  let f := sort_spacing (ex_held "SAS2" "LUGAS" 43170 43290 None) in
  let g := sort_spacing (ex_held "SAS1" "LUGAS" 43140 43260 None) in
  stream_behind f (new_release f (clock_s 43290)) g (new_release g ex_noon) ∨
  stream_behind g (new_release g ex_noon) f (new_release f (clock_s 43290)).
Proof.
  intros f g. apply (Plan_spaced ex_release_input ex_plan_result ex_facts ex_timing ex_plan);
    [done|done|apply ex_elem; left|apply ex_elem; right; left|done|done|right; left|left].
Defined.

Lemma Plan_counts_witness :
  ∃ rs, rr_Decisions ex_plan_result = decisions_of (plan_traffic ex_release_input) rs ∧
    let n p := in_place (plan_horizon ex_release_input) rs p (plan_traffic ex_release_input) in
    rb_InApproach (rr_Buffer ex_plan_result) = n InApproachPlace ∧ rb_Reserved (rr_Buffer ex_plan_result) = n ReservedPlace ∧
    rb_Incoming (rr_Buffer ex_plan_result) = n IncomingPlace ∧
    Projected (rr_Buffer ex_plan_result) = n InApproachPlace + n ReservedPlace + n IncomingPlace ∧
    rb_Unknown (rr_Buffer ex_plan_result) = (if pi_WorkloadUnknown ex_release_input then 1 else 0) + unknown_traffic (plan_traffic ex_release_input) ∧
    (∀ p, pi_Policy ex_release_input = Some p → 0 < ap_TargetBuffer p → ReleaseBufferSummary_Validate (rr_Buffer ex_plan_result) = Ok tt).
Proof. apply (Plan_counts ex_release_input ex_plan_result ex_facts ex_plan). Defined.

Lemma ex_target p : pi_Policy ex_release_input = Some p → ap_TargetBuffer p < 2^40.
Proof. by intros [= <-]. Qed.

Lemma Plan_decisions_witness :
  let f := sort_spacing (ex_held "SAS2" "LUGAS" 43170 43290 None) in
  ∃ p r1, pi_Policy ex_release_input = Some p ∧ Some (new_release f (clock_s 43290)) = Some r1 ∧ granted p ex_noon f r1.
Proof.
  intros f. assert (Hf : f ∈ plan_traffic ex_release_input) by (apply ex_elem; left).
  destruct (Plan_decisions ex_release_input ex_plan_result f (Some (new_release f (clock_s 43290))) ex_facts ex_target ex_plan Hf) as [[H|[H|H]] _];
    [right; left|..].
  - discriminate H.
  - destruct H as (r0 & r1 & H & _). discriminate H.
  - destruct H as (p & r1 & Hp & _ & E & Hg). exists p, r1. exact (conj Hp (conj E Hg)).
Defined.

Lemma Plan_seniority_witness :
  let f := sort_spacing (ex_held "SAS2" "LUGAS" 43170 43290 None) in
  let g := sort_spacing (ex_held "SAS1" "LUGAS" 43140 43260 None) in
  ∃ rg, mk_release_decision "SAS1" (Some rg) ∈ rr_Decisions ex_plan_result ∧ stream_behind f (new_release f (clock_s 43290)) g rg.
Proof.
  intros f g. apply (Plan_seniority ex_release_input ex_plan_result f g (new_release f (clock_s 43290)) ex_facts ex_plan);
    [apply ex_elem; left|apply ex_elem; right; left|by split_and!; [..|left]|done|right; left].
Defined.

Lemma Plan_order_independent_witness :
  Plan ex_release_input = Plan (mk_release_input false "" ex_noon (Some ex_release_policy) (reverse ex_traffic)).
Proof.
  apply (Plan_order_independent ex_release_input); [by apply (bool_decide_unpack _); vm_compute|simpl|done..].
  by rewrite reverse_Permutation.
Defined.
