(* ===== verification/GoFloat.v ===== *)
(** * Go's [float64], finite values

    A finite [float64] is the rational number it stands for. An operation is the
    exact one followed by [fl], which rounds to 53 significant bits, to the even
    neighbour on a tie, as IEEE 754 binary64 does as long as the result neither
    overflows nor falls below the normal range; the code that is modelled here
    divides and adds numbers of minutes. Zeros are not signed and there are no
    infinities and no NaN. The lemmas bound the rounding error. *)

From S2P Require Import Prelude GoTime.
From Stdlib Require Import QArith Qabs Lqa.

Local Open Scope Z_scope.

(** ** Rounding *)

(** [N / D] rounded to the nearest integer, to the even one on a tie. *)
Definition round_half_even (N D : Z) : Z :=
  let q := N / D in
  let r := N mod D in
  if 2 * r <? D then q else if D <? 2 * r then q + 1 else if Z.even q then q else q + 1.

(** The exponent [e] with [2^e <= n / d < 2^(e+1)], for positive [n] and [d]. *)
Definition ilog (n d : Z) : Z :=
  let e := Z.log2 n - Z.log2 d in
  if n * 2 ^ Z.max 0 (- e) <? d * 2 ^ Z.max 0 e then e - 1 else e.

Definition fl_pos (n d : Z) : Q :=
  let u := ilog n d - 52 in
  let E := 2 ^ Z.max 0 (- u) in
  let U := 2 ^ Z.max 0 u in
  Qmake (round_half_even (n * E) (d * U) * U) (Z.to_pos E).

Definition fl (q : Q) : Q :=
  match Qnum q with
  | Z0 => 0%Q
  | Zpos n => fl_pos (Zpos n) (Zpos (Qden q))
  | Zneg n => Qopp (fl_pos (Zpos n) (Zpos (Qden q)))
  end.

(** ** The type and its operations *)

Definition float64 : Type := Q.

(** [float64(n)] of an integer *)
Definition float_of_int (n : Z) : float64 := fl (inject_Z n).
Definition fadd (a b : float64) : float64 := fl (Qplus a b).
Definition fsub (a b : float64) : float64 := fl (Qminus a b).
Definition fmul (a b : float64) : float64 := fl (Qmult a b).
Definition fdiv (a b : float64) : float64 := fl (Qdiv a b).
Definition fneg (a : float64) : float64 := Qopp a.
(** [math.Abs] *)
Definition fabs (a : float64) : float64 := Qabs a.
Definition fle (a b : float64) : bool := Qle_bool a b.
Definition flt (a b : float64) : bool := negb (Qle_bool b a).
(** [int(math.Round(a))]: halves away from zero, within the integers *)
Definition round_to_int (a : float64) : Z :=
  let n := Qnum a in
  let d := Zpos (Qden a) in
  Z.sgn n * ((2 * Z.abs n + d) / (2 * d)).

(** ** The error of a rounding *)

Lemma pow2_pos k : 0 < 2 ^ Z.max 0 k.
Proof. apply Z.pow_pos_nonneg; lia. Qed.

Lemma round_half_even_error N D : 0 < D → 2 * Z.abs (round_half_even N D * D - N) ≤ D.
Proof.
  intros HD. unfold round_half_even. pose proof (Z.mod_pos_bound N D HD). pose proof (Z.div_mod N D ltac:(lia)).
  destruct (Z.ltb_spec (2 * (N mod D)) D); [|destruct (Z.ltb_spec D (2 * (N mod D))); [|destruct (Z.even (N / D))]]; nia.
Qed.

Lemma round_half_even_exact q D : 0 < D → round_half_even (q * D) D = q.
Proof.
  intros HD. unfold round_half_even. rewrite Z.mod_mul, Z.div_mul by lia.
  by destruct (Z.ltb_spec (2 * 0) D); [|lia].
Qed.

(** Powers of two of opposite exponents differ by their quotient. *)
Lemma pow2_split e k : 0 ≤ k → 2 ^ Z.max 0 (e + k) * 2 ^ Z.max 0 (- e) = 2 ^ k * (2 ^ Z.max 0 e * 2 ^ Z.max 0 (- (e + k))).
Proof.
  intros. rewrite <-!Z.pow_add_r by lia. f_equal. lia.
Qed.

Lemma ilog_lower n d : 0 < n → 0 < d → d * 2 ^ Z.max 0 (ilog n d) ≤ n * 2 ^ Z.max 0 (- ilog n d).
Proof.
  intros Hn Hd. unfold ilog. set (e := Z.log2 n - Z.log2 d).
  destruct (Z.ltb_spec (n * 2 ^ Z.max 0 (- e)) (d * 2 ^ Z.max 0 e)) as [H|H]; [|done].
  pose proof (Z.log2_spec n Hn) as [Hn1 Hn2]. pose proof (Z.log2_spec d Hd) as [Hd1 Hd2].
  pose proof (Z.log2_nonneg n). pose proof (Z.log2_nonneg d).
  assert (E : 2 ^ Z.succ (Z.log2 d) * 2 ^ Z.max 0 (e - 1) = 2 ^ Z.log2 n * 2 ^ Z.max 0 (- (e - 1))).
  { rewrite <-!Z.pow_add_r by lia. f_equal. subst e. lia. }
  pose proof (pow2_pos (e - 1)). pose proof (pow2_pos (- (e - 1))). nia.
Qed.

Lemma fl_pos_error n d M E :
  0 < n → 0 < d → fl_pos n d = Qmake M E → 2 ^ 53 * Z.abs (M * d - n * Zpos E) ≤ n * Zpos E.
Proof.
  intros Hn Hd [= <- <-]. set (u := ilog n d - 52). rewrite Z2Pos.id by apply pow2_pos.
  pose proof (pow2_pos u) as HU. pose proof (pow2_pos (- u)) as HE.
  pose proof (round_half_even_error (n * 2 ^ Z.max 0 (- u)) (d * 2 ^ Z.max 0 u) ltac:(nia)) as Hr.
  pose proof (ilog_lower n d Hn Hd) as Hl. pose proof (pow2_split u 52 ltac:(lia)) as Hs.
  replace (u + 52) with (ilog n d) in Hs by (subst u; lia). pose proof (pow2_pos (- ilog n d)).
  assert (Hb : 2 ^ 52 * (d * 2 ^ Z.max 0 u) ≤ n * 2 ^ Z.max 0 (- u)) by nia.
  replace (round_half_even (n * 2 ^ Z.max 0 (- u)) (d * 2 ^ Z.max 0 u) * 2 ^ Z.max 0 u * d)
    with (round_half_even (n * 2 ^ Z.max 0 (- u)) (d * 2 ^ Z.max 0 u) * (d * 2 ^ Z.max 0 u)) by ring.
  lia.
Qed.

(** The standard model: the relative error of a rounding is at most 2^-53. *)
Lemma fl_error q : (Qabs (fl q - q) <= Qabs q * (1 # 2 ^ 53))%Q.
Proof.
  assert (H : ∀ n d, (Qabs (fl_pos (Zpos n) (Zpos d) - (Zpos n # d)) <= (Zpos n # d) * (1 # 2 ^ 53))%Q).
  { intros n d. destruct (fl_pos (Zpos n) (Zpos d)) as [M E] eqn:EM.
    apply fl_pos_error in EM; [|lia..]. unfold Qle, Qabs, Qminus, Qopp, Qplus, Qmult. cbn -[Z.pow Pos.pow Z.mul Pos.mul].
    rewrite !Pos2Z.inj_mul, Pos2Z.inj_pow. change (2 ^ 53) with (Zpos 2 ^ Zpos 53) in EM.
    change (Z.neg d) with (- Zpos d) in *.
    replace (M * Zpos d + - Zpos n * Zpos E) with (M * Zpos d - Zpos n * Zpos E) by ring. nia. }
  destruct q as [[|n|n] d]; unfold fl; simpl Qnum; simpl Qden.
  - unfold Qle. simpl. lia.
  - exact (H n d).
  - specialize (H n d). change (Zneg n # d) with (Qopp (Zpos n # d)).
    rewrite Qabs_opp. rewrite (Qabs_pos (Zpos n # d)) by discriminate.
    rewrite <-(Qabs_opp (fl_pos (Zpos n) (Zpos d) - (Zpos n # d))) in H.
    assert (E : (- fl_pos (Zpos n) (Zpos d) - - (Zpos n # d) == - (fl_pos (Zpos n) (Zpos d) - (Zpos n # d)))%Q) by ring.
    rewrite E. exact H.
Qed.

(** Integers below 2^53 are represented exactly. *)
Lemma ilog_upper n d : 0 < n → 0 < d → n * 2 ^ Z.max 0 (- (ilog n d + 1)) < d * 2 ^ Z.max 0 (ilog n d + 1).
Proof.
  intros Hn Hd. unfold ilog. set (e := Z.log2 n - Z.log2 d).
  destruct (Z.ltb_spec (n * 2 ^ Z.max 0 (- e)) (d * 2 ^ Z.max 0 e)) as [H|H].
  { by replace (e - 1 + 1) with e by lia. }
  pose proof (Z.log2_spec n Hn) as [Hn1 Hn2]. pose proof (Z.log2_spec d Hd) as [Hd1 Hd2].
  pose proof (Z.log2_nonneg n). pose proof (Z.log2_nonneg d).
  assert (E : 2 ^ Z.succ (Z.log2 n) * 2 ^ Z.max 0 (- (e + 1)) = 2 ^ Z.log2 d * 2 ^ Z.max 0 (e + 1)).
  { rewrite <-!Z.pow_add_r by lia. f_equal. subst e. lia. }
  pose proof (pow2_pos (e + 1)). pose proof (pow2_pos (- (e + 1))). nia.
Qed.

Lemma fl_pos_exact z d : 0 < z < 2 ^ 53 → 0 < d → (fl_pos (z * d) d == inject_Z z)%Q.
Proof.
  intros Hz Hd. unfold fl_pos. set (l := ilog (z * d) d). pose proof (ilog_lower (z * d) d ltac:(nia) Hd) as Hl. fold l in Hl.
  assert (Hu : l ≤ 52).
  { destruct (Z.le_gt_cases l 52) as [|Hgt]; [done|exfalso]. rewrite (Z.max_l 0 (- l)), (Z.max_r 0 l) in Hl by lia.
    pose proof (Z.pow_le_mono_r 2 53 l ltac:(lia) ltac:(lia)). nia. }
  rewrite (Z.max_l 0 (l - 52)) by lia. rewrite Z.pow_0_r, !Z.mul_1_r.
  replace (z * d * 2 ^ Z.max 0 (- (l - 52))) with (z * 2 ^ Z.max 0 (- (l - 52)) * d) by ring.
  rewrite round_half_even_exact by done. unfold Qeq. simpl. rewrite Z2Pos.id by apply pow2_pos. lia.
Qed.

Lemma fl_integer q z : Z.abs z < 2 ^ 53 → (q == inject_Z z)%Q → (fl q == inject_Z z)%Q.
Proof.
  destruct q as [m d]. intros Hz Hq. unfold Qeq in Hq. simpl in Hq. rewrite Z.mul_1_r in Hq. subst m.
  unfold fl. cbn [Qnum Qden]. destruct (z * Zpos d) as [|n|n] eqn:E.
  - assert (z = 0) as -> by nia. done.
  - rewrite <-E. apply fl_pos_exact; nia.
  - change (Zpos n) with (- Zneg n). rewrite <-E, <-Z.mul_opp_l. rewrite fl_pos_exact by nia. unfold Qeq. simpl. lia.
Qed.

Lemma float_of_int_exact n : Z.abs n < 2 ^ 53 → (float_of_int n == inject_Z n)%Q.
Proof. intros. by apply fl_integer. Qed.

Lemma fle_iff a b : fle a b = true ↔ (a <= b)%Q.
Proof. apply Qle_bool_iff. Qed.

Lemma flt_iff a b : flt a b = true ↔ (a < b)%Q.
Proof.
  unfold flt. rewrite negb_true_iff, <-not_true_iff_false, Qle_bool_iff. split; [apply Qnot_le_lt|apply Qlt_not_le].
Qed.

Lemma flt_false a b : flt a b = false ↔ (b <= a)%Q.
Proof. unfold flt. by rewrite negb_false_iff, Qle_bool_iff. Qed.

Lemma fle_false a b : fle a b = false ↔ (b < a)%Q.
Proof. rewrite <-not_true_iff_false, fle_iff. split; [apply Qnot_le_lt|apply Qlt_not_le]. Qed.

#[export] Instance flt_proper : Proper (Qeq ==> Qeq ==> eq) flt.
Proof. intros a b E c d E'. unfold flt. by rewrite E, E'. Qed.

#[export] Instance fle_proper : Proper (Qeq ==> Qeq ==> eq) fle.
Proof. intros a b E c d E'. unfold fle. by rewrite E, E'. Qed.

Lemma round_to_int_integer q z : (q == inject_Z z)%Q → round_to_int q = z.
Proof.
  destruct q as [n d]. unfold Qeq, round_to_int. simpl. rewrite Z.mul_1_r. intros ->.
  rewrite Z.sgn_mul, Z.abs_mul. change (Z.abs (Zpos d)) with (Zpos d). change (Z.sgn (Zpos d)) with 1.
  change (Zpos d~0) with (2 * Zpos d).
  replace (2 * (Z.abs z * Zpos d) + Zpos d) with (Z.abs z * (2 * Zpos d) + Zpos d) by ring.
  rewrite Z.div_add_l, Z.div_small by lia. lia.
Qed.
