(* ===== verification/Bays.v ===== *)
(** * The bays of a strip board: [shared/bays.go]

    A strip lies in a bay. The bay of a departure follows what EuroScope reports:
    the whole flight when a client synchronises, its ground state, or its position.
    Trigonometry is a parameter, an instance of [GoMath]: no theorem depends on
    how far apart two positions are. *)

From S2P Require Import Prelude GoTime GoFloat.
From Stdlib Require Import QArith.
From Stdlib Require Import Strings.Ascii Strings.String.

Local Open Scope Z_scope.

(** ** Bays and ground states *)

Definition BAY_UNKNOWN : string := "UNKNOWN".
Definition BAY_NOT_CLEARED : string := "NOT_CLEARED".
Definition BAY_CLEARED : string := "CLEARED".
Definition BAY_PUSH : string := "PUSH".
Definition BAY_TAXI : string := "TAXI".
Definition BAY_TAXI_LWR : string := "TAXI_LWR".
Definition BAY_TAXI_TWR : string := "TAXI_TWR".
Definition BAY_DEPART : string := "DEPART".
Definition BAY_AIRBORNE : string := "AIRBORNE".
Definition BAY_FINAL : string := "FINAL".
Definition BAY_RWY_ARR : string := "RWY_ARR".
Definition BAY_TWY_ARR : string := "TWY_ARR".
Definition BAY_STAND : string := "STAND".
Definition BAY_HIDDEN : string := "HIDDEN".
Definition BAY_HIDDEN_DEP : string := "HIDDEN_DEP".
Definition BAY_DEP_HIDDEN : string := "DEP_HIDDEN".
Definition BAY_ARR_HIDDEN : string := "ARR_HIDDEN".
Definition BAY_CONTROLZONE : string := "CONTROLZONE".

Definition GroundStateUnknown : string := "".
Definition GroundStateStartup : string := "ST-UP".
Definition GroundStatePush : string := "PUSH".
Definition GroundStateTaxi : string := "TAXI".
Definition GroundStateLineup : string := "LINEUP".
Definition GroundStateDepart : string := "DEPA".
Definition GroundStateParked : string := "PARK".

(** Membership of a string in the cases of a [switch] *)
Definition one_of (s : string) (cases : list string) : bool := existsb (str_eqb s) cases.

Definition bayTracksGroundState (bay : string) : bool :=
  one_of bay [BAY_PUSH; BAY_TAXI; BAY_TAXI_LWR; BAY_TAXI_TWR; BAY_DEPART; BAY_AIRBORNE].

Definition isExplicitDepartureMovementState (state : string) : bool :=
  one_of state [GroundStatePush; GroundStateTaxi; GroundStateLineup; GroundStateDepart].

Definition IsArrivalBay (bay : string) : bool := one_of bay [BAY_FINAL; BAY_RWY_ARR; BAY_TWY_ARR; BAY_STAND; BAY_ARR_HIDDEN].

Definition IsDepartureBay (bay : string) : bool :=
  one_of bay [BAY_NOT_CLEARED; BAY_CLEARED; BAY_PUSH; BAY_TAXI; BAY_TAXI_LWR; BAY_TAXI_TWR; BAY_DEPART; BAY_AIRBORNE].

Definition GetGroundState (bay : string) : string :=
  if str_eqb bay BAY_PUSH then GroundStatePush
  else if str_eqb bay BAY_TAXI || str_eqb bay BAY_TAXI_LWR || str_eqb bay BAY_TAXI_TWR then GroundStateTaxi
  else if str_eqb bay BAY_DEPART then GroundStateLineup
  else if str_eqb bay BAY_STAND then GroundStateParked
  else GroundStateUnknown.

Definition PromoteTaxiBayForSoloTwr (bay : string) (gndOnline : bool) : string :=
  if str_eqb bay BAY_TAXI && negb gndOnline then BAY_TAXI_LWR else bay.

(** ** Geography *)

(** The functions of Go's [math] that the code calls *)
Class GoMath := {
  math_Sin : float64 → float64;
  math_Cos : float64 → float64;
  math_Tan : float64 → float64;
  math_Asin : float64 → float64;
  math_Atan2 : float64 → float64 → float64;
  math_Sqrt : float64 → float64;
  math_Pow : float64 → float64 → float64
}.

(** [math.Pi], 36 of its digits; the constant a conversion of it gives *)
Definition pi_digits : Q := 3141592653589793238462643383279502884 # 1000000000000000000000000000000000000.
Definition math_Pi : float64 := fl pi_digits.
Definition earthRadiusNM : float64 := fl (3440065 # 1000).
Definition feq (a b : float64) : bool := Qeq_bool a b.

Record BayGeography := mk_geography { Latitude : float64; Longitude : float64; ElevationFT : Z; RelevantDistanceNM : float64 }.

Definition AirportElevation : Z := 17.
Definition AirportLatitude : float64 := fl (556181 # 10000).
Definition AirportLongitude : float64 := fl (126560 # 10000).
Definition RelevantDistance : float64 := fl 30.

Definition ekch_geography : BayGeography := mk_geography AirportLatitude AirportLongitude AirportElevation RelevantDistance.

Definition hasKnownPosition (lat lon : float64) : bool := negb (feq lat 0%Q) || negb (feq lon 0%Q).

Definition isLocalAirport (code airport : string) : bool := EqualFold (TrimSpace code) (TrimSpace airport).

Definition GetDistance `{GoMath} (lat1 lon1 lat2 lon2 : float64) : float64 :=
  let radians x := fdiv (fmul x math_Pi) (fl 180) in
  let lat1Rad := radians lat1 in
  let lon1Rad := radians lon1 in
  let lat2Rad := radians lat2 in
  let lon2Rad := radians lon2 in
  let dlat := fsub lat2Rad lat1Rad in
  let dlon := fsub lon2Rad lon1Rad in
  let half x := fdiv x (fl 2) in
  let a := fadd (fmul (math_Sin (half dlat)) (math_Sin (half dlat)))
    (fmul (fmul (fmul (math_Cos lat1Rad) (math_Cos lat2Rad)) (math_Sin (half dlon))) (math_Sin (half dlon))) in
  let c := fmul (fl 2) (math_Atan2 (math_Sqrt a) (math_Sqrt (fsub (fl 1) a))) in
  fmul earthRadiusNM c.

(** ** What EuroScope reports, and the strip on the board *)

Record EsPosition := mk_es_position { GetLat : float64; GetLon : float64; GetAltitude : Z }.

(** The fields of [euroscope.Strip] that are read here; a nil position reads as zero. *)
Record EsStrip := mk_es_strip { es_Origin : string; es_Destination : string; es_Cleared : bool; es_GroundState : string; es_Position : option EsPosition }.

Definition GetPosition (s : EsStrip) : EsPosition :=
  match es_Position s with Some p => p | None => mk_es_position 0%Q 0%Q 0 end.

(** The fields of [database.Strip] that are read here *)
Record DbStrip := mk_db_strip { db_Origin : string; db_Destination : string; db_Bay : string; db_Cleared : bool; db_State : option string }.

(** The altitude above which a departure is airborne *)
Definition airborne_above (geography : BayGeography) (airborneAltitudeAGL : Z) : Z := wrap64 (ElevationFT geography + airborneAltitudeAGL).

Definition too_far `{GoMath} (geography : BayGeography) (lat lon : float64) : bool :=
  flt (RelevantDistanceNM geography) (GetDistance lat lon (Latitude geography) (Longitude geography)).

(** ** The bay a full synchronisation gives *)

Definition sync_destination (strip : EsStrip) (existing : option DbStrip) : string :=
  if str_empty (TrimSpace (es_Destination strip)) then match existing with Some e => db_Destination e | None => es_Destination strip end else es_Destination strip.
Definition sync_origin (strip : EsStrip) (existing : option DbStrip) : string :=
  if str_empty (TrimSpace (es_Origin strip)) then match existing with Some e => db_Origin e | None => es_Origin strip end else es_Origin strip.

(** A test on the bay of an existing strip *)
Definition existing_in_bay (existing : option DbStrip) (bay : string) : bool := opt_test (λ e, str_eqb (db_Bay e) bay) existing.

(** The last part of the function, after the tests on bay and state *)
Definition bay_of_clearance (strip : EsStrip) (geography : BayGeography) (airborneAltitudeAGL : Z) : string :=
  let position := GetPosition strip in
  if negb (es_Cleared strip) then BAY_NOT_CLEARED
  else if negb (hasKnownPosition (GetLat position) (GetLon position)) then BAY_CLEARED
  else if GetAltitude position <? airborne_above geography airborneAltitudeAGL then BAY_CLEARED
  else BAY_AIRBORNE.

(** The tests that keep the bay of an existing strip: a report TAXI does not tell
    the bays of taxiing aircraft apart, and a report of the stored state is no news. *)
Definition keeps_bay (e : DbStrip) (state : string) : bool :=
  str_eqb state GroundStateTaxi && (str_eqb (db_Bay e) BAY_TAXI_LWR || str_eqb (db_Bay e) BAY_TAXI_TWR)
  || negb (str_empty (db_Bay e)) && opt_test (str_eqb state) (db_State e) && bayTracksGroundState (db_Bay e).

(** The part for departures of the airport *)
Definition local_departure_bay `{GoMath} (strip : EsStrip) (existing : option DbStrip) (airborneAltitudeAGL : Z) (gndOnline : bool) (geography : BayGeography) : string :=
  let position := GetPosition strip in
  let state := es_GroundState strip in
  if existing_in_bay existing BAY_HIDDEN_DEP then BAY_HIDDEN_DEP
  else if hasKnownPosition (GetLat position) (GetLon position) && too_far geography (GetLat position) (GetLon position) then BAY_HIDDEN
  else if existing_in_bay existing BAY_HIDDEN && isExplicitDepartureMovementState state then BAY_HIDDEN
  else if existing_in_bay existing BAY_AIRBORNE then BAY_AIRBORNE
  else
  let moved :=
    if str_eqb state GroundStatePush then BAY_PUSH
    else if str_eqb state GroundStateDepart then BAY_DEPART
    else if existing_in_bay existing BAY_DEPART then
      if airborne_above geography airborneAltitudeAGL <? GetAltitude position then BAY_AIRBORNE else BAY_DEPART
    else if str_eqb state GroundStateTaxi then PromoteTaxiBayForSoloTwr BAY_TAXI gndOnline
    else bay_of_clearance strip geography airborneAltitudeAGL in
  match existing with
  | Some e => if keeps_bay e state then db_Bay e else moved
  | None => moved
  end.

Definition GetDepartureBayAt `{GoMath} (strip : EsStrip) (existing : option DbStrip) (airborneAltitudeAGL : Z) (airport : string) (gndOnline : bool) (geography : BayGeography) : string :=
  if isLocalAirport (sync_destination strip existing) airport then
    match existing with
    | Some e =>
        if str_eqb (db_Bay e) BAY_HIDDEN_DEP then BAY_ARR_HIDDEN
        else if isLocalAirport (db_Destination e) airport && negb (str_empty (db_Bay e)) then db_Bay e
        else BAY_ARR_HIDDEN
    | None => BAY_ARR_HIDDEN
    end
  else if negb (isLocalAirport (sync_origin strip existing) airport) then
    match existing with
    | Some e => if negb (str_empty (db_Bay e)) then db_Bay e else BAY_HIDDEN
    | None => BAY_HIDDEN
    end
  else local_departure_bay strip existing airborneAltitudeAGL gndOnline geography.

Definition GetDepartureBay `{GoMath} (strip : EsStrip) (existing : option DbStrip) (airborneAltitudeAGL : Z) (airport : string) (gndOnline : bool) : string :=
  GetDepartureBayAt strip existing airborneAltitudeAGL airport gndOnline ekch_geography.

(** ** The bay a ground state gives *)

(** The bay an arrival keeps *)
Definition arrival_keeps (existing : DbStrip) : string :=
  if str_eqb (db_Bay existing) BAY_HIDDEN_DEP then BAY_ARR_HIDDEN
  else if negb (str_empty (db_Bay existing)) then db_Bay existing
  else BAY_ARR_HIDDEN.

Definition GetDepartureBayFromGroundState (state : string) (existing : DbStrip) (airport : string) (gndOnline : bool) : string :=
  let bay := db_Bay existing in
  if isLocalAirport (db_Destination existing) airport then arrival_keeps existing
  else if negb (isLocalAirport (db_Origin existing) airport) then if negb (str_empty bay) then bay else BAY_HIDDEN
  else if str_eqb bay BAY_HIDDEN || str_eqb bay BAY_HIDDEN_DEP then bay
  else if str_eqb bay BAY_AIRBORNE then BAY_AIRBORNE
  else if str_eqb state GroundStatePush then BAY_PUSH
  else if str_eqb bay BAY_DEPART && str_eqb state GroundStateTaxi then BAY_DEPART
  else if str_eqb state GroundStateTaxi then
    if str_eqb bay BAY_TAXI_LWR || str_eqb bay BAY_TAXI_TWR then bay else PromoteTaxiBayForSoloTwr BAY_TAXI gndOnline
  else if str_eqb state GroundStateDepart || str_eqb state GroundStateLineup then BAY_DEPART
  else if negb (str_empty bay) then bay
  else BAY_HIDDEN.

(** ** The bay a position gives *)

Definition GetDepartureBayFromPositionAt `{GoMath} (lat lon : float64) (alt : Z) (existing : DbStrip) (airborneAltitudeAGL : Z) (airport : string) (geography : BayGeography) : string :=
  if isLocalAirport (db_Destination existing) airport then arrival_keeps existing
  else
  let existingBay := if str_empty (db_Bay existing) then BAY_HIDDEN else db_Bay existing in
  if negb (isLocalAirport (db_Origin existing) airport) then existingBay
  else if str_eqb existingBay BAY_HIDDEN_DEP then BAY_HIDDEN_DEP
  else if negb (hasKnownPosition lat lon) then existingBay
  else if too_far geography lat lon then BAY_HIDDEN
  else if str_eqb existingBay BAY_HIDDEN || str_eqb existingBay BAY_DEP_HIDDEN then BAY_NOT_CLEARED
  else if negb (str_eqb existingBay BAY_DEPART) then existingBay
  else if airborne_above geography airborneAltitudeAGL <? alt then BAY_AIRBORNE
  else existingBay.

Definition GetDepartureBayFromPosition `{GoMath} (lat lon : float64) (alt : Z) (existing : DbStrip) (airborneAltitudeAGL : Z) (airport : string) : string :=
  GetDepartureBayFromPositionAt lat lon alt existing airborneAltitudeAGL airport ekch_geography.
