(* ===== verification/CdmClock.v ===== *)
(** * Clocks of the departure sequence: [cdm/time_math.go]

    The departure part of the program writes a time of day as [HHMM] or [HHMMSS]
    and knows no date: arithmetic is modulo a day, and of two clocks the later
    one is the one that follows within twelve hours. [parseClock] yields the
    second of the day, [formatClock] the text. The lemmas say that the two are
    inverse, what an offset does to the second of the day, and that
    [minutesBetween], which computes with [float64], is the signed distance on the
    circle of the day up to a rounding error. *)

From S2P Require Import Prelude GoTime GoFloat.
From Stdlib Require Import Strings.Ascii Strings.String QArith Qabs Lqa.
From stdpp Require Import pretty.

Local Open Scope Z_scope.

(** ** Package [strconv] and [fmt] *)

Definition digit_of (c : ascii) : option Z :=
  let n := Z.of_nat (nat_of_ascii c) in
  if (48 <=? n) && (n <=? 57) then Some (n - 48) else None.

Fixpoint digits_value (acc : Z) (l : list ascii) : option Z :=
  match l with
  | [] => Some acc
  | c :: l' => match digit_of c with Some d => digits_value (10 * acc + d) l' | None => None end
  end.

(** [strconv.Atoi]: an optional sign, at least one digit, within [int] *)
Definition Atoi (s : string) : option Z :=
  let '(sign, digits) :=
    match list_ascii_of_string s with
    | "-"%char :: l => (-1, l)
    | "+"%char :: l => (1, l)
    | l => (1, l)
    end in
  match digits with
  | [] => None
  | _ => match digits_value 0 digits with
         | Some v => if (min_int64 <=? sign * v) && (sign * v <=? max_int64) then Some (sign * v) else None
         | None => None
         end
  end.

(** [fmt.Sprintf("%02d", n)] *)
Definition Sprintf_02d (n : Z) : string :=
  let s := pretty n in
  if (String.length s <? 2)%nat then String "0" s else s.

(** [value[i:j]] *)
Definition slice (s : string) (i j : nat) : string := substring i (j - i) s.

(** ** The file *)

Definition dayMinutes : Z := 24 * 60.

Definition toHHMMSS (hhmm : string) : string :=
  let value := TrimSpace hhmm in
  match String.length value with
  | 4%nat => value +:+ "00"
  | _ => value
  end.

Definition normalizeCalculationClock (value : string) : string := TrimSpace value.

Definition parseClock (value : string) : option Z :=
  let value := toHHMMSS value in
  if negb (String.length value =? 6)%nat then None else
  match Atoi (slice value 0 2), Atoi (slice value 2 4), Atoi (slice value 4 6) with
  | Some hh, Some mm, Some ss =>
      if (hh <? 0) || (23 <? hh) || (mm <? 0) || (59 <? mm) || (ss <? 0) || (59 <? ss) then None
      else Some (hh * 3600 + mm * 60 + ss)
  | _, _, _ => None
  end.

Definition formatClock (totalSeconds : Z) : string :=
  let hh := Z.quot totalSeconds 3600 in
  let mm := Z.quot (Z.rem totalSeconds 3600) 60 in
  let ss := Z.rem totalSeconds 60 in
  Sprintf_02d hh +:+ Sprintf_02d mm +:+ Sprintf_02d ss.

(** [int(math.Round(minutes*60))] is an [int] for the offsets of the callers. *)
Definition minuteOffset (hhmmss : string) (minutes : float64) : string :=
  match parseClock hhmmss with
  | None => hhmmss
  | Some base =>
      let seconds := round_to_int (fmul minutes (float_of_int 60)) in
      let result := Z.rem (base + seconds) (dayMinutes * 60) in
      formatClock (if result <? 0 then result + dayMinutes * 60 else result)
  end.

Definition addMinutes (hhmmss : string) (minutes : float64) : string := minuteOffset hhmmss minutes.
Definition subtractMinutes (hhmmss : string) (minutes : float64) : string := minuteOffset hhmmss (fneg minutes).

Definition minutesBetween (from to : string) : float64 :=
  match parseClock from, parseClock to with
  | Some fromSec, Some toSec =>
      let diff := fdiv (float_of_int (toSec - fromSec)) (float_of_int 60) in
      let diff := if fle diff (float_of_int (-720)) then fadd diff (float_of_int 1440) else diff in
      if flt (float_of_int 720) diff then fsub diff (float_of_int 1440) else diff
  | _, _ => float_of_int 0
  end.

Definition isAfterOrEqual (a b : string) : bool := fle (float_of_int 0) (minutesBetween b a).

Definition isMoreThanMinutesPast (value reference : string) (threshold : float64) : bool :=
  flt threshold (minutesBetween value reference).

Definition tobtTsatWindow (tobt tsat : string) : option float64 :=
  match parseClock tobt with
  | None => None
  | Some _ => match parseClock tsat with None => None | Some _ => Some (minutesBetween tsat tobt) end
  end.

(** [Hour()*3600 + Minute()*60 + Second()] of [t.UTC()] *)
Definition second_of_day (t : Time) : Z := (ns t / Second) mod 86400.

(** [now.UTC().Format("150405")] *)
Definition timeToClock (now : Time) : string := formatClock (second_of_day now).

Definition clockSortKey (value : string) (anchor : Time) : option Z :=
  match parseClock value with
  | None => None
  | Some seconds =>
      let offset := seconds - second_of_day anchor in
      let offset := if offset <=? - (12 * 3600) then offset + dayMinutes * 60 else offset in
      Some (if 12 * 3600 <? offset then offset - dayMinutes * 60 else offset)
  end.

Definition compareClockForSort (left right : string) (anchor : Time) : Z :=
  match clockSortKey left anchor, clockSortKey right anchor with
  | None, None => 0
  | None, Some _ => 1
  | Some _, None => -1
  | Some leftKey, Some rightKey => if leftKey <? rightKey then -1 else if rightKey <? leftKey then 1 else 0
  end.

(** ** Parsing and printing *)

Definition day_second (s : Z) : Prop := 0 ≤ s < 86400.

Lemma parseClock_range v s : parseClock v = Some s → day_second s.
Proof.
  unfold parseClock, day_second. destruct (negb _); [done|].
  destruct (Atoi _) as [hh|]; [|done]. destruct (Atoi _) as [mm|]; [|done]. destruct (Atoi _) as [ss|]; [|done].
  destruct (_ || _) eqn:E; [done|]. intros [= <-]. zbool. lia.
Qed.

(** What two-digit fields look like *)
Definition two_digits (n : Z) : bool :=
  let s := Sprintf_02d n in
  (String.length s =? 2)%nat && bool_decide (Atoi s = Some n) && forallb (λ c, negb (is_space c)) (list_ascii_of_string s).

Lemma two_digits_below n : 0 ≤ n < 100 → two_digits n = true.
Proof.
  intros Hn. assert (H : forallb (λ i, two_digits (Z.of_nat i)) (seq 0 100) = true) by (vm_compute; reflexivity).
  rewrite forallb_forall in H. specialize (H (Z.to_nat n)). rewrite Z2Nat.id in H by lia. apply H, in_seq. lia.
Qed.

(** The text of a two-digit field *)
Lemma Sprintf_02d_field n :
  0 ≤ n < 100 → ∃ x y, Sprintf_02d n = String x (String y "") ∧ Atoi (String x (String y "")) = Some n ∧ is_space x = false ∧ is_space y = false.
Proof.
  intros H%two_digits_below. unfold two_digits in H. apply andb_true_iff in H as [[Hl Ha]%andb_true_iff Hs].
  destruct (Sprintf_02d n) as [|x [|y [|z s]]]; try discriminate. exists x, y.
  apply bool_decide_eq_true in Ha. simpl in Hs. rewrite andb_true_r, andb_true_iff, !negb_true_iff in Hs. tauto.
Qed.

Definition clock_fields (s : Z) : Z * Z * Z := (Z.quot s 3600, Z.quot (Z.rem s 3600) 60, Z.rem s 60).

Lemma clock_fields_bounds s :
  day_second s →
  let '(hh, mm, ss) := clock_fields s in
  0 ≤ hh < 24 ∧ 0 ≤ mm < 60 ∧ 0 ≤ ss < 60 ∧ s = hh * 3600 + mm * 60 + ss.
Proof.
  unfold day_second, clock_fields. intros Hs. rewrite !Z.rem_mod_nonneg by lia.
  pose proof (Z.mod_pos_bound s 3600). rewrite !Z.quot_div_nonneg by lia.
  pose proof (Z.mod_pos_bound s 60). pose proof (Z.div_mod s 3600). pose proof (Z.div_mod s 60).
  pose proof (Z.div_mod (s mod 3600) 60). pose proof (Z.mod_pos_bound (s mod 3600) 60).
  assert ((s mod 3600) mod 60 = s mod 60) by (apply Z.mod_mod_divide; exists 60; lia).
  repeat split; try lia; try (apply Z.div_pos; lia); try (apply Z.div_lt_upper_bound; lia).
Qed.

(** Six characters, no spaces *)
Definition six_text (s : Z) (v : string) : Prop :=
  ∃ a b c d e f, v = String a (String b (String c (String d (String e (String f ""))))) ∧
    forallb (λ x, negb (is_space x)) [a; b; c; d; e; f] = true ∧
    Atoi (String a (String b "")) = Some (clock_fields s).1.1 ∧ Atoi (String c (String d "")) = Some (clock_fields s).1.2 ∧
    Atoi (String e (String f "")) = Some (clock_fields s).2.

Lemma formatClock_text s : day_second s → six_text s (formatClock s).
Proof.
  intros Hs. pose proof (clock_fields_bounds s Hs) as Hb. unfold formatClock, six_text. unfold clock_fields in *. simpl in *.
  destruct Hb as (Hh & Hm & Hc & _).
  destruct (Sprintf_02d_field (Z.quot s 3600)) as (a & b & -> & A1 & Sa & Sb); [lia|].
  destruct (Sprintf_02d_field (Z.quot (Z.rem s 3600) 60)) as (c & d & -> & A2 & Sc & Sd); [lia|].
  destruct (Sprintf_02d_field (Z.rem s 60)) as (e & f & -> & A3 & Se & Sf); [lia|].
  exists a, b, c, d, e, f. simpl. rewrite Sa, Sb, Sc, Sd, Se, Sf. done.
Qed.

Lemma trim_left_fixed l : l = [] ∨ (∃ c r, l = c :: r ∧ is_space c = false) → trim_left l = l.
Proof. by intros [-> | (c & r & -> & H)]; simpl; rewrite ?H. Qed.

Lemma trim_left_cases l : trim_left l = [] ∨ ∃ c r, trim_left l = c :: r ∧ is_space c = false.
Proof. induction l as [|c l IH]; simpl; [by left|]. destruct (is_space c) eqn:E; [done|]. right. by exists c, l. Qed.

Lemma trim_left_suffix l : ∃ k, l = k ++ trim_left l.
Proof. induction l as [|c l [k IH]]; simpl; [by exists []|]. destruct (is_space c); [exists (c :: k); simpl; by f_equal|by exists []]. Qed.

Lemma TrimSpace_idem v : TrimSpace (TrimSpace v) = TrimSpace v.
Proof.
  unfold TrimSpace. rewrite list_ascii_of_string_of_list_ascii. f_equal. unfold trim_chars. set (l := trim_left (list_ascii_of_string v)).
  assert (Hl : l = [] ∨ ∃ c r, l = c :: r ∧ is_space c = false) by apply trim_left_cases.
  destruct (trim_left_suffix (rev l)) as [k Hk]. apply (f_equal (@rev ascii)) in Hk. rewrite rev_involutive, rev_app_distr in Hk.
  set (y := rev (trim_left (rev l))) in *.
  assert (Hy : trim_left y = y).
  { apply trim_left_fixed. destruct y as [|c r]; [by left|right]. exists c, r. split; [done|].
    destruct Hl as [Hl|(c' & r' & Hl & H)]; rewrite Hl in Hk; [done|]. by injection Hk as ->. }
  rewrite Hy. unfold y at 1. rewrite rev_involutive. f_equal. apply trim_left_fixed, trim_left_cases.
Qed.

Lemma toHHMMSS_trimmed_empty v : toHHMMSS (TrimSpace v) = ""%string → TrimSpace v = ""%string.
Proof.
  unfold toHHMMSS. rewrite TrimSpace_idem. set (w := TrimSpace v). do 5 (destruct w as [|? w]; [done|]). by destruct w.
Qed.

Lemma TrimSpace_six s v : six_text s v → TrimSpace v = v.
Proof.
  intros (a & b & c & d & e & f & -> & Hs & _). simpl in Hs. rewrite !andb_true_iff, !negb_true_iff in Hs.
  destruct Hs as (Ha & Hb & Hc & Hd & He & Hf & _).
  unfold TrimSpace, trim_chars. repeat (simpl; rewrite ?Ha, ?Hf). reflexivity.
Qed.

Lemma toHHMMSS_six s v : six_text s v → toHHMMSS v = v.
Proof.
  intros H. unfold toHHMMSS. rewrite (TrimSpace_six s v H). destruct H as (a & b & c & d & e & f & -> & _). reflexivity.
Qed.

Lemma parseClock_six s v : day_second s → six_text s v → parseClock v = Some s.
Proof.
  intros Hs H. unfold parseClock. rewrite (toHHMMSS_six s v H). destruct H as (a & b & c & d & e & f & -> & _ & A1 & A2 & A3).
  simpl String.length. cbn [Nat.eqb negb]. unfold slice. simpl substring. rewrite A1, A2, A3.
  pose proof (clock_fields_bounds s Hs) as Hb. destruct (clock_fields s) as [[hh mm] ss]. simpl in *.
  destruct (_ || _) eqn:E; [zbool; lia|]. f_equal. lia.
Qed.

(** Parsing undoes printing. *)
Lemma parse_format s : day_second s → parseClock (formatClock s) = Some s.
Proof. intros Hs. apply parseClock_six; [done|by apply formatClock_text]. Qed.

Lemma toHHMMSS_format s : day_second s → toHHMMSS (formatClock s) = formatClock s.
Proof. intros Hs. by apply (toHHMMSS_six s), formatClock_text. Qed.

Lemma format_inj s t : day_second s → day_second t → formatClock s = formatClock t → s = t.
Proof. intros Hs Ht E. pose proof (parse_format s Hs) as H. rewrite E, (parse_format t Ht) in H. congruence. Qed.

(** ** Offsets *)

(** The second of the day [n] seconds after [s] *)
Definition day_add (s n : Z) : Z := (s + n) mod 86400.

Lemma day_add_second s n : day_second (day_add s n).
Proof. unfold day_second, day_add. apply Z.mod_pos_bound. lia. Qed.

Lemma day_add_add s m n : day_add (day_add s m) n = day_add s (m + n).
Proof. unfold day_add. rewrite Z.add_mod_idemp_l by lia. f_equal. lia. Qed.

Lemma minuteOffset_clock v s minutes n :
  parseClock v = Some s → round_to_int (fmul minutes (float_of_int 60)) = n → minuteOffset v minutes = formatClock (day_add s n).
Proof.
  intros Hv Hn. unfold minuteOffset, day_add, dayMinutes. rewrite Hv, Hn. change (24 * 60 * 60) with 86400. f_equal.
  pose proof (Z.rem_bound_abs (s + n) 86400 ltac:(lia)). pose proof (Z.quot_rem' (s + n) 86400).
  destruct (Z.ltb_spec (Z.rem (s + n) 86400) 0);
    [apply (Z.mod_unique_pos _ _ (Z.quot (s + n) 86400 - 1))|apply (Z.mod_unique_pos _ _ (Z.quot (s + n) 86400))]; lia.
Qed.

(** Half a minute *)
Definition half_minute : float64 := 1 # 2.

Lemma half_minute_seconds : round_to_int (fmul half_minute (float_of_int 60)) = 30.
Proof. vm_compute. reflexivity. Qed.

Lemma fmul_integers m n :
  Z.abs m < 2 ^ 53 → Z.abs n < 2 ^ 53 → Z.abs (m * n) < 2 ^ 53 → (fmul (float_of_int m) (float_of_int n) == inject_Z (m * n))%Q.
Proof.
  intros Hm Hn Hp. apply fl_integer; [done|]. rewrite (float_of_int_exact m Hm), (float_of_int_exact n Hn). by rewrite inject_Z_mult.
Qed.

Lemma whole_minutes_seconds m : Z.abs m < 2 ^ 40 → round_to_int (fmul (float_of_int m) (float_of_int 60)) = m * 60.
Proof. intros. apply round_to_int_integer, fmul_integers; lia. Qed.

Lemma addMinutes_whole v s m : parseClock v = Some s → Z.abs m < 2 ^ 40 → addMinutes v (float_of_int m) = formatClock (day_add s (m * 60)).
Proof. intros Hv Hm. by apply minuteOffset_clock, whole_minutes_seconds. Qed.

Lemma addMinutes_half v s : parseClock v = Some s → addMinutes v half_minute = formatClock (day_add s 30).
Proof. intros Hv. by apply minuteOffset_clock, half_minute_seconds. Qed.

(** ** Distances *)

(** The distance of two seconds of the day on the circle, in [(-43200, 43200]]:
    positive when the second one is later *)
Definition circular (k : Z) : Z := if k <=? -43200 then k + 86400 else if 43200 <? k then k - 86400 else k.

Lemma circular_range k : -86400 < k < 86400 → -43200 < circular k ≤ 43200.
Proof. unfold circular. intros. destruct (Z.leb_spec k (-43200)); [lia|]. destruct (Z.ltb_spec 43200 k); lia. Qed.

Lemma circular_mod k : circular k mod 86400 = k mod 86400.
Proof.
  unfold circular. destruct (Z.leb_spec k (-43200)); [|destruct (Z.ltb_spec 43200 k)]; [| |done].
  - rewrite <-(Z.mod_add k 1) by lia. f_equal; lia.
  - rewrite <-(Z.mod_add k (-1)) by lia. f_equal; lia.
Qed.

Definition tiny : Q := 1 # 1099511627776.

(** [d] is [k] seconds in minutes up to a rounding error, and exactly so when that is a whole number. *)
Definition minutes_of (d : float64) (k : Z) : Prop :=
  (Qabs (d - inject_Z k / inject_Z 60) <= tiny)%Q ∧ (∀ m, k = m * 60 → (d == inject_Z m)%Q).

Lemma fdiv_60 k : Z.abs k < 86400 → (Qabs (fdiv (float_of_int k) (float_of_int 60) - inject_Z k / inject_Z 60) <= 1 # 4398046511104)%Q ∧
  (∀ m, k = m * 60 → (fdiv (float_of_int k) (float_of_int 60) == inject_Z m)%Q).
Proof.
  intros Hk. assert (E : (float_of_int k / float_of_int 60 == inject_Z k / inject_Z 60)%Q)
    by (rewrite !float_of_int_exact by lia; reflexivity).
  split.
  - unfold fdiv. pose proof (fl_error (float_of_int k / float_of_int 60)) as H. rewrite E in H at 2 3.
    refine (Qle_trans _ _ _ H _). unfold Qle, Qabs, Qdiv, Qmult, Qinv, inject_Z. cbn -[Z.mul Z.pow Pos.mul Pos.pow]. lia.
  - intros m ->. apply fl_integer; [lia|]. rewrite E, inject_Z_mult. field.
Qed.

Lemma Qabs_bounds a e : (Qabs a <= e ↔ - e <= a ∧ a <= e)%Q.
Proof. apply Qabs_Qle_condition. Qed.

(** Distances in minutes as rationals *)
Lemma minutes_shift k m : (inject_Z (k + m * 60) / inject_Z 60 == inject_Z k / inject_Z 60 + inject_Z m)%Q.
Proof. rewrite inject_Z_plus, inject_Z_mult. field. Qed.

Lemma minutes_le a b : a ≤ b → (inject_Z a / inject_Z 60 <= inject_Z b / inject_Z 60)%Q.
Proof. intros. apply Qmult_le_compat_r; [by rewrite <-Zle_Qle|done]. Qed.

(** A further whole number of minutes adds one rounding. *)
Lemma minutes_of_shift d k m (x : float64) :
  (Qabs (d - inject_Z k / inject_Z 60) <= 1 # 4398046511104)%Q → (∀ m, k = m * 60 → (d == inject_Z m)%Q) →
  Z.abs k ≤ 86400 → -43200 ≤ k + m * 60 ≤ 43200 → (x == d + inject_Z m)%Q →
  minutes_of (fl x) (k + m * 60).
Proof.
  intros Hd He Hk Hm Hx. split.
  - rewrite minutes_shift. pose proof (fl_error x) as Hf. rewrite Hx in Hf at 2 3.
    apply Qabs_bounds in Hd as [Hd1 Hd2].
    pose proof (minutes_le _ _ (proj1 Hm)) as H1. pose proof (minutes_le _ _ (proj2 Hm)) as H2. rewrite minutes_shift in H1, H2.
    assert (Hb : (Qabs (d + inject_Z m) <= 721)%Q).
    { apply Qabs_bounds. change (inject_Z (-43200) / inject_Z 60)%Q with (-43200 # 60) in H1. change (inject_Z 43200 / inject_Z 60)%Q with (43200 # 60) in H2. split; lra. }
    assert (Hr : (Qabs (fl x - (d + inject_Z m)) <= 721 * (1 # 9007199254740992))%Q).
    { refine (Qle_trans _ _ _ Hf _). apply Qmult_le_compat_r; [exact Hb|discriminate]. }
    apply Qabs_bounds in Hr as [Hr1 Hr2]. apply Qabs_bounds. unfold tiny. split; lra.
  - intros m' E. apply fl_integer; [lia|]. rewrite Hx, (He (m' - m)) by lia. rewrite <-inject_Z_plus. f_equiv. lia.
Qed.

(** Comparing with whole minutes is exact. *)
Lemma minutes_of_compare d k m : minutes_of d k → Z.abs m ≤ 1440 →
  fle d (float_of_int m) = (k <=? m * 60) ∧ flt (float_of_int m) d = (m * 60 <? k) ∧
  fle (float_of_int m) d = (m * 60 <=? k) ∧ flt d (float_of_int m) = (k <? m * 60).
Proof.
  intros [[H1 H2]%Qabs_bounds He] Hm. unfold tiny in H1, H2.
  pose proof (float_of_int_exact m ltac:(lia)) as Em.
  assert (Hlt : k < m * 60 → (d < inject_Z m)%Q).
  { intros Hl. pose proof (minutes_le (k + 1) (m * 60) ltac:(lia)) as H. rewrite inject_Z_plus, inject_Z_mult in H.
    assert (E : (inject_Z m * inject_Z 60 / inject_Z 60 == inject_Z m)%Q) by field.
    assert (E' : ((inject_Z k + inject_Z 1) / inject_Z 60 == inject_Z k / inject_Z 60 + (1 # 60))%Q) by field. lra. }
  assert (Hgt : m * 60 < k → (inject_Z m < d)%Q).
  { intros Hl. pose proof (minutes_le (m * 60 + 1) k ltac:(lia)) as H. rewrite inject_Z_plus, inject_Z_mult in H.
    assert (E : ((inject_Z m * inject_Z 60 + inject_Z 1) / inject_Z 60 == inject_Z m + (1 # 60))%Q) by field. lra. }
  assert (Heq : k = m * 60 → (d == inject_Z m)%Q) by exact (He m).
  clear H1 H2 He. repeat split; apply eq_true_iff_eq; rewrite ?fle_iff, ?flt_iff, ?Z.leb_le, ?Z.ltb_lt, Em;
    (destruct (Z.lt_trichotomy k (m * 60)) as [H|[H|H]];
      [specialize (Hlt H)|specialize (Heq H)|specialize (Hgt H)]; split; intros; try lia; lra).
Qed.

(** [minutesBetween] is the signed distance on the circle. *)
Lemma minutesBetween_circular from to f t :
  parseClock from = Some f → parseClock to = Some t → minutes_of (minutesBetween from to) (circular (t - f)).
Proof.
  intros Hf Ht. pose proof (parseClock_range _ _ Hf) as Rf. pose proof (parseClock_range _ _ Ht) as Rt. unfold day_second in *.
  unfold minutesBetween. rewrite Hf, Ht. set (k := t - f). assert (Hk : Z.abs k < 86400) by lia.
  destruct (fdiv_60 k Hk) as [Hd He]. set (d := fdiv (float_of_int k) (float_of_int 60)) in *.
  assert (Hm : minutes_of d k) by (split; [refine (Qle_trans _ _ _ Hd _); discriminate|exact He]).
  pose proof (minutes_of_compare d k (-720) Hm ltac:(lia)) as [C1 _].
  pose proof (minutes_of_compare d k 720 Hm ltac:(lia)) as [_ [C2 _]]. cbv zeta. rewrite C1. unfold circular.
  change (-720 * 60) with (-43200). change (720 * 60) with 43200 in C2.
  destruct (Z.leb_spec k (-43200)).
  - assert (Hs : minutes_of (fadd d (float_of_int 1440)) (k + 1440 * 60)).
    { apply (minutes_of_shift d); [exact Hd|exact He|lia|lia|]. by rewrite (float_of_int_exact 1440). }
    change (1440 * 60) with 86400 in Hs. pose proof (minutes_of_compare _ _ 720 Hs ltac:(lia)) as (_ & C & _). rewrite C.
    destruct (Z.ltb_spec (720 * 60) (k + 86400)); [lia|exact Hs].
  - rewrite C2. destruct (Z.ltb_spec 43200 k).
    + replace (k - 86400) with (k + (-1440) * 60) by lia.
      apply (minutes_of_shift d); [exact Hd|exact He|lia|lia|]. rewrite (float_of_int_exact 1440) by lia. reflexivity.
    + exact Hm.
Qed.

(** ** What the comparisons of clocks mean *)

Lemma isAfterOrEqual_circular a b s t :
  parseClock a = Some s → parseClock b = Some t → isAfterOrEqual a b = (0 <=? circular (s - t)).
Proof.
  intros Ha Hb. unfold isAfterOrEqual.
  by destruct (minutes_of_compare _ _ 0 (minutesBetween_circular b a t s Hb Ha) ltac:(lia)) as (_ & _ & -> & _).
Qed.

Lemma isMoreThanMinutesPast_circular v r s t m :
  parseClock v = Some s → parseClock r = Some t → Z.abs m ≤ 1440 →
  isMoreThanMinutesPast v r (float_of_int m) = (m * 60 <? circular (t - s)).
Proof.
  intros Hv Hr Hm. unfold isMoreThanMinutesPast.
  by destruct (minutes_of_compare _ _ m (minutesBetween_circular v r s t Hv Hr) Hm) as (_ & -> & _).
Qed.

Lemma second_of_day_range t : day_second (second_of_day t).
Proof. apply Z.mod_pos_bound. lia. Qed.

Lemma parse_timeToClock t : parseClock (timeToClock t) = Some (second_of_day t).
Proof. apply parse_format, second_of_day_range. Qed.

(** The absolute distance *)
Lemma minutes_of_abs d k : minutes_of d k → minutes_of (fabs d) (Z.abs k).
Proof.
  intros [H He]. split.
  - assert (E : (inject_Z (Z.abs k) / inject_Z 60 == Qabs (inject_Z k / inject_Z 60))%Q).
    { unfold Qdiv. rewrite Qabs_Qmult. destruct k; reflexivity. }
    rewrite E. unfold fabs. refine (Qle_trans _ _ _ _ H). apply Qabs_bounds.
    pose proof (Qabs_triangle_reverse d (inject_Z k / inject_Z 60)) as H1.
    pose proof (Qabs_triangle_reverse (inject_Z k / inject_Z 60) d) as H2. rewrite (Qabs_Qminus _ d) in H2. split; lra.
  - intros m Hm. unfold fabs. destruct (Z.abs_spec k) as [[Hk E]|[Hk E]]; rewrite E in Hm.
    + rewrite (He m Hm). apply Qabs_pos. rewrite <-(Zle_Qle 0). lia.
    + rewrite (He (- m)) by lia. rewrite inject_Z_opp, Qabs_opp. apply Qabs_pos. rewrite <-(Zle_Qle 0). lia.
Qed.
