(* ===== verification/CdmData.v ===== *)
(** * Departure data of a flight: [models/cdm_data.go] and the strip fields CDM reads

    [CdmData] holds what the departure sequence knows of a flight; it is stored
    with the strip. All its fields are here, though the sequence touches a part of
    them only. Of [models.Strip] only the fields that the departure sequence
    reads are represented. Cloning is the identity on values. *)

From S2P Require Import Prelude GoTime GoFloat CdmClock.
From Stdlib Require Import Strings.Ascii Strings.String.

Local Open Scope Z_scope.

(** ** Constants *)

Definition CtotSourceManual : string := "Manual".
Definition CdmInvalidReasonStaleTobt : string := "STALE_TOBT".
Definition CdmInvalidReasonStaleTsat : string := "STALE_TSAT".
Definition CdmCalculationBaseTobt : string := "TOBT".
Definition CdmCalculationBaseEobt : string := "EOBT".
Definition CdmRecalculationRequired : string := "required".
Definition CdmRecalculationImproveOnly : string := "improve_only".

(** ** Data *)

Record CdmReasonMarker := mk_reason_marker {
  rm_Kind : string; rm_Message : string; rm_AgainstCallsign : option string; rm_AgainstRunway : option string;
  rm_AgainstTtot : option string; rm_FromTtot : option string; rm_ToTtot : option string; rm_RequiredSpacingMinutes : option float64
}.

Record CdmCalculation := mk_calculation {
  ca_BaseTime : option string; ca_BaseSource : option string; ca_TaxiMinutes : option Z; ca_TaxiRunway : option string;
  ca_InvalidReason : option string; ca_SequencePosition : option Z; ca_LeaderCallsign : option string;
  ca_LeaderTtot : option string; ca_ReasonMarkers : list CdmReasonMarker
}.

Record EcfmpRestriction := mk_ecfmp_restriction {
  er_MeasureID : Z; er_Ident : string; er_Type : string; er_Reason : string; er_Routes : list string; er_Destination : string;
  er_MaxLevel : option Z; er_MinLevel : option Z; er_ExactLevels : list Z; er_HasCtot : bool
}.

Record CdmData := mk_cdm_data {
  cd_ViffAuthority : string; cd_AobtViffAuthority : string; cd_AtotViffAuthority : string; cd_ReadyViffAuthority : string;
  cd_Tobt : option string; cd_TobtSetBy : option string; cd_TobtConfirmedBy : option string; cd_TobtAutoSynced : bool;
  cd_TobtAutoAdjusted : bool; cd_TobtManuallyConfirmed : bool; cd_Tsat : option string; cd_ExpiredTsat : option string;
  cd_ViffProposalTsat : option string; cd_ViffProposalTtot : option string; cd_Ttot : option string; cd_Ctot : option string;
  cd_CtotSource : option string; cd_LastViffAtfcmCtot : string; cd_Aobt : option string; cd_AobtViffPending : bool;
  cd_Atot : option string; cd_AtotViffPending : bool; cd_Asat : option string; cd_Asrt : option string; cd_Tsac : option string;
  cd_Eobt : option string; cd_Aldt : option string; cd_Status : option string; cd_DeIce : option string;
  cd_DeicePlatform : option string; cd_DeicePlatformAcknowledged : bool; cd_MostPenalizingAirspace : option string;
  cd_EcfmpID : option string; cd_Phase : option string; cd_EcfmpRestrictions : list EcfmpRestriction;
  cd_Calculation : option CdmCalculation; cd_Recalculate : bool; cd_RecalculationMode : string; cd_PushbackRecalculate : bool;
  cd_CtotRecalculate : bool; cd_ReadySyncPending : bool; cd_ViffRequestSyncPending : bool
}.

(** Fields of a strip *)
Record Strip := mk_strip {
  st_Callsign : string; st_Origin : string; st_Destination : string; st_Runway : option string; st_Sid : option string;
  st_AircraftCategory : option string; st_State : option string; st_PositionLatitude : option float64; st_PositionLongitude : option float64;
  st_CdmData : option CdmData; st_EuroscopeSeenAt : option Time
}.

(** ** Zero values and field assignments *)

Definition zero_calculation : CdmCalculation := mk_calculation None None None None None None None None [].
Definition zero_cdm_data : CdmData :=
  mk_cdm_data
    "" "" "" "" None None None false false false None None None None None None None "" None false None false None None None None
    None None None None false None None None [] None false "" false false false false.

Definition eta_CdmCalculation (c : CdmCalculation) : CdmCalculation :=
  mk_calculation
    (ca_BaseTime c) (ca_BaseSource c) (ca_TaxiMinutes c) (ca_TaxiRunway c) (ca_InvalidReason c) (ca_SequencePosition c)
    (ca_LeaderCallsign c) (ca_LeaderTtot c) (ca_ReasonMarkers c).
Definition set_ca_BaseTime (v : option string) (c : CdmCalculation) : CdmCalculation := ltac:(record_set eta_CdmCalculation ca_BaseTime v c).
Definition set_ca_BaseSource (v : option string) (c : CdmCalculation) : CdmCalculation := ltac:(record_set eta_CdmCalculation ca_BaseSource v c).
Definition set_ca_TaxiMinutes (v : option Z) (c : CdmCalculation) : CdmCalculation := ltac:(record_set eta_CdmCalculation ca_TaxiMinutes v c).
Definition set_ca_TaxiRunway (v : option string) (c : CdmCalculation) : CdmCalculation := ltac:(record_set eta_CdmCalculation ca_TaxiRunway v c).
Definition set_ca_InvalidReason (v : option string) (c : CdmCalculation) : CdmCalculation := ltac:(record_set eta_CdmCalculation ca_InvalidReason v c).
Definition set_ca_ReasonMarkers (v : list CdmReasonMarker) (c : CdmCalculation) : CdmCalculation := ltac:(record_set eta_CdmCalculation ca_ReasonMarkers v c).

Definition eta_CdmData (d : CdmData) : CdmData :=
  mk_cdm_data
    (cd_ViffAuthority d) (cd_AobtViffAuthority d) (cd_AtotViffAuthority d) (cd_ReadyViffAuthority d) (cd_Tobt d) (cd_TobtSetBy d)
    (cd_TobtConfirmedBy d) (cd_TobtAutoSynced d) (cd_TobtAutoAdjusted d) (cd_TobtManuallyConfirmed d) (cd_Tsat d)
    (cd_ExpiredTsat d) (cd_ViffProposalTsat d) (cd_ViffProposalTtot d) (cd_Ttot d) (cd_Ctot d) (cd_CtotSource d)
    (cd_LastViffAtfcmCtot d) (cd_Aobt d) (cd_AobtViffPending d) (cd_Atot d) (cd_AtotViffPending d) (cd_Asat d) (cd_Asrt d)
    (cd_Tsac d) (cd_Eobt d) (cd_Aldt d) (cd_Status d) (cd_DeIce d) (cd_DeicePlatform d) (cd_DeicePlatformAcknowledged d)
    (cd_MostPenalizingAirspace d) (cd_EcfmpID d) (cd_Phase d) (cd_EcfmpRestrictions d) (cd_Calculation d) (cd_Recalculate d)
    (cd_RecalculationMode d) (cd_PushbackRecalculate d) (cd_CtotRecalculate d) (cd_ReadySyncPending d)
    (cd_ViffRequestSyncPending d).
Definition set_cd_Tobt (v : option string) (d : CdmData) : CdmData := ltac:(record_set eta_CdmData cd_Tobt v d).
Definition set_cd_TobtSetBy (v : option string) (d : CdmData) : CdmData := ltac:(record_set eta_CdmData cd_TobtSetBy v d).
Definition set_cd_TobtConfirmedBy (v : option string) (d : CdmData) : CdmData := ltac:(record_set eta_CdmData cd_TobtConfirmedBy v d).
Definition set_cd_TobtAutoSynced (v : bool) (d : CdmData) : CdmData := ltac:(record_set eta_CdmData cd_TobtAutoSynced v d).
Definition set_cd_TobtAutoAdjusted (v : bool) (d : CdmData) : CdmData := ltac:(record_set eta_CdmData cd_TobtAutoAdjusted v d).
Definition set_cd_TobtManuallyConfirmed (v : bool) (d : CdmData) : CdmData := ltac:(record_set eta_CdmData cd_TobtManuallyConfirmed v d).
Definition set_cd_Tsat (v : option string) (d : CdmData) : CdmData := ltac:(record_set eta_CdmData cd_Tsat v d).
Definition set_cd_ExpiredTsat (v : option string) (d : CdmData) : CdmData := ltac:(record_set eta_CdmData cd_ExpiredTsat v d).
Definition set_cd_ViffProposalTsat (v : option string) (d : CdmData) : CdmData := ltac:(record_set eta_CdmData cd_ViffProposalTsat v d).
Definition set_cd_ViffProposalTtot (v : option string) (d : CdmData) : CdmData := ltac:(record_set eta_CdmData cd_ViffProposalTtot v d).
Definition set_cd_Ttot (v : option string) (d : CdmData) : CdmData := ltac:(record_set eta_CdmData cd_Ttot v d).
Definition set_cd_Eobt (v : option string) (d : CdmData) : CdmData := ltac:(record_set eta_CdmData cd_Eobt v d).
Definition set_cd_Phase (v : option string) (d : CdmData) : CdmData := ltac:(record_set eta_CdmData cd_Phase v d).
Definition set_cd_Calculation (v : option CdmCalculation) (d : CdmData) : CdmData := ltac:(record_set eta_CdmData cd_Calculation v d).
Definition set_cd_Recalculate (v : bool) (d : CdmData) : CdmData := ltac:(record_set eta_CdmData cd_Recalculate v d).
Definition set_cd_RecalculationMode (v : string) (d : CdmData) : CdmData := ltac:(record_set eta_CdmData cd_RecalculationMode v d).
Definition set_cd_PushbackRecalculate (v : bool) (d : CdmData) : CdmData := ltac:(record_set eta_CdmData cd_PushbackRecalculate v d).
Definition set_cd_CtotRecalculate (v : bool) (d : CdmData) : CdmData := ltac:(record_set eta_CdmData cd_CtotRecalculate v d).

Definition set_st_CdmData (v : option CdmData) (s : Strip) : Strip :=
  mk_strip (st_Callsign s) (st_Origin s) (st_Destination s) (st_Runway s) (st_Sid s) (st_AircraftCategory s) (st_State s)
    (st_PositionLatitude s) (st_PositionLongitude s) v (st_EuroscopeSeenAt s).

(** ** Accessors *)

(** [valueOrEmpty] *)
Definition valueOrEmpty (value : option string) : string := default ""%string value.

Definition intValue (value : option Z) : Z := default 0 value.

Definition intPointerIfPositive (value : Z) : option Z := if value <=? 0 then None else Some value.

Definition stringPointerIfPresent (value : string) : option string := if str_empty (TrimSpace value) then None else Some value.

Definition calculationIsEmpty (calculation : option CdmCalculation) : bool :=
  match calculation with
  | None => true
  | Some c =>
      is_nil (ca_BaseTime c) && is_nil (ca_BaseSource c) && is_nil (ca_TaxiMinutes c) && is_nil (ca_TaxiRunway c) &&
      is_nil (ca_InvalidReason c) && is_nil (ca_SequencePosition c) && is_nil (ca_LeaderCallsign c) && is_nil (ca_LeaderTtot c) &&
      match ca_ReasonMarkers c with [] => true | _ => false end
  end.

(** [Normalize] of data that is not nil *)
Definition Normalize (d : CdmData) : CdmData := if calculationIsEmpty (cd_Calculation d) then set_cd_Calculation None d else d.

(** [strip.CdmData.F()] and [strip.EffectiveF()]: nil without data *)
Definition effective {A} (get : CdmData → option A) (s : Strip) : option A := match st_CdmData s with None => None | Some d => get d end.

Definition EffectiveCalculation (d : CdmData) : option CdmCalculation := cd_Calculation (Normalize d).

Definition NeedsLocalRecalculation (d : CdmData) : bool := cd_Recalculate d.

Definition MarkLocalRecalculationPending (d : CdmData) : CdmData := set_cd_RecalculationMode CdmRecalculationRequired (set_cd_Recalculate true d).

Definition MarkLocalImprovementPending (d : CdmData) : CdmData := set_cd_RecalculationMode CdmRecalculationImproveOnly (set_cd_Recalculate true d).

Definition MarkCtotRecalculationPending (d : CdmData) : CdmData := set_cd_CtotRecalculate true (MarkLocalRecalculationPending d).

Definition ClearLocalRecalculationPending (d : CdmData) : CdmData :=
  set_cd_CtotRecalculate false (set_cd_PushbackRecalculate false (set_cd_RecalculationMode "" (set_cd_Recalculate false d))).

Definition IsImprovementOnlyRecalculation (d : CdmData) : bool := cd_Recalculate d && str_eqb (cd_RecalculationMode d) CdmRecalculationImproveOnly.

Definition HasManualCtot (d : CdmData) : bool :=
  opt_test (λ source, str_eqb source CtotSourceManual) (cd_CtotSource d) && opt_test (λ ctot, negb (str_empty ctot)) (cd_Ctot d).

Definition EffectiveTaxiMinutesForRunway (d : CdmData) (runway : string) : option Z :=
  match EffectiveCalculation d with
  | None => None
  | Some calculation =>
      if is_nil (ca_TaxiMinutes calculation) then None
      else
        let storedRunway := TrimSpace (valueOrEmpty (ca_TaxiRunway calculation)) in
        if str_empty storedRunway || str_empty runway || EqualFold storedRunway (TrimSpace runway)
        then ca_TaxiMinutes calculation else None
  end.
