(* ===== verification/CdmConfig.v ===== *)
(** * Airport configuration of the departure sequence: [cdm/config.go]

    What one airport tells the calculator: departure rates with the runway
    combinations they hold for, intervals between departure routes, taxi times,
    delays and de-icing. A nil configuration is [None]. This file also holds
    [wake_spacing.go], [deice_minutes.go] and [adverse_conditions.go]. Whether
    a position lies in the polygon of a taxi zone is computed on the sphere by the
    library [s2] and is a parameter of the functions that ask. *)

From S2P Require Import Prelude GoTime GoFloat CdmClock.
From Stdlib Require Import Strings.Ascii Strings.String QArith.

Local Open Scope Z_scope.

(** ** Data *)

Definition DefaultCDMRate : Z := 20.
Definition DefaultCDMRateLVO : Z := 14.
Definition DefaultCDMTaxiMinutes : Z := 10.

Record CdmRate := mk_cdm_rate {
  cr_Airport : string; cr_ArrRwyYes : list string; cr_ArrRwyNo : list string; cr_DepRwyYes : list string;
  cr_DepRwyNo : list string; cr_DependentRwy : list string; cr_Rates : list string; cr_RatesLvo : list string
}.

Record CdmSidInterval := mk_sid_interval {
  si_Airport : string; si_Runway : string; si_Sid1 : string; si_Sid2 : string; si_Value : float64
}.

Record CdmTaxiPoint := mk_taxi_point { tp_Lat : float64; tp_Lon : float64 }.

Record CdmTaxiZone := mk_taxi_zone {
  tz_Airport : string; tz_Runway : string; tz_Minutes : Z; tz_Polygon : list CdmTaxiPoint; tz_RemoteTaxiMinutes : list Z
}.

Record CdmDelay := mk_cdm_delay { dl_Airport : string; dl_Runway : string; dl_Time : string; dl_Type : string }.

Record CdmDeicePlatformConfig := mk_deice_platform { dp_Name : string; dp_Time : Z }.

Record CdmDeiceConfig := mk_deice_config {
  dc_Light : Z; dc_Medium : Z; dc_Heavy : Z; dc_Super : Z; dc_Platform : list CdmDeicePlatformConfig
}.

Record CdmAirportConfig := mk_cdm_config {
  cc_Airport : string; cc_Rates : list CdmRate; cc_SidIntervals : list CdmSidInterval; cc_TaxiZones : list CdmTaxiZone;
  cc_Delays : list CdmDelay; cc_DefaultRate : Z; cc_DefaultRateLvo : Z; cc_DefaultTaxiMinutes : Z; cc_LvoActive : bool;
  cc_ActiveArrivalRunways : list string; cc_ActiveDepartureRunways : list string; cc_DeiceConfig : CdmDeiceConfig
}.

(** ** Names of runways and routes *)

Definition normalizeToken (value : string) : string := ToUpper (TrimSpace value).

Definition sameRunway (a b : string) : bool := EqualFold (TrimSpace a) (TrimSpace b).

Definition sidVariants (value : string) : list string :=
  let trimmed := ToUpper (TrimSpace value) in
  if str_empty trimmed then []
  else trimmed :: (if (3 <? String.length trimmed)%nat then [slice trimmed 0 (String.length trimmed - 2)] else []).

Definition sameSID (a b : string) : bool :=
  existsb (λ l, existsb (λ r, negb (str_empty l) && str_eqb l r) (sidVariants b)) (sidVariants a).

Definition isWildcardList (values : list string) : bool := existsb (λ value, str_eqb (TrimSpace value) "*") values.

Definition some_active (configured active : list string) : bool :=
  existsb (λ configuredValue, existsb (λ activeValue, sameRunway configuredValue activeValue) active) configured.

Definition list_empty {A} (l : list A) : bool := match l with [] => true | _ => false end.

Definition listMatchesActive (configured active : list string) (emptyIsMatch : bool) : bool :=
  if list_empty configured then emptyIsMatch
  else if isWildcardList configured then true
  else if list_empty active then true
  else some_active configured active.

Definition listExcludesActive (configured active : list string) : bool :=
  if list_empty configured || isWildcardList configured || list_empty active then true
  else negb (some_active configured active).

(** ** Rates *)

Definition parsePositiveInt (value : string) : option Z :=
  match Atoi (TrimSpace value) with
  | Some parsed => if parsed <=? 0 then None else Some parsed
  | None => None
  end.

Definition depRwyMatches (r : CdmRate) (depRwy : string) : bool :=
  if list_empty (cr_DepRwyYes r) then false
  else existsb (λ runway, str_eqb runway "*" || EqualFold runway depRwy) (cr_DepRwyYes r).

Definition matches (r : CdmRate) (depRwy : string) (activeArrivals activeDepartures : list string) : bool :=
  if negb (depRwyMatches r depRwy) then false
  else if negb (listMatchesActive (cr_ArrRwyYes r) activeArrivals true) then false
  else if negb (listExcludesActive (cr_ArrRwyNo r) activeArrivals) then false
  else if negb (listMatchesActive (cr_DepRwyYes r) activeDepartures true) then false
  else if negb (listExcludesActive (cr_DepRwyNo r) activeDepartures) then false
  else true.

(** The loop over [DepRwyYes], from position [idx] on *)
Fixpoint value_index_from (runways : list string) (depRwy : string) (values idx : nat) : nat :=
  match runways with
  | [] => 0%nat
  | runway :: runways =>
      if (values <=? idx)%nat then 0%nat
      else if EqualFold runway depRwy then idx
      else value_index_from runways depRwy values (S idx)
  end.

Definition valueIndex (r : CdmRate) (depRwy : string) (values : nat) : nat :=
  if (values <=? 1)%nat then 0%nat else value_index_from (cr_DepRwyYes r) depRwy values 0.

(** [defaultRate] of [RateForRunway] *)
Definition default_rate (c : CdmAirportConfig) : Z :=
  if cc_LvoActive c then (if cc_DefaultRateLvo c <=? 0 then DefaultCDMRateLVO else cc_DefaultRateLvo c)
  else if cc_DefaultRate c <=? 0 then DefaultCDMRate else cc_DefaultRate c.

(** The rate of the first matching row; [valueIndex] is within the values ([valueIndex_lt]). *)
Definition row_rate (c : CdmAirportConfig) (rate : CdmRate) (depRwy : string) : Z :=
  let values := if cc_LvoActive c && negb (list_empty (cr_RatesLvo rate)) then cr_RatesLvo rate else cr_Rates rate in
  if list_empty values then default_rate c
  else match parsePositiveInt (nth (valueIndex rate depRwy (List.length values)) values ""%string) with
       | Some parsed => parsed
       | None => default_rate c
       end.

Fixpoint rate_from (c : CdmAirportConfig) (rates : list CdmRate) (depRwy : string) : Z :=
  match rates with
  | [] => default_rate c
  | rate :: rates =>
      if negb (EqualFold (cr_Airport rate) (cc_Airport c)) then rate_from c rates depRwy
      else if negb (matches rate depRwy (cc_ActiveArrivalRunways c) (cc_ActiveDepartureRunways c)) then rate_from c rates depRwy
      else row_rate c rate depRwy
  end.

Definition RateForRunway (c : option CdmAirportConfig) (depRwy : string) : Z :=
  match c with None => DefaultCDMRate | Some c => rate_from c (cc_Rates c) depRwy end.

Fixpoint dependent_from (rates : list CdmRate) (depRwy : string) : list string :=
  match rates with
  | [] => []
  | rate :: rates =>
      if negb (depRwyMatches rate depRwy) then dependent_from rates depRwy
      else if list_empty (cr_DependentRwy rate) || isWildcardList (cr_DependentRwy rate) then []
      else cr_DependentRwy rate
  end.

Definition DependentRunways (c : option CdmAirportConfig) (depRwy : string) : list string :=
  match c with None => [] | Some c => dependent_from (cc_Rates c) depRwy end.

(** ** Intervals between departure routes *)

Fixpoint sid_interval_from (intervals : list CdmSidInterval) (depRwy sid1 sid2 : string) : float64 :=
  match intervals with
  | [] => float_of_int 0
  | interval :: intervals =>
      if negb (EqualFold (si_Runway interval) depRwy) then sid_interval_from intervals depRwy sid1 sid2
      else if sameSID (si_Sid1 interval) sid1 && sameSID (si_Sid2 interval) sid2 then si_Value interval
      else if sameSID (si_Sid1 interval) sid2 && sameSID (si_Sid2 interval) sid1 then si_Value interval
      else sid_interval_from intervals depRwy sid1 sid2
  end.

Definition SidIntervalMinutes (c : option CdmAirportConfig) (depRwy sid1 sid2 : string) : float64 :=
  match c with
  | None => float_of_int 0
  | Some c => if sameSID sid1 sid2 then float_of_int 0 else sid_interval_from (cc_SidIntervals c) depRwy sid1 sid2
  end.

(** ** Taxi times *)

Fixpoint taxi_from (zones : list CdmTaxiZone) (depRwy : string) : option Z :=
  match zones with
  | [] => None
  | zone :: zones => if EqualFold (tz_Runway zone) depRwy && (0 <? tz_Minutes zone) then Some (tz_Minutes zone) else taxi_from zones depRwy
  end.

Definition TaxiMinutesForRunway (c : option CdmAirportConfig) (depRwy : string) : Z :=
  match c with
  | None => DefaultCDMTaxiMinutes
  | Some c =>
      match taxi_from (cc_TaxiZones c) depRwy with
      | Some minutes => minutes
      | None => if 0 <? cc_DefaultTaxiMinutes c then cc_DefaultTaxiMinutes c else DefaultCDMTaxiMinutes
      end
  end.

Definition deiceTaxiMinutes (z : CdmTaxiZone) (platform : string) : option Z :=
  let token := normalizeToken platform in
  let index := if str_eqb token "A" then Some 0%nat else if str_eqb token "B" then Some 1%nat else if str_eqb token "V" then Some 2%nat else None in
  match index with None => None | Some i => nth_error (tz_RemoteTaxiMinutes z) i end.

Definition DeiceTaxiMinutesForRunway (c : option CdmAirportConfig) (depRwy platform : string) : option Z :=
  match c with
  | None => None
  | Some c =>
      match List.find (λ zone, EqualFold (tz_Runway zone) depRwy) (cc_TaxiZones c) with
      | Some zone => deiceTaxiMinutes zone platform
      | None => None
      end
  end.

(** *** Taxi times of a position *)

Definition isUsableTaxiPosition (lat lon : float64) : bool := negb (Qeq_bool lat 0) || negb (Qeq_bool lon 0).

Section positions.
(** [taxiZoneContainsPoint] *)
Context (containsPoint : list CdmTaxiPoint → float64 → float64 → bool).

Definition TaxiMinutesForPosition (c : option CdmAirportConfig) (depRwy : string) (lat lon : float64) : option Z :=
  match c with
  | None => None
  | Some c =>
      if negb (isUsableTaxiPosition lat lon) then None
      else tz_Minutes <$> List.find (λ zone,
             EqualFold (tz_Runway zone) depRwy && (0 <? tz_Minutes zone) && (3 <=? List.length (tz_Polygon zone))%nat &&
             containsPoint (tz_Polygon zone) lat lon) (cc_TaxiZones c)
  end.

Definition DeiceTaxiMinutesForPosition (c : option CdmAirportConfig) (depRwy platform : string) (lat lon : float64) : option Z :=
  match c with
  | None => None
  | Some c =>
      if negb (isUsableTaxiPosition lat lon) then None
      else match List.find (λ zone,
                   EqualFold (tz_Runway zone) depRwy && (3 <=? List.length (tz_Polygon zone))%nat &&
                   containsPoint (tz_Polygon zone) lat lon) (cc_TaxiZones c) with
           | Some zone => deiceTaxiMinutes zone platform
           | None => None
           end
  end.
End positions.

(** ** De-icing *)

Definition DeiceMinutesForWtc (c : option CdmAirportConfig) (wtc : string) : Z :=
  match c with
  | None => 0
  | Some c =>
      let token := ToUpper (TrimSpace wtc) in
      let deice := cc_DeiceConfig c in
      if str_eqb token "L" then dc_Light deice else if str_eqb token "M" then dc_Medium deice
      else if str_eqb token "H" then dc_Heavy deice else if str_eqb token "J" then dc_Super deice else 0
  end.

Definition DeiceMinutesForPlatform (c : option CdmAirportConfig) (platform : string) : option Z :=
  match c with
  | None => None
  | Some c => dp_Time <$> List.find (λ p, EqualFold (dp_Name p) platform) (dc_Platform (cc_DeiceConfig c))
  end.

Definition deiceTypeToMinutes (config : option CdmAirportConfig) (deiceType : string) : Z :=
  let configured := DeiceMinutesForWtc config deiceType in
  if 0 <? configured then configured
  else
    let token := ToUpper (TrimSpace deiceType) in
    if str_eqb token "L" then 7 else if str_eqb token "M" then 10 else if str_eqb token "H" then 13 else if str_eqb token "J" then 18 else 0.

(** ** Wake categories *)

Inductive wake_category := WakeL | WakeM | WakeH | WakeJ.

(** [None] is the empty category. *)
Definition normalizeWakeCategory (value : string) : option wake_category :=
  let normalized := ToUpper (TrimSpace value) in
  if str_eqb normalized "L" then Some WakeL else if str_eqb normalized "M" then Some WakeM
  else if str_eqb normalized "H" then Some WakeH else if str_eqb normalized "J" then Some WakeJ
  else if str_eqb normalized "S" || str_eqb normalized "SUPER" then Some WakeJ else None.

Definition wakeSeparationMinutes (trailing leading : string) : Z :=
  match normalizeWakeCategory trailing, normalizeWakeCategory leading with
  | Some WakeL, Some WakeL => 1
  | Some WakeL, Some (WakeM | WakeH) => 2
  | Some WakeL, Some WakeJ => 3
  | Some WakeM, Some (WakeL | WakeM) => 1
  | Some WakeM, Some WakeH => 2
  | Some WakeM, Some WakeJ => 3
  | Some WakeH, Some (WakeL | WakeM | WakeH) => 1
  | Some WakeH, Some WakeJ => 2
  | Some WakeJ, Some _ => 1
  | _, _ => 0
  end.

(** ** Delays *)

Definition adverseDelayMaxLookAhead : Duration := 6 * Hour.

(** Midnight of the day of [now], plus the clock *)
Definition resolveDelayFloorTime (now : Time) (value : string) : option Time :=
  match parseClock (normalizeCalculationClock value) with
  | None => None
  | Some totalSeconds =>
      if totalSeconds <=? 0 then None
      else
        let candidate := mk_time (ns now - ns now mod (24 * Hour) + totalSeconds * Second) true in
        let candidate := if before candidate now then time_add candidate (24 * Hour) else candidate in
        if adverseDelayMaxLookAhead <? time_sub candidate now then None else Some candidate
  end.

Definition delayMatchesAirport (delayAirport configAirport : string) : bool :=
  let normalizedDelay := normalizeToken delayAirport in
  str_empty normalizedDelay || str_eqb normalizedDelay (normalizeToken configAirport).

Definition delayMatchesRunway (configured depRwy : string) : bool :=
  let token := TrimSpace configured in
  if str_empty token || str_eqb token "*" then true else sameRunway configured depRwy.

Definition later_floor (c : CdmAirportConfig) (depRwy : string) (now latest : Time) (delay : CdmDelay) : Time :=
  if negb (delayMatchesAirport (dl_Airport delay) (cc_Airport c)) || negb (delayMatchesRunway (dl_Runway delay) depRwy) then latest
  else match resolveDelayFloorTime now (dl_Time delay) with
       | None => latest
       | Some floor => if is_zero latest || after floor latest then floor else latest
       end.

(** The text is empty where the code returns [false] with it. *)
Definition DelayFloorForRunway (c : option CdmAirportConfig) (depRwy : string) (now : Time) : string :=
  match c with
  | None => ""
  | Some c =>
      let latest := foldl (later_floor c depRwy now) zero_time (cc_Delays c) in
      if is_zero latest then "" else timeToClock latest
  end.

Definition applyAdverseConditionFloor (candidate delayFloor : string) : string :=
  if str_empty delayFloor then candidate
  else if str_empty candidate || negb (isAfterOrEqual candidate delayFloor) then delayFloor
  else candidate.
