(* ===== verification/CdmCalculate.v ===== *)
(** * Departure slots: [cdm/calculate.go]

    [Calculate] gives a departure its target start-up and take-off times. From
    the base time and the taxi times it gets the earliest take-off time
    ([unconstrainedTtot]), and then moves that by half a minute at a time until
    no other slot of the airport forbids it. *)

From S2P Require Import Prelude GoTime GoFloat CdmClock CdmConfig.
From Stdlib Require Import Strings.Ascii Strings.String QArith Qabs Lqa.

Local Open Scope Z_scope.

(** ** Data *)

Record CalcInput := mk_calc_input {
  ci_Callsign : string; ci_Origin : string; ci_Destination : string; ci_DepRwy : string; ci_Sid : string; ci_WakeCat : string;
  ci_Eobt : string; ci_Tobt : string; ci_TobtAuthoritative : bool; ci_Ctot : string; ci_Aobt : string; ci_Asat : string;
  ci_TaxiMin : Z; ci_DeIceMin : Z; ci_DeiceTaxiMin : Z; ci_HasManCtot : bool; ci_ManCtot : string
}.

Record SlotEntry := mk_slot_entry {
  se_Callsign : string; se_Origin : string; se_Destination : string; se_DepRwy : string; se_Sid : string; se_WakeCat : string;
  se_Ttot : string; se_HasManCtot : bool; se_ManCtot : string
}.

Record CalcResult := mk_calc_result { cx_Tsat : string; cx_Ttot : string }.

Definition no_result : CalcResult := mk_calc_result "" "".

(** The values of [Kind]; the last one is the common name that the reason markers
    give to the two kinds of runway spacing. *)
Inductive trace_kind :=
  | SameDestinationSeparation | RunwaySlotCollision | RunwayRateWindow | WakeSeparation | SidInterval | RunwaySpacing.

Record calculationTraceEntry := mk_trace_entry {
  te_Kind : trace_kind; te_AgainstCallsign : string; te_AgainstTtot : string; te_AgainstRunway : string; te_AgainstSid : string;
  te_RequiredSpacingMinutes : float64; te_FromTtot : string; te_ToTtot : string
}.

(** ** The helpers *)

Definition sameDestinationSeparationMinutes : float64 := float_of_int 3.

(** An [int] sum *)
Definition exotMinutes (input : CalcInput) : Z := wrap64 (wrap64 (ci_TaxiMin input + ci_DeIceMin input) + ci_DeiceTaxiMin input).

Inductive base_source := NoBase | BaseTobt | BaseEobt.

Definition selectCalculationBaseWithSource (input : CalcInput) : string * base_source :=
  let base := normalizeCalculationClock (ci_Tobt input) in
  let eobt := normalizeCalculationClock (ci_Eobt input) in
  if str_empty base then (if str_empty eobt then (""%string, NoBase) else (eobt, BaseEobt)) else (base, BaseTobt).

Definition selectCalculationBase (input : CalcInput) : string := (selectCalculationBaseWithSource input).1.

Definition hasStarted (input : CalcInput) : bool :=
  negb (str_empty (normalizeCalculationClock (ci_Asat input))) || negb (str_empty (normalizeCalculationClock (ci_Aobt input))).

Definition shouldInvalidateStaleTobt (input : CalcInput) (nowHHMMSS : string) : bool :=
  if hasStarted input then false
  else
    let tobt := normalizeCalculationClock (ci_Tobt input) in
    if str_empty tobt then false else isMoreThanMinutesPast tobt nowHHMMSS (float_of_int 5).

Definition shouldInvalidateStaleTsat (input : CalcInput) (tsat nowHHMMSS : string) : bool :=
  if hasStarted input then false else negb (str_empty tsat) && isMoreThanMinutesPast tsat nowHHMMSS (float_of_int 5).

Definition shouldApplyRateWindow (currentManual existingManual : bool) : bool :=
  if Bool.eqb currentManual existingManual then true else negb currentManual && negb existingManual.

Definition sameOrDependentRunway (current other : string) (config : option CdmAirportConfig) : bool :=
  if sameRunway current other then true
  else match config with
       | None => false
       | Some _ =>
           existsb (λ dependent, sameRunway dependent other) (DependentRunways config current) ||
           existsb (λ dependent, sameRunway dependent current) (DependentRunways config other)
       end.

Definition withinWindow (candidate slot : string) (windowMinutes : float64) : bool :=
  if fle windowMinutes (float_of_int 0) then false
  else
    let diff := fabs (minutesBetween slot candidate) in
    flt (float_of_int 0) diff && flt diff windowMinutes.

Definition sameDestination (current other : string) : bool :=
  let normalizedCurrent := normalizeToken current in
  negb (str_empty normalizedCurrent) && str_eqb normalizedCurrent (normalizeToken other).

Definition violatesSameDestinationSeparation (candidateTtot candidateDestination slotTtot slotDestination : string) : bool :=
  if negb (sameDestination candidateDestination slotDestination) then false
  else str_eqb (toHHMMSS slotTtot) (toHHMMSS candidateTtot) || withinWindow candidateTtot slotTtot sameDestinationSeparationMinutes.

(** [ttot] raised to [floor] when it lies before it *)
Definition not_before (ttot floor : string) : string := if negb (isAfterOrEqual ttot floor) then floor else ttot.

Definition unconstrainedTtot (input : CalcInput) (config : option CdmAirportConfig) (now : Time) : string :=
  let base := selectCalculationBase input in
  if str_empty base then ""%string
  else
    let ttot := addMinutes (toHHMMSS base) (float_of_int (exotMinutes input)) in
    let ttot := if ci_HasManCtot input && negb (str_empty (TrimSpace (ci_ManCtot input))) then not_before ttot (toHHMMSS (ci_ManCtot input)) else ttot in
    let ctot := toHHMMSS (TrimSpace (ci_Ctot input)) in
    let ttot := if negb (str_empty ctot) then not_before ttot ctot else ttot in
    applyAdverseConditionFloor ttot (DelayFloorForRunway config (ci_DepRwy input) now).

(** ** The search *)

(** A slot of another airport, or of the flight itself, is not looked at. *)
Definition foreign (input : CalcInput) (slot : SlotEntry) : bool :=
  negb (EqualFold (TrimSpace (se_Origin slot)) (TrimSpace (ci_Origin input))) ||
  EqualFold (TrimSpace (se_Callsign slot)) (TrimSpace (ci_Callsign input)).

(** The wake minimum between the two flights in the order of their take-off times *)
Definition wake_minutes (input : CalcInput) (slot : SlotEntry) (ttot : string) : Z :=
  if negb (isAfterOrEqual ttot (se_Ttot slot)) then wakeSeparationMinutes (se_WakeCat slot) (ci_WakeCat input)
  else wakeSeparationMinutes (ci_WakeCat input) (se_WakeCat slot).

Definition trace_entry (slot : SlotEntry) (kind : trace_kind) (spacing : float64) (ttot : string) : calculationTraceEntry :=
  mk_trace_entry kind (se_Callsign slot) (se_Ttot slot) (se_DepRwy slot) (se_Sid slot) spacing ttot (addMinutes ttot half_minute).

(** The body of the loop over the slots: the reason why [slot] forbids [ttot], if it does *)
Definition slot_conflict (input : CalcInput) (config : option CdmAirportConfig) (rateWindow : float64) (ttot : string) (slot : SlotEntry) :
    option calculationTraceEntry :=
  if foreign input slot then None
  else if violatesSameDestinationSeparation ttot (ci_Destination input) (se_Ttot slot) (se_Destination slot) then
    Some (trace_entry slot SameDestinationSeparation sameDestinationSeparationMinutes ttot)
  else if negb (sameOrDependentRunway (ci_DepRwy input) (se_DepRwy slot) config) then None
  else if str_eqb (toHHMMSS (se_Ttot slot)) ttot then Some (trace_entry slot RunwaySlotCollision (float_of_int 0) ttot)
  else if shouldApplyRateWindow (ci_HasManCtot input) (se_HasManCtot slot) && withinWindow ttot (se_Ttot slot) rateWindow then
    Some (trace_entry slot RunwayRateWindow rateWindow ttot)
  else if sameRunway (ci_DepRwy input) (se_DepRwy slot) && (0 <? wake_minutes input slot ttot) &&
          withinWindow ttot (se_Ttot slot) (float_of_int (wake_minutes input slot ttot)) then
    Some (trace_entry slot WakeSeparation (float_of_int (wake_minutes input slot ttot)) ttot)
  else
    let interval := SidIntervalMinutes config (ci_DepRwy input) (ci_Sid input) (se_Sid slot) in
    if not_nil config && flt (float_of_int 0) interval && withinWindow ttot (se_Ttot slot) interval then
      Some (trace_entry slot SidInterval interval ttot)
    else None.

Fixpoint first_conflict (input : CalcInput) (config : option CdmAirportConfig) (rateWindow : float64) (ttot : string) (slots : list SlotEntry) :
    option calculationTraceEntry :=
  match slots with
  | [] => None
  | slot :: slots =>
      match slot_conflict input config rateWindow ttot slot with
      | Some entry => Some entry
      | None => first_conflict input config rateWindow ttot slots
      end
  end.

Definition search_step (input : CalcInput) (slots : list SlotEntry) (config : option CdmAirportConfig) (rateWindow : float64)
    (s : string * list calculationTraceEntry) : outcome ((string * list calculationTraceEntry) + (string * list calculationTraceEntry)) :=
  let '(ttot, trace) := s in
  match first_conflict input config rateWindow ttot slots with
  | Some entry => Ok (inl (te_ToTtot entry, trace ++ [entry]))
  | None => Ok (inr (ttot, trace))
  end.

(** One more than the number of half minutes of a day: by then every time of the
    grid has been tried ([search_hangs]). *)
Definition search_fuel : positive := 2882.

Definition rate_window (input : CalcInput) (config : option CdmAirportConfig) : float64 :=
  let rate := match config with None => DefaultCDMRate | Some _ => RateForRunway config (ci_DepRwy input) end in
  let rate := if rate <=? 0 then DefaultCDMRate else rate in
  fdiv (float_of_int 60) (float_of_int rate).

Definition calculateWithTrace (input : CalcInput) (slots : list SlotEntry) (config : option CdmAirportConfig) (now : Time) :
    outcome (CalcResult * list calculationTraceEntry) :=
  let nowHHMMSS := timeToClock now in
  if shouldInvalidateStaleTobt input nowHHMMSS then Ok (no_result, [])
  else
    let ttot := unconstrainedTtot input config now in
    if str_empty ttot then Ok (no_result, [])
    else if is_nil (parseClock ttot) then Ok (no_result, [])
    else
      s ← iterate search_fuel (search_step input slots config (rate_window input config)) (ttot, []);
      let '(ttot, trace) := s in
      let tsat := subtractMinutes ttot (float_of_int (exotMinutes input)) in
      if shouldInvalidateStaleTsat input tsat nowHHMMSS then Ok (no_result, trace)
      else Ok (mk_calc_result tsat ttot, trace).

Definition Calculate (input : CalcInput) (slots : list SlotEntry) (config : option CdmAirportConfig) (now : Time) : outcome CalcResult :=
  r ← calculateWithTrace input slots config now; Ok r.1.

(** The reasons of [slot_conflict], one after the other *)
Ltac conflict_cases :=
  unfold slot_conflict; cbv zeta;
  repeat match goal with
  | |- context [if ?b then _ else _] => let E := fresh "E" in destruct b eqn:E
  end.

Lemma slot_conflict_to input config window ttot slot e :
  slot_conflict input config window ttot slot = Some e → te_FromTtot e = ttot ∧ te_ToTtot e = addMinutes ttot half_minute.
Proof. conflict_cases; intros H; by simplify_eq. Qed.

(** ** The grid the search walks over *)

Definition nth_ttot (ttot : string) (n : nat) : string := Nat.iter n (λ v, addMinutes v half_minute) ttot.

Lemma nth_ttot_clock ttot t n : parseClock ttot = Some t → nth_ttot ttot (S n) = formatClock (day_add t (30 * Z.of_nat (S n))).
Proof.
  intros Ht. induction n as [|n IH]; [by apply addMinutes_half|].
  change (addMinutes (nth_ttot ttot (S n)) half_minute = formatClock (day_add t (30 * Z.of_nat (S (S n))))).
  rewrite IH, (addMinutes_half _ (day_add t (30 * Z.of_nat (S n)))) by apply parse_format, day_add_second.
  rewrite day_add_add. do 2 f_equal. lia.
Qed.

Lemma nth_ttot_parse ttot t n : parseClock ttot = Some t → parseClock (nth_ttot ttot n) = Some (day_add t (30 * Z.of_nat n)).
Proof.
  intros Ht. destruct n as [|n]; [|rewrite (nth_ttot_clock _ t) by done; apply parse_format, day_add_second].
  pose proof (parseClock_range _ _ Ht) as Hr. unfold day_add. simpl. rewrite Ht, Z.add_0_r, Z.mod_small by exact Hr. done.
Qed.

(** After a day the grid repeats itself. *)
Lemma nth_ttot_period ttot t n : parseClock ttot = Some t → nth_ttot ttot (S n + 2880) = nth_ttot ttot (S n).
Proof.
  intros Ht. change (S n + 2880)%nat with (S (n + 2880)). rewrite !(nth_ttot_clock _ t) by done. f_equal. unfold day_add.
  rewrite <-(Z.mod_add (t + 30 * Z.of_nat (S n)) 1) by lia. f_equal. lia.
Qed.

(** ** The search *)

Section search.
#[local] Arguments search_step : simpl never.
Context (input : CalcInput) (slots : list SlotEntry) (config : option CdmAirportConfig) (window : float64).

Definition free (ttot : string) : Prop := first_conflict input config window ttot slots = None.
#[local] Instance free_dec ttot : base.Decision (free ttot).
Proof. unfold free. destruct (first_conflict _ _ _ _ _) eqn:E; [by right|by left]. Defined.

Lemma free_iff ttot : free ttot ↔ ∀ slot, slot ∈ slots → slot_conflict input config window ttot slot = None.
Proof.
  unfold free. induction slots as [|s l IH]; simpl; [split; [by intros _ ? ?%elem_of_nil|done]|].
  destruct (slot_conflict input config window ttot s) eqn:E.
  - split; [done|]. intros H. specialize (H s (list_elem_of_here _ _)). congruence.
  - rewrite IH. split; [|set_solver]. intros H x [-> | Hx]%elem_of_cons; [done|by apply H].
Qed.

Lemma first_conflict_to ttot l e : first_conflict input config window ttot l = Some e → te_FromTtot e = ttot ∧ te_ToTtot e = addMinutes ttot half_minute.
Proof.
  induction l as [|s l IH]; simpl; [done|]. destruct (slot_conflict _ _ _ _ s) eqn:E; [|done].
  intros [= ->]. by apply slot_conflict_to in E.
Qed.

Lemma first_conflict_slot ttot l e :
  first_conflict input config window ttot l = Some e → ∃ slot, slot ∈ l ∧ slot_conflict input config window ttot slot = Some e.
Proof.
  induction l as [|s l IH]; simpl; [done|]. destruct (slot_conflict _ _ _ _ s) eqn:E; [intros [= ->]; exists s; split; [left|done]|].
  intros (slot & Hin & H)%IH. exists slot. split; [by right|done].
Qed.

(** The trace that walks from [ttot] over [n] times *)
Fixpoint walk (ttot : string) (trace : list calculationTraceEntry) : Prop :=
  match trace with
  | [] => True
  | e :: trace => te_FromTtot e = ttot ∧ te_ToTtot e = addMinutes ttot half_minute ∧ walk (addMinutes ttot half_minute) trace
  end.

Lemma nth_ttot_shift ttot n : nth_ttot (addMinutes ttot half_minute) n = nth_ttot ttot (S n).
Proof. unfold nth_ttot. by rewrite Nat.iter_succ_r. Qed.

Lemma search_blocked n ttot trace :
  (∀ i, (i < n)%nat → ¬ free (nth_ttot ttot i)) →
  ∃ more, List.length more = n ∧ walk ttot more ∧
    loop_nat n (search_step input slots config window) (ttot, trace) = Ok (inl (nth_ttot ttot n, trace ++ more)).
Proof.
  revert ttot trace. induction n as [|n IH]; intros ttot trace Hb.
  { exists []. by rewrite app_nil_r. }
  pose proof (Hb 0%nat ltac:(lia)) as H0. unfold free in H0. simpl in H0.
  destruct (first_conflict input config window ttot slots) as [e|] eqn:E; [|done].
  pose proof (first_conflict_to _ _ _ E) as [Ef Et].
  destruct (IH (addMinutes ttot half_minute) (trace ++ [e])) as (more & Hl & Hw & Hm).
  { intros i Hi. rewrite nth_ttot_shift. apply Hb. lia. }
  exists (e :: more). split_and!; [simpl; lia|done|].
  assert (Hs : search_step input slots config window (ttot, trace) = Ok (inl (addMinutes ttot half_minute, trace ++ [e])))
    by (unfold search_step; by rewrite E, Et).
  simpl. rewrite Hs. simpl. by rewrite Hm, nth_ttot_shift, <-app_assoc.
Qed.

Lemma search_found n m ttot :
  (∀ i, (i < n)%nat → ¬ free (nth_ttot ttot i)) → free (nth_ttot ttot n) → (n < m)%nat →
  ∃ trace, List.length trace = n ∧ walk ttot trace ∧
    loop_nat m (search_step input slots config window) (ttot, []) = Ok (inr (nth_ttot ttot n, trace)).
Proof.
  intros Hb Hf Hm. destruct (search_blocked n ttot [] Hb) as (more & Hl & Hw & Hn). exists more. split_and!; [done..|].
  assert (Hs : search_step input slots config window (nth_ttot ttot n, more) = Ok (inr (nth_ttot ttot n, more)))
    by (unfold search_step; unfold free in Hf; by rewrite Hf).
  replace m with (n + S (m - n - 1))%nat by lia. rewrite loop_nat_add, Hn. simpl. by rewrite Hs.
Qed.

(** The search yields the first time of the grid that is free. *)
Lemma search_result ttot r :
  iterate search_fuel (search_step input slots config window) (ttot, []) = Ok r →
  ∃ n, (∀ i, (i < n)%nat → ¬ free (nth_ttot ttot i)) ∧ free (nth_ttot ttot n) ∧ r.1 = nth_ttot ttot n ∧ List.length r.2 = n ∧ walk ttot r.2.
Proof.
  unfold iterate. rewrite loop_loop_nat. destruct (least_or_none (P := λ n, free (nth_ttot ttot n)) (Pos.to_nat search_fuel)) as [(n & Hn & Hf & Hb)|Hb].
  - destruct (search_found n (Pos.to_nat search_fuel) ttot Hb Hf Hn) as (trace & Hl & Hw & ->). intros [= <-]. by exists n.
  - destruct (search_blocked (Pos.to_nat search_fuel) ttot [] Hb) as (more & _ & _ & ->). done.
Qed.

(** It hangs only if no time of the day is free, and then the loop never ends. *)
Lemma search_hangs ttot t :
  parseClock ttot = Some t →
  iterate search_fuel (search_step input slots config window) (ttot, []) = Hang ↔ ∀ i, ¬ free (nth_ttot ttot i).
Proof.
  intros Ht. unfold iterate. rewrite loop_loop_nat.
  destruct (least_or_none (P := λ n, free (nth_ttot ttot n)) (Pos.to_nat search_fuel)) as [(n & Hn & Hf & Hb)|Hb].
  - destruct (search_found n (Pos.to_nat search_fuel) ttot Hb Hf Hn) as (trace & _ & _ & ->). split; [done|]. intros H. by destruct (H n).
  - destruct (search_blocked (Pos.to_nat search_fuel) ttot [] Hb) as (more & _ & _ & ->). split; [intros _|done].
    assert (Hp : ∀ k i, (S i < 2880 * S k)%nat → ¬ free (nth_ttot ttot (S i))).
    { induction k as [|k IH]; intros i Hi; [apply Hb; unfold search_fuel; lia|].
      destruct (Nat.lt_ge_cases (S i) (2880 * S k)) as [|Hge]; [by apply IH|].
      destruct (Nat.eq_dec i (2880 * S k - 1)) as [->|Hne].
      { replace (S (2880 * S k - 1))%nat with (S (2880 * k + 2879))%nat by lia. destruct k as [|k]; [apply Hb; unfold search_fuel; lia|].
        replace (S (2880 * S k + 2879))%nat with (S (2880 * k + 2879) + 2880)%nat by lia. rewrite (nth_ttot_period _ t) by done. apply IH. lia. }
      replace (S i) with (S (i - 2880) + 2880)%nat by lia. rewrite (nth_ttot_period _ t) by done. apply IH. lia. }
    intros [|i]; [apply Hb; unfold search_fuel; lia|]. apply (Hp i). lia.
Qed.

End search.

(** ** What the windows mean *)

Lemma minutes_of_tiny d k : minutes_of d k → (inject_Z (Z.abs k) / inject_Z 60 - tiny <= fabs d <= inject_Z (Z.abs k) / inject_Z 60 + tiny)%Q.
Proof. intros H%minutes_of_abs. destruct H as [[H1 H2]%Qabs_bounds _]. split; lra. Qed.

Lemma minutes_of_zero d k : minutes_of d k → flt (float_of_int 0) (fabs d) = true ↔ k ≠ 0.
Proof.
  intros H%minutes_of_abs. destruct (minutes_of_compare _ _ 0 H ltac:(lia)) as (_ & -> & _). rewrite Z.ltb_lt. lia.
Qed.

Section within.
Context (candidate slot : string) (k : Z) (Hk : minutes_of (minutesBetween slot candidate) k).

Lemma outside_window window : withinWindow candidate slot window = false → k ≠ 0 → (window <= inject_Z (Z.abs k) / inject_Z 60 + tiny)%Q.
Proof.
  unfold withinWindow. intros Hw Hne. pose proof (minutes_of_tiny _ _ Hk) as [_ H2].
  destruct (fle window (float_of_int 0)) eqn:E.
  - apply fle_iff in E. rewrite (float_of_int_exact 0) in E by lia.
    pose proof (minutes_le 0 (Z.abs k) ltac:(lia)) as H. assert (E0 : (inject_Z 0 / inject_Z 60 == 0)%Q) by reflexivity.
    change (inject_Z 0) with 0%Q in E. unfold tiny. lra.
  - rewrite (proj2 (minutes_of_zero _ _ Hk) Hne) in Hw. simpl in Hw. apply flt_false in Hw. lra.
Qed.

Lemma inside_window window : withinWindow candidate slot window = true → k ≠ 0 ∧ (inject_Z (Z.abs k) / inject_Z 60 < window + tiny)%Q.
Proof.
  unfold withinWindow. destruct (fle window (float_of_int 0)); [done|]. intros [H1 H2]%andb_true_iff.
  apply (minutes_of_zero _ _ Hk) in H1. apply flt_iff in H2. pose proof (minutes_of_tiny _ _ Hk) as [H3 _]. split; [done|]. lra.
Qed.

(** Windows of whole minutes *)
Lemma outside_minutes m : withinWindow candidate slot (float_of_int m) = false → k ≠ 0 → Z.abs m ≤ 1440 → 60 * m ≤ Z.abs k.
Proof.
  intros Hw Hne Hm. apply outside_window in Hw; [|done]. rewrite float_of_int_exact in Hw by lia.
  destruct (Z.le_gt_cases (60 * m) (Z.abs k)) as [|Hlt]; [done|exfalso].
  pose proof (minutes_le (Z.abs k + 1) (60 * m) ltac:(lia)) as H. rewrite inject_Z_plus, inject_Z_mult in H.
  assert (E : (inject_Z 60 * inject_Z m / inject_Z 60 == inject_Z m)%Q) by field.
  assert (E' : ((inject_Z (Z.abs k) + inject_Z 1) / inject_Z 60 == inject_Z (Z.abs k) / inject_Z 60 + (1 # 60))%Q) by field.
  unfold tiny in Hw. lra.
Qed.

(** A window of at most [W] minutes, up to rounding *)
Lemma inside_minutes window W :
  withinWindow candidate slot window = true → (window <= inject_Z W + tiny)%Q → Z.abs k ≤ 60 * W.
Proof.
  intros [_ Hw]%inside_window HW. destruct (Z.le_gt_cases (Z.abs k) (60 * W)) as [|Hgt]; [done|exfalso].
  pose proof (minutes_le (60 * W + 1) (Z.abs k) ltac:(lia)) as H. rewrite inject_Z_plus, inject_Z_mult in H.
  assert (E : ((inject_Z 60 * inject_Z W + inject_Z 1) / inject_Z 60 == inject_Z W + (1 # 60))%Q) by field.
  unfold tiny in *. lra.
Qed.

End within.

(** *** The window of a rate *)

Lemma rate_quotient rate : 0 < rate < 2 ^ 53 →
  (Qabs (fdiv (float_of_int 60) (float_of_int rate) - inject_Z 60 / inject_Z rate) <= (inject_Z 60 / inject_Z rate) * (1 # 9007199254740992))%Q.
Proof.
  intros Hr. pose proof (fl_error (float_of_int 60 / float_of_int rate)) as H. unfold fdiv.
  assert (E : (float_of_int 60 / float_of_int rate == inject_Z 60 / inject_Z rate)%Q) by (rewrite !float_of_int_exact by lia; reflexivity).
  rewrite E in H at 2 3. refine (Qle_trans _ _ _ H _). rewrite Qabs_pos; [apply Qle_refl|].
  apply Qle_shift_div_l; [rewrite <-(Zlt_Qlt 0); lia|]. rewrite Qmult_0_l, <-(Zle_Qle 0); lia.
Qed.

Lemma quotient_le rate a b : 0 < rate → 60 * b ≤ a * rate → (inject_Z b / inject_Z rate <= inject_Z a / inject_Z 60)%Q.
Proof.
  intros Hr Hab. apply Qle_shift_div_r; [rewrite <-(Zlt_Qlt 0); lia|].
  assert (E : (inject_Z a / inject_Z 60 * inject_Z rate == inject_Z (a * rate) / inject_Z 60)%Q) by (rewrite inject_Z_mult; field).
  rewrite E. apply Qle_shift_div_l; [done|]. rewrite <-inject_Z_mult, <-Zle_Qle. lia.
Qed.

Lemma outside_rate_window candidate slot k rate :
  minutes_of (minutesBetween slot candidate) k → 0 < rate →
  withinWindow candidate slot (fdiv (float_of_int 60) (float_of_int rate)) = false → k ≠ 0 → 3600 ≤ Z.abs k * rate.
Proof.
  intros Hk Hr Hw Hne. destruct (Z.le_gt_cases 3600 rate) as [|Hlt]; [nia|].
  destruct (Z.le_gt_cases 3600 (Z.abs k * rate)) as [|Hgt]; [done|exfalso].
  apply (outside_window _ _ _ Hk) in Hw; [|done]. pose proof (rate_quotient rate ltac:(lia)) as [H1 _]%Qabs_bounds.
  assert (H2 : (inject_Z (Z.abs k) / inject_Z 60 + (1 # 216000) <= inject_Z 60 / inject_Z rate)%Q).
  { apply Qle_shift_div_l; [rewrite <-(Zlt_Qlt 0); lia|].
    assert (Hb : Z.abs k * rate + 1 ≤ 3600) by lia. assert (Hb' : 3600 * (Z.abs k * rate) + rate ≤ 3600 * 3600) by nia.
    rewrite Zle_Qle in Hb'. rewrite !inject_Z_plus, !inject_Z_mult in Hb'.
    assert (E : ((inject_Z (Z.abs k) / inject_Z 60 + (1 # 216000)) * inject_Z rate ==
                 (inject_Z 3600 * (inject_Z (Z.abs k) * inject_Z rate) + inject_Z rate) / inject_Z 216000)%Q) by field.
    rewrite E. apply Qle_shift_div_r; [done|]. change (inject_Z 3600) with (3600 # 1) in *. change (inject_Z 60 * inject_Z 216000)%Q with (12960000 # 1).
    change ((3600 # 1) * (3600 # 1))%Q with (12960000 # 1) in Hb'. exact Hb'. }
  assert (H3 : (inject_Z 60 / inject_Z rate <= 60)%Q).
  { pose proof (quotient_le rate 3600 60 Hr ltac:(nia)) as H.
    assert (E : (inject_Z 3600 / inject_Z 60 == 60)%Q) by reflexivity. by rewrite E in H. }
  unfold tiny in Hw. lra.
Qed.

Lemma rate_window_le rate W : 0 < rate < 2 ^ 53 → 60 ≤ W * rate → W ≤ 720 →
  (fdiv (float_of_int 60) (float_of_int rate) <= inject_Z W + tiny)%Q.
Proof.
  intros Hr HW HW'. pose proof (rate_quotient rate Hr) as [_ H2]%Qabs_bounds.
  pose proof (quotient_le rate (60 * W) 60 ltac:(lia) ltac:(nia)) as H. rewrite inject_Z_mult in H.
  assert (E : (inject_Z 60 * inject_Z W / inject_Z 60 == inject_Z W)%Q) by field.
  assert (H3 : (inject_Z W <= 720)%Q) by (rewrite <-(Zle_Qle _ 720); lia). unfold tiny. lra.
Qed.

(** ** What a free time means *)

Lemma default_rate_pos c : 0 < default_rate c.
Proof.
  unfold default_rate, DefaultCDMRateLVO, DefaultCDMRate.
  destruct (cc_LvoActive c); [destruct (Z.leb_spec (cc_DefaultRateLvo c) 0)|destruct (Z.leb_spec (cc_DefaultRate c) 0)]; lia.
Qed.

Lemma parsePositiveInt_pos v n : parsePositiveInt v = Some n → 0 < n.
Proof.
  unfold parsePositiveInt. destruct (Atoi _) as [p|]; [|done]. destruct (Z.leb_spec p 0); intros [= <-]. lia.
Qed.

Lemma RateForRunway_pos config depRwy : 0 < RateForRunway config depRwy.
Proof.
  destruct config as [c|]; [|done]. simpl. induction (cc_Rates c) as [|r l IH]; simpl; [apply default_rate_pos|].
  repeat case_match; try exact IH. unfold row_rate. cbv zeta. destruct (list_empty _); [apply default_rate_pos|].
  destruct (parsePositiveInt _) eqn:E; [by apply parsePositiveInt_pos in E|apply default_rate_pos].
Qed.

Lemma rate_window_rate input config :
  rate_window input config = fdiv (float_of_int 60) (float_of_int (RateForRunway config (ci_DepRwy input))).
Proof.
  unfold rate_window. pose proof (RateForRunway_pos config (ci_DepRwy input)). destruct config as [c|]; [|done].
  destruct (Z.leb_spec (RateForRunway (Some c) (ci_DepRwy input)) 0); [lia|done].
Qed.

(** The take-off at [k] seconds after the one of [slot] keeps every minimum:
    three minutes to one destination, never the same time on a runway or a
    dependent one, the interval of the rate between flights that are both manual
    or both not, the wake minimum of the follower behind the leader, and the
    interval of their departure routes. *)
Record kept_apart (input : CalcInput) (config : option CdmAirportConfig) (slot : SlotEntry) (k : Z) : Prop := {
  ka_destination : sameDestination (ci_Destination input) (se_Destination slot) = true → 180 ≤ Z.abs k;
  ka_runway : sameOrDependentRunway (ci_DepRwy input) (se_DepRwy slot) config = true → k ≠ 0;
  ka_rate : sameOrDependentRunway (ci_DepRwy input) (se_DepRwy slot) config = true → ci_HasManCtot input = se_HasManCtot slot →
    3600 ≤ Z.abs k * RateForRunway config (ci_DepRwy input);
  ka_wake : sameRunway (ci_DepRwy input) (se_DepRwy slot) = true →
    60 * (if 0 <=? k then wakeSeparationMinutes (ci_WakeCat input) (se_WakeCat slot)
          else wakeSeparationMinutes (se_WakeCat slot) (ci_WakeCat input)) ≤ Z.abs k;
  ka_sid : sameOrDependentRunway (ci_DepRwy input) (se_DepRwy slot) config = true →
    (SidIntervalMinutes config (ci_DepRwy input) (ci_Sid input) (se_Sid slot) <= inject_Z (Z.abs k) / inject_Z 60 + tiny)%Q
}.

(** A value that [toHHMMSS] turns into a printed clock *)
Definition clock_text (v : string) (s : Z) : Prop := day_second s ∧ toHHMMSS v = formatClock s.

Lemma toHHMMSS_idem_text v s : clock_text v s → toHHMMSS (toHHMMSS v) = toHHMMSS v.
Proof. intros [Hs E]. by rewrite E, toHHMMSS_format. Qed.

Lemma circular_zero s t : day_second s → day_second t → circular (t - s) = 0 ↔ t = s.
Proof.
  unfold day_second, circular. intros. destruct (Z.leb_spec (t - s) (-43200)); [lia|]. destruct (Z.ltb_spec 43200 (t - s)); lia.
Qed.

Lemma wakeSeparation_range a b : 0 ≤ wakeSeparationMinutes a b ≤ 3.
Proof. unfold wakeSeparationMinutes. repeat case_match; lia. Qed.

Lemma no_conflict_apart input config slot t s :
  day_second t → parseClock (se_Ttot slot) = Some s → clock_text (se_Ttot slot) s → foreign input slot = false →
  slot_conflict input config (rate_window input config) (formatClock t) slot = None → kept_apart input config slot (circular (t - s)).
Proof.
  intros Ht Hp [Hs Es] Hf. set (k := circular (t - s)).
  pose proof (minutesBetween_circular _ _ _ _ Hp (parse_format t Ht)) as Hk. fold k in Hk.
  pose proof (isAfterOrEqual_circular _ _ _ _ (parse_format t Ht) Hp) as Ha. fold k in Ha.
  assert (Hne : str_eqb (toHHMMSS (se_Ttot slot)) (formatClock t) = false → k ≠ 0).
  { rewrite str_eqb_neq, Es. intros Hn Hz. apply (circular_zero s t Hs Ht) in Hz. by subst t. }
  unfold slot_conflict. rewrite Hf, rate_window_rate. cbv zeta.
  destruct (violatesSameDestinationSeparation _ _ _ _) eqn:Ev; [done|].
  assert (Hd : sameDestination (ci_Destination input) (se_Destination slot) = true → 180 ≤ Z.abs k).
  { intros Hd. unfold violatesSameDestinationSeparation in Ev. rewrite Hd, (toHHMMSS_format t Ht) in Ev.
    apply orb_false_iff in Ev as [E1 E2]. exact (outside_minutes _ _ _ Hk 3 E2 (Hne E1) ltac:(lia)). }
  destruct (negb (sameOrDependentRunway _ _ _)) eqn:Er.
  { apply negb_true_iff in Er. intros _. split; try (rewrite Er; done); [done|].
    intros Hr. unfold sameOrDependentRunway in Er. by rewrite Hr in Er. }
  destruct (str_eqb _ _) eqn:Ec; [done|]. specialize (Hne eq_refl).
  destruct (shouldApplyRateWindow _ _ && _) eqn:Ew; [done|]. destruct (sameRunway _ _ && _ && _) eqn:Ek; [done|].
  destruct (not_nil config && _ && _) eqn:Ei; [done|]. intros _. split; [done|done|..].
  - intros _ Hm. apply (outside_rate_window (formatClock t) (se_Ttot slot)); [done|apply RateForRunway_pos| |done].
    unfold shouldApplyRateWindow in Ew. rewrite Hm, Bool.eqb_reflx in Ew. exact Ew.
  - intros Hr. rewrite Hr in Ek. unfold wake_minutes in Ek. rewrite Ha in Ek. simpl in Ek.
    set (w := if 0 <=? k then _ else _). assert (Hw : (if negb (0 <=? k) then wakeSeparationMinutes (se_WakeCat slot) (ci_WakeCat input)
      else wakeSeparationMinutes (ci_WakeCat input) (se_WakeCat slot)) = w) by (subst w; by destruct (0 <=? k)).
    rewrite Hw in Ek. assert (Hb : 0 ≤ w ≤ 3) by (subst w; destruct (0 <=? k); apply wakeSeparation_range).
    destruct (Z.ltb_spec 0 w); [|lia]. exact (outside_minutes _ _ _ Hk w Ek Hne ltac:(lia)).
  - intros _. set (v := SidIntervalMinutes _ _ _ _) in *.
    assert (Hz : (v <= 0)%Q → (v <= inject_Z (Z.abs k) / inject_Z 60 + tiny)%Q).
    { intros Hv. pose proof (minutes_le 0 (Z.abs k) ltac:(lia)) as H. assert (E0 : (inject_Z 0 / inject_Z 60 == 0)%Q) by reflexivity.
      unfold tiny. lra. }
    destruct config as [c|]; [|by apply Hz].
    destruct (flt (float_of_int 0) v) eqn:Ev0; [exact (outside_window _ _ _ Hk v Ei Hne)|].
    apply flt_false in Ev0. apply Hz. exact Ev0.
Qed.
