(* ===== verification/CdmSafety.v ===== *)
(** * Theorems about the departure calculator

    Of [Calculate] of [CdmCalculate]: the take-off time it returns keeps every
    minimum to every other slot, it is the first time of the half-minute grid
    from the unconstrained one that does, and the search ends unless no time of
    the day is free. *)

From S2P Require Import Prelude GoTime GoFloat CdmClock CdmConfig CdmCalculate.
From Stdlib Require Import Strings.Ascii Strings.String QArith Qabs Lqa.

Local Open Scope Z_scope.

(** ** The time the search starts from *)

(** If it is a clock at all, it is written as [formatClock] writes it. *)
Definition plain (v : string) : Prop := ∀ s, parseClock v = Some s → v = formatClock s.

Lemma plain_format s : day_second s → plain (formatClock s).
Proof. intros Hs s'. rewrite (parse_format s Hs). by intros [= ->]. Qed.

Lemma plain_addMinutes v m : plain (addMinutes v m).
Proof.
  intros s. unfold addMinutes. destruct (parseClock v) as [b|] eqn:E.
  - rewrite (minuteOffset_clock v b m _ E eq_refl), parse_format by apply day_add_second. by intros [= ->].
  - unfold minuteOffset. rewrite E. congruence.
Qed.

Lemma plain_not_before a b : plain a → plain b → plain (not_before a b).
Proof. unfold not_before. by destruct (negb _). Qed.

Lemma plain_delay_floor config depRwy now : plain (DelayFloorForRunway config depRwy now).
Proof.
  unfold DelayFloorForRunway. destruct config as [c|]; [|done]. cbv zeta.
  destruct (is_zero _); [done|]. apply plain_format, second_of_day_range.
Qed.

(** The controlled take-off times of the flight are written as clocks, or are not clocks. *)
Definition plain_input (input : CalcInput) : Prop :=
  plain (toHHMMSS (ci_ManCtot input)) ∧ plain (toHHMMSS (TrimSpace (ci_Ctot input))).

Lemma unconstrained_plain input config now : plain_input input → plain (unconstrainedTtot input config now).
Proof.
  intros [Hm Hc]. unfold unconstrainedTtot. cbv zeta. destruct (str_empty (selectCalculationBase input)); [done|].
  assert (Hn : ∀ (b : bool) t floor, plain t → plain floor → plain (if b then not_before t floor else t))
    by (intros []; [apply plain_not_before|done]).
  assert (H2 : plain (if negb (str_empty (toHHMMSS (TrimSpace (ci_Ctot input)))) then _ else _))
    by (apply Hn; [apply Hn; [apply plain_addMinutes|exact Hm]|exact Hc]).
  unfold applyAdverseConditionFloor. destruct (str_empty (DelayFloorForRunway _ _ _)); [exact H2|]. destruct (_ || _); [apply plain_delay_floor|exact H2].
Qed.

Lemma clock_text_parse v s : clock_text v s → parseClock v = Some s.
Proof.
  intros [Hs E]. pose proof (parse_format s Hs) as H. unfold parseClock in *. by rewrite (toHHMMSS_format s Hs) in H; rewrite E.
Qed.

(** ** The search within a calculation *)

(** What the stages of a calculation that yields a time have found *)
Lemma calculate_stages input slots config now r trace :
  calculateWithTrace input slots config now = Ok (r, trace) → cx_Ttot r ≠ ""%string →
  let ttot := unconstrainedTtot input config now in
  ∃ t, parseClock ttot = Some t ∧
    iterate search_fuel (search_step input slots config (rate_window input config)) (ttot, []) = Ok (cx_Ttot r, trace) ∧
    cx_Tsat r = subtractMinutes (cx_Ttot r) (float_of_int (exotMinutes input)) ∧
    shouldInvalidateStaleTobt input (timeToClock now) = false ∧
    shouldInvalidateStaleTsat input (cx_Tsat r) (timeToClock now) = false.
Proof.
  unfold calculateWithTrace. cbv zeta. destruct (shouldInvalidateStaleTobt _ _); [by intros [= <- <-]|].
  destruct (str_empty _); [by intros [= <- <-]|]. destruct (parseClock (unconstrainedTtot input config now)) as [t|]; [|by intros [= <- <-]].
  cbn [is_nil]. intros ([ttot tr] & Hs & H)%bind_ok Hne. cbv beta iota in H.
  destruct (shouldInvalidateStaleTsat _ _ _) eqn:E; injection H as <- <-; [done|]. exists t. done.
Qed.

Lemma Calculate_trace input slots config now r :
  Calculate input slots config now = Ok r → ∃ trace, calculateWithTrace input slots config now = Ok (r, trace).
Proof. unfold Calculate. intros ([r' tr] & H & [= <-])%bind_ok. by exists tr. Qed.

Lemma calculate_search input slots config now r trace :
  calculateWithTrace input slots config now = Ok (r, trace) → cx_Ttot r ≠ ""%string →
  let ttot := unconstrainedTtot input config now in
  ∃ t n, parseClock ttot = Some t ∧ cx_Ttot r = nth_ttot ttot n ∧
    (∀ i, (i < n)%nat → ¬ free input slots config (rate_window input config) (nth_ttot ttot i)) ∧
    free input slots config (rate_window input config) (nth_ttot ttot n) ∧ List.length trace = n ∧ walk ttot trace.
Proof.
  intros H Hne. destruct (calculate_stages _ _ _ _ _ _ H Hne) as (t & Ht & Hs & _).
  destruct (search_result _ _ _ _ _ _ Hs) as (n & Hb & Hf & Hr & Hl & Hw). simpl in Hr, Hl, Hw. exists t, n. done.
Qed.

(** The grid is written as clocks from the start on. *)
Lemma unconstrained_grid input config now t n :
  plain_input input → parseClock (unconstrainedTtot input config now) = Some t →
  nth_ttot (unconstrainedTtot input config now) n = formatClock (day_add t (30 * Z.of_nat n)).
Proof.
  intros Hp Ht. destruct n as [|n]; [|by apply nth_ttot_clock].
  exact (unconstrained_plain _ _ _ Hp _ (nth_ttot_parse _ t 0 Ht)).
Qed.

(** C39: A returned take-off time keeps every minimum to every slot of the
    airport that is not the flight's own: three minutes to one destination,
    a runway or a dependent one never twice at a time, the interval of the
    rate, the wake minimum in the order of take-off, the interval between the
    departure routes; with the distance taken around the day. *)
Theorem calculate_separated input slots config now r slot s :
  Calculate input slots config now = Ok r → cx_Ttot r ≠ ""%string → plain_input input →
  slot ∈ slots → foreign input slot = false → clock_text (se_Ttot slot) s →
  ∃ t, cx_Ttot r = formatClock t ∧ day_second t ∧ kept_apart input config slot (circular (t - s)).
Proof.
  intros (trace & H)%Calculate_trace Hne Hp Hin Hf Hs.
  destruct (calculate_search _ _ _ _ _ _ H Hne) as (t & n & Ht & Hr & _ & Hfree & _).
  pose proof (day_add_second t (30 * Z.of_nat n)) as Hd. exists (day_add t (30 * Z.of_nat n)).
  pose proof (unconstrained_grid _ _ _ _ n Hp Ht) as E.
  rewrite Hr, E. split_and!; [done|done|]. apply no_conflict_apart; [done|by apply clock_text_parse|done|done|].
  rewrite <-E. by apply (proj1 (free_iff _ _ _ _ _) Hfree).
Qed.

(** C40: The search is complete: the returned take-off time is the first of the
    half-minute grid from the unconstrained time on at which no slot forbids a
    take-off; the trace has an entry for each earlier one, in order; the start-up
    time lies the taxi and de-icing times before it. *)
Theorem calculate_earliest input slots config now r trace :
  calculateWithTrace input slots config now = Ok (r, trace) → cx_Ttot r ≠ ""%string → Z.abs (exotMinutes input) < 2 ^ 40 →
  let ttot := unconstrainedTtot input config now in
  ∃ t n, parseClock ttot = Some t ∧ cx_Ttot r = nth_ttot ttot n ∧
    parseClock (cx_Ttot r) = Some (day_add t (30 * Z.of_nat n)) ∧
    cx_Tsat r = formatClock (day_add t (30 * Z.of_nat n - 60 * exotMinutes input)) ∧
    (∀ slot, slot ∈ slots → slot_conflict input config (rate_window input config) (cx_Ttot r) slot = None) ∧
    (∀ i, (i < n)%nat → ∃ slot, slot ∈ slots ∧ is_Some (slot_conflict input config (rate_window input config) (nth_ttot ttot i) slot)) ∧
    List.length trace = n ∧ walk ttot trace.
Proof.
  intros H Hne Hx ttot. destruct (calculate_stages _ _ _ _ _ _ H Hne) as (t & Ht & _ & Hts & _).
  destruct (calculate_search _ _ _ _ _ _ H Hne) as (t' & n & Ht' & Hr & Hb & Hf & Hl & Hw).
  fold ttot in Ht, Ht', Hr, Hb, Hf, Hw. rewrite Ht in Ht'. injection Ht' as <-. exists t, n.
  assert (Hp : parseClock (cx_Ttot r) = Some (day_add t (30 * Z.of_nat n))) by (rewrite Hr; by apply nth_ttot_parse).
  split_and!; [done..| | | |done|done].
  - rewrite Hts. unfold subtractMinutes. rewrite (minuteOffset_clock _ _ _ (- exotMinutes input * 60) Hp); [|].
    + rewrite day_add_add. do 2 f_equal. lia.
    + apply round_to_int_integer. apply fl_integer; [lia|]. unfold fneg. rewrite !float_of_int_exact by lia.
      rewrite inject_Z_mult, inject_Z_opp. reflexivity.
  - rewrite Hr. by apply free_iff.
  - intros i Hi. specialize (Hb i Hi). unfold free in Hb. destruct (first_conflict _ _ _ _ slots) as [e|] eqn:E; [|done].
    apply first_conflict_slot in E as (slot & Hin & E). exists slot. split; [done|by rewrite E].
Qed.

(** ** When the search ends *)

(** A calculation hangs exactly when its search does. *)
Lemma calculate_hang_search input slots config now :
  Calculate input slots config now = Hang ↔
  shouldInvalidateStaleTobt input (timeToClock now) = false ∧ is_Some (parseClock (unconstrainedTtot input config now)) ∧
  iterate search_fuel (search_step input slots config (rate_window input config)) (unconstrainedTtot input config now, []) = Hang.
Proof.
  unfold Calculate, calculateWithTrace. cbv zeta. destruct (shouldInvalidateStaleTobt _ _); [naive_solver|].
  destruct (str_empty _) eqn:E.
  { apply str_eqb_eq in E. rewrite E. split; [done|]. intros (_ & [? H] & _). done. }
  destruct (parseClock _) as [t|] eqn:Et; [|split; [done|]; intros (_ & [? H] & _); done]. cbn [is_nil].
  destruct (iterate_ok_or_hang (search_step input slots config (rate_window input config)) search_fuel
    (unconstrainedTtot input config now, [])) as [[[v tr] H]|H].
  { intros [v tr]. unfold search_step. destruct (first_conflict _ _ _ _ _); by eexists. }
  - rewrite H. simpl. destruct (shouldInvalidateStaleTsat _ _ _); split; try done; by intros (_ & _ & ?).
  - rewrite H. split; [|done]. intros _. split_and!; [done|by eexists|done].
Qed.

Lemma calculate_ends input slots config now : returns (Calculate input slots config now) ∨ Calculate input slots config now = Hang.
Proof.
  unfold Calculate, calculateWithTrace. cbv zeta. destruct (shouldInvalidateStaleTobt _ _); [by left|].
  destruct (str_empty _); [by left|]. destruct (is_nil _); [by left|].
  destruct (iterate_ok_or_hang (search_step input slots config (rate_window input config)) search_fuel
    (unconstrainedTtot input config now, [])) as [[[v tr] H]|H].
  { intros [v tr]. unfold search_step. destruct (first_conflict _ _ _ _ _); by eexists. }
  - rewrite H. simpl. destruct (shouldInvalidateStaleTsat _ _ _); by left.
  - rewrite H. by right.
Qed.

(** The calculation fails to return exactly when the base time is neither
    missing nor stale and no time of the grid, however far, is free; the loop of
    the code then never ends: after any number of rounds it still goes on. *)
Theorem calculate_hangs_iff input slots config now :
  let ttot := unconstrainedTtot input config now in
  let step := search_step input slots config (rate_window input config) in
  (returns (Calculate input slots config now) ∨ Calculate input slots config now = Hang) ∧
  (Calculate input slots config now = Hang ↔
   shouldInvalidateStaleTobt input (timeToClock now) = false ∧ is_Some (parseClock ttot) ∧
   ∀ n, ∃ trace, loop_nat n step (ttot, []) = Ok (inl (nth_ttot ttot n, trace))).
Proof.
  intros ttot step. split; [apply calculate_ends|]. rewrite calculate_hang_search. fold ttot step.
  split; intros (Hs & [t Ht] & H); (split_and!; [done|by exists t|]).
  - intros n. pose proof (proj1 (search_hangs _ _ _ _ ttot t Ht) H) as Hb.
    destruct (search_blocked input slots config (rate_window input config) n ttot []) as (more & _ & _ & Hn); [intros; apply Hb|].
    by exists more.
  - destruct (H (Pos.to_nat search_fuel)) as (trace & Hn). unfold iterate. by rewrite loop_loop_nat, Hn.
Qed.

(** ** Enough room *)

(** The slot forbids times within [W] minutes of it at most. *)
Definition near (W t : Z) (slot : SlotEntry) : bool :=
  opt_test (λ s, Z.abs (circular (t - s)) <=? 60 * W) (parseClock (se_Ttot slot)).

(** No separation is wider than [W] minutes. *)
Record windows_within (W : Z) (input : CalcInput) (config : option CdmAirportConfig) : Prop := {
  ww_bounds : 3 ≤ W ≤ 720;
  ww_rate : RateForRunway config (ci_DepRwy input) < 2 ^ 53 ∧ 60 ≤ W * RateForRunway config (ci_DepRwy input);
  ww_sid : ∀ c interval, config = Some c → interval ∈ cc_SidIntervals c → (si_Value interval <= inject_Z W)%Q
}.

Lemma SidIntervalMinutes_within W config depRwy sid1 sid2 :
  0 ≤ W → (∀ c interval, config = Some c → interval ∈ cc_SidIntervals c → (si_Value interval <= inject_Z W)%Q) →
  (SidIntervalMinutes config depRwy sid1 sid2 <= inject_Z W)%Q.
Proof.
  intros HW Hs. assert (H0 : (float_of_int 0 <= inject_Z W)%Q) by (rewrite float_of_int_exact by done; rewrite <-Zle_Qle; exact HW).
  destruct config as [c|]; [|done]. simpl. destruct (sameSID _ _); [done|]. specialize (Hs c). revert Hs.
  induction (cc_SidIntervals c) as [|i l IH]; intros Hs; simpl; [done|].
  assert (Hi : (si_Value i <= inject_Z W)%Q) by (apply Hs; [done|left]).
  assert (Hl : (sid_interval_from l depRwy sid1 sid2 <= inject_Z W)%Q) by (apply IH; intros; apply Hs; [done|by right]).
  by repeat case_match.
Qed.

Lemma conflict_near W input config t slot e :
  windows_within W input config → day_second t →
  slot_conflict input config (rate_window input config) (formatClock t) slot = Some e → near W t slot = true.
Proof.
  intros [Hb [Hr1 Hr2] Hsid] Ht. pose proof (RateForRunway_pos config (ci_DepRwy input)) as Hpos.
  pose proof (parse_format t Ht) as Hpt.
  assert (Hw : ∀ window, withinWindow (formatClock t) (se_Ttot slot) window = true → (window <= inject_Z W + tiny)%Q → near W t slot = true).
  { intros window H HW. unfold near. destruct (parseClock (se_Ttot slot)) as [s|] eqn:Es.
    - apply Z.leb_le. refine (inside_minutes _ _ _ (minutesBetween_circular _ _ _ _ Es Hpt) window W H HW).
    - exfalso. revert H. unfold withinWindow, minutesBetween. rewrite Es. by destruct (fle window _). }
  assert (He : str_eqb (toHHMMSS (se_Ttot slot)) (formatClock t) = true → near W t slot = true).
  { intros E%str_eqb_eq. unfold near. rewrite (clock_text_parse (se_Ttot slot) t) by done. simpl.
    apply Z.leb_le. rewrite Z.sub_diag. change (Z.abs (circular 0)) with 0. lia. }
  assert (Hint : ∀ m, 0 ≤ m ≤ 3 → (float_of_int m <= inject_Z W + tiny)%Q).
  { intros m Hm. rewrite float_of_int_exact by lia. assert (H : (inject_Z m <= inject_Z W)%Q) by (rewrite <-Zle_Qle; lia). unfold tiny. lra. }
  unfold slot_conflict. cbv zeta. destruct (foreign _ _); [done|].
  destruct (violatesSameDestinationSeparation _ _ _ _) eqn:Ev.
  { intros _. unfold violatesSameDestinationSeparation in Ev. rewrite (toHHMMSS_format t Ht) in Ev.
    destruct (negb _); [done|]. apply orb_true_iff in Ev as [Ev|Ev]; [by apply He|]. apply (Hw _ Ev), Hint. lia. }
  destruct (negb _); [done|]. destruct (str_eqb _ _); [intros _; by apply He|].
  destruct (_ && withinWindow _ _ (rate_window input config)) eqn:Ew.
  { intros _. apply andb_true_iff in Ew as [_ Ew]. apply (Hw _ Ew). rewrite rate_window_rate. apply rate_window_le; lia. }
  destruct (_ && withinWindow _ _ (float_of_int _)) eqn:Ek.
  { intros _. apply andb_true_iff in Ek as [_ Ek]. apply (Hw _ Ek), Hint. unfold wake_minutes. destruct (negb _); apply wakeSeparation_range. }
  destruct (_ && withinWindow _ _ (SidIntervalMinutes _ _ _ _)) eqn:Ei; [|done].
  intros _. apply andb_true_iff in Ei as [_ Ei]. apply (Hw _ Ei).
  pose proof (SidIntervalMinutes_within W config (ci_DepRwy input) (ci_Sid input) (se_Sid slot) ltac:(lia) Hsid). unfold tiny. lra.
Qed.

(** *** Counting the grid *)

Definition grid_second (t : Z) (n : nat) : Z := day_add t (30 * Z.of_nat n).

(** The slot is near the [n]-th time of the grid. *)
Definition near_at (W t : Z) (slot : SlotEntry) (n : nat) : Prop := near W (grid_second t n) slot = true.
#[local] Instance near_at_dec W t slot n : base.Decision (near_at W t slot n).
Proof. unfold near_at. apply _. Defined.

(** A slot forbids at most [4 W + 1] times of one day. *)
Lemma near_count W t slot (l : list nat) :
  0 ≤ W ≤ 720 → NoDup l → (∀ n, n ∈ l → (1 ≤ n ≤ 2880)%nat) →
  Z.of_nat (List.length (filter (near_at W t slot) l)) ≤ 4 * W + 1.
Proof.
  intros HW Hnl Hl. destruct (parseClock (se_Ttot slot)) as [s|] eqn:Es.
  2: { rewrite filter_none; [simpl; lia|]. apply Forall_forall. intros n _. unfold near_at, near. by rewrite Es. }
  pose proof (parseClock_range _ _ Es) as Hs. unfold day_second in Hs.
  set (k n := circular (grid_second t n - s)). set (r := (t - s) mod 30).

  assert (Hk : ∀ n, k n mod 86400 = (t - s + 30 * Z.of_nat n) mod 86400).
  { intros n. unfold k. rewrite circular_mod. unfold grid_second, day_add. rewrite Zminus_mod_idemp_l. f_equal. lia. }
  assert (Hk30 : ∀ n, k n = 30 * (k n / 30) + r).
  { intros n. rewrite (Z.div_mod (k n) 30) at 1 by lia. f_equal. unfold r.
    rewrite <-(Z.mod_mod_divide (k n) 86400 30), Hk, Z.mod_mod_divide by (exists 2880; lia).
    replace (t - s + 30 * Z.of_nat n) with (t - s + Z.of_nat n * 30) by lia. by rewrite Z.mod_add. }
  assert (Hr : 0 ≤ r < 30) by (apply Z.mod_pos_bound; lia).
  assert (Hin : (λ n, k n / 30) <$> filter (near_at W t slot) l ⊆ seqZ (- (2 * W)) (4 * W + 1)).
  { intros x (n & -> & [Hn _]%list_elem_of_filter)%list_elem_of_fmap.
    unfold near_at, near in Hn. rewrite Es in Hn. apply Z.leb_le in Hn. change (Z.abs (k n) ≤ 60 * W) in Hn. apply elem_of_seqZ. specialize (Hk30 n). lia. }
  assert (Hnd : NoDup ((λ n, k n / 30) <$> filter (near_at W t slot) l)).
  { apply NoDup_fmap_2_strong; [|by apply NoDup_filter].
    intros x y [_ Hx%Hl]%list_elem_of_filter [_ Hy%Hl]%list_elem_of_filter E.
    assert (Ek : k x = k y) by (rewrite (Hk30 x), (Hk30 y), E; done).
    pose proof (Hk x) as Ex. rewrite Ek, (Hk y) in Ex.
    assert (Hd : (30 * (Z.of_nat x - Z.of_nat y)) mod 86400 = 0).
    { replace (30 * (Z.of_nat x - Z.of_nat y)) with ((t - s + 30 * Z.of_nat x) - (t - s + 30 * Z.of_nat y)) by lia.
      rewrite Zminus_mod, Ex, Z.sub_diag. done. }
    apply Z.mod_divide in Hd as [q Hq]; [|lia]. assert (q = 0) by lia. lia. }
  pose proof (submseteq_length _ _ (NoDup_submseteq _ _ Hnd Hin)) as Hc. rewrite length_fmap, length_seqZ in Hc. lia.
Qed.

(** Slots that leave room *)
Lemma calculate_ends_within input slots config now W :
  windows_within W input config → Z.of_nat (List.length slots) * (4 * W + 1) < 2880 → returns (Calculate input slots config now).
Proof.
  intros HW Hl. destruct (calculate_ends input slots config now) as [|H]; [done|exfalso].
  apply calculate_hang_search in H as (_ & [t Ht] & H). pose proof (proj1 (search_hangs _ _ _ _ _ t Ht) H) as Hb.
  pose proof (ww_bounds _ _ _ HW) as HW3.
  assert (Hc : (List.length (seq 1 2880) ≤ List.length slots * Z.to_nat (4 * W + 1))%nat).
  { apply (covered_length (near_at W t)).
    - intros slot. pose proof (near_count W t slot (seq 1 2880) ltac:(lia) (NoDup_seq _ _)) as Hn.
      assert (Hi : ∀ n, n ∈ seq 1 2880 → (1 ≤ n ≤ 2880)%nat) by (intros n ?%elem_of_seq; lia). specialize (Hn Hi). lia.
    - intros n [Hn _]%elem_of_seq. destruct n as [|n]; [lia|]. specialize (Hb (S n)). rewrite (nth_ttot_clock _ t) in Hb by done.
      unfold free in Hb. destruct (first_conflict _ _ _ _ slots) as [e|] eqn:E; [|done].
      apply first_conflict_slot in E as (slot & Hin & E). exists slot. split; [done|].
      eapply conflict_near; [exact HW|apply day_add_second|exact E]. }
  rewrite length_seq in Hc. lia.
Qed.

(** A calculation returns whenever the slots leave room: when no separation is
    wider than [W] minutes and the slots, with [4 W + 1] half minutes each, do not
    cover the day. *)
Theorem calculate_returns input slots config now W :
  windows_within W input config → Z.of_nat (List.length slots) * (4 * W + 1) < 2880 → returns (Calculate input slots config now).
Proof. apply calculate_ends_within. Qed.

(** A departure-route interval of more than twelve hours, which nothing
    refuses when the configuration is read, makes the calculation run forever as
    soon as one other flight holds a slot on the runway: no two times of a day
    are that far apart. *)
Theorem sid_interval_hangs input slots config now slot s :
  shouldInvalidateStaleTobt input (timeToClock now) = false → is_Some (parseClock (unconstrainedTtot input config now)) → plain_input input →
  slot ∈ slots → foreign input slot = false → clock_text (se_Ttot slot) s →
  sameOrDependentRunway (ci_DepRwy input) (se_DepRwy slot) config = true →
  (721 <= SidIntervalMinutes config (ci_DepRwy input) (ci_Sid input) (se_Sid slot))%Q →
  Calculate input slots config now = Hang.
Proof.
  intros Hs [t Ht] Hp Hin Hf Hc Hr Hv. apply calculate_hang_search. split_and!; [done|by exists t|].
  apply (search_hangs _ _ _ _ _ t Ht). intros n Hn. apply (proj1 (free_iff _ _ _ _ _) Hn) in Hin. revert Hin.
  set (ttot := unconstrainedTtot input config now) in *. pose proof (day_add_second t (30 * Z.of_nat n)) as Hd.
  rewrite (unconstrained_grid input config now t n Hp Ht : nth_ttot ttot n = _). intros Hcf.
  pose proof (ka_sid _ _ _ _ (no_conflict_apart _ _ _ _ s Hd (clock_text_parse _ _ Hc) Hc Hf Hcf) Hr) as H.
  set (k := circular _) in H. assert (Hk : Z.abs k ≤ 43200).
  { pose proof (circular_range (day_add t (30 * Z.of_nat n) - s)) as Hb. destruct Hc as [Hsd _]. unfold day_second in Hd, Hsd. lia. }
  apply minutes_le in Hk. assert (E : (inject_Z 43200 / inject_Z 60 == 720)%Q) by reflexivity. unfold tiny in H. lra.
Qed.

(** ** Examples *)

(** Noon is twelve hours after midnight; the examples are computed at half past nine. *)
Definition ex_half_past_nine : Time := mk_time (9 * Hour + 30 * Minute) true.

Definition ex_cdm_config (interval : Z) : CdmAirportConfig :=
  mk_cdm_config "EKCH" [mk_cdm_rate "EKCH" ["*"] ["*"] ["22R"] ["*"] ["22L"] ["30"] ["14"]]
    [mk_sid_interval "EKCH" "22R" "BETUD" "NEXEN" (float_of_int interval)] [] [] 20 14 10 false [] [] (mk_deice_config 0 0 0 0 []).

(** A departure at 10:00 with ten minutes of taxi *)
Definition ex_departure : CalcInput :=
  mk_calc_input "SAS100" "EKCH" "EGLL" "22R" "BETUD2A" "M" "0940" "1000" false "" "" "" 10 0 0 false "".

(** Ahead of it a heavy on the same runway, and a flight to the same airport from the dependent runway *)
Definition ex_departures : list SlotEntry :=
  [mk_slot_entry "DLH1" "EKCH" "EDDF" "22R" "NEXEN1C" "H" "100900" false "";
   mk_slot_entry "BAW2" "EKCH" "egll" "22L" "ODDON1C" "M" "1013" false ""].

Definition ex_departure_result : CalcResult := mk_calc_result "100600" "101600".

Lemma ex_departure_calculated :
  Calculate ex_departure ex_departures (Some (ex_cdm_config 5)) ex_half_past_nine = Ok ex_departure_result.
Proof. vm_compute. reflexivity. Qed.

Lemma plain_check v : (match parseClock v with Some s => str_eqb v (formatClock s) | None => true end) = true → plain v.
Proof. intros H s E. rewrite E in H. by apply str_eqb_eq. Qed.

Lemma ex_departure_plain : plain_input ex_departure.
Proof. split; apply plain_check; vm_compute; reflexivity. Qed.

Lemma calculate_separated_witness :
  ∃ t, "101600"%string = formatClock t ∧ day_second t ∧
    kept_apart ex_departure (Some (ex_cdm_config 5)) (nth 1 ex_departures (mk_slot_entry "" "" "" "" "" "" "" false "")) (circular (t - (10 * 3600 + 13 * 60))).
Proof.
  apply (calculate_separated ex_departure ex_departures (Some (ex_cdm_config 5)) ex_half_past_nine ex_departure_result);
    [exact ex_departure_calculated|discriminate|exact ex_departure_plain|right; left|vm_compute; reflexivity|].
  split; [split; vm_compute; [discriminate|reflexivity]|vm_compute; reflexivity].
Defined.

(** The six minutes from 10:10 to 10:16 are twelve steps: five minutes behind the
    heavy for the routes, then three to the flight to the same airport. *)
Lemma calculate_earliest_witness :
  ∃ trace, calculateWithTrace ex_departure ex_departures (Some (ex_cdm_config 5)) ex_half_past_nine = Ok (ex_departure_result, trace) ∧
    let ttot := unconstrainedTtot ex_departure (Some (ex_cdm_config 5)) ex_half_past_nine in
    ∃ t n, parseClock ttot = Some t ∧ "101600"%string = nth_ttot ttot n ∧
      parseClock "101600" = Some (day_add t (30 * Z.of_nat n)) ∧
      "100600"%string = formatClock (day_add t (30 * Z.of_nat n - 60 * exotMinutes ex_departure)) ∧
      (∀ slot, slot ∈ ex_departures →
        slot_conflict ex_departure (Some (ex_cdm_config 5)) (rate_window ex_departure (Some (ex_cdm_config 5))) "101600" slot = None) ∧
      (∀ i, (i < n)%nat → ∃ slot, slot ∈ ex_departures ∧
        is_Some (slot_conflict ex_departure (Some (ex_cdm_config 5)) (rate_window ex_departure (Some (ex_cdm_config 5))) (nth_ttot ttot i) slot)) ∧
      List.length trace = n ∧ walk ttot trace.
Proof.
  destruct (Calculate_trace _ _ _ _ _ ex_departure_calculated) as [trace E]. exists trace. split; [exact E|].
  apply (calculate_earliest ex_departure ex_departures (Some (ex_cdm_config 5)) ex_half_past_nine ex_departure_result trace E);
    [discriminate|vm_compute; reflexivity].
Defined.

Lemma calculate_returns_witness : returns (Calculate ex_departure ex_departures (Some (ex_cdm_config 5)) ex_half_past_nine).
Proof.
  apply (calculate_returns _ _ _ _ 5); [split|vm_compute; reflexivity].
  - split; discriminate.
  - split; [vm_compute; reflexivity|discriminate].
  - intros c interval [= <-] [-> | []%elem_of_nil]%elem_of_cons. discriminate.
Defined.

(** An interval meant in seconds *)
Lemma sid_interval_hangs_witness : Calculate ex_departure ex_departures (Some (ex_cdm_config 900)) ex_half_past_nine = Hang.
Proof.
  apply (sid_interval_hangs _ _ _ _ (nth 0 ex_departures (mk_slot_entry "" "" "" "" "" "" "" false "")) (10 * 3600 + 9 * 60));
    [vm_compute; reflexivity|vm_compute; eexists; reflexivity|exact ex_departure_plain|left|vm_compute; reflexivity| |vm_compute; reflexivity|vm_compute; discriminate].
  split; [split; vm_compute; [discriminate|reflexivity]|vm_compute; reflexivity].
Defined.
