(* ===== verification/CdmMarkers.v ===== *)
(** * Reason markers: the part of [cdm/markers.go] that sequencing writes

    A calculation leaves behind why a flight is where it is: the last entry of
    the trace after merging entries against one flight, next to the markers that
    persist. *)

From S2P Require Import Prelude GoTime GoFloat CdmClock CdmData CdmConfig.
From S2P Require Import CdmCalculate.
From Stdlib Require Import Strings.Ascii Strings.String.

Local Open Scope Z_scope.

Definition eobtCappedReasonKind : string := "eobt_capped".

Definition trace_kind_text (kind : trace_kind) : string :=
  match kind with
  | SameDestinationSeparation => "same_destination_separation"
  | RunwaySlotCollision => "runway_slot_collision"
  | RunwayRateWindow => "runway_rate_window"
  | WakeSeparation => "wake_separation"
  | SidInterval => "sid_interval"
  | RunwaySpacing => "runway_spacing"
  end.

Definition trace_kind_eqb (a b : trace_kind) : bool := str_eqb (trace_kind_text a) (trace_kind_text b).

(** ** Merging the trace *)

Definition traceReasonFamily (kind : trace_kind) : trace_kind :=
  match kind with RunwaySlotCollision | RunwayRateWindow | RunwaySpacing => RunwaySpacing | _ => kind end.

Definition set_te_Kind (v : trace_kind) (e : calculationTraceEntry) : calculationTraceEntry :=
  mk_trace_entry v (te_AgainstCallsign e) (te_AgainstTtot e) (te_AgainstRunway e) (te_AgainstSid e) (te_RequiredSpacingMinutes e)
    (te_FromTtot e) (te_ToTtot e).

Definition normalizeTraceEntryKind (entry : calculationTraceEntry) : calculationTraceEntry :=
  if trace_kind_eqb (traceReasonFamily (te_Kind entry)) RunwaySpacing then set_te_Kind RunwaySpacing entry else entry.

Definition shouldSkipTraceEntry (entry : calculationTraceEntry) : bool :=
  let from := normalizeCalculationClock (te_FromTtot entry) in
  let to := normalizeCalculationClock (te_ToTtot entry) in
  negb (str_empty from) && negb (str_empty to) && str_eqb from to.

Definition shouldMergeTraceEntries (previous current : calculationTraceEntry) : bool :=
  if negb (EqualFold (TrimSpace (te_AgainstCallsign previous)) (TrimSpace (te_AgainstCallsign current))) then false
  else if negb (trace_kind_eqb (traceReasonFamily (te_Kind previous)) (traceReasonFamily (te_Kind current))) then false
  else if trace_kind_eqb (traceReasonFamily (te_Kind previous)) RunwaySpacing
  then EqualFold (TrimSpace (te_AgainstRunway previous)) (TrimSpace (te_AgainstRunway current))
  else trace_kind_eqb (te_Kind previous) (te_Kind current).

Definition or_else (a b : string) : string := if str_empty a then b else a.

Definition mergeTraceEntries (previous current : calculationTraceEntry) : calculationTraceEntry :=
  let merged := normalizeTraceEntryKind previous in
  let current := normalizeTraceEntryKind current in
  mk_trace_entry (te_Kind current) (or_else (te_AgainstCallsign merged) (te_AgainstCallsign current))
    (or_else (te_AgainstTtot merged) (te_AgainstTtot current)) (or_else (te_AgainstRunway merged) (te_AgainstRunway current))
    (or_else (te_AgainstSid merged) (te_AgainstSid current))
    (if flt (te_RequiredSpacingMinutes merged) (te_RequiredSpacingMinutes current) then te_RequiredSpacingMinutes current
     else te_RequiredSpacingMinutes merged)
    (or_else (te_FromTtot merged) (te_FromTtot current)) (or_else (te_ToTtot current) (te_ToTtot merged)).

(** One entry more, with the last compacted one in front *)
Definition compact_step (compacted : list calculationTraceEntry) (entry : calculationTraceEntry) : list calculationTraceEntry :=
  if shouldSkipTraceEntry entry then compacted
  else match last compacted with
       | None => compacted ++ [normalizeTraceEntryKind entry]
       | Some previous =>
           if shouldMergeTraceEntries previous entry then removelast compacted ++ [mergeTraceEntries previous entry]
           else compacted ++ [normalizeTraceEntryKind entry]
       end.

Definition compactCalculationTrace (trace : list calculationTraceEntry) : list calculationTraceEntry := foldl compact_step [] trace.

(** ** Markers *)

Definition marker (kind message against : string) : CdmReasonMarker :=
  mk_reason_marker kind message (if str_empty against then None else stringPointerIfPresent against) None None None None None.

Definition reasonMarkerFromTrace (entry : calculationTraceEntry) : CdmReasonMarker :=
  mk_reason_marker (trace_kind_text (te_Kind (normalizeTraceEntryKind entry))) ""
    (stringPointerIfPresent (TrimSpace (te_AgainstCallsign entry))) (stringPointerIfPresent (TrimSpace (te_AgainstRunway entry)))
    (stringPointerIfPresent (normalizeCalculationClock (te_AgainstTtot entry)))
    (stringPointerIfPresent (normalizeCalculationClock (te_FromTtot entry))) (stringPointerIfPresent (normalizeCalculationClock (te_ToTtot entry)))
    (if flt (float_of_int 0) (te_RequiredSpacingMinutes entry) then Some (te_RequiredSpacingMinutes entry) else None).

(** At most the last entry *)
Definition movementReasonMarkersFromTrace (trace : list calculationTraceEntry) : list CdmReasonMarker :=
  match last (compactCalculationTrace trace) with None => [] | Some entry => [reasonMarkerFromTrace entry] end.

Definition isPersistentReasonKind (kind : string) : bool := str_eqb kind eobtCappedReasonKind.

Definition persistentReasonMarkers (calculation : CdmCalculation) : list CdmReasonMarker :=
  filter (λ m, isPersistentReasonKind (rm_Kind m) = true) (ca_ReasonMarkers calculation).

Definition stale_tsat_message : string := "The previous TSAT has expired, so the flight is waiting for a fresh recalculation.".
Definition stale_tobt_message : string :=
  "The TOBT is more than 5 minutes in the past, so the flight is waiting for an updated TOBT before it can be resequenced.".
Definition unsequenced_message : string := "The flight does not currently have a valid TTOT for sequencing.".

(** Kind and message *)
Definition buildInvalidReason (data : CdmData) : string * string :=
  let invalidReason := match EffectiveCalculation data with Some c => valueOrEmpty (ca_InvalidReason c) | None => ""%string end in
  if str_eqb invalidReason CdmInvalidReasonStaleTsat then ("stale_tsat"%string, stale_tsat_message)
  else if str_eqb invalidReason CdmInvalidReasonStaleTobt then ("stale_tobt"%string, stale_tobt_message)
  else ("unsequenced"%string, unsequenced_message).

Definition invalidReasonMarker (data : CdmData) : list CdmReasonMarker :=
  let '(kind, message) := buildInvalidReason data in
  if str_eqb kind "unsequenced" then [] else [marker kind message ""].

Definition setCalculationReasonMarkers (data : CdmData) (markers : list CdmReasonMarker) : CdmData :=
  let calculation := default zero_calculation (cd_Calculation data) in
  Normalize (set_cd_Calculation (Some (set_ca_ReasonMarkers (persistentReasonMarkers calculation ++ markers) calculation)) data).
