(* ===== verification/CdmSequence.v ===== *)
(** * The departure sequence: [cdm/sequence.go]

    [recalculate] is [recalculateAirport] from the strips of an airport on: it
    decides which flights keep their slots, takes the others in an order of
    priority, and stores the times it calculates. What it calls outside this
    package are parameters: whether a position lies in a taxi zone, the capture of
    the authority for external messages, the write of a row and the dispatch of
    a command to EuroScope. The strips the code reads through pointers are values:
    a pass changes the data of a strip once, and reads it before only. *)

From S2P Require Import Prelude GoTime GoFloat CdmClock CdmData CdmConfig.
From S2P Require Import CdmCalculate CdmMarkers.
From Stdlib Require Import Strings.Ascii Strings.String.

Local Open Scope Z_scope.

(** ** Reading a strip *)

Definition stored_clock (v : option string) : string := normalizeCalculationClock (valueOrEmpty v).

Definition groundStateAllowsAsat (groundState : string) : bool :=
  existsb (str_eqb (ToUpper (TrimSpace groundState))) ["STUP"; "ST-UP"; "PUSH"; "TAXI"; "LINEUP"; "DEPA"]%string.

Definition stripHasStarted (strip : Strip) : bool :=
  if negb (str_empty (valueOrEmpty (effective cd_Asat strip))) || negb (str_empty (valueOrEmpty (effective cd_Aobt strip))) then true
  else groundStateAllowsAsat (valueOrEmpty (st_State strip)).

Definition dataAllowsStartedRecalculation (strip : Strip) : bool :=
  match st_CdmData strip with
  | None => false
  | Some data =>
      NeedsLocalRecalculation data &&
      (cd_CtotRecalculate data && stripHasStarted strip || cd_PushbackRecalculate data && str_empty (valueOrEmpty (effective cd_Aobt strip)))
  end.

Definition calculationBaseTime (strip : Strip) : string :=
  match st_CdmData strip with
  | None => ""
  | Some data =>
      let tobt := stored_clock (cd_Tobt data) in
      if negb (str_empty tobt) then tobt else stored_clock (cd_Eobt data)
  end.

Definition sequenceSortKey (strip : Strip) : string :=
  let base := calculationBaseTime strip in
  if negb (str_empty base) then base
  else match st_CdmData strip with None => "" | Some data => stored_clock (cd_Ttot data) end.

Definition shouldSkipStrip (strip : Strip) : bool :=
  if is_nil (st_EuroscopeSeenAt strip) then true
  else
    let state := ToUpper (TrimSpace (valueOrEmpty (st_State strip))) in
    if str_eqb state "ARR" || str_eqb state "DEPA" then true else str_empty (sequenceSortKey strip).

Definition isTsatSpecificallyExpired (strip : Strip) (now : Time) : bool :=
  match st_CdmData strip with
  | None => false
  | Some data =>
      let tsat := stored_clock (cd_Tsat data) in
      if str_empty tsat then false else isMoreThanMinutesPast tsat (timeToClock now) (float_of_int 5)
  end.

Definition localCalcTimesExpired (strip : Strip) (now : Time) : bool :=
  match st_CdmData strip with
  | None => false
  | Some data =>
      let tsat := stored_clock (cd_Tsat data) in
      if negb (str_empty tsat) then isMoreThanMinutesPast tsat (timeToClock now) (float_of_int 5)
      else
        let tobt := stored_clock (cd_Tobt data) in
        if negb (str_empty tobt) then isMoreThanMinutesPast tobt (timeToClock now) (float_of_int 5) else false
  end.

Definition shouldRecalculateStrip (strip : Strip) (now : Time) : bool :=
  match st_CdmData strip with
  | None => true
  | Some data =>
      if stripHasStarted strip then dataAllowsStartedRecalculation strip
      else if NeedsLocalRecalculation data then true
      else if str_eqb (valueOrEmpty (cd_Phase data)) "I" then false
      else if localCalcTimesExpired strip now then true
      else str_empty (stored_clock (cd_Tsat data)) || str_empty (stored_clock (cd_Ttot data))
  end.

(** ** Recovery of an expired start-up time *)

Definition truncateCDMClockValue (value : string) : string :=
  let value := TrimSpace value in if (4 <? String.length value)%nat then slice value 0 4 else value.

Definition applyAutoSyncedTobtUpdate (updated : CdmData) (tobt : string) : CdmData :=
  set_cd_TobtManuallyConfirmed false (set_cd_TobtAutoAdjusted false (set_cd_TobtAutoSynced true (set_cd_TobtConfirmedBy None
    (set_cd_TobtSetBy None (set_cd_Eobt (Some tobt) (set_cd_ExpiredTsat None (set_cd_Tobt (Some tobt) updated))))))).

(** The start-up time whose expiry is looked at *)
Definition expired_tsat (data : CdmData) : string :=
  let tsat := stored_clock (cd_Tsat data) in
  if str_empty tsat && opt_test (λ c, str_eqb (valueOrEmpty (ca_InvalidReason c)) CdmInvalidReasonStaleTsat) (cd_Calculation data)
  then stored_clock (cd_ExpiredTsat data) else tsat.

(** The new data where the code returns [true] *)
Definition recoverExpiredTsat (strip : Strip) (now : Time) : option CdmData :=
  match st_CdmData strip with
  | None => None
  | Some data =>
      if stripHasStarted strip || NeedsLocalRecalculation data then None
      else
        let tsat := expired_tsat data in
        if is_nil (parseClock tsat) || negb (isMoreThanMinutesPast tsat (timeToClock now) (float_of_int 8)) then None
        else
          let updated := applyAutoSyncedTobtUpdate data (truncateCDMClockValue (addMinutes (timeToClock now) (float_of_int 10))) in
          Some (MarkLocalRecalculationPending (set_cd_Phase None (set_cd_ExpiredTsat None (set_cd_Ttot None (set_cd_Tsat None
            (set_cd_TobtAutoAdjusted true updated))))))
  end.

(** ** The calculation input of a strip *)

Section inputs.
Context (containsPoint : list CdmTaxiPoint → float64 → float64 → bool).

Definition resolveDeiceTaxiMinutes (strip : Strip) (config : CdmAirportConfig) (platform : string) : Z :=
  if str_empty platform then 0
  else
    let depRwy := valueOrEmpty (st_Runway strip) in
    let at_position :=
      match st_PositionLatitude strip, st_PositionLongitude strip with
      | Some lat, Some lon => DeiceTaxiMinutesForPosition containsPoint (Some config) depRwy platform lat lon
      | _, _ => None
      end in
    match at_position with
    | Some minutes => minutes
    | None =>
        match DeiceTaxiMinutesForRunway (Some config) depRwy platform with
        | Some minutes => minutes
        | None => default 0 (DeiceMinutesForPlatform (Some config) platform)
        end
    end.

Definition resolveDeiceTaxiMinutesForStrip (strip : Strip) (config : CdmAirportConfig) : Z :=
  match st_CdmData strip with None => 0 | Some data => resolveDeiceTaxiMinutes strip config (valueOrEmpty (cd_DeicePlatform data)) end.

Definition resolveTaxiMinutesForStrip (strip : Strip) (config : CdmAirportConfig) : Z :=
  let depRwy := valueOrEmpty (st_Runway strip) in
  let at_position :=
    match st_PositionLatitude strip, st_PositionLongitude strip with
    | Some lat, Some lon => TaxiMinutesForPosition containsPoint (Some config) depRwy lat lon
    | _, _ => None
    end in
  match at_position with
  | Some minutes => minutes
  | None =>
      match effective (λ data, EffectiveTaxiMinutesForRunway data depRwy) strip with
      | Some minutes => if 0 <? minutes then minutes else TaxiMinutesForRunway (Some config) depRwy
      | None => TaxiMinutesForRunway (Some config) depRwy
      end
  end.

Definition buildCalcInput (strip : Strip) (config : CdmAirportConfig) : CalcInput :=
  let data := match st_CdmData strip with Some data => data | None => Normalize zero_cdm_data end in
  mk_calc_input (st_Callsign strip) (st_Origin strip) (st_Destination strip) (valueOrEmpty (st_Runway strip)) (valueOrEmpty (st_Sid strip))
    (valueOrEmpty (st_AircraftCategory strip)) (stored_clock (cd_Eobt data)) (stored_clock (cd_Tobt data)) (cd_TobtManuallyConfirmed data)
    (valueOrEmpty (cd_Ctot data)) (stored_clock (cd_Aobt data)) (stored_clock (cd_Asat data)) (resolveTaxiMinutesForStrip strip config)
    (deiceTypeToMinutes (Some config) (valueOrEmpty (cd_DeIce data))) (resolveDeiceTaxiMinutesForStrip strip config)
    (HasManualCtot data) (valueOrEmpty (cd_Ctot data)).
End inputs.

(** The slot of a strip with take-off time [ttot] *)
Definition slot_of (strip : Strip) (ttot : string) (data : CdmData) : SlotEntry :=
  mk_slot_entry (st_Callsign strip) (st_Origin strip) (st_Destination strip) (valueOrEmpty (st_Runway strip)) (valueOrEmpty (st_Sid strip))
    (valueOrEmpty (st_AircraftCategory strip)) ttot (HasManualCtot data) (valueOrEmpty (cd_Ctot data)).

Definition existingSlotEntry (strip : Strip) : option SlotEntry :=
  match st_CdmData strip with
  | None => None
  | Some data => let ttot := stored_clock (cd_Ttot data) in if str_empty ttot then None else Some (slot_of strip ttot data)
  end.

(** ** Candidates *)

(** [slot] and [hasSlot] together are an option. *)
Record sequencingCandidate := mk_candidate {
  sc_strip : Strip; sc_input : CalcInput; sc_baseTime : string; sc_naturalTtot : string; sc_slot : option SlotEntry;
  sc_hasCtot : bool; sc_improvement : bool; sc_started : bool; sc_staleBase : bool; sc_recoveredEobt : string
}.

Definition sc_hasSlot (c : sequencingCandidate) : bool := not_nil (sc_slot c).
(** The field of a candidate without a slot is the zero value. *)
Definition slot_ttot (c : sequencingCandidate) : string := match sc_slot c with Some slot => se_Ttot slot | None => ""%string end.

Definition build_candidate (containsPoint : list CdmTaxiPoint → float64 → float64 → bool) (config : CdmAirportConfig) (now : Time) (strip : Strip) :
    sequencingCandidate :=
  let recovered := recoverExpiredTsat strip now in
  let strip := match recovered with Some data => set_st_CdmData (Some data) strip | None => strip end in
  let recoveredEobt := match recovered with Some data => valueOrEmpty (cd_Eobt data) | None => ""%string end in
  let calcInput := buildCalcInput containsPoint strip config in
  mk_candidate strip calcInput (selectCalculationBase calcInput) (unconstrainedTtot calcInput (Some config) now) (existingSlotEntry strip)
    (negb (str_empty (TrimSpace (valueOrEmpty (effective cd_Ctot strip)))))
    (match st_CdmData strip with Some data => IsImprovementOnlyRecalculation data | None => false end)
    (stripHasStarted strip) (shouldInvalidateStaleTobt calcInput (timeToClock now)) recoveredEobt.

(** [strings.Compare] *)
Definition strings_Compare (a b : string) : Z := if str_eqb a b then 0 else if str_ltb a b then -1 else 1.

Definition compareSequencingCandidates (left right : sequencingCandidate) (anchor : Time) (preserveExistingSlots : bool) : Z :=
  if preserveExistingSlots && negb (Bool.eqb (sc_started left) (sc_started right)) then (if sc_started left then -1 else 1)
  else if negb (Bool.eqb (sc_hasCtot left) (sc_hasCtot right)) then (if sc_hasCtot left then -1 else 1)
  else if negb (Bool.eqb (ci_TobtAuthoritative (sc_input left)) (ci_TobtAuthoritative (sc_input right)))
  then (if ci_TobtAuthoritative (sc_input left) then -1 else 1)
  else
    let by_slot := if preserveExistingSlots then compareClockForSort (slot_ttot left) (slot_ttot right) anchor else 0 in
    if negb (by_slot =? 0) then by_slot
    else if negb (Bool.eqb (sc_staleBase left) (sc_staleBase right)) then (if sc_staleBase left then 1 else -1)
    else
      let by_natural := compareClockForSort (sc_naturalTtot left) (sc_naturalTtot right) anchor in
      if negb (by_natural =? 0) then by_natural
      else
        let by_base := compareClockForSort (sc_baseTime left) (sc_baseTime right) anchor in
        if negb (by_base =? 0) then by_base
        else strings_Compare (TrimSpace (st_Callsign (sc_strip left))) (TrimSpace (st_Callsign (sc_strip right))).

(** ** Slots of a pass *)

Definition same_callsign (a b : string) : bool := EqualFold (TrimSpace a) (TrimSpace b).

Definition hasSlotForCallsign (slots : list SlotEntry) (callsign : string) : bool :=
  existsb (λ slot, same_callsign (se_Callsign slot) callsign) slots.

(** The first slot of the callsign is taken out. *)
Fixpoint removeSlotForCallsign (slots : list SlotEntry) (callsign : string) : list SlotEntry :=
  match slots with
  | [] => []
  | slot :: rest => if same_callsign (se_Callsign slot) callsign then rest else slot :: removeSlotForCallsign rest callsign
  end.

Definition slotForCallsign (slots : list SlotEntry) (callsign : string) : option SlotEntry :=
  List.find (λ slot, same_callsign (se_Callsign slot) callsign) slots.

Definition slotsWithoutCallsign (slots : list SlotEntry) (callsign : string) : list SlotEntry :=
  filter (λ slot, same_callsign (se_Callsign slot) callsign = false) slots.

Definition preserved_conflict (candidate slot : SlotEntry) (config : CdmAirportConfig) : bool :=
  if negb (EqualFold (TrimSpace (se_Origin slot)) (TrimSpace (se_Origin candidate))) then false
  else if violatesSameDestinationSeparation (se_Ttot candidate) (se_Destination candidate) (se_Ttot slot) (se_Destination slot) then true
  else if negb (sameOrDependentRunway (se_DepRwy candidate) (se_DepRwy slot) (Some config)) then false
  else str_eqb (toHHMMSS (se_Ttot slot)) (toHHMMSS (se_Ttot candidate)).

Definition hasPreservedSlotConflict (candidate : SlotEntry) (slots : list SlotEntry) (config : CdmAirportConfig) : bool :=
  existsb (λ slot, preserved_conflict candidate slot config) slots.

Definition calculateWithSinglePreservedSlot (preserved : SlotEntry) (candidate : sequencingCandidate) (config : CdmAirportConfig) (now : Time) :
    outcome string :=
  r ← Calculate (sc_input candidate) [preserved] (Some config) now; Ok (cx_Ttot r).

(** The loop over the pending candidates *)
Fixpoint blocks_pending (candidate : sequencingCandidate) (slot : SlotEntry) (pending : list sequencingCandidate) (config : CdmAirportConfig)
    (now : Time) : outcome bool :=
  match pending with
  | [] => Ok false
  | p :: rest =>
      if sc_improvement p || sc_started p || str_empty (sc_naturalTtot p) || negb (sc_hasCtot p) && negb (ci_TobtAuthoritative (sc_input p))
      then blocks_pending candidate slot rest config now
      else if 0 <=? compareSequencingCandidates p candidate now false then blocks_pending candidate slot rest config now
      else
        ttot ← calculateWithSinglePreservedSlot slot p config now;
        if negb (str_eqb ttot (sc_naturalTtot p)) then Ok true else blocks_pending candidate slot rest config now
  end.

Definition preservedSlotBlocksHigherPriorityCandidate (candidate : sequencingCandidate) (slot : SlotEntry)
    (recalculate : list sequencingCandidate) (config : CdmAirportConfig) (now : Time) : outcome bool :=
  if sc_started candidate then Ok false else blocks_pending candidate slot recalculate config now.

Definition canRetainExistingSlot (candidate : sequencingCandidate) (slot : SlotEntry) (slots : list SlotEntry) (config : CdmAirportConfig)
    (now : Time) : outcome bool :=
  if sc_started candidate then Ok true
  else r ← Calculate (sc_input candidate) slots (Some config) now; Ok (str_eqb (toHHMMSS (cx_Ttot r)) (toHHMMSS (se_Ttot slot))).

(** ** The order of improvements *)

(** A predecessor that the code passes over: it has no slot, has started, is the
    candidate itself, or uses another airport or an independent runway. *)
Definition not_ahead (candidate : sequencingCandidate) (slot : SlotEntry) (config : CdmAirportConfig) (predecessor : sequencingCandidate) : bool :=
  match sc_slot predecessor with
  | None => true
  | Some p =>
      sc_started predecessor || same_callsign (st_Callsign (sc_strip predecessor)) (st_Callsign (sc_strip candidate)) ||
      negb (EqualFold (TrimSpace (se_Origin p)) (TrimSpace (se_Origin slot))) ||
      negb (sameOrDependentRunway (se_DepRwy slot) (se_DepRwy p) (Some config))
  end.

Fixpoint keeps_order (candidate : sequencingCandidate) (slot : SlotEntry) (proposedTtot : string) (slots probeSlots : list SlotEntry)
    (candidates : list sequencingCandidate) (config : CdmAirportConfig) (anchor : Time) : outcome bool :=
  match candidates with
  | [] => Ok true
  | predecessor :: rest =>
      let continue := keeps_order candidate slot proposedTtot slots probeSlots rest config anchor in
      if not_ahead candidate slot config predecessor then continue
      else if 0 <=? compareClockForSort (slot_ttot predecessor) (se_Ttot slot) anchor then continue
      else
        let currentTtot := match slotForCallsign slots (st_Callsign (sc_strip predecessor)) with Some active => se_Ttot active | None => slot_ttot predecessor end in
        if compareClockForSort currentTtot proposedTtot anchor <? 0 then continue
        else
          r ← Calculate (sc_input predecessor) probeSlots (Some config) anchor;
          let earliest := cx_Ttot r in
          if str_empty earliest || (0 <=? compareClockForSort earliest currentTtot anchor) then continue
          else if compareClockForSort earliest proposedTtot anchor <=? 0 then Ok false
          else continue
  end.

Definition improvementKeepsQueueOrder (candidate : sequencingCandidate) (proposedTtot : string) (slots : list SlotEntry)
    (candidates : list sequencingCandidate) (config : CdmAirportConfig) (anchor : Time) : outcome bool :=
  match sc_slot candidate with
  | None => Ok false
  | Some slot =>
      if str_empty (TrimSpace proposedTtot) then Ok true
      else keeps_order candidate slot proposedTtot slots (slotsWithoutCallsign slots (st_Callsign (sc_strip candidate))) candidates config anchor
  end.

Definition isEarlierClock (candidate existing : string) : bool :=
  match parseClock candidate, parseClock existing with
  | None, _ => false
  | _, None => true
  | _, _ => flt (float_of_int 0) (minutesBetween candidate existing)
  end.

(** ** The new data of a strip *)

Definition source_text (source : base_source) : string :=
  match source with NoBase => "" | BaseTobt => CdmCalculationBaseTobt | BaseEobt => CdmCalculationBaseEobt end.

Definition applyCalculationSnapshot (data : CdmData) (input : CalcInput) (runway invalidReason : string) : CdmData :=
  let '(baseTime, baseSource) := selectCalculationBaseWithSource input in
  let calculation := default zero_calculation (cd_Calculation data) in
  Normalize (set_cd_Calculation (Some
    (set_ca_InvalidReason (stringPointerIfPresent invalidReason) (set_ca_TaxiRunway (stringPointerIfPresent runway)
      (set_ca_TaxiMinutes (intPointerIfPositive (ci_TaxiMin input)) (set_ca_BaseSource (stringPointerIfPresent (source_text baseSource))
        (set_ca_BaseTime (stringPointerIfPresent baseTime) calculation)))))) data).

Definition calculationInvalidReason (input : CalcInput) (result : CalcResult) (now : Time) : string :=
  if negb (str_empty (cx_Tsat result)) || negb (str_empty (cx_Ttot result)) then ""
  else if shouldInvalidateStaleTobt input (timeToClock now) then CdmInvalidReasonStaleTobt else "".

(** The data of a flight whose start-up time has expired *)
Definition invalidated (data : CdmData) (input : CalcInput) (runway : string) : CdmData :=
  let updated := set_cd_Ttot None (set_cd_Tsat None (set_cd_ExpiredTsat (stringPointerIfPresent (valueOrEmpty (cd_Tsat data)))
    (set_cd_Phase (Some "I"%string) data))) in
  let updated := applyCalculationSnapshot updated input runway CdmInvalidReasonStaleTsat in
  ClearLocalRecalculationPending (setCalculationReasonMarkers updated (invalidReasonMarker updated)).

(** Without its controlled take-off time, unless that is a controller's *)
Definition proposal_input (input : CalcInput) (data : CdmData) : CalcInput :=
  if HasManualCtot data then input
  else mk_calc_input (ci_Callsign input) (ci_Origin input) (ci_Destination input) (ci_DepRwy input) (ci_Sid input) (ci_WakeCat input)
         (ci_Eobt input) (ci_Tobt input) (ci_TobtAuthoritative input) "" (ci_Aobt input) (ci_Asat input) (ci_TaxiMin input)
         (ci_DeIceMin input) (ci_DeiceTaxiMin input) false "".

(** The data of a flight with a new assignment *)
Definition assigned (data : CdmData) (input : CalcInput) (runway : string) (result proposal : CalcResult) (trace : list calculationTraceEntry)
    (now : Time) : CdmData :=
  let updated := set_cd_Tsat (stringPointerIfPresent (cx_Tsat result)) (set_cd_Phase None
    (set_cd_ViffProposalTtot (stringPointerIfPresent (cx_Ttot proposal)) (set_cd_ViffProposalTsat (stringPointerIfPresent (cx_Tsat proposal)) data))) in
  let keep_expiry := str_empty (cx_Tsat result) && negb (str_empty (valueOrEmpty (cd_ExpiredTsat updated))) in
  let invalidReason := if keep_expiry then CdmInvalidReasonStaleTsat else calculationInvalidReason input result now in
  let updated := if keep_expiry then set_cd_Phase (Some "I"%string) updated else set_cd_ExpiredTsat None updated in
  let updated := applyCalculationSnapshot (set_cd_Ttot (stringPointerIfPresent (cx_Ttot result)) updated) input runway invalidReason in
  setCalculationReasonMarkers updated (movementReasonMarkersFromTrace trace).

(** ** The pass *)

Definition set_cd_ViffAuthority (v : string) (d : CdmData) : CdmData := ltac:(record_set eta_CdmData cd_ViffAuthority v d).

(** The slots so far, the rows written, in order, and the off-block times sent to EuroScope *)
Record pass := mk_pass { ps_slots : list SlotEntry; ps_written : list (string * CdmData); ps_eobt : list (string * string) }.

Definition set_ps_slots (v : list SlotEntry) (s : pass) : pass := mk_pass v (ps_written s) (ps_eobt s).

(** What is broadcast to the two hubs when [notify] is set: the rows written *)
Record recalculation := mk_recalculation { rc_pass : pass; rc_broadcast : list (string * CdmData) }.

Inductive disposition := Retain (slot : SlotEntry) | Skip | Proceed.

Section recalculation.
Context (containsPoint : list CdmTaxiPoint → float64 → float64 → bool).
(** [captureViffAuthority]: the token it puts into the data, if it does *)
Context (captureAuthority : Strip → outcome (option string)).
(** [SetCdmData]: the number of rows *)
Context (SetCdmData : string → CdmData → outcome Z).
(** [DispatchEuroscopeCommand] of an off-block time *)
Context (dispatchEobt : string → string → outcome unit).
Context (config : CdmAirportConfig) (now : Time).

Definition must_recalculate (c : sequencingCandidate) : bool := shouldRecalculateStrip (sc_strip c) now || negb (sc_hasSlot c).

(** A preserved candidate has a slot; without one the loop would do nothing here. *)
Definition preserve_step (s : list SlotEntry * list sequencingCandidate) (c : sequencingCandidate) : outcome (list SlotEntry * list sequencingCandidate) :=
  let '(slots, recalculate) := s in
  match sc_slot c with
  | None => Ok s
  | Some slot =>
      if sc_started c then Ok (slots ++ [slot], recalculate)
      else if hasPreservedSlotConflict slot slots config then Ok (slots, recalculate ++ [c])
      else
        blocks ← preservedSlotBlocksHigherPriorityCandidate c slot recalculate config now;
        if blocks : bool then Ok (slots, recalculate ++ [c]) else Ok (slots ++ [slot], recalculate)
  end.

Definition preserved_less (a b : sequencingCandidate) : bool := compareSequencingCandidates a b now true <? 0.

(** The slots kept and the candidates to recalculate *)
Definition preserve (candidates : list sequencingCandidate) : outcome (list SlotEntry * list sequencingCandidate) :=
  let recalculate := filter (λ c, must_recalculate c = true) candidates in
  let preserved := sort_slice preserved_less (filter (λ c, must_recalculate c = false) candidates) in
  fold_outcome preserve_step ([], recalculate) preserved.

Definition reserve_step (slots : list SlotEntry) (c : sequencingCandidate) : list SlotEntry :=
  match sc_slot c with
  | Some slot =>
      if sc_improvement c && negb (isTsatSpecificallyExpired (sc_strip c) now) && negb (hasSlotForCallsign slots (st_Callsign (sc_strip c)))
      then slots ++ [slot] else slots
  | None => slots
  end.

(** Two improvements go by their slots, all others by priority. This relation is
    not transitive ([recalculate_less_cyclic]), so the order depends on the sorting
    algorithm; nothing but the elements of the result is relied on. *)
Definition recalculate_less (a b : sequencingCandidate) : bool :=
  let by_slot := if sc_improvement a && sc_improvement b && sc_hasSlot a && sc_hasSlot b then compareClockForSort (slot_ttot a) (slot_ttot b) now else 0 in
  if negb (by_slot =? 0) then by_slot <? 0 else compareSequencingCandidates a b now false <? 0.

Definition dispose (slots : list SlotEntry) (c : sequencingCandidate) : outcome disposition :=
  if shouldRecalculateStrip (sc_strip c) now then Ok Proceed
  else match existingSlotEntry (sc_strip c) with
       | None => Ok Skip
       | Some slot =>
           if sc_started c then Ok (Retain slot)
           else keep ← canRetainExistingSlot c slot slots config now; Ok (if keep : bool then Retain slot else Proceed)
       end.

(** [captureViffAuthority] and [SetCdmData], with the data as it is stored *)
Definition store (strip : Strip) (updated : CdmData) : outcome CdmData :=
  token ← captureAuthority strip;
  let updated := Normalize (match token with Some t => set_cd_ViffAuthority t updated | None => updated end) in
  rows ← SetCdmData (st_Callsign strip) updated;
  _ ← guard_err (negb (rows =? 1)) (Errorf "failed to persist recalculated CDM data" []);
  Ok updated.

Definition strip_data (strip : Strip) : CdmData := match st_CdmData strip with Some data => data | None => Normalize zero_cdm_data end.

(** The branch of an expired start-up time *)
Definition invalidate (s : pass) (c : sequencingCandidate) : outcome pass :=
  let strip := sc_strip c in
  let slots := if sc_improvement c then removeSlotForCallsign (ps_slots s) (st_Callsign strip) else ps_slots s in
  let data := strip_data strip in
  if str_eqb (valueOrEmpty (cd_Phase data)) "I" && is_nil (cd_Tsat data) && is_nil (cd_Ttot data) then Ok (set_ps_slots slots s)
  else
    stored ← store strip (invalidated data (sc_input c) (valueOrEmpty (st_Runway strip)));
    Ok (mk_pass slots (ps_written s ++ [(st_Callsign strip, stored)]) (ps_eobt s)).

Definition taxi_minutes_of (data : CdmData) : Z := intValue (match cd_Calculation data with Some c => ca_TaxiMinutes c | None => None end).
Definition taxi_runway_of (data : CdmData) : string := TrimSpace (valueOrEmpty (match cd_Calculation data with Some c => ca_TaxiRunway c | None => None end)).

(** Whether the assignment differs from the data before *)
Definition differs (c : sequencingCandidate) (data updated : CdmData) (result : CalcResult) : bool :=
  negb (str_eqb (stored_clock (cd_Tsat data)) (cx_Tsat result)) || negb (str_eqb (stored_clock (cd_Ttot data)) (cx_Ttot result)) ||
  NeedsLocalRecalculation data || negb (taxi_minutes_of data =? ci_TaxiMin (sc_input c)) ||
  negb (str_eqb (taxi_runway_of data) (taxi_runway_of updated)) ||
  negb (str_eqb (valueOrEmpty (cd_ViffProposalTsat data)) (valueOrEmpty (cd_ViffProposalTsat updated))) ||
  negb (str_eqb (valueOrEmpty (cd_ViffProposalTtot data)) (valueOrEmpty (cd_ViffProposalTtot updated))).

(** The times and the data of a candidate, and the slots without the one an adopted improvement gives up *)
Definition new_assignment (candidates : list sequencingCandidate) (slots : list SlotEntry) (c : sequencingCandidate) :
    outcome (list SlotEntry * CalcResult * CdmData) :=
  let strip := sc_strip c in
  let data := strip_data strip in
  let before := mk_calc_result (stored_clock (cd_Tsat data)) (stored_clock (cd_Ttot data)) in
  rt ← calculateWithTrace (sc_input c) slots (Some config) now;
  let '(result, trace) := rt in
  adopt ← (if isEarlierClock (cx_Tsat result) (cx_Tsat before) then improvementKeepsQueueOrder c (cx_Ttot result) slots candidates config now
           else Ok false);
  if sc_improvement c && negb adopt then Ok (slots, before, ClearLocalRecalculationPending data)
  else
    let slots := if sc_improvement c then removeSlotForCallsign slots (st_Callsign strip) else slots in
    proposal ← Calculate (proposal_input (sc_input c) data) slots (Some config) now;
    Ok (slots, result, ClearLocalRecalculationPending (assigned data (sc_input c) (valueOrEmpty (st_Runway strip)) result proposal trace now)).

(** The data as stored when it differs; a recovered off-block time goes to EuroScope *)
Definition store_assignment (s : pass) (c : sequencingCandidate) (result : CalcResult) (updated : CdmData) : outcome (pass * CdmData) :=
  let strip := sc_strip c in
  if differs c (strip_data strip) updated result then
    stored ← store strip updated;
    let s := mk_pass (ps_slots s) (ps_written s ++ [(st_Callsign strip, stored)]) (ps_eobt s) in
    if str_empty (sc_recoveredEobt c) then Ok (s, stored)
    else
      _ ← dispatchEobt (st_Callsign strip) (sc_recoveredEobt c);
      Ok (mk_pass (ps_slots s) (ps_written s) (ps_eobt s ++ [(st_Callsign strip, sc_recoveredEobt c)]), stored)
  else Ok (s, updated).

Definition add_slot (slots : list SlotEntry) (strip : Strip) (ttot : string) (data : CdmData) : list SlotEntry :=
  if negb (str_empty ttot) && negb (hasSlotForCallsign slots (st_Callsign strip)) then slots ++ [slot_of strip ttot data] else slots.

Definition reassign (candidates : list sequencingCandidate) (s : pass) (c : sequencingCandidate) : outcome pass :=
  a ← new_assignment candidates (ps_slots s) c;
  let '(slots, result, updated) := a in
  sd ← store_assignment (set_ps_slots slots s) c result updated;
  let '(s, data) := sd in
  Ok (set_ps_slots (add_slot (ps_slots s) (sc_strip c) (cx_Ttot result) data) s).

Definition process (candidates : list sequencingCandidate) (s : pass) (c : sequencingCandidate) : outcome pass :=
  d ← dispose (ps_slots s) c;
  match d with
  | Retain slot => Ok (set_ps_slots (ps_slots s ++ [slot]) s)
  | Skip => Ok s
  | Proceed =>
      if isTsatSpecificallyExpired (sc_strip c) now && negb (dataAllowsStartedRecalculation (sc_strip c)) then invalidate s c
      else reassign candidates s c
  end.

Definition build_candidates (strips : list Strip) : list sequencingCandidate :=
  build_candidate containsPoint config now <$> filter (λ strip, shouldSkipStrip strip = false) strips.

(** The slots before the loop, and its candidates in order *)
Definition pass_start (candidates : list sequencingCandidate) : outcome (list SlotEntry * list sequencingCandidate) :=
  p ← preserve candidates;
  let '(slots, pending) := p in
  Ok (foldl reserve_step slots pending, sort_slice recalculate_less pending).

Definition recalculate (strips : list Strip) (notify : bool) : outcome recalculation :=
  let candidates := build_candidates strips in
  start ← pass_start candidates;
  let '(slots, pending) := start in
  s ← fold_outcome (process candidates) (mk_pass slots [] []) pending;
  Ok (mk_recalculation s (if notify then ps_written s else [])).
End recalculation.
