(* ===== verification/CdmSequenceSafety.v ===== *)
(** * The slots of a departure sequence

    Of [recalculate] of [CdmSequence]: the slots it starts from, what a round of its
    loop does to the slots, the separation of a new slot from those before it, and
    that the pass returns when the slots leave room. The theorems are in [CdmPass]. *)

From S2P Require Import Prelude GoTime GoFloat CdmClock CdmData CdmConfig.
From S2P Require Import CdmCalculate CdmSafety CdmMarkers CdmSequence.
From Stdlib Require Import Strings.Ascii Strings.String QArith.

Local Open Scope Z_scope.

(** ** Callsigns *)

Definition norm (callsign : string) : string := ToUpper (TrimSpace callsign).

Lemma same_callsign_norm a b : same_callsign a b = true ↔ norm a = norm b.
Proof. apply str_eqb_eq. Qed.

Definition slot_key (slot : SlotEntry) : string := norm (se_Callsign slot).
Definition candidate_key (c : sequencingCandidate) : string := norm (st_Callsign (sc_strip c)).

Lemma hasSlotForCallsign_iff slots callsign : hasSlotForCallsign slots callsign = true ↔ norm callsign ∈ slot_key <$> slots.
Proof.
  unfold hasSlotForCallsign. rewrite existsb_exists, list_elem_of_fmap. split.
  - intros (s & Hin & H%same_callsign_norm). exists s. split; [done|by apply list_elem_of_In].
  - intros (s & H & Hin). exists s. split; [by apply list_elem_of_In|by apply same_callsign_norm].
Qed.

Lemma hasSlotForCallsign_false slots callsign : hasSlotForCallsign slots callsign = false ↔ (norm callsign ∉ slot_key <$> slots).
Proof. rewrite <-hasSlotForCallsign_iff. destruct (hasSlotForCallsign _ _); naive_solver. Qed.

Lemma removeSlotForCallsign_sublist slots callsign : sublist (removeSlotForCallsign slots callsign) slots.
Proof.
  induction slots as [|s l IH]; simpl; [done|]. destruct (same_callsign _ _); [by apply sublist_cons|by apply sublist_skip].
Qed.

Lemma removeSlotForCallsign_key slots callsign :
  NoDup (slot_key <$> slots) → (norm callsign ∉ slot_key <$> removeSlotForCallsign slots callsign).
Proof.
  induction slots as [|s l IH]; simpl; [set_solver|]. intros [Hn Hd]%NoDup_cons. destruct (same_callsign _ _) eqn:E.
  - apply same_callsign_norm in E. by rewrite <-E.
  - simpl. rewrite not_elem_of_cons. split; [|by apply IH]. intros Hk. assert (same_callsign (se_Callsign s) callsign = true) by (by apply same_callsign_norm).
    congruence.
Qed.

Lemma NoDup_sublist {A} (l k : list A) : sublist l k → NoDup k → NoDup l.
Proof.
  induction 1 as [|x l k Hs IH|x l k Hs IH]; [done|..]; intros [Hn Hd]%NoDup_cons; [|by apply IH].
  constructor; [|by apply IH]. intros Hx. apply Hn. eapply elem_of_submseteq; [exact Hx|by apply sublist_submseteq].
Qed.

Lemma elem_of_sublist {A} (l k : list A) x : sublist l k → x ∈ l → x ∈ k.
Proof. intros Hs Hx. eapply elem_of_submseteq; [exact Hx|by apply sublist_submseteq]. Qed.

Lemma fmap_sublist {A B} (f : A → B) (l k : list A) : sublist l k → sublist (f <$> l) (f <$> k).
Proof. induction 1; simpl; by constructor. Qed.

Lemma in_order_sublist {A} (R : A → A → Prop) (l k : list A) : sublist l k → in_order R k → in_order R l.
Proof.
  induction 1 as [|x l k Hs IH|x l k Hs IH]; [done|..]; rewrite ?in_order_cons; intros [Hx Hk]; [|by apply IH].
  split; [|by apply IH]. intros a Ha. apply Hx. by eapply elem_of_sublist.
Qed.

(** ** What a candidate knows of its strip *)

Section safety.
Context (containsPoint : list CdmTaxiPoint → float64 → float64 → bool).
Context (captureAuthority : Strip → outcome (option string)) (SetCdmData : string → CdmData → outcome Z).
Context (dispatchEobt : string → string → outcome unit) (config : CdmAirportConfig) (now : Time).

Record from_strip (c : sequencingCandidate) : Prop := {
  fs_input : sc_input c = buildCalcInput containsPoint (sc_strip c) config;
  fs_slot : sc_slot c = existingSlotEntry (sc_strip c);
  fs_improvement : sc_improvement c = match st_CdmData (sc_strip c) with Some data => IsImprovementOnlyRecalculation data | None => false end;
  fs_started : sc_started c = stripHasStarted (sc_strip c)
}.

Lemma build_candidate_facts strip :
  from_strip (build_candidate containsPoint config now strip) ∧
  st_Callsign (sc_strip (build_candidate containsPoint config now strip)) = st_Callsign strip.
Proof. unfold build_candidate. destruct (recoverExpiredTsat strip now); by repeat split. Qed.

Lemma candidate_facts strips c : c ∈ build_candidates containsPoint config now strips → from_strip c.
Proof. unfold build_candidates. intros (s & -> & _)%list_elem_of_fmap. apply build_candidate_facts. Qed.

Lemma candidate_keys strips :
  candidate_key <$> build_candidates containsPoint config now strips =
  (λ s, norm (st_Callsign s)) <$> filter (λ strip, shouldSkipStrip strip = false) strips.
Proof.
  unfold build_candidates. rewrite <-list_fmap_compose. apply list_fmap_ext. intros i s _.
  change (norm (st_Callsign (sc_strip (build_candidate containsPoint config now s))) = norm (st_Callsign s)).
  by rewrite (proj2 (build_candidate_facts s)).
Qed.

Lemma existing_slot_key strip slot : existingSlotEntry strip = Some slot → slot_key slot = norm (st_Callsign strip).
Proof.
  unfold existingSlotEntry. destruct (st_CdmData strip); [|done]. cbv zeta. destruct (str_empty _); [done|]. by intros [= <-].
Qed.

(** A flight that waits for an improvement is recalculated, unless it has started. *)
Lemma improvement_recalculated c :
  from_strip c → sc_improvement c = true → sc_started c = false → shouldRecalculateStrip (sc_strip c) now = true.
Proof.
  intros [_ _ Hi Hs]. rewrite Hi, Hs. unfold shouldRecalculateStrip. destruct (st_CdmData (sc_strip c)) as [data|]; [|done].
  unfold IsImprovementOnlyRecalculation. intros [Hr _]%andb_true_iff ->. unfold NeedsLocalRecalculation. by rewrite Hr.
Qed.

(** ** The slots before the loop *)

Context (candidates : list sequencingCandidate).
Context (Hfacts : ∀ c, c ∈ candidates → from_strip c) (Hunique : NoDup (candidate_key <$> candidates)).

(** Every slot belongs to a candidate and has the time of its strip. *)
Definition stored_slot (slot : SlotEntry) : Prop := ∃ c, c ∈ candidates ∧ sc_slot c = Some slot.

(** The slots of the first loop and the candidates put off by it *)
Record preserving (done : list sequencingCandidate) (s : list SlotEntry * list sequencingCandidate) : Prop := {
  pv_slots : ∀ slot, slot ∈ s.1 → stored_slot slot;
  pv_pending : ∀ c, c ∈ s.2 → c ∈ candidates ∧ (shouldRecalculateStrip (sc_strip c) now = true ∨ sc_slot c = None ∨ sc_started c = false ∧ must_recalculate now c = false);
  pv_keys : (slot_key <$> s.1) ++ (candidate_key <$> s.2) ≡ₚ candidate_key <$> (filter (λ c, must_recalculate now c = true) candidates ++ done)
}.

Lemma preserve_step_ok done s c s' :
  c ∈ candidates → must_recalculate now c = false → preserving done s → preserve_step config now s c = Ok s' → preserving (done ++ [c]) s'.
Proof.
  intros Hin Hm [H1 H2 H3]. destruct s as [slots pending]. simpl in *. unfold preserve_step.
  assert (Hk : candidate_key <$> (filter (λ c, must_recalculate now c = true) candidates ++ done ++ [c]) ≡ₚ
               (slot_key <$> slots) ++ (candidate_key <$> pending) ++ [candidate_key c]).
  { rewrite (app_assoc _ done), fmap_app, <-H3. by rewrite <-app_assoc. }
  destruct (sc_slot c) as [slot|] eqn:Es.
  2: { exfalso. unfold must_recalculate, sc_hasSlot in Hm. rewrite Es, orb_true_r in Hm. done. }
  assert (Ek : slot_key slot = candidate_key c).
  { destruct (Hfacts c Hin) as [_ Hs _ _]. rewrite Es in Hs. symmetry in Hs. by apply existing_slot_key in Hs. }
  assert (Hkeep : preserving (done ++ [c]) (slots ++ [slot], pending)).
  { split; simpl; [|exact H2|].
    - intros x [Hx | ->%list_elem_of_singleton]%elem_of_app; [by apply H1|by exists c].
    - rewrite fmap_app. simpl. rewrite Ek, <-app_assoc, Hk. apply Permutation_app_head. by rewrite Permutation_app_comm. }
  assert (Hput : sc_started c = false → preserving (done ++ [c]) (slots, pending ++ [c])).
  { intros Hst. split; simpl; [exact H1| |].
    - intros x [Hx | ->%list_elem_of_singleton]%elem_of_app; [by apply H2|]. split; [done|]. right; right. done.
    - by rewrite fmap_app, Hk. }
  destruct (sc_started c); [by intros [= <-]|]. destruct (hasPreservedSlotConflict _ _ _); [intros [= <-]; by apply Hput|].
  intros (b & _ & H)%bind_ok. destruct b; injection H as <-; [by apply Hput|done].
Qed.

Lemma fold_preserve l s s' done :
  (∀ c, c ∈ l → c ∈ candidates ∧ must_recalculate now c = false) → preserving done s →
  fold_outcome (preserve_step config now) s l = Ok s' → preserving (done ++ l) s'.
Proof.
  revert s done. induction l as [|c l IH]; intros s done Hl Hp H; simpl in H.
  { injection H as <-. by rewrite app_nil_r. }
  apply bind_ok in H as (s1 & H1 & H). destruct (Hl c (list_elem_of_here _ _)) as [Hin Hm].
  replace (done ++ c :: l) with ((done ++ [c]) ++ l) by (by rewrite <-app_assoc).
  eapply IH; [intros x Hx; apply Hl; by right|eapply preserve_step_ok; eauto|exact H].
Qed.

(** What the loop starts from: the keys of slots and pending candidates are
    distinct, except those of the reserved improvements. *)
Record pass_started (slots : list SlotEntry) (pending : list sequencingCandidate) : Prop := {
  sd_slots : ∀ slot, slot ∈ slots → stored_slot slot;
  sd_keys : NoDup (slot_key <$> slots);
  sd_pending : ∀ c, c ∈ pending → c ∈ candidates;
  sd_pending_keys : NoDup (candidate_key <$> pending);
  sd_reserved : ∀ c, c ∈ pending → candidate_key c ∈ slot_key <$> slots → shouldRecalculateStrip (sc_strip c) now = true ∧ sc_improvement c = true;
  sd_preserved : ∀ c, c ∈ candidates → c ∉ pending → candidate_key c ∈ slot_key <$> slots
}.

Lemma key_inj (l : list sequencingCandidate) c d :
  NoDup (candidate_key <$> l) → c ∈ l → d ∈ l → candidate_key c = candidate_key d → c = d.
Proof.
  intros Hn [i Hi]%list_elem_of_lookup [j Hj]%list_elem_of_lookup E.
  assert (i = j) as ->.
  { apply (NoDup_lookup _ i j (candidate_key c) Hn); rewrite list_lookup_fmap; [by rewrite Hi|by rewrite Hj, E]. }
  congruence.
Qed.

Lemma preserve_ok s : preserve config now candidates = Ok s → preserving (sort_slice (preserved_less now) (filter (λ c, must_recalculate now c = false) candidates)) s.
Proof.
  unfold preserve. intros H.
  refine (fold_preserve _ _ _ [] _ _ H).
  - intros c Hc. apply elem_of_sort_slice in Hc. by apply list_elem_of_filter in Hc as [? ?].
  - split; simpl; [by intros ? ?%elem_of_nil| |by rewrite app_nil_r].
    intros c [Hm Hin]%list_elem_of_filter. split; [done|]. unfold must_recalculate in Hm. apply orb_true_iff in Hm as [Hm|Hm]; [by left|].
    right; left. unfold sc_hasSlot in Hm. by destruct (sc_slot c).
Qed.

Lemma preserve_keys s : preserve config now candidates = Ok s → NoDup ((slot_key <$> s.1) ++ (candidate_key <$> s.2)).
Proof.
  intros H. rewrite (pv_keys _ _ (preserve_ok s H)), fmap_app, sort_slice_perm, <-fmap_app.
  eapply (NoDup_Permutation_proper); [|exact Hunique]. apply fmap_Permutation. rewrite <-(filter_app_complement (λ c, must_recalculate now c = true) candidates) at 3.
  apply Permutation_app_head. rewrite (list_filter_iff _ (λ c, ¬ must_recalculate now c = true)); [done|].
  intros c. by destruct (must_recalculate now c).
Qed.

(** The reservations of the improvements *)
Record reserving (pending : list sequencingCandidate) (slots : list SlotEntry) : Prop := {
  rg_slots : ∀ slot, slot ∈ slots → stored_slot slot;
  rg_keys : NoDup (slot_key <$> slots);
  rg_reserved : ∀ slot, slot ∈ slots → (slot_key slot ∉ candidate_key <$> pending) ∨
    ∃ c, c ∈ pending ∧ candidate_key c = slot_key slot ∧ shouldRecalculateStrip (sc_strip c) now = true ∧ sc_improvement c = true
}.

Lemma reserve_ok pending l slots :
  (∀ c, c ∈ l → c ∈ pending ∧ c ∈ candidates ∧
    (shouldRecalculateStrip (sc_strip c) now = true ∨ sc_slot c = None ∨ sc_started c = false ∧ must_recalculate now c = false)) →
  reserving pending slots → reserving pending (foldl (reserve_step now) slots l).
Proof.
  revert slots. induction l as [|c l IH]; intros slots Hl Hr; [done|]. simpl. apply IH; [intros x Hx; apply Hl; by right|].
  destruct (Hl c (list_elem_of_here _ _)) as (Hp & Hin & Hc). unfold reserve_step. destruct (sc_slot c) as [slot|] eqn:Es; [|done].
  destruct (sc_improvement c && _ && _) eqn:E; [|done]. apply andb_true_iff in E as [[Hi _]%andb_true_iff Hh%negb_true_iff].
  apply hasSlotForCallsign_false in Hh. destruct Hr as [H1 H2 H3]. pose proof (Hfacts c Hin) as Hf.
  assert (Ek : slot_key slot = candidate_key c) by (pose proof (fs_slot _ Hf) as Hs; rewrite Es in Hs; symmetry in Hs; by apply existing_slot_key in Hs).
  assert (Hs : shouldRecalculateStrip (sc_strip c) now = true).
  { destruct Hc as [Hc|[Hc|[Hc _]]]; [done|done|by apply improvement_recalculated]. }
  split.
  - intros x [Hx | ->%list_elem_of_singleton]%elem_of_app; [by apply H1|by exists c].
  - rewrite fmap_app. apply NoDup_app. split; [done|]. simpl. split; [|apply NoDup_singleton].
    intros x Hx ->%list_elem_of_singleton. rewrite Ek in Hx. by apply Hh.
  - intros x [Hx | ->%list_elem_of_singleton]%elem_of_app; [by apply H3|]. right. by exists c.
Qed.

Lemma reserve_extends l slots slot : slot ∈ slots → slot ∈ foldl (reserve_step now) slots l.
Proof.
  revert slots. induction l as [|c l IH]; intros slots Hs; simpl; [done|]. apply IH. unfold reserve_step.
  destruct (sc_slot c); [|done]. destruct (_ && _); [|done]. apply elem_of_app. by left.
Qed.

Lemma pass_start_ok slots pending : pass_start config now candidates = Ok (slots, pending) → pass_started slots pending.
Proof.
  unfold pass_start. intros ([slots0 pending0] & H & E)%bind_ok. injection E as <- <-.
  pose proof (preserve_ok _ H) as [H1 H2 H3]. pose proof (preserve_keys _ H) as Hk. simpl in *.
  apply NoDup_app in Hk as (Hk1 & Hk2 & Hk3).
  assert (Hr : reserving pending0 (foldl (reserve_step now) slots0 pending0)).
  { apply reserve_ok; [intros c Hc; split; [done|by apply H2]|]. split; [done|done|]. intros slot Hs. left.
    apply Hk2. by apply list_elem_of_fmap_2. }
  destruct Hr as [R1 R2 R3]. split; [done|done|..].
  - intros c Hc. apply elem_of_sort_slice in Hc. by apply H2.
  - by rewrite sort_slice_perm.
  - intros c Hc (slot & Ek & Hs)%list_elem_of_fmap. apply elem_of_sort_slice in Hc. destruct (R3 slot Hs) as [Hn|(d & Hd & Ed & Hsd & Hi)].
    + destruct Hn. rewrite <-Ek. by apply list_elem_of_fmap_2.
    + by rewrite (key_inj pending0 c d Hk3 Hc Hd) by (rewrite Ed; done).
  - intros c Hc Hnot. assert (Hin : candidate_key c ∈ (slot_key <$> slots0) ++ (candidate_key <$> pending0)).
    { rewrite H3. apply list_elem_of_fmap_2, elem_of_app. rewrite elem_of_sort_slice, !list_elem_of_filter.
      destruct (must_recalculate now c); [by left|by right]. }
    apply elem_of_app in Hin as [(slot & E & Hs)%list_elem_of_fmap|(d & E & Hd)%list_elem_of_fmap].
    + apply list_elem_of_fmap. exists slot. split; [done|by apply reserve_extends].
    + destruct Hnot. apply elem_of_sort_slice. destruct (H2 d Hd) as [Hdc _]. by rewrite (key_inj candidates c d Hunique Hc Hdc E).
Qed.

(** ** The separation of a new slot *)

(** The input that the fields of a slot amount to *)
Definition as_input (b : SlotEntry) : CalcInput :=
  mk_calc_input (se_Callsign b) (se_Origin b) (se_Destination b) (se_DepRwy b) (se_Sid b) (se_WakeCat b) "" "" false "" "" "" 0 0 0
    (se_HasManCtot b) (se_ManCtot b).

(** The take-off time of [b] keeps the minima to that of [a], a slot of another flight at the airport. *)
Definition slots_apart (a b : SlotEntry) : Prop :=
  EqualFold (TrimSpace (se_Origin a)) (TrimSpace (se_Origin b)) = true → slot_key a ≠ slot_key b →
  ∀ s, clock_text (se_Ttot a) s → ∃ t, clock_text (se_Ttot b) t ∧ kept_apart (as_input b) (Some config) a (circular (t - s)).

Lemma HasManualCtot_Normalize d : HasManualCtot (Normalize d) = HasManualCtot d.
Proof. unfold Normalize. by destruct (calculationIsEmpty _). Qed.

Lemma HasManualCtot_markers d l : HasManualCtot (setCalculationReasonMarkers d l) = HasManualCtot d.
Proof. unfold setCalculationReasonMarkers. cbv zeta. by rewrite HasManualCtot_Normalize. Qed.

Lemma HasManualCtot_snapshot d input runway reason : HasManualCtot (applyCalculationSnapshot d input runway reason) = HasManualCtot d.
Proof. unfold applyCalculationSnapshot. destruct (selectCalculationBaseWithSource input). cbv zeta. by rewrite HasManualCtot_Normalize. Qed.

Lemma HasManualCtot_assigned d input runway result proposal trace :
  HasManualCtot (ClearLocalRecalculationPending (assigned d input runway result proposal trace now)) = HasManualCtot d.
Proof.
  change (HasManualCtot (assigned d input runway result proposal trace now) = HasManualCtot d).
  unfold assigned. cbv zeta. rewrite HasManualCtot_markers, HasManualCtot_snapshot. by destruct (_ && _).
Qed.

Lemma new_slot_apart c slots r data a :
  from_strip c → plain_input (sc_input c) → Calculate (sc_input c) slots (Some config) now = Ok r → cx_Ttot r ≠ ""%string →
  HasManualCtot data = HasManualCtot (strip_data (sc_strip c)) → a ∈ slots → slots_apart a (slot_of (sc_strip c) (cx_Ttot r) data).
Proof.
  intros Hf Hp Hr Hne Hd Ha Ho Hk s Hs. pose proof (fs_input _ Hf) as Hi.
  assert (Hfo : foreign (sc_input c) a = false).
  { unfold foreign. rewrite Hi. simpl. apply orb_false_iff. split; [by apply negb_false_iff|].
    apply not_true_iff_false. intros E. apply Hk. by apply same_callsign_norm in E. }
  destruct (calculate_separated _ _ _ _ _ _ _ Hr Hne Hp Ha Hfo Hs) as (t & Ht & Hd' & Hka).
  exists t. split; [split; [done|]; simpl; rewrite Ht; by apply toHHMMSS_format|].
  rewrite Hi in Hka. assert (Hm : HasManualCtot (match st_CdmData (sc_strip c) with Some data => data | None => Normalize zero_cdm_data end) = HasManualCtot data)
    by (symmetry; exact Hd).
  destruct Hka as [K1 K2 K3 K4 K5]. simpl in *. split; simpl; [done|done| |done|done]. rewrite <-Hm. exact K3.
Qed.

(** ** One round of the loop *)

Context (Hplain : ∀ c, c ∈ candidates → plain_input (sc_input c)).

(** A started flight, or one that waits for an improvement, keeps the take-off
    time it had before the pass. *)
Definition keeps (b : SlotEntry) : Prop :=
  ∃ c, c ∈ candidates ∧ candidate_key c = slot_key b ∧ sc_started c || sc_improvement c = true ∧ sc_hasSlot c = true ∧ slot_ttot c = se_Ttot b.

Lemma stored_keeps c slot : c ∈ candidates → sc_slot c = Some slot → sc_started c || sc_improvement c = true → keeps slot.
Proof.
  intros Hin Es Hk. exists c. pose proof (fs_slot _ (Hfacts c Hin)) as Hs. rewrite Es in Hs. symmetry in Hs. apply existing_slot_key in Hs.
  unfold sc_hasSlot, slot_ttot. rewrite Es. done.
Qed.

(** A slot that the loop retains is the one it would calculate. *)
Lemma retained_slot_apart c slot slots a :
  from_strip c → plain_input (sc_input c) → sc_slot c = Some slot → sc_started c = false →
  canRetainExistingSlot c slot slots config now = Ok true → a ∈ slots → slots_apart a slot.
Proof.
  intros Hf Hp Es Hst. unfold canRetainExistingSlot. rewrite Hst. intros (r & Hr & [= Hc%str_eqb_eq])%bind_ok Ha.
  pose proof (fs_slot _ Hf) as Hs. rewrite Es in Hs. symmetry in Hs. unfold existingSlotEntry in Hs.
  destruct (st_CdmData (sc_strip c)) as [data|] eqn:Ed; [|done]. cbv zeta in Hs. destruct (str_empty _) eqn:Ee; [done|]. injection Hs as <-.
  set (ttot := stored_clock (cd_Ttot data)) in *. intros Ho Hk s Ht.
  assert (Hne : cx_Ttot r ≠ ""%string).
  { intros E. rewrite E in Hc. change (toHHMMSS "") with ""%string in Hc. symmetry in Hc. apply toHHMMSS_trimmed_empty in Hc. change (str_empty (TrimSpace (valueOrEmpty (cd_Ttot data))) = false) in Ee. by rewrite Hc in Ee. }
  destruct (new_slot_apart c slots r data a Hf Hp Hr Hne ltac:(unfold strip_data; by rewrite Ed) Ha Ho Hk s Ht) as (t & [Hd Hf'] & Hka).
  exists t. split; [|exact Hka]. split; [done|]. simpl in *. by rewrite <-Hc.
Qed.

(** A round takes at most the slot of its candidate out, and adds at most one for it. *)
Definition slot_step (c : sequencingCandidate) (slots slots' : list SlotEntry) : Prop :=
  ∃ base, sublist base slots ∧
    (slots' = base ∨ ∃ b, slots' = base ++ [b] ∧ slot_key b = candidate_key c ∧ (candidate_key c ∉ slot_key <$> base) ∧
      (keeps b ∨ ∀ a, a ∈ base → slots_apart a b)).

Lemma store_data strip updated stored :
  store captureAuthority SetCdmData strip updated = Ok stored →
  HasManualCtot stored = HasManualCtot updated ∧ NeedsLocalRecalculation stored = NeedsLocalRecalculation updated ∧
  cd_Tsat stored = cd_Tsat updated ∧ cd_Ttot stored = cd_Ttot updated ∧ SetCdmData (st_Callsign strip) stored = Ok 1.
Proof.
  unfold store. intros (token & _ & H)%bind_ok. cbv zeta in H. apply bind_ok in H as (rows & Hr & H).
  apply bind_ok in H as ([] & Hg%guard_err_ok & H). injection H as <-. apply negb_false_iff, Z.eqb_eq in Hg. subst rows.
  split_and!; [| | | |exact Hr]; destruct token; unfold Normalize; by destruct (calculationIsEmpty _).
Qed.

Lemma store_assignment_data s c result updated s' data :
  store_assignment captureAuthority SetCdmData dispatchEobt s c result updated = Ok (s', data) →
  ps_slots s' = ps_slots s ∧ HasManualCtot data = HasManualCtot updated.
Proof.
  unfold store_assignment. destruct (differs _ _ _ _); [|by intros [= <- <-]].
  intros (stored & Hs & H)%bind_ok. apply store_data in Hs as (Hm & _). cbv zeta in H.
  destruct (str_empty _); [by injection H as <- <-|]. apply bind_ok in H as ([] & _ & H). by injection H as <- <-.
Qed.

(** A candidate either keeps its times or gets calculated ones. *)
Lemma new_assignment_cases slots c slots' result updated :
  new_assignment config now candidates slots c = Ok (slots', result, updated) →
  (slots' = slots ∧ sc_improvement c = true ∧
   result = mk_calc_result (stored_clock (cd_Tsat (strip_data (sc_strip c)))) (stored_clock (cd_Ttot (strip_data (sc_strip c)))) ∧
   updated = ClearLocalRecalculationPending (strip_data (sc_strip c))) ∨
  (Calculate (sc_input c) slots (Some config) now = Ok result ∧
   slots' = (if sc_improvement c then removeSlotForCallsign slots (st_Callsign (sc_strip c)) else slots) ∧
   (sc_improvement c = true → isEarlierClock (cx_Tsat result) (stored_clock (cd_Tsat (strip_data (sc_strip c)))) = true ∧
      improvementKeepsQueueOrder c (cx_Ttot result) slots candidates config now = Ok true) ∧
   ∃ proposal trace, updated =
     ClearLocalRecalculationPending (assigned (strip_data (sc_strip c)) (sc_input c) (valueOrEmpty (st_Runway (sc_strip c))) result proposal trace now)).
Proof.
  unfold new_assignment. cbv zeta. intros ([r trace] & Hr & H)%bind_ok. apply bind_ok in H as (adopt & Ha & H). simpl cx_Tsat in Ha.
  destruct (sc_improvement c && negb adopt) eqn:E.
  { injection H as <- <- <-. left. by apply andb_true_iff in E as [-> _]. }
  apply bind_ok in H as (proposal & _ & H). injection H as <- <- <-. right. split_and!; [|done| |by exists proposal, trace].
  - unfold Calculate. by rewrite Hr.
  - intros Hi. rewrite Hi in E. apply negb_false_iff in E. subst adopt.
    destruct (isEarlierClock _ _); [done|discriminate].
Qed.

Lemma strip_slot_keeps c strip_ttot data :
  c ∈ candidates → sc_improvement c = true → strip_ttot = stored_clock (cd_Ttot (strip_data (sc_strip c))) → str_empty strip_ttot = false →
  keeps (slot_of (sc_strip c) strip_ttot data).
Proof.
  intros Hin Hi -> He. exists c. rewrite Hi, orb_true_r. pose proof (fs_slot _ (Hfacts c Hin)) as Hs. unfold existingSlotEntry in Hs. unfold strip_data in *.
  destruct (st_CdmData (sc_strip c)) as [d|]; [|done]. cbv zeta in Hs. rewrite He in Hs. unfold sc_hasSlot, slot_ttot. by rewrite Hs.
Qed.

Lemma new_assignment_sublist slots c slots' result updated :
  new_assignment config now candidates slots c = Ok (slots', result, updated) → sublist slots' slots.
Proof.
  intros [(-> & _)|(_ & -> & _)]%new_assignment_cases; [done|]. destruct (sc_improvement c); [apply removeSlotForCallsign_sublist|done].
Qed.

Lemma reassign_slots s c s' :
  c ∈ candidates →
  reassign captureAuthority SetCdmData dispatchEobt config now candidates s c = Ok s' → slot_step c (ps_slots s) (ps_slots s').
Proof.
  intros Hin. unfold reassign. intros ([[slots result] updated] & Ha & H)%bind_ok. apply bind_ok in H as ([s1 data] & Hs & H).
  apply store_assignment_data in Hs as [Es Em]. injection H as <-. simpl. rewrite Es. simpl. unfold add_slot.
  exists slots. split; [by eapply new_assignment_sublist|].
  destruct (str_empty (cx_Ttot result)) eqn:Ee; simpl; [by left|].
  destruct (hasSlotForCallsign slots _) eqn:Eh; simpl; [by left|]. apply hasSlotForCallsign_false in Eh.
  right. eexists. split_and!; [reflexivity|done|exact Eh|].
  apply new_assignment_cases in Ha as [(-> & Hi & -> & ->)|(Hc & -> & _ & proposal & trace & ->)].
  - left. by apply strip_slot_keeps.
  - right. intros a Hain. eapply new_slot_apart; [by apply Hfacts|by apply Hplain|exact Hc| |by rewrite Em; apply HasManualCtot_assigned|].
    + intros E. by rewrite E in Ee.
    + destruct (sc_improvement c); [|done]. by eapply elem_of_sublist; [apply removeSlotForCallsign_sublist|].
Qed.

Lemma process_slots s c s' :
  c ∈ candidates → (candidate_key c ∈ slot_key <$> ps_slots s → shouldRecalculateStrip (sc_strip c) now = true) →
  process captureAuthority SetCdmData dispatchEobt config now candidates s c = Ok s' → slot_step c (ps_slots s) (ps_slots s').
Proof.
  intros Hin Hres. unfold process. intros (d & Hd & H)%bind_ok. unfold dispose in Hd. destruct d as [slot| |].
  - destruct (shouldRecalculateStrip _ _) eqn:Es; [done|]. destruct (existingSlotEntry _) as [slot'|] eqn:Ee; [|done].
    assert (slot' = slot) as ->.
    { destruct (sc_started c); [congruence|]. apply bind_ok in Hd as ([] & _ & Hd); congruence. }
    injection H as <-. exists (ps_slots s). split; [done|]. right. exists slot. split_and!; [done|by apply existing_slot_key| |].
    + intros Hk. by apply Hres in Hk.
    + assert (Es' : sc_slot c = Some slot) by (by rewrite (fs_slot _ (Hfacts c Hin))).
      destruct (sc_started c) eqn:Est; [left; apply (stored_keeps c slot Hin Es'); by rewrite Est|right].
      apply bind_ok in Hd as ([] & Hk & Hd); [|done]. intros a Ha. eapply retained_slot_apart; [by apply Hfacts|by apply Hplain|done..].
  - injection H as <-. exists (ps_slots s). split; [done|by left].
  - destruct (_ && _); [|by apply reassign_slots].
    unfold invalidate in H. cbv zeta in H.
    exists (if sc_improvement c then removeSlotForCallsign (ps_slots s) (st_Callsign (sc_strip c)) else ps_slots s).
    split; [destruct (sc_improvement c); [apply removeSlotForCallsign_sublist|done]|left].
    destruct (_ && is_nil (cd_Ttot _)); [by injection H as <-|]. apply bind_ok in H as (stored & _ & H). by injection H as <-.
Qed.

(** ** The whole loop *)

(** The slots before the loop *)
Context (slots0 : list SlotEntry).

Definition placed_slot (a b : SlotEntry) : Prop := b ∈ slots0 ∨ keeps b ∨ slots_apart a b.

Record looping (remaining : list sequencingCandidate) (slots : list SlotEntry) : Prop := {
  lo_keys : NoDup (slot_key <$> slots);
  lo_reserved : ∀ c, c ∈ remaining → candidate_key c ∈ slot_key <$> slots → shouldRecalculateStrip (sc_strip c) now = true;
  lo_owned : ∀ slot, slot ∈ slots → ∃ c, c ∈ candidates ∧ candidate_key c = slot_key slot;
  lo_order : in_order placed_slot slots
}.

Lemma looping_step c rest slots slots' :
  c ∈ candidates → NoDup (candidate_key <$> c :: rest) → looping (c :: rest) slots → slot_step c slots slots' → looping rest slots'.
Proof.
  intros Hin [Hn _]%NoDup_cons [H1 H2 H3 H4] (base & Hb & Hs).
  assert (Hbk : sublist (slot_key <$> base) (slot_key <$> slots)) by by apply fmap_sublist.
  assert (HL : looping rest base).
  { split; [by eapply NoDup_sublist| |intros x Hx; apply H3; by eapply elem_of_sublist|by eapply in_order_sublist].
    intros d Hd Hk. apply H2; [by right|]. by eapply elem_of_sublist. }
  destruct Hs as [-> |(b & -> & Ek & Hk & Hp)]; [done|]. destruct HL as [L1 L2 L3 L4]. split.
  - rewrite fmap_app. apply NoDup_app. split; [done|]. split; [|apply NoDup_singleton].
    intros x Hx ->%list_elem_of_singleton. rewrite Ek in Hx. done.
  - intros d Hd. rewrite fmap_app, elem_of_app. intros [Hk'|Hk'%list_elem_of_singleton]; [by apply L2|].
    exfalso. apply Hn. rewrite <-Ek, <-Hk'. by apply list_elem_of_fmap_2.
  - intros x [Hx | ->%list_elem_of_singleton]%elem_of_app; [by apply L3|by exists c].
  - apply in_order_snoc; [done|]. intros a Ha. right. destruct Hp as [Hp|Hp]; [by left|right; by apply Hp].
Qed.

Lemma started_looping pending : pass_started slots0 pending → looping pending slots0.
Proof.
  intros [S1 S2 S3 S4 S5 _]. split; [done|intros c Hc Hk; by apply S5| |].
  - intros slot (c & Hc & Es)%S1. exists c. split; [done|]. pose proof (fs_slot _ (Hfacts c Hc)) as Hs. rewrite Es in Hs. symmetry in Hs.
    by apply existing_slot_key in Hs.
  - intros i j a b _ _ Hj. left. by eapply list_elem_of_lookup_2.
Qed.

(** Every slot of the pass satisfies the invariant of the loop. *)
Lemma process_looping l s s' :
  (∀ c, c ∈ l → c ∈ candidates) → NoDup (candidate_key <$> l) → looping l (ps_slots s) →
  fold_outcome (process captureAuthority SetCdmData dispatchEobt config now candidates) s l = Ok s' → looping [] (ps_slots s').
Proof.
  revert s. induction l as [|c l IH]; intros s Hl Hn HL H; simpl in H; [by injection H as <-|].
  apply bind_ok in H as (s1 & H1 & H). apply (IH s1); [intros; apply Hl; by right|by apply NoDup_cons in Hn as [_ ?]| |done].
  eapply looping_step; [|exact Hn|exact HL|]; [apply Hl; left|].
  eapply process_slots; [apply Hl; left| |exact H1]. apply (lo_reserved _ _ HL). left.
Qed.

(** ** The pass returns *)

Section room.
Context (W : Z) (Hwindows : ∀ c, c ∈ candidates → windows_within W (sc_input c) (Some config)).
Context (Hroom : Z.of_nat (List.length candidates) * (4 * W + 1) < 2880).
Context (Hcapture : ∀ strip, returns (captureAuthority strip)) (Hset : ∀ callsign data, returns (SetCdmData callsign data)).
Context (Hdispatch : ∀ callsign eobt, returns (dispatchEobt callsign eobt)).

Lemma room_returns c input slots :
  c ∈ candidates → ci_DepRwy input = ci_DepRwy (sc_input c) → (List.length slots ≤ List.length candidates)%nat →
  returns (Calculate input slots (Some config) now).
Proof.
  intros Hc Hd Hl. destruct (Hwindows c Hc) as [W1 W2 W3]. apply (calculate_ends_within _ _ _ _ W); [by split; rewrite ?Hd|]. nia.
Qed.

Lemma with_trace_returns input slots : returns (Calculate input slots (Some config) now) → returns (calculateWithTrace input slots (Some config) now).
Proof. unfold Calculate. by destruct (calculateWithTrace _ _ _ _). Qed.

Lemma candidates_nonempty c : c ∈ candidates → (1 ≤ List.length candidates)%nat.
Proof. destruct candidates; [by intros ?%elem_of_nil|simpl; lia]. Qed.

Lemma blocks_pending_returns c slot pending :
  (∀ p, p ∈ pending → p ∈ candidates) → returns (blocks_pending c slot pending config now).
Proof.
  induction pending as [|p l IH]; intros Hl; simpl; [done|].
  assert (Hp : p ∈ candidates) by (apply Hl; left). assert (IH' : returns (blocks_pending c slot l config now)) by (apply IH; intros; apply Hl; by right).
  destruct (_ || _); [done|]. destruct (0 <=? _); [done|]. apply returns_bind.
  - unfold calculateWithSinglePreservedSlot. apply returns_bind; [|done].
    apply (room_returns p); [done|done|]. simpl. by eapply candidates_nonempty.
  - intros ttot _. by destruct (negb _).
Qed.

Lemma preserve_returns : returns (preserve config now candidates).
Proof.
  unfold preserve. apply (fold_outcome_returns_inv _ (λ s, ∀ c, c ∈ s.2 → c ∈ candidates)).
  - intros [slots pending] c Hc Hs. unfold preserve_step. destruct (sc_slot c) as [slot|]; [|done].
    destruct (sc_started c) eqn:E; [done|]. destruct (hasPreservedSlotConflict _ _ _); [done|].
    apply returns_bind; [|by intros []]. unfold preservedSlotBlocksHigherPriorityCandidate. rewrite E. by apply blocks_pending_returns.
  - intros [slots pending] c s' Hc Hs. unfold preserve_step. apply elem_of_sort_slice, list_elem_of_filter in Hc as [_ Hc].
    assert (Hput : ∀ x, x ∈ pending ++ [c] → x ∈ candidates) by (intros x [Hx | ->%list_elem_of_singleton]%elem_of_app; [by apply Hs|done]).
    destruct (sc_slot c); [|by intros [= <-]]. destruct (sc_started c); [by intros [= <-]|].
    destruct (hasPreservedSlotConflict _ _ _); [by intros [= <-]|]. intros ([] & _ & H)%bind_ok; by injection H as <-.
  - intros c. simpl. by intros [_ ?]%list_elem_of_filter.
Qed.

Lemma looping_length remaining slots : looping remaining slots → (List.length slots ≤ List.length candidates)%nat.
Proof.
  intros [H1 _ H3 _]. rewrite <-(length_fmap slot_key), <-(length_fmap candidate_key candidates).
  apply submseteq_length, NoDup_submseteq; [done|]. intros k (slot & -> & (c & Hc & <-)%H3)%list_elem_of_fmap. by apply list_elem_of_fmap_2.
Qed.

Lemma keeps_order_returns c slot ttot slots probe l :
  (∀ p, p ∈ l → p ∈ candidates) → (List.length probe ≤ List.length candidates)%nat → returns (keeps_order c slot ttot slots probe l config now).
Proof.
  intros Hl Hp. induction l as [|p l IH]; simpl; [done|].
  assert (IH' : returns (keeps_order c slot ttot slots probe l config now)) by (apply IH; intros; apply Hl; by right).
  destruct (not_ahead _ _ _ _); [done|]. destruct (0 <=? _); [done|]. destruct (_ <? 0); [done|]. apply returns_bind.
  - apply (room_returns p); [apply Hl; left|done|done].
  - intros r _. destruct (_ || _); [done|]. by destruct (_ <=? 0).
Qed.

Lemma store_returns strip updated : returns (store captureAuthority SetCdmData strip updated).
Proof.
  unfold store. apply returns_bind; [apply Hcapture|]. intros token _. apply returns_bind; [apply Hset|]. intros rows _.
  apply returns_bind; [apply returns_guard|done].
Qed.

Lemma process_returns s c remaining :
  c ∈ candidates → looping remaining (ps_slots s) → returns (process captureAuthority SetCdmData dispatchEobt config now candidates s c).
Proof.
  intros Hc HL. apply looping_length in HL. unfold process. apply returns_bind.
  { unfold dispose. destruct (shouldRecalculateStrip _ _); [done|]. destruct (existingSlotEntry _); [|done]. destruct (sc_started c) eqn:E; [done|].
    apply returns_bind; [|by intros []]. unfold canRetainExistingSlot. rewrite E. apply returns_bind; [by apply (room_returns c)|done]. }
  intros [slot| |] _; [done|done|]. destruct (_ && _).
  - unfold invalidate. cbv zeta. destruct (_ && _); [done|]. apply returns_bind; [apply store_returns|done].
  - unfold reassign. apply returns_bind.
    + unfold new_assignment. cbv zeta. apply returns_bind; [by apply with_trace_returns, (room_returns c)|]. intros [r trace] _.
      apply returns_bind.
      * destruct (isEarlierClock _ _); [|done]. unfold improvementKeepsQueueOrder. destruct (sc_slot c) as [slot|]; [|done].
        destruct (str_empty _); [done|]. apply keeps_order_returns; [done|]. etrans; [apply length_filter|done].
      * intros adopt _. destruct (_ && _); [done|]. apply returns_bind; [|done]. apply (room_returns c); [done| |].
        -- unfold proposal_input. by destruct (HasManualCtot _).
        -- etrans; [|exact HL]. apply sublist_length. destruct (sc_improvement c); [apply removeSlotForCallsign_sublist|done].
    + intros [[slots result] updated] _. apply returns_bind; [|by intros []].
      unfold store_assignment. destruct (differs _ _ _ _); [|done]. apply returns_bind; [apply store_returns|]. intros stored _. cbv zeta.
      destruct (str_empty _); [done|]. apply returns_bind; [apply Hdispatch|done].
Qed.

Lemma loop_returns l s :
  (∀ c, c ∈ l → c ∈ candidates) → NoDup (candidate_key <$> l) → looping l (ps_slots s) →
  returns (fold_outcome (process captureAuthority SetCdmData dispatchEobt config now candidates) s l).
Proof.
  revert s. induction l as [|c l IH]; intros s Hl Hn HL; simpl; [done|].
  assert (Hc : c ∈ candidates) by (apply Hl; left). apply returns_bind; [by eapply process_returns|].
  intros s1 H1. apply IH; [intros; apply Hl; by right|by apply NoDup_cons in Hn as [_ ?]|].
  eapply looping_step; [exact Hc|exact Hn|exact HL|]. eapply process_slots; [exact Hc| |exact H1]. apply (lo_reserved _ _ HL). left.
Qed.
End room.
End safety.
