(* ===== verification/CdmSequenceStore.v ===== *)
(** * What a pass over the departures stores

    Of [recalculate] of [CdmSequence]: the rows a round of its loop writes, the
    agreement of the slots with the stored take-off times, and the conditions of an
    improvement. *)

From S2P Require Import Prelude GoTime GoFloat CdmClock CdmData CdmConfig.
From S2P Require Import CdmCalculate CdmSafety CdmMarkers CdmSequence CdmSequenceSafety.
From Stdlib Require Import Strings.Ascii Strings.String QArith.

Local Open Scope Z_scope.

(** ** What a round writes *)

Section rounds.
Context (captureAuthority : Strip → outcome (option string)) (SetCdmData : string → CdmData → outcome Z).
Context (dispatchEobt : string → string → outcome unit) (config : CdmAirportConfig) (now : Time) (candidates : list sequencingCandidate).

(** One row of the candidate, stored, and not waiting for a recalculation *)
Definition wrote (c : sequencingCandidate) (s s' : pass) : Prop :=
  ∃ data, ps_written s' = ps_written s ++ [(st_Callsign (sc_strip c), data)] ∧ NeedsLocalRecalculation data = false ∧
    SetCdmData (st_Callsign (sc_strip c)) data = Ok 1.

Definition pending_data (c : sequencingCandidate) : bool := NeedsLocalRecalculation (strip_data (sc_strip c)).

Lemma pending_recalculated c :
  pending_data c = true → stripHasStarted (sc_strip c) = false ∨ dataAllowsStartedRecalculation (sc_strip c) = true →
  shouldRecalculateStrip (sc_strip c) now = true.
Proof.
  unfold pending_data, shouldRecalculateStrip, strip_data. destruct (st_CdmData (sc_strip c)); [|done]. intros H [-> | Hs]; [by rewrite H|].
  rewrite Hs, H. by destruct (stripHasStarted _).
Qed.

(** A start-up time that has expired is there, so the row is never invalid already. *)
Lemma invalidate_writes s c s' :
  isTsatSpecificallyExpired (sc_strip c) now = true → invalidate captureAuthority SetCdmData s c = Ok s' → wrote c s s'.
Proof.
  unfold isTsatSpecificallyExpired, invalidate, strip_data. destruct (st_CdmData (sc_strip c)) as [data|]; [|done]. cbv zeta.
  destruct (cd_Tsat data) as [tsat|] eqn:Et; [|done]. intros _. change (is_nil (Some tsat)) with false. rewrite andb_false_r. simpl andb. cbv iota. intros (stored & Hs & H)%bind_ok. injection H as <-.
  apply store_data in Hs as (_ & Hn & _ & _ & Hw). exists stored. split; [done|]. split; [by rewrite Hn|done].
Qed.

Lemma new_assignment_settled slots c slots' result updated :
  new_assignment config now candidates slots c = Ok (slots', result, updated) → NeedsLocalRecalculation updated = false.
Proof. by intros [(_ & _ & _ & ->)|(_ & _ & _ & proposal & trace & ->)]%new_assignment_cases. Qed.

Lemma store_assignment_writes s c result updated s' data :
  NeedsLocalRecalculation updated = false → store_assignment captureAuthority SetCdmData dispatchEobt s c result updated = Ok (s', data) →
  (wrote c s s' ∧ differs c (strip_data (sc_strip c)) updated result = true) ∨
  (ps_written s' = ps_written s ∧ differs c (strip_data (sc_strip c)) updated result = false).
Proof.
  unfold store_assignment. intros Hn. destruct (differs _ _ _ _) eqn:Ed; [|intros [= <- <-]; by right].
  intros (stored & Hs & H)%bind_ok. apply store_data in Hs as (_ & Hn' & _ & _ & Hw). left. split; [|done]. exists stored.
  rewrite Hn', Hn. cbv zeta in H. destruct (str_empty _); [by injection H as <- <-|]. apply bind_ok in H as ([] & _ & H). by injection H as <- <-.
Qed.

Lemma differs_pending c updated result : pending_data c = true → differs c (strip_data (sc_strip c)) updated result = true.
Proof. unfold pending_data, differs. intros ->. by rewrite orb_true_r. Qed.

Lemma reassign_writes s c s' :
  reassign captureAuthority SetCdmData dispatchEobt config now candidates s c = Ok s' →
  wrote c s s' ∨ ps_written s' = ps_written s ∧ pending_data c = false.
Proof.
  unfold reassign. intros ([[slots result] updated] & Ha & H)%bind_ok. apply bind_ok in H as ([s1 data] & Hs & H). injection H as <-.
  apply new_assignment_settled in Ha. apply store_assignment_writes in Hs as [[Hw _]|[E Hd]]; [by left| |done]. right. split; [done|].
  destruct (pending_data c) eqn:Ep; [|done]. by rewrite differs_pending in Hd.
Qed.

(** A round writes at most once, and does write when its candidate is pending. *)
Lemma process_writes s c s' :
  process captureAuthority SetCdmData dispatchEobt config now candidates s c = Ok s' →
  wrote c s s' ∨ ps_written s' = ps_written s ∧
    (pending_data c = true → stripHasStarted (sc_strip c) = true ∧ dataAllowsStartedRecalculation (sc_strip c) = false).
Proof.
  unfold process. intros (d & Hd & H)%bind_ok.
  assert (Hkeep : (∀ x, d = x → x ≠ Proceed) →
    pending_data c = true → stripHasStarted (sc_strip c) = true ∧ dataAllowsStartedRecalculation (sc_strip c) = false).
  { intros Hx Hp. destruct (shouldRecalculateStrip (sc_strip c) now) eqn:E.
    - unfold dispose in Hd. rewrite E in Hd. injection Hd as <-. by destruct (Hx Proceed).
    - pose proof (pending_recalculated c Hp) as Hr. rewrite E in Hr.
      destruct (stripHasStarted _), (dataAllowsStartedRecalculation _); try done; exfalso; discriminate Hr; auto. }
  destruct d as [slot| |]; [injection H as <-; right; split; [done|by apply Hkeep; intros ? <-].. |].
  destruct (isTsatSpecificallyExpired _ _ && _) eqn:E.
  - apply andb_true_iff in E as [E _]. left. by apply invalidate_writes.
  - apply reassign_writes in H as [H|[H Hp]]; [by left|right]. rewrite Hp. by split.
Qed.

(** ** What the loop writes *)

Lemma loop_writes l s s' :
  fold_outcome (process captureAuthority SetCdmData dispatchEobt config now candidates) s l = Ok s' →
  ∃ rows, ps_written s' = ps_written s ++ rows ∧ sublist rows.*1 (st_Callsign ∘ sc_strip <$> l) ∧
    (∀ callsign data, (callsign, data) ∈ rows → NeedsLocalRecalculation data = false ∧ SetCdmData callsign data = Ok 1) ∧
    (∀ c, c ∈ l → pending_data c = true →
      stripHasStarted (sc_strip c) = true ∧ dataAllowsStartedRecalculation (sc_strip c) = false ∨ st_Callsign (sc_strip c) ∈ rows.*1).
Proof.
  revert s. induction l as [|c l IH]; intros s H; simpl in H.
  { injection H as <-. exists []. rewrite app_nil_r. split_and!; [done|done|by intros ?? ?%elem_of_nil|by intros ? ?%elem_of_nil]. }
  apply bind_ok in H as (s1 & H1 & H). destruct (IH s1 H) as (rows & Er & Hsub & Hrows & Hpend). apply process_writes in H1 as [(data & E & Hn & Hw)|[E Hp]].
  - exists ((st_Callsign (sc_strip c), data) :: rows). split_and!.
    + by rewrite Er, E, <-app_assoc.
    + simpl. by apply sublist_skip.
    + intros cs d [[= -> ->]|Hd]%elem_of_cons; [done|by apply Hrows].
    + intros x [-> | Hx]%elem_of_cons Hxp; [right; simpl; left|]. destruct (Hpend x Hx Hxp) as [?|?]; [by left|right; simpl; by right].
  - exists rows. split_and!; [by rewrite Er, E|by apply sublist_cons|exact Hrows|].
    intros x [-> | Hx]%elem_of_cons Hxp; [left; by apply Hp|by apply Hpend].
Qed.
End rounds.

(** ** The slots of a pass are the take-off times it stores *)

Section stored.
Context (containsPoint : list CdmTaxiPoint → float64 → float64 → bool).
Context (captureAuthority : Strip → outcome (option string)) (SetCdmData : string → CdmData → outcome Z).
Context (dispatchEobt : string → string → outcome unit) (config : CdmAirportConfig) (now : Time) (candidates : list sequencingCandidate).
Context (Hfacts : ∀ c, c ∈ candidates → from_strip containsPoint config c) (Hunique : NoDup (candidate_key <$> candidates)).
Context (Hplain : ∀ c, c ∈ candidates → plain_input (sc_input c)).

(** A flight's slot is there with its time exactly when its data have a take-off time. *)
Definition slot_agrees (c : sequencingCandidate) (slots : list SlotEntry) (data : CdmData) : Prop :=
  (∀ b, b ∈ slots → slot_key b = candidate_key c → se_Ttot b = stored_clock (cd_Ttot data)) ∧
  (stored_clock (cd_Ttot data) ≠ ""%string → candidate_key c ∈ slot_key <$> slots).

(** What a round does to the rows and slots *)
Definition round (c : sequencingCandidate) (s s' : pass) : Prop :=
  ∃ data, (ps_written s' = ps_written s ∧ data = strip_data (sc_strip c) ∨
           ps_written s' = ps_written s ++ [(st_Callsign (sc_strip c), data)]) ∧
    (∀ b, slot_key b ≠ candidate_key c → b ∈ ps_slots s' ↔ b ∈ ps_slots s) ∧ slot_agrees c (ps_slots s') data.

(** The slot of a candidate that the loop has not reached is a reserved one. *)
Definition untouched (c : sequencingCandidate) (slots : list SlotEntry) : Prop :=
  ∀ b, b ∈ slots → slot_key b = candidate_key c → sc_slot c = Some b ∧ sc_improvement c = true ∧ shouldRecalculateStrip (sc_strip c) now = true.

Lemma calculated_clock c slots r :
  c ∈ candidates → Calculate (sc_input c) slots (Some config) now = Ok r → stored_clock (stringPointerIfPresent (cx_Ttot r)) = cx_Ttot r.
Proof.
  intros Hc (trace & H)%Calculate_trace. destruct (str_eqb (cx_Ttot r) "") eqn:E; [apply str_eqb_eq in E; by rewrite E|].
  assert (Hne : cx_Ttot r ≠ ""%string) by (intros E'; by rewrite E' in E).
  destruct (calculate_search _ _ _ _ _ _ H Hne) as (t & n & Ht & Hr & _).
  rewrite (unconstrained_grid _ _ _ _ n (Hplain c Hc) Ht) in Hr. rewrite Hr in Hne |- *.
  pose proof (TrimSpace_six _ _ (formatClock_text _ (day_add_second t (30 * Z.of_nat n)))) as Htrim.
  unfold stringPointerIfPresent. rewrite Htrim. destruct (str_empty _) eqn:Ee; [by apply str_eqb_eq in Ee|exact Htrim].
Qed.

Lemma stored_slot_time c slot : c ∈ candidates → sc_slot c = Some slot →
  slot_key slot = candidate_key c ∧ se_Ttot slot = stored_clock (cd_Ttot (strip_data (sc_strip c))).
Proof.
  intros Hc Es. pose proof (fs_slot _ _ _ (Hfacts c Hc)) as Hs. rewrite Es in Hs. symmetry in Hs. unfold existingSlotEntry, strip_data in *.
  destruct (st_CdmData (sc_strip c)) as [d|]; [|done]. cbv zeta in Hs. destruct (str_empty _); [done|]. by injection Hs as <-.
Qed.

Lemma removeSlot_others slots callsign b :
  slot_key b ≠ norm callsign → b ∈ removeSlotForCallsign slots callsign ↔ b ∈ slots.
Proof.
  intros Hk. induction slots as [|x l IH]; simpl; [done|]. destruct (same_callsign _ _) eqn:E.
  - apply same_callsign_norm in E. rewrite elem_of_cons. split; [by right|]. intros [-> | ?]; [by destruct Hk|done].
  - by rewrite !elem_of_cons, IH.
Qed.

(** Without the slot of an improvement there is none of the flight. *)
Lemma released_slots c slots :
  NoDup (slot_key <$> slots) → untouched c slots →
  candidate_key c ∉ slot_key <$> (if sc_improvement c then removeSlotForCallsign slots (st_Callsign (sc_strip c)) else slots).
Proof.
  intros Hn Hu. destruct (sc_improvement c) eqn:Ei; [by apply removeSlotForCallsign_key|].
  intros (b & E & Hb)%list_elem_of_fmap. destruct (Hu b Hb (eq_sym E)) as (_ & Hi & _). congruence.
Qed.

Lemma released_others c slots b :
  slot_key b ≠ candidate_key c →
  b ∈ (if sc_improvement c then removeSlotForCallsign slots (st_Callsign (sc_strip c)) else slots) ↔ b ∈ slots.
Proof. intros Hk. destruct (sc_improvement c); [by apply removeSlot_others|done]. Qed.

Lemma add_slot_others slots c ttot data b :
  slot_key b ≠ candidate_key c → b ∈ add_slot slots (sc_strip c) ttot data ↔ b ∈ slots.
Proof.
  intros Hk. unfold add_slot. destruct (_ && _); [|done]. rewrite elem_of_app, list_elem_of_singleton. split; [|by left].
  intros [?| ->]; [done|by destruct Hk].
Qed.

(** A slot added for its time, or the slot that is there with that time *)
Lemma add_slot_agrees slots c ttot data data' :
  (∀ b, b ∈ slots → slot_key b = candidate_key c → se_Ttot b = ttot) → ttot = stored_clock (cd_Ttot data') →
  slot_agrees c (add_slot slots (sc_strip c) ttot data) data'.
Proof.
  intros Hb E. unfold add_slot, slot_agrees. rewrite <-E. destruct (str_empty ttot) eqn:Ee; simpl.
  { apply str_eqb_eq in Ee. split; [done|]. by rewrite Ee. }
  destruct (hasSlotForCallsign _ _) eqn:Eh; simpl; [apply hasSlotForCallsign_iff in Eh; by split|].
  rewrite fmap_app. split; [|intros _; apply elem_of_app; right; by left].
  intros b [Hx | ->%list_elem_of_singleton]%elem_of_app Hk; [by apply Hb|done].
Qed.

Lemma assigned_ttot data input runway result proposal trace :
  cd_Ttot (ClearLocalRecalculationPending (assigned data input runway result proposal trace now)) = stringPointerIfPresent (cx_Ttot result).
Proof.
  change (cd_Ttot (assigned data input runway result proposal trace now) = stringPointerIfPresent (cx_Ttot result)).
  unfold assigned, setCalculationReasonMarkers, applyCalculationSnapshot. cbv zeta. destruct (selectCalculationBaseWithSource input).
  unfold Normalize. by repeat destruct (calculationIsEmpty _).
Qed.

Lemma store_assignment_row s c result updated s' data :
  store_assignment captureAuthority SetCdmData dispatchEobt s c result updated = Ok (s', data) →
  ps_written s' = ps_written s ∧ stored_clock (cd_Ttot (strip_data (sc_strip c))) = cx_Ttot result ∨
  ps_written s' = ps_written s ++ [(st_Callsign (sc_strip c), data)] ∧ cd_Ttot data = cd_Ttot updated.
Proof.
  unfold store_assignment. destruct (differs _ _ _ _) eqn:Ed.
  - intros (stored & (_ & _ & _ & Et & _)%store_data & H)%bind_ok. right. cbv zeta in H.
    destruct (str_empty _); [by injection H as <- <-|]. apply bind_ok in H as ([] & _ & H). by injection H as <- <-.
  - intros [= <- <-]. left. split; [done|]. unfold differs in Ed. repeat rewrite orb_false_iff in Ed.
    destruct Ed as [[[[[[_ E] _] _] _] _] _]. by apply negb_false_iff, str_eqb_eq in E.
Qed.

Lemma reassign_round s c s' :
  c ∈ candidates → NoDup (slot_key <$> ps_slots s) → untouched c (ps_slots s) →
  reassign captureAuthority SetCdmData dispatchEobt config now candidates s c = Ok s' → round c s s'.
Proof.
  intros Hc Hn Hu. unfold reassign. intros ([[slots result] updated] & Ha & H)%bind_ok. apply bind_ok in H as ([s1 data] & Hs & H).
  injection H as <-. pose proof (store_assignment_data _ _ _ _ _ _ _ _ _ Hs) as [Eslots _]. apply store_assignment_row in Hs.
  assert (Hfit : (∀ b, b ∈ slots → slot_key b = candidate_key c → se_Ttot b = cx_Ttot result) ∧
    cx_Ttot result = stored_clock (cd_Ttot updated) ∧ (∀ b, slot_key b ≠ candidate_key c → b ∈ slots ↔ b ∈ ps_slots s)).
  { apply new_assignment_cases in Ha as [(-> & _ & -> & ->)|(Hr & -> & _ & proposal & trace & ->)].
    - split_and!; [|done|done]. intros b Hb Hk. destruct (Hu b Hb Hk) as [Es _]. by apply stored_slot_time.
    - split_and!; [|rewrite assigned_ttot; by rewrite (calculated_clock c _ _ Hc Hr)|intros b; by apply released_others].
      intros b Hb Hk. exfalso. apply (released_slots c _ Hn Hu). rewrite <-Hk. by apply list_elem_of_fmap_2. }
  destruct Hfit as (Hb & Et & Ho). simpl in Eslots. unfold round. simpl. rewrite Eslots.
  destruct Hs as [[Ew Eq]|[Ew Eq]]; simpl in Ew; eexists; (split_and!; [rewrite Ew; eauto|intros b Hk; rewrite add_slot_others by done; by apply Ho|]);
    apply add_slot_agrees; [done|done|done|by rewrite Eq].
Qed.

Lemma invalidate_round s c s' :
  NoDup (slot_key <$> ps_slots s) → untouched c (ps_slots s) → isTsatSpecificallyExpired (sc_strip c) now = true →
  invalidate captureAuthority SetCdmData s c = Ok s' → round c s s'.
Proof.
  intros Hn Hu Hx. unfold invalidate, isTsatSpecificallyExpired, strip_data in *. destruct (st_CdmData (sc_strip c)) as [data|]; [|done]. cbv zeta in *.
  destruct (cd_Tsat data) as [tsat|] eqn:Et; [|done]. change (is_nil (Some tsat)) with false. rewrite andb_false_r. simpl andb. cbv iota.
  intros (stored & (_ & _ & _ & Es & _)%store_data & H)%bind_ok. injection H as <-. exists stored. simpl. split_and!; [by right|intros b; by apply released_others|].
  split.
  - intros b Hb Hk. exfalso. apply (released_slots c _ Hn Hu). rewrite <-Hk. by apply list_elem_of_fmap_2.
  - rewrite Es. intros Hne. destruct Hne. clear. unfold invalidated, setCalculationReasonMarkers, applyCalculationSnapshot. cbv zeta.
    destruct (selectCalculationBaseWithSource _). unfold Normalize. by repeat destruct (calculationIsEmpty _).
Qed.

Lemma process_round s c s' :
  c ∈ candidates → NoDup (slot_key <$> ps_slots s) → untouched c (ps_slots s) →
  process captureAuthority SetCdmData dispatchEobt config now candidates s c = Ok s' → round c s s'.
Proof.
  intros Hc Hn Hu. unfold process. intros (d & Hd & H)%bind_ok.
  assert (Hno : shouldRecalculateStrip (sc_strip c) now = false → candidate_key c ∉ slot_key <$> ps_slots s).
  { intros E (b & Ek & Hb)%list_elem_of_fmap. destruct (Hu b Hb (eq_sym Ek)) as (_ & _ & Er). congruence. }
  assert (Hnone : ∀ b, shouldRecalculateStrip (sc_strip c) now = false → b ∈ ps_slots s → slot_key b ≠ candidate_key c).
  { intros b E Hb Hk. apply (Hno E). rewrite <-Hk. by apply list_elem_of_fmap_2. }
  destruct d as [slot| |].
  - unfold dispose in Hd. destruct (shouldRecalculateStrip _ _) eqn:E; [done|]. specialize (Hno eq_refl).
    destruct (existingSlotEntry _) as [slot'|] eqn:Ee; [|done].
    assert (slot' = slot) as ->.
    { destruct (sc_started c); [congruence|]. apply bind_ok in Hd as ([] & _ & Hd); congruence. }
    assert (Es : sc_slot c = Some slot) by (by rewrite (fs_slot _ _ _ (Hfacts c Hc))).
    destruct (stored_slot_time c slot Hc Es) as [Ek Et]. injection H as <-. exists (strip_data (sc_strip c)). simpl. split_and!; [by left| |].
    + intros b Hk. rewrite elem_of_app, list_elem_of_singleton. split; [|by left]. intros [?| ->]; [done|by destruct Hk].
    + split.
      * intros b [Hb | ->%list_elem_of_singleton]%elem_of_app Hk; [by destruct (Hnone b eq_refl Hb)|done].
      * intros _. rewrite fmap_app, elem_of_app. right. simpl. rewrite Ek. by left.
  - injection H as <-. exists (strip_data (sc_strip c)). split_and!; [by left|done|].
    unfold dispose in Hd. destruct (shouldRecalculateStrip _ _) eqn:E; [done|]. split.
    + intros b Hb Hk. by destruct (Hnone b eq_refl Hb).
    + intros Hne. exfalso. destruct (existingSlotEntry _) eqn:Ee; [destruct (sc_started c); [done|by apply bind_ok in Hd as ([] & _ & Hd)]|].
      unfold existingSlotEntry in Ee. unfold strip_data in Hne. destruct (st_CdmData (sc_strip c)) as [data|]; [|by apply Hne].
      cbv zeta in Ee. destruct (str_empty _) eqn:Em; [by apply str_eqb_eq in Em|done].
  - destruct (_ && _) eqn:E; [|by apply reassign_round]. apply andb_true_iff in E as [E _]. by apply invalidate_round.
Qed.

(** The data of a flight after the rows were written *)
Definition data_after (rows : list (string * CdmData)) (c : sequencingCandidate) : CdmData :=
  match List.find (λ row, str_eqb row.1 (st_Callsign (sc_strip c))) rows with
  | Some row => row.2
  | None => strip_data (sc_strip c)
  end.

Record agreeing (remaining : list sequencingCandidate) (s : pass) : Prop := {
  ag_untouched : ∀ c, c ∈ remaining → untouched c (ps_slots s);
  ag_fresh : ∀ c row, c ∈ remaining → row ∈ ps_written s → norm row.1 ≠ candidate_key c;
  ag_done : ∀ c, c ∈ candidates → c ∉ remaining → slot_agrees c (ps_slots s) (data_after (ps_written s) c)
}.

Lemma find_app_none {A} (f : A → bool) l k : List.find f l = None → List.find f (l ++ k) = List.find f k.
Proof. induction l as [|x l IH]; simpl; [done|]. destruct (f x); [done|exact IH]. Qed.

Lemma find_app_some {A} (f : A → bool) l k x : List.find f l = Some x → List.find f (l ++ k) = Some x.
Proof. induction l as [|y l IH]; simpl; [done|]. by destruct (f y). Qed.

(** A row of another flight changes nothing. *)
Lemma data_after_other rows c row : norm row.1 ≠ candidate_key c → data_after (rows ++ [row]) c = data_after rows c.
Proof.
  intros Hk. unfold data_after. destruct (List.find _ rows) eqn:E; [by erewrite find_app_some by done|].
  rewrite find_app_none by done. simpl. destruct (str_eqb _ _) eqn:Er; [|done]. apply str_eqb_eq in Er. destruct Hk. by rewrite Er.
Qed.

Lemma data_after_fresh rows c : (∀ row, row ∈ rows → norm row.1 ≠ candidate_key c) →
  data_after rows c = strip_data (sc_strip c) ∧ ∀ data, data_after (rows ++ [(st_Callsign (sc_strip c), data)]) c = data.
Proof.
  intros Hf. unfold data_after. destruct (List.find _ rows) as [row|] eqn:E.
  - apply find_some in E as [Hin Er%str_eqb_eq]. destruct (Hf row); [by apply list_elem_of_In|by rewrite Er].
  - split; [done|]. intros data. rewrite find_app_none by done. simpl. by rewrite (proj2 (str_eqb_eq _ _) eq_refl).
Qed.

Lemma slot_agrees_other c d slots slots' data :
  (∀ b, slot_key b ≠ candidate_key c → b ∈ slots' ↔ b ∈ slots) → candidate_key d ≠ candidate_key c → slot_agrees d slots data → slot_agrees d slots' data.
Proof.
  intros Ho Hk [H1 H2]. split.
  - intros b Hb E. apply H1; [|done]. apply Ho; [congruence|done].
  - intros (b & E & Hb)%H2%list_elem_of_fmap. apply list_elem_of_fmap. exists b. split; [done|]. apply Ho; [congruence|done].
Qed.

Lemma agreeing_step c rest s s' :
  c ∈ candidates → (∀ d, d ∈ rest → d ∈ candidates) → NoDup (candidate_key <$> c :: rest) → agreeing (c :: rest) s → round c s s' → agreeing rest s'.
Proof.
  intros Hc Hrest [Hn _]%NoDup_cons [A1 A2 A3] (data & Hw & Ho & Ha).
  assert (Hother : ∀ d, d ∈ rest → candidate_key d ≠ candidate_key c) by (intros d Hd E; apply Hn; rewrite <-E; by apply list_elem_of_fmap_2).
  assert (Hfresh : ∀ row, row ∈ ps_written s → norm row.1 ≠ candidate_key c) by (intros; apply A2; [by left|done]).
  destruct (data_after_fresh _ _ Hfresh) as [D1 D2]. split.
  - intros d Hd b Hb Hk. apply (A1 d); [by right| |done]. apply Ho; [|done]. rewrite Hk. by apply Hother.
  - intros d row Hd Hrow. destruct Hw as [[E _]|E]; rewrite E in Hrow; [apply A2; [by right|done]|].
    apply elem_of_app in Hrow as [Hrow | ->%list_elem_of_singleton]; [apply A2; [by right|done]|]. intros E'. by apply (Hother d Hd).
  - intros d Hd Hnot. destruct (decide (candidate_key d = candidate_key c)) as [E|E].
    + rewrite (key_inj candidates d c Hunique Hd Hc E). destruct Hw as [[E' ->]|E']; rewrite E'; [by rewrite D1|by rewrite D2].
    + assert (Hd' : d ∉ c :: rest) by (intros [-> | ?]%elem_of_cons; done).
      replace (data_after (ps_written s') d) with (data_after (ps_written s) d); [by eapply slot_agrees_other; [exact Ho|exact E|apply A3]|].
      destruct Hw as [[E' _]|E']; rewrite E'; [done|]. symmetry. apply data_after_other. simpl. intros E''. by apply E.
Qed.

Lemma loop_agrees slots0 l s s' :
  (∀ c, c ∈ l → c ∈ candidates) → NoDup (candidate_key <$> l) → looping config now candidates slots0 l (ps_slots s) → agreeing l s →
  fold_outcome (process captureAuthority SetCdmData dispatchEobt config now candidates) s l = Ok s' → agreeing [] s'.
Proof.
  revert s. induction l as [|c l IH]; intros s Hl Hn HL HA H; simpl in H; [by injection H as <-|].
  assert (Hc : c ∈ candidates) by (apply Hl; left). apply bind_ok in H as (s1 & H1 & H).
  assert (Hr : round c s s1) by (eapply process_round; [done|by destruct HL|apply (ag_untouched _ _ HA); by left|exact H1]).
  apply (IH s1); [intros; apply Hl; by right|by apply NoDup_cons in Hn as [_ ?]| |by eapply agreeing_step; [..|exact Hr]; try done; intros; apply Hl; right|done].
  eapply looping_step; [exact Hc|exact Hn|exact HL|]. eapply process_slots; try done. apply (lo_reserved _ _ _ _ _ _ HL). left.
Qed.

Lemma started_agreeing slots pending : pass_started now candidates slots pending → agreeing pending (mk_pass slots [] []).
Proof.
  intros [S1 S2 S3 S4 S5 S6].
  assert (Hown : ∀ c b, c ∈ candidates → b ∈ slots → slot_key b = candidate_key c → sc_slot c = Some b).
  { intros c b Hc (d & Hd & Es)%S1 Hk. destruct (stored_slot_time d b Hd Es) as [Ek _]. rewrite <-(key_inj candidates d c Hunique Hd Hc); [done|congruence]. }
  split; simpl.
  - intros c Hc b Hb Hk. destruct (S5 c Hc) as [Hr Hi]; [rewrite <-Hk; by apply list_elem_of_fmap_2|]. split_and!; [by apply Hown; [apply S3|..]|done|done].
  - by intros c row _ ?%elem_of_nil.
  - intros c Hc Hnot. unfold data_after. simpl. split.
    + intros b Hb Hk. by apply stored_slot_time, Hown.
    + intros _. by apply S6.
Qed.
End stored.

Lemma assigned_tsat data input runway result proposal trace now :
  cd_Tsat (ClearLocalRecalculationPending (assigned data input runway result proposal trace now)) = stringPointerIfPresent (cx_Tsat result).
Proof.
  change (cd_Tsat (assigned data input runway result proposal trace now) = stringPointerIfPresent (cx_Tsat result)).
  unfold assigned, setCalculationReasonMarkers, applyCalculationSnapshot. cbv zeta. destruct (selectCalculationBaseWithSource input).
  destruct (_ && _); unfold Normalize; by repeat destruct (calculationIsEmpty _).
Qed.

(** ** An improvement *)

Section improvement.
Context (containsPoint : list CdmTaxiPoint → float64 → float64 → bool).
Context (captureAuthority : Strip → outcome (option string)) (SetCdmData : string → CdmData → outcome Z).
Context (dispatchEobt : string → string → outcome unit) (config : CdmAirportConfig) (now : Time) (candidates : list sequencingCandidate).

(** The flights that the order of an improvement of [c] protects: at its airport
    and on a runway that depends on its own, with an earlier slot, not started *)
Definition ahead (c p : sequencingCandidate) : Prop :=
  ∃ slot, sc_slot c = Some slot ∧ not_ahead c slot config p = false ∧ compareClockForSort (slot_ttot p) (se_Ttot slot) now < 0.

(** [p] still takes off before [ttot], or could not use the room before it: without
    the slot of [c] its earliest time is none, no gain, or behind [ttot]. *)
Definition undisturbed (slots : list SlotEntry) (c : sequencingCandidate) (ttot : string) (p : sequencingCandidate) : Prop :=
  let current := match slotForCallsign slots (st_Callsign (sc_strip p)) with Some active => se_Ttot active | None => slot_ttot p end in
  compareClockForSort current ttot now < 0 ∨
  ∃ r, Calculate (sc_input p) (slotsWithoutCallsign slots (st_Callsign (sc_strip c))) (Some config) now = Ok r ∧
    (cx_Ttot r = ""%string ∨ 0 <= compareClockForSort (cx_Ttot r) current now ∨ 0 < compareClockForSort (cx_Ttot r) ttot now).

Lemma keeps_order_undisturbed c slot ttot slots l :
  sc_slot c = Some slot → keeps_order c slot ttot slots (slotsWithoutCallsign slots (st_Callsign (sc_strip c))) l config now = Ok true →
  ∀ p, p ∈ l → ahead c p → undisturbed slots c ttot p.
Proof.
  intros Es. induction l as [|q l IH]; [by intros _ p ?%elem_of_nil|]. simpl. intros H p Hp (slot' & Es' & Hn & Hb).
  rewrite Es in Es'. injection Es' as <-. apply elem_of_cons in Hp.
  assert (Hrest : keeps_order c slot ttot slots (slotsWithoutCallsign slots (st_Callsign (sc_strip c))) l config now = Ok true → p ∈ l → undisturbed slots c ttot p)
    by (intros; apply IH; [done..|by exists slot]).
  destruct Hp as [-> | Hp].
  - rewrite Hn in H. destruct (0 <=? _) eqn:E; [apply Z.leb_le in E; lia|]. unfold undisturbed. cbv zeta.
    destruct (_ <? 0) eqn:E2; [left; by apply Z.ltb_lt|]. right. apply bind_ok in H as (r & Hr & H). exists r. split; [done|].
    destruct (str_empty _) eqn:Ee; [left; by apply str_eqb_eq|]. simpl in H. destruct (0 <=? compareClockForSort (cx_Ttot r) _ _) eqn:E3; [right; left; by apply Z.leb_le|].
    destruct (_ <=? 0) eqn:E4; [done|]. right; right. by apply Z.leb_gt.
  - apply Hrest; [|done]. clear Hrest. destruct (not_ahead _ _ _ _); [done|]. destruct (0 <=? _); [done|]. destruct (_ <? 0); [done|].
    apply bind_ok in H as (r & _ & H). destruct (_ || _); [done|]. by destruct (_ <=? 0).
Qed.

(** The times are those before, or the start-up time is earlier and no flight ahead loses by it. *)
Definition improves (c : sequencingCandidate) (slots : list SlotEntry) (data : CdmData) : Prop :=
  cd_Tsat data = cd_Tsat (strip_data (sc_strip c)) ∧ cd_Ttot data = cd_Ttot (strip_data (sc_strip c)) ∨
  ∃ r, Calculate (sc_input c) slots (Some config) now = Ok r ∧
    cd_Tsat data = stringPointerIfPresent (cx_Tsat r) ∧ cd_Ttot data = stringPointerIfPresent (cx_Ttot r) ∧
    isEarlierClock (cx_Tsat r) (stored_clock (cd_Tsat (strip_data (sc_strip c)))) = true ∧
    ∀ p, p ∈ candidates → ahead c p → undisturbed slots c (cx_Ttot r) p.

Lemma no_time_no_result c slots r :
  plain_input (sc_input c) → Calculate (sc_input c) slots (Some config) now = Ok r → cx_Tsat r ≠ ""%string → str_empty (TrimSpace (cx_Ttot r)) = false.
Proof.
  intros Hp (trace & H)%Calculate_trace Hne.
  assert (Ht : ∃ t, day_second t ∧ cx_Ttot r = formatClock t).
  { revert H. unfold calculateWithTrace. cbv zeta. destruct (shouldInvalidateStaleTobt _ _); [by intros [= <- <-]|].
    destruct (str_empty _); [by intros [= <- <-]|]. destruct (parseClock _) as [t|] eqn:Et; [|by intros [= <- <-]]. cbn [is_nil].
    intros ([ttot tr] & Hs & H)%bind_ok. cbv beta iota in H. destruct (search_result _ _ _ _ _ _ Hs) as (n & _ & _ & Hr & _).
    destruct (shouldInvalidateStaleTsat _ _ _); injection H as <- <-; [done|]. exists (day_add t (30 * Z.of_nat n)). split; [apply day_add_second|].
    simpl in Hr |- *. rewrite Hr. by apply unconstrained_grid. }
  destruct Ht as (t & Hd & ->). rewrite (TrimSpace_six _ _ (formatClock_text _ Hd)). destruct (str_empty _) eqn:E; [|done].
  apply str_eqb_eq in E. destruct (formatClock_text _ Hd) as (a & b & c' & d & e & f & E' & _). by rewrite E in E'.
Qed.

Lemma isEarlierClock_empty v : isEarlierClock "" v = false.
Proof. reflexivity. Qed.

Lemma process_improves s c s' :
  from_strip containsPoint config c → plain_input (sc_input c) → sc_improvement c = true → sc_started c = false →
  isTsatSpecificallyExpired (sc_strip c) now = false →
  process captureAuthority SetCdmData dispatchEobt config now candidates s c = Ok s' →
  ∃ data, ps_written s' = ps_written s ++ [(st_Callsign (sc_strip c), data)] ∧ improves c (ps_slots s) data.
Proof.
  intros Hf Hp Hi Hs Hx. unfold process, dispose. rewrite (improvement_recalculated _ _ _ _ Hf Hi Hs), Hx. simpl andb. cbn [mbind].
  intros H. simpl in H. unfold reassign in H. apply bind_ok in H as ([[slots result] updated] & Ha & H). apply bind_ok in H as ([s1 data] & Hst & H).
  injection H as <-. exists data.
  assert (Hpend : pending_data c = true).
  { unfold pending_data, strip_data. rewrite (fs_improvement _ _ _ Hf) in Hi. destruct (st_CdmData (sc_strip c)); [|done].
    unfold IsImprovementOnlyRecalculation in Hi. by apply andb_true_iff in Hi as [? _]. }
  unfold store_assignment in Hst. rewrite differs_pending in Hst by done.
  apply bind_ok in Hst as (stored & (_ & _ & Et1 & Et2 & _)%store_data & Hst).
  assert (Hd : data = stored ∧ ps_written s1 = ps_written s ++ [(st_Callsign (sc_strip c), stored)]).
  { cbv zeta in Hst. destruct (str_empty _); [by injection Hst as <- <-|]. apply bind_ok in Hst as ([] & _ & Hst). by injection Hst as <- <-. }
  destruct Hd as [-> Ew]. split; [exact Ew|]. unfold improves. rewrite Et1, Et2.
  apply new_assignment_cases in Ha as [(_ & _ & _ & ->)|(Hr & _ & Hadopt & proposal & trace & ->)]; [by left|right].
  destruct (Hadopt Hi) as [He Ho]. exists result. rewrite assigned_ttot, assigned_tsat. split_and!; [done..|].
  intros p Hpin Hah. pose proof Hah as (slot & Es & _). unfold improvementKeepsQueueOrder in Ho. rewrite Es in Ho.
  rewrite (no_time_no_result c (ps_slots s) result Hp Hr) in Ho; [by eapply keeps_order_undisturbed|]. intros E. by rewrite E, isEarlierClock_empty in He.
Qed.

Lemma process_grows s c s' row :
  process captureAuthority SetCdmData dispatchEobt config now candidates s c = Ok s' → row ∈ ps_written s → row ∈ ps_written s'.
Proof. intros [(d & -> & _)|[-> _]]%process_writes ?; [apply elem_of_app; by left|done]. Qed.

Lemma loop_improves l s s' c :
  c ∈ l → from_strip containsPoint config c → plain_input (sc_input c) → sc_improvement c = true → sc_started c = false →
  isTsatSpecificallyExpired (sc_strip c) now = false →
  fold_outcome (process captureAuthority SetCdmData dispatchEobt config now candidates) s l = Ok s' →
  ∃ slots data, (st_Callsign (sc_strip c), data) ∈ ps_written s' ∧ improves c slots data.
Proof.
  revert s. induction l as [|d l IH]; intros s; [by intros ?%elem_of_nil|]. simpl. intros Hc Hf Hp Hi Hs Hx (s1 & H1 & H)%bind_ok.
  apply elem_of_cons in Hc as [<- | Hc]; [|by eapply IH].
  destruct (process_improves _ _ _ Hf Hp Hi Hs Hx H1) as (data & Ew & Him). exists (ps_slots s), data. split; [|done].
  apply (fold_outcome_inv _ (λ s, (st_Callsign (sc_strip c), data) ∈ ps_written s) _ _ _ (λ _ _ _ Hin E, process_grows _ _ _ _ E Hin)) in H; [done|].
  rewrite Ew, elem_of_app. right. by left.
Qed.
End improvement.
