(* ===== verification/CdmPass.v ===== *)
(** * The theorems about a pass over the departures

    [recalculate] of [CdmSequence] on the strips of an airport: the slots keep the
    flights apart and are what the pass stores, no pending recalculation is left, an
    improvement is one, and the pass returns when the slots leave room. *)

From S2P Require Import Prelude GoTime GoFloat CdmClock CdmData CdmConfig.
From S2P Require Import CdmCalculate CdmSafety CdmMarkers CdmSequence CdmSequenceSafety.
From S2P Require Import CdmSequenceStore.
From Stdlib Require Import Strings.Ascii Strings.String QArith.

Local Open Scope Z_scope.

Section passes.
Context (containsPoint : list CdmTaxiPoint → float64 → float64 → bool).
Context (captureAuthority : Strip → outcome (option string)) (SetCdmData : string → CdmData → outcome Z).
Context (dispatchEobt : string → string → outcome unit) (config : CdmAirportConfig) (now : Time) (strips : list Strip).

Local Abbreviation candidates := (build_candidates containsPoint config now strips).
Local Abbreviation run := (recalculate containsPoint captureAuthority SetCdmData dispatchEobt config now strips).

(** ** The strips *)

Definition strip_key (s : Strip) : string := norm (st_Callsign s).

(** The controlled take-off time is a clock of four or six digits, or none at all. *)
Definition plain_ctot (s : Strip) : Prop := plain (toHHMMSS (valueOrEmpty (effective cd_Ctot s))).

Lemma candidates_unique : NoDup (strip_key <$> strips) → NoDup (candidate_key <$> candidates).
Proof.
  intros H. rewrite candidate_keys. eapply NoDup_sublist; [|exact H]. apply fmap_sublist, sublist_filter.
Qed.

Lemma recovered_ctot s data : recoverExpiredTsat s now = Some data → cd_Ctot data = effective cd_Ctot s.
Proof.
  unfold recoverExpiredTsat, effective. destruct (st_CdmData s) as [d|]; [|done]. destruct (_ || _); [done|]. cbv zeta.
  destruct (_ || _); [done|]. by intros [= <-].
Qed.

Lemma toHHMMSS_trimmed v : toHHMMSS (TrimSpace v) = toHHMMSS v.
Proof. unfold toHHMMSS. by rewrite TrimSpace_idem. Qed.

Lemma candidates_plain c : (∀ s, s ∈ strips → plain_ctot s) → c ∈ candidates → plain_input (sc_input c).
Proof.
  intros Hs (s & -> & [_ Hin]%list_elem_of_filter)%list_elem_of_fmap. specialize (Hs s Hin). unfold plain_ctot, effective in Hs.
  unfold build_candidate. destruct (recoverExpiredTsat s now) as [data|] eqn:E; unfold plain_input; simpl; rewrite toHHMMSS_trimmed.
  - apply recovered_ctot in E. rewrite E. by split.
  - by destruct (st_CdmData s).
Qed.

Lemma candidate_runway c : c ∈ candidates → ∃ s, s ∈ strips ∧ ci_DepRwy (sc_input c) = valueOrEmpty (st_Runway s).
Proof.
  intros (s & -> & [_ Hin]%list_elem_of_filter)%list_elem_of_fmap. exists s. split; [done|]. unfold build_candidate. by destruct (recoverExpiredTsat s now).
Qed.

Lemma run_parts notify r :
  run notify = Ok r → ∃ slots pending, pass_start config now candidates = Ok (slots, pending) ∧
    fold_outcome (process captureAuthority SetCdmData dispatchEobt config now candidates) (mk_pass slots [] []) pending = Ok (rc_pass r).
Proof.
  unfold recalculate. cbv zeta. intros ([slots pending] & Hs & H)%bind_ok. apply bind_ok in H as (s & H & E). injection E as <-. by exists slots, pending.
Qed.

(** ** The slots that are kept *)

(** A preserved slot of a flight that has not started, and does not wait for an
    improvement, has no conflict with the one before. *)
Definition compatible (a b : SlotEntry) : Prop :=
  (∃ c, c ∈ candidates ∧ candidate_key c = slot_key b ∧ sc_started c || sc_improvement c = true) ∨ preserved_conflict b a config = false.

Lemma slot_owner c slot : c ∈ candidates → sc_slot c = Some slot → slot_key slot = candidate_key c.
Proof.
  intros Hc Es. pose proof (fs_slot _ _ _ (candidate_facts _ _ _ _ _ Hc)) as Hs. rewrite Es in Hs. symmetry in Hs.
  by apply existing_slot_key in Hs.
Qed.

Lemma pass_start_compatible slots pending : pass_start config now candidates = Ok (slots, pending) → in_order compatible slots.
Proof.
  unfold pass_start. intros ([slots0 pending0] & H & E)%bind_ok. injection E as <- <-.
  assert (Hp : ∀ c, c ∈ pending0 → c ∈ candidates) by (intros c Hc; eapply pv_pending; [eapply preserve_ok; [apply candidate_facts|exact H]|exact Hc]).
  assert (H0 : in_order compatible slots0).
  { unfold preserve in H. apply (fold_outcome_inv_in _ (λ s, in_order compatible s.1)) in H; [done| |by intros i j a b _ ?].
    intros [slots pending] c [slots' pending'] Hc HI. apply elem_of_sort_slice, list_elem_of_filter in Hc as [_ Hc]. unfold preserve_step.
    destruct (sc_slot c) as [slot|] eqn:Es; [|by intros [= <- <-]]. simpl in *.
    destruct (sc_started c) eqn:Est.
    { intros [= <- <-]. apply in_order_snoc; [done|]. intros a _. left. exists c. rewrite Est. split_and!; [done|by symmetry; apply slot_owner|done]. }
    destruct (hasPreservedSlotConflict _ _ _) eqn:Ec; [by intros [= <- <-]|]. intros ([] & _ & Hb)%bind_ok; injection Hb as <- <-; [done|].
    apply in_order_snoc; [done|]. intros a Ha. right. unfold hasPreservedSlotConflict in Ec. apply not_true_iff_false. intros Et.
    apply not_true_iff_false in Ec. destruct Ec. apply existsb_exists. exists a. split; [by apply list_elem_of_In|done]. }
  clear H. revert slots0 H0. induction pending0 as [|c l IH]; intros slots0 H0; simpl; [done|]. apply IH; [intros; apply Hp; by right|].
  unfold reserve_step. destruct (sc_slot c) as [slot|] eqn:Es; [|done]. destruct (_ && _) eqn:E; [|done].
  apply andb_true_iff in E as [[Hi _]%andb_true_iff _]. assert (Hc : c ∈ candidates) by (apply Hp; left).
  apply in_order_snoc; [done|]. intros a _. left. exists c. rewrite Hi, orb_true_r. split_and!; [done|by symmetry; apply slot_owner|done].
Qed.

(** C9: The slots of a pass keep the flights apart. The slots it keeps are without
    conflict in their order, started flights and waiting improvements excepted;
    every slot the pass adds - a new time, or a kept one looked at again - keeps
    the destination, runway, rate, wake and route minima to all slots before it,
    unless its flight has started or waits for an improvement and keeps its time. *)
Theorem recalculate_apart notify r slots pending :
  NoDup (strip_key <$> strips) → (∀ s, s ∈ strips → plain_ctot s) →
  pass_start config now candidates = Ok (slots, pending) → run notify = Ok r →
  in_order compatible slots ∧ in_order (placed_slot config candidates slots) (ps_slots (rc_pass r)).
Proof.
  intros Hn Hp Hs Hr. split; [by eapply pass_start_compatible|]. apply run_parts in Hr as (slots' & pending' & Hs' & Hl).
  rewrite Hs in Hs'. injection Hs' as <- <-. apply candidates_unique in Hn as Hu.
  pose proof (pass_start_ok containsPoint config now candidates (candidate_facts _ _ _ _) Hu _ _ Hs) as Hst.
  eapply lo_order, process_looping; [apply candidate_facts|intros; by apply candidates_plain|apply Hst|apply Hst| |exact Hl].
  by eapply started_looping; [apply candidate_facts|].
Qed.

(** C10: The slots of a pass are the take-off times it leaves in the data base: each
    flight has at most one slot, every slot is that of a flight of the sequence,
    and a flight has a slot with its take-off time exactly when its data, as
    written by the pass or else as they were, have one. *)
Theorem recalculate_slots_stored notify r :
  NoDup (strip_key <$> strips) → (∀ s, s ∈ strips → plain_ctot s) → run notify = Ok r →
  let slots := ps_slots (rc_pass r) in
  NoDup (slot_key <$> slots) ∧ (∀ b, b ∈ slots → ∃ c, c ∈ candidates ∧ candidate_key c = slot_key b) ∧
  ∀ c, c ∈ candidates → slot_agrees c slots (data_after (ps_written (rc_pass r)) c).
Proof.
  intros Hn Hp (slots0 & pending & Hs & Hl)%run_parts. apply candidates_unique in Hn as Hu.
  assert (Hpl : ∀ c, c ∈ candidates → plain_input (sc_input c)) by (intros; by apply candidates_plain).
  pose proof (pass_start_ok containsPoint config now candidates (candidate_facts _ _ _ _) Hu _ _ Hs) as Hst.
  pose proof (started_looping containsPoint config now candidates (candidate_facts _ _ _ _) slots0 pending Hst) as HL.
  destruct (process_looping containsPoint captureAuthority SetCdmData dispatchEobt config now candidates (candidate_facts _ _ _ _) Hpl slots0
    pending (mk_pass slots0 [] []) _ (sd_pending _ _ _ _ Hst) (sd_pending_keys _ _ _ _ Hst) HL Hl) as [L1 _ L3 _].
  split_and!; [done|done|]. intros c Hc. eapply ag_done; [|done|by intros ?%elem_of_nil].
  refine (loop_agrees containsPoint _ _ _ _ _ _ (candidate_facts _ _ _ _) Hu Hpl slots0 pending (mk_pass slots0 [] []) _ _ _ HL _ Hl); [apply Hst|apply Hst|].
  eapply started_agreeing; [apply candidate_facts|done|done].
Qed.

(** ** What a pass leaves *)

Lemma pending_visited slots pending c :
  pass_start config now candidates = Ok (slots, pending) → c ∈ candidates → must_recalculate now c = true → c ∈ pending.
Proof.
  unfold pass_start. intros ([slots0 pending0] & H & E)%bind_ok Hc Hm. injection E as <- <-. apply elem_of_sort_slice.
  unfold preserve in H. apply (fold_outcome_inv _ (λ s, c ∈ s.2)) in H; [done| |by apply list_elem_of_filter].
  intros [slots pending] d [slots' pending'] HI. unfold preserve_step. simpl in HI.
  assert (Hi : c ∈ pending ++ [d]) by (apply elem_of_app; by left).
  destruct (sc_slot d); [|by intros [= <- <-]]. destruct (sc_started d); [by intros [= <- <-]|].
  destruct (hasPreservedSlotConflict _ _ _); [by intros [= <- <-]|]. by intros ([] & _ & Hb)%bind_ok; injection Hb as <- <-.
Qed.



(** An improvement is one: a flight that asked for an earlier time, has not
    started and whose start-up time has not expired, either keeps its times or
    gets a start-up time that is earlier, calculated against the slots of that
    moment, and then no flight ahead of it on a dependent runway could have used
    the room it takes. *)
Theorem recalculate_improves notify r c :
  (∀ s, s ∈ strips → plain_ctot s) → run notify = Ok r → c ∈ candidates →
  sc_improvement c = true → sc_started c = false → isTsatSpecificallyExpired (sc_strip c) now = false →
  ∃ slots data, (st_Callsign (sc_strip c), data) ∈ ps_written (rc_pass r) ∧ improves config now candidates c slots data.
Proof.
  intros Hp (slots & pending & Hs & Hl)%run_parts Hc Hi Hst Hx. pose proof (candidate_facts _ _ _ _ _ Hc) as Hf.
  eapply loop_improves; [|exact Hf|by apply candidates_plain|done..|exact Hl]. eapply pending_visited; [done|done|].
  unfold must_recalculate. by rewrite (improvement_recalculated _ _ _ _ Hf Hi Hst).
Qed.

(** A pass returns, with a result or an error of a call, when no separation is
    wider than [W] minutes, the flights with [4 W + 1] half minutes each do not
    cover the day, and the calls return. *)
Theorem recalculate_returns W notify :
  NoDup (strip_key <$> strips) → (∀ s, s ∈ strips → plain_ctot s) →
  (∀ s, s ∈ strips → windows_within W (buildCalcInput containsPoint s config) (Some config)) →
  Z.of_nat (List.length strips) * (4 * W + 1) < 2880 →
  (∀ strip, returns (captureAuthority strip)) → (∀ callsign data, returns (SetCdmData callsign data)) →
  (∀ callsign eobt, returns (dispatchEobt callsign eobt)) → returns (run notify).
Proof.
  intros Hn Hp HW Hroom H1 H2 H3. apply candidates_unique in Hn as Hu.
  assert (Hw : ∀ c, c ∈ candidates → windows_within W (sc_input c) (Some config)).
  { intros c (s & Hin & E)%candidate_runway. destruct (HW s Hin) as [W1 W2 W3]. split; [done| |done]. by rewrite E. }
  assert (Hr : Z.of_nat (List.length candidates) * (4 * W + 1) < 2880).
  { assert (Hlen : (List.length candidates ≤ List.length strips)%nat) by (unfold build_candidates; rewrite length_fmap; apply length_filter).
    destruct (decide (strips = [])) as [-> |Hne]; [simpl; lia|]. destruct strips as [|s l] eqn:E; [done|].
    pose proof (ww_bounds _ _ _ (HW s (list_elem_of_here _ _))). rewrite <-E in *. nia. }
  unfold recalculate. cbv zeta. apply returns_bind.
  { unfold pass_start. apply returns_bind; [eapply preserve_returns; [apply candidate_facts|exact Hu|by intros; apply candidates_plain|exact Hw|exact Hr]|by intros []]. }
  intros [slots pending] Hs. pose proof (pass_start_ok containsPoint config now candidates (candidate_facts _ _ _ _) Hu _ _ Hs) as Hst.
  apply returns_bind; [|done]. eapply loop_returns; eauto using candidate_facts; [by intros; apply candidates_plain|apply Hst..|].
  simpl. eapply started_looping; [apply candidate_facts|exact Hst].
Qed.
End passes.

(** ** Examples *)

(** A flight without a controlled time, which EuroScope has seen *)
Definition ex_data (tobt tsat ttot : string) : CdmData :=
  set_cd_Tobt (Some tobt) (set_cd_Eobt (Some tobt) (set_cd_Tsat (stringPointerIfPresent tsat) (set_cd_Ttot (stringPointerIfPresent ttot) zero_cdm_data))).

Definition ex_strip (callsign destination category : string) (data : CdmData) : Strip :=
  mk_strip callsign "EKCH" destination (Some "22R"%string) (Some "BETUD2A"%string) (Some category) None None None (Some data) (Some ex_half_past_nine).

(** A flight with times; one that needs some; one that asks for earlier ones; and
    one whose start-up time expired twenty minutes ago *)
Definition ex_strips : list Strip :=
  [ex_strip "DLH1" "EDDF" "H" (ex_data "0957" "095700" "100700");
   ex_strip "SAS100" "EGLL" "M" (MarkLocalRecalculationPending (ex_data "1000" "" ""));
   ex_strip "NAX3" "ENGM" "M" (MarkLocalImprovementPending (ex_data "1010" "103000" "104000"));
   ex_strip "BAW2" "EGLL" "M" (ex_data "0910" "091000" "092000")].

(** No taxi zones, no external authority, and a data base that stores every row *)
Definition ex_contains (polygon : list CdmTaxiPoint) (lat lon : float64) : bool := false.
Definition ex_capture (strip : Strip) : outcome (option string) := Ok None.
Definition ex_set (callsign : string) (data : CdmData) : outcome Z := Ok 1.
Definition ex_dispatch (callsign eobt : string) : outcome unit := Ok ().

Local Abbreviation ex_candidates := (build_candidates ex_contains (ex_cdm_config 5) ex_half_past_nine ex_strips).

Local Abbreviation ex_run strips := (recalculate ex_contains ex_capture ex_set ex_dispatch (ex_cdm_config 5) ex_half_past_nine strips true).

Definition ex_pass : recalculation := match ex_run ex_strips with Ok r => r | _ => mk_recalculation (mk_pass [] [] []) [] end.
Definition ex_start : list SlotEntry * list sequencingCandidate :=
  match pass_start (ex_cdm_config 5) ex_half_past_nine ex_candidates with Ok s => s | _ => ([], []) end.

Lemma ex_pass_run : ex_run ex_strips = Ok ex_pass.
Proof. vm_compute. reflexivity. Qed.

Lemma ex_start_run : pass_start (ex_cdm_config 5) ex_half_past_nine ex_candidates = Ok (ex_start.1, ex_start.2).
Proof. vm_compute. reflexivity. Qed.

Lemma ex_unique : NoDup (strip_key <$> ex_strips).
Proof. refine (bool_decide_unpack _ _). vm_compute. exact I. Qed.

Lemma plain_ctots l :
  forallb (λ s, let v := toHHMMSS (valueOrEmpty (effective cd_Ctot s)) in match parseClock v with Some t => str_eqb v (formatClock t) | None => true end) l = true →
  ∀ s, s ∈ l → plain_ctot s.
Proof. intros H s Hs%list_elem_of_In. apply plain_check. exact (proj1 (forallb_forall _ _) H s Hs). Qed.

Lemma ex_plain s : s ∈ ex_strips → plain_ctot s.
Proof. apply plain_ctots. vm_compute. reflexivity. Qed.

Lemma recalculate_apart_witness :
  in_order (placed_slot (ex_cdm_config 5) ex_candidates ex_start.1) (ps_slots (rc_pass ex_pass)) ∧ List.length (ps_slots (rc_pass ex_pass)) = 4%nat ∧
  List.length ex_start.1 = 2%nat.
Proof.
  split; [|split; vm_compute; reflexivity].
  refine (proj2 (recalculate_apart ex_contains ex_capture ex_set ex_dispatch (ex_cdm_config 5) ex_half_past_nine ex_strips true ex_pass ex_start.1 ex_start.2 ex_unique ex_plain ex_start_run ex_pass_run)).
Defined.

Lemma recalculate_slots_stored_witness :
  NoDup (slot_key <$> ps_slots (rc_pass ex_pass)) ∧
  ∀ c, c ∈ ex_candidates → slot_agrees c (ps_slots (rc_pass ex_pass)) (data_after (ps_written (rc_pass ex_pass)) c).
Proof.
  destruct (recalculate_slots_stored ex_contains ex_capture ex_set ex_dispatch (ex_cdm_config 5) ex_half_past_nine ex_strips true ex_pass ex_unique ex_plain ex_pass_run) as (H1 & _ & H3). split; [exact H1|exact H3].
Defined.


(** The improvement goes from 10:40 to 10:20. *)
Lemma recalculate_improves_witness :
  ∃ slots data, (("NAX3"%string, data) ∈ ps_written (rc_pass ex_pass)) ∧
    improves (ex_cdm_config 5) ex_half_past_nine ex_candidates (nth 2 ex_candidates (build_candidate ex_contains (ex_cdm_config 5) ex_half_past_nine (ex_strip "" "" "" zero_cdm_data))) slots data.
Proof.
  apply (recalculate_improves ex_contains ex_capture ex_set ex_dispatch (ex_cdm_config 5) ex_half_past_nine ex_strips true ex_pass
    (nth 2 ex_candidates (build_candidate ex_contains (ex_cdm_config 5) ex_half_past_nine (ex_strip "" "" "" zero_cdm_data))) ex_plain ex_pass_run);
    [right; right; left|vm_compute; reflexivity..].
Defined.

Lemma recalculate_returns_witness : returns (ex_run ex_strips).
Proof.
  apply (recalculate_returns ex_contains ex_capture ex_set ex_dispatch (ex_cdm_config 5) ex_half_past_nine ex_strips 5 true ex_unique ex_plain); [|vm_compute; reflexivity|done..].
  assert (Hrate : ∀ s, s ∈ ex_strips → valueOrEmpty (st_Runway s) = "22R"%string) by (apply Forall_forall; repeat constructor).
  intros s Hs. split; [split; discriminate| |].
  - change (ci_DepRwy _) with (valueOrEmpty (st_Runway s)). rewrite (Hrate s Hs). split; [vm_compute; reflexivity|vm_compute; discriminate].
  - intros c interval [= <-] [-> | []%elem_of_nil]%elem_of_cons. discriminate.
Defined.

(** The order of the candidates is not transitive: of two improvements the one with
    the earlier slot comes first, yet a third flight comes between them by their
    natural times. *)
Definition ex_cycle : list sequencingCandidate :=
  build_candidates ex_contains (ex_cdm_config 5) ex_half_past_nine
    [ex_strip "AAA1" "EGLL" "M" (MarkLocalImprovementPending (ex_data "1005" "101000" "102000"));
     ex_strip "BBB2" "ENGM" "M" (MarkLocalImprovementPending (ex_data "0950" "102000" "103000"));
     ex_strip "CCC3" "EDDF" "M" (MarkLocalRecalculationPending (ex_data "1000" "" ""))].

Lemma recalculate_less_cyclic :
  ∃ a b c, ex_cycle = [a; b; c] ∧ recalculate_less ex_half_past_nine a b = true ∧ recalculate_less ex_half_past_nine b c = true ∧
    recalculate_less ex_half_past_nine c a = true.
Proof. do 3 eexists. split; [vm_compute; reflexivity|]. split_and!; vm_compute; reflexivity. Qed.
