(* ===== verification/StripOrdering.v ===== *)
(** * The order of the strips in a bay: [services/strip_ordering.go]

    Flight strips and tactical strips of a bay are ordered by a 32-bit sequence
    number. A strip is dropped behind another one by giving it a number between
    its new neighbours; when there is no room, all numbers of the bay are spaced
    again. The two tables of one session are lists of rows, the queries of
    [database/strips.sql.go] and [tactical_strips.sql.go] functions on them. The
    services that a move informs are parameters: they do not change the order. *)

From S2P Require Import Prelude GoTime Bays.
From Stdlib Require Import Strings.Ascii Strings.String.

Local Open Scope Z_scope.

(** ** Rows *)

Definition wrap32 (z : Z) : Z := (z + 2^31) mod 2^32 - 2^31.

(** [sequence] is nullable for flights only. *)
Record StripRow := mk_strip_row { sr_Callsign : string; sr_Bay : string; sr_Sequence : option Z }.
Record TacticalRow := mk_tactical_row { tr_ID : Z; tr_Bay : string; tr_Sequence : Z }.
Record board := mk_board { bd_strips : list StripRow; bd_tacticals : list TacticalRow }.

Inductive strip_name := Flight (callsign : string) | Tactical (id : Z).

(** The messages to the frontends *)
Inductive frontend_event :=
| BayEvent (callsign bay : string) (sequence : Z)
| TacticalStripMoved (id : Z) (bay : string) (sequence : Z)
| BulkBayEvent (bay : string) (entries : list (string * Z))
| StripUpdate (callsign : string).

Record world := mk_world { w_board : board; w_events : list frontend_event }.

Definition send (event : frontend_event) (w : world) : world := mk_world (w_board w) (w_events w ++ [event]).
Definition set_board (b : board) (w : world) : world := mk_world b (w_events w).

(** [fmt.Errorf] around the error of a call *)
Definition wrap_error {A} (format : string) (m : outcome A) : outcome A :=
  match m with Err e => Err (Errorf format [AErr e]) | _ => m end.

(** ** Queries *)

Definition in_bay (bay : string) (row : StripRow) : bool := str_eqb (sr_Bay row) bay.
Definition tactical_in_bay (bay : string) (row : TacticalRow) : bool := str_eqb (tr_Bay row) bay.

(** The sequences of both tables, without the missing ones *)
Definition bay_sequences (b : board) (bay : string) : list Z :=
  omap sr_Sequence (filter (λ row, in_bay bay row = true) (bd_strips b)) ++
  (tr_Sequence <$> filter (λ row, tactical_in_bay bay row = true) (bd_tacticals b)).

Definition GetMaxSequenceInBayUnified (b : board) (bay : string) : Z :=
  match bay_sequences b bay with [] => 0 | s :: rest => foldl Z.max s rest end.

Definition GetNextSequenceUnified (b : board) (bay : string) (prev : Z) : option Z :=
  match filter (λ s, prev < s) (bay_sequences b bay) with [] => None | s :: rest => Some (foldl Z.min s rest) end.

Definition ErrNoRows : error := Errorf "no rows in result set" [].

(** A missing sequence cannot be scanned into a number. *)
Definition GetSequence (b : board) (callsign bay : string) : outcome Z :=
  match List.find (λ row, str_eqb (sr_Callsign row) callsign && in_bay bay row) (bd_strips b) with
  | Some row => match sr_Sequence row with Some s => Ok s | None => Err (Errorf "cannot scan NULL" []) end
  | None => Err ErrNoRows
  end.

(** Whatever bay the strip is in *)
Definition GetSequenceByID (b : board) (id : Z) : outcome Z :=
  match List.find (λ row, tr_ID row =? id) (bd_tacticals b) with Some row => Ok (tr_Sequence row) | None => Err ErrNoRows end.

(** A strip that is not there changes nothing; the number of rows is not looked at. *)
Definition UpdateBayAndSequence (b : board) (callsign bay : string) (sequence : Z) : board :=
  mk_board ((λ row, if str_eqb (sr_Callsign row) callsign then mk_strip_row (sr_Callsign row) bay (Some sequence) else row) <$> bd_strips b)
    (bd_tacticals b).

Definition has_tactical (b : board) (id : Z) : bool := existsb (λ row, tr_ID row =? id) (bd_tacticals b).

Definition update_tactical (b : board) (id : Z) (edit : TacticalRow → TacticalRow) : outcome board :=
  if has_tactical b id then Ok (mk_board (bd_strips b) ((λ row, if tr_ID row =? id then edit row else row) <$> bd_tacticals b)) else Err ErrNoRows.

Definition UpdateTacticalBayAndSequence (b : board) (id : Z) (bay : string) (sequence : Z) : outcome board :=
  update_tactical b id (λ row, mk_tactical_row (tr_ID row) bay sequence).

Definition UpdateTacticalSequence (b : board) (id : Z) (sequence : Z) : outcome board :=
  update_tactical b id (λ row, mk_tactical_row (tr_ID row) (tr_Bay row) sequence).

Definition new_sequence (updates : list (string * Z)) (row : StripRow) : StripRow :=
  match List.find (λ u, str_eqb u.1 (sr_Callsign row)) updates with
  | Some u => mk_strip_row (sr_Callsign row) (sr_Bay row) (Some u.2)
  | None => row
  end.

Definition UpdateSequenceBulk (b : board) (updates : list (string * Z)) : board :=
  mk_board (new_sequence updates <$> bd_strips b) (bd_tacticals b).

(** [ORDER BY sequence, callsign], missing sequences last *)
Definition strip_row_less (a b : StripRow) : bool :=
  match sr_Sequence a, sr_Sequence b with
  | Some s, Some t => if s =? t then str_ltb (sr_Callsign a) (sr_Callsign b) else s <? t
  | Some _, None => true
  | None, Some _ => false
  | None, None => str_ltb (sr_Callsign a) (sr_Callsign b)
  end.

Definition tactical_row_less (a b : TacticalRow) : bool :=
  if tr_Sequence a =? tr_Sequence b then tr_ID a <? tr_ID b else tr_Sequence a <? tr_Sequence b.

Definition ListSequences (b : board) (bay : string) : list StripRow :=
  sort_slice strip_row_less (filter (λ row, in_bay bay row = true) (bd_strips b)).

Definition ListBaySequences (b : board) (bay : string) : list TacticalRow :=
  sort_slice tactical_row_less (filter (λ row, tactical_in_bay bay row = true) (bd_tacticals b)).

(** ** The number between two strips *)

Definition InitialOrderSpacing : Z := 1000.
Definition MinOrderGap : Z := 5.

Definition calculateOrderBetween (prevOrder : Z) (nextOrder : option Z) : Z * bool :=
  match nextOrder with
  | None => (wrap32 (prevOrder + InitialOrderSpacing), false)
  | Some next =>
      let gap := wrap32 (next - prevOrder) in
      if gap <=? MinOrderGap then (0, true) else (wrap32 (prevOrder + Z.quot gap 2), false)
  end.

Definition needsRecalculation (prevOrder nextOrder : Z) : bool := wrap32 (nextOrder - prevOrder) <=? MinOrderGap.

(** ** Appending *)

(** The transaction of the strip repository, with the new sequence; no row is an error *)
Definition AppendToBay (b : board) (callsign bay : string) (spacing : Z) : outcome (board * Z) :=
  let sequence := wrap32 (GetMaxSequenceInBayUnified b bay + spacing) in
  _ ← guard_err (negb (existsb (λ row, str_eqb (sr_Callsign row) callsign) (bd_strips b))) ErrNoRows;
  Ok (UpdateBayAndSequence b callsign bay sequence, sequence).

(** The transaction that creates a tactical strip, with the identity that the table gives it *)
Definition CreateAtEndOfBay (b : board) (id : Z) (bay : string) (spacing : Z) : board :=
  mk_board (bd_strips b) (bd_tacticals b ++ [mk_tactical_row id bay (wrap32 (GetMaxSequenceInBayUnified b bay + spacing))]).

(** ** Spacing a bay again *)

Definition entry := (strip_name * Z)%type.

Definition flight_entries (rows : list StripRow) : list entry :=
  omap (λ row, (λ s, (Flight (sr_Callsign row), s)) <$> sr_Sequence row) rows.
Definition tactical_entries (rows : list TacticalRow) : list entry := (λ row, (Tactical (tr_ID row), tr_Sequence row)) <$> rows.

(** Both lists in one order *)
Definition sorted_entries (b : board) (bay : string) : list entry :=
  sort_slice (λ x y : entry, x.2 <? y.2) (flight_entries (ListSequences b bay) ++ tactical_entries (ListBaySequences b bay)).

(** The entries with their new numbers, [i] being the index of the first *)
Fixpoint renumbered (i : Z) (entries : list entry) : list entry :=
  match entries with [] => [] | (key, _) :: rest => (key, wrap32 (wrap64 ((i + 1) * InitialOrderSpacing))) :: renumbered (i + 1) rest end.

Definition recalculation_step (bay : string) (s : world * list (string * Z)) (e : entry) : outcome (world * list (string * Z)) :=
  let '(w, flights) := s in
  match e with
  | (Flight callsign, newSeq) => Ok (w, flights ++ [(callsign, newSeq)])
  | (Tactical id, newSeq) =>
      b ← wrap_error "failed to update tactical strip sequence during recalc: %w" (UpdateTacticalSequence (w_board w) id newSeq);
      Ok (send (TacticalStripMoved id bay newSeq) (set_board b w), flights)
  end.

Definition recalculateAllStripSequences (w : world) (bay : string) : outcome world :=
  s ← fold_outcome (recalculation_step bay) (w, []) (renumbered 0 (sorted_entries (w_board w) bay));
  let '(w, flights) := s in
  match flights with
  | [] => Ok w
  | _ => Ok (send (BulkBayEvent bay flights) (set_board (UpdateSequenceBulk (w_board w) flights) w))
  end.

(** ** Moving a strip behind another *)

Record StripRef := mk_strip_ref { rf_Kind : string; rf_Callsign : option string; rf_ID : option Z }.

Definition resolveRefSequence (b : board) (bay : string) (ref : option StripRef) : outcome Z :=
  match ref with
  | None => Ok 0
  | Some ref =>
      if str_eqb (rf_Kind ref) "flight" then
        match rf_Callsign ref with None => Err (Errorf "flight strip ref missing callsign" []) | Some callsign => GetSequence b callsign bay end
      else if str_eqb (rf_Kind ref) "tactical" then
        match rf_ID ref with None => Err (Errorf "tactical strip ref missing id" []) | Some id => GetSequenceByID b id end
      else Err (Errorf "unknown strip ref kind: %s" [AStr (rf_Kind ref)])
  end.

Definition landingClearanceValidationRelevantBay (bay : string) : bool := str_eqb bay BAY_FINAL || str_eqb bay BAY_RWY_ARR || str_eqb bay BAY_TWY_ARR.

(** What a move reads of the strip before *)
Record MovedStrip := mk_moved_strip { mv_Bay : string; mv_BoardState : bool; mv_RunwayCleared : bool }.

Section moves.
(** [getCachedStrip], and [reorderBoardStrip], which strips of a shared board take *)
Context (getCachedStrip : string → outcome (option MovedStrip)) (reorderBoardStrip : world → string → option StripRef → string → outcome world).
(** [AcknowledgeDeicePlatform] of the departure service, when it has one *)
Context (AcknowledgeDeicePlatform : option (string → outcome unit)).
(** Rows changed by [SetRwyArrRunwayStatusOnEntry], when the store has it, and by [ResetRunwayClearance] *)
Context (SetRwyArrRunwayStatusOnEntry : option (string → outcome Z)) (ResetRunwayClearance : string → outcome Z).
(** [ReevaluateLandingClearanceValidationsForSession] *)
Context (reevaluateLanding : outcome unit).

(** A panic of the read is recovered from. *)
Definition getStripForMoveToBay (callsign : string) : outcome (option MovedStrip) :=
  match getCachedStrip callsign with Panic => Ok None | m => m end.

Definition acknowledgeDeicePlatformInBay (callsign bay : string) : outcome unit :=
  if negb (str_eqb bay BAY_TAXI_TWR) then Ok ()
  else match AcknowledgeDeicePlatform with None => Ok () | Some acknowledge => acknowledge callsign end.

(** Failures and missing rows are logged and do not stop the move. *)
Definition one_row (rows : outcome Z) : outcome bool :=
  match rows with Ok n => Ok (n =? 1) | Err _ => Ok false | Panic => Panic | Hang => Hang end.

Definition updateRwyArrClearanceOnMove (callsign previousBay targetBay : string) (wasRunwayCleared : bool) : outcome bool :=
  if str_eqb previousBay targetBay || str_eqb previousBay "" then Ok false
  else if str_eqb targetBay BAY_RWY_ARR then
    match SetRwyArrRunwayStatusOnEntry with None => Ok false | Some setter => one_row (setter callsign) end
  else if str_eqb previousBay BAY_RWY_ARR && wasRunwayCleared then one_row (ResetRunwayClearance callsign)
  else Ok false.

Definition updateStripSequence (w : world) (callsign : string) (sequence : Z) (bay : string) (sendNotification : bool) : world :=
  let w := set_board (UpdateBayAndSequence (w_board w) callsign bay sequence) w in
  if sendNotification then send (BayEvent callsign bay sequence) w else w.

(** What follows the change of the order in both branches *)
Definition after_move (w : world) (callsign previousBay bay : string) (strip : option MovedStrip) : outcome world :=
  let wasRunwayCleared := match strip with Some strip => mv_RunwayCleared strip | None => false end in
  updated ← updateRwyArrClearanceOnMove callsign previousBay bay wasRunwayCleared;
  let w := if updated : bool then send (StripUpdate callsign) w else w in
  if landingClearanceValidationRelevantBay bay then (_ ← reevaluateLanding; Ok w) else Ok w.

Definition MoveStripBetween (w : world) (callsign : string) (insertAfter : option StripRef) (bay : string) : outcome world :=
  strip ← getStripForMoveToBay callsign;
  let previousBay := match strip with Some strip => mv_Bay strip | None => ""%string end in
  if match strip with Some strip => mv_BoardState strip | None => false end then reorderBoardStrip w callsign insertAfter bay
  else
    prev ← wrap_error "failed to resolve ref sequence: %w" (resolveRefSequence (w_board w) bay insertAfter);
    let '(newOrder, needsRecalc) := calculateOrderBetween prev (GetNextSequenceUnified (w_board w) bay prev) in
    if needsRecalc : bool then
      let w := updateStripSequence w callsign newOrder bay false in
      _ ← acknowledgeDeicePlatformInBay callsign bay;
      w ← recalculateAllStripSequences w bay;
      after_move w callsign previousBay bay strip
    else
      let w := updateStripSequence w callsign newOrder bay true in
      _ ← acknowledgeDeicePlatformInBay callsign bay;
      after_move w callsign previousBay bay strip.
End moves.

Definition MoveTacticalStripBetween (w : world) (id : Z) (insertAfter : option StripRef) (bay : string) : outcome world :=
  prev ← wrap_error "failed to resolve ref sequence: %w" (resolveRefSequence (w_board w) bay insertAfter);
  let '(newOrder, needsRecalc) := calculateOrderBetween prev (GetNextSequenceUnified (w_board w) bay prev) in
  b ← wrap_error "failed to update tactical strip sequence: %w" (UpdateTacticalBayAndSequence (w_board w) id bay newOrder);
  let w := set_board b w in
  if needsRecalc : bool then recalculateAllStripSequences w bay
  else Ok (send (TacticalStripMoved id bay newOrder) w).
