(* ===== verification/StripRenumber.v ===== *)
(** * Where the strips of a bay are, before and after it is spaced again

    Lemmas about [StripOrdering]: a strip has one place, the queries find the
    largest and the next number, a write changes the place of one strip, and
    spacing a bay again numbers its strips in the order they had. *)

From S2P Require Import Prelude GoTime StripOrdering.
From Stdlib Require Import Strings.Ascii Strings.String.

Local Open Scope Z_scope.

#[export] Instance strip_name_eq_dec : EqDecision strip_name.
Proof. solve_decision. Defined.

(** ** Where a strip is *)

Definition placed_in (b : board) (bay : string) (key : strip_name) (q : Z) : Prop :=
  match key with
  | Flight callsign => mk_strip_row callsign bay (Some q) ∈ bd_strips b
  | Tactical id => mk_tactical_row id bay q ∈ bd_tacticals b
  end.

(** Callsigns and identities are keys of their tables. *)
Definition keyed (b : board) : Prop := NoDup (sr_Callsign <$> bd_strips b) ∧ NoDup (tr_ID <$> bd_tacticals b).

(** The strip is in its table. *)
Definition known (b : board) (key : strip_name) : Prop :=
  match key with Flight callsign => callsign ∈ sr_Callsign <$> bd_strips b | Tactical id => id ∈ tr_ID <$> bd_tacticals b end.

Lemma wrap32_id z : - 2^31 ≤ z < 2^31 → wrap32 z = z.
Proof. unfold wrap32. intros. rewrite Z.mod_small; lia. Qed.

Lemma bay_sequences_placed b bay q : q ∈ bay_sequences b bay ↔ ∃ key, placed_in b bay key q.
Proof.
  unfold bay_sequences. rewrite elem_of_app, list_elem_of_omap, list_elem_of_fmap. split.
  - intros [([c bay' s] & [Hb Hin]%list_elem_of_filter & Hs)|([i bay' s] & -> & [Hb Hin]%list_elem_of_filter)]; apply str_eqb_eq in Hb; simpl in *; subst.
    + by exists (Flight c).
    + by exists (Tactical i).
  - intros [[c|i] H]; [left; exists (mk_strip_row c bay (Some q))|right; exists (mk_tactical_row i bay q)];
      rewrite list_elem_of_filter; unfold in_bay, tactical_in_bay; simpl; rewrite str_eqb_refl; done.
Qed.

Lemma NoDup_key {A B} (f : A → B) (l : list A) x y : NoDup (f <$> l) → x ∈ l → y ∈ l → f x = f y → x = y.
Proof.
  intros Hn [i Hi]%list_elem_of_lookup [j Hj]%list_elem_of_lookup E. assert (i = j) as ->; [|congruence].
  apply (NoDup_lookup _ i j (f x) Hn); rewrite list_lookup_fmap; [by rewrite Hi|by rewrite Hj, E].
Qed.

Lemma placed_unique b bay bay' key q q' : keyed b → placed_in b bay key q → placed_in b bay' key q' → bay = bay' ∧ q = q'.
Proof.
  intros [Hf Ht]. destruct key; simpl; intros H1 H2; [pose proof (NoDup_key _ _ _ _ Hf H1 H2 eq_refl)|pose proof (NoDup_key _ _ _ _ Ht H1 H2 eq_refl)]; by simplify_eq.
Qed.

(** ** The number between two strips *)

Lemma foldl_max_ge l s : s ≤ foldl Z.max s l ∧ ∀ q, q ∈ l → q ≤ foldl Z.max s l.
Proof.
  revert s. induction l as [|x l IH]; intros s; simpl; [split; [lia|by intros ? ?%elem_of_nil]|]. destruct (IH (Z.max s x)) as [H1 H2].
  split; [lia|]. intros q [-> | Hq]%elem_of_cons; [lia|by apply H2].
Qed.

Lemma foldl_min_least l s : foldl Z.min s l ∈ s :: l ∧ foldl Z.min s l ≤ s ∧ ∀ q, q ∈ l → foldl Z.min s l ≤ q.
Proof.
  revert s. induction l as [|x l IH]; intros s; simpl; [split_and!; [left|lia|by intros ? ?%elem_of_nil]|].
  destruct (IH (Z.min s x)) as (H1 & H2 & H3). split_and!; [|lia|].
  - apply elem_of_cons in H1 as [H1|H1]; [|right; by right]. rewrite H1. destruct (Z.min_spec s x) as [[_ ->]|[_ ->]]; [left|right; left].
  - intros q [-> | Hq]%elem_of_cons; [lia|by apply H3].
Qed.

Lemma max_ge b bay key q : placed_in b bay key q → q ≤ GetMaxSequenceInBayUnified b bay.
Proof.
  intros H. assert (Hin : q ∈ bay_sequences b bay) by (apply bay_sequences_placed; by exists key). unfold GetMaxSequenceInBayUnified.
  destruct (bay_sequences b bay) as [|s l]; [by apply elem_of_nil in Hin|]. destruct (foldl_max_ge l s) as [H1 H2].
  apply elem_of_cons in Hin as [-> | Hin]; [done|by apply H2].
Qed.

Lemma max_le b bay M : 0 ≤ M → (∀ key q, placed_in b bay key q → 0 ≤ q ≤ M) → 0 ≤ GetMaxSequenceInBayUnified b bay ≤ M.
Proof.
  intros HM H. unfold GetMaxSequenceInBayUnified. assert (Hall : ∀ q, q ∈ bay_sequences b bay → 0 ≤ q ≤ M) by (intros q [key Hq]%bay_sequences_placed; by eapply H).
  destruct (bay_sequences b bay) as [|s l]; [lia|]. pose proof (Hall s (list_elem_of_here _ _)) as Hs.
  assert (Hl : ∀ q, q ∈ l → 0 ≤ q ≤ M) by (intros; apply Hall; by right). clear Hall H. revert s Hs.
  induction l as [|x l IH]; intros s Hs; simpl; [lia|]. apply IH; [intros; apply Hl; by right|]. specialize (Hl x (list_elem_of_here _ _)). lia.
Qed.

(** The next number is the least one above. *)
Lemma next_least b bay prev :
  match GetNextSequenceUnified b bay prev with
  | Some n => prev < n ∧ (∃ key, placed_in b bay key n) ∧ ∀ key q, placed_in b bay key q → prev < q → n ≤ q
  | None => ∀ key q, placed_in b bay key q → q ≤ prev
  end.
Proof.
  unfold GetNextSequenceUnified. assert (Hin : ∀ q, q ∈ filter (λ s, prev < s) (bay_sequences b bay) ↔ prev < q ∧ ∃ key, placed_in b bay key q).
  { intros q. by rewrite list_elem_of_filter, bay_sequences_placed. }
  destruct (filter _ _) as [|s l].
  - intros key q Hq. destruct (decide (prev < q)); [|lia]. assert (q ∈ []) as []%elem_of_nil. apply Hin. eauto.
  - destruct (foldl_min_least l s) as (H1 & H2 & H3). apply Hin in H1 as [H1 H1']. split_and!; [done|done|].
    intros key q Hq Hlt. assert (H : q ∈ s :: l) by (apply Hin; eauto). apply elem_of_cons in H as [-> | H]; [done|by apply H3].
Qed.

(** Sequences that leave room to append *)
Definition in_range (q : Z) : Prop := 0 ≤ q < 2^31 - 1000.

Lemma between prev next s :
  in_range prev → (∀ n, next = Some n → prev < n < 2^31) → calculateOrderBetween prev next = (s, false) →
  prev < s ∧ match next with Some n => s < n | None => s = prev + 1000 end.
Proof.
  unfold in_range, calculateOrderBetween, InitialOrderSpacing, MinOrderGap. intros Hp Hn. destruct next as [n|].
  - specialize (Hn n eq_refl). cbv zeta. rewrite (wrap32_id (n - prev)) by lia. destruct (_ <=? 5) eqn:E; [done|]. apply Z.leb_gt in E.
    pose proof (Z.quot_div_nonneg (n - prev) 2 ltac:(lia) ltac:(lia)) as Eq. pose proof (Z.div_mod (n - prev) 2 ltac:(lia)).
    pose proof (Z.mod_pos_bound (n - prev) 2 ltac:(lia)). rewrite Eq, wrap32_id by lia. intros [= <-]. lia.
  - rewrite wrap32_id by lia. intros [= <-]. lia.
Qed.

(** ** Changing a row *)

Lemma UpdateBayAndSequence_placed b callsign bay s bay' key q :
  known b (Flight callsign) →
  placed_in (UpdateBayAndSequence b callsign bay s) bay' key q ↔
  key = Flight callsign ∧ bay' = bay ∧ q = s ∨ key ≠ Flight callsign ∧ placed_in b bay' key q.
Proof.
  intros Hk. destruct key as [c|i]; simpl; [|naive_solver]. rewrite list_elem_of_fmap. split.
  - intros ([c' b' s'] & E & Hin). simpl in E. destruct (str_eqb c' callsign) eqn:Ec.
    + apply str_eqb_eq in Ec. injection E as -> -> ->. left. by subst.
    + injection E as -> -> ->. right. split; [|done]. intros [= ->]. by rewrite str_eqb_refl in Ec.
  - intros [([= ->] & -> & ->)|[Hne Hin]].
    + apply list_elem_of_fmap in Hk as ([c' b' s'] & -> & Hin). exists (mk_strip_row c' b' s'). simpl. by rewrite str_eqb_refl.
    + exists (mk_strip_row c bay' (Some q)). split; [|done]. simpl. destruct (str_eqb c callsign) eqn:Ec; [|done]. apply str_eqb_eq in Ec. by subst.
Qed.

Lemma update_tactical_ok b id edit b' :
  update_tactical b id edit = Ok b' →
  known b (Tactical id) ∧ b' = mk_board (bd_strips b) ((λ row, if tr_ID row =? id then edit row else row) <$> bd_tacticals b).
Proof.
  unfold update_tactical, has_tactical. destruct (existsb _ _) eqn:E; [|done]. intros [= <-]. split; [|done].
  apply existsb_exists in E as (row & Hin & <-%Z.eqb_eq). apply list_elem_of_fmap_2, list_elem_of_In. done.
Qed.

Lemma UpdateTacticalBayAndSequence_placed b id bay s b' bay' key q :
  UpdateTacticalBayAndSequence b id bay s = Ok b' →
  placed_in b' bay' key q ↔ key = Tactical id ∧ bay' = bay ∧ q = s ∨ key ≠ Tactical id ∧ placed_in b bay' key q.
Proof.
  intros [Hk ->]%update_tactical_ok. destruct key as [c|i]; simpl; [naive_solver|]. rewrite list_elem_of_fmap. split.
  - intros ([i' b' s'] & E & Hin). simpl in E. destruct (i' =? id) eqn:Ec.
    + apply Z.eqb_eq in Ec. injection E as -> -> ->. left. by subst.
    + injection E as -> -> ->. right. split; [|done]. intros [= ->]. by rewrite Z.eqb_refl in Ec.
  - intros [([= ->] & -> & ->)|[Hne Hin]].
    + apply list_elem_of_fmap in Hk as ([i' b' s'] & -> & Hin). exists (mk_tactical_row i' b' s'). simpl. by rewrite Z.eqb_refl.
    + exists (mk_tactical_row i bay' q). split; [|done]. simpl. destruct (i =? id) eqn:Ec; [|done]. apply Z.eqb_eq in Ec. by subst.
Qed.

Lemma map_keyed b f g :
  (∀ row, sr_Callsign (f row) = sr_Callsign row) → (∀ row, tr_ID (g row) = tr_ID row) → keyed b →
  keyed (mk_board (f <$> bd_strips b) (g <$> bd_tacticals b)).
Proof.
  intros Hf Hg [H1 H2]. split; simpl; rewrite <-list_fmap_compose; [rewrite (list_fmap_ext _ sr_Callsign)|rewrite (list_fmap_ext _ tr_ID)]; try done;
    intros i x _; simpl; auto.
Qed.

(** ** Spacing a bay again *)

(** The number that a list of numbered strips gives to a row *)
Definition assigned_to (l : list entry) (key : strip_name) : option Z :=
  match List.find (λ e, bool_decide (e.1 = key)) l with Some e => Some e.2 | None => None end.

Lemma assigned_in l key n : NoDup l.*1 → (key, n) ∈ l ↔ assigned_to l key = Some n.
Proof.
  induction l as [|[k m] l IH]; simpl; [intros _; split; [by intros ?%elem_of_nil|done]|]. intros [Hk Hn]%NoDup_cons. unfold assigned_to. simpl.
  case_bool_decide as E; simpl.
  - subst. split; [|intros [= ->]; by left]. intros [[= ->]|Hin]%elem_of_cons; [done|]. destruct Hk. by apply (list_elem_of_fmap_2 fst) in Hin.
  - rewrite elem_of_cons, (IH Hn). unfold assigned_to. split; [intros [[= -> ->]|?]; [done|done]|by right].
Qed.

Lemma assigned_cons_other l k m key : k ≠ key → assigned_to ((k, m) :: l) key = assigned_to l key.
Proof. intros E. unfold assigned_to. simpl. by rewrite bool_decide_false. Qed.

Definition new_tactical (l : list entry) (row : TacticalRow) : TacticalRow :=
  match assigned_to l (Tactical (tr_ID row)) with Some n => mk_tactical_row (tr_ID row) (tr_Bay row) n | None => row end.

Lemma assigned_cons_same l key m : assigned_to ((key, m) :: l) key = Some m.
Proof. unfold assigned_to. cbn [List.find fst]. by rewrite bool_decide_true. Qed.

Definition flight_updates (l : list entry) : list (string * Z) := omap (λ e : entry, match e.1 with Flight c => Some (c, e.2) | Tactical _ => None end) l.

(** The loop writes the tactical strips and collects the flights. *)
Lemma recalculation_loop bay l : ∀ w flights w' flights',
  NoDup l.*1 → fold_outcome (recalculation_step bay) (w, flights) l = Ok (w', flights') →
  flights' = flights ++ flight_updates l ∧ bd_strips (w_board w') = bd_strips (w_board w) ∧
  bd_tacticals (w_board w') = new_tactical l <$> bd_tacticals (w_board w).
Proof.
  induction l as [|[[c|i] n] l IH]; intros w flights w' flights' Hn H; simpl in H.
  - injection H as <- <-. unfold flight_updates. simpl. rewrite app_nil_r. split_and!; [done|done|]. by rewrite list_fmap_id.
  - apply NoDup_cons in Hn as [Hk Hn]. apply (IH _ _ _ _ Hn) in H as (-> & -> & ->). rewrite <-app_assoc. split_and!; [done|done|].
    apply list_fmap_ext. intros j row _. unfold new_tactical. by rewrite assigned_cons_other.
  - apply NoDup_cons in Hn as [Hk Hn]. simpl in Hk. apply bind_ok in H as ([w1 fl1] & H1 & H). apply bind_ok in H1 as (b & Hb & H1). injection H1 as <- <-.
    apply (IH _ _ _ _ Hn) in H as (-> & -> & ->). simpl. unfold UpdateTacticalSequence in Hb.
    destruct (update_tactical _ _ _) eqn:Eu; [|done..]. simpl in Hb. injection Hb as ->. apply update_tactical_ok in Eu as [_ ->]. split_and!; [done|done|].
    simpl. rewrite <-list_fmap_compose. apply list_fmap_ext. intros j row _. simpl. unfold new_tactical. destruct (tr_ID row =? i) eqn:E.
    + apply Z.eqb_eq in E. subst i. cbn [tr_ID]. rewrite assigned_cons_same.
      destruct (assigned_to l (Tactical (tr_ID row))) eqn:Ea; [|done]. apply assigned_in in Ea; [|done]. destruct Hk. by apply (list_elem_of_fmap_2 fst) in Ea.
    + apply Z.eqb_neq in E. rewrite assigned_cons_other by congruence. done.
Qed.

Lemma find_flight_updates l c : List.find (λ u : string * Z, str_eqb u.1 c) (flight_updates l) = (λ n, (c, n)) <$> assigned_to l (Flight c).
Proof.
  induction l as [|[[d|i] n] l IH]; [done|..].
  - change (flight_updates ((Flight d, n) :: l)) with ((d, n) :: flight_updates l). cbn [List.find fst]. destruct (str_eqb d c) eqn:E.
    + apply str_eqb_eq in E. subst. by rewrite assigned_cons_same.
    + rewrite assigned_cons_other; [exact IH|]. intros [= ->]. by rewrite str_eqb_refl in E.
  - change (flight_updates ((Tactical i, n) :: l)) with (flight_updates l). by rewrite assigned_cons_other.
Qed.

Lemma new_sequence_nil (rows : list StripRow) : new_sequence [] <$> rows = rows.
Proof. unfold new_sequence. simpl. apply list_fmap_id. Qed.

(** The board after a bay was spaced again, as numbered by [l] *)
Definition renumbered_board (l : list entry) (b : board) : board :=
  mk_board (new_sequence (flight_updates l) <$> bd_strips b) (new_tactical l <$> bd_tacticals b).

Lemma recalculated w bay w' :
  let l := renumbered 0 (sorted_entries (w_board w) bay) in
  NoDup l.*1 → recalculateAllStripSequences w bay = Ok w' → w_board w' = renumbered_board l (w_board w).
Proof.
  cbv zeta. intros Hn. unfold recalculateAllStripSequences. intros ([w1 flights] & H1 & H)%bind_ok.
  apply recalculation_loop in H1 as (E & E1 & E2); [|done]. simpl in E. subst flights. unfold renumbered_board.
  destruct (flight_updates _) as [|u l] eqn:Ef; injection H as <-.
  - rewrite new_sequence_nil. destruct (w_board w1). simpl in *. by subst.
  - simpl. unfold UpdateSequenceBulk. by rewrite E1, E2.
Qed.

Lemma renumbered_placed l b bay key q :
  placed_in (renumbered_board l b) bay key q ↔
  match assigned_to l key with
  | Some n => q = n ∧ match key with Flight c => ∃ o, mk_strip_row c bay o ∈ bd_strips b | Tactical i => ∃ o, mk_tactical_row i bay o ∈ bd_tacticals b end
  | None => placed_in b bay key q
  end.
Proof.
  destruct key as [c|i]; simpl; rewrite list_elem_of_fmap.
  - split.
    + intros ([c' b' o] & E & Hin). unfold new_sequence in E. simpl in E. rewrite find_flight_updates in E.
      destruct (assigned_to l (Flight c')) eqn:Ea; simpl in E.
      * injection E as -> -> ->. rewrite Ea. eauto.
      * injection E as -> -> ->. by rewrite Ea.
    + destruct (assigned_to l (Flight c)) as [n|] eqn:Ea.
      * intros (-> & o & Hin). exists (mk_strip_row c bay o). split; [|done]. unfold new_sequence. simpl. by rewrite find_flight_updates, Ea.
      * intros Hin. exists (mk_strip_row c bay (Some q)). split; [|done]. unfold new_sequence. simpl. by rewrite find_flight_updates, Ea.
  - split.
    + intros ([i' b' o] & E & Hin). unfold new_tactical in E. simpl in E. destruct (assigned_to l (Tactical i')) eqn:Ea.
      * injection E as -> -> ->. rewrite Ea. eauto.
      * injection E as -> -> ->. by rewrite Ea.
    + destruct (assigned_to l (Tactical i)) as [n|] eqn:Ea.
      * intros (-> & o & Hin). exists (mk_tactical_row i bay o). split; [|done]. unfold new_tactical. simpl. by rewrite Ea.
      * intros Hin. exists (mk_tactical_row i bay q). split; [|done]. unfold new_tactical. simpl. by rewrite Ea.
Qed.

(** ** The order of the numbers *)

Lemma sorted_entries_in b bay key q : (key, q) ∈ sorted_entries b bay ↔ placed_in b bay key q.
Proof.
  unfold sorted_entries. rewrite elem_of_sort_slice, elem_of_app. unfold flight_entries, tactical_entries. rewrite list_elem_of_omap, list_elem_of_fmap. split.
  - intros [([c b' o] & Hin & Ho)|([i b' o] & [= -> ->] & Hin)]; unfold ListSequences, ListBaySequences in Hin;
      apply elem_of_sort_slice, list_elem_of_filter in Hin as [Hb%str_eqb_eq Hin]; simpl in *; subst b'; [|done].
    apply fmap_Some in Ho as (s & -> & [= -> ->]). done.
  - destruct key as [c|i]; simpl; intros Hin; [left; exists (mk_strip_row c bay (Some q))|right; exists (mk_tactical_row i bay q)];
      unfold ListSequences, ListBaySequences; rewrite elem_of_sort_slice, list_elem_of_filter; unfold in_bay, tactical_in_bay; simpl; by rewrite str_eqb_refl.
Qed.

Lemma omap_keys (rows : list StripRow) : NoDup (sr_Callsign <$> rows) → NoDup (flight_entries rows).*1.
Proof.
  unfold flight_entries. induction rows as [|[c b [s|]] rows IH]; simpl; [intros _; constructor|..]; intros [Hc Hn]%NoDup_cons; [|by apply IH].
  apply NoDup_cons. split; [|by apply IH]. intros ([k m] & E & Hin)%list_elem_of_fmap. simpl in E. subst k.
  apply list_elem_of_omap in Hin as ([c' b' o] & Hin & Ho). apply fmap_Some in Ho as (? & _ & [= -> ->]). destruct Hc. by apply (list_elem_of_fmap_2 sr_Callsign) in Hin.
Qed.

Lemma NoDup_sorted_rows {A B} (f : A → B) less P `{∀ x, base.Decision (P x)} (l : list A) : NoDup (f <$> l) → NoDup (f <$> sort_slice less (filter P l)).
Proof. intros Hn. rewrite sort_slice_perm. by apply NoDup_fmap_filter. Qed.

Lemma sorted_entries_keys b bay : keyed b → NoDup (sorted_entries b bay).*1.
Proof.
  intros [H1 H2]. unfold sorted_entries. rewrite sort_slice_perm, fmap_app. apply NoDup_app. split_and!.
  - by apply omap_keys, NoDup_sorted_rows.
  - intros k ([k1 q1] & -> & H)%list_elem_of_fmap ([k2 q2] & E & H')%list_elem_of_fmap. simpl in E. subst k2.
    apply list_elem_of_omap in H as (row & _ & Ho). apply fmap_Some in Ho as (? & _ & [= -> ->]). by apply list_elem_of_fmap in H' as (? & [= ?] & _).
  - unfold tactical_entries. rewrite <-list_fmap_compose. rewrite (list_fmap_ext _ (Tactical ∘ tr_ID)) by done. rewrite list_fmap_compose.
    apply NoDup_fmap_2; [by intros ?? [=]|]. by apply NoDup_sorted_rows.
Qed.

Lemma renumbered_keys es i : (renumbered i es).*1 = es.*1.
Proof. revert i. induction es as [|[k q] es IH]; intros i; simpl; [done|]. by rewrite IH. Qed.

Lemma renumbered_lookup es i j key n :
  0 ≤ i → (i + Z.of_nat (List.length es)) * 1000 < 2^31 →
  renumbered i es !! j = Some (key, n) ↔ (∃ q, es !! j = Some (key, q)) ∧ n = (i + Z.of_nat j + 1) * 1000.
Proof.
  revert i j. induction es as [|[k q] es IH]; intros i j Hi Hlen; simpl; [split; [done|by intros [[? ?] _]]|].
  cbn [List.length] in Hlen. destruct j as [|j]; simpl.
  - unfold InitialOrderSpacing. rewrite wrap64_id by (unfold in_int64; lia). rewrite wrap32_id by lia. split.
    + intros [= -> <-]. split; [by eexists|lia].
    + intros [[? [= -> _]] ->]. do 2 f_equal. lia.
  - rewrite IH by lia. replace (i + 1 + Z.of_nat j + 1) with (i + Z.of_nat (S j) + 1) by lia. done.
Qed.

(** The numbers of a bay fit. *)
Definition spaceable (b : board) (bay : string) : Prop := Z.of_nat (List.length (sorted_entries b bay)) * 1000 < 2^31.

Lemma recalculation_placed w bay w' bay' key q' :
  let b := w_board w in keyed b → spaceable b bay → recalculateAllStripSequences w bay = Ok w' →
  placed_in (w_board w') bay' key q' ↔
  (if decide (bay' = bay) then ∃ j q, sorted_entries b bay !! j = Some (key, q) ∧ q' = (Z.of_nat j + 1) * 1000 else placed_in b bay' key q').
Proof.
  intros b Hk Hs Hr. subst b. set (es := sorted_entries (w_board w) bay) in *.
  assert (Hn : NoDup (renumbered 0 es).*1) by (rewrite renumbered_keys; by apply sorted_entries_keys).
  rewrite (recalculated _ _ _ Hn Hr), renumbered_placed. fold es.
  assert (Hin : ∀ n, (key, n) ∈ renumbered 0 es ↔ ∃ j q, es !! j = Some (key, q) ∧ n = (Z.of_nat j + 1) * 1000).
  { intros n. rewrite list_elem_of_lookup. split.
    - intros (j & Hj). apply renumbered_lookup in Hj as [[q Hq] ->]; [|lia|exact Hs]. exists j, q. split; [done|lia].
    - intros (j & q & Hq & ->). exists j. apply renumbered_lookup; [lia|exact Hs|]. split; [by exists q|lia]. }
  assert (Hrow : ∀ j q, es !! j = Some (key, q) → placed_in (w_board w) bay key q).
  { intros j q Hj. apply sorted_entries_in. by eapply list_elem_of_lookup_2. }
  destruct (assigned_to (renumbered 0 es) key) as [n|] eqn:Ea.
  - apply assigned_in in Ea; [|done]. pose proof (proj1 (Hin n) Ea) as (j & q & Hj & En). pose proof (Hrow j q Hj) as Hp. destruct (decide (bay' = bay)) as [-> |Hne].
    + split.
      * intros [-> _]. by exists j, q.
      * intros Hq'. apply Hin, assigned_in in Hq'; [|done]. apply assigned_in in Ea; [|done]. split; [congruence|]. destruct key; eauto.
    + split; [|intros Hp'; by destruct (placed_unique _ _ _ _ _ _ Hk Hp' Hp)]. intros [_ Ho]. exfalso. apply Hne.
      destruct key as [c|i], Ho as [o Ho], Hk as [K1 K2]; [pose proof (NoDup_key _ _ _ _ K1 Ho Hp eq_refl)|pose proof (NoDup_key _ _ _ _ K2 Ho Hp eq_refl)]; by simplify_eq.
  - destruct (decide (bay' = bay)) as [-> |Hne]; [|done].
    assert (Hnot : ∀ j q, es !! j = Some (key, q) → False).
    { intros j q Hj. assert (H : (key, (Z.of_nat j + 1) * 1000) ∈ renumbered 0 es) by (apply Hin; by exists j, q). apply assigned_in in H; [congruence|done]. }
    split; [|intros (j & q & Hj & _); by destruct (Hnot j q)].
    intros Hp. exfalso. apply sorted_entries_in, list_elem_of_lookup in Hp as [j Hj]. by eapply Hnot.
Qed.

Lemma sorted_entries_mono b bay i j x y :
  sorted_entries b bay !! i = Some x → sorted_entries b bay !! j = Some y → x.2 < y.2 → (i < j)%nat.
Proof.
  intros Hi Hj Hlt. destruct (decide (i < j)%nat) as [|Hge]; [done|exfalso].
  destruct (decide (i = j)) as [-> |Hne]; [assert (x = y) as -> by congruence; lia|].
  pose proof (sort_slice_key (λ x y : entry, x.2 <? y.2) (λ e : entry, e.2) (flight_entries (ListSequences b bay) ++ tactical_entries (ListBaySequences b bay))) as Hc.
  assert (H : y.2 ≤ x.2); [|lia].
  refine (chain_trans_lookup (λ a b : entry, a.2 ≤ b.2) (sorted_entries b bay) j i y x _ (Hc _ _) _ Hj Hi).
  - intros a c d. lia.
  - intros a c E%Z.ltb_lt. lia.
  - intros a c E. by apply Z.ltb_lt.
  - lia.
Qed.

(** Spacing a bay again does not fail. *)
Lemma recalculation_ok w bay : ∃ w', recalculateAllStripSequences w bay = Ok w'.
Proof.
  unfold recalculateAllStripSequences.
  assert (H : ∀ l w flights, (∀ i n, (Tactical i, n) ∈ l → known (w_board w) (Tactical i)) →
    ∃ w' flights', fold_outcome (recalculation_step bay) (w, flights) l = Ok (w', flights')).
  { clear w. induction l as [|[[c|i] n] l IH]; intros w flights Hl; simpl; [by eexists _, _|apply IH; intros; eapply Hl; by right|].
    pose proof (Hl i n (list_elem_of_here _ _)) as Hi. unfold UpdateTacticalSequence, update_tactical, has_tactical.
    assert (E : existsb (λ row, tr_ID row =? i) (bd_tacticals (w_board w)) = true).
    { apply existsb_exists. apply list_elem_of_fmap in Hi as (row & -> & Hin). exists row. split; [by apply list_elem_of_In|apply Z.eqb_refl]. }
    rewrite E. simpl. apply IH. intros i' n' Hin. specialize (Hl i' n' ltac:(by right)). simpl in *. rewrite <-list_fmap_compose.
    rewrite (list_fmap_ext _ tr_ID); [done|]. intros j row _. simpl. by destruct (tr_ID row =? i). }
  destruct (H (renumbered 0 (sorted_entries (w_board w) bay)) w []) as (w' & flights & E).
  - intros i n Hin. apply (list_elem_of_fmap_2 fst) in Hin. rewrite renumbered_keys in Hin. simpl in Hin.
    apply list_elem_of_fmap in Hin as ([k q] & E & Hin). simpl in E. subst k. apply sorted_entries_in in Hin. simpl in Hin. by apply (list_elem_of_fmap_2 tr_ID) in Hin.
  - rewrite E. simpl. destruct flights; by eexists.
Qed.
