(* ===== verification/StripOrderSafety.v ===== *)
(** * Theorems about the order of the strips in a bay

    Of [StripOrdering]: a strip that is dropped where there is room lies directly
    behind the strip it was dropped behind; where there is no room it becomes the
    first of its bay; and the numbers of every reachable board are distinct within
    a bay and in range. *)

From S2P Require Import Prelude GoTime Bays StripOrdering StripRenumber.
From Stdlib Require Import Strings.Ascii Strings.String.

Local Open Scope Z_scope.

(** ** Moving a strip *)

(** What follows a move does not touch the order. *)
Lemma after_move_board SetStatus Reset reevaluate w callsign previousBay bay strip w' :
  after_move SetStatus Reset reevaluate w callsign previousBay bay strip = Ok w' → w_board w' = w_board w.
Proof.
  unfold after_move. intros (updated & _ & H)%bind_ok. destruct (landingClearanceValidationRelevantBay bay).
  - apply bind_ok in H as (_ & _ & [= <-]). by destruct updated.
  - injection H as <-. by destruct updated.
Qed.

(** A strip is dropped by one of the two handlers, a flight whose board is not
    shared with other tools. *)
Inductive dropped (insertAfter : option StripRef) (bay : string) : world → strip_name → world → Prop :=
| dropped_flight getCachedStrip reorderBoardStrip Acknowledge SetStatus Reset reevaluate w callsign strip w' :
    known (w_board w) (Flight callsign) →
    getStripForMoveToBay getCachedStrip callsign = Ok strip → (mv_BoardState <$> strip) ≠ Some true →
    MoveStripBetween getCachedStrip reorderBoardStrip Acknowledge SetStatus Reset reevaluate w callsign insertAfter bay = Ok w' →
    dropped insertAfter bay w (Flight callsign) w'
| dropped_tactical w id w' : MoveTacticalStripBetween w id insertAfter bay = Ok w' → dropped insertAfter bay w (Tactical id) w'.

(** The board with the strip written to the bay, before any spacing *)
Definition written (b : board) (key : strip_name) (bay : string) (s : Z) (b' : board) : Prop :=
  (keyed b → keyed b') ∧
  (∀ k, known b' k ↔ known b k) ∧ List.length (bd_strips b') = List.length (bd_strips b) ∧ List.length (bd_tacticals b') = List.length (bd_tacticals b) ∧
  ∀ bay' k q, placed_in b' bay' k q ↔ k = key ∧ bay' = bay ∧ q = s ∨ k ≠ key ∧ placed_in b bay' k q.

Lemma written_flight b callsign bay s : known b (Flight callsign) → written b (Flight callsign) bay s (UpdateBayAndSequence b callsign bay s).
Proof.
  intros Hk. assert (E : ∀ row, sr_Callsign (if str_eqb (sr_Callsign row) callsign then mk_strip_row (sr_Callsign row) bay (Some s) else row) = sr_Callsign row)
    by (intros row; by destruct (str_eqb _ _)).
  split_and!.
  - intros Hb. unfold UpdateBayAndSequence. rewrite <-(list_fmap_id (bd_tacticals b)). apply map_keyed; [done|done|exact Hb].
  - intros [c|i]; simpl; [|done]. by rewrite <-list_fmap_compose, (list_fmap_ext _ sr_Callsign (bd_strips b)) by (intros; apply E).
  - simpl. apply length_fmap.
  - done.
  - intros. by apply UpdateBayAndSequence_placed.
Qed.

Lemma written_tactical b id bay s b' : UpdateTacticalBayAndSequence b id bay s = Ok b' → written b (Tactical id) bay s b'.
Proof.
  intros H. pose proof (update_tactical_ok _ _ _ _ H) as [Hk E].
  assert (Ei : ∀ row, tr_ID (if tr_ID row =? id then mk_tactical_row (tr_ID row) bay s else row) = tr_ID row) by (intros row; by destruct (_ =? _)).
  split_and!.
  - intros Hb. rewrite E. rewrite <-(list_fmap_id (bd_strips b)) at 1. apply map_keyed; [done|done|exact Hb].
  - rewrite E. intros [c|i]; simpl; [done|]. by rewrite <-list_fmap_compose, (list_fmap_ext _ tr_ID (bd_tacticals b)) by (intros; apply Ei).
  - by rewrite E.
  - rewrite E. apply length_fmap.
  - intros. by apply UpdateTacticalBayAndSequence_placed.
Qed.

(** Both handlers write the number between the neighbours, or space the bay
    again after they wrote [0]. *)
Lemma dropped_steps insertAfter bay w key w' :
  dropped insertAfter bay w key w' →
  ∃ prev s needsRecalc w1, resolveRefSequence (w_board w) bay insertAfter = Ok prev ∧
    calculateOrderBetween prev (GetNextSequenceUnified (w_board w) bay prev) = (s, needsRecalc) ∧
    written (w_board w) key bay s (w_board w1) ∧
    if needsRecalc : bool then ∃ w2, recalculateAllStripSequences w1 bay = Ok w2 ∧ w_board w' = w_board w2 else w_board w' = w_board w1.
Proof.
  intros [cached reorder Ack SetStatus Reset reevaluate w0 callsign strip w1 Hk Hs Hb H|w0 id w1 H].
  - unfold MoveStripBetween in H. rewrite Hs in H. simpl in H. replace (match strip with Some _ => _ | None => _ end) with false in H
      by (destruct strip as [[? [] ?]|]; [by destruct Hb|done|done]).
    apply bind_ok in H as (prev & Hp & H). destruct (resolveRefSequence _ _ _) eqn:Er; simplify_eq/=.
    destruct (calculateOrderBetween _ _) as [s needsRecalc] eqn:Ec. exists prev, s, needsRecalc. destruct needsRecalc.
    + apply bind_ok in H as (_ & _ & H). apply bind_ok in H as (w2 & Hr & H). apply after_move_board in H.
      eexists. split_and!; [done|done| |by exists w2]. simpl. by apply written_flight.
    + apply bind_ok in H as (_ & _ & H). apply after_move_board in H. eexists. split_and!; [done|done| |exact H]. simpl. by apply written_flight.
  - unfold MoveTacticalStripBetween in H. apply bind_ok in H as (prev & Hp & H). destruct (resolveRefSequence _ _ _) eqn:Er; simplify_eq/=.
    destruct (calculateOrderBetween _ _) as [s needsRecalc] eqn:Ec. apply bind_ok in H as (b & Hb & H).
    destruct (UpdateTacticalBayAndSequence _ _ _ _) eqn:Eu; simplify_eq/=. exists prev, s, needsRecalc, (set_board b w0).
    split_and!; [done|done|by apply written_tactical|]. destruct needsRecalc; [by exists w1|]. by injection H as <-.
Qed.

(** ** Boards whose numbers are in order *)

Definition rows (b : board) : Z := Z.of_nat (List.length (bd_strips b) + List.length (bd_tacticals b)).

(** After [n] operations *)
Record orderly (n : Z) (b : board) : Prop := mk_orderly {
  or_keyed : keyed b;
  or_rows : rows b ≤ n;
  or_range : ∀ bay key q, placed_in b bay key q → 0 < q ≤ 1000 * n;
  or_distinct : ∀ bay key key' q, placed_in b bay key q → placed_in b bay key' q → key = key' }.

(** So many operations that no number of the board is near the end of its type *)
Definition enough : Z := 2147480.

Lemma flight_entries_length l : (List.length (flight_entries l) ≤ List.length l)%nat.
Proof. induction l as [|[c b [s|]] l IH]; cbn [flight_entries omap list_omap fmap option_fmap option_map sr_Sequence List.length] in *; unfold flight_entries in *; simpl in *; lia. Qed.

Lemma entries_le_rows b bay : Z.of_nat (List.length (sorted_entries b bay)) ≤ rows b.
Proof.
  unfold sorted_entries, rows. rewrite sort_slice_perm, length_app. unfold tactical_entries. rewrite length_fmap.
  pose proof (flight_entries_length (ListSequences b bay)). unfold ListSequences, ListBaySequences in *.
  pose proof (Permutation_length (sort_slice_perm tactical_row_less (filter (λ row, tactical_in_bay bay row = true) (bd_tacticals b)))).
  pose proof (Permutation_length (sort_slice_perm strip_row_less (filter (λ row, in_bay bay row = true) (bd_strips b)))).
  pose proof (length_filter (λ row, in_bay bay row = true) (bd_strips b)). pose proof (length_filter (λ row, tactical_in_bay bay row = true) (bd_tacticals b)). lia.
Qed.

(** The strip that a reference names, wherever it is *)
Lemma resolved b bay insertAfter prev :
  resolveRefSequence b bay insertAfter = Ok prev → insertAfter = None ∧ prev = 0 ∨ ∃ bay' key, placed_in b bay' key prev.
Proof.
  unfold resolveRefSequence. destruct insertAfter as [[kind [c|] i]|]; simpl; [| |intros [= <-]; by left]; destruct (str_eqb _ _); try done.
  - unfold GetSequence. destruct (List.find _ _) as [[c' b' [s|]]|] eqn:E; try done. intros [= <-]. right. exists b', (Flight c').
    by apply find_some in E as [?%list_elem_of_In _].
  - destruct (str_eqb _ _); [|done]. destruct i as [i|]; [|done]. unfold GetSequenceByID. destruct (List.find _ _) as [[i' b' s]|] eqn:E; [|done].
    intros [= <-]. right. exists b', (Tactical i'). by apply find_some in E as [?%list_elem_of_In _].
  - destruct (str_eqb _ _); [|done]. destruct i as [i|]; [|done]. unfold GetSequenceByID. destruct (List.find _ _) as [[i' b' s]|] eqn:E; [|done].
    intros [= <-]. right. exists b', (Tactical i'). by apply find_some in E as [?%list_elem_of_In _].
Qed.

Lemma resolved_range n b bay insertAfter prev : orderly n b → 0 ≤ n → resolveRefSequence b bay insertAfter = Ok prev → 0 ≤ prev ≤ 1000 * n.
Proof. intros Ho Hn [[_ ->]|(bay' & key & H)]%resolved; [lia|]. apply (or_range _ _ Ho) in H. lia. Qed.

Lemma next_range n b bay prev next : orderly n b → n ≤ enough → GetNextSequenceUnified b bay prev = Some next → prev < next < 2^31.
Proof.
  intros Ho Hn H. pose proof (next_least b bay prev) as Hl. rewrite H in Hl. destruct Hl as (H1 & (key & H2) & _).
  apply (or_range _ _ Ho) in H2. unfold enough in Hn. lia.
Qed.

(** There is room behind a number unless one of the next five is taken. *)
Definition room (b : board) (bay : string) (prev : Z) : Prop := ∀ key q, placed_in b bay key q → prev < q → prev + 5 < q.

Lemma room_iff n b bay prev s needsRecalc :
  orderly n b → n ≤ enough → 0 ≤ prev → calculateOrderBetween prev (GetNextSequenceUnified b bay prev) = (s, needsRecalc) →
  room b bay prev ↔ needsRecalc = false.
Proof.
  intros Ho Hn Hp. unfold calculateOrderBetween. pose proof (next_least b bay prev) as Hl. destruct (GetNextSequenceUnified _ _ _) as [next|] eqn:E.
  - pose proof (next_range _ _ _ _ _ Ho Hn E). destruct Hl as (H1 & (key & H2) & H3). rewrite (wrap32_id (next - prev)) by lia. unfold MinOrderGap.
    destruct (_ <=? 5) eqn:Eg; intros [= _ <-].
    + apply Z.leb_le in Eg. split; [|done]. intros Hr. specialize (Hr key next H2 H1). lia.
    + apply Z.leb_gt in Eg. split; [done|]. intros _ k q Hq Hlt. specialize (H3 k q Hq Hlt). lia.
  - intros [= _ <-]. split; [done|]. intros _ k q Hq Hlt. specialize (Hl k q Hq). lia.
Qed.

(** Writing a free number keeps the order. *)
Lemma written_orderly n m b key bay s b' :
  orderly n b → n ≤ m → 0 < s ≤ 1000 * m → (∀ k, placed_in b bay k s → k = key) → written b key bay s b' → orderly m b'.
Proof.
  intros [K R B D] Hm Hs Hfree (Hk & _ & L1 & L2 & Hw). split.
  - by apply Hk.
  - unfold rows in *. rewrite L1, L2. lia.
  - intros bay' k q [(_ & _ & ->)|[_ H]]%Hw; [done|]. apply B in H. lia.
  - intros bay' k k' q [(-> & -> & ->)|[Hne H]]%Hw [(-> & E & E')|[Hne' H']]%Hw; try done.
    + by destruct (Hne' (Hfree _ H')).
    + subst. by destruct (Hne (Hfree _ H)).
    + by eapply D.
Qed.

(** Spacing again changes numbers only. *)
Lemma recalculation_keeps w bay w' :
  keyed (w_board w) → recalculateAllStripSequences w bay = Ok w' →
  keyed (w_board w') ∧ rows (w_board w') = rows (w_board w) ∧ ∀ k, known (w_board w') k ↔ known (w_board w) k.
Proof.
  intros Hk Hr. assert (Hn : NoDup (renumbered 0 (sorted_entries (w_board w) bay)).*1) by (rewrite renumbered_keys; by apply sorted_entries_keys).
  rewrite (recalculated _ _ _ Hn Hr). set (l := renumbered 0 _).
  assert (Ef : ∀ row, sr_Callsign (new_sequence (flight_updates l) row) = sr_Callsign row) by (intros row; unfold new_sequence; by destruct (List.find _ _)).
  assert (Et : ∀ row, tr_ID (new_tactical l row) = tr_ID row) by (intros row; unfold new_tactical; by destruct (assigned_to _ _)).
  split_and!.
  - by apply map_keyed.
  - unfold rows, renumbered_board. simpl. by rewrite !length_fmap.
  - intros [c|i]; simpl; rewrite <-list_fmap_compose; [rewrite (list_fmap_ext _ sr_Callsign (bd_strips (w_board w))) by (intros; apply Ef)|rewrite (list_fmap_ext _ tr_ID (bd_tacticals (w_board w))) by (intros; apply Et)]; done.
Qed.

(** Spacing again puts a bay in order, whatever was in it. *)
Lemma spaced_orderly n b w1 bay w2 :
  keyed (w_board w1) → rows (w_board w1) ≤ n → n ≤ enough → orderly n b →
  (∀ bay' k q, bay' ≠ bay → placed_in (w_board w1) bay' k q → placed_in b bay' k q) →
  recalculateAllStripSequences w1 bay = Ok w2 → orderly n (w_board w2).
Proof.
  intros Hk Hr Hn Ho Hother Hrec. destruct (recalculation_keeps _ _ _ Hk Hrec) as (Hk2 & Hr2 & _).
  assert (Hs : spaceable (w_board w1) bay) by (unfold spaceable; pose proof (entries_le_rows (w_board w1) bay); unfold enough in Hn; lia).
  assert (Hp := λ bay' key q, recalculation_placed w1 bay w2 bay' key q Hk Hs Hrec). split; [done|lia|..].
  - intros bay' k q H%Hp. destruct (decide (bay' = bay)) as [-> |Hne]; [|by eapply or_range, Hother]. destruct H as (j & q0 & Hj & ->).
    apply lookup_lt_Some in Hj. pose proof (entries_le_rows (w_board w1) bay). unfold StripOrdering.entry in *. lia.
  - intros bay' k k' q H%Hp H'%Hp. destruct (decide (bay' = bay)) as [-> |Hne]; [|by eapply or_distinct; [exact Ho|eapply Hother..]].
    destruct H as (j & q0 & Hj & ->), H' as (j' & q0' & Hj' & E). assert (j = j') as -> by lia. congruence.
Qed.

Lemma orderly_mono n m b : orderly n b → n ≤ m → orderly m b.
Proof. intros [K R B D] Hm. split; [done|lia| |done]. intros bay k q Hq. specialize (B bay k q Hq). lia. Qed.

(** The number written between the neighbours is free, and only the next number is above it. *)
Lemma between_free n b bay prev s :
  orderly n b → 0 ≤ n ≤ enough → 0 ≤ prev ≤ 1000 * n → calculateOrderBetween prev (GetNextSequenceUnified b bay prev) = (s, false) →
  prev < s ≤ 1000 * (n + 1) ∧ ∀ k q, placed_in b bay k q → q ≤ prev ∨ s < q.
Proof.
  intros Ho Hn Hp Hc. unfold enough in Hn. pose proof (next_least b bay prev) as Hl.
  destruct (between prev (GetNextSequenceUnified b bay prev) s) as [H1 H2]; [unfold in_range; lia| |done|].
  { intros next E. apply (next_range n b bay); [done|unfold enough; lia|done]. }
  destruct (GetNextSequenceUnified b bay prev) as [next|].
  - destruct Hl as (_ & (key & Hk) & Hl). apply (or_range _ _ Ho) in Hk. split; [lia|]. intros k q Hq. specialize (Hl k q Hq).
    destruct (decide (prev < q)); [right; specialize (Hl ltac:(done)); lia|left; lia].
  - split; [lia|]. intros k q Hq. left. by eapply Hl.
Qed.

Lemma dropped_orderly n insertAfter bay w key w' :
  orderly n (w_board w) → 0 ≤ n < enough → dropped insertAfter bay w key w' → orderly (n + 1) (w_board w').
Proof.
  intros Ho Hn (prev & s & needsRecalc & w1 & Hr & Hc & Hw & H)%dropped_steps.
  pose proof (resolved_range _ _ _ _ _ Ho ltac:(lia) Hr) as Hp. destruct needsRecalc.
  - destruct H as (w2 & Hrec & ->). destruct Hw as (Hk & _ & L1 & L2 & Hw). pose proof (or_rows _ _ Ho). unfold rows in *.
    apply (spaced_orderly (n + 1) (w_board w) w1 bay w2).
    + by apply Hk, Ho.
    + unfold rows. rewrite L1, L2. lia.
    + lia.
    + eapply orderly_mono; [exact Ho|lia].
    + intros bay' k q Hne [(_ & -> & _)|[_ ?]]%Hw; done.
    + done.
  - rewrite H. destruct (between_free n (w_board w) bay prev s Ho ltac:(lia) Hp Hc) as [Hs Hfree].
    apply (written_orderly n (n + 1) (w_board w) key bay s); [done|lia|lia| |done]. intros k Hin. destruct (Hfree k s Hin) as [?|?]; lia.
Qed.

(** ** Reachable boards *)

(** A session: strips come, at the end of a bay or without a number, are appended
    to a bay, are dropped behind one another, and go. *)
Inductive session_step (b : board) : board → Prop :=
| step_flight_created callsign bay o :
    callsign ∉ sr_Callsign <$> bd_strips b → (∀ s, o = Some s → s = wrap32 (GetMaxSequenceInBayUnified b bay + InitialOrderSpacing)) →
    session_step b (mk_board (bd_strips b ++ [mk_strip_row callsign bay o]) (bd_tacticals b))
| step_tactical_created id bay : id ∉ tr_ID <$> bd_tacticals b → session_step b (CreateAtEndOfBay b id bay InitialOrderSpacing)
| step_appended callsign bay b' s : AppendToBay b callsign bay InitialOrderSpacing = Ok (b', s) → session_step b b'
| step_dropped insertAfter bay w key w' : dropped insertAfter bay w key w' → w_board w = b → session_step b (w_board w')
| step_flight_removed callsign : session_step b (mk_board (filter (λ row, sr_Callsign row ≠ callsign) (bd_strips b)) (bd_tacticals b))
| step_tactical_removed id : session_step b (mk_board (bd_strips b) (filter (λ row, tr_ID row ≠ id) (bd_tacticals b))).

Inductive reachable : Z → board → Prop :=
| reachable_empty : reachable 0 (mk_board [] [])
| reachable_step n b b' : reachable n b → session_step b b' → reachable (n + 1) b'.

Lemma reachable_count n b : reachable n b → 0 ≤ n.
Proof. induction 1; lia. Qed.

(** The number at the end of a bay *)
Lemma end_of_bay n b bay :
  orderly n b → 0 ≤ n < enough → let s := wrap32 (GetMaxSequenceInBayUnified b bay + InitialOrderSpacing) in
  0 < s ≤ 1000 * (n + 1) ∧ ∀ k q, placed_in b bay k q → q < s.
Proof.
  intros Ho Hn. cbv zeta. unfold enough, InitialOrderSpacing in *.
  assert (H : 0 ≤ GetMaxSequenceInBayUnified b bay ≤ 1000 * n) by (apply max_le; [lia|]; intros key q ?%(or_range _ _ Ho); lia).
  rewrite wrap32_id by lia. split; [lia|]. intros k q ?%max_ge. lia.
Qed.

(** A row that comes with a new key *)
Lemma added_orderly n b b' bay s key :
  orderly n b → 0 < s ≤ 1000 * (n + 1) → keyed b' → rows b' = rows b + 1 → (∀ k q, placed_in b bay k q → q < s) →
  (∀ bay' k q, placed_in b' bay' k q → placed_in b bay' k q ∨ bay' = bay ∧ k = key ∧ q = s) → orderly (n + 1) b'.
Proof.
  intros [K R B D] Hs Hk Hr Hend H. split; [done|lia|..].
  - intros bay' k q [?%B|(_ & _ & ->)]%H; lia.
  - intros bay' k k' q [H1|(-> & -> & ->)]%H [H2|(E & -> & E')]%H; [by eapply D|subst|apply Hend in H2; lia|done]. apply Hend in H1. lia.
Qed.

Lemma removed_orderly n b b' : orderly n b → keyed b' → rows b' ≤ rows b → (∀ bay k q, placed_in b' bay k q → placed_in b bay k q) → orderly (n + 1) b'.
Proof.
  intros [K R B D] Hk Hr H. split; [done|lia|..].
  - intros bay k q ?%H%B. lia.
  - intros bay k k' q H1%H H2%H. by eapply D.
Qed.

Lemma NoDup_snoc {A} (l : list A) x : NoDup l → x ∉ l → NoDup (l ++ [x]).
Proof. intros H1 H2. apply NoDup_app. split_and!; [done| |apply NoDup_singleton]. by intros y Hy ->%list_elem_of_singleton. Qed.

Lemma session_step_orderly n b b' : orderly n b → 0 ≤ n < enough → session_step b b' → orderly (n + 1) b'.
Proof.
  intros Ho Hn [callsign bay o Hf Hs|id bay Hf|callsign bay b1 s H|insertAfter bay w key w' H E|callsign|id].
  - destruct (end_of_bay _ _ bay Ho Hn) as [H1 H2]. destruct (or_keyed _ _ Ho) as [K1 K2].
    apply (added_orderly n b _ bay _ (Flight callsign) Ho H1); [|unfold rows; simpl; rewrite length_app; simpl; lia|done|].
    + split; simpl; [|done]. rewrite fmap_app. by apply NoDup_snoc.
    + intros bay' [c|i] q; simpl; [|by left]. rewrite elem_of_app, list_elem_of_singleton. intros [?|[= -> -> <-]]; [by left|right]. by rewrite <-(Hs q).
  - destruct (end_of_bay _ _ bay Ho Hn) as [H1 H2]. destruct (or_keyed _ _ Ho) as [K1 K2].
    apply (added_orderly n b _ bay _ (Tactical id) Ho H1); [|unfold rows; simpl; rewrite length_app; simpl; lia|done|].
    + split; simpl; [done|]. rewrite fmap_app. by apply NoDup_snoc.
    + intros bay' [c|i] q; simpl; [by left|]. rewrite elem_of_app, list_elem_of_singleton. intros [?|[= -> -> ->]]; [by left|by right].
  - unfold AppendToBay in H. destruct (existsb _ _) eqn:Ex; [|done]. injection H as <- <-. destruct (end_of_bay _ _ bay Ho Hn) as [H1 H2].
    apply (written_orderly n (n + 1) b (Flight callsign) bay _ _ Ho ltac:(lia) H1); [intros k Hk; apply H2 in Hk; lia|]. apply written_flight.
    simpl. apply existsb_exists in Ex as (row & Hin & <-%str_eqb_eq). by apply list_elem_of_fmap_2, list_elem_of_In.
  - subst b. by eapply dropped_orderly.
  - destruct (or_keyed _ _ Ho) as [K1 K2]. apply (removed_orderly n b _ Ho).
    + split; [by apply NoDup_fmap_filter|done].
    + unfold rows. simpl. pose proof (length_filter (λ row, sr_Callsign row ≠ callsign) (bd_strips b)). lia.
    + intros bay' [c|i] q; simpl; [|done]. by intros [_ ?]%list_elem_of_filter.
  - destruct (or_keyed _ _ Ho) as [K1 K2]. apply (removed_orderly n b _ Ho).
    + split; [done|by apply NoDup_fmap_filter].
    + unfold rows. simpl. pose proof (length_filter (λ row, tr_ID row ≠ id) (bd_tacticals b)). lia.
    + intros bay' [c|i] q; simpl; [done|]. by intros [_ ?]%list_elem_of_filter.
Qed.

(** The only number that is not positive comes first. *)
Lemma lowest_first b bay key :
  keyed b → placed_in b bay key 0 → (∀ k q, placed_in b bay k q → k ≠ key → 0 < q) → sorted_entries b bay !! 0%nat = Some (key, 0).
Proof.
  intros Hk H0 Hpos. apply sorted_entries_in, list_elem_of_lookup in H0 as [j Hj]. destruct j as [|j]; [done|exfalso].
  destruct (sorted_entries b bay !! 0%nat) as [[k q]|] eqn:E; [|apply lookup_lt_Some in Hj; apply lookup_ge_None in E; unfold StripOrdering.entry in *; lia].
  assert (Hne : k ≠ key).
  { intros ->. assert (0%nat = S j) as [=]. apply (NoDup_lookup (sorted_entries b bay).*1 0 (S j) key (sorted_entries_keys b bay Hk));
      [exact (eq_trans (list_lookup_fmap fst _ 0) (f_equal (fmap fst) E))|exact (eq_trans (list_lookup_fmap fst _ (S j)) (f_equal (fmap fst) Hj))]. }
  assert (Hq : placed_in b bay k q) by (apply sorted_entries_in; by eapply list_elem_of_lookup_2). specialize (Hpos k q Hq Hne).
  pose proof (sorted_entries_mono b bay (S j) 0 _ _ Hj E Hpos). lia.
Qed.

(** The numbers after spacing are in the order of those before. *)
Lemma recalculation_keeps_order w bay w' k1 q1 q1' k2 q2 q2' :
  keyed (w_board w) → spaceable (w_board w) bay → recalculateAllStripSequences w bay = Ok w' →
  placed_in (w_board w) bay k1 q1 → placed_in (w_board w) bay k2 q2 → placed_in (w_board w') bay k1 q1' → placed_in (w_board w') bay k2 q2' →
  q1 < q2 → q1' < q2'.
Proof.
  intros Hk Hs Hr H1 H2 H1' H2' Hlt. assert (Hp := λ key q, recalculation_placed w bay w' bay key q Hk Hs Hr). apply Hp in H1', H2'.
  rewrite decide_True in H1', H2' by done. destruct H1' as (j1 & r1 & J1 & ->), H2' as (j2 & r2 & J2 & ->).
  assert (E1 : placed_in (w_board w) bay k1 r1) by (apply sorted_entries_in; by eapply list_elem_of_lookup_2).
  assert (E2 : placed_in (w_board w) bay k2 r2) by (apply sorted_entries_in; by eapply list_elem_of_lookup_2).
  destruct (placed_unique _ _ _ _ _ _ Hk E1 H1) as [_ ->], (placed_unique _ _ _ _ _ _ Hk E2 H2) as [_ ->].
  pose proof (sorted_entries_mono _ _ _ _ _ _ J1 J2 Hlt). lia.
Qed.

Lemma calculate_zero prev next s : calculateOrderBetween prev next = (s, true) → s = 0.
Proof. unfold calculateOrderBetween. destruct next; [|done]. cbv zeta. by destruct (_ <=? _); intros [= <-]. Qed.

(** ** What the order of a session is *)

(** C12: For as many as 2147480 operations of a session - strips created, appended
    to a bay, dropped behind one another, with or without spacing the bay again, and
    removed - the numbers of the strips stay positive and grow by at most a thousand
    per operation, so that no 32-bit number wraps around; callsigns and identities
    stay keys; and no two strips of a bay, whether flights or tactical strips, have
    the same number, so that the order of a bay is never ambiguous. *)
Theorem reachable_orderly n b : reachable n b → n ≤ enough → orderly n b.
Proof.
  intros H. pose proof (reachable_count _ _ H) as H0. induction H as [|n b b' H IH Hs]; intros Hn.
  - split; [split; constructor|done|..]; intros ? []; by intros ? ?%elem_of_nil || intros ? ? ?%elem_of_nil.
  - pose proof (reachable_count _ _ H). eapply session_step_orderly; [by apply IH; lia|lia|done].
Qed.

(** C13: A strip, flight or tactical, that is dropped behind another one where the next
    five numbers are free gets a number directly behind it: of the other strips of
    the bay each is at most at the reference or behind the dropped strip. The dropped
    strip is in no other place, and no other strip of any bay changes. Without a
    reference the strip becomes the first of the bay. *)
Theorem dropped_lands_behind n insertAfter bay w key w' prev :
  orderly n (w_board w) → 0 ≤ n < enough → dropped insertAfter bay w key w' →
  resolveRefSequence (w_board w) bay insertAfter = Ok prev → room (w_board w) bay prev →
  ∃ s, prev < s ∧
    (∀ bay' k q, placed_in (w_board w') bay' k q ↔ k = key ∧ bay' = bay ∧ q = s ∨ k ≠ key ∧ placed_in (w_board w) bay' k q) ∧
    (∀ k q, placed_in (w_board w') bay k q → k ≠ key → q ≤ prev ∨ s < q) ∧
    (insertAfter = None → ∀ k q, placed_in (w_board w') bay k q → k ≠ key → s < q).
Proof.
  intros Ho Hn (prev' & s & needsRecalc & w1 & Hr' & Hc & Hw & H)%dropped_steps Hr Hroom. rewrite Hr in Hr'. injection Hr' as <-.
  pose proof (resolved_range _ _ _ _ _ Ho ltac:(lia) Hr) as Hp.
  apply (room_iff n _ _ _ s needsRecalc Ho ltac:(lia)) in Hroom; [|lia|done]. subst needsRecalc. rewrite H.
  destruct (between_free n (w_board w) bay prev s Ho ltac:(lia) Hp Hc) as [Hs Hfree]. destruct Hw as (_ & _ & _ & _ & Hw).
  assert (Hother : ∀ k q, placed_in (w_board w1) bay k q → k ≠ key → q ≤ prev ∨ s < q) by (intros k q [(-> & _)|[_ Hq]]%Hw Hne; [done|by apply Hfree with k]).
  exists s. split_and!; [lia|done|done|]. intros -> k q Hq Hne. injection Hr as <-. destruct (Hother k q Hq Hne); [|done].
  apply Hw in Hq as [(-> & _)|[_ Hq]]; [done|]. apply (or_range _ _ Ho) in Hq. lia.
Qed.

(** A drop writes a free number behind the reference, or the number [0] and then
    spaces the bay again. *)
Lemma dropped_cases n insertAfter bay w key w' :
  orderly n (w_board w) → 0 ≤ n < enough → dropped insertAfter bay w key w' →
  ∃ prev s w1, resolveRefSequence (w_board w) bay insertAfter = Ok prev ∧ written (w_board w) key bay s (w_board w1) ∧ keyed (w_board w1) ∧
    (room (w_board w) bay prev ∧ prev < s ∧ w_board w' = w_board w1 ∨
     ¬ room (w_board w) bay prev ∧ s = 0 ∧ spaceable (w_board w1) bay ∧
       ∃ w2, recalculateAllStripSequences w1 bay = Ok w2 ∧ w_board w' = w_board w2).
Proof.
  intros Ho Hn (prev & s & needsRecalc & w1 & Hr & Hc & Hw & H)%dropped_steps. pose proof (resolved_range _ _ _ _ _ Ho ltac:(lia) Hr) as Hp.
  pose proof (room_iff n _ _ _ s needsRecalc Ho ltac:(lia) (proj1 Hp) Hc) as Hiff.
  exists prev, s, w1. split_and!; [done|done|by apply Hw, (or_keyed _ _ Ho)|]. destruct needsRecalc; [right|left].
  - split_and!; [by intros ?%Hiff|by eapply calculate_zero| |done]. destruct Hw as (_ & _ & L1 & L2 & _).
    unfold spaceable. pose proof (entries_le_rows (w_board w1) bay). pose proof (or_rows _ _ Ho). unfold rows, enough, StripOrdering.entry in *. lia.
  - split_and!; [by apply Hiff| |done]. destruct (between_free n (w_board w) bay prev s Ho ltac:(lia) Hp Hc) as [Hs _]. lia.
Qed.

(** C14: A drop does not disturb the other strips, whether there is room behind the
    reference or the bay has to be spaced again: the dropped strip, flight or tactical,
    is in the bay it was dropped into and in no other, once and with a positive number;
    every other strip stays in its bay; the strips of the other bays keep their
    numbers; and the other strips of the bay keep their order. *)
Theorem drop_keeps_others n insertAfter bay w key w' :
  orderly n (w_board w) → 0 ≤ n < enough → dropped insertAfter bay w key w' →
  (∃ s, 0 < s ∧ ∀ bay' q, placed_in (w_board w') bay' key q ↔ bay' = bay ∧ q = s) ∧
  (∀ bay' k, k ≠ key → (∃ q, placed_in (w_board w') bay' k q) ↔ (∃ q, placed_in (w_board w) bay' k q)) ∧
  (∀ bay' k q, bay' ≠ bay → k ≠ key → placed_in (w_board w') bay' k q ↔ placed_in (w_board w) bay' k q) ∧
  (∀ k1 q1 q1' k2 q2 q2', k1 ≠ key → k2 ≠ key → placed_in (w_board w) bay k1 q1 → placed_in (w_board w) bay k2 q2 →
     placed_in (w_board w') bay k1 q1' → placed_in (w_board w') bay k2 q2' → q1 < q2 → q1' < q2').
Proof.
  intros Ho Hn Hd. destruct (dropped_cases _ _ _ _ _ _ Ho Hn Hd) as (prev & s & w1 & Hr & (_ & _ & _ & _ & Hw) & Hk & Hcase).
  pose proof (resolved_range _ _ _ _ _ Ho ltac:(lia) Hr) as Hp.
  assert (Hother : ∀ bay' k q, k ≠ key → placed_in (w_board w1) bay' k q ↔ placed_in (w_board w) bay' k q) by (intros; rewrite Hw; naive_solver).
  destruct Hcase as [(_ & Hs & ->)|(_ & -> & Hs & w2 & Hrec & ->)].
  - split_and!.
    + exists s. split; [lia|]. intros bay' q. rewrite Hw. naive_solver.
    + intros bay' k Hne. by setoid_rewrite Hother.
    + intros bay' k q _ Hne. by apply Hother.
    + intros k1 q1 q1' k2 q2 q2' N1 N2 P1 P2 P1' P2' Hlt. apply Hother in P1', P2'; [|done..].
      destruct (placed_unique _ _ _ _ _ _ (or_keyed _ _ Ho) P1 P1') as [_ <-], (placed_unique _ _ _ _ _ _ (or_keyed _ _ Ho) P2 P2') as [_ <-]. done.
  - assert (Hpl := λ bay' k q, recalculation_placed w1 bay w2 bay' k q Hk Hs Hrec).
    assert (Hin : ∀ k, (∃ q, placed_in (w_board w2) bay k q) ↔ ∃ q, placed_in (w_board w1) bay k q).
    { intros k. split.
      - intros [q Hq]. apply Hpl in Hq. rewrite decide_True in Hq by done. destruct Hq as (j & r & Hj & _).
        exists r. apply sorted_entries_in. by eapply list_elem_of_lookup_2.
      - intros [r Hr']. apply sorted_entries_in, list_elem_of_lookup in Hr' as [j Hj].
        exists ((Z.of_nat j + 1) * 1000). apply Hpl. rewrite decide_True by done. by exists j, r. }
    split_and!.
    + destruct (proj2 (Hin key)) as [s Hs']; [exists 0; apply Hw; by left|]. exists s. split.
      * apply Hpl in Hs'. rewrite decide_True in Hs' by done. destruct Hs' as (j & r & _ & ->). lia.
      * intros bay' q. destruct (decide (bay' = bay)) as [->|Hne].
        -- split; [|by intros [_ ->]]. intros Hq. split; [done|].
           apply Hpl in Hq, Hs'. rewrite decide_True in Hq, Hs' by done. destruct Hq as (j & r & Hj & ->), Hs' as (j' & r' & Hj' & ->).
           assert (j = j') as ->; [|done]. apply (NoDup_lookup (sorted_entries (w_board w1) bay).*1 j j' key (sorted_entries_keys (w_board w1) bay Hk));
             [exact (eq_trans (list_lookup_fmap fst _ j) (f_equal (fmap fst) Hj))|exact (eq_trans (list_lookup_fmap fst _ j') (f_equal (fmap fst) Hj'))].
        -- rewrite Hpl, decide_False, Hw by done. naive_solver.
    + intros bay' k Hne. destruct (decide (bay' = bay)) as [->|Hb]; [rewrite Hin; by setoid_rewrite Hother|].
      split; intros [q Hq]; exists q; [apply Hpl in Hq|apply Hpl]; rewrite decide_False in * by done; by apply Hother.
    + intros bay' k q Hb Hne. rewrite Hpl, decide_False by done. by apply Hother.
    + intros k1 q1 q1' k2 q2 q2' N1 N2 P1 P2. by apply (recalculation_keeps_order w1 bay w2 k1 q1 q1' k2 q2 q2' Hk Hs Hrec); apply Hother.
Qed.

(** The comment of [MoveStripBetween] says that the strip moves immediately after its
    reference. Where one of the next five numbers is taken it does not: the number
    [0] is written before the bay is spaced again, and the strip becomes the first of
    the bay, with number 1000, ahead of its reference and of every other strip. *)
Theorem cramped_drop_goes_first n insertAfter bay w key w' prev :
  orderly n (w_board w) → 0 ≤ n < enough → dropped insertAfter bay w key w' →
  resolveRefSequence (w_board w) bay insertAfter = Ok prev → ¬ room (w_board w) bay prev →
  placed_in (w_board w') bay key 1000 ∧
  (∀ k q, placed_in (w_board w) bay k q → k ≠ key → ∃ q', placed_in (w_board w') bay k q' ∧ 1000 < q').
Proof.
  intros Ho Hn Hd Hr Hroom. destruct (dropped_cases _ _ _ _ _ _ Ho Hn Hd) as (prev' & s & w1 & Hr' & (_ & _ & _ & _ & Hw) & Hk & Hcase).
  rewrite Hr in Hr'. injection Hr' as <-. destruct Hcase as [(? & _)|(_ & -> & Hs & w2 & Hrec & ->)]; [done|].
  assert (H0 : placed_in (w_board w1) bay key 0) by (apply Hw; by left).
  assert (Hpos : ∀ k q, placed_in (w_board w1) bay k q → k ≠ key → 0 < q) by (intros k q [(-> & _)|[_ ?%(or_range _ _ Ho)]]%Hw Hne; [done|lia]).
  pose proof (lowest_first _ _ _ Hk H0 Hpos) as Hfirst. assert (Hpl := λ bay' k q, recalculation_placed w1 bay w2 bay' k q Hk Hs Hrec). split.
  - apply Hpl. rewrite decide_True by done. by exists 0%nat, 0.
  - intros k q Hq Hne. assert (Hq1 : placed_in (w_board w1) bay k q) by (apply Hw; by right). apply sorted_entries_in, list_elem_of_lookup in Hq1 as [j Hj].
    exists ((Z.of_nat j + 1) * 1000). split; [apply Hpl; rewrite decide_True by done; by exists j, q|]. destruct j; [|lia]. pose proof (eq_trans (eq_sym Hfirst) Hj) as [= <- _]. done.
Qed.

(** ** Witnesses *)

(** Two flights and a tactical strip on final, with room and without *)
Definition final_flight (callsign : string) (s : Z) : StripRow := mk_strip_row callsign BAY_FINAL (Some s).
Local Abbreviation final_board second third := (mk_board [final_flight "SAS1" 1000; final_flight "BAW2" second] [mk_tactical_row 7 BAY_FINAL third]).
Definition behind_SAS1 : option StripRef := Some (mk_strip_ref "flight" (Some "SAS1"%string) None).

Lemma final_reachable : reachable 3 (final_board 2000 3000).
Proof.
  apply (reachable_step 2 (mk_board [final_flight "SAS1" 1000; final_flight "BAW2" 2000] [])).
  - apply (reachable_step 1 (mk_board [final_flight "SAS1" 1000] [])).
    + apply (reachable_step 0 (mk_board [] [])); [constructor|].
      apply (step_flight_created (mk_board [] []) "SAS1" BAY_FINAL (Some 1000)); [apply (bool_decide_unpack _); by vm_compute|by intros s [= <-]].
    + apply (step_flight_created (mk_board [final_flight "SAS1" 1000] []) "BAW2" BAY_FINAL (Some 2000)); [apply (bool_decide_unpack _); by vm_compute|by intros s [= <-]].
  - apply (step_tactical_created (mk_board [final_flight "SAS1" 1000; final_flight "BAW2" 2000] []) 7 BAY_FINAL). apply (bool_decide_unpack _). by vm_compute.
Qed.

Lemma reachable_orderly_witness : reachable 3 (final_board 2000 3000) ∧ orderly 3 (final_board 2000 3000).
Proof. split; [exact final_reachable|]. apply (reachable_orderly 3); [exact final_reachable|unfold enough; lia]. Defined.

Lemma final_orderly s t : 1000 < s < t → t ≤ 3000 → orderly 3 (final_board s t).
Proof.
  intros H1 H2. split.
  - split; simpl; apply (bool_decide_unpack _); by vm_compute.
  - done.
  - intros bay [c|i] q; cbn [placed_in bd_strips bd_tacticals]; rewrite !elem_of_cons, elem_of_nil; unfold final_flight;
      [intros [[= -> -> ->]|[[= -> -> ->]|[]]]|intros [[= -> -> ->]|[]]]; lia.
  - intros bay [c|i] [c'|i'] q; cbn [placed_in bd_strips bd_tacticals]; rewrite !elem_of_cons, !elem_of_nil; unfold final_flight;
      intros Ha Hb; destruct_or?; simplify_eq; done || lia.
Qed.

(** The tactical strip is dropped behind [SAS1]. *)
Local Abbreviation roomy := (mk_world (final_board 2000 3000) []).
Local Abbreviation roomy' := (mk_world (final_board 2000 1500) [TacticalStripMoved 7 BAY_FINAL 1500]).

Lemma dropped_lands_behind_witness :
  ∃ s, 1000 < s ∧
    (∀ bay' k q, placed_in (w_board roomy') bay' k q ↔ k = Tactical 7 ∧ bay' = BAY_FINAL ∧ q = s ∨ k ≠ Tactical 7 ∧ placed_in (w_board roomy) bay' k q) ∧
    (∀ k q, placed_in (w_board roomy') BAY_FINAL k q → k ≠ Tactical 7 → q ≤ 1000 ∨ s < q) ∧
    (behind_SAS1 = None → ∀ k q, placed_in (w_board roomy') BAY_FINAL k q → k ≠ Tactical 7 → s < q).
Proof.
  apply (dropped_lands_behind 3 behind_SAS1 BAY_FINAL roomy (Tactical 7) roomy' 1000).
  - by apply final_orderly.
  - unfold enough. lia.
  - constructor. by vm_compute.
  - by vm_compute.
  - apply (room_iff 3 (final_board 2000 3000) BAY_FINAL 1000 1500 false); [by apply final_orderly|unfold enough; lia|lia|by vm_compute|done].
Defined.

(** [BAW2] is dropped where it is, 4 behind [SAS1]. *)
Local Abbreviation cramped := (mk_world (final_board 1004 3000) []).
Local Abbreviation drop_BAW2 :=
  (MoveStripBetween (λ _, Ok None) (λ w _ _ _, Ok w) None None (λ _, Ok 0) (Ok ()) cramped "BAW2" behind_SAS1 BAY_FINAL).

Lemma cramped_dropped : dropped behind_SAS1 BAY_FINAL cramped (Flight "BAW2") (match drop_BAW2 with Ok w' => w' | _ => cramped end).
Proof.
  apply (dropped_flight behind_SAS1 BAY_FINAL (λ _, Ok None) (λ w _ _ _, Ok w) None None (λ _, Ok 0) (Ok ()) cramped "BAW2" None);
    [simpl; right; left|done|done|by vm_compute].
Qed.

Lemma drop_keeps_others_witness :
  let w' := match drop_BAW2 with Ok w' => w' | _ => cramped end in
  (∃ s, 0 < s ∧ ∀ bay' q, placed_in (w_board w') bay' (Flight "BAW2") q ↔ bay' = BAY_FINAL ∧ q = s) ∧
  (∀ q1' q2', placed_in (w_board w') BAY_FINAL (Flight "SAS1") q1' → placed_in (w_board w') BAY_FINAL (Tactical 7) q2' → q1' < q2').
Proof.
  intros w'. destruct (drop_keeps_others 3 behind_SAS1 BAY_FINAL cramped (Flight "BAW2") w') as (Hs & _ & _ & Ho);
    [by apply final_orderly|unfold enough; lia|exact cramped_dropped|].
  split; [exact Hs|]. intros q1' q2' H1 H2. apply (Ho (Flight "SAS1") 1000 q1' (Tactical 7) 3000 q2'); [done|done|by left|by left|done|done|lia].
Defined.

Lemma cramped_drop_goes_first_witness :
  let w' := match drop_BAW2 with Ok w' => w' | _ => cramped end in
  placed_in (w_board w') BAY_FINAL (Flight "BAW2") 1000 ∧ w_board w' = mk_board [final_flight "SAS1" 2000; final_flight "BAW2" 1000] [mk_tactical_row 7 BAY_FINAL 3000].
Proof.
  intros w'. split; [|by vm_compute]. refine (proj1 (cramped_drop_goes_first 3 behind_SAS1 BAY_FINAL cramped (Flight "BAW2") w' 1000 _ _ _ _ _)).
  - by apply final_orderly.
  - unfold enough. lia.
  - exact cramped_dropped.
  - by vm_compute.
  - intros H. assert (1000 + 5 < 1004); [|lia]. apply (H (Flight "BAW2")); [right; left|lia].
Defined.
