(* ===== verification/CoordinationRequest.v ===== *)
(** * Coordination requests: [coordinationrequest/request.go]

    A flow manager asks the controller who tracks a flight for a route, a direct or
    a speed. The request is pending until it is accepted or rejected by its
    recipient, superseded by a newer request of the kind, or expired by an event
    of the flight; meanwhile it follows the flight from one controller to the next.
    Every operation validates the request it starts from and the one it returns. *)

From S2P Require Import Prelude GoTime.
From Stdlib Require Import Strings.Ascii Strings.String.

Local Open Scope Z_scope.

(** ** Data *)

(** The Go types are strings; [Other] is any string that is not a constant. *)
Inductive RequestKind := KindRouteDirect | KindSpeed | KindOther (s : string).
Inductive RequestState := StatePending | StateAccepted | StateRejected | StateSuperseded | StateExpired | StateOther (s : string).
(** [RecipientOmitted] is the empty string of older rows. *)
Inductive RecipientStatus := RecipientOmitted | RecipientAssigned | RecipientUnassigned | RecipientOther (s : string).
Inductive ExpiryReason :=
| ExpiryFlightCompleted | ExpiryGoAroundConfirmed | ExpiryAuthoritativeRemoval | ExpiryDesequenced | ExpiryOther (s : string).

#[export] Instance RequestKind_eq_dec : EqDecision RequestKind.
Proof. solve_decision. Defined.
#[export] Instance RequestState_eq_dec : EqDecision RequestState.
Proof. solve_decision. Defined.
#[export] Instance RecipientStatus_eq_dec : EqDecision RecipientStatus.
Proof. solve_decision. Defined.
#[export] Instance ExpiryReason_eq_dec : EqDecision ExpiryReason.
Proof. solve_decision. Defined.

Record RouteDirectPayload := mk_route_direct { rd_Route : string; rd_DirectTo : string }.
Record SpeedPayload := mk_speed { sp_Requested : string }.
Record Payload := mk_payload { pl_RouteDirect : option RouteDirectPayload; pl_Speed : option SpeedPayload }.

#[export] Instance RouteDirectPayload_eq_dec : EqDecision RouteDirectPayload.
Proof. solve_decision. Defined.
#[export] Instance SpeedPayload_eq_dec : EqDecision SpeedPayload.
Proof. solve_decision. Defined.
#[export] Instance Payload_eq_dec : EqDecision Payload.
Proof. solve_decision. Defined.

Record RequestDecision := mk_decision {
  dc_CommandID : string; dc_Airport : string; dc_Actor : string; dc_Role : string; dc_AuthoritativeRecipient : string;
  dc_RequestID : string; dc_RequestKind : RequestKind; dc_BeforeState : RequestState; dc_AfterState : RequestState;
  dc_Reason : string; dc_ReceivedAt : Time }.

Record RecipientTransfer := mk_transfer {
  tf_OwnershipFact : string; tf_OwnershipRevision : N; tf_PreviousRecipient : string; tf_NewRecipient : string; tf_TransferredAt : Time }.

Record RequestExpiry := mk_expiry { ex_FactID : string; ex_FactRevision : N; ex_Reason : ExpiryReason; ex_ExpiredAt : Time }.

Record ClearanceAudit := mk_clearance { ca_FactID : string; ca_Kind : RequestKind; ca_Value : string; ca_Issuer : string; ca_ObservedAt : Time }.

Record Request := mk_request {
  cr_ID : string;
  cr_CommandID : string;
  cr_Airport : string;
  cr_Callsign : string;
  cr_RecipientController : string;
  cr_RecipientStatus : RecipientStatus;
  cr_SubmittedBy : string;
  cr_SubmittedRole : string;
  cr_Kind : RequestKind;
  cr_State : RequestState;
  cr_Payload : Payload;
  cr_CreatedAt : Time;
  cr_UpdatedAt : Time;
  cr_ResolvedAt : option Time;
  cr_Supersedes : option string;
  cr_SupersededBy : option string;
  cr_Decision : option RequestDecision;
  cr_RecipientTransfers : list RecipientTransfer;
  cr_Expiry : option RequestExpiry;
  cr_Clearance : option ClearanceAudit
}.

Definition eta_Request (r : Request) : Request :=
  mk_request
    (cr_ID r) (cr_CommandID r) (cr_Airport r) (cr_Callsign r) (cr_RecipientController r) (cr_RecipientStatus r)
    (cr_SubmittedBy r) (cr_SubmittedRole r) (cr_Kind r) (cr_State r) (cr_Payload r) (cr_CreatedAt r) (cr_UpdatedAt
    r) (cr_ResolvedAt r) (cr_Supersedes r) (cr_SupersededBy r) (cr_Decision r) (cr_RecipientTransfers r)
    (cr_Expiry r) (cr_Clearance r).

Definition set_cr_RecipientController (v : string) (r : Request) : Request := ltac:(record_set eta_Request cr_RecipientController v r).
Definition set_cr_RecipientStatus (v : RecipientStatus) (r : Request) : Request := ltac:(record_set eta_Request cr_RecipientStatus v r).
Definition set_cr_State (v : RequestState) (r : Request) : Request := ltac:(record_set eta_Request cr_State v r).
Definition set_cr_UpdatedAt (v : Time) (r : Request) : Request := ltac:(record_set eta_Request cr_UpdatedAt v r).
Definition set_cr_ResolvedAt (v : option Time) (r : Request) : Request := ltac:(record_set eta_Request cr_ResolvedAt v r).
Definition set_cr_Supersedes (v : option string) (r : Request) : Request := ltac:(record_set eta_Request cr_Supersedes v r).
Definition set_cr_SupersededBy (v : option string) (r : Request) : Request := ltac:(record_set eta_Request cr_SupersededBy v r).
Definition set_cr_Decision (v : option RequestDecision) (r : Request) : Request := ltac:(record_set eta_Request cr_Decision v r).
Definition set_cr_RecipientTransfers (v : list RecipientTransfer) (r : Request) : Request := ltac:(record_set eta_Request cr_RecipientTransfers v r).
Definition set_cr_Expiry (v : option RequestExpiry) (r : Request) : Request := ltac:(record_set eta_Request cr_Expiry v r).
Definition set_cr_Clearance (v : option ClearanceAudit) (r : Request) : Request := ltac:(record_set eta_Request cr_Clearance v r).

(** ** Validation *)

Definition New_error (message : string) : error := Errorf message [].

Definition present (value : string) : bool := negb (str_empty value) && str_eqb value (TrimSpace value).
Definition optional (value : string) : bool := str_empty value || present value.

Definition IDForCommand (commandID : string) : string := "coordination-request/" +:+ commandID.

Definition request_kind_text (kind : RequestKind) : string :=
  match kind with KindRouteDirect => "route_direct" | KindSpeed => "speed" | KindOther s => s end.

Definition Payload_validate (p : Payload) (kind : RequestKind) : outcome unit :=
  match kind with
  | KindRouteDirect =>
      guard_err (negb match pl_RouteDirect p with
                      | Some d => is_nil (pl_Speed p) && optional (rd_Route d) && optional (rd_DirectTo d) && negb (str_empty (rd_Route d) && str_empty (rd_DirectTo d))
                      | None => false
                      end) (New_error "route/direct request requires only route/direct payload")
  | KindSpeed =>
      guard_err (negb match pl_Speed p with Some s => is_nil (pl_RouteDirect p) && present (sp_Requested s) | None => false end)
        (New_error "speed request requires only speed payload")
  | KindOther _ => Err (Errorf "unknown coordination request kind %q" [AStr (request_kind_text kind)])
  end.

Definition terminal (state : RequestState) : bool :=
  match state with StateAccepted | StateRejected | StateSuperseded | StateExpired => true | StatePending | StateOther _ => false end.

Definition ExpiryReason_valid (reason : ExpiryReason) : bool := match reason with ExpiryOther _ => false | _ => true end.

Definition assignment_ok (status : RecipientStatus) (recipient : string) : bool :=
  match status with
  | RecipientOmitted | RecipientAssigned => present recipient
  | RecipientUnassigned => str_empty recipient
  | RecipientOther _ => false
  end.

Definition transfer_ok (created : Time) (previous : option N) (t : RecipientTransfer) : bool :=
  present (tf_OwnershipFact t) && negb (tf_OwnershipRevision t =? 0)%N && validUTC (tf_TransferredAt t) && negb (before (tf_TransferredAt t) created) &&
  negb (str_eqb (tf_PreviousRecipient t) (tf_NewRecipient t)) && match previous with Some revision => (revision <? tf_OwnershipRevision t)%N | None => true end.

Fixpoint transfers_ok (created : Time) (previous : option N) (transfers : list RecipientTransfer) : bool :=
  match transfers with
  | [] => true
  | t :: rest => transfer_ok created previous t && transfers_ok created (Some (tf_OwnershipRevision t)) rest
  end.

Definition decision_ok (r : Request) (resolved : Time) (d : RequestDecision) : bool :=
  present (dc_CommandID d) && str_eqb (dc_Airport d) (cr_Airport r) && present (dc_Actor d) && present (dc_Role d) &&
  str_eqb (dc_AuthoritativeRecipient d) (cr_RecipientController r) && str_eqb (dc_RequestID d) (cr_ID r) && bool_decide (dc_RequestKind d = cr_Kind r) &&
  bool_decide (dc_BeforeState d = StatePending) && bool_decide (dc_AfterState d = cr_State r) && time_eqb (dc_ReceivedAt d) resolved &&
  negb (bool_decide (cr_State r = StateRejected) && negb (present (dc_Reason d))) && negb (bool_decide (cr_State r = StateAccepted) && negb (str_empty (dc_Reason d))).

Definition clearance_ok (r : Request) (resolved : Time) (c : ClearanceAudit) : bool :=
  bool_decide (cr_State r = StateAccepted) && bool_decide (ca_Kind c = cr_Kind r) && present (ca_FactID c) && present (ca_Value c) && present (ca_Issuer c) &&
  validUTC (ca_ObservedAt c) && negb (before (ca_ObservedAt c) resolved).

Definition expiry_ok (resolved : Time) (e : RequestExpiry) : bool :=
  present (ex_FactID e) && negb (ex_FactRevision e =? 0)%N && ExpiryReason_valid (ex_Reason e) && time_eqb (ex_ExpiredAt e) resolved.

Definition decided (state : RequestState) : bool := bool_decide (state = StateAccepted) || bool_decide (state = StateRejected).

(** A request that is not pending, with the instant at which it was resolved *)
Definition validate_resolved (r : Request) (resolved : Time) : outcome unit :=
  _ ← guard_err (negb (terminal (cr_State r)) || negb (validUTC resolved) || before resolved (cr_CreatedAt r) || negb (time_eqb (cr_UpdatedAt r) resolved))
        (New_error "terminal coordination request requires one chronological resolution timestamp");
  _ ← guard_err (xorb (bool_decide (cr_State r = StateSuperseded)) (not_nil (cr_SupersededBy r)) || opt_test (λ id, str_eqb id (cr_ID r)) (cr_SupersededBy r) ||
        opt_test (λ id, str_eqb id (cr_ID r)) (cr_Supersedes r)) (New_error "coordination request supersede audit links are invalid");
  _ ← (if decided (cr_State r) then guard_err (negb (opt_test (decision_ok r resolved) (cr_Decision r))) (New_error "coordination request decision audit is invalid")
       else guard_err (not_nil (cr_Decision r)) (New_error "only accepted or rejected requests may contain a decision audit"));
  _ ← guard_err (opt_test (λ c, negb (clearance_ok r resolved c)) (cr_Clearance r)) (New_error "coordination clearance correlation is invalid");
  if bool_decide (cr_State r = StateExpired) then
    guard_err (negb (opt_test (expiry_ok resolved) (cr_Expiry r))) (New_error "expired coordination request requires an authoritative expiry audit")
  else guard_err (not_nil (cr_Expiry r)) (New_error "only expired requests may contain an expiry audit").

Definition Validate (r : Request) : outcome unit :=
  _ ← guard_err (negb (present (cr_CommandID r)) || negb (str_eqb (cr_ID r) (IDForCommand (cr_CommandID r))) || negb (present (cr_Airport r)) ||
        negb (present (cr_Callsign r)) || negb (present (cr_SubmittedBy r)) || negb (present (cr_SubmittedRole r)))
        (New_error "coordination request identity and ownership must be complete and trimmed");
  _ ← guard_err (negb (assignment_ok (cr_RecipientStatus r) (cr_RecipientController r))) (New_error "coordination request recipient assignment is invalid");
  _ ← guard_err (negb (validUTC (cr_CreatedAt r)) || negb (validUTC (cr_UpdatedAt r)) || before (cr_UpdatedAt r) (cr_CreatedAt r))
        (New_error "coordination request timestamps must be chronological UTC values");
  _ ← guard_err (negb (transfers_ok (cr_CreatedAt r) None (cr_RecipientTransfers r))) (New_error "coordination request recipient transfer audit is invalid");
  _ ← Payload_validate (cr_Payload r) (cr_Kind r);
  if bool_decide (cr_State r = StatePending) then
    guard_err (not_nil (cr_ResolvedAt r) || not_nil (cr_SupersededBy r) || not_nil (cr_Decision r) || not_nil (cr_Expiry r))
      (New_error "pending coordination request cannot be resolved")
  else match cr_ResolvedAt r with
       | Some resolved => validate_resolved r resolved
       | None => Err (New_error "terminal coordination request requires one chronological resolution timestamp")
       end.

Definition is_valid (r : Request) : bool := match Validate r with Ok _ => true | _ => false end.

(** ** Operations *)

Definition validated (r : Request) : outcome Request := _ ← Validate r; Ok r.

Definition assignment (recipient : string) : RecipientStatus := if str_empty recipient then RecipientUnassigned else RecipientAssigned.

Definition New (commandID airport flightID recipient actor role : string) (kind : RequestKind) (payload : Payload) (at_ : Time) : outcome Request :=
  validated (mk_request (IDForCommand commandID) commandID airport flightID recipient (assignment recipient) actor role kind StatePending payload at_ at_
    None None None None [] None None).

Definition Correlate (r : Request) (fact : ClearanceAudit) : outcome Request :=
  _ ← guard_err (negb (is_valid r) || negb (bool_decide (cr_State r = StateAccepted)) || not_nil (cr_Clearance r)) (New_error "coordination request cannot be correlated");
  validated (set_cr_Clearance (Some fact) r).

Definition effectiveRecipientStatus (r : Request) : RecipientStatus :=
  match cr_RecipientStatus r with RecipientOmitted => RecipientAssigned | status => status end.

(** A pending request that may change at an instant *)
Definition may_change (r : Request) (at_ : Time) : bool :=
  bool_decide (cr_State r = StatePending) && validUTC at_ && negb (before at_ (cr_UpdatedAt r)).

Definition resolve (state : RequestState) (at_ : Time) (r : Request) : Request :=
  set_cr_ResolvedAt (Some at_) (set_cr_UpdatedAt at_ (set_cr_State state r)).

Definition Supersede (r : Request) (next : string) (at_ : Time) : outcome Request :=
  _ ← guard_err (negb (present next) || str_eqb next (cr_ID r)) (New_error "superseding coordination request identity is required");
  _ ← guard_err (negb (is_valid r) || negb (may_change r at_)) (New_error "coordination request supersede transition is invalid");
  validated (set_cr_SupersededBy (Some next) (resolve StateSuperseded at_ r)).

Definition Expire (r : Request) (fact : RequestExpiry) : outcome Request :=
  _ ← Validate r;
  _ ← guard_err (negb (may_change r (ex_ExpiredAt fact)) || negb (present (ex_FactID fact)) || (ex_FactRevision fact =? 0)%N || negb (ExpiryReason_valid (ex_Reason fact)))
        (New_error "coordination request transition is invalid");
  validated (set_cr_Expiry (Some fact) (resolve StateExpired (ex_ExpiredAt fact) r)).

Definition Decide (r : Request) (commandID actor role recipient : string) (next : RequestState) (reason : string) (at_ : Time) : outcome Request :=
  _ ← guard_err (negb (decided next)) (New_error "coordination request decision must accept or reject");
  _ ← guard_err (negb (present commandID) || negb (present actor) || negb (present role) || str_empty recipient ||
        (bool_decide (next = StateRejected) && negb (present reason)) || (bool_decide (next = StateAccepted) && negb (str_empty reason)))
        (New_error "coordination request decision identity and reason are invalid");
  _ ← guard_err (negb (is_valid r) || negb (may_change r at_)) (New_error "coordination request decision transition is invalid");
  validated (set_cr_Decision (Some (mk_decision commandID (cr_Airport r) actor role recipient (cr_ID r) (cr_Kind r) (cr_State r) next reason at_)) (resolve next at_ r)).

Definition TransferRecipient (r : Request) (fact : string) (revision : N) (recipient : string) (at_ : Time) : outcome Request :=
  _ ← guard_err (negb (is_valid r) || negb (may_change r at_) || negb (present fact) || (revision =? 0)%N || str_eqb (cr_RecipientController r) recipient)
        (New_error "coordination request recipient transfer is invalid");
  let transfer := mk_transfer fact revision (cr_RecipientController r) recipient at_ in
  validated (set_cr_RecipientTransfers (cr_RecipientTransfers r ++ [transfer])
    (set_cr_RecipientStatus (assignment recipient) (set_cr_UpdatedAt at_ (set_cr_RecipientController recipient r)))).
