(* ===== verification/CoordinationLedger.v ===== *)
(** * The ledger of coordination requests: [coordinationrequest/repository.go]
    and [service.go]

    The requests of a session are rows of one table. A repository operation runs in
    a transaction that holds the lock of its airport, so it is a function from the
    table to the table; when it fails the transaction is rolled back and the table
    stays. A row stores its request as JSON, from which the same request is read
    back. Who tracks a flight is a parameter: the service reads it from the strips.
    The commands of the service and its read model follow. *)

From S2P Require Import Prelude GoTime CoordinationRequest.
From stdpp Require Import pretty gmap.
From Stdlib Require Import Strings.Ascii Strings.String.

Local Open Scope Z_scope.

(** ** The table *)

(** The creation time has the precision of the column, microseconds. *)
Record ledger_row := mk_row { lr_airport : string; lr_request_id : string; lr_created_at : Z; lr_payload : Request }.

Abbreviation ledger := (list ledger_row).

Definition row_of (r : Request) : ledger_row := mk_row (cr_Airport r) (cr_ID r) (ns (cr_CreatedAt r) / 1000) r.

(** [ON CONFLICT]: only the payload is replaced, whatever the airport of the row. *)
Definition save (t : ledger) (r : Request) : ledger :=
  if existsb (λ row, str_eqb (lr_request_id row) (cr_ID r)) t then
    (λ row, if str_eqb (lr_request_id row) (cr_ID r) then mk_row (lr_airport row) (lr_request_id row) (lr_created_at row) r else row) <$> t
  else t ++ [row_of r].

Definition row_less (a b : ledger_row) : bool :=
  if lr_created_at a =? lr_created_at b then str_ltb (lr_request_id a) (lr_request_id b) else lr_created_at a <? lr_created_at b.

(** The requests of an airport, in the order of the query *)
Definition requests (t : ledger) (airport : string) : list Request :=
  lr_payload <$> sort_slice row_less (filter (λ row, str_eqb (lr_airport row) airport = true) t).

Fixpoint validate_all (rs : list Request) : outcome unit := match rs with [] => Ok () | r :: rest => _ ← Validate r; validate_all rest end.

Definition lockedRequests (t : ledger) (airport : string) : outcome (list Request) :=
  _ ← validate_all (requests t airport); Ok (requests t airport).

(** ** Errors *)

Definition ErrRevisionConflict : error := New_error "coordination request revision conflict".
Definition ErrCommandConflict : error := New_error "coordination request command identity conflict".
Definition ErrRequestNotFound : error := New_error "coordination request not found".
Definition ErrInvalidState : error := New_error "coordination request is not pending".
Definition ErrUnauthorized : error := New_error "coordination request command is unauthorized".
Definition ErrWrongRecipient : error := New_error "coordination request is not assigned to the authoritative controller".

(** ** The revision of an airport *)

Definition nul : string := String Ascii.zero EmptyString.
(** [fmt.Sprint] of a [uint64] *)
Definition Sprint_uint (n : N) : string := pretty n.

Definition transfer_key (callsign : string) (t : RecipientTransfer) : string :=
  callsign +:+ nul +:+ tf_OwnershipFact t +:+ nul +:+ Sprint_uint (tf_OwnershipRevision t).
Definition expiry_key (e : RequestExpiry) : string := ex_FactID e +:+ nul +:+ Sprint_uint (ex_FactRevision e).

Definition transfer_keys (rs : list Request) : gset string :=
  list_to_set (r ← rs; transfer_key (cr_Callsign r) <$> cr_RecipientTransfers r).
Definition expiry_keys (rs : list Request) : gset string := list_to_set (omap (λ r, expiry_key <$> cr_Expiry r) rs).
Definition clearance_keys (rs : list Request) : gset string := list_to_set (omap (λ r, ca_FactID <$> cr_Clearance r) rs).
Definition decisions (rs : list Request) : list RequestDecision := omap cr_Decision rs.

Definition coordinationRevision (rs : list Request) : Z :=
  u64 (Z.of_nat (List.length rs + List.length (decisions rs) + size (transfer_keys rs) + size (expiry_keys rs) + size (clearance_keys rs))).

(** ** Results *)

(** [None] is the request without an identity. *)
Record CommitResult := mk_commit { cm_Request : option Request; cm_SupersededRequest : option Request; cm_Revision : Z; cm_Duplicate : bool }.
Record TransferResult := mk_transfer_result { tr_Requests : list Request; tr_Revision : Z; tr_Duplicate : bool }.

Definition check_revision (rs : list Request) (expected : Z) : outcome unit :=
  guard_err (negb (coordinationRevision rs =? expected))
    (Errorf "%w: expected %d, current %d" [AErr ErrRevisionConflict; AInt expected; AInt (coordinationRevision rs)]).

(** ** Submitting *)

Definition same_submission (a b : Request) : bool :=
  str_eqb (cr_Airport a) (cr_Airport b) && str_eqb (cr_Callsign a) (cr_Callsign b) && bool_decide (cr_Kind a = cr_Kind b) &&
  str_eqb (cr_SubmittedBy a) (cr_SubmittedBy b) && str_eqb (cr_SubmittedRole a) (cr_SubmittedRole b) && bool_decide (cr_Payload a = cr_Payload b).

(** The first persisted request that answers the command *)
Fixpoint submitted_before (request : Request) (rs : list Request) : outcome (option Request) :=
  match rs with
  | [] => Ok None
  | persisted :: rest =>
      _ ← match Validate persisted with Err e => Err (Errorf "validate persisted coordination request: %w" [AErr e]) | m => m end;
      _ ← guard_err (opt_test (λ d, str_eqb (dc_CommandID d) (cr_CommandID request)) (cr_Decision persisted)) ErrCommandConflict;
      if str_eqb (cr_ID persisted) (cr_ID request) then
        if same_submission persisted request then Ok (Some persisted) else Err ErrCommandConflict
      else submitted_before request rest
  end.

Definition superseded_by_kind (request candidate : Request) : bool :=
  str_eqb (cr_Callsign candidate) (cr_Callsign request) && bool_decide (cr_Kind candidate = cr_Kind request) && bool_decide (cr_State candidate = StatePending).

Definition Submit (t : ledger) (request : Request) (expectedRevision : Z) : outcome (ledger * CommitResult) :=
  _ ← Validate request;
  let current := requests t (cr_Airport request) in
  known ← submitted_before request current;
  match known with
  | Some persisted => Ok (t, mk_commit (Some persisted) None (coordinationRevision current) true)
  | None =>
      _ ← check_revision current expectedRevision;
      match List.find (superseded_by_kind request) (reverse current) with
      | Some candidate =>
          superseded ← Supersede candidate (cr_ID request) (cr_CreatedAt request);
          let request := set_cr_Supersedes (Some (cr_ID superseded)) request in
          Ok (save (save t request) superseded, mk_commit (Some request) (Some superseded) (u64 (coordinationRevision current + 1)) false)
      | None => Ok (save t request, mk_commit (Some request) None (u64 (coordinationRevision current + 1)) false)
      end
  end.

(** ** Deciding *)

Definition same_decision (id : string) (decision : RequestDecision) (request : Request) (d : RequestDecision) : bool :=
  str_eqb (cr_ID request) id && bool_decide (dc_AfterState d = dc_AfterState decision) && str_eqb (dc_Reason d) (dc_Reason decision) &&
  str_eqb (dc_Actor d) (dc_Actor decision) && str_eqb (dc_Role d) (dc_Role decision) && str_eqb (dc_AuthoritativeRecipient d) (dc_AuthoritativeRecipient decision).

Fixpoint decided_before (id : string) (decision : RequestDecision) (rs : list Request) : outcome (option Request) :=
  match rs with
  | [] => Ok None
  | request :: rest =>
      if str_eqb (cr_CommandID request) (dc_CommandID decision) then Err ErrCommandConflict
      else match cr_Decision request with
           | Some d =>
               if str_eqb (dc_CommandID d) (dc_CommandID decision) then
                 if same_decision id decision request d then Ok (Some request) else Err ErrCommandConflict
               else decided_before id decision rest
           | None => decided_before id decision rest
           end
  end.

Definition request_state_text (s : RequestState) : string :=
  match s with
  | StatePending => "pending" | StateAccepted => "accepted" | StateRejected => "rejected"
  | StateSuperseded => "superseded" | StateExpired => "expired" | StateOther s => s
  end.

Definition Repository_Decide (t : ledger) (id : string) (decision : RequestDecision) (expectedRevision : Z) : outcome (ledger * CommitResult) :=
  current ← lockedRequests t (dc_Airport decision);
  known ← decided_before id decision current;
  match known with
  | Some request => Ok (t, mk_commit (Some request) None (coordinationRevision current) true)
  | None =>
      _ ← check_revision current expectedRevision;
      match List.find (λ request, str_eqb (cr_ID request) id) current with
      | None => Err ErrRequestNotFound
      | Some request =>
          _ ← guard_err (negb (bool_decide (cr_State request = StatePending))) (Errorf "%w: current state %s" [AErr ErrInvalidState; AStr (request_state_text (cr_State request))]);
          _ ← guard_err (negb (str_eqb (cr_RecipientController request) (dc_AuthoritativeRecipient decision)) || str_empty (cr_Airport request)) ErrWrongRecipient;
          resolved ← Decide request (dc_CommandID decision) (dc_Actor decision) (dc_Role decision) (dc_AuthoritativeRecipient decision)
                       (dc_AfterState decision) (dc_Reason decision) (dc_ReceivedAt decision);
          Ok (save t resolved, mk_commit (Some resolved) None (u64 (expectedRevision + 1)) false)
      end
  end.

(** ** Correlating a clearance *)

Record ClearanceFact := mk_clearance_fact {
  cf_Airport : string; cf_FactID : string; cf_Issuer : string; cf_Value : string; cf_Callsign : string; cf_Kind : RequestKind; cf_ObservedAt : Time }.

(** A valid request carries the payload of its kind; another one panics. *)
Definition matchesClearance (request : Request) (value : string) : outcome bool :=
  if bool_decide (cr_Kind request = KindSpeed) then
    match pl_Speed (cr_Payload request) with Some s => Ok (EqualFold (sp_Requested s) value) | None => Panic end
  else match pl_RouteDirect (cr_Payload request) with
       | Some d => Ok (negb (str_empty (rd_DirectTo d)) && EqualFold (rd_DirectTo d) value)
       | None => Panic
       end.

Definition correlates (fact : ClearanceFact) (request : Request) : outcome bool :=
  if negb (str_eqb (cr_Callsign request) (cf_Callsign fact)) || negb (bool_decide (cr_Kind request = cf_Kind fact)) ||
     negb (bool_decide (cr_State request = StateAccepted)) || not_nil (cr_Clearance request) then Ok false
  else match cr_ResolvedAt request with
       | Some resolved => if after resolved (cf_ObservedAt fact) then Ok false else matchesClearance request (cf_Value fact)
       | None => Panic
       end.

(** The first request, in the given order, to which the fact belongs *)
Fixpoint find_correlated (fact : ClearanceFact) (rs : list Request) : outcome (option Request) :=
  match rs with
  | [] => Ok None
  | request :: rest => b ← correlates fact request; if b : bool then Ok (Some request) else find_correlated fact rest
  end.

Definition CorrelateAccepted (t : ledger) (fact : ClearanceFact) : outcome (ledger * CommitResult) :=
  _ ← guard_err (str_empty (cf_Airport fact) || str_empty (cf_Callsign fact) || negb (present (cf_FactID fact)) || negb (present (cf_Issuer fact)) ||
        negb (present (cf_Value fact)) || (negb (bool_decide (cf_Kind fact = KindRouteDirect)) && negb (bool_decide (cf_Kind fact = KindSpeed))) ||
        negb (validUTC (cf_ObservedAt fact))) (New_error "authoritative clearance fact is invalid");
  current ← lockedRequests t (cf_Airport fact);
  match List.find (λ request, opt_test (λ c, str_eqb (ca_FactID c) (cf_FactID fact)) (cr_Clearance request)) (reverse current) with
  | Some request => Ok (t, mk_commit (Some request) None (coordinationRevision current) true)
  | None =>
      found ← find_correlated fact (reverse current);
      match found with
      | Some request =>
          updated ← Correlate request (mk_clearance (cf_FactID fact) (cf_Kind fact) (cf_Value fact) (cf_Issuer fact) (cf_ObservedAt fact));
          Ok (save t updated, mk_commit (Some updated) None (u64 (coordinationRevision current + 1)) false)
      | None => Ok (t, mk_commit None None (coordinationRevision current) false)
      end
  end.

(** ** Facts that concern all pending requests of a flight *)

Definition update_result (t : ledger) (rs changed : list Request) : ledger * TransferResult :=
  (t, mk_transfer_result changed (match changed with [] => coordinationRevision rs | _ => u64 (coordinationRevision rs + 1) end) false).

(** The loop of both: the requests that the fact concerns are changed and saved. *)
Definition change_each (concerned : Request → bool) (change : Request → outcome Request) (s : ledger * list Request) (request : Request) : outcome (ledger * list Request) :=
  let '(t, changed) := s in
  if concerned request then (updated ← change request; Ok (save t updated, changed ++ [updated])) else Ok s.

Record ExpiryFact := mk_expiry_fact { ef_Airport : string; ef_FactID : string; ef_Callsign : string; ef_Revision : N; ef_Reason : ExpiryReason; ef_OccurredAt : Time }.

Definition expired_by (fact : ExpiryFact) (e : RequestExpiry) : bool := str_eqb (ex_FactID e) (ef_FactID fact) && (ex_FactRevision e =? ef_Revision fact)%N.
Definition same_expiry (fact : ExpiryFact) (e : RequestExpiry) : bool := bool_decide (ex_Reason e = ef_Reason fact) && time_eqb (ex_ExpiredAt e) (ef_OccurredAt fact).

Fixpoint expired_before (fact : ExpiryFact) (rs : list Request) : outcome (list Request) :=
  match rs with
  | [] => Ok []
  | request :: rest =>
      match cr_Expiry request with
      | Some e => if expired_by fact e then (if same_expiry fact e then (known ← expired_before fact rest; Ok (request :: known)) else Err ErrCommandConflict)
                  else expired_before fact rest
      | None => expired_before fact rest
      end
  end.

Definition expiring (fact : ExpiryFact) (request : Request) : bool := str_eqb (cr_Callsign request) (ef_Callsign fact) && bool_decide (cr_State request = StatePending).

Definition trimmed (s : string) : bool := str_eqb s (TrimSpace s).

Definition ExpirePending (t : ledger) (fact : ExpiryFact) : outcome (ledger * TransferResult) :=
  _ ← guard_err (negb (present (ef_Airport fact)) || str_empty (ef_Callsign fact) || negb (present (ef_FactID fact)) || (ef_Revision fact =? 0)%N ||
        negb (ExpiryReason_valid (ef_Reason fact)) || negb (validUTC (ef_OccurredAt fact))) (New_error "authoritative coordination expiry fact is invalid");
  current ← lockedRequests t (ef_Airport fact);
  known ← expired_before fact current;
  match known with
  | _ :: _ => Ok (t, mk_transfer_result known (coordinationRevision current) true)
  | [] =>
      s ← fold_outcome (change_each (expiring fact) (λ request, Expire request (mk_expiry (ef_FactID fact) (ef_Revision fact) (ef_Reason fact) (ef_OccurredAt fact)))) (t, []) current;
      Ok (update_result s.1 current s.2)
  end.

Record OwnershipFact := mk_ownership_fact { of_Airport : string; of_Callsign : string; of_FactID : string; of_Revision : N; of_Owner : string; of_ObservedAt : Time }.

Definition transferred_by (fact : OwnershipFact) (t : RecipientTransfer) : bool := str_eqb (tf_OwnershipFact t) (of_FactID fact) && (tf_OwnershipRevision t =? of_Revision fact)%N.
Definition same_transfer (fact : OwnershipFact) (t : RecipientTransfer) : bool := str_eqb (tf_NewRecipient t) (of_Owner fact) && time_eqb (tf_TransferredAt t) (of_ObservedAt fact).

Fixpoint transferred_before (fact : OwnershipFact) (rs : list Request) : outcome (list Request) :=
  match rs with
  | [] => Ok []
  | request :: rest =>
      match (if str_eqb (cr_Callsign request) (of_Callsign fact) then List.find (transferred_by fact) (cr_RecipientTransfers request) else None) with
      | Some transfer => if same_transfer fact transfer then (known ← transferred_before fact rest; Ok (request :: known)) else Err ErrCommandConflict
      | None => transferred_before fact rest
      end
  end.

Definition transferring (fact : OwnershipFact) (request : Request) : bool :=
  str_eqb (cr_Callsign request) (of_Callsign fact) && bool_decide (cr_State request = StatePending) &&
  negb (str_eqb (cr_RecipientController request) (of_Owner fact) && bool_decide (effectiveRecipientStatus request = RecipientAssigned)) &&
  negb (str_empty (of_Owner fact) && bool_decide (effectiveRecipientStatus request = RecipientUnassigned)).

Definition TransferPending (t : ledger) (fact : OwnershipFact) : outcome (ledger * TransferResult) :=
  _ ← guard_err (negb (present (of_Airport fact)) || str_empty (of_Callsign fact) || negb (present (of_FactID fact)) || (of_Revision fact =? 0)%N ||
        negb (trimmed (of_Owner fact)) || negb (validUTC (of_ObservedAt fact))) (New_error "authoritative ownership fact is invalid");
  current ← lockedRequests t (of_Airport fact);
  known ← transferred_before fact current;
  match known with
  | _ :: _ => Ok (t, mk_transfer_result known (coordinationRevision current) true)
  | [] =>
      s ← fold_outcome (change_each (transferring fact) (λ request, TransferRecipient request (of_FactID fact) (of_Revision fact) (of_Owner fact) (of_ObservedAt fact))) (t, []) current;
      Ok (update_result s.1 current s.2)
  end.

(** ** Reading *)

Definition Get (t : ledger) (airport id : string) : outcome Request :=
  match List.find (λ row, str_eqb (lr_airport row) airport && str_eqb (lr_request_id row) id) t with
  | None => Err (Errorf "%w: %s" [AErr ErrRequestNotFound; AStr id])
  | Some row => validated (lr_payload row)
  end.

Definition ReplayAirport (t : ledger) (airport : string) : outcome (list Request) :=
  _ ← guard_err (negb (present airport)) (New_error "airport is required");
  match validate_all (requests t airport) with
  | Err e => Err (Errorf "validate persisted coordination request: %w" [AErr e])
  | m => _ ← m; Ok (requests t airport)
  end.

(** ** The service *)

Definition IsFMPRole (role : string) : bool := HasSuffix (ToUpper (TrimSpace role)) "_FMP".

(** Facts about the sender, which the server derives. *)
Record CommandContext := mk_context { ax_Airport : string; ax_Actor : string; ax_Role : string; ax_ReceivedAt : Time }.
Record SubmitCommand := mk_submit { sc_CommandID : string; sc_ExpectedRevision : Z; sc_Callsign : string; sc_Kind : RequestKind; sc_Payload : Payload }.
Record DecisionCommand := mk_decision_command { dm_CommandID : string; dm_ExpectedRevision : Z; dm_RequestID : string; dm_Reason : string }.

Definition validateContext (auth : CommandContext) : outcome unit :=
  guard_err (negb (present (ax_Airport auth)) || negb (present (ax_Actor auth)) || negb (present (ax_Role auth)) || negb (validUTC (ax_ReceivedAt auth)))
    (New_error "server-derived airport, actor, role, and UTC receipt time are required").

Section service.
(** Who tracks a flight at an airport; no one is the empty string. *)
Context (TrackingController : string → string → outcome string).

Definition Service_Submit (t : ledger) (auth : CommandContext) (command : SubmitCommand) : outcome (ledger * CommitResult) :=
  _ ← validateContext auth;
  _ ← guard_err (negb (IsFMPRole (ax_Role auth))) ErrUnauthorized;
  recipient ← TrackingController (ax_Airport auth) (sc_Callsign command);
  _ ← guard_err (negb (str_empty recipient) && negb (trimmed recipient)) (New_error "authoritative tracking controller is invalid");
  request ← New (sc_CommandID command) (ax_Airport auth) (sc_Callsign command) recipient (ax_Actor auth) (ax_Role auth) (sc_Kind command) (sc_Payload command) (ax_ReceivedAt auth);
  Submit t request (sc_ExpectedRevision command).

(** What a decision reads before the transaction that commits it *)
Definition prepare_decision (t : ledger) (auth : CommandContext) (command : DecisionCommand) (state : RequestState) : outcome (string * RequestDecision) :=
  _ ← validateContext auth;
  request ← Get t (ax_Airport auth) (dm_RequestID command);
  recipient ← TrackingController (ax_Airport auth) (cr_Callsign request);
  _ ← guard_err (str_empty recipient || negb (str_eqb recipient (cr_RecipientController request))) ErrWrongRecipient;
  _ ← guard_err (negb (str_eqb (ax_Role auth) recipient)) ErrUnauthorized;
  Ok (cr_ID request, mk_decision (dm_CommandID command) (ax_Airport auth) (ax_Actor auth) (ax_Role auth) recipient (cr_ID request) (cr_Kind request)
        StatePending state (dm_Reason command) (ax_ReceivedAt auth)).

Definition decide_command (t : ledger) (auth : CommandContext) (command : DecisionCommand) (state : RequestState) : outcome (ledger * CommitResult) :=
  d ← prepare_decision t auth command state;
  let '(id, decision) := d in Repository_Decide t id decision (dm_ExpectedRevision command).

Definition Accept (t : ledger) (auth : CommandContext) (command : DecisionCommand) := decide_command t auth command StateAccepted.
Definition Reject (t : ledger) (auth : CommandContext) (command : DecisionCommand) := decide_command t auth command StateRejected.
End service.

(** ** What an audience sees: [projection.go] *)

Record Audience := mk_audience { au_Controller : string; au_Role : string }.

Definition visible (audience : Audience) (request : Request) : bool :=
  (IsFMPRole (au_Role audience) && str_eqb (cr_SubmittedRole request) (au_Role audience)) ||
  (bool_decide (cr_State request = StatePending) && negb (bool_decide (effectiveRecipientStatus request = RecipientUnassigned)) &&
   str_eqb (cr_RecipientController request) (au_Controller audience)).

Definition projected_less (a b : Request) : bool :=
  if time_eqb (cr_CreatedAt a) (cr_CreatedAt b) then str_ltb (cr_ID a) (cr_ID b) else before (cr_CreatedAt a) (cr_CreatedAt b).

Definition with_status (request : Request) : Request := set_cr_RecipientStatus (effectiveRecipientStatus request) request.

Definition Project (rs : list Request) (audience : Audience) : outcome (list Request) :=
  match validate_all rs with
  | Err e => Err (Errorf "project invalid coordination request: %w" [AErr e])
  | m => _ ← m; Ok (sort_slice projected_less (filter (λ r, visible audience r = true) (with_status <$> rs)))
  end.

Definition Snapshot (t : ledger) (auth : CommandContext) : outcome TransferResult :=
  _ ← validateContext auth;
  rs ← ReplayAirport t (ax_Airport auth);
  projected ← Project rs (mk_audience (ax_Role auth) (ax_Role auth));
  Ok (mk_transfer_result projected (coordinationRevision rs) false).
