(* ===== verification/CoordinationFacts.v ===== *)
(** * How a coordination request evolves, and what a table of them holds

    Lemmas about [CoordinationRequest] and [CoordinationLedger]: every operation on
    a request is a step of one preorder, [evolved], and leaves a valid request;
    saving a request replaces the row of its identity or adds one. *)

From S2P Require Import Prelude GoTime CoordinationRequest CoordinationLedger.
From stdpp Require Import pretty gmap.
From Stdlib Require Import Strings.Ascii Strings.String.

Local Open Scope Z_scope.

(** ** Valid requests *)

Definition valid (r : Request) : Prop := Validate r = Ok ().

Lemma is_valid_iff r : is_valid r = true ↔ valid r.
Proof. unfold is_valid, valid. destruct (Validate r) as [[]| | |]; naive_solver. Qed.

Lemma validated_ok r r' : validated r = Ok r' ↔ r' = r ∧ valid r.
Proof. unfold validated, valid. destruct (Validate r) as [[]| | |]; simpl; naive_solver. Qed.

Definition pending (r : Request) : Prop := cr_State r = StatePending.

Lemma valid_pending r : valid r → pending r → cr_ResolvedAt r = None ∧ cr_SupersededBy r = None ∧ cr_Decision r = None ∧ cr_Expiry r = None.
Proof.
  unfold valid, Validate, pending. intros H E. repeat (apply bind_unit_iff in H as [_ H]). rewrite E, bool_decide_true in H by done.
  apply guard_err_ok in H. bsplit. by destruct (cr_ResolvedAt r), (cr_SupersededBy r), (cr_Decision r), (cr_Expiry r).
Qed.

Lemma valid_identity r : valid r → present (cr_CommandID r) = true ∧ cr_ID r = IDForCommand (cr_CommandID r).
Proof. unfold valid, Validate. intros [H _]%bind_unit_iff. apply guard_err_ok in H. bsplit. by rewrite str_eqb_eq in *. Qed.

(** A request that is not pending has been resolved. *)
Lemma valid_resolved r :
  valid r → ¬ pending r → ∃ at_, cr_ResolvedAt r = Some at_ ∧ validate_resolved r at_ = Ok ().
Proof.
  unfold valid, Validate, pending. intros H E. repeat (apply bind_unit_iff in H as [_ H]). rewrite bool_decide_false in H by done.
  destruct (cr_ResolvedAt r) as [at_|]; [by exists at_|done].
Qed.

Lemma resolved_superseded r at_ : validate_resolved r at_ = Ok () → cr_State r = StateSuperseded ↔ cr_SupersededBy r ≠ None.
Proof.
  unfold validate_resolved. intros (_ & H)%bind_unit_iff. apply bind_unit_iff in H as [H _]. apply guard_err_ok in H. bsplit.
  destruct (cr_SupersededBy r); case_bool_decide; naive_solver.
Qed.

Lemma resolved_decision r at_ :
  validate_resolved r at_ = Ok () →
  if decided (cr_State r) then ∃ d, cr_Decision r = Some d ∧ decision_ok r at_ d = true else cr_Decision r = None.
Proof.
  unfold validate_resolved. intros (_ & H)%bind_unit_iff. apply bind_unit_iff in H as [_ H]. apply bind_unit_iff in H as [H _].
  destruct (decided (cr_State r)); apply guard_err_ok in H; bsplit; destruct (cr_Decision r) as [d|]; naive_solver.
Qed.

Lemma IDForCommand_inj a b : IDForCommand a = IDForCommand b → a = b.
Proof. unfold IDForCommand. intros H. by apply (inj _) in H. Qed.

(** ** Evolution *)

(** What no operation changes *)
Definition identity (r : Request) :=
  (cr_ID r, cr_CommandID r, cr_Airport r, cr_Callsign r, cr_SubmittedBy r, cr_SubmittedRole r, cr_Kind r, cr_Payload r, cr_CreatedAt r).

(** The transfers lead from one controller to another. *)
Fixpoint leads (from : string) (transfers : list RecipientTransfer) (to : string) : Prop :=
  match transfers with
  | [] => from = to
  | t :: rest => tf_PreviousRecipient t = from ∧ from ≠ tf_NewRecipient t ∧ leads (tf_NewRecipient t) rest to
  end.

(** A pending request may be transferred and then be resolved; a resolved one is
    final, but for the clearance that follows an accepted one. *)
Definition evolved (r r' : Request) : Prop :=
  identity r' = identity r ∧ cr_Supersedes r' = cr_Supersedes r ∧
  if decide (pending r) then ∃ l, cr_RecipientTransfers r' = cr_RecipientTransfers r ++ l ∧ leads (cr_RecipientController r) l (cr_RecipientController r')
  else r' = r ∨ cr_State r = StateAccepted ∧ cr_Clearance r = None ∧ ∃ c, r' = set_cr_Clearance (Some c) r.

Lemma evolved_refl r : evolved r r.
Proof. unfold evolved. split_and!; [done..|]. case_decide; [exists []; rewrite app_nil_r; done|by left]. Qed.

Lemma leads_app a l b k c : leads a l b → leads b k c → leads a (l ++ k) c.
Proof. revert a. induction l as [|t l IH]; intros a; simpl; [by intros ->|]. intros (? & ? & ?) ?. naive_solver. Qed.

Lemma evolved_trans r1 r2 r3 : evolved r1 r2 → evolved r2 r3 → evolved r1 r3.
Proof.
  unfold evolved. intros (I1 & S1 & H1) (I2 & S2 & H2). split_and!; [congruence..|]. destruct (decide (pending r1)).
  - destruct H1 as (l1 & E1 & L1). destruct (decide (pending r2)).
    + destruct H2 as (l2 & E2 & L2). exists (l1 ++ l2). rewrite E2, E1, app_assoc. split; [done|by eapply leads_app].
    + destruct H2 as [-> |(_ & _ & c & ->)]; exists l1; done.
  - destruct H1 as [-> |(Ha & Hc & c & ->)].
    + destruct (decide (pending r1)); [done|]. done.
    + rewrite decide_False in H2 by done. destruct H2 as [-> |(_ & [=] & _)]. right. eauto.
Qed.

Ltac guards :=
  repeat match goal with
  | H : (_ ← guard_err _ _; _) = Ok _ |- _ => apply bind_unit_iff in H as [?%guard_err_ok H]
  | H : (_ ← Validate _; _) = Ok _ |- _ => apply bind_unit_iff in H as [? H]
  end; bsplit; rewrite ?bool_decide_eq_true, ?bool_decide_eq_false, ?is_valid_iff, ?str_eqb_eq, ?str_eqb_neq in *.

Lemma may_change_iff r at_ : may_change r at_ = true ↔ pending r ∧ validUTC at_ = true ∧ before at_ (cr_UpdatedAt r) = false.
Proof. unfold may_change. rewrite !andb_true_iff, bool_decide_eq_true, negb_true_iff. unfold pending. tauto. Qed.

Lemma Supersede_ok r next at_ r' :
  Supersede r next at_ = Ok r' →
  valid r ∧ pending r ∧ valid r' ∧ next ≠ cr_ID r ∧ r' = set_cr_SupersededBy (Some next) (resolve StateSuperseded at_ r).
Proof. unfold Supersede. intros H. guards. apply validated_ok in H as [-> H]. by apply may_change_iff in H2 as (? & ? & ?). Qed.

Lemma Expire_ok r fact r' :
  Expire r fact = Ok r' → valid r ∧ pending r ∧ valid r' ∧ r' = set_cr_Expiry (Some fact) (resolve StateExpired (ex_ExpiredAt fact) r).
Proof. unfold Expire. intros H. guards. apply validated_ok in H as [-> H]. rewrite may_change_iff in *. naive_solver. Qed.

Lemma Decide_ok r commandID actor role recipient next reason at_ r' :
  Decide r commandID actor role recipient next reason at_ = Ok r' →
  valid r ∧ pending r ∧ valid r' ∧ decided next = true ∧
  r' = set_cr_Decision (Some (mk_decision commandID (cr_Airport r) actor role recipient (cr_ID r) (cr_Kind r) (cr_State r) next reason at_)) (resolve next at_ r).
Proof. unfold Decide. intros H. guards. apply validated_ok in H as [-> H]. rewrite may_change_iff in *. naive_solver. Qed.

Lemma TransferRecipient_ok r fact revision recipient at_ r' :
  TransferRecipient r fact revision recipient at_ = Ok r' →
  valid r ∧ pending r ∧ valid r' ∧ cr_RecipientController r ≠ recipient ∧
  r' = set_cr_RecipientTransfers (cr_RecipientTransfers r ++ [mk_transfer fact revision (cr_RecipientController r) recipient at_])
         (set_cr_RecipientStatus (assignment recipient) (set_cr_UpdatedAt at_ (set_cr_RecipientController recipient r))).
Proof. unfold TransferRecipient. intros H. guards. apply validated_ok in H as [-> H]. rewrite may_change_iff in *. naive_solver. Qed.

Lemma Correlate_ok r fact r' :
  Correlate r fact = Ok r' → valid r ∧ cr_State r = StateAccepted ∧ cr_Clearance r = None ∧ valid r' ∧ r' = set_cr_Clearance (Some fact) r.
Proof. unfold Correlate. intros H. guards. apply validated_ok in H as [-> H]. split_and!; try done. by destruct (cr_Clearance r). Qed.

Lemma Supersede_evolved r next at_ r' : Supersede r next at_ = Ok r' → evolved r r'.
Proof. intros (_ & Hp & _ & _ & ->)%Supersede_ok. unfold evolved. split_and!; [done..|]. rewrite decide_True by done. exists []. simpl. by rewrite app_nil_r. Qed.

Lemma Expire_evolved r fact r' : Expire r fact = Ok r' → evolved r r'.
Proof. intros (_ & Hp & _ & ->)%Expire_ok. unfold evolved. split_and!; [done..|]. rewrite decide_True by done. exists []. simpl. by rewrite app_nil_r. Qed.

Lemma Decide_evolved r c a ro re next reason at_ r' : Decide r c a ro re next reason at_ = Ok r' → evolved r r'.
Proof. intros (_ & Hp & _ & _ & ->)%Decide_ok. unfold evolved. split_and!; [done..|]. rewrite decide_True by done. exists []. simpl. by rewrite app_nil_r. Qed.

Lemma TransferRecipient_evolved r fact revision recipient at_ r' : TransferRecipient r fact revision recipient at_ = Ok r' → evolved r r'.
Proof.
  intros (_ & Hp & _ & Hne & ->)%TransferRecipient_ok. unfold evolved. split_and!; [done..|]. rewrite decide_True by done.
  by exists [mk_transfer fact revision (cr_RecipientController r) recipient at_].
Qed.

Lemma Correlate_evolved r fact r' : Correlate r fact = Ok r' → evolved r r'.
Proof.
  intros (_ & Ha & Hc & _ & ->)%Correlate_ok. unfold evolved. split_and!; [done..|]. rewrite decide_False by (unfold pending; congruence). right. eauto.
Qed.

Lemma New_ok commandID airport flightID recipient actor role kind payload at_ r :
  New commandID airport flightID recipient actor role kind payload at_ = Ok r →
  valid r ∧ pending r ∧ cr_CommandID r = commandID ∧ cr_ID r = IDForCommand commandID ∧ cr_Airport r = airport ∧ cr_Callsign r = flightID ∧ cr_Kind r = kind ∧
  cr_RecipientController r = recipient ∧ cr_RecipientTransfers r = [] ∧ cr_Supersedes r = None ∧ cr_Decision r = None ∧ cr_Expiry r = None ∧ cr_Clearance r = None ∧ cr_SupersededBy r = None.
Proof. unfold New. intros [-> H]%validated_ok. done. Qed.

(** ** Tables *)

Definition payloads (t : ledger) : list Request := lr_payload <$> t.

(** All rows are as they were inserted, but for the payload, and of one airport. *)
Definition consistent (airport : string) (t : ledger) : Prop :=
  ∀ row, row ∈ t → lr_airport row = airport ∧ lr_request_id row = cr_ID (lr_payload row) ∧ cr_Airport (lr_payload row) = airport.

Lemma payloads_in t r : r ∈ payloads t ↔ ∃ row, row ∈ t ∧ lr_payload row = r.
Proof. unfold payloads. rewrite list_elem_of_fmap. naive_solver. Qed.

Lemma requests_in airport t r : consistent airport t → r ∈ requests t airport ↔ r ∈ payloads t.
Proof.
  intros Hc. unfold requests. rewrite list_elem_of_fmap, payloads_in. split.
  - intros (row & -> & Hin). apply elem_of_sort_slice, list_elem_of_filter in Hin as [_ Hin]. by exists row.
  - intros (row & Hin & <-). exists row. split; [done|]. apply elem_of_sort_slice, list_elem_of_filter. split; [|done].
    apply str_eqb_eq. by apply Hc.
Qed.

(** A table with one airport is read as a whole. *)
Lemma requests_perm airport t : consistent airport t → requests t airport ≡ₚ payloads t.
Proof.
  intros Hc. unfold requests, payloads. rewrite sort_slice_perm. apply fmap_Permutation.
  rewrite filter_all; [done|]. apply Forall_forall. intros row Hin. apply str_eqb_eq. by apply Hc.
Qed.

Lemma existsb_id t r : existsb (λ row, str_eqb (lr_request_id row) (cr_ID r)) t = true ↔ cr_ID r ∈ lr_request_id <$> t.
Proof.
  rewrite existsb_exists, list_elem_of_fmap. split.
  - intros (row & Hin%list_elem_of_In & E%str_eqb_eq). by exists row.
  - intros (row & E & Hin%list_elem_of_In). exists row. split; [done|]. by apply str_eqb_eq.
Qed.

Lemma save_consistent airport t r : consistent airport t → cr_Airport r = airport → consistent airport (save t r).
Proof.
  intros Hc Ha row. unfold save. destruct (existsb _ _) eqn:E.
  - intros (row0 & -> & Hin)%list_elem_of_fmap. destruct (Hc _ Hin) as (? & ? & ?). destruct (str_eqb _ _) eqn:Ei; [|done]. apply str_eqb_eq in Ei. simpl. split_and!; congruence.
  - intros [Hin| ->%list_elem_of_singleton]%elem_of_app; [by apply Hc|]. simpl. done.
Qed.

(** Saving replaces the request of the identity. *)
Lemma save_in airport t r r' : consistent airport t → r' ∈ payloads (save t r) ↔ r' = r ∨ r' ∈ payloads t ∧ cr_ID r' ≠ cr_ID r.
Proof.
  intros Hc. rewrite !payloads_in. unfold save. destruct (existsb _ _) eqn:E.
  - split.
    + intros (row & (row0 & -> & Hin)%list_elem_of_fmap & <-). destruct (str_eqb (lr_request_id row0) _) eqn:Ei; [by left|right].
      apply str_eqb_neq in Ei. destruct (Hc _ Hin) as (_ & Hi & _). split; [by exists row0|congruence].
    + intros [-> |[(row & Hin & <-) Hne]].
      * apply existsb_id, list_elem_of_fmap in E as (row & Ei & Hin). eexists. split; [apply list_elem_of_fmap; exists row; split; [done|exact Hin]|].
        simpl. by rewrite (proj2 (str_eqb_eq _ _) (eq_sym Ei)).
      * exists row. split; [|done]. apply list_elem_of_fmap. exists row. split; [|done]. destruct (str_eqb _ _) eqn:Ei; [|done].
        apply str_eqb_eq in Ei. destruct (Hc _ Hin) as (_ & Hi & _). congruence.
  - assert (Hn : cr_ID r ∉ lr_request_id <$> t) by (rewrite <-existsb_id; by rewrite E). split.
    + intros (row & [Hin| ->%list_elem_of_singleton]%elem_of_app & <-); [right|by left]. split; [by exists row|]. intros Ei. apply Hn.
      apply list_elem_of_fmap. exists row. split; [|done]. destruct (Hc _ Hin) as (_ & Hi & _). congruence.
    + intros [-> |[(row & Hin & <-) Hne]]; [exists (row_of r)|exists row]; (split; [apply elem_of_app|done]); [right; by apply list_elem_of_singleton|by left].
Qed.

Lemma save_ids t r : NoDup (lr_request_id <$> t) → NoDup (lr_request_id <$> save t r).
Proof.
  intros Hn. unfold save. destruct (existsb _ _) eqn:E.
  - rewrite <-list_fmap_compose, (list_fmap_ext _ lr_request_id); [done|]. intros i row _. simpl. by destruct (str_eqb _ _).
  - rewrite fmap_app. apply NoDup_app. split_and!; [done| |apply NoDup_singleton]. intros x Hx ->%list_elem_of_singleton.
    apply existsb_id in Hx. simpl in Hx. by rewrite Hx in E.
Qed.

Lemma save_length t r : List.length (save t r) = if existsb (λ row, str_eqb (lr_request_id row) (cr_ID r)) t then List.length t else S (List.length t).
Proof. unfold save. destruct (existsb _ _); [apply length_fmap|]. rewrite length_app. simpl. lia. Qed.

Lemma payloads_unique airport t r r' :
  consistent airport t → NoDup (lr_request_id <$> t) → r ∈ payloads t → r' ∈ payloads t → cr_ID r = cr_ID r' → r = r'.
Proof.
  intros Hc Hn (row & Hi & <-)%payloads_in (row' & Hi' & <-)%payloads_in E.
  destruct (Hc _ Hi) as (_ & E1 & _), (Hc _ Hi') as (_ & E2 & _).
  apply list_elem_of_lookup in Hi as [i Hi]. apply list_elem_of_lookup in Hi' as [j Hj].
  assert (i = j) as ->; [|congruence]. apply (NoDup_lookup _ i j (lr_request_id row) Hn); rewrite list_lookup_fmap; [by rewrite Hi|rewrite Hj; simpl; congruence].
Qed.

Lemma validate_all_ok rs : validate_all rs = Ok () ↔ ∀ r, r ∈ rs → valid r.
Proof.
  induction rs as [|r rs IH]; simpl; [split; [by intros _ ? ?%elem_of_nil|done]|]. rewrite bind_unit_iff, IH. split.
  - intros [H1 H2] x [-> |Hx]%elem_of_cons; [done|by apply H2].
  - intros H. split; [apply H; left|intros; apply H; by right].
Qed.

Lemma lockedRequests_ok t airport rs : lockedRequests t airport = Ok rs ↔ rs = requests t airport ∧ ∀ r, r ∈ rs → valid r.
Proof.
  unfold lockedRequests. destruct (validate_all (requests t airport)) as [[]| | |] eqn:E; simpl; (split; [try done|intros [-> H%validate_all_ok]; congruence]).
  intros [= <-]. split; [done|]. by apply validate_all_ok.
Qed.

(** ** The requests of a table as a list *)

Definition replace (r : Request) (l : list Request) : list Request := (λ x, if str_eqb (cr_ID x) (cr_ID r) then r else x) <$> l.

Lemma replace_in l r x : x ∈ replace r l ↔ x = r ∧ cr_ID r ∈ cr_ID <$> l ∨ x ∈ l ∧ cr_ID x ≠ cr_ID r.
Proof.
  unfold replace. rewrite list_elem_of_fmap. split.
  - intros (y & -> & Hy). destruct (str_eqb _ _) eqn:E; [left|right].
    + apply str_eqb_eq in E. split; [done|]. rewrite <-E. by apply list_elem_of_fmap_2.
    + by apply str_eqb_neq in E.
  - intros [[-> (y & E & Hy)%list_elem_of_fmap]|[Hx Hne]]; [exists y|exists x]; (split; [|done]).
    + by rewrite E, str_eqb_refl.
    + by rewrite (proj2 (str_eqb_neq _ _) Hne).
Qed.

Lemma save_payloads airport t r :
  consistent airport t → payloads (save t r) = if existsb (λ row, str_eqb (lr_request_id row) (cr_ID r)) t then replace r (payloads t) else payloads t ++ [r].
Proof.
  intros Hc. unfold save. destruct (existsb _ _); unfold payloads, replace; [|by rewrite fmap_app].
  rewrite <-!list_fmap_compose. apply list_fmap_ext. intros i row Hi. simpl.
  destruct (Hc row) as (_ & E & _); [by eapply list_elem_of_lookup_2|]. rewrite <-E. by destruct (str_eqb _ _).
Qed.

Lemma ids_payloads airport t : consistent airport t → cr_ID <$> payloads t = lr_request_id <$> t.
Proof.
  intros Hc. unfold payloads. rewrite <-list_fmap_compose. apply list_fmap_ext. intros i row Hi. simpl.
  destruct (Hc row) as (_ & E & _); [by eapply list_elem_of_lookup_2|]. done.
Qed.

Lemma save_known airport t r r0 : consistent airport t → r0 ∈ payloads t → cr_ID r = cr_ID r0 → payloads (save t r) = replace r (payloads t).
Proof.
  intros Hc Hin E. rewrite (save_payloads airport) by done. rewrite (proj2 (existsb_id t r)); [done|].
  rewrite <-(ids_payloads airport) by done. rewrite E. by apply list_elem_of_fmap_2.
Qed.

Lemma save_new airport t r : consistent airport t → cr_ID r ∉ cr_ID <$> payloads t → payloads (save t r) = payloads t ++ [r].
Proof.
  intros Hc Hn. rewrite (save_payloads airport) by done. destruct (existsb _ _) eqn:E; [|done]. apply existsb_id in E. by rewrite (ids_payloads airport) in Hn.
Qed.

Lemma id_unique (l : list Request) r r' : NoDup (cr_ID <$> l) → r ∈ l → r' ∈ l → cr_ID r = cr_ID r' → r = r'.
Proof.
  intros Hn [i Hi]%list_elem_of_lookup [j Hj]%list_elem_of_lookup E.
  assert (i = j) as ->; [|congruence]. apply (NoDup_lookup _ i j (cr_ID r) Hn); rewrite list_lookup_fmap; [by rewrite Hi|by rewrite Hj, E].
Qed.

(** ** Changing all requests that a fact concerns *)

Definition changed (concerned : Request → bool) (change : Request → outcome Request) (r : Request) : Request :=
  if concerned r then match change r with Ok r' => r' | _ => r end else r.

Lemma change_each_result concerned change airport todo : ∀ t done_ t' done',
  (∀ r r', change r = Ok r' → cr_ID r' = cr_ID r ∧ cr_Airport r' = cr_Airport r) →
  consistent airport t → NoDup (cr_ID <$> todo) → NoDup (cr_ID <$> payloads t) → (∀ r, r ∈ todo → r ∈ payloads t) →
  fold_outcome (change_each concerned change) (t, done_) todo = Ok (t', done') →
  consistent airport t' ∧ payloads t' = (λ r, if decide (cr_ID r ∈ cr_ID <$> todo) then changed concerned change r else r) <$> payloads t ∧
  done' = done_ ++ (changed concerned change <$> filter (λ r, concerned r = true) todo) ∧
  (∀ r, r ∈ todo → concerned r = true → change r = Ok (changed concerned change r)).
Proof.
  induction todo as [|r todo IH]; intros t done_ t' done' Hid Hc Hn Hnt Hin H.
  - injection H as <- <-. split_and!; [done| |by rewrite app_nil_r|by intros ? ?%elem_of_nil].
    symmetry. etrans; [|apply list_fmap_id]. apply list_fmap_ext. done.
  - rewrite fmap_cons in Hn. apply NoDup_cons in Hn as [Hr Hn].
    assert (Hother : ∀ x, x ∈ payloads t → cr_ID x = cr_ID r → x = r) by (intros x Hx E; apply (id_unique (payloads t)); [done|done|apply Hin; left|done]).
    simpl in H. apply bind_ok in H as ([t1 done1] & H1 & H). unfold change_each in H1. destruct (concerned r) eqn:Ec.
    + apply bind_ok in H1 as (r1 & Hr1 & [= <- <-]). destruct (Hid _ _ Hr1) as [Ei Ea].
      assert (Ech : changed concerned change r = r1) by (unfold changed; by rewrite Ec, Hr1).
      assert (Ep : payloads (save t r1) = replace r1 (payloads t)) by (apply (save_known airport t r1 r); [done|apply Hin; left|done]).
      assert (Hids : cr_ID <$> replace r1 (payloads t) = cr_ID <$> payloads t).
      { unfold replace. rewrite <-list_fmap_compose. apply list_fmap_ext. intros i x _. simpl. destruct (str_eqb _ _) eqn:E; [|done]. apply str_eqb_eq in E. by rewrite E. }
      apply IH in H as (Hc' & Hp & Hd & Hall); [|done| |done|by rewrite Ep, Hids|].
      * split_and!; [done| | |].
        -- rewrite Hp, Ep. unfold replace. rewrite <-list_fmap_compose. apply list_fmap_ext. intros i x Hx. apply list_elem_of_lookup_2 in Hx. simpl.
           destruct (str_eqb (cr_ID x) (cr_ID r1)) eqn:E.
           ++ apply str_eqb_eq in E. assert (x = r) as -> by (apply Hother; [done|congruence]).
              rewrite decide_False by (by rewrite Ei). by rewrite decide_True by left.
           ++ apply str_eqb_neq in E. apply decide_ext. rewrite ?fmap_cons, elem_of_cons. split; [by right|by intros [?|?]; [congruence|]].
        -- rewrite Hd, filter_cons, decide_True by done. rewrite fmap_cons, Ech. by rewrite <-app_assoc.
        -- intros x [-> |Hx]%elem_of_cons Hxc; [by rewrite Ech|by apply Hall].
      * apply save_consistent; [done|]. rewrite Ea. destruct (payloads_in t r) as [Hrow _]. destruct Hrow as (row & Hrow & <-); [apply Hin; left|]. by apply Hc.
      * intros x Hx. rewrite Ep. apply replace_in. right. split; [apply Hin; by right|]. rewrite Ei. intros E. apply Hr. rewrite <-E. by apply list_elem_of_fmap_2.
    + injection H1 as <- <-. apply IH in H as (Hc' & Hp & Hd & Hall); [|done|done|done|done|intros; apply Hin; by right].
      split_and!; [done| | |].
      * rewrite Hp. apply list_fmap_ext. intros i x Hx. apply list_elem_of_lookup_2 in Hx. destruct (decide (cr_ID x = cr_ID r)) as [E|E].
        -- assert (x = r) as -> by (by apply Hother). rewrite decide_False by done. rewrite decide_True by left. unfold changed. by rewrite Ec.
        -- apply decide_ext. rewrite ?fmap_cons, elem_of_cons. split; [by right|by intros [?|?]].
      * rewrite Hd, filter_cons, decide_False by (by rewrite Ec). done.
      * intros x [-> |Hx]%elem_of_cons Hxc; [congruence|by apply Hall].
Qed.
