(* ===== verification/CoordinationInvariant.v ===== *)
(** * The invariant of the ledger of coordination requests

    What holds of every table that the commands of a session lead to
    ([requests_ok]), that each operation of [CoordinationLedger] keeps it, and that
    the requests only evolve meanwhile. *)

From S2P Require Import Prelude GoTime CoordinationRequest CoordinationLedger CoordinationFacts.
From stdpp Require Import pretty gmap.
From Stdlib Require Import Strings.Ascii Strings.String.

Local Open Scope Z_scope.

(** ** The invariant *)

Record requests_ok (l : list Request) : Prop := mk_requests_ok {
  ro_ids : NoDup (cr_ID <$> l);
  ro_valid : ∀ r, r ∈ l → valid r;
  (** a flight has one pending request of a kind *)
  ro_pending : ∀ r r', r ∈ l → r' ∈ l → pending r → pending r' → cr_Callsign r = cr_Callsign r' → cr_Kind r = cr_Kind r' → r = r';
  (** a command identity is used for one submission or one decision *)
  ro_commands : ∀ r r' d, r ∈ l → r' ∈ l → cr_Decision r = Some d →
    dc_CommandID d ≠ cr_CommandID r' ∧ ∀ d', cr_Decision r' = Some d' → dc_CommandID d' = dc_CommandID d → r = r';
  (** the links between a request and the one that superseded it *)
  ro_superseded : ∀ r i, r ∈ l → cr_SupersededBy r = Some i →
    ∃ r', r' ∈ l ∧ cr_ID r' = i ∧ cr_Supersedes r' = Some (cr_ID r) ∧ cr_Callsign r' = cr_Callsign r ∧ cr_Kind r' = cr_Kind r ∧ cr_ResolvedAt r = Some (cr_CreatedAt r');
  ro_supersedes : ∀ r' i, r' ∈ l → cr_Supersedes r' = Some i → ∃ r, r ∈ l ∧ cr_ID r = i ∧ cr_SupersededBy r = Some (cr_ID r');
  (** the transfers lead from a first recipient to the present one *)
  ro_chain : ∀ r, r ∈ l → ∃ first, leads first (cr_RecipientTransfers r) (cr_RecipientController r) }.

Definition ledger_ok (airport : string) (t : ledger) : Prop := consistent airport t ∧ requests_ok (payloads t).

(** A command that no request and no decision of the table has used *)
Definition fresh_command (command : string) (l : list Request) : Prop :=
  ∀ x, x ∈ l → cr_CommandID x ≠ command ∧ ∀ d, cr_Decision x = Some d → dc_CommandID d ≠ command.

(** Requests that evolve, one at most with a new decision *)
Record evolves (f : Request → Request) (l : list Request) : Prop := mk_evolves {
  ev_step : ∀ x, x ∈ l → evolved x (f x);
  ev_valid : ∀ x, x ∈ l → valid (f x);
  ev_superseded : ∀ x, x ∈ l → cr_SupersededBy (f x) = cr_SupersededBy x;
  ev_decision : ∃ command id, ∀ x d, x ∈ l → cr_Decision (f x) = Some d → cr_Decision x = Some d ∨ cr_ID x = id ∧ dc_CommandID d = command ∧ fresh_command command l }.

Lemma evolved_pending r r' : evolved r r' → pending r' → pending r.
Proof. unfold evolved. intros (_ & _ & H) Hp. case_decide as E; [done|]. by destruct H as [-> |(_ & _ & c & ->)]. Qed.

Lemma evolved_id r r' : evolved r r' → cr_ID r' = cr_ID r ∧ cr_CommandID r' = cr_CommandID r ∧ cr_Airport r' = cr_Airport r ∧ cr_Callsign r' = cr_Callsign r ∧
  cr_Kind r' = cr_Kind r ∧ cr_CreatedAt r' = cr_CreatedAt r ∧ cr_Supersedes r' = cr_Supersedes r.
Proof. intros ([=] & ? & _). done. Qed.

Lemma evolved_resolved r r' : evolved r r' → ¬ pending r → cr_ResolvedAt r' = cr_ResolvedAt r.
Proof. unfold evolved. intros (_ & _ & H) Hp. rewrite decide_False in H by done. by destruct H as [-> |(_ & _ & c & ->)]. Qed.

Lemma evolves_ok f l : requests_ok l → evolves f l → requests_ok (f <$> l).
Proof.
  intros [I V P C S S' L] [E EV ES [command [id ED]]].
  assert (Ein : ∀ x, x ∈ f <$> l ↔ ∃ y, x = f y ∧ y ∈ l) by (intros; apply list_elem_of_fmap).
  split.
  - rewrite <-list_fmap_compose, (list_fmap_ext _ cr_ID); [done|]. intros i x Hx%list_elem_of_lookup_2. simpl. by apply evolved_id, E.
  - intros ? (r & -> & Hr)%Ein. by apply EV.
  - intros ? ? (r & -> & Hr)%Ein (r' & -> & Hr')%Ein Hp Hp' Hc Hk.
    destruct (evolved_id _ _ (E r Hr)) as (_ & _ & _ & E1 & E2 & _), (evolved_id _ _ (E r' Hr')) as (_ & _ & _ & E1' & E2' & _).
    f_equal. apply P; [done|done|by apply (evolved_pending r (f r)), Hp; apply E|by apply (evolved_pending r' (f r')), Hp'; apply E|congruence..].
  - intros ? ? d (r & -> & Hr)%Ein (r' & -> & Hr')%Ein Hd. destruct (evolved_id _ _ (E r' Hr')) as (_ & -> & _).
    destruct (ED r d Hr Hd) as [Hd0|(Hi & Hc & Hfresh)].
    + split; [by apply (C r r' d)|]. intros d' Hd' Ec. destruct (ED r' d' Hr' Hd') as [Hd0'|(Hi' & Hc' & Hfresh)].
      * f_equal. by apply (proj2 (C r r' d Hr Hr' Hd0) d').
      * destruct (Hfresh r Hr) as [_ Hf]. destruct (Hf d Hd0). congruence.
    + rewrite Hc. split; [intros Ex; by destruct (Hfresh r' Hr') as [[] _]|]. intros d' Hd' Ec. destruct (ED r' d' Hr' Hd') as [Hd0'|(Hi' & Hc' & _)].
      * destruct (Hfresh r' Hr') as [_ Hf]. by destruct (Hf d' Hd0').
      * f_equal. apply (id_unique l); [done..|congruence].
  - intros ? i (r & -> & Hr)%Ein Hs. rewrite ES in Hs by done. destruct (S r i Hr Hs) as (r' & Hr' & E1 & E2 & E3 & E4 & E5).
    exists (f r'). destruct (evolved_id _ _ (E r Hr)) as (-> & _ & _ & -> & -> & _), (evolved_id _ _ (E r' Hr')) as (-> & _ & _ & -> & -> & -> & ->).
    split_and!; try done; [apply Ein; by exists r'|]. rewrite (evolved_resolved r); [done|by apply E|].
    intros Hp. destruct (valid_pending r (V r Hr) Hp) as (_ & Hn & _). congruence.
  - intros ? i (r' & -> & Hr')%Ein Hs. destruct (evolved_id _ _ (E r' Hr')) as (E1 & _ & _ & _ & _ & _ & E2). rewrite E2 in Hs.
    destruct (S' r' i Hr' Hs) as (r & Hr & Ei & Es). exists (f r). rewrite E1, ES by done. split_and!; [apply Ein; by exists r| |done].
    by rewrite (proj1 (evolved_id _ _ (E r Hr))).
  - intros ? (r & -> & Hr)%Ein. destruct (L r Hr) as [first Hl]. pose proof (E r Hr) as (_ & _ & H). case_decide as Hp.
    + destruct H as (k & -> & Hk). exists first. by eapply leads_app.
    + destruct H as [-> |(_ & _ & c & ->)]; by exists first.
Qed.

(** ** The operations keep it *)

Definition advances (t t' : ledger) : Prop := ∀ r, r ∈ payloads t → ∃ r', r' ∈ payloads t' ∧ evolved r r'.

Lemma advances_refl t : advances t t.
Proof. intros r Hr. exists r. split; [done|apply evolved_refl]. Qed.

Lemma advances_trans t1 t2 t3 : advances t1 t2 → advances t2 t3 → advances t1 t3.
Proof. intros H1 H2 r Hr. destruct (H1 r Hr) as (r1 & Hr1 & E1), (H2 r1 Hr1) as (r2 & Hr2 & E2). exists r2. split; [done|by eapply evolved_trans]. Qed.

Lemma mapped_advances t t' f : payloads t' = f <$> payloads t → evolves f (payloads t) → advances t t'.
Proof. intros E [H _ _ _] r Hr. exists (f r). split; [rewrite E; by apply list_elem_of_fmap_2|by apply H]. Qed.

Lemma no_new_decision f l : (∀ x d, x ∈ l → cr_Decision (f x) = Some d → cr_Decision x = Some d) →
  ∃ command id, ∀ x d, x ∈ l → cr_Decision (f x) = Some d → cr_Decision x = Some d ∨ cr_ID x = id ∧ dc_CommandID d = command ∧ fresh_command command l.
Proof. intros H. exists "", "". intros x d Hx Hd. left. by apply H. Qed.

(** The request that is saved in place of the one of its identity *)
Definition replaced (r' x : Request) : Request := if str_eqb (cr_ID x) (cr_ID r') then r' else x.

Lemma replaced_evolves l r r' :
  requests_ok l → r ∈ l → evolved r r' → valid r' → cr_SupersededBy r' = cr_SupersededBy r →
  (∀ d, cr_Decision r' = Some d → cr_Decision r = Some d ∨ fresh_command (dc_CommandID d) l) → evolves (replaced r') l.
Proof.
  intros Hok Hr He Hv Hs Hd. destruct (evolved_id _ _ He) as (Ei & _).
  assert (Hone : ∀ x, x ∈ l → str_eqb (cr_ID x) (cr_ID r') = true → x = r).
  { intros x Hx E%str_eqb_eq. apply (id_unique l); [by apply Hok|done|done|congruence]. }
  split.
  - intros x Hx. unfold replaced. destruct (str_eqb _ _) eqn:E; [by rewrite (Hone x Hx E)|apply evolved_refl].
  - intros x Hx. unfold replaced. destruct (str_eqb _ _) eqn:E; [done|by apply Hok].
  - intros x Hx. unfold replaced. destruct (str_eqb _ _) eqn:E; [by rewrite (Hone x Hx E)|done].
  - exists (match cr_Decision r' with Some d => dc_CommandID d | None => "" end), (cr_ID r'). intros x d Hx. unfold replaced. destruct (str_eqb _ _) eqn:E; [|by left].
    intros Hdx. rewrite Hdx. rewrite (Hone x Hx E). destruct (Hd d Hdx) as [?|?]; [by left|right]. done.
Qed.

Lemma airport_of airport t r : consistent airport t → r ∈ payloads t → cr_Airport r = airport.
Proof. intros Hc (row & Hrow & <-)%payloads_in. by apply Hc. Qed.

Lemma save_ok airport t r r' :
  ledger_ok airport t → r ∈ payloads t → evolved r r' → valid r' → cr_SupersededBy r' = cr_SupersededBy r →
  (∀ d, cr_Decision r' = Some d → cr_Decision r = Some d ∨ fresh_command (dc_CommandID d) (payloads t)) →
  ledger_ok airport (save t r') ∧ advances t (save t r').
Proof.
  intros [Hc Hok] Hr He Hv Hs Hd. destruct (evolved_id _ _ He) as (Ei & _ & Ea & _).
  pose proof (save_known airport t r' r Hc Hr Ei) as Ep. pose proof (replaced_evolves _ _ _ Hok Hr He Hv Hs Hd) as Hev. split.
  - split; [apply save_consistent; [done|]; rewrite Ea; by apply (airport_of airport t)|]. rewrite Ep. by apply (evolves_ok (replaced r')).
  - by apply (mapped_advances _ _ (replaced r')).
Qed.

(** A fact that concerns pending requests, none of which it decides or supersedes *)
Lemma change_each_ok airport concerned change t t' done_ :
  ledger_ok airport t → (∀ r, concerned r = true → pending r) →
  (∀ r r', change r = Ok r' → evolved r r' ∧ valid r' ∧ cr_SupersededBy r' = cr_SupersededBy r ∧ cr_Decision r' = cr_Decision r) →
  fold_outcome (change_each concerned change) (t, []) (requests t airport) = Ok (t', done_) →
  ledger_ok airport t' ∧ advances t t' ∧ payloads t' = changed concerned change <$> payloads t ∧
  done_ = changed concerned change <$> filter (λ r, concerned r = true) (requests t airport) ∧
  (∀ r, r ∈ payloads t → concerned r = true → change r = Ok (changed concerned change r)).
Proof.
  intros [Hc Hok] Hpend Hchange H. pose proof (requests_perm airport t Hc) as Hperm.
  apply (change_each_result concerned change airport) in H as (Hc' & Hp & Hd & Hall); [|intros r r' H'; destruct (Hchange r r' H') as (He & _); by apply evolved_id in He as (? & _ & ? & _)|done| | |].
  2: { rewrite Hperm. apply Hok. }
  2: { apply Hok. }
  2: { intros r. by rewrite (requests_in airport) by done. }
  assert (Ep : payloads t' = changed concerned change <$> payloads t).
  { rewrite Hp. apply list_fmap_ext. intros i x Hx%list_elem_of_lookup_2. rewrite decide_True; [done|]. apply list_elem_of_fmap_2. by apply requests_in. }
  assert (Hall' : ∀ r, r ∈ payloads t → concerned r = true → change r = Ok (changed concerned change r)) by (intros r Hr; apply Hall; by apply requests_in).
  assert (Hev : evolves (changed concerned change) (payloads t)).
  { assert (Hx : ∀ x, x ∈ payloads t → changed concerned change x = x ∨ change x = Ok (changed concerned change x)).
    { intros x Hx. destruct (concerned x) eqn:E; [right; by apply Hall'|left]. unfold changed. by rewrite E. }
    split.
    - intros x Hin. destruct (Hx x Hin) as [-> |H']; [apply evolved_refl|by apply Hchange in H' as (? & _)].
    - intros x Hin. destruct (Hx x Hin) as [-> |H']; [by apply Hok|by apply Hchange in H' as (_ & ? & _)].
    - intros x Hin. destruct (Hx x Hin) as [-> |H']; [done|by apply Hchange in H' as (_ & _ & ? & _)].
    - apply no_new_decision. intros x d Hin. destruct (Hx x Hin) as [-> |H']; [done|]. apply Hchange in H' as (_ & _ & _ & ->). done. }
  split_and!; [|by eapply mapped_advances|done|done|done]. split; [done|]. rewrite Ep. by apply evolves_ok.
Qed.

Lemma TransferRecipient_keeps r fact revision recipient at_ r' :
  TransferRecipient r fact revision recipient at_ = Ok r' → evolved r r' ∧ valid r' ∧ cr_SupersededBy r' = cr_SupersededBy r ∧ cr_Decision r' = cr_Decision r.
Proof. intros H. split; [by eapply TransferRecipient_evolved|]. by apply TransferRecipient_ok in H as (_ & _ & ? & _ & ->). Qed.

Lemma Expire_keeps r fact r' :
  Expire r fact = Ok r' → evolved r r' ∧ valid r' ∧ cr_SupersededBy r' = cr_SupersededBy r ∧ cr_Decision r' = cr_Decision r.
Proof. intros H. split; [by eapply Expire_evolved|]. by apply Expire_ok in H as (_ & _ & ? & ->). Qed.

Lemma transferring_pending fact r : transferring fact r = true → pending r.
Proof. unfold transferring, pending. rewrite !andb_true_iff, bool_decide_eq_true. tauto. Qed.

Lemma expiring_pending fact r : expiring fact r = true → pending r.
Proof. unfold expiring, pending. rewrite !andb_true_iff, bool_decide_eq_true. tauto. Qed.

(** What the two facts do to a table *)
Definition transfer_all (fact : OwnershipFact) : Request → Request :=
  changed (transferring fact) (λ request, TransferRecipient request (of_FactID fact) (of_Revision fact) (of_Owner fact) (of_ObservedAt fact)).
Definition expire_all (fact : ExpiryFact) : Request → Request :=
  changed (expiring fact) (λ request, Expire request (mk_expiry (ef_FactID fact) (ef_Revision fact) (ef_Reason fact) (ef_OccurredAt fact))).

Lemma TransferPending_ok airport t fact t' result :
  ledger_ok airport t → of_Airport fact = airport → TransferPending t fact = Ok (t', result) →
  t' = t ∧ (∃ known, known ≠ [] ∧ transferred_before fact (requests t airport) = Ok known ∧ result = mk_transfer_result known (coordinationRevision (requests t airport)) true) ∨
  transferred_before fact (requests t airport) = Ok [] ∧ ledger_ok airport t' ∧ advances t t' ∧ payloads t' = transfer_all fact <$> payloads t ∧
    result = (update_result t' (requests t airport) (transfer_all fact <$> filter (λ r, transferring fact r = true) (requests t airport))).2 ∧
    (∀ r, r ∈ payloads t → transferring fact r = true →
       TransferRecipient r (of_FactID fact) (of_Revision fact) (of_Owner fact) (of_ObservedAt fact) = Ok (transfer_all fact r)).
Proof.
  intros Hok <- H. unfold TransferPending in H. guards. apply bind_ok in H as (current & [-> _]%lockedRequests_ok & H).
  apply bind_ok in H as ([|k known] & Hk & H); [right|left; injection H as <- <-; split; [done|by exists (k :: known)]].
  apply bind_ok in H as ([t1 done_] & Hf & [= <- <-]).
  destruct (change_each_ok _ _ _ _ _ _ Hok (transferring_pending fact) ltac:(intros r r'; apply TransferRecipient_keeps) Hf) as (? & ? & ? & -> & ?).
  done.
Qed.

Lemma ExpirePending_ok airport t fact t' result :
  ledger_ok airport t → ef_Airport fact = airport → ExpirePending t fact = Ok (t', result) →
  t' = t ∧ (∃ known, known ≠ [] ∧ expired_before fact (requests t airport) = Ok known ∧ result = mk_transfer_result known (coordinationRevision (requests t airport)) true) ∨
  expired_before fact (requests t airport) = Ok [] ∧ ledger_ok airport t' ∧ advances t t' ∧ payloads t' = expire_all fact <$> payloads t ∧
    result = (update_result t' (requests t airport) (expire_all fact <$> filter (λ r, expiring fact r = true) (requests t airport))).2 ∧
    (∀ r, r ∈ payloads t → expiring fact r = true → Expire r (mk_expiry (ef_FactID fact) (ef_Revision fact) (ef_Reason fact) (ef_OccurredAt fact)) = Ok (expire_all fact r)).
Proof.
  intros Hok <- H. unfold ExpirePending in H. guards. apply bind_ok in H as (current & [-> _]%lockedRequests_ok & H).
  apply bind_ok in H as ([|k known] & Hk & H); [right|left; injection H as <- <-; split; [done|by exists (k :: known)]].
  apply bind_ok in H as ([t1 done_] & Hf & [= <- <-]).
  destruct (change_each_ok _ _ _ _ _ _ Hok (expiring_pending fact) ltac:(intros r r'; apply Expire_keeps) Hf) as (? & ? & ? & -> & ?).
  done.
Qed.

Lemma find_in {A} (f : A → bool) l x : List.find f l = Some x → x ∈ l ∧ f x = true.
Proof. intros [H1 H2]%find_some. split; [by apply list_elem_of_In|done]. Qed.

Lemma decided_before_fresh id decision rs :
  decided_before id decision rs = Ok None → fresh_command (dc_CommandID decision) rs.
Proof.
  induction rs as [|r rs IH]; simpl; [intros _ x ?%elem_of_nil; done|]. destruct (str_eqb _ _) eqn:E; [done|]. apply str_eqb_neq in E.
  destruct (cr_Decision r) as [d|] eqn:Ed.
  - destruct (str_eqb (dc_CommandID d) _) eqn:Ec; [by destruct (same_decision _ _ _ _)|]. apply str_eqb_neq in Ec.
    intros H x [-> |Hx]%elem_of_cons; [|by apply IH]. split; [done|]. intros d'. rewrite Ed. by intros [= <-].
  - intros H x [-> |Hx]%elem_of_cons; [|by apply IH]. split; [done|]. by rewrite Ed.
Qed.

Lemma decided_before_known id decision rs r :
  decided_before id decision rs = Ok (Some r) → r ∈ rs ∧ cr_ID r = id ∧ ∃ d, cr_Decision r = Some d ∧ dc_CommandID d = dc_CommandID decision ∧ same_decision id decision r d = true.
Proof.
  induction rs as [|x rs IH]; simpl; [done|]. destruct (str_eqb _ _); [done|]. destruct (cr_Decision x) as [d|] eqn:Ed.
  - destruct (str_eqb (dc_CommandID d) _) eqn:Ec.
    + destruct (same_decision _ _ _ _) eqn:Es; [|done]. intros [= <-]. apply str_eqb_eq in Ec. split; [left|]. split; [|by exists d].
      unfold same_decision in Es. bsplit. by apply str_eqb_eq.
    + intros (? & ? & ?)%IH. split; [by right|done].
  - intros (? & ? & ?)%IH. split; [by right|done].
Qed.

Lemma fresh_perm command l k : l ≡ₚ k → fresh_command command l → fresh_command command k.
Proof. intros Hp H x Hx. apply H. by rewrite Hp. Qed.

Lemma check_revision_ok rs expected u : check_revision rs expected = Ok u → coordinationRevision rs = expected.
Proof. unfold check_revision. intros H%guard_err_ok. apply negb_false_iff in H. lia. Qed.

Lemma Repository_Decide_ok airport t id decision expected t' result :
  ledger_ok airport t → dc_Airport decision = airport → Repository_Decide t id decision expected = Ok (t', result) →
  t' = t ∧ (∃ r, decided_before id decision (requests t airport) = Ok (Some r) ∧ result = mk_commit (Some r) None (coordinationRevision (requests t airport)) true) ∨
  ∃ r r', decided_before id decision (requests t airport) = Ok None ∧ coordinationRevision (requests t airport) = expected ∧
    r ∈ payloads t ∧ cr_ID r = id ∧ pending r ∧ cr_RecipientController r = dc_AuthoritativeRecipient decision ∧
    Decide r (dc_CommandID decision) (dc_Actor decision) (dc_Role decision) (dc_AuthoritativeRecipient decision) (dc_AfterState decision) (dc_Reason decision) (dc_ReceivedAt decision) = Ok r' ∧
    t' = save t r' ∧ ledger_ok airport t' ∧ advances t t' ∧ result = mk_commit (Some r') None (u64 (expected + 1)) false.
Proof.
  intros Hok <- H. pose proof Hok as [Hc Hro]. unfold Repository_Decide in H. apply bind_ok in H as (current & [-> _]%lockedRequests_ok & H).
  apply bind_ok in H as ([r|] & Hk & H); [left; injection H as <- <-; split; [done|by exists r]|right].
  apply bind_ok in H as (u & Hrev%check_revision_ok & H). destruct (List.find _ _) as [r|] eqn:Ef; [|done]. apply find_in in Ef as [Hin Ei%str_eqb_eq].
  rewrite (requests_in _ t r Hc) in Hin. guards. apply bind_ok in H as (r' & Hd & [= <- <-]). exists r, r'.
  pose proof (Decide_evolved _ _ _ _ _ _ _ _ _ Hd) as He. pose proof (Decide_ok _ _ _ _ _ _ _ _ _ Hd) as (_ & Hp & Hv & _ & Er').
  assert (Hsave : ledger_ok (dc_Airport decision) (save t r') ∧ advances t (save t r')).
  { apply (save_ok _ t r); [done|done|done|done|by rewrite Er'|]. intros d E. right. rewrite Er' in E. injection E as <-. simpl.
    eapply fresh_perm; [apply (requests_perm _ t Hc)|]. by apply decided_before_fresh in Hk. }
  destruct Hsave. split_and!; done || congruence.
Qed.

Lemma find_correlated_in fact rs r : find_correlated fact rs = Ok (Some r) → r ∈ rs ∧ correlates fact r = Ok true.
Proof.
  induction rs as [|x rs IH]; simpl; [done|]. intros (b & Hb & H)%bind_ok. destruct b; [injection H as ->; split; [left|done]|].
  apply IH in H as [? ?]. split; [by right|done].
Qed.

Lemma CorrelateAccepted_ok airport t fact t' result :
  ledger_ok airport t → cf_Airport fact = airport → CorrelateAccepted t fact = Ok (t', result) →
  t' = t ∧ cm_Revision result = coordinationRevision (requests t airport) ∧ (cm_Request result = None ∨ cm_Duplicate result = true) ∨
  ∃ r r', r ∈ payloads t ∧ correlates fact r = Ok true ∧ (∀ x c, x ∈ payloads t → cr_Clearance x = Some c → ca_FactID c ≠ cf_FactID fact) ∧
    Correlate r (mk_clearance (cf_FactID fact) (cf_Kind fact) (cf_Value fact) (cf_Issuer fact) (cf_ObservedAt fact)) = Ok r' ∧
    t' = save t r' ∧ ledger_ok airport t' ∧ advances t t' ∧ result = mk_commit (Some r') None (u64 (coordinationRevision (requests t airport) + 1)) false.
Proof.
  intros Hok <- H. pose proof Hok as [Hc Hro]. unfold CorrelateAccepted in H. apply bind_unit_iff in H as [_ H].
  apply bind_ok in H as (current & [-> _]%lockedRequests_ok & H). destruct (List.find _ _) as [r|] eqn:Ef; [left; injection H as <- <-; split_and!; [done|done|by right]|].
  apply bind_ok in H as ([r|] & Hf & H); [right|left; injection H as <- <-; split_and!; [done|done|by left]].
  apply find_correlated_in in Hf as [Hin Hcor]. rewrite elem_of_reverse, (requests_in _ t r Hc) in Hin. apply bind_ok in H as (r' & Hr & [= <- <-]).
  pose proof (Correlate_evolved _ _ _ Hr) as He. pose proof (Correlate_ok _ _ _ Hr) as (_ & _ & _ & Hv & Er').
  destruct (save_ok _ t r r' Hok Hin He Hv) as [? ?]; [by rewrite Er'|intros d E; left; by rewrite Er' in E|].
  exists r, r'. split_and!; try done. intros x c Hx Hxc.
  assert (Hin' : In x (reverse (requests t (cf_Airport fact)))) by (apply list_elem_of_In, elem_of_reverse; by apply requests_in).
  pose proof (find_none _ _ Ef x Hin') as Hn. cbv beta in Hn. rewrite Hxc in Hn. by apply str_eqb_neq in Hn.
Qed.

(** ** Submitting keeps it *)

Lemma submitted_before_fresh request rs :
  submitted_before request rs = Ok None → ∀ x, x ∈ rs → cr_ID x ≠ cr_ID request ∧ ∀ d, cr_Decision x = Some d → dc_CommandID d ≠ cr_CommandID request.
Proof.
  induction rs as [|r rs IH]; simpl; [by intros _ x ?%elem_of_nil|]. intros (u & _ & H)%bind_ok. apply bind_unit_iff in H as [Hg%guard_err_ok H].
  destruct (str_eqb (cr_ID r) _) eqn:E; [by destruct (same_submission _ _)|]. apply str_eqb_neq in E.
  intros x [-> |Hx]%elem_of_cons; [|by apply IH]. split; [done|]. intros d Hd. rewrite Hd in Hg. by apply str_eqb_neq in Hg.
Qed.

Lemma submitted_before_known request rs r :
  submitted_before request rs = Ok (Some r) → r ∈ rs ∧ cr_ID r = cr_ID request ∧ same_submission r request = true.
Proof.
  induction rs as [|x rs IH]; simpl; [done|]. intros (u & _ & H)%bind_ok. apply bind_unit_iff in H as [_ H].
  destruct (str_eqb (cr_ID x) _) eqn:E.
  - destruct (same_submission x request) eqn:Es; [|done]. injection H as <-. apply str_eqb_eq in E. split; [left|done].
  - apply IH in H as (? & ? & ?). split; [by right|done].
Qed.

Lemma superseded_by_kind_iff request c :
  superseded_by_kind request c = true ↔ cr_Callsign c = cr_Callsign request ∧ cr_Kind c = cr_Kind request ∧ pending c.
Proof. unfold superseded_by_kind, pending. rewrite !andb_true_iff, str_eqb_eq, !bool_decide_eq_true. tauto. Qed.

(** A new request, without one that it supersedes *)
Lemma added_ok l r :
  requests_ok l → valid r → pending r → cr_ID r ∉ cr_ID <$> l → cr_Supersedes r = None → cr_RecipientTransfers r = [] →
  (∀ x d, x ∈ l → cr_Decision x = Some d → dc_CommandID d ≠ cr_CommandID r) → (∀ x, x ∈ l → superseded_by_kind r x = false) → requests_ok (l ++ [r]).
Proof.
  intros [I V P C S S' L] Hv Hp Hid Hsup Htr Hcmd Hkind. destruct (valid_pending r Hv Hp) as (_ & Hsb & Hdec & _).
  assert (Ein : ∀ x, x ∈ l ++ [r] ↔ x ∈ l ∨ x = r) by (intros; rewrite elem_of_app, list_elem_of_singleton; done).
  assert (Hother : ∀ x, x ∈ l → pending x → cr_Callsign x = cr_Callsign r → cr_Kind x = cr_Kind r → False).
  { intros x Hx H1 H2 H3. specialize (Hkind x Hx). assert (superseded_by_kind r x = true) by (by apply superseded_by_kind_iff). congruence. }
  split.
  - rewrite fmap_app. apply NoDup_app. split_and!; [done| |apply NoDup_singleton]. by intros x Hx ->%list_elem_of_singleton.
  - intros x [Hx| ->]%Ein; [by apply V|done].
  - intros x x' [Hx| ->]%Ein [Hx'| ->]%Ein H1 H2 H3 H4; [by apply P|by destruct (Hother x)|by destruct (Hother x')|done].
  - intros x x' d [Hx| ->]%Ein [Hx'| ->]%Ein Hd; [by apply C| |congruence..]. split; [by eapply Hcmd|]. intros d' Hd'. congruence.
  - intros x i [Hx| ->]%Ein Hi; [|congruence]. destruct (S x i Hx Hi) as (r' & ? & ?). exists r'. split; [apply Ein; by left|done].
  - intros x i [Hx| ->]%Ein Hi; [|congruence]. destruct (S' x i Hx Hi) as (r' & ? & ?). exists r'. split; [apply Ein; by left|done].
  - intros x [Hx| ->]%Ein; [by apply L|]. exists (cr_RecipientController r). by rewrite Htr.
Qed.

Lemma validate_supersedes r o : pending r → Validate (set_cr_Supersedes o r) = Validate r.
Proof. intros E. unfold Validate. simpl. rewrite E. done. Qed.

(** A new request and the one that it supersedes *)
Lemma superseding_ok l r c c' :
  requests_ok l → valid r → pending r → cr_ID r ∉ cr_ID <$> l → cr_RecipientTransfers r = [] →
  (∀ x d, x ∈ l → cr_Decision x = Some d → dc_CommandID d ≠ cr_CommandID r) → c ∈ l → superseded_by_kind r c = true →
  Supersede c (cr_ID r) (cr_CreatedAt r) = Ok c' → requests_ok (replace c' (l ++ [set_cr_Supersedes (Some (cr_ID c')) r])).
Proof.
  intros Hok Hv Hp Hid Htr Hcmd Hc Hk Hs. pose proof Hok as [I V P C S S' L]. destruct (valid_pending r Hv Hp) as (_ & Hsb & Hdec & _).
  apply superseded_by_kind_iff in Hk as (Hk1 & Hk2 & Hk3). pose proof (Supersede_evolved _ _ _ _ Hs) as He. destruct (evolved_id _ _ He) as (Ei & Ec1 & _ & Ec2 & Ec3 & _ & Ec4).
  destruct (valid_pending c (V c Hc) Hk3) as (_ & Hcs & Hcd & _).
  apply Supersede_ok in Hs as (_ & _ & Hv' & Hne & Ec'). set (r1 := set_cr_Supersedes (Some (cr_ID c')) r).
  assert (Hrid : cr_ID r ≠ cr_ID c) by (intros E; apply Hid; rewrite E; by apply list_elem_of_fmap_2).
  assert (Hsame : ∀ x, x ∈ l → cr_ID x = cr_ID c' → x = c) by (intros x Hx E; apply (id_unique l); [done..|congruence]).
  assert (Ein : ∀ x, x ∈ replace c' (l ++ [r1]) ↔ x ∈ l ∧ x ≠ c ∨ x = c' ∨ x = r1).
  { intros x. rewrite replace_in, fmap_app, !elem_of_app, !list_elem_of_singleton. split.
    - intros [[-> _]|[[Hx| ->] Hxi]]; [right; by left|left; split; [done|by intros ->]|right; by right].
    - intros [[Hx Hxc]|[-> | ->]]; [right|left|right]; split; try (by left); try (by right); try done.
      + intros E. by apply Hxc, Hsame.
      + left. rewrite Ei. by apply list_elem_of_fmap_2.
      + simpl. congruence. }
  assert (Hc'np : ¬ pending c') by (rewrite Ec'; done). assert (Hc'd : cr_Decision c' = None) by (by rewrite Ec'). assert (Hr1d : cr_Decision r1 = None) by exact Hdec.
  assert (Hlc : ∀ x, x ∈ l → x = c ∨ x ∈ l ∧ x ≠ c) by (intros x Hx; destruct (decide (cr_ID x = cr_ID c')) as [E|E]; [left; by apply Hsame|right; split; [done|by intros ->]]).
  assert (Hnot : ∀ x, x ∈ l → x ≠ c → cr_Callsign x = cr_Callsign r → cr_Kind x = cr_Kind r → pending x → False) by (intros x Hx Hxc E1 E2 E3; apply Hxc, P; done || congruence).
  split.
  - unfold replace. rewrite <-list_fmap_compose, (list_fmap_ext _ cr_ID).
    + rewrite fmap_app. apply NoDup_app. split_and!; [done| |apply NoDup_singleton]. by intros x Hx ->%list_elem_of_singleton.
    + intros i x _. simpl. destruct (str_eqb _ _) eqn:E; [|done]. by apply str_eqb_eq in E.
  - intros x [[Hx _]|[-> | ->]]%Ein; [by apply V|done|]. unfold valid, r1. by rewrite validate_supersedes.
  - intros x x' [[Hx Hxc]|[-> | ->]]%Ein [[Hx' Hxc']|[-> | ->]]%Ein H1 H2 H3 H4; try done; [by apply P|by destruct (Hnot x)|by destruct (Hnot x')].
  - intros x x' d [[Hx Hxc]|[-> | ->]]%Ein [[Hx' Hxc']|[-> | ->]]%Ein Hd; try congruence; [by apply C| |].
    + split; [rewrite Ec1; by apply (C x c d)|]. intros d' Hd'. congruence.
    + split; [by eapply Hcmd|]. intros d' Hd'. simpl in Hd'. congruence.
  - intros x i [[Hx Hxc]|[-> | ->]]%Ein Hi.
    + destruct (S x i Hx Hi) as (y & Hy & E1 & E2 & E3 & E4 & E5). destruct (Hlc y Hy) as [-> |Hyc]; [exists c'|exists y]; (split; [apply Ein; tauto|]); [|done].
      rewrite Ei, Ec2, Ec3, Ec4. split_and!; try done. by rewrite Ec'.
    + rewrite Ec' in Hi. injection Hi as <-. exists r1. split; [apply Ein; tauto|]. simpl. split_and!; try done; [congruence..|by rewrite Ec'].
    + simpl in Hi. congruence.
  - intros x i [[Hx Hxc]|[-> | ->]]%Ein Hi.
    + destruct (S' x i Hx Hi) as (y & Hy & E1 & E2). exists y. split; [|done]. apply Ein. left. split; [done|]. intros ->. congruence.
    + rewrite Ec4 in Hi. destruct (S' c i Hc Hi) as (y & Hy & E1 & E2). exists y. rewrite Ei. split; [|done]. apply Ein. left. split; [done|]. intros ->. congruence.
    + injection Hi as <-. exists c'. split; [apply Ein; tauto|]. split; [done|]. by rewrite Ec'.
  - intros x [[Hx _]|[-> | ->]]%Ein; [by apply L| |exists (cr_RecipientController r); simpl; by rewrite Htr].
    rewrite Ec'. exact (L c Hc).
Qed.

(** A request that was just made *)
Definition new_request (r : Request) : Prop :=
  valid r ∧ pending r ∧ cr_Supersedes r = None ∧ cr_RecipientTransfers r = [] ∧ cr_Clearance r = None.

Lemma New_new commandID airport flightID recipient actor role kind payload at_ r :
  New commandID airport flightID recipient actor role kind payload at_ = Ok r → new_request r.
Proof. intros H%New_ok. unfold new_request. tauto. Qed.

(** What a submission adds *)
Inductive submitted (t : ledger) (request : Request) : ledger → Request → option Request → Prop :=
| submitted_alone :
    (∀ x, x ∈ payloads t → superseded_by_kind request x = false) → submitted t request (save t request) request None
| submitted_superseding c c' :
    c ∈ payloads t → superseded_by_kind request c = true → Supersede c (cr_ID request) (cr_CreatedAt request) = Ok c' →
    submitted t request (save (save t (set_cr_Supersedes (Some (cr_ID c')) request)) c') (set_cr_Supersedes (Some (cr_ID c')) request) (Some c').

Lemma Submit_ok airport t request expected t' result :
  ledger_ok airport t → cr_Airport request = airport → Submit t request expected = Ok (t', result) →
  t' = t ∧ (∃ r, submitted_before request (requests t airport) = Ok (Some r) ∧ result = mk_commit (Some r) None (coordinationRevision (requests t airport)) true) ∨
  submitted_before request (requests t airport) = Ok None ∧ coordinationRevision (requests t airport) = expected ∧
    ∃ r superseded, submitted t request t' r superseded ∧ result = mk_commit (Some r) superseded (u64 (coordinationRevision (requests t airport) + 1)) false.
Proof.
  intros [Hc Hok] <- H. unfold Submit in H. apply bind_unit_iff in H as [_ H]. apply bind_ok in H as ([r|] & Hk & H); [left; injection H as <- <-; split; [done|by exists r]|right].
  apply bind_ok in H as (u & Hrev%check_revision_ok & H). split_and!; [done|done|]. destruct (List.find _ _) as [c|] eqn:Ef.
  - apply find_in in Ef as [Hin Ec]. rewrite elem_of_reverse, (requests_in _ t c Hc) in Hin. apply bind_ok in H as (c' & Hs & [= <- <-]).
    exists (set_cr_Supersedes (Some (cr_ID c')) request), (Some c'). split; [by apply (submitted_superseding t request c c')|done].
  - injection H as <- <-. exists request, None. split; [|done]. apply submitted_alone. intros x Hx. apply (find_none _ _ Ef). apply list_elem_of_In, elem_of_reverse. by apply requests_in.
Qed.

Lemma submitted_payloads airport t request t' r superseded :
  ledger_ok airport t → cr_ID request ∉ cr_ID <$> payloads t → submitted t request t' r superseded → cr_Airport request = airport →
  consistent airport t' ∧ payloads t' = match superseded with Some c' => replace c' (payloads t ++ [r]) | None => payloads t ++ [r] end.
Proof.
  intros [Hc Hok] Hid [Hn|c c' Hin Hk Hs] <-.
  - split; [by apply save_consistent|]. by apply (save_new _ t request Hc).
  - pose proof (Supersede_evolved _ _ _ _ Hs) as He. destruct (evolved_id _ _ He) as (Ei & _ & Ea & _).
    set (r1 := set_cr_Supersedes (Some (cr_ID c')) request). assert (Hc1 : consistent (cr_Airport request) (save t r1)) by (by apply save_consistent).
    assert (E1 : payloads (save t r1) = payloads t ++ [r1]) by (apply (save_new _ t r1 Hc); exact Hid).
    split; [apply save_consistent; [done|]; rewrite Ea; by apply (airport_of _ t)|].
    rewrite (save_known _ (save t r1) c' c Hc1); [by rewrite E1| |done]. rewrite E1. apply elem_of_app. by left.
Qed.

Lemma submitted_ok airport t request t' r superseded :
  ledger_ok airport t → new_request request → cr_Airport request = airport → submitted_before request (requests t airport) = Ok None →
  submitted t request t' r superseded → ledger_ok airport t' ∧ advances t t' ∧ r ∈ payloads t'.
Proof.
  intros Hl (Hv & Hp & Hs & Htr & _) Ha Hb Hsub. pose proof Hl as [Hc Hok].
  assert (Hfresh : ∀ x, x ∈ payloads t → cr_ID x ≠ cr_ID request ∧ ∀ d, cr_Decision x = Some d → dc_CommandID d ≠ cr_CommandID request).
  { intros x Hx. apply (submitted_before_fresh _ _ Hb). by apply requests_in. }
  assert (Hid : cr_ID request ∉ cr_ID <$> payloads t) by (intros (x & E & Hx)%list_elem_of_fmap; by destruct (Hfresh x Hx) as [[] _]).
  destruct (submitted_payloads _ _ _ _ _ _ Hl Hid Hsub Ha) as [Hc' Hp']. destruct Hsub as [Hn|c c' Hin Hk Hss].
  - split_and!.
    + split; [done|]. rewrite Hp'. apply added_ok; try done. intros x d Hx Hd. by apply (Hfresh x Hx).
    + intros x Hx. exists x. split; [rewrite Hp'; apply elem_of_app; by left|apply evolved_refl].
    + rewrite Hp'. apply elem_of_app. right. left.
  - pose proof (Supersede_evolved _ _ _ _ Hss) as He. destruct (evolved_id _ _ He) as (Ei & _). split_and!.
    + split; [done|]. rewrite Hp'. apply (superseding_ok _ request c c'); try done. intros x d Hx Hd. by apply (Hfresh x Hx).
    + intros x Hx. rewrite Hp'. destruct (decide (cr_ID x = cr_ID c')) as [E|E].
      * assert (x = c) as -> by (apply (id_unique (payloads t)); [by apply Hok|done|done|congruence]). exists c'. split; [|done].
        apply replace_in. left. split; [done|]. rewrite Ei, fmap_app. apply elem_of_app. left. by apply list_elem_of_fmap_2.
      * exists x. split; [|apply evolved_refl]. apply replace_in. right. split; [apply elem_of_app; by left|done].
    + rewrite Hp'. apply replace_in. right. split; [apply elem_of_app; right; left|]. simpl. intros E. destruct (Hfresh c Hin) as [[] _]. congruence.
Qed.

(** ** Reachable tables *)

(** A transaction at the airport: the revision that the command expected, the table
    after it, and the revision it answers. A decision may have been prepared at any
    time before. *)
Inductive ledger_call (airport : string) (t : ledger) : option Z → ledger → Z → Prop :=
| call_submit owners auth command t' result : ax_Airport auth = airport → Service_Submit owners t auth command = Ok (t', result) →
    ledger_call airport t (Some (sc_ExpectedRevision command)) t' (cm_Revision result)
| call_decide id decision expected t' result : dc_Airport decision = airport → Repository_Decide t id decision expected = Ok (t', result) →
    ledger_call airport t (Some expected) t' (cm_Revision result)
| call_transfer fact t' result : of_Airport fact = airport → TransferPending t fact = Ok (t', result) → ledger_call airport t None t' (tr_Revision result)
| call_expire fact t' result : ef_Airport fact = airport → ExpirePending t fact = Ok (t', result) → ledger_call airport t None t' (tr_Revision result)
| call_correlate fact t' result : cf_Airport fact = airport → CorrelateAccepted t fact = Ok (t', result) → ledger_call airport t None t' (cm_Revision result).

Definition ledger_step (airport : string) (t t' : ledger) : Prop := ∃ expected answer, ledger_call airport t expected t' answer.

Lemma Service_Submit_ok owners t auth command t' result :
  Service_Submit owners t auth command = Ok (t', result) →
  ∃ request, new_request request ∧ cr_Airport request = ax_Airport auth ∧ cr_CommandID request = sc_CommandID command ∧ Submit t request (sc_ExpectedRevision command) = Ok (t', result).
Proof.
  unfold Service_Submit. intros H. apply bind_unit_iff in H as [_ H]. apply bind_unit_iff in H as [_ H]. apply bind_ok in H as (recipient & _ & H).
  apply bind_unit_iff in H as [_ H]. apply bind_ok in H as (request & Hnew & H). exists request.
  split; [by eapply New_new|]. apply New_ok in Hnew. split_and!; [tauto..|done].
Qed.

Lemma ledger_step_ok airport t t' : ledger_ok airport t → ledger_step airport t t' → ledger_ok airport t' ∧ advances t t'.
Proof.
  intros Hok (expected & answer & [owners auth command t1 result Ha H|id decision expected1 t1 result Ha H|fact t1 result Ha H|fact t1 result Ha H|fact t1 result Ha H]).
  - apply Service_Submit_ok in H as (request & Hnew & Har & _ & H). rewrite Ha in Har.
    apply (Submit_ok airport) in H as [[-> _]|(Hb & _ & r & superseded & Hs & _)]; [split; [done|apply advances_refl]| |done|done].
    by destruct (submitted_ok _ _ _ _ _ _ Hok Hnew Har Hb Hs) as (? & ? & _).
  - apply (Repository_Decide_ok airport) in H as [[-> _]|(r & r' & H)]; [split; [done|apply advances_refl]|tauto|done|done].
  - apply (TransferPending_ok airport) in H as [[-> _]|H]; [split; [done|apply advances_refl]|tauto|done|done].
  - apply (ExpirePending_ok airport) in H as [[-> _]|H]; [split; [done|apply advances_refl]|tauto|done|done].
  - apply (CorrelateAccepted_ok airport) in H as [[-> _]|(r & r' & H)]; [split; [done|apply advances_refl]|tauto|done|done].
Qed.

Lemma empty_ok airport : ledger_ok airport [].
Proof. split; [by intros row ?%elem_of_nil|]. split; [constructor|..]; by intros ? ?%elem_of_nil || intros ? ? ?%elem_of_nil || intros ? ? ? ?%elem_of_nil. Qed.

Lemma steps_ok airport t t' : ledger_ok airport t → rtc (ledger_step airport) t t' → ledger_ok airport t' ∧ advances t t'.
Proof.
  intros Hok H. induction H as [t|t1 t2 t3 H1 _ IH]; [split; [done|apply advances_refl]|]. destruct (ledger_step_ok _ _ _ Hok H1) as [H2 A1].
  destruct (IH H2) as [H3 A2]. split; [done|by eapply advances_trans].
Qed.
