(* ===== verification/CoordinationRevision.v ===== *)
(** * The revision of the ledger of coordination requests

    [coordinationRevision] counts submissions, decisions, transfers, expiries and
    clearances. The lemmas say by how much each operation of [CoordinationLedger]
    raises it, which needs that the keys of the facts can be told apart. *)

From S2P Require Import Prelude GoTime CoordinationRequest CoordinationLedger CoordinationFacts.
From S2P Require Import CoordinationInvariant.
From stdpp Require Import pretty gmap.
From Stdlib Require Import Strings.Ascii Strings.String.

Local Open Scope Z_scope.

(** ** The revision counts the commands *)

Definition call_count (l : list Request) : nat :=
  List.length l + List.length (decisions l) + size (transfer_keys l) + size (expiry_keys l) + size (clearance_keys l).

Definition revision (t : ledger) : Z := coordinationRevision (payloads t).

Lemma elem_of_transfer_keys l k : k ∈ transfer_keys l ↔ ∃ r t, r ∈ l ∧ t ∈ cr_RecipientTransfers r ∧ k = transfer_key (cr_Callsign r) t.
Proof.
  unfold transfer_keys. rewrite elem_of_list_to_set, list_elem_of_bind. split.
  - intros (r & Hk & Hr). apply list_elem_of_fmap in Hk as (t & -> & Ht). eauto.
  - intros (r & t & Hr & Ht & ->). exists r. split; [|done]. by apply list_elem_of_fmap_2.
Qed.

Lemma elem_of_expiry_keys l k : k ∈ expiry_keys l ↔ ∃ r e, r ∈ l ∧ cr_Expiry r = Some e ∧ k = expiry_key e.
Proof. unfold expiry_keys. rewrite elem_of_list_to_set, list_elem_of_omap. setoid_rewrite fmap_Some. naive_solver. Qed.

Lemma elem_of_clearance_keys l k : k ∈ clearance_keys l ↔ ∃ r c, r ∈ l ∧ cr_Clearance r = Some c ∧ k = ca_FactID c.
Proof. unfold clearance_keys. rewrite elem_of_list_to_set, list_elem_of_omap. setoid_rewrite fmap_Some. naive_solver. Qed.

Lemma count_perm l k : l ≡ₚ k → call_count l = call_count k.
Proof.
  intros Hp. assert (Hin : ∀ r, r ∈ l ↔ r ∈ k) by (intros r; by rewrite Hp).
  assert (Ed : decisions l ≡ₚ decisions k) by (unfold decisions; by rewrite Hp).
  assert (Et : transfer_keys l = transfer_keys k) by (apply set_eq; intros x; rewrite !elem_of_transfer_keys; by setoid_rewrite Hin).
  assert (Ee : expiry_keys l = expiry_keys k) by (apply set_eq; intros x; rewrite !elem_of_expiry_keys; by setoid_rewrite Hin).
  assert (Ec : clearance_keys l = clearance_keys k) by (apply set_eq; intros x; rewrite !elem_of_clearance_keys; by setoid_rewrite Hin).
  unfold call_count. by rewrite Et, Ee, Ec, (Permutation_length Hp), (Permutation_length Ed).
Qed.

Lemma revision_requests airport t : consistent airport t → coordinationRevision (requests t airport) = revision t.
Proof. intros Hc. unfold revision, coordinationRevision. f_equal. f_equal. apply (count_perm _ _ (requests_perm airport t Hc)). Qed.

Lemma revision_next t t' : call_count (payloads t') = S (call_count (payloads t)) → revision t' = u64 (revision t + 1).
Proof. unfold revision, coordinationRevision. fold (call_count (payloads t)). fold (call_count (payloads t')). intros ->. rewrite Nat2Z.inj_succ. unfold u64. rewrite Zplus_mod_idemp_l. f_equal. Qed.

(** One request in place of another *)
Lemma replace_perm l r r' :
  NoDup (cr_ID <$> l) → r ∈ l → cr_ID r' = cr_ID r → ∃ l0, l ≡ₚ r :: l0 ∧ replace r' l ≡ₚ r' :: l0.
Proof.
  intros Hn Hr E. apply list_elem_of_split in Hr as (l1 & l2 & ->). exists (l1 ++ l2). split; [by rewrite Permutation_middle|].
  rewrite fmap_app, fmap_cons in Hn. apply NoDup_app in Hn as (_ & Hd & Hn). apply NoDup_cons in Hn as [Hn _].
  assert (Hid : ∀ k : list Request, cr_ID r ∉ cr_ID <$> k → replace r' k = k).
  { induction k as [|x k IH]; [done|]. rewrite fmap_cons, not_elem_of_cons. intros [Hx Hk]. unfold replace in *. rewrite fmap_cons, IH by done.
    rewrite E. by rewrite (proj2 (str_eqb_neq _ _) (not_eq_sym Hx)). }
  unfold replace at 1. rewrite fmap_app, fmap_cons. fold (replace r' l1). fold (replace r' l2). rewrite E, str_eqb_refl.
  rewrite !Hid; [by rewrite Permutation_middle|done|]. intros H. apply (Hd _ H). left.
Qed.

Lemma transfer_keys_cons r l : transfer_keys (r :: l) = list_to_set (transfer_key (cr_Callsign r) <$> cr_RecipientTransfers r) ∪ transfer_keys l.
Proof. unfold transfer_keys. simpl. by rewrite list_to_set_app_L. Qed.

Lemma option_keys_cons {A} (f : Request → option A) (key : A → string) r l :
  (list_to_set (omap (λ r, key <$> f r) (r :: l)) : gset string) = match f r with Some a => {[key a]} | None => ∅ end ∪ list_to_set (omap (λ r, key <$> f r) l).
Proof. simpl. destruct (f r); simpl; [done|]. by rewrite union_empty_l_L. Qed.

Lemma count_cons r l :
  call_count (r :: l) = S (List.length l + List.length (option_list (cr_Decision r)) + List.length (decisions l) +
    size (list_to_set (transfer_key (cr_Callsign r) <$> cr_RecipientTransfers r) ∪ transfer_keys l) +
    size ((match cr_Expiry r with Some e => {[expiry_key e]} | None => ∅ end ∪ expiry_keys l) : gset string) +
    size ((match cr_Clearance r with Some c => {[ca_FactID c]} | None => ∅ end ∪ clearance_keys l) : gset string))%nat.
Proof.
  unfold call_count. rewrite transfer_keys_cons. unfold expiry_keys at 1, clearance_keys at 1.
  rewrite (option_keys_cons cr_Expiry expiry_key), (option_keys_cons cr_Clearance ca_FactID). fold (expiry_keys l) (clearance_keys l).
  assert (Ed : List.length (decisions (r :: l)) = (List.length (option_list (cr_Decision r)) + List.length (decisions l))%nat) by (unfold decisions; simpl; by destruct (cr_Decision r)).
  rewrite Ed. cbn [List.length]. lia.
Qed.

(** A request that is replaced by one with a decision, or with a new clearance *)
Lemma count_decided l r d : cr_Decision r = None → ∀ r', cr_Decision r' = Some d → cr_Callsign r' = cr_Callsign r → cr_RecipientTransfers r' = cr_RecipientTransfers r →
  cr_Expiry r' = cr_Expiry r → cr_Clearance r' = cr_Clearance r → call_count (r' :: l) = S (call_count (r :: l)).
Proof. intros E r' E1 E2 E3 E4 E5. rewrite !count_cons, E, E1, E2, E3, E4, E5. simpl. lia. Qed.

Lemma count_same l r r' : cr_Decision r' = cr_Decision r → cr_Callsign r' = cr_Callsign r → cr_RecipientTransfers r' = cr_RecipientTransfers r →
  cr_Expiry r' = cr_Expiry r → cr_Clearance r' = cr_Clearance r → call_count (r' :: l) = call_count (r :: l).
Proof. intros E1 E2 E3 E4 E5. rewrite !count_cons, E1, E2, E3, E4, E5. done. Qed.

Lemma size_add (X : gset string) k : k ∉ X → size ({[k]} ∪ X) = S (size X).
Proof. intros H. rewrite size_union by set_solver. by rewrite size_singleton. Qed.

Lemma count_cleared l r c : cr_Clearance r = None → ca_FactID c ∉ clearance_keys (r :: l) → call_count (set_cr_Clearance (Some c) r :: l) = S (call_count (r :: l)).
Proof.
  intros E H. rewrite !count_cons. simpl. rewrite E. rewrite union_empty_l_L. rewrite size_add; [lia|].
  intros Hin. apply H. unfold clearance_keys. rewrite (option_keys_cons cr_Clearance ca_FactID), E. set_solver.
Qed.

(** ** The revision of each command *)

Lemma decide_counts airport t r r' :
  ledger_ok airport t → r ∈ payloads t → pending r →
  (∃ commandID actor role recipient next reason at_, Decide r commandID actor role recipient next reason at_ = Ok r') →
  call_count (payloads (save t r')) = S (call_count (payloads t)).
Proof.
  intros [Hc Hok] Hr Hp (commandID & actor & role & recipient & next & reason & at_ & H). apply Decide_ok in H as (Hv & _ & _ & _ & E).
  destruct (valid_pending r Hv Hp) as (_ & _ & Hd & _).
  rewrite (save_known airport t r' r Hc Hr) by (by rewrite E). destruct (replace_perm (payloads t) r r') as (l0 & E1 & E2); [apply Hok|done|by rewrite E|].
  rewrite (count_perm _ _ E1), (count_perm _ _ E2), E. by eapply (count_decided l0 r _ Hd).
Qed.

Lemma correlate_counts airport t r r' fact :
  ledger_ok airport t → r ∈ payloads t → (∀ x c, x ∈ payloads t → cr_Clearance x = Some c → ca_FactID c ≠ ca_FactID fact) → Correlate r fact = Ok r' →
  call_count (payloads (save t r')) = S (call_count (payloads t)).
Proof.
  intros [Hc Hok] Hr Hnew (Hv & _ & Hcl & _ & E)%Correlate_ok.
  rewrite (save_known airport t r' r Hc Hr) by (by rewrite E). destruct (replace_perm (payloads t) r r') as (l0 & E1 & E2); [apply Hok|done|by rewrite E|].
  rewrite (count_perm _ _ E1), (count_perm _ _ E2), E. apply count_cleared; [done|]. intros (x & c & Hx & Hxc & Ek)%elem_of_clearance_keys.
  apply (Hnew x c); [by rewrite E1|done|done].
Qed.

Lemma count_snoc l r : new_request r → call_count (l ++ [r]) = S (call_count l).
Proof.
  intros (Hv & Hp & _ & Ht & Hcl). destruct (valid_pending r Hv Hp) as (_ & _ & Hd & He).
  rewrite (count_perm (l ++ [r]) (r :: l)) by apply Permutation_app_comm. rewrite count_cons, Ht, Hd, He, Hcl. unfold call_count. simpl. rewrite !union_empty_l_L. lia.
Qed.

Lemma submit_counts airport t request t' r superseded :
  ledger_ok airport t → new_request request → cr_Airport request = airport → submitted_before request (requests t airport) = Ok None →
  submitted t request t' r superseded → call_count (payloads t') = S (call_count (payloads t)).
Proof.
  intros Hl Hnew Ha Hb Hsub. pose proof Hl as [Hc Hok].
  assert (Hid : cr_ID request ∉ cr_ID <$> payloads t).
  { intros (x & E & Hx)%list_elem_of_fmap. apply (requests_in airport) in Hx; [|done]. by destruct (submitted_before_fresh _ _ Hb x Hx) as [[] _]. }
  destruct (submitted_payloads _ _ _ _ _ _ Hl Hid Hsub Ha) as [_ ->]. destruct Hsub as [Hn|c c' Hin Hk Hs]; [by apply count_snoc|].
  pose proof (Supersede_evolved _ _ _ _ Hs) as He. destruct (evolved_id _ _ He) as (Ei & _). apply Supersede_ok in Hs as (Hv & Hp & _ & _ & Ec').
  set (r1 := set_cr_Supersedes _ request). destruct (valid_pending c Hv Hp) as (_ & _ & Hd & _).
  destruct (replace_perm (payloads t ++ [r1]) c c') as (l0 & E1 & E2); [|apply elem_of_app; by left|done|].
  { rewrite fmap_app. apply NoDup_app. split_and!; [apply Hok| |apply NoDup_singleton]. by intros x Hx ->%list_elem_of_singleton. }
  rewrite (count_perm _ _ E2). rewrite (count_same l0 c c') by (by rewrite Ec'). rewrite <-(count_perm _ _ E1).
  rewrite (count_perm (payloads t ++ [r1]) (r1 :: payloads t)) by apply Permutation_app_comm. unfold r1.
  rewrite (count_same (payloads t) request (set_cr_Supersedes _ request)) by done.
  rewrite <-(count_perm (payloads t ++ [request]) (request :: payloads t)) by apply Permutation_app_comm. by apply count_snoc.
Qed.

(** A fact that adds one key *)
Lemma expired_before_none fact rs r e : expired_before fact rs = Ok [] → r ∈ rs → cr_Expiry r = Some e → expired_by fact e = false.
Proof.
  induction rs as [|x rs IH]; simpl; [by intros _ ?%elem_of_nil|]. intros H Hr He. destruct (expired_by fact e) eqn:Eb; [|done]. exfalso.
  apply elem_of_cons in Hr as [-> |Hr].
  - rewrite He, Eb in H. destruct (same_expiry fact e); [|done]. by apply bind_ok in H as (known & _ & [=]).
  - assert (H' : expired_before fact rs = Ok []); [|by specialize (IH H' Hr He)].
    destruct (cr_Expiry x) as [e'|]; [|done]. destruct (expired_by fact e'); [|done]. destruct (same_expiry fact e'); [|done]. by apply bind_ok in H as (known & _ & [=]).
Qed.

Lemma transferred_before_none fact rs r t : transferred_before fact rs = Ok [] → r ∈ rs → cr_Callsign r = of_Callsign fact → t ∈ cr_RecipientTransfers r → transferred_by fact t = false.
Proof.
  induction rs as [|x rs IH]; simpl; [by intros _ ?%elem_of_nil|]. intros H Hr Hcs Ht.
  set (found := if str_eqb (cr_Callsign x) _ then _ else _) in H. apply elem_of_cons in Hr as [-> |Hr].
  - destruct found as [t'|] eqn:Ef; [destruct (same_transfer fact t'); [|done]; by apply bind_ok in H as (known & _ & [=])|].
    unfold found in Ef. rewrite Hcs, str_eqb_refl in Ef. apply (find_none _ _ Ef). by apply list_elem_of_In.
  - apply IH; try done. destruct found as [t'|]; [|done]. destruct (same_transfer fact t'); [|done]. by apply bind_ok in H as (known & _ & [=]).
Qed.

Lemma mapped_decisions f l : (∀ x, x ∈ l → cr_Decision (f x) = cr_Decision x) → decisions (f <$> l) = decisions l.
Proof.
  unfold decisions. induction l as [|x l IH]; intros H; [done|]. cbn. rewrite (H x) by left.
  assert (E : omap cr_Decision (f <$> l) = omap cr_Decision l) by (apply IH; intros; apply H; by right). cbn in E. destruct (cr_Decision x); by rewrite E.
Qed.

(** ** Keys with separators *)

Lemma split_first {A} (x : A) l1 l2 k1 k2 : x ∉ l1 → x ∉ k1 → l1 ++ x :: l2 = k1 ++ x :: k2 → l1 = k1 ∧ l2 = k2.
Proof.
  revert k1. induction l1 as [|a l1 IH]; intros [|b k1] H1 H2 H; simpl in *; [by injection H as ->|injection H as -> _; set_solver|injection H as -> _; set_solver|].
  injection H as -> H. apply not_elem_of_cons in H1 as [_ H1], H2 as [_ H2]. by destruct (IH k1 H1 H2 H) as [-> ->].
Qed.

Lemma split_last {A} (x : A) l1 l2 k1 k2 : x ∉ l2 → x ∉ k2 → l1 ++ x :: l2 = k1 ++ x :: k2 → l1 = k1 ∧ l2 = k2.
Proof.
  intros H1 H2 H. apply (f_equal reverse) in H. rewrite !reverse_app, !reverse_cons, <-!app_assoc in H. simpl in H.
  apply split_first in H as [E1 E2]; [|by rewrite elem_of_reverse..]. by split; apply (inj reverse).
Qed.

Definition letters (s : string) : list ascii := String.list_ascii_of_string s.
(** A text without the separator *)
Definition unseparated (s : string) : Prop := Ascii.zero ∉ letters s.

Lemma letters_app a b : letters (a +:+ b) = letters a ++ letters b.
Proof. induction a as [|x a IH]; [done|]. simpl. by rewrite IH. Qed.

Lemma letters_inj a b : letters a = letters b → a = b.
Proof. intros H. by rewrite <-(String.string_of_list_ascii_of_string a), <-(String.string_of_list_ascii_of_string b); unfold letters in H; rewrite H. Qed.

Lemma number_unseparated x : unseparated (Sprint_uint x).
Proof.
  unfold unseparated, Sprint_uint. unfold pretty, pretty_N. case_decide; [by vm_compute; set_solver|].
  assert (H' : ∀ x s, Ascii.zero ∉ letters s → Ascii.zero ∉ letters (pretty_N_go x s)).
  { clear. intros x. induction (N.lt_wf_0 x) as [x _ IH]; intros s Hs. assert (x = 0 ∨ 0 < x)%N as [-> |Hx] by lia; [by rewrite pretty_N_go_0|].
    rewrite pretty_N_go_step by done. apply IH; [by apply N.div_lt|]. simpl. apply not_elem_of_cons. split; [|done]. unfold pretty_N_char. by repeat case_match. }
  apply H'. simpl. by apply not_elem_of_nil.
Qed.

Lemma number_inj a b : Sprint_uint a = Sprint_uint b → a = b.
Proof. unfold Sprint_uint. apply (inj pretty). Qed.

(** A text and a number, separated, are told apart. *)
Lemma numbered_inj f g a b : f +:+ nul +:+ Sprint_uint a = g +:+ nul +:+ Sprint_uint b → f = g ∧ a = b.
Proof.
  intros H. apply (f_equal letters) in H. rewrite !letters_app in H. simpl in H. apply split_last in H as [E1 E2]; [|apply number_unseparated..].
  split; [by apply letters_inj|]. by apply number_inj, letters_inj.
Qed.

Lemma transfer_key_inj c d t u :
  unseparated c → unseparated d → transfer_key c t = transfer_key d u →
  c = d ∧ tf_OwnershipFact t = tf_OwnershipFact u ∧ tf_OwnershipRevision t = tf_OwnershipRevision u.
Proof.
  unfold transfer_key. intros Hc Hd H. apply (f_equal letters) in H. rewrite (letters_app c), (letters_app d) in H. simpl in H.
  apply split_first in H as [E1 E2]; [|done..]. apply letters_inj in E1, E2. by apply numbered_inj in E2.
Qed.

(** ** The facts that concern a flight *)

Lemma count_key_expiry l l' k :
  List.length l' = List.length l → decisions l' = decisions l → transfer_keys l' = transfer_keys l → clearance_keys l' = clearance_keys l →
  expiry_keys l' = {[k]} ∪ expiry_keys l → k ∉ expiry_keys l → call_count l' = S (call_count l).
Proof. intros E1 E2 E3 E4 E5 Hk. unfold call_count. rewrite E1, E2, E3, E4, E5, size_add by done. lia. Qed.

Lemma count_key_transfer l l' k :
  List.length l' = List.length l → decisions l' = decisions l → expiry_keys l' = expiry_keys l → clearance_keys l' = clearance_keys l →
  transfer_keys l' = {[k]} ∪ transfer_keys l → k ∉ transfer_keys l → call_count l' = S (call_count l).
Proof. intros E1 E2 E3 E4 E5 Hk. unfold call_count. rewrite E1, E2, E3, E4, E5, size_add by done. lia. Qed.

Lemma mapped_set (keys : list Request → gset string) (P : Request → string → Prop) f l :
  (∀ l k, k ∈ keys l ↔ ∃ r, r ∈ l ∧ P r k) → (∀ x k, x ∈ l → P (f x) k ↔ P x k) → keys (f <$> l) = keys l.
Proof.
  intros Hk Hf. apply set_eq. intros k. rewrite !Hk. split.
  - intros (r & (x & -> & Hx)%list_elem_of_fmap & HP). exists x. split; [done|]. by apply Hf.
  - intros (x & Hx & HP). exists (f x). split; [by apply list_elem_of_fmap_2|]. by apply Hf.
Qed.

Lemma expire_counts airport t fact r0 :
  ledger_ok airport t → expired_before fact (requests t airport) = Ok [] → r0 ∈ payloads t → expiring fact r0 = true →
  (∀ r, r ∈ payloads t → expiring fact r = true → Expire r (mk_expiry (ef_FactID fact) (ef_Revision fact) (ef_Reason fact) (ef_OccurredAt fact)) = Ok (expire_all fact r)) →
  call_count (expire_all fact <$> payloads t) = S (call_count (payloads t)).
Proof.
  intros [Hc Hok] Hb Hr0 He0 Hall. set (e := mk_expiry (ef_FactID fact) (ef_Revision fact) (ef_Reason fact) (ef_OccurredAt fact)).
  assert (Hx : ∀ x, x ∈ payloads t → expiring fact x = false ∧ expire_all fact x = x ∨
                 expiring fact x = true ∧ pending x ∧ valid x ∧ expire_all fact x = set_cr_Expiry (Some e) (resolve StateExpired (ex_ExpiredAt e) x)).
  { intros x Hx. destruct (expiring fact x) eqn:E; [right|left; unfold expire_all, changed; by rewrite E].
    pose proof (Hall x Hx E) as (? & ? & _ & ->)%Expire_ok. done. }
  apply (count_key_expiry _ _ (expiry_key e)).
  - by rewrite length_fmap.
  - apply mapped_decisions. intros x Hin. by destruct (Hx x Hin) as [[_ ->]|(_ & _ & _ & ->)].
  - apply (mapped_set _ (λ r k, ∃ u, u ∈ cr_RecipientTransfers r ∧ k = transfer_key (cr_Callsign r) u)); [intros; rewrite elem_of_transfer_keys; naive_solver|].
    intros x k Hin. by destruct (Hx x Hin) as [[_ ->]|(_ & _ & _ & ->)].
  - apply (mapped_set _ (λ r k, ∃ c, cr_Clearance r = Some c ∧ k = ca_FactID c)); [intros; rewrite elem_of_clearance_keys; naive_solver|].
    intros x k Hin. by destruct (Hx x Hin) as [[_ ->]|(_ & _ & _ & ->)].
  - apply set_eq. intros k. rewrite elem_of_union, elem_of_singleton, !elem_of_expiry_keys. split.
    + intros (r & e' & (x & -> & Hin)%list_elem_of_fmap & He & ->). destruct (Hx x Hin) as [[_ E]|(_ & _ & _ & E)]; rewrite E in He; [right; eauto|left; by injection He as <-].
    + intros [-> |(r & e' & Hin & He & ->)].
      * exists (expire_all fact r0), e. split; [by apply list_elem_of_fmap_2|]. destruct (Hx r0 Hr0) as [[E _]|(_ & _ & _ & ->)]; [congruence|done].
      * exists (expire_all fact r), e'. split; [by apply list_elem_of_fmap_2|]. destruct (Hx r Hin) as [[_ ->]|(_ & Hp & Hv & _)]; [done|].
        destruct (valid_pending r Hv Hp) as (_ & _ & _ & Hn). congruence.
  - intros (r & e' & Hin & He & Ek)%elem_of_expiry_keys. apply numbered_inj in Ek as [E1 E2].
    pose proof (expired_before_none fact _ r e' Hb ltac:(by apply requests_in) He) as Hn. unfold expired_by in Hn. simpl in E1, E2.
    rewrite <-E1, <-E2, str_eqb_refl, N.eqb_refl in Hn. done.
Qed.

Lemma transfer_counts airport t fact r0 :
  ledger_ok airport t → (∀ r, r ∈ payloads t → unseparated (cr_Callsign r)) → transferred_before fact (requests t airport) = Ok [] → r0 ∈ payloads t → transferring fact r0 = true →
  (∀ r, r ∈ payloads t → transferring fact r = true →
     TransferRecipient r (of_FactID fact) (of_Revision fact) (of_Owner fact) (of_ObservedAt fact) = Ok (transfer_all fact r)) →
  call_count (transfer_all fact <$> payloads t) = S (call_count (payloads t)).
Proof.
  intros [Hc Hok] Hplain Hb Hr0 He0 Hall.
  set (u := λ x, mk_transfer (of_FactID fact) (of_Revision fact) (cr_RecipientController x) (of_Owner fact) (of_ObservedAt fact)).
  set (key := of_Callsign fact +:+ nul +:+ of_FactID fact +:+ nul +:+ Sprint_uint (of_Revision fact)).
  assert (Hx : ∀ x, x ∈ payloads t → transferring fact x = false ∧ transfer_all fact x = x ∨
    transferring fact x = true ∧ cr_Callsign x = of_Callsign fact ∧ cr_Callsign (transfer_all fact x) = cr_Callsign x ∧ cr_Decision (transfer_all fact x) = cr_Decision x ∧
    cr_Expiry (transfer_all fact x) = cr_Expiry x ∧ cr_Clearance (transfer_all fact x) = cr_Clearance x ∧ cr_RecipientTransfers (transfer_all fact x) = cr_RecipientTransfers x ++ [u x]).
  { intros x Hx. destruct (transferring fact x) eqn:E; [right|left; unfold transfer_all, changed; by rewrite E].
    pose proof (Hall x Hx E) as (_ & _ & _ & _ & ->)%TransferRecipient_ok. split_and!; try done. unfold transferring in E. bsplit. by apply str_eqb_eq. }
  apply (count_key_transfer _ _ key).
  - by rewrite length_fmap.
  - apply mapped_decisions. intros x Hin. by destruct (Hx x Hin) as [[_ ->]|(_ & _ & _ & -> & _)].
  - apply (mapped_set _ (λ r k, ∃ e, cr_Expiry r = Some e ∧ k = expiry_key e)); [intros; rewrite elem_of_expiry_keys; naive_solver|].
    intros x k Hin. by destruct (Hx x Hin) as [[_ ->]|(_ & _ & _ & _ & -> & _)].
  - apply (mapped_set _ (λ r k, ∃ c, cr_Clearance r = Some c ∧ k = ca_FactID c)); [intros; rewrite elem_of_clearance_keys; naive_solver|].
    intros x k Hin. by destruct (Hx x Hin) as [[_ ->]|(_ & _ & _ & _ & _ & -> & _)].
  - apply set_eq. intros k. rewrite elem_of_union, elem_of_singleton, !elem_of_transfer_keys. split.
    + intros (r & v & (x & -> & Hin)%list_elem_of_fmap & Hv & ->). destruct (Hx x Hin) as [[_ E]|(_ & Ecs & Ec & _ & _ & _ & E)]; rewrite E in Hv; [right; rewrite E; eauto|].
      rewrite Ec. apply elem_of_app in Hv as [Hv| ->%list_elem_of_singleton]; [right; eauto|left]. unfold transfer_key. by rewrite Ecs.
    + intros [-> |(r & v & Hin & Hv & ->)].
      * exists (transfer_all fact r0), (u r0). split; [by apply list_elem_of_fmap_2|]. destruct (Hx r0 Hr0) as [[E _]|(_ & Ecs & Ec & _ & _ & _ & E)]; [congruence|].
        rewrite E, Ec. split; [apply elem_of_app; right; left|]. unfold transfer_key. by rewrite Ecs.
      * exists (transfer_all fact r), v. split; [by apply list_elem_of_fmap_2|]. destruct (Hx r Hin) as [[_ ->]|(_ & _ & -> & _ & _ & _ & ->)]; [done|].
        split; [apply elem_of_app; by left|done].
  - intros (r & v & Hin & Hv & Ek)%elem_of_transfer_keys. destruct (Hx r0 Hr0) as [[E _]|(_ & Ecs & _)]; [congruence|].
    change key with (transfer_key (of_Callsign fact) (u r0)) in Ek. rewrite <-Ecs in Ek. apply transfer_key_inj in Ek as (E1 & E2 & E3); [|by apply Hplain..].
    pose proof (transferred_before_none fact _ r v Hb ltac:(by apply requests_in) ltac:(congruence) Hv) as Hn. unfold transferred_by in Hn. simpl in E2, E3.
    rewrite <-E2, <-E3, str_eqb_refl, N.eqb_refl in Hn. done.
Qed.

(** What both facts answer *)
Lemma fact_counts airport t t' concerned change :
  consistent airport t → payloads t' = changed concerned change <$> payloads t →
  (∀ r, r ∈ payloads t → concerned r = true → call_count (changed concerned change <$> payloads t) = S (call_count (payloads t))) →
  let answer := tr_Revision (update_result t' (requests t airport) (changed concerned change <$> filter (λ r, concerned r = true) (requests t airport))).2 in
  answer = revision t' ∧ (payloads t' = payloads t ∨ revision t' = u64 (revision t + 1)).
Proof.
  intros Hc Hp Hn. pose proof (revision_requests airport t Hc) as Erev. unfold update_result. simpl. destruct (filter _ (requests t airport)) as [|r0 rs] eqn:Ef; simpl.
  - assert (Ep : payloads t' = payloads t).
    { rewrite Hp. etrans; [|apply list_fmap_id]. apply list_fmap_ext. intros i x Hx%list_elem_of_lookup_2. unfold changed. destruct (concerned x) eqn:E; [|done].
      assert (Hin : x ∈ filter (λ r, concerned r = true) (requests t airport)) by (apply list_elem_of_filter; split; [done|by apply requests_in]).
      rewrite Ef in Hin. by apply elem_of_nil in Hin. }
    unfold revision. rewrite Ep. split; [exact Erev|by left].
  - assert (Hr0 : r0 ∈ filter (λ r, concerned r = true) (requests t airport)) by (rewrite Ef; left). apply list_elem_of_filter in Hr0 as [E0 Hr0].
    rewrite (requests_in airport t r0 Hc) in Hr0. rewrite Erev. rewrite (revision_next t t') by (rewrite Hp; by apply (Hn r0)). split; [done|by right].
Qed.
