(* ===== verification/CoordinationSafety.v ===== *)
(** * Theorems about coordination requests

    Of the ledger that [CoordinationLedger] models: what holds of every reachable
    table, what a resolved request keeps, who decides, how the revision counts the
    commands, that a retry changes nothing, what a fact about a flight settles, and
    who sees which request. *)

From S2P Require Import Prelude GoTime CoordinationRequest CoordinationLedger CoordinationFacts.
From S2P Require Import CoordinationInvariant CoordinationRevision.
From stdpp Require Import pretty gmap.
From Stdlib Require Import Strings.Ascii Strings.String.

Local Open Scope Z_scope.

(** C15: In every table that commands and facts of an airport lead to, whatever their
    order, every request is valid and has its own identity; a flight has at most one
    pending request of a kind; no command identity is used for two submissions or
    decisions; a superseded request and the one that superseded it point at each
    other and concern the same flight and kind; and the transfers of a request form
    a chain that ends at its present recipient. *)
Theorem ledger_invariant airport t : rtc (ledger_step airport) [] t → requests_ok (payloads t).
Proof. intros H. by apply (steps_ok airport [] t (empty_ok airport)). Qed.

(** C16: No request is lost and none is decided twice: whatever happens to a table, every
    request of it is still there later, with the same submission; until it is
    resolved its transfers only grow, from recipient to recipient; and once it is
    accepted, rejected, superseded or expired it stays exactly as it is, but that an
    accepted one may receive one clearance. *)
Theorem requests_evolve airport t t' r :
  rtc (ledger_step airport) [] t → rtc (ledger_step airport) t t' → r ∈ payloads t →
  ∃ r', r' ∈ payloads t' ∧ identity r' = identity r ∧
    if decide (pending r) then ∃ l, cr_RecipientTransfers r' = cr_RecipientTransfers r ++ l ∧ leads (cr_RecipientController r) l (cr_RecipientController r')
    else r' = r ∨ cr_State r = StateAccepted ∧ cr_Clearance r = None ∧ ∃ c, r' = set_cr_Clearance (Some c) r.
Proof.
  intros H1 H2 Hr. destruct (steps_ok airport [] t (empty_ok airport) H1) as [Hok _]. destruct (steps_ok airport t t' Hok H2) as [_ Hadv].
  destruct (Hadv r Hr) as (r' & Hr' & Hi & _ & He). by exists r'.
Qed.

(** C17: A controller's accept or reject that is not a retry is done by the controller who
    tracks the flight at that moment and whom the request is assigned to, at the
    revision the controller saw; it resolves that pending request, records who
    decided and when, and changes nothing else in the table. *)
Theorem decision_needs_recipient owners airport t auth command state t' result :
  rtc (ledger_step airport) [] t → ax_Airport auth = airport →
  decide_command owners t auth command state = Ok (t', result) → cm_Duplicate result = false →
  ∃ r r', r ∈ payloads t ∧ cr_ID r = dm_RequestID command ∧ pending r ∧ owners airport (cr_Callsign r) = Ok (ax_Role auth) ∧
    ax_Role auth = cr_RecipientController r ∧ dm_ExpectedRevision command = revision t ∧
    payloads t' = replace r' (payloads t) ∧ identity r' = identity r ∧ cr_State r' = state ∧ (state = StateAccepted ∨ state = StateRejected) ∧
    cr_Decision r' = Some (mk_decision (dm_CommandID command) airport (ax_Actor auth) (ax_Role auth) (ax_Role auth) (cr_ID r) (cr_Kind r) StatePending state
                             (dm_Reason command) (ax_ReceivedAt auth)) ∧ cm_Request result = Some r'.
Proof.
  intros Hreach Ha H Hdup. destruct (steps_ok airport [] t (empty_ok airport) Hreach) as [Hok _]. pose proof Hok as [Hc Hro]. unfold decide_command in H.
  apply bind_ok in H as ([id decision] & Hprep & H). unfold prepare_decision in Hprep. apply bind_unit_iff in Hprep as [_ Hprep].
  apply bind_ok in Hprep as (r0 & Hget & Hprep). apply bind_ok in Hprep as (recipient & Hown & Hprep). guards. injection Hprep as <- <-.
  assert (Erole : recipient = ax_Role auth) by congruence. subst recipient.
  apply (Repository_Decide_ok airport) in H as [[_ (r & _ & ->)]|(r & r' & _ & Hrev & Hr & Hid & Hp & Hrc & Hd & -> & _ & _ & ->)]; [done| |done|done]. simpl in *.
  assert (Er : r = r0).
  { unfold Get in Hget. destruct (List.find _ _) as [row|] eqn:Ef; [|done]. apply find_in in Ef as [Hrow _]. apply validated_ok in Hget as [-> _].
    apply (id_unique (payloads t)); [apply Hro|done|by apply list_elem_of_fmap_2|done]. }
  subst r0. pose proof (Decide_evolved _ _ _ _ _ _ _ _ _ Hd) as He. destruct (evolved_id _ _ He) as (Ei & _).
  apply Decide_ok in Hd as (_ & _ & _ & Hdec & Er'). exists r, r'. rewrite (revision_requests airport) in Hrev by done.
  rewrite (airport_of airport t r Hc Hr), Hp in Er'. split_and!; try done; try congruence.
  - unfold Get in Hget. destruct (List.find _ _) as [row|] eqn:Ef; [|done]. apply find_in in Ef as [Hrow Eid]. bsplit. apply validated_ok in Hget as [-> _].
    destruct (Hc row Hrow) as (_ & <- & _). by apply str_eqb_eq.
  - by apply (save_known airport t r' r).
  - by destruct He as (? & _).
  - by rewrite Er'.
  - unfold decided in Hdec. apply orb_true_iff in Hdec as [Hdec|Hdec]; apply bool_decide_eq_true in Hdec; tauto.
  - rewrite Er'. simpl. congruence.
Qed.

(** C18: The revision of an airport numbers its commands and facts: each call answers the
    revision of the table it leaves, and either changes nothing or raises the
    revision by exactly one, however many requests a fact changes. A submission or
    decision that changes the table expected the revision it found, so of two
    commands sent at the same revision only one can succeed. Callsigns must not
    contain the separator of the transfer keys. *)
Theorem revision_counts_calls airport t expected t' answer :
  rtc (ledger_step airport) [] t → (∀ r, r ∈ payloads t → unseparated (cr_Callsign r)) → ledger_call airport t expected t' answer →
  answer = revision t' ∧
  (payloads t' = payloads t ∨ revision t' = u64 (revision t + 1) ∧ ∀ e, expected = Some e → e = revision t).
Proof.
  intros Hreach Hplain H. destruct (steps_ok airport [] t (empty_ok airport) Hreach) as [Hok _]. pose proof Hok as [Hc _].
  destruct (ledger_step_ok airport t t' Hok ltac:(by exists expected, answer)) as [[Hc' _] _]. pose proof (revision_requests airport t Hc) as Erev.
  assert (Hnext : ∀ n, call_count (payloads t') = S (call_count (payloads t)) → n = u64 (revision t + 1) → n = revision t' ∧ revision t' = u64 (revision t + 1)).
  { intros n Hn ->. by rewrite (revision_next t t' Hn). }
  destruct H as [owners auth command t1 result Ha H|id decision exp t1 result Ha H|fact t1 result Ha H|fact t1 result Ha H|fact t1 result Ha H].
  - apply Service_Submit_ok in H as (request & Hnew & Har & _ & H). rewrite Ha in Har.
    apply (Submit_ok airport) in H as [[-> (r & _ & ->)]|(Hb & Hrev & r & superseded & Hs & ->)]; [|simpl|done|done].
    + split; [exact Erev|by left].
    + rewrite Erev in *. destruct (Hnext _ (submit_counts _ _ _ _ _ _ Hok Hnew Har Hb Hs) eq_refl) as [E1 E2]. split; [done|right]. split; [done|]. by intros e [= <-].
  - apply (Repository_Decide_ok airport) in H as [[-> (r & _ & ->)]|(r & r' & _ & Hrev & Hr & _ & Hp & _ & Hd & -> & _ & _ & ->)]; [|simpl|done|done].
    + split; [exact Erev|by left].
    + rewrite Erev in Hrev. subst exp. assert (Hn : call_count (payloads (save t r')) = S (call_count (payloads t))) by (eapply (decide_counts airport); [done..|]; eauto 10).
      destruct (Hnext _ Hn eq_refl) as [E1 E2]. split; [done|right]. split; [done|]. by intros e [= <-].
  - apply (TransferPending_ok airport) in H as [[-> (known & _ & _ & ->)]|(Hb & _ & _ & Hp & -> & Hall)]; [split; [exact Erev|by left]| |done|done].
    destruct (fact_counts airport t t1 (transferring fact) _ Hc Hp) as [E1 [E2|E2]]; [intros r0 Hr0 E0; by eapply (transfer_counts airport)|split; [done|by left]|split; [done|by right]].
  - apply (ExpirePending_ok airport) in H as [[-> (known & _ & _ & ->)]|(Hb & _ & _ & Hp & -> & Hall)]; [split; [exact Erev|by left]| |done|done].
    destruct (fact_counts airport t t1 (expiring fact) _ Hc Hp) as [E1 [E2|E2]]; [intros r0 Hr0 E0; by eapply (expire_counts airport)|split; [done|by left]|split; [done|by right]].
  - apply (CorrelateAccepted_ok airport) in H as [[-> [Er _]]|(r & r' & Hr & _ & Hnew & Hcor & -> & _ & _ & ->)]; [rewrite Er; split; [exact Erev|by left]|simpl|done|done].
    rewrite Erev. destruct (Hnext (u64 (revision t + 1))) as [E1 E2]; [eapply (correlate_counts airport t r r' _ Hok Hr); [|exact Hcor]; exact Hnew|done|]. split; [done|by right].
Qed.

(** ** Retries *)

Lemma New_iff commandID airport flightID recipient actor role kind payload at_ :
  (∃ r, New commandID airport flightID recipient actor role kind payload at_ = Ok r) ↔
  (present commandID && present airport && present flightID && present actor && present role = true) ∧ assignment_ok (assignment recipient) recipient = true ∧
  validUTC at_ = true ∧ Payload_validate payload kind = Ok ().
Proof.
  assert (Hb : before at_ at_ = false) by (unfold before; lia).
  unfold New. setoid_rewrite validated_ok. unfold valid, Validate. simpl. rewrite str_eqb_refl, Hb. simpl.
  destruct (present commandID), (present airport), (present flightID), (present actor), (present role); simpl; try (split; [by intros (r & _ & ?)|by intros [? _]]).
  destruct (assignment_ok _ _); simpl; [|split; [by intros (r & _ & ?)|by intros (_ & ? & _)]].
  destruct (validUTC at_); simpl; [|split; [by intros (r & _ & ?)|by intros (_ & _ & ? & _)]].
  destruct (Payload_validate payload kind) as [[]| | |]; simpl; (split; [intros (r & _ & ?); done|intros (_ & _ & _ & ?); try done; eauto]).
Qed.

Lemma assignment_trimmed recipient : trimmed recipient = true ↔ assignment_ok (assignment recipient) recipient = true.
Proof.
  unfold assignment, trimmed. destruct (str_empty recipient) eqn:E; simpl; [rewrite E; apply str_eqb_eq in E; by subst|].
  unfold present. rewrite E. done.
Qed.

Lemma submitted_before_finds request rs r :
  (∀ x, x ∈ rs → valid x ∧ (∀ d, cr_Decision x = Some d → dc_CommandID d ≠ cr_CommandID request) ∧ (cr_ID x = cr_ID request → x = r)) →
  r ∈ rs → cr_ID r = cr_ID request → same_submission r request = true → submitted_before request rs = Ok (Some r).
Proof.
  intros H Hr Hid Hs. induction rs as [|x rs IH]; [by apply elem_of_nil in Hr|]. simpl. destruct (H x ltac:(left)) as (Hv & Hd & Hx). rewrite Hv. simpl.
  assert (E : opt_test (λ d, str_eqb (dc_CommandID d) (cr_CommandID request)) (cr_Decision x) = false).
  { destruct (cr_Decision x) as [d|]; [|done]. simpl. apply str_eqb_neq. by apply Hd. }
  rewrite E. simpl. destruct (str_eqb (cr_ID x) (cr_ID request)) eqn:Ei.
  - apply str_eqb_eq in Ei. rewrite (Hx Ei), Hs. done.
  - apply IH; [intros y Hy; apply H; by right|]. apply elem_of_cons in Hr as [-> |Hr]; [|done]. by rewrite (proj2 (str_eqb_eq _ _) Hid) in Ei.
Qed.

Lemma same_submission_iff a b :
  same_submission a b = true ↔ cr_Airport a = cr_Airport b ∧ cr_Callsign a = cr_Callsign b ∧ cr_Kind a = cr_Kind b ∧ cr_SubmittedBy a = cr_SubmittedBy b ∧
    cr_SubmittedRole a = cr_SubmittedRole b ∧ cr_Payload a = cr_Payload b.
Proof. unfold same_submission. rewrite !andb_true_iff, !str_eqb_eq, !bool_decide_eq_true. tauto. Qed.

(** After a submission the request is in the table. *)
Lemma submitted_is_there airport t request expected t1 result :
  ledger_ok airport t → new_request request → cr_Airport request = airport → Submit t request expected = Ok (t1, result) →
  ledger_ok airport t1 ∧ ∃ r, r ∈ payloads t1 ∧ cr_ID r = cr_ID request ∧ same_submission r request = true.
Proof.
  intros Hok Hnew Ha H. apply (Submit_ok airport) in H as [[-> (r & Hk & _)]|(Hb & _ & r & superseded & Hs & _)]; [| |done|done].
  - split; [done|]. apply submitted_before_known in Hk as (Hin & ? & ?). destruct Hok as [Hc _]. rewrite (requests_in airport t r Hc) in Hin. by exists r.
  - destruct (submitted_ok _ _ _ _ _ _ Hok Hnew Ha Hb Hs) as (Hok1 & _ & Hr). split; [done|]. exists r. split; [done|].
    destruct Hs; split; try done; by apply same_submission_iff.
Qed.

(** A submission can be retried: whatever has happened to the table since, the same
    command from the same person, at whatever revision and whoever tracks the flight
    by now, changes nothing and answers the request it made, as a duplicate. *)
Theorem submit_retry owners owners' airport t auth command t1 result t2 received recipient expected :
  rtc (ledger_step airport) [] t → ax_Airport auth = airport → Service_Submit owners t auth command = Ok (t1, result) → rtc (ledger_step airport) t1 t2 →
  validUTC received = true → owners' airport (sc_Callsign command) = Ok recipient → trimmed recipient = true →
  ∃ r, Service_Submit owners' t2 (mk_context airport (ax_Actor auth) (ax_Role auth) received)
         (mk_submit (sc_CommandID command) expected (sc_Callsign command) (sc_Kind command) (sc_Payload command)) = Ok (t2, mk_commit (Some r) None (revision t2) true) ∧
    r ∈ payloads t2 ∧ cr_CommandID r = sc_CommandID command ∧ cr_Callsign r = sc_Callsign command ∧ cr_Payload r = sc_Payload command.
Proof.
  intros Hreach <- H Hsteps Hutc Hown Htrim. destruct (steps_ok _ [] t (empty_ok _) Hreach) as [Hok _]. unfold Service_Submit in H |- *. simpl.
  apply bind_unit_iff in H as [Hctx H]. apply bind_unit_iff in H as [Hrole H]. apply bind_ok in H as (recipient0 & _ & H). apply bind_unit_iff in H as [_ H].
  apply bind_ok in H as (request & Hnew & H). pose proof (New_new _ _ _ _ _ _ _ _ _ _ Hnew) as Hn.
  assert (Hiff : ∃ r, New (sc_CommandID command) (ax_Airport auth) (sc_Callsign command) recipient (ax_Actor auth) (ax_Role auth) (sc_Kind command) (sc_Payload command) received = Ok r).
  { apply New_iff. destruct (proj1 (New_iff _ _ _ _ _ _ _ _ _) (ex_intro _ request Hnew)) as (? & _ & _ & ?). split_and!; try done. by apply assignment_trimmed. }
  destruct Hiff as [request2 Hnew2]. unfold validateContext in Hctx |- *. simpl. apply guard_err_ok in Hctx.
  rewrite !orb_false_iff, !negb_false_iff in Hctx. destruct Hctx as [[[P1 P2] P3] _]. rewrite P1, P2, P3, Hutc. simpl. rewrite Hrole. simpl. rewrite Hown. simpl. rewrite Htrim, andb_false_r. simpl. rewrite Hnew2. simpl.
  pose proof (New_ok _ _ _ _ _ _ _ _ _ _ Hnew) as (_ & _ & Ec & Ei & Ea & Ecs & Ek & _). pose proof (New_ok _ _ _ _ _ _ _ _ _ _ Hnew2) as (Hv2 & _ & Ec2 & Ei2 & Ea2 & Ecs2 & Ek2 & _).
  destruct (submitted_is_there _ _ _ _ _ _ Hok Hn Ea H) as (Hok1 & r1 & Hr1 & Eid & Esub).
  destruct (steps_ok _ _ _ Hok1 Hsteps) as [[Hc2 Hok2] Hadv]. destruct (Hadv r1 Hr1) as (r2 & Hr2 & Hev). pose proof Hev as ([= I1 I2 I3 I4 I5 I6 I7 I8 I9] & _).
  assert (Hsub2 : same_submission request request2 = true).
  { unfold New in Hnew, Hnew2. apply validated_ok in Hnew as [-> _], Hnew2 as [-> _]. by apply same_submission_iff. }
  assert (Hsame : same_submission r2 request2 = true) by (rewrite same_submission_iff in *; destruct_and!; split_and!; congruence).
  assert (Hfind : submitted_before request2 (requests t2 (ax_Airport auth)) = Ok (Some r2)).
  { apply submitted_before_finds; [|by apply requests_in|congruence|done]. intros x Hx. apply requests_in in Hx; [|done]. split_and!; [by apply Hok2| |].
    - intros d Hd. rewrite Ec2, <-Ec. assert (cr_CommandID r2 = cr_CommandID request) as <-; [|by apply (ro_commands _ Hok2 x r2 d)].
      rewrite I2. apply IDForCommand_inj. rewrite <-(proj2 (valid_identity r1 (ro_valid _ (proj2 Hok1) r1 Hr1))). congruence.
    - intros E. apply (id_unique (payloads t2)); [apply Hok2|done|done|congruence]. }
  exists r2. unfold Submit. rewrite Hv2. simpl. rewrite Ea2, Hfind. simpl. rewrite (revision_requests (ax_Airport auth) t2 Hc2). split; [done|]. split; [done|].
  rewrite same_submission_iff in Hsame. destruct_and!. split_and!; [|congruence|].
  - rewrite I2. apply IDForCommand_inj. rewrite <-(proj2 (valid_identity r1 (ro_valid _ (proj2 Hok1) r1 Hr1))). congruence.
  - unfold New in Hnew2. apply validated_ok in Hnew2 as [-> _]. done.
Qed.

(** ** Facts about a flight *)

Lemma valid_assignment r : valid r → assignment_ok (cr_RecipientStatus r) (cr_RecipientController r) = true.
Proof. unfold valid, Validate. intros [_ H]%bind_unit_iff. apply bind_unit_iff in H as [H _]. apply guard_err_ok in H. by apply negb_false_iff. Qed.

(** A request that a transfer leaves alone has its owner already. *)
Lemma not_transferring fact r :
  valid r → pending r → cr_Callsign r = of_Callsign fact → transferring fact r = false → cr_RecipientController r = of_Owner fact.
Proof.
  intros Hv%valid_assignment Hp Hc H. unfold transferring in H. rewrite Hc, str_eqb_refl, Hp, bool_decide_true in H by done. simpl in H.
  apply andb_false_iff in H as [H|H]; apply negb_false_iff, andb_true_iff in H as [H1 H2]; [by apply str_eqb_eq|].
  apply bool_decide_eq_true in H2. apply str_eqb_eq in H1. unfold effectiveRecipientStatus in H2. destruct (cr_RecipientStatus r); try done. simpl in Hv. apply str_eqb_eq in Hv. congruence.
Qed.

(** C19: A fact about a flight settles all its requests. Once a flight has ended or left the
    sequence, none of its requests is pending any more, and each that was is expired
    by that fact; once a controller has taken over a flight, every pending request of
    it is assigned to that controller. Requests of other flights and resolved ones
    stay as they are. *)
Theorem facts_settle_flight airport t :
  rtc (ledger_step airport) [] t →
  (∀ fact t' result, ef_Airport fact = airport → ExpirePending t fact = Ok (t', result) → tr_Duplicate result = false →
     (∀ r, r ∈ payloads t' → cr_Callsign r = ef_Callsign fact → ¬ pending r) ∧
     ∀ r, r ∈ payloads t →
       if expiring fact r then ∃ r', r' ∈ payloads t' ∧ identity r' = identity r ∧ cr_State r' = StateExpired ∧ cr_Expiry r' = Some (mk_expiry (ef_FactID fact) (ef_Revision fact) (ef_Reason fact) (ef_OccurredAt fact))
       else r ∈ payloads t') ∧
  (∀ fact t' result, of_Airport fact = airport → TransferPending t fact = Ok (t', result) → tr_Duplicate result = false →
     (∀ r, r ∈ payloads t' → cr_Callsign r = of_Callsign fact → pending r → cr_RecipientController r = of_Owner fact) ∧
     ∀ r, r ∈ payloads t → ¬ (pending r ∧ cr_Callsign r = of_Callsign fact) → r ∈ payloads t').
Proof.
  intros Hreach. destruct (steps_ok airport [] t (empty_ok airport) Hreach) as [Hok _]. split; intros fact t' result Ha H Hdup.
  - apply (ExpirePending_ok airport) in H as [[_ (known & _ & _ & ->)]|(_ & _ & _ & Hp & _ & Hall)]; [done| |done|done].
    assert (Hx : ∀ x, x ∈ payloads t → if expiring fact x then expire_all fact x = set_cr_Expiry (Some (mk_expiry (ef_FactID fact) (ef_Revision fact) (ef_Reason fact) (ef_OccurredAt fact)))
                 (resolve StateExpired (ef_OccurredAt fact) x) else expire_all fact x = x).
    { intros x Hx. destruct (expiring fact x) eqn:E; [by pose proof (Hall x Hx E) as (_ & _ & _ & ->)%Expire_ok|]. unfold expire_all, changed. by rewrite E. }
    rewrite Hp. split.
    + intros ? (x & -> & Hin)%list_elem_of_fmap. specialize (Hx x Hin). destruct (expiring fact x) eqn:E; rewrite Hx; [done|]. intros Hc Hpend.
      unfold expiring in E. rewrite Hc, str_eqb_refl, Hpend in E. done.
    + intros x Hin. specialize (Hx x Hin). destruct (expiring fact x) eqn:E; [|rewrite <-Hx; by apply list_elem_of_fmap_2].
      exists (expire_all fact x). split; [by apply list_elem_of_fmap_2|]. by rewrite Hx.
  - apply (TransferPending_ok airport) in H as [[_ (known & _ & _ & ->)]|(_ & _ & _ & Hp & _ & Hall)]; [done| |done|done].
    rewrite Hp. split.
    + intros ? (x & -> & Hin)%list_elem_of_fmap. destruct (transferring fact x) eqn:E.
      * pose proof (Hall x Hin E) as (_ & _ & _ & _ & ->)%TransferRecipient_ok. done.
      * assert (Ex : transfer_all fact x = x) by (unfold transfer_all, changed; by rewrite E). rewrite Ex. intros Hc Hpend. apply not_transferring; try done. by apply Hok.
    + intros x Hin Hn. assert (Ex : transfer_all fact x = x); [|rewrite <-Ex; by apply list_elem_of_fmap_2]. unfold transfer_all, changed. destruct (transferring fact x) eqn:E; [|done].
      destruct Hn. split; [by eapply transferring_pending|]. unfold transferring in E. bsplit. by apply str_eqb_eq.
Qed.

(** ** Who sees what *)

Lemma projected_less_asym a b : projected_less a b = true → projected_less b a = false.
Proof.
  unfold projected_less. unfold time_eqb, before. rewrite (Z.eqb_sym (ns (cr_CreatedAt b))).
  destruct (_ =? _) eqn:E; [apply str_ltb_asym|]. intros H. lia.
Qed.

(** The read model of a sender never fails on a reachable table, and shows a request
    exactly if the sender is the flow-management position that submitted it, or it is
    pending and assigned to the sender as the controller of the flight; the order is
    that of creation. *)
Theorem Snapshot_correct airport t auth :
  rtc (ledger_step airport) [] t → ax_Airport auth = airport → validateContext auth = Ok () →
  ∃ shown, Snapshot t auth = Ok (mk_transfer_result shown (revision t) false) ∧
    (∀ r, r ∈ shown ↔ ∃ x, x ∈ payloads t ∧ r = with_status x ∧
       (IsFMPRole (ax_Role auth) = true ∧ cr_SubmittedRole x = ax_Role auth ∨
        pending x ∧ effectiveRecipientStatus x ≠ RecipientUnassigned ∧ cr_RecipientController x = ax_Role auth)) ∧
    chain (λ a b, projected_less b a = false) shown.
Proof.
  intros Hreach Ha Hctx. destruct (steps_ok airport [] t (empty_ok airport) Hreach) as [[Hc Hok] _].
  assert (Hval : validate_all (requests t airport) = Ok ()) by (apply validate_all_ok; intros r Hr; apply Hok; by apply (requests_in airport)).
  assert (Hair : present airport = true) by (unfold validateContext in Hctx; apply guard_err_ok in Hctx; bsplit; by rewrite <-Ha).
  unfold Snapshot, ReplayAirport, Project. rewrite Hctx, Ha. simpl. rewrite Hair. simpl. rewrite Hval. simpl. rewrite Hval. simpl.
  rewrite (revision_requests airport t Hc). eexists. split; [done|]. split.
  - intros r. rewrite elem_of_sort_slice, list_elem_of_filter, list_elem_of_fmap.
    assert (Heff : ∀ x, effectiveRecipientStatus (with_status x) = effectiveRecipientStatus x) by (intros x; unfold with_status, effectiveRecipientStatus; simpl; by destruct (cr_RecipientStatus x)).
    assert (Hvis : ∀ x, visible (mk_audience (ax_Role auth) (ax_Role auth)) (with_status x) = true ↔
      (IsFMPRole (ax_Role auth) = true ∧ cr_SubmittedRole x = ax_Role auth ∨ pending x ∧ effectiveRecipientStatus x ≠ RecipientUnassigned ∧ cr_RecipientController x = ax_Role auth)).
    { intros x. unfold visible. rewrite orb_true_iff, !andb_true_iff, !str_eqb_eq, bool_decide_eq_true, negb_true_iff, bool_decide_eq_false, Heff. unfold pending. simpl. tauto. }
    split.
    + intros [Hv (x & -> & Hx)]. exists x. apply Hvis in Hv. split; [by apply (requests_in airport)|done].
    + intros (x & Hx & -> & Hv). split; [by apply Hvis|]. exists x. split; [done|]. by apply (requests_in airport).
  - apply sort_slice_adj, projected_less_asym.
Qed.

(** ** Witnesses *)

(** A flow manager asks for a speed twice, the controller accepts. *)
Definition noon (n : Z) : Time := mk_time (63844805040000000000 + n * Second) true.
Definition flow (n : Z) : CommandContext := mk_context "EKCH" "1000001" "EKDK_FMP" (noon n).
Definition sector (n : Z) : CommandContext := mk_context "EKCH" "1000002" "EKDK_CTR" (noon n).
Definition tracked_by_ctr : string → string → outcome string := λ _ _, Ok "EKDK_CTR".
Definition speed (command : string) (revision : Z) (value : string) : SubmitCommand :=
  mk_submit command revision "SAS1" KindSpeed (mk_payload None (Some (mk_speed value))).
Definition accept_second : DecisionCommand := mk_decision_command "d1" 2 "coordination-request/c2" "".

Local Abbreviation table_of m := (match m with Ok (t, _) => t | _ => [] end).
Local Abbreviation result_of m := (match m with Ok (_, r) => r | _ => mk_commit None None 0 false end).
Definition asked : ledger := Eval vm_compute in table_of (Service_Submit tracked_by_ctr [] (flow 0) (speed "c1" 0 "220")).
Definition asked_again : ledger := Eval vm_compute in table_of (Service_Submit tracked_by_ctr asked (flow 60) (speed "c2" 1 "200")).
Definition second_accepted : ledger := Eval vm_compute in table_of (decide_command tracked_by_ctr asked_again (sector 90) accept_second StateAccepted).

Lemma asked_call : ledger_call "EKCH" [] (Some 0) asked 1.
Proof. exact (call_submit "EKCH" [] tracked_by_ctr (flow 0) (speed "c1" 0 "220") asked (result_of (Service_Submit tracked_by_ctr [] (flow 0) (speed "c1" 0 "220"))) eq_refl ltac:(by vm_compute)). Qed.

Lemma asked_again_call : ledger_call "EKCH" asked (Some 1) asked_again 2.
Proof. exact (call_submit "EKCH" asked tracked_by_ctr (flow 60) (speed "c2" 1 "200") asked_again (result_of (Service_Submit tracked_by_ctr asked (flow 60) (speed "c2" 1 "200"))) eq_refl ltac:(by vm_compute)). Qed.

Local Abbreviation second_decision := (mk_decision "d1" "EKCH" "1000002" "EKDK_CTR" "EKDK_CTR" "coordination-request/c2" KindSpeed StatePending StateAccepted "" (noon 90)).

Lemma second_accepted_call : ledger_call "EKCH" asked_again (Some 2) second_accepted 3.
Proof.
  exact (call_decide "EKCH" asked_again "coordination-request/c2" second_decision 2 second_accepted
           (result_of (Repository_Decide asked_again "coordination-request/c2" second_decision 2)) eq_refl ltac:(by vm_compute)).
Qed.

Lemma asked_reachable : rtc (ledger_step "EKCH") [] asked.
Proof. eapply rtc_once. eexists _, _. exact asked_call. Qed.

Lemma asked_again_reachable : rtc (ledger_step "EKCH") [] asked_again.
Proof. eapply rtc_r; [exact asked_reachable|]. eexists _, _. exact asked_again_call. Qed.

Lemma second_accepted_reachable : rtc (ledger_step "EKCH") [] second_accepted.
Proof. eapply rtc_r; [exact asked_again_reachable|]. eexists _, _. exact second_accepted_call. Qed.

Lemma ledger_invariant_witness : List.length second_accepted = 2%nat ∧ requests_ok (payloads second_accepted).
Proof. split; [by vm_compute|]. apply (ledger_invariant "EKCH"). exact second_accepted_reachable. Defined.

Definition first_asked : Request := Eval vm_compute in match payloads asked with r :: _ => r | [] => mk_request "" "" "" "" "" RecipientAssigned "" "" KindSpeed StatePending (mk_payload None None) (noon 0) (noon 0) None None None None [] None None end.

Lemma requests_evolve_witness : ∃ r', r' ∈ payloads second_accepted ∧ identity r' = identity first_asked.
Proof.
  destruct (requests_evolve "EKCH" asked second_accepted first_asked) as (r' & Hr & Hi & _).
  - exact asked_reachable.
  - eapply rtc_l; [eexists _, _; exact asked_again_call|]. eapply rtc_once. eexists _, _. exact second_accepted_call.
  - left.
  - by exists r'.
Defined.

Lemma decision_needs_recipient_witness :
  ∃ r r', r ∈ payloads asked_again ∧ cr_ID r = "coordination-request/c2" ∧ payloads second_accepted = replace r' (payloads asked_again) ∧ cr_State r' = StateAccepted.
Proof.
  destruct (decision_needs_recipient tracked_by_ctr "EKCH" asked_again (sector 90) accept_second StateAccepted second_accepted
    (result_of (decide_command tracked_by_ctr asked_again (sector 90) accept_second StateAccepted))) as (r & r' & H1 & H2 & _ & _ & _ & _ & H3 & _ & H4 & _).
  - exact asked_again_reachable.
  - done.
  - by vm_compute.
  - by vm_compute.
  - by exists r, r'.
Defined.

Lemma revision_counts_calls_witness : 3 = revision second_accepted ∧ revision asked_again = 2.
Proof.
  split; [|by vm_compute]. refine (proj1 (revision_counts_calls "EKCH" asked_again (Some 2) second_accepted 3 asked_again_reachable _ second_accepted_call)).
  unfold unseparated. intros r Hr. assert (E : cr_Callsign r = "SAS1"); [|rewrite E; apply (bool_decide_unpack _); by vm_compute].
  change (payloads asked_again) with (lr_payload <$> asked_again) in Hr. repeat (apply elem_of_cons in Hr as [-> |Hr]; [done|]). by apply elem_of_nil in Hr.
Defined.

Lemma submit_retry_witness :
  ∃ r, Service_Submit tracked_by_ctr second_accepted (mk_context "EKCH" "1000001" "EKDK_FMP" (noon 120)) (speed "c1" 77 "220") = Ok (second_accepted, mk_commit (Some r) None (revision second_accepted) true) ∧
    cr_Callsign r = "SAS1".
Proof.
  destruct (submit_retry tracked_by_ctr tracked_by_ctr "EKCH" [] (flow 0) (speed "c1" 0 "220") asked (result_of (Service_Submit tracked_by_ctr [] (flow 0) (speed "c1" 0 "220"))) second_accepted (noon 120) "EKDK_CTR" 77)
    as (r & H & _ & _ & Hc & _).
  - constructor.
  - done.
  - by vm_compute.
  - eapply rtc_l; [eexists _, _; exact asked_again_call|]. eapply rtc_once. eexists _, _. exact second_accepted_call.
  - done.
  - done.
  - by vm_compute.
  - exists r. split; [exact H|exact Hc].
Defined.

(** The flight goes around; another controller takes it over. *)
Definition went_around : ExpiryFact := mk_expiry_fact "EKCH" "go-around/1" "SAS1" 1 ExpiryGoAroundConfirmed (noon 70).
Definition taken_over (revision : N) (owner : string) (n : Z) : OwnershipFact := mk_ownership_fact "EKCH" "SAS1" "strip/SAS1" revision owner (noon n).
Local Abbreviation tresult_of m := (match m with Ok (_, r) => r | _ => mk_transfer_result [] 0 true end).

Lemma facts_settle_flight_witness :
  (∀ r, r ∈ payloads (table_of (ExpirePending asked_again went_around)) → cr_Callsign r = "SAS1" → ¬ pending r) ∧
  (∀ r, r ∈ payloads (table_of (TransferPending asked_again (taken_over 1 "EKCH_APP" 70))) → cr_Callsign r = "SAS1" → pending r → cr_RecipientController r = "EKCH_APP").
Proof.
  destruct (facts_settle_flight "EKCH" asked_again asked_again_reachable) as [H1 H2]. split.
  - apply (H1 went_around _ (tresult_of (ExpirePending asked_again went_around))); by vm_compute.
  - apply (H2 (taken_over 1 "EKCH_APP" 70) _ (tresult_of (TransferPending asked_again (taken_over 1 "EKCH_APP" 70)))); by vm_compute.
Defined.

Lemma Snapshot_correct_witness : ∃ shown, Snapshot asked_again (sector 90) = Ok (mk_transfer_result shown (revision asked_again) false) ∧ List.length shown = 1%nat.
Proof.
  destruct (Snapshot_correct "EKCH" asked_again (sector 90)) as (shown & H & _).
  - exact asked_again_reachable.
  - done.
  - by vm_compute.
  - exists shown. split; [exact H|]. assert (E : tr_Requests (match Snapshot asked_again (sector 90) with Ok r => r | _ => mk_transfer_result [] 0 false end) = shown) by (by rewrite H).
    rewrite <-E. by vm_compute.
Defined.

(** ** Two things the repository does not do *)

(** A fact that changed nothing is not recorded; when it is received again after a later
    one, it is an error instead of a no-op. *)
Lemma replayed_transfer_fails :
  let same := taken_over 1 "EKDK_CTR" 70 in
  let t1 := table_of (TransferPending asked_again same) in
  let t2 := table_of (TransferPending t1 (taken_over 2 "EKCH_APP" 80)) in
  t1 = asked_again ∧ TransferPending t2 same = Err (New_error "coordination request recipient transfer is invalid").
Proof. by vm_compute. Qed.

(** Without a session, a command identity that was used at another airport overwrites the
    request of that airport. *)
Lemma submit_overwrites_airport :
  let other := mk_context "EKBI" "1000001" "EKDK_FMP" (noon 60) in
  let t := table_of (Service_Submit tracked_by_ctr asked other (mk_submit "c1" 0 "DLH2" KindSpeed (mk_payload None (Some (mk_speed "180"))))) in
  cr_Callsign <$> requests asked "EKCH" = ["SAS1"%string] ∧ cr_Callsign <$> requests t "EKCH" = ["DLH2"%string] ∧ requests t "EKBI" = [].
Proof. by vm_compute. Qed.
