(* ===== verification/AirportDefinition.v ===== *)
(** * Airport definitions: [config/airport_document.go], [airport_registry.go],
    [airport_radis.go], [regions.go]

    An airport is described by a document: where it lies, its positions, and the
    handler of its workflow with the handler's settings, bays and annotations. A
    catalog of compiled handlers accepts a document. Only the fields that the
    workflow reads are here. A region is a set of positions: the polygons are those
    of a library. *)

From S2P Require Import Prelude GoTime GoFloat CdmClock Bays.
From stdpp Require Import gmap strings.
From Stdlib Require Import QArith.
From Stdlib Require Import Strings.Ascii Strings.String.

Local Open Scope Z_scope.

(** ** Frequencies: [vatsim/frequency.go] *)

(** The text before and after the first dot, as [SplitN] with two parts *)
Fixpoint split_dot (l : list ascii) : option (list ascii * list ascii) :=
  match l with
  | [] => None
  | c :: l => if bool_decide (c = "."%char) then Some ([], l) else '(a, b) ← split_dot l; Some (c :: a, b)
  end.

Definition formatFrequencyHz (frequencyHz : Z) : string :=
  let mhz := frequencyHz / 1000000 in
  let khz := frequencyHz mod 1000000 / 1000 in
  (pad 1 mhz +:+ "." +:+ pad 3 khz)%string.

Definition NormalizeFrequency (frequency : string) : string :=
  let normalized := TrimSpace frequency in
  if str_empty normalized then ""%string
  else match split_dot (list_ascii_of_string normalized) with
  | Some (before, behind) =>
      match Atoi (string_of_list_ascii before) with
      | Some whole =>
          if whole <=? 0 then ""%string
          else
            let fraction := list_ascii_of_string (TrimSpace (string_of_list_ascii behind)) in
            let padded := fraction ++ replicate (3 - List.length fraction) "0"%char in
            (pad 1 whole +:+ "." +:+ string_of_list_ascii (take 3 padded))%string
      | None => ""%string
      end
  | None =>
      match Atoi normalized with
      | Some hz => if hz <=? 0 then ""%string else formatFrequencyHz hz
      | None => ""%string
      end
  end.

(** ** Regions: [config/regions.go] *)

(** [Region] is the polygon, nil in what a query returns. *)
Record Region := mk_region {
  r_Runways : list string;
  r_Region : option (float64 → float64 → bool);
  r_ThresholdLat : float64;
  r_ThresholdLon : float64;
  r_GlideslopeDegrees : float64;
  r_MaxAboveGlideslopeFt : Z
}.

Definition detached (r : Region) : Region :=
  mk_region (r_Runways r) None (r_ThresholdLat r) (r_ThresholdLon r) (r_GlideslopeDegrees r) (r_MaxAboveGlideslopeFt r).

(** Whether the polygon contains a position; asking a nil polygon is not modelled. *)
Definition ContainsPoint (r : Region) (lat lon : float64) : bool := opt_test (λ f, f lat lon) (r_Region r).

Definition contains (l : list string) (s : string) : bool := existsb (str_eqb s) l.

Definition defaultFinalApproachGlideslopeDegrees : float64 := fl 3.
Definition defaultFinalApproachMaxAboveGlideslopeFt : Z := 500.
Definition feetPerNauticalMile : float64 := fl (607612 # 100).

Definition FinalApproachAltitudeCeiling `{GoMath} (r : Region) (distanceNM : float64) (airportElevationFeet : Z) : Z :=
  let glideslopeDegrees := if fle (r_GlideslopeDegrees r) 0%Q then defaultFinalApproachGlideslopeDegrees else r_GlideslopeDegrees r in
  let maxAboveGlideslopeFt := if r_MaxAboveGlideslopeFt r <=? 0 then defaultFinalApproachMaxAboveGlideslopeFt else r_MaxAboveGlideslopeFt r in
  let aglFeet := fmul (fmul (math_Tan (fdiv (fmul glideslopeDegrees math_Pi) (fl 180))) distanceNM) feetPerNauticalMile in
  wrap64 (wrap64 (airportElevationFeet + round_to_int aglFeet) + maxAboveGlideslopeFt).

(** ** Documents: [config/airport_document.go] *)

(** [int64(x)] of a [float64] that is in range *)
Definition float_to_int (a : float64) : Z := Z.quot (Qnum a) (Zpos (Qden a)).

Record EKCHSettings := mk_ekch_settings { AirborneAltitudeAGLFT : Z; ekch_RelevantDistanceNM : float64 }.

Record RADISBayStates := mk_bay_states { st_Departure : string; st_Arrival : string }.

Record RADISSettings := mk_radis_settings {
  AutomaticReappearance : bool;
  DisconnectRemovalSeconds : float64;
  DepartureInitialBay : string;
  ArrivalInitialBay : string;
  BayGroundStates : gmap string RADISBayStates;
  AdmissionDistanceNM : float64;
  DepartureAdmissionAGLFT : Z;
  RemovalDistanceNM : float64;
  DepartureRemovalAGLFT : Z;
  RecoverySeconds : Z
}.

(** The dynamic type of the settings *)
Inductive Settings := SettingsEKCH (s : EKCHSettings) | SettingsRADIS (s : RADISSettings) | SettingsOther.

Record AirportPosition := mk_position { pos_Name : string; pos_Frequency : string }.
Record AirportGeography := mk_airport_geography { geo_Latitude : float64; geo_Longitude : float64; geo_ElevationFT : float64 }.
Record AirportOwnership := mk_ownership { own_Strips : string; own_Sectors : string }.
Record AirportView := mk_view { view_ID : string; view_Layouts : list string; view_AirborneFallbackLayout : string }.
Record AirportWorkflow := mk_workflow {
  wf_Handler : string;
  wf_Settings : Settings;
  wf_Bays : list string;
  wf_Annotations : gmap string string
}.
(** Availability of a service, when the document names it *)
Record AirportServices := mk_services { svc_PDC : option string; svc_AMAN : option string }.

Record AirportDocument := mk_document {
  doc_Airport : string;
  doc_Geography : AirportGeography;
  doc_Positions : list AirportPosition;
  doc_Ownership : AirportOwnership;
  doc_View : AirportView;
  doc_Workflow : AirportWorkflow;
  doc_Services : AirportServices
}.

Definition ServiceDisabled : string := "disabled".

(** A definition: its address, its revision, its document and its groups of regions *)
Record AirportDefinition := mk_definition {
  def_address : positive;
  def_revision : string;
  def_document : AirportDocument;
  def_runwayRegions : list Region;
  def_finalRegions : list Region
}.

Definition Airport (d : AirportDefinition) : string := doc_Airport (def_document d).

Definition RunwayRegionAt (d : AirportDefinition) (lat lon : float64) : option Region :=
  detached <$> find (λ r, ContainsPoint r lat lon) (def_runwayRegions d).

Definition FinalRegionAt (d : AirportDefinition) (runway : string) (lat lon : float64) : option Region :=
  detached <$> find (λ r, contains (r_Runways r) (ToUpper (TrimSpace runway)) && ContainsPoint r lat lon) (def_finalRegions d).

(** ** Compiled handlers: [airport_registry.go], [airport_radis.go] *)

Record HandlerDescriptor := mk_handler_descriptor {
  hd_ID : string;
  hd_View : string;
  hd_Layouts : list string;
  hd_RequiredBays : list string;
  hd_Validate : AirportDocument → outcome unit
}.

Definition ekch_validate (d : AirportDocument) : outcome unit :=
  match wf_Settings (doc_Workflow d) with
  | SettingsEKCH settings =>
      guard_err (negb (str_eqb (doc_Airport d) "EKCH")) (Errorf "workflow.handler: ekch/v1 requires EKCH" []);;
      guard_err (negb (str_eqb (own_Strips (doc_Ownership d)) "route") || negb (str_eqb (own_Sectors (doc_Ownership d)) "coverage"))
        (Errorf "ownership: EKCH requires route/coverage" []);;
      guard_err (negb (feq (geo_Latitude (doc_Geography d)) AirportLatitude) || negb (feq (geo_Longitude (doc_Geography d)) AirportLongitude)
          || negb (feq (geo_ElevationFT (doc_Geography d)) (fl 17)) || negb (feq (ekch_RelevantDistanceNM settings) RelevantDistance))
        (Errorf "geography/workflow.settings: EKCH execution requires its current geography and relevance distance" [])
  | _ => Err (Errorf "workflow.settings: expected EKCHSettings" [])
  end.

Definition ekch_bays : list string :=
  [BAY_UNKNOWN; BAY_NOT_CLEARED; BAY_CLEARED; BAY_PUSH; BAY_TAXI; BAY_TAXI_LWR; BAY_TAXI_TWR; BAY_DEPART; BAY_AIRBORNE; BAY_FINAL; BAY_RWY_ARR;
   BAY_TWY_ARR; BAY_STAND; BAY_HIDDEN; BAY_HIDDEN_DEP; BAY_DEP_HIDDEN; BAY_ARR_HIDDEN; BAY_CONTROLZONE].

Definition EKCHConfig : HandlerDescriptor :=
  mk_handler_descriptor "ekch/v1" "ekch" ["AMAN"; "SEQPLN"; "CLX"; "AA"; "AAAD"; "AD"; "GEGW"; "TWTE"; "TWRGND"]%string ekch_bays ekch_validate.

Definition RADISBays : list string := ["ACTIVE"; "RUNWAY"; "PASSIVE_TOP"; "PASSIVE_BOTTOM"]%string.

Definition known_bay (value : string) : bool := contains RADISBays value.

Definition service_off (s : option string) : bool := match s with Some a => str_eqb a ServiceDisabled | None => true end.

Definition radis_validate (d : AirportDocument) : outcome unit :=
  match wf_Settings (doc_Workflow d) with
  | SettingsRADIS s =>
      guard_err (negb (str_eqb (own_Strips (doc_Ownership d)) "none") || negb (str_eqb (own_Sectors (doc_Ownership d)) "none"))
        (Errorf "RADIS requires ownership disabled" []);;
      guard_err (negb (List.length (wf_Bays (doc_Workflow d)) =? List.length RADISBays)%nat) (Errorf "RADIS requires exactly four bays" []);;
      guard_err (negb (known_bay (DepartureInitialBay s)) || negb (known_bay (ArrivalInitialBay s))) (Errorf "unknown RADIS initial bay" []);;
      guard_err (negb (size (BayGroundStates s) =? 4)%nat) (Errorf "RADIS requires explicit bay mappings" []);;
      guard_err (existsb (λ b, negb (known_bay b)) (map_to_list (BayGroundStates s)).*1) (Errorf "unknown RADIS bay mapping" []);;
      guard_err (flt (RemovalDistanceNM s) (AdmissionDistanceNM s) || (DepartureRemovalAGLFT s <=? DepartureAdmissionAGLFT s))
        (Errorf "RADIS removal bounds must exceed admission bounds" []);;
      guard_err (negb (service_off (svc_PDC (doc_Services d))) || negb (service_off (svc_AMAN (doc_Services d))))
        (Errorf "RADIS PDC and AMAN must be disabled" [])
  | _ => Err (Errorf "workflow.settings: expected RADISSettings" [])
  end.

Definition RADISConfig : HandlerDescriptor := mk_handler_descriptor "radis/v1" "radis" ["RADIS"]%string RADISBays radis_validate.

(** Production has these two handlers; [handlers] of the catalog is a map from their IDs. *)
Definition ProductionAirportCatalog : list HandlerDescriptor := [EKCHConfig; RADISConfig].

(** [bind] of [AirportCatalog] on a document with decoded settings *)
Definition catalog_bind (catalog : list HandlerDescriptor) (doc : AirportDocument) : outcome unit :=
  match find (λ h, str_eqb (hd_ID h) (wf_Handler (doc_Workflow doc))) catalog with
  | None => Err (Errorf "workflow.handler: no compiled descriptor for %q" [AStr (wf_Handler (doc_Workflow doc))])
  | Some d =>
      guard_err (negb (str_eqb (view_ID (doc_View doc)) (hd_View d))) (Errorf "view.id: unsupported %q for handler %s" [AStr (view_ID (doc_View doc)); AStr (hd_ID d)]);;
      guard_err (existsb (λ l, negb (contains (hd_Layouts d) l)) (view_Layouts (doc_View doc))) (Errorf "view.layouts: unknown layout" []);;
      guard_err (negb (contains (hd_Layouts d) (view_AirborneFallbackLayout (doc_View doc))))
        (Errorf "view.airborne_fallback_layout: unknown layout %q" [AStr (view_AirborneFallbackLayout (doc_View doc))]);;
      guard_err (existsb (λ required, negb (contains (wf_Bays (doc_Workflow doc)) required)) (hd_RequiredBays d)) (Errorf "workflow.bays: missing required bay" []);;
      hd_Validate d doc
  end.

(** ** What an accepted document has *)

Lemma contains_iff l s : contains l s = true ↔ s ∈ l.
Proof.
  unfold contains. rewrite existsb_exists. split.
  - intros (x & Hx & ->%str_eqb_eq). by apply list_elem_of_In.
  - intros Hs. exists s. split; [by apply list_elem_of_In|apply str_eqb_refl].
Qed.

Definition accepted_by (h : HandlerDescriptor) (doc : AirportDocument) : Prop :=
  wf_Handler (doc_Workflow doc) = hd_ID h ∧ catalog_bind ProductionAirportCatalog doc = Ok tt.
