(* ===== verification/AirportWorkflow.v ===== *)
(** * Airport workflows: [airportworkflow/contracts.go], [strip_board.go], [snapshot.go]

    A handler decides what a controller's action or a report means for a strip; it
    keeps no state. [Bound] is a handler bound to the definition of an airport: it
    calls the handler and refuses what a decision may not ask for. A handler is a
    record of operations, a request of an action is a value of one of the types
    [RequestType]. Maps are finite maps. *)

From S2P Require Import Prelude GoTime GoFloat Bays AirportDefinition.
From stdpp Require Import gmap strings.
From Stdlib Require Import Strings.Ascii Strings.String.

Local Open Scope Z_scope.

(** ** Data *)

Inductive Source := ObservationSource | HumanSource | AutomaticSource | SourceOther.

#[export] Instance Source_eq_dec : EqDecision Source.
Proof. solve_decision. Defined.

Definition from_observation (s : Source) : bool := bool_decide (s = ObservationSource).

Record StripAnnotations := mk_annotations {
  an_ReviewRequired : bool;
  an_Notes : string;
  an_Deicing : bool;
  an_REA : option string;
  an_ATA : option string;
  an_ATD : string;
  an_EndurancePOB : string;
  an_QNH : string;
  an_RNAV : string;
  an_VFR : bool
}.

Definition no_annotations : StripAnnotations := mk_annotations false "" false None None "" "" "" "" false.

Record WorkflowSnapshot := mk_snapshot {
  sn_RemovedAt : option Time;
  sn_RemovalReason : string;
  sn_BoardMember : bool;
  sn_Local : bool;
  sn_HasFP : bool;
  sn_Annotations : StripAnnotations;
  sn_GroundStateKnown : bool;
  sn_Runway : string;
  sn_Landed : bool;
  sn_EuroscopeSeen : bool;
  sn_Exists : bool;
  sn_Origin : string;
  sn_Destination : string;
  sn_Bay : string;
  sn_GroundState : string;
  sn_PDCState : string;
  sn_Cleared : bool
}.

Record Context := mk_context {
  cx_Now : Time;
  cx_Session : Z;
  cx_Definition : option positive;
  cx_Source : Source;
  cx_Strip : WorkflowSnapshot;
  cx_GroundOnline : bool
}.

Inductive ObservationKind := FullFlight | GroundState | PositionReport | ArrivalPosition | ClearedFlag | BackendState | ObservationOther.

Record Observation := mk_observation {
  ob_Kind : ObservationKind;
  ob_Origin : string;
  ob_Destination : string;
  ob_GroundState : string;
  ob_Cleared : bool;
  ob_Latitude : float64;
  ob_Longitude : float64;
  ob_Altitude : Z
}.

Inductive LifecycleKind := Admission | StandExpiry | Removal | BackendAdmission | LifecycleOther.

Record LifecycleEvent := mk_lifecycle_event {
  le_Reason : string;
  le_Kind : LifecycleKind;
  le_Latitude : float64;
  le_Longitude : float64;
  le_Altitude : Z;
  le_Origin : string;
  le_Destination : string;
  le_GroundState : string;
  le_Cleared : bool
}.

Record StripVisibility := mk_visibility { vi_Visible : bool; vi_Reason : string }.

Record LifecycleDecision := mk_lifecycle_decision {
  ld_Visibility : option StripVisibility;
  ld_RemovalDelay : option Duration;
  ld_Admit : bool;
  ld_Restart : bool;
  ld_Remove : bool;
  ld_Bay : option string;
  ld_StandHideDelay : Duration
}.

Record Coordination := mk_coordination {
  co_Sequence : bool;
  co_Coverage : gmap string (list string);
  co_TargetIsTower : bool;
  co_SQPosition : string;
  co_DeliveryPosition : string
}.

Record CoordinationDecision := mk_coordination_decision {
  cd_SequenceSupported : bool;
  cd_SequenceOwner : string;
  cd_SequenceFrequency : string;
  cd_ClearanceOwner : string;
  cd_PromoteTaxi : bool;
  cd_Handover : bool
}.

Record StripAdmission := mk_admission { ad_Bay : string; ad_Annotations : StripAnnotations }.
Record ConnectedFlightLookup := mk_lookup { lk_Airport : string; lk_Query : string }.

Record WorkflowDecision := mk_decision {
  de_Admission : option StripAdmission;
  de_ConnectedFlights : option ConnectedFlightLookup;
  de_Visibility : option StripVisibility;
  de_Annotations : option StripAnnotations;
  de_AutoAssume : bool;
  de_ConfirmVoiceClearance : bool;
  de_Ignore : bool;
  de_ReconciledGroundState : option string;
  de_ReconciledCleared : option bool;
  de_Touchdown : bool;
  de_Bay : option string;
  de_GroundState : option string;
  de_Cleared : option bool
}.

Definition no_decision : WorkflowDecision := mk_decision None None None None false false false None None false None None None.

(** A decision that asks for a bay, a ground state and a cleared flag, as a controller's move does *)
Definition move_to (bay : string) (state : option string) (cleared : option bool) : WorkflowDecision :=
  mk_decision None None None None false false false None None false (Some bay) state cleared.

(** ** Requests and actions *)

Record Move := mk_move { mv_Bay : string; mv_Clearance : bool; mv_ConfirmedRemoval : bool }.
Record StripAnnotation := mk_annotation { sa_Field : string; sa_Value : string; sa_Enabled : bool }.
(** The fields of [LocalStripCreation] and [ConnectedFlightCandidate] that a handler reads *)
Record LocalStripCreation := mk_local_creation { lc_Origin : string; lc_Notes : string }.

Inductive ActionRequest :=
| RequestMove (a : Move)
| RequestClearance (cleared : bool)
| RequestFlightPlanCreation
| RequestAnnotation (a : StripAnnotation)
| RequestRemoval
| RequestRestoration
| RequestSearch (query : string)
| RequestLocalCreation (r : LocalStripCreation)
| RequestCandidate (origin : string).

(** [reflect.Type] of a request *)
Inductive RequestType := TMove | TClearance | TFlightPlanCreation | TAnnotation | TRemoval | TRestoration | TSearch | TLocalCreation | TCandidate.

(** What the generic [Action] needs of its type parameter: the type, and the assertion that a request has it *)
Class Requested (T : Type) := { request_type : RequestType; as_request : ActionRequest → option T }.

(** The empty requests, which are different types in Go *)
Inductive FlightPlanCreation := flight_plan_creation.
Inductive StripRemoval := strip_removal.
Inductive StripRestoration := strip_restoration.
Record Clearance := mk_clearance { cl_Cleared : bool }.
Record ConnectedFlightSearch := mk_search { se_Query : string }.
Record ConnectedFlightCandidate := mk_candidate { ca_Origin : string }.

#[export] Instance requested_Move : Requested Move := {| request_type := TMove; as_request r := match r with RequestMove a => Some a | _ => None end |}.
#[export] Instance requested_Clearance : Requested Clearance :=
  {| request_type := TClearance; as_request r := match r with RequestClearance c => Some (mk_clearance c) | _ => None end |}.
#[export] Instance requested_FlightPlanCreation : Requested FlightPlanCreation :=
  {| request_type := TFlightPlanCreation; as_request r := match r with RequestFlightPlanCreation => Some flight_plan_creation | _ => None end |}.
#[export] Instance requested_Annotation : Requested StripAnnotation :=
  {| request_type := TAnnotation; as_request r := match r with RequestAnnotation a => Some a | _ => None end |}.
#[export] Instance requested_Removal : Requested StripRemoval :=
  {| request_type := TRemoval; as_request r := match r with RequestRemoval => Some strip_removal | _ => None end |}.
#[export] Instance requested_Restoration : Requested StripRestoration :=
  {| request_type := TRestoration; as_request r := match r with RequestRestoration => Some strip_restoration | _ => None end |}.
#[export] Instance requested_Search : Requested ConnectedFlightSearch :=
  {| request_type := TSearch; as_request r := match r with RequestSearch q => Some (mk_search q) | _ => None end |}.
#[export] Instance requested_LocalCreation : Requested LocalStripCreation :=
  {| request_type := TLocalCreation; as_request r := match r with RequestLocalCreation a => Some a | _ => None end |}.
#[export] Instance requested_Candidate : Requested ConnectedFlightCandidate :=
  {| request_type := TCandidate; as_request r := match r with RequestCandidate o => Some (mk_candidate o) | _ => None end |}.

Record ActionDescriptor := mk_action {
  act_name : string;
  act_request : option RequestType;
  act_decide : option (Context → ActionRequest → outcome WorkflowDecision)
}.

Definition Action {T} `{!Requested T} (name : string) (decide : option (Context → T → outcome WorkflowDecision)) : ActionDescriptor :=
  match decide with
  | None => mk_action "" None None
  | Some f => mk_action name (Some request_type) (Some (λ c request,
      match as_request request with
      | Some value => f c value
      | None => Err (Errorf "action %s: expected %v, got %T" [AStr name])
      end))
  end.

(** ** Handlers *)

(** [shared.RejectAction] *)
Definition RejectAction (reason : string) : error := mk_error (Some "ActionRejection"%string) reason [].


Record Handler := mk_handler {
  h_Observe : Context → Observation → outcome WorkflowDecision;
  h_Lifecycle : Context → LifecycleEvent → outcome LifecycleDecision;
  h_Coordinate : Context → Coordination → outcome CoordinationDecision
}.

Record BoardStatePolicy := mk_policy { bp_Revisioned : bool; bp_RecoverySeconds : Z }.

Record Descriptor := mk_descriptor {
  ds_BoardState : option (AirportDefinition → outcome BoardStatePolicy);
  ds_ID : string;
  ds_Bind : option (AirportDefinition → outcome (option Handler * list ActionDescriptor))
}.

Record Bound := mk_bound {
  b_boardState : BoardStatePolicy;
  b_annotations : gmap string string;
  b_definition : AirportDefinition;
  b_handler : Handler;
  b_actions : gmap string ActionDescriptor;
  b_bays : gset string
}.

(** ** Binding *)

Definition add_action (actions : gmap string ActionDescriptor) (action : ActionDescriptor) : outcome (gmap string ActionDescriptor) :=
  guard_err (str_empty (act_name action) || is_nil (act_request action) || is_nil (act_decide action)) (Errorf "incomplete action descriptor" []);;
  guard_err (not_nil (actions !! act_name action)) (Errorf "duplicate action %s" [AStr (act_name action)]);;
  Ok (<[act_name action := action]> actions).

Definition Bind (d : option AirportDefinition) (descriptor : Descriptor) : outcome Bound :=
  match d, ds_Bind descriptor with
  | Some d, Some bind =>
      guard_err (str_empty (ds_ID descriptor) || negb (str_eqb (ds_ID descriptor) (wf_Handler (doc_Workflow (def_document d)))))
        (Errorf "workflow implementation does not match definition" []);;
      '(handler, actions) ← bind d;
      match handler with
      | None => Err (Errorf "handler %s is nil" [AStr (ds_ID descriptor)])
      | Some handler =>
          boardState ← match ds_BoardState descriptor with Some f => f d | None => Ok (mk_policy false 0) end;
          actions ← fold_outcome add_action ∅ actions;
          let workflow := doc_Workflow (def_document d) in
          Ok (mk_bound boardState (wf_Annotations workflow) d handler actions (list_to_set (wf_Bays workflow)))
      end
  | _, _ => Err (Errorf "workflow implementation does not match definition" [])
  end.

Definition ActionCatalog (b : Bound) : list string := sort_slice str_ltb (map_to_list (b_actions b)).*1.

Definition HasBay (b : Bound) (bay : string) : bool := bool_decide (bay ∈ b_bays b).

(** [context] of [Bound] *)
Definition bound_context (b : Bound) (c : Context) : outcome Context :=
  guard_err ((cx_Session c <=? 0) || opt_test (λ p, negb (p =? def_address (b_definition b))%positive) (cx_Definition c)) (Errorf "workflow scope mismatch" []);;
  Ok (mk_context (cx_Now c) (cx_Session c) (Some (def_address (b_definition b))) (cx_Source c) (cx_Strip c) (cx_GroundOnline c)).

(** ** Validation of a decision *)

(** The fields of [StripAnnotations] in order: the name, the declared type that the
    Go type asks for, and whether two values differ in it *)
Definition annotation_fields (a b : StripAnnotations) : list (string * string * bool) :=
  let differ {A} `{EqDecision A} (f : StripAnnotations → A) := bool_decide (f a ≠ f b) in
  [("review_required", "boolean", differ an_ReviewRequired); ("notes", "string", differ an_Notes); ("deicing", "boolean", differ an_Deicing);
   ("rea", "timestamp", differ an_REA); ("ata", "timestamp", differ an_ATA); ("atd", "string", differ an_ATD);
   ("endurance_pob", "string", differ an_EndurancePOB); ("qnh", "string", differ an_QNH); ("rnav", "string", differ an_RNAV);
   ("vfr", "boolean", differ an_VFR)]%string.

Definition validateDeclaredAnnotations (before after : StripAnnotations) (declared : gmap string string) : outcome unit :=
  fold_outcome (λ _ '(name, want, differ),
    guard_err (differ && negb (bool_decide (declared !! name = Some want))) (Errorf "annotation %s is not declared as %s" [AStr name; AStr want])) tt
    (annotation_fields before after).

Definition ground_states : list string :=
  [GroundStateUnknown; GroundStateStartup; GroundStatePush; GroundStateTaxi; GroundStateLineup; GroundStateDepart; GroundStateParked].

(** [if p != nil { f(p) }] *)
Definition if_some {A} (o : option A) (f : A → outcome unit) : outcome unit := match o with Some a => f a | None => Ok tt end.

Definition Bound_Validate (b : Bound) (c : Context) (d : WorkflowDecision) : outcome unit :=
  let revisioned := bp_Revisioned (b_boardState b) in
  let observed := from_observation (cx_Source c) in
  guard_err (not_nil (de_Visibility d) && negb revisioned) (Errorf "invalid visibility decision" []);;
  guard_err (not_nil (de_Annotations d) && (observed || negb revisioned)) (Errorf "invalid annotation decision" []);;
  if_some (de_Annotations d) (λ a, validateDeclaredAnnotations (sn_Annotations (cx_Strip c)) a (b_annotations b));;
  guard_err (opt_test (λ a, negb revisioned || negb (HasBay b (ad_Bay a))) (de_Admission d)) (Errorf "invalid board admission decision" []);;
  if_some (de_Admission d) (λ a, validateDeclaredAnnotations no_annotations (ad_Annotations a) (b_annotations b));;
  guard_err (opt_test (λ l, negb (str_eqb (lk_Airport l) (Airport (b_definition b)))) (de_ConnectedFlights d))
    (Errorf "connected lookup must retain airport scope" []);;
  guard_err (opt_test (λ s, negb (contains ground_states s)) (de_GroundState d)) (Errorf "workflow returned invalid ground state %q" []);;
  guard_err (bool_decide (cx_Source c = SourceOther)) (Errorf "unknown workflow source" []);;
  guard_err (not_nil (de_GroundState d) && not_nil (de_Cleared d)) (Errorf "workflow cannot combine ground-state and clearance operations" []);;
  guard_err (negb observed && (de_Touchdown d || not_nil (de_ReconciledGroundState d) || not_nil (de_ReconciledCleared d)))
    (Errorf "controller action cannot masquerade as observation reconciliation" []);;
  bound_context b c;;
  guard_err (opt_test (λ bay, negb (HasBay b bay)) (de_Bay d)) (Errorf "workflow returned unknown bay %q" []);;
  guard_err (observed && (not_nil (de_GroundState d) || not_nil (de_Cleared d))) (Errorf "observation cannot emit field commands" []).

(** ** Operations of a bound workflow *)

Definition with_source (c : Context) (s : Source) : Context :=
  mk_context (cx_Now c) (cx_Session c) (cx_Definition c) s (cx_Strip c) (cx_GroundOnline c).

Definition Bound_Action (b : Bound) (c : Context) (name : string) (request : ActionRequest) : outcome WorkflowDecision :=
  c ← bound_context b c;
  guard_err (from_observation (cx_Source c)) (Errorf "observation cannot invoke controller action" []);;
  match b_actions b !! name with
  | None => Err (Errorf "unsupported action %q" [AStr name])
  | Some a =>
      decide ← deref (act_decide a);
      d ← decide c request;
      Bound_Validate b c d;; Ok d
  end.

Definition Bound_Observe (b : Bound) (c : Context) (o : Observation) : outcome WorkflowDecision :=
  c ← bound_context b c;
  let c := with_source c ObservationSource in
  d ← h_Observe (b_handler b) c o;
  Bound_Validate b c d;; Ok d.

Definition Bound_Lifecycle (b : Bound) (c : Context) (l : LifecycleEvent) : outcome LifecycleDecision :=
  c ← bound_context b c;
  d ← h_Lifecycle (b_handler b) c l;
  match ld_Visibility d with
  | Some v => Bound_Validate b c (mk_decision None None (Some v) None false false false None None false None None None);; Ok d
  | None => Ok d
  end.

Definition Bound_Coordinate (b : Bound) (c : Context) (event : Coordination) : outcome CoordinationDecision :=
  c ← bound_context b c; h_Coordinate (b_handler b) c event.

(** ** The registry *)

Definition add_descriptor (compiled : gmap string Descriptor) (d : Descriptor) : outcome (gmap string Descriptor) :=
  guard_err (not_nil (compiled !! ds_ID d)) (Errorf "duplicate workflow %s" [AStr (ds_ID d)]);;
  Ok (<[ds_ID d := d]> compiled).

(** The names of a registry of definitions in order *)
Definition Airports (definitions : gmap string AirportDefinition) : list string := sort_slice str_ltb (map_to_list definitions).*1.

(** A definition whose handler is not compiled is bound to the empty descriptor. *)
Definition NewRegistry (definitions : option (gmap string AirportDefinition)) (descriptors : list Descriptor) : outcome (gmap string Bound) :=
  compiled ← fold_outcome add_descriptor ∅ descriptors;
  match definitions with
  | None => Ok ∅
  | Some definitions =>
      fold_outcome (λ r airport,
        let d := definitions !! airport in
        d' ← deref d;
        match Bind d (default (mk_descriptor None "" None) (compiled !! wf_Handler (doc_Workflow (def_document d')))) with
        | Ok b => Ok (<[airport := b]> r)
        | Err e => Err (Errorf "airport %s: %w" [AStr airport; AErr e])
        | Panic => Panic
        | Hang => Hang
        end) ∅ (Airports definitions)
  end.

(** ** Snapshots of stored strips *)

Record StripBoardState := mk_board_state {
  bs_CreatedAt : option Time;
  bs_Annotations : StripAnnotations;
  bs_RemovedAt : option Time;
  bs_RemovalReason : string;
  bs_Local : bool
}.

(** The fields of [models.Strip] that a snapshot or an operation of the board reads *)
Record BoardStrip := mk_strip {
  s_ID : Z;
  s_Version : Z;
  s_Session : Z;
  s_Origin : string;
  s_Destination : string;
  s_Bay : string;
  s_Owner : option string;
  s_State : option string;
  s_Cleared : bool;
  s_PdcState : string;
  s_Runway : option string;
  s_HasFP : bool;
  s_EuroscopeSeenAt : option Time;
  s_Landed : bool;
  s_BoardState : option StripBoardState;
  s_StartReq : bool
}.

Definition empty_snapshot : WorkflowSnapshot := mk_snapshot None "" false false false no_annotations false "" false false false "" "" "" "" "" false.

(** [s_Landed] is [s.CdmData != nil && s.CdmData.Aldt != nil]. *)
Definition SnapshotOf (s : option BoardStrip) : WorkflowSnapshot :=
  match s with
  | None => empty_snapshot
  | Some s =>
      let annotations := match s_BoardState s with Some b => bs_Annotations b | None => no_annotations end in
      let removed := match s_BoardState s with Some b => bs_RemovedAt b | None => None end in
      let reason := match s_BoardState s with Some b => bs_RemovalReason b | None => ""%string end in
      let local := match s_BoardState s with Some b => bs_Local b | None => false end in
      mk_snapshot removed reason (not_nil (s_BoardState s)) local (s_HasFP s) annotations (not_nil (s_State s)) (default ""%string (s_Runway s))
        (s_Landed s) (not_nil (s_EuroscopeSeenAt s)) true (s_Origin s) (s_Destination s) (s_Bay s) (default ""%string (s_State s)) (s_PdcState s) (s_Cleared s)
  end.
