(* ===== verification/WorkflowEkch.v ===== *)
(** * The workflow of Copenhagen: [airportworkflow/ekch.go]

    Departures move through bays as they are cleared, pushed, taxi and take off;
    arrivals through the final, the runway and the stand. Controllers move strips,
    EuroScope reports what an aircraft does, and each report is reconciled with the
    place a controller chose. *)

From S2P Require Import Prelude GoTime GoFloat Bays AirportDefinition AirportWorkflow.
From stdpp Require Import gmap strings.
From Stdlib Require Import QArith.
From Stdlib Require Import Strings.Ascii Strings.String.

Local Open Scope Z_scope.

(** ** The handler and its binding *)

Record ekch := mk_ekch {
  ek_sequenceFrequencies : list string;
  ek_definition : AirportDefinition;
  ek_airport : string;
  ek_geography : BayGeography;
  ek_airborneAGL : Z
}.

Definition sequence_frequencies (positions : list AirportPosition) : list string :=
  omap (λ name, NormalizeFrequency ∘ pos_Frequency <$> find (λ p, str_eqb (pos_Name p) name) positions) ["EKCH_B_GND"; "EKCH_DEL"]%string.

Definition ekch_handler (d : AirportDefinition) (settings : EKCHSettings) : ekch :=
  let doc := def_document d in
  let geography := doc_Geography doc in
  mk_ekch (sequence_frequencies (doc_Positions doc)) d (Airport d)
    (mk_geography (geo_Latitude geography) (geo_Longitude geography) (float_to_int (geo_ElevationFT geography)) (ekch_RelevantDistanceNM settings))
    (AirborneAltitudeAGLFT settings).

(** ** Actions *)

(** [ekch.moveState]; its error is always nil. *)
Definition ekch_moveState (h : ekch) (c : Context) (a : Move) : WorkflowDecision :=
  let s := cx_Strip c in
  if str_eqb (sn_Origin s) (ek_airport h) then
    let state := GetGroundState (mv_Bay a) in
    if negb (str_eqb state GroundStateUnknown) && negb (str_eqb (mv_Bay a) BAY_STAND) then move_to (mv_Bay a) (Some state) None
    else move_to (mv_Bay a) None None
  else if str_eqb (sn_Destination s) (ek_airport h) && str_eqb (mv_Bay a) BAY_STAND then move_to (mv_Bay a) (Some GroundStateParked) None
  else move_to (mv_Bay a) None None.

(** [ekch.move] *)
Definition ekch_move (h : ekch) (c : Context) (a : Move) : outcome WorkflowDecision :=
  let s := cx_Strip c in
  let bay := mv_Bay a in
  guard_err (str_eqb bay BAY_UNKNOWN || str_eqb bay BAY_HIDDEN_DEP || str_eqb bay BAY_DEP_HIDDEN) (Errorf "invalid bay value: %s" [AStr bay]);;
  guard_err (mv_ConfirmedRemoval a && negb (str_eqb bay BAY_HIDDEN)) (RejectAction "confirmed removal must target the hidden bay");;
  guard_err (mv_Clearance a && negb (str_eqb bay BAY_CLEARED)) (RejectAction "clearance moves must target the cleared bay");;
  guard_err (str_eqb (sn_Bay s) BAY_NOT_CLEARED && negb (str_eqb bay BAY_NOT_CLEARED) && negb (str_eqb bay BAY_HIDDEN) && negb (mv_Clearance a))
    (RejectAction "non-cleared strips cannot be moved out of the not-cleared bay");;
  guard_err (str_eqb (sn_Destination s) (ek_airport h) && negb (str_eqb (sn_Origin s) (ek_airport h)) && str_eqb bay BAY_NOT_CLEARED)
    (RejectAction "arrival strips cannot be moved to the not-cleared bay");;
  Ok (if str_eqb bay BAY_NOT_CLEARED || str_eqb bay BAY_CLEARED then move_to bay None (Some (str_eqb bay BAY_CLEARED))
      else move_to bay (de_GroundState (ekch_moveState h c a)) None).

(** [ekch.clearance] *)
Definition ekch_clearance (c : Context) (a : Clearance) : outcome WorkflowDecision :=
  Ok (move_to (if cl_Cleared a then BAY_CLEARED else BAY_NOT_CLEARED) None (Some (cl_Cleared a))).

(** ** Reports *)

Definition existing_strip (s : WorkflowSnapshot) : option DbStrip :=
  if sn_Exists s then Some (mk_db_strip (sn_Origin s) (sn_Destination s) (sn_Bay s) (sn_Cleared s) (if sn_GroundStateKnown s then Some (sn_GroundState s) else None))
  else None.

(** A decision of a report: a bay, and what is reconciled *)
Definition observed (bay : option string) (state : option string) (cleared : option bool) : WorkflowDecision :=
  mk_decision None None None None false false false state cleared false bay None None.

(** The ground state of a full report as it is reconciled: a report without a
    route does not clear a state, and TAXI is stale behind the runway. *)
Definition reconciled_state (s : WorkflowSnapshot) (o : Observation) : string :=
  let stored := negb (str_empty (sn_GroundState s)) && negb (str_eqb (sn_GroundState s) GroundStateUnknown) in
  let state := ob_GroundState o in
  let state :=
    if sn_Exists s && (str_empty (ob_Origin o) || str_empty (ob_Destination o)) && str_eqb state GroundStateUnknown && stored
       && negb (str_eqb (GetGroundState (sn_Bay s)) GroundStateUnknown)
    then sn_GroundState s else state in
  let state :=
    if sn_Exists s && str_eqb (sn_Bay s) BAY_DEPART && str_eqb state GroundStateTaxi
    then if stored then sn_GroundState s else GetGroundState (sn_Bay s) else state in
  if sn_Exists s && str_eqb (sn_Bay s) BAY_AIRBORNE && str_eqb state GroundStateTaxi
  then if stored && negb (str_eqb (sn_GroundState s) GroundStateTaxi) then sn_GroundState s else GroundStateUnknown else state.

Definition pdc_cleared (s : WorkflowSnapshot) : bool := str_eqb (sn_PDCState s) "CLEARED".
Definition pdc_confirmed (s : WorkflowSnapshot) : bool := str_eqb (sn_PDCState s) "CONFIRMED".

(** The flight of a full report, routes that are missing taken from the strip *)
Definition reported_strip (s : WorkflowSnapshot) (o : Observation) : EsStrip :=
  mk_es_strip (if str_empty (ob_Origin o) then sn_Origin s else ob_Origin o) (if str_empty (ob_Destination o) then sn_Destination s else ob_Destination o)
    (ob_Cleared o) (reconciled_state s o) (Some (mk_es_position (ob_Latitude o) (ob_Longitude o) (ob_Altitude o))).

(** The case [FullFlight] *)
Definition ekch_full_flight `{GoMath} (h : ekch) (c : Context) (o : Observation) : WorkflowDecision :=
  let s := cx_Strip c in
  let existing := existing_strip s in
  let effectiveCleared :=
    if sn_Exists s && negb (ob_Cleared o) && sn_Cleared s && (pdc_cleared s || pdc_confirmed s) then sn_Cleared s else ob_Cleared o in
  let bay := GetDepartureBayAt (reported_strip s o) existing (ek_airborneAGL h) (ek_airport h) (cx_GroundOnline c) (ek_geography h) in
  let bay :=
    if not_nil existing && negb (ob_Cleared o) && str_eqb bay BAY_NOT_CLEARED && negb (str_empty (sn_Bay s)) && negb (str_eqb (sn_Bay s) BAY_UNKNOWN)
       && negb (str_eqb (sn_Bay s) BAY_NOT_CLEARED) && (pdc_cleared s || pdc_confirmed s && sn_Cleared s)
    then sn_Bay s else bay in
  observed (Some bay) (Some (reconciled_state s o)) (Some effectiveCleared).

(** The case [ArrivalPosition] *)
Definition ekch_arrival_position `{GoMath} (h : ekch) (s : WorkflowSnapshot) (o : Observation) : WorkflowDecision :=
  let elevation := ElevationFT (ek_geography h) in
  let inRunway :=
    match RunwayRegionAt (ek_definition h) (ob_Latitude o) (ob_Longitude o) with
    | Some runway => negb (negb (str_empty (sn_Runway s)) && negb (contains (r_Runways runway) (ToUpper (sn_Runway s))))
    | None => false
    end in
  let onGround := ob_Altitude o <? wrap64 (elevation + 50) in
  let on_final :=
    negb (sn_Landed s) && negb (str_empty (sn_Runway s)) && (str_eqb (sn_Bay s) BAY_ARR_HIDDEN || str_eqb (sn_Bay s) BAY_AIRBORNE)
    && match FinalRegionAt (ek_definition h) (sn_Runway s) (ob_Latitude o) (ob_Longitude o) with
       | Some final =>
           let distance := GetDistance (ob_Latitude o) (ob_Longitude o) (r_ThresholdLat final) (r_ThresholdLon final) in
           ob_Altitude o <=? FinalApproachAltitudeCeiling final distance elevation
       | None => false
       end in
  let vacated := negb inRunway && onGround && sn_Landed s && (str_eqb (sn_Bay s) BAY_FINAL || str_eqb (sn_Bay s) BAY_RWY_ARR || str_eqb (sn_Bay s) BAY_ARR_HIDDEN) in
  mk_decision None None None None false false false None None (inRunway && onGround && negb (sn_Landed s))
    (if vacated then Some BAY_TWY_ARR else if on_final then Some BAY_FINAL else None) None None.

(** The case [BackendState] *)
Definition ekch_backend_state (s : WorkflowSnapshot) : WorkflowDecision :=
  let state := sn_GroundState s in
  let state := if str_eqb (sn_Bay s) BAY_DEPART && negb (str_eqb state GroundStateDepart) then GroundStateLineup else state in
  let state := if str_eqb (sn_Bay s) BAY_AIRBORNE && str_eqb state GroundStateTaxi then GroundStateUnknown else state in
  observed None (Some state) None.

(** The case [ClearedFlag] *)
Definition ekch_cleared_flag (s : WorkflowSnapshot) (o : Observation) : WorkflowDecision :=
  let confirm := ob_Cleared o && negb (str_empty (sn_PDCState s)) && negb (str_eqb (sn_PDCState s) "NONE") && negb (pdc_confirmed s) in
  if Bool.eqb (ob_Cleared o) (sn_Cleared s) then mk_decision None None None None false confirm true None None false None None None
  else
    let bay := if str_eqb (sn_Bay s) BAY_NOT_CLEARED || str_eqb (sn_Bay s) BAY_UNKNOWN then BAY_CLEARED else sn_Bay s in
    let bay := if str_empty bay then BAY_HIDDEN else bay in
    mk_decision None None None None (ob_Cleared o && negb (pdc_cleared s)) confirm false None None false (Some bay) None None.

Definition ekch_Observe `{GoMath} (h : ekch) (c : Context) (o : Observation) : outcome WorkflowDecision :=
  let s := cx_Strip c in
  match ob_Kind o with
  | FullFlight => Ok (ekch_full_flight h c o)
  | ArrivalPosition => Ok (ekch_arrival_position h s o)
  | BackendState => Ok (ekch_backend_state s)
  | ClearedFlag => Ok (ekch_cleared_flag s o)
  | GroundState =>
      if str_eqb (ob_GroundState o) GroundStateTaxi && (str_eqb (sn_Bay s) BAY_DEPART || str_eqb (sn_Bay s) BAY_AIRBORNE) then
        Ok (mk_decision None None None None false false true None None false None None None)
      else match existing_strip s with
      | None => Err (Errorf "ground-state observation requires a strip" [])
      | Some existing => Ok (observed (Some (GetDepartureBayFromGroundState (ob_GroundState o) existing (ek_airport h) (cx_GroundOnline c))) None None)
      end
  | PositionReport =>
      match existing_strip s with
      | None => Err (Errorf "position observation requires a strip" [])
      | Some existing =>
          Ok (observed (Some (GetDepartureBayFromPositionAt (ob_Latitude o) (ob_Longitude o) (ob_Altitude o) existing (ek_airborneAGL h) (ek_airport h) (ek_geography h))) None None)
      end
  | ObservationOther => Err (Errorf "unknown observation kind %d" [])
  end.

(** ** Events of the life of a strip *)

Definition ekch_Lifecycle `{GoMath} (h : ekch) (c : Context) (l : LifecycleEvent) : outcome LifecycleDecision :=
  let s := cx_Strip c in
  let decide (admits restart remove : bool) (bay : option string) (delay : Duration) := mk_lifecycle_decision None None admits restart remove bay delay in
  match le_Kind l with
  | StandExpiry => Ok (decide true false false (if str_eqb (sn_Bay s) BAY_STAND then Some BAY_HIDDEN else None) 0)
  | BackendAdmission => Ok (decide (sn_EuroscopeSeen s && negb (str_eqb (sn_Bay s) BAY_DEP_HIDDEN) && negb (str_eqb (sn_Bay s) BAY_ARR_HIDDEN)) false false None 0)
  | Removal => Ok (decide true false true None 0)
  | LifecycleOther => Err (Errorf "unknown lifecycle kind" [])
  | Admission =>
      let delay := if str_eqb (sn_Bay s) BAY_STAND then 240 * Second else 0 in
      let normalize x := ToUpper (TrimSpace x) in
      let airport := normalize (ek_airport h) in
      let origin := normalize (le_Origin l) in
      let destination := normalize (le_Destination l) in
      let departs := str_eqb origin airport && negb (str_empty destination) && negb (str_eqb destination airport) in
      let restart :=
        if negb (sn_Exists s) then false
        else if str_eqb (sn_Bay s) BAY_HIDDEN_DEP then
          negb (sn_EuroscopeSeen s) && departs && hasKnownPosition (le_Latitude l) (le_Longitude l)
          && fle (GetDistance (le_Latitude l) (le_Longitude l) (Latitude (ek_geography h)) (Longitude (ek_geography h))) (RelevantDistanceNM (ek_geography h))
          && (le_Altitude l <=? airborne_above (ek_geography h) (ek_airborneAGL h))
        else
          str_eqb (normalize (sn_Destination s)) airport && departs
          && (negb (str_eqb (normalize (sn_Origin s)) origin) || negb (str_eqb (normalize (sn_Destination s)) destination)) in
      Ok (decide true restart false None delay)
  end.

(** ** Who sequences departures, and to whom a clearance goes *)

(** The position that owns a frequency: the one primed on it, or else the first
    in order that carries it *)
Definition frequency_owner (coverage : gmap string (list string)) (carriers : list string) (frequency : string) : string :=
  match coverage !! frequency with
  | Some _ => frequency
  | None => default "" (find (λ primary, contains (default [] (coverage !! primary)) frequency) carriers)
  end.

Fixpoint sequence_owner (coverage : gmap string (list string)) (carriers frequencies : list string) : CoordinationDecision :=
  match frequencies with
  | [] => mk_coordination_decision true "" "" "" false false
  | frequency :: frequencies =>
      let owner := frequency_owner coverage carriers frequency in
      if negb (str_empty owner) then mk_coordination_decision true owner frequency "" false false
      else sequence_owner coverage carriers frequencies
  end.

Definition ekch_Coordinate (h : ekch) (c : Context) (a : Coordination) : outcome CoordinationDecision :=
  let s := cx_Strip c in
  if co_Sequence a then
    Ok (sequence_owner (co_Coverage a) (sort_slice str_ltb (map_to_list (co_Coverage a)).*1) (ek_sequenceFrequencies h))
  else
    let owner := if str_empty (co_SQPosition a) then co_DeliveryPosition a else co_SQPosition a in
    Ok (mk_coordination_decision false "" "" owner
          (str_eqb (sn_Bay s) BAY_TAXI && str_eqb (sn_Origin s) (ek_airport h) && negb (str_eqb (sn_Destination s) (ek_airport h)) && co_TargetIsTower a)
          (str_eqb (sn_Bay s) BAY_AIRBORNE)).

(** ** The handler as a value *)

Definition ekch_as_handler `{GoMath} (h : ekch) : Handler := mk_handler (ekch_Observe h) (ekch_Lifecycle h) (ekch_Coordinate h).

Definition ekch_actions (h : ekch) : list ActionDescriptor :=
  [Action "flightplan.create" (Some (λ _ (_ : FlightPlanCreation), Ok no_decision));
   Action "strip.move" (Some (ekch_move h));
   Action "strip.state-for-move" (Some (λ c a, Ok (ekch_moveState h c a)));
   Action "strip.clearance" (Some ekch_clearance)].

Definition EKCHDescriptor `{GoMath} : Descriptor :=
  mk_descriptor None "ekch/v1" (Some (λ d,
    match wf_Settings (doc_Workflow (def_document d)) with
    | SettingsEKCH settings =>
        let h := ekch_handler d settings in
        Ok (Some (ekch_as_handler h), ekch_actions h)
    | _ => Err (Errorf "ekch/v1 requires typed EKCH settings" [])
    end)).

(** ** What a move leaves in the row: [services/strip_frontend_move.go]

    The writes of a controller move, one after the other, to the columns that the row
    has here. Every write of [database/strips.sql.go] raises the version. They are
    taken to succeed: nobody else writes the row in between. *)

Definition write_row (s : BoardStrip) (bay : string) (owner state : option string) (cleared startReq : bool) : BoardStrip :=
  mk_strip (s_ID s) (s_Version s + 1) (s_Session s) (s_Origin s) (s_Destination s) bay owner state cleared (s_PdcState s)
    (s_Runway s) (s_HasFP s) (s_EuroscopeSeenAt s) (s_Landed s) (s_BoardState s) startReq.

Definition UpdateStripClearedFlagByID (cleared : bool) (bay : string) (s : BoardStrip) : BoardStrip :=
  write_row s bay (s_Owner s) (s_State s) cleared (s_StartReq s).

Definition UpdateStripGroundStateByID (state : option string) (bay : string) (s : BoardStrip) : BoardStrip :=
  write_row s bay (s_Owner s) state (s_Cleared s) (s_StartReq s).

Definition UpdateStripStartReqByID (startReq : bool) (s : BoardStrip) : BoardStrip :=
  write_row s (s_Bay s) (s_Owner s) (s_State s) (s_Cleared s) startReq.

Definition UpdateStripBayAndSequence (bay : string) (s : BoardStrip) : BoardStrip :=
  write_row s bay (s_Owner s) (s_State s) (s_Cleared s) (s_StartReq s).

Definition SetStripOwner (owner : option string) (s : BoardStrip) : BoardStrip :=
  write_row s (s_Bay s) owner (s_State s) (s_Cleared s) (s_StartReq s).

Definition shouldResetStartReqOnMove (currentBay targetBay : string) : bool :=
  str_eqb currentBay BAY_STAND && negb (str_eqb targetBay BAY_STAND).

Definition setStartReqState (startReq : bool) (s : BoardStrip) : BoardStrip :=
  if Bool.eqb (s_StartReq s) startReq then s else UpdateStripStartReqByID startReq s.

Definition resetStartReq (targetBay : string) (s : BoardStrip) : BoardStrip :=
  if s_StartReq s && shouldResetStartReqOnMove (s_Bay s) targetBay then setStartReqState false s else s.

Definition clearOwnerForNotCleared (s : BoardStrip) : BoardStrip :=
  match s_Owner s with Some owner => if str_empty owner then s else SetStripOwner None s | None => s end.

Section moves.
(** The position that [autoAssumeForClearedStrip] finds for a strip that was cleared,
    if it finds one: it reads the sectors and the controllers on line. *)
Context (assumed : BoardStrip → option string).

Definition AutoAssumeForClearedStripByCid (s : BoardStrip) : BoardStrip :=
  match assumed s with Some position => SetStripOwner (Some position) s | None => s end.

Definition applyClearedFlagForMoveWithOptions (isCleared : bool) (persistedBay : string) (clearOwner autoAssumeOnClear : bool) (strip : BoardStrip) : BoardStrip :=
  let s := UpdateStripClearedFlagByID isCleared persistedBay strip in
  let s := if negb isCleared && clearOwner then clearOwnerForNotCleared s else s in
  if negb (Bool.eqb (s_Cleared strip) isCleared) && isCleared && autoAssumeOnClear then AutoAssumeForClearedStripByCid s else s.

(** [intended] is the state that the decision names. *)
Definition updateGroundStateForMoveWithOptions (intended : option string) (targetBay persistedBay : string) (strip : BoardStrip) : BoardStrip :=
  let s := resetStartReq targetBay strip in
  UpdateStripGroundStateByID (match intended with Some g => Some g | None => s_State strip end) persistedBay s.

Definition applyFrontendMoveDecision (d : WorkflowDecision) (strip : BoardStrip) : BoardStrip :=
  match de_Cleared d with
  | Some cleared => applyClearedFlagForMoveWithOptions cleared (s_Bay strip) (negb cleared) true strip
  | None => updateGroundStateForMoveWithOptions (de_GroundState d) (default (s_Bay strip) (de_Bay d)) (s_Bay strip) strip
  end.

(** The row that [MoveToBay] leaves *)
Definition MoveToBay (bay : string) (s : BoardStrip) : BoardStrip := UpdateStripBayAndSequence bay (resetStartReq bay s).

(** What [executeControllerWorkflow] writes for the decision of a move once every guard has let it
    through: nothing when the strip has it all, and else the state and then the bay. *)
Definition persist_move (d : WorkflowDecision) (strip : BoardStrip) : BoardStrip :=
  let targetBay := default (s_Bay strip) (de_Bay d) in
  if str_eqb (s_Bay strip) targetBay && negb (opt_test (λ c, negb (Bool.eqb c (s_Cleared strip))) (de_Cleared d))
     && negb (opt_test (λ g, negb (str_eqb g (default "" (s_State strip)))) (de_GroundState d))
  then strip
  else
    let s := applyFrontendMoveDecision d strip in
    if str_eqb (s_Bay strip) targetBay then s else MoveToBay targetBay s.
End moves.
