(* ===== verification/WorkflowRadis.v ===== *)
(** * The RADIS workflow: [airportworkflow/radis.go]

    A strip lies where a controller put it; EuroScope's reports change the facts
    of a flight and whether its strip is visible. A strip disappears when its
    flight is far away, high, disconnected or removed by hand, and it can be restored
    for a while. *)

From S2P Require Import Prelude GoTime GoFloat Bays AirportDefinition AirportWorkflow.
From stdpp Require Import gmap strings.
From Stdlib Require Import QArith Qminmax.
From Stdlib Require Import Strings.Ascii Strings.String.

Local Open Scope Z_scope.

(** ** The handler *)

Record radis := mk_radis { ra_airport : string; ra_latitude : float64; ra_longitude : float64; ra_elevation : float64; ra_settings : RADISSettings }.

Definition radis_initial (h : radis) (origin : string) : string :=
  if str_eqb origin (ra_airport h) then DepartureInitialBay (ra_settings h) else ArrivalInitialBay (ra_settings h).

(** ** Geography *)

(** [math.Pi / 180] and [3440.065 * 2], constants that are folded exactly *)
Definition radian : float64 := fl (pi_digits / 180)%Q.
Definition earthDiameterNM : float64 := fl (688013 # 100).

(** [math.Min(1, math.Max(0, a))] *)
Definition clamp_unit (a : float64) : float64 := if fle a 0%Q then 0%Q else if fle 1%Q a then 1%Q else a.

Definition RADISDistanceNM `{GoMath} (lat1 lon1 lat2 lon2 : float64) : float64 :=
  let r := radian in
  let half_sine x y := math_Pow (math_Sin (fdiv (fmul (fsub y x) r) (fl 2))) (fl 2) in
  let a := fadd (half_sine lat1 lat2) (fmul (fmul (math_Cos (fmul lat1 r)) (math_Cos (fmul lat2 r))) (half_sine lon1 lon2)) in
  fmul earthDiameterNM (math_Asin (math_Sqrt (clamp_unit a))).

(** [float64(altitude) - elevation] *)
Definition radis_agl (h : radis) (altitude : Z) : float64 := fsub (float_of_int altitude) (ra_elevation h).

Definition radis_distance `{GoMath} (h : radis) (lat lon : float64) : float64 := RADISDistanceNM (ra_latitude h) (ra_longitude h) lat lon.

(** The end of the time in which a removed strip can be restored *)
Definition recovery_end (h : radis) (removed : Time) : Time := time_add removed (dur_mul (RecoverySeconds (ra_settings h)) Second).

(** ** Visibility *)

Definition radis_visibility `{GoMath} (h : radis) (c : Context) (o : Observation) : option StripVisibility :=
  let s := cx_Strip c in
  let settings := ra_settings h in
  if negb (sn_BoardMember s) || sn_Local s && negb (sn_HasFP s) then None
  else
  let origin := if str_empty (ob_Origin o) then sn_Origin s else ob_Origin o in
  let destination := if str_empty (ob_Destination o) then sn_Destination s else ob_Destination o in
  let distance := radis_distance h (ob_Latitude o) (ob_Longitude o) in
  let agl := radis_agl h (ob_Altitude o) in
  let departs := str_eqb origin (ra_airport h) in
  match sn_RemovedAt s with
  | Some removed =>
      if negb (str_eqb (sn_RemovalReason s) "manual") && AutomaticReappearance settings && negb (is_zero (cx_Now c)) && negb (before (cx_Now c) removed)
         && before (cx_Now c) (recovery_end h removed) && (departs || str_eqb destination (ra_airport h)) && fle distance (AdmissionDistanceNM settings)
         && (negb departs || fle agl (float_of_int (DepartureAdmissionAGLFT settings)))
      then Some (mk_visibility true "") else None
  | None =>
      if departs && fle (float_of_int (DepartureRemovalAGLFT settings)) agl then Some (mk_visibility false "departure-altitude")
      else if flt (RemovalDistanceNM settings) distance then Some (mk_visibility false "distance")
      else None
  end.

(** ** Reports and events *)

Definition radis_Observe `{GoMath} (h : radis) (c : Context) (o : Observation) : outcome WorkflowDecision :=
  let s := cx_Strip c in
  let bay := if negb (sn_Exists s) || negb (sn_BoardMember s) then radis_initial h (ob_Origin o) else sn_Bay s in
  let visibility := match ob_Kind o with FullFlight | PositionReport => radis_visibility h c o | _ => None end in
  let state :=
    match ob_Kind o with
    | FullFlight | GroundState => Some (ob_GroundState o)
    | BackendState => if sn_GroundStateKnown s then Some (sn_GroundState s) else None
    | _ => None
    end in
  let cleared := match ob_Kind o with FullFlight | ClearedFlag => Some (ob_Cleared o) | _ => None end in
  Ok (mk_decision None None visibility None false false false state cleared false (Some bay) None None).

Definition radis_Lifecycle `{GoMath} (h : radis) (c : Context) (l : LifecycleEvent) : outcome LifecycleDecision :=
  let s := cx_Strip c in
  let settings := ra_settings h in
  let admits b bay := Ok (mk_lifecycle_decision None None b false false bay 0) in
  match le_Kind l with
  | Removal =>
      let delay := float_to_int (fmul (DisconnectRemovalSeconds settings) (float_of_int Second)) in
      Ok (mk_lifecycle_decision (if sn_BoardMember s && (sn_EuroscopeSeen s || sn_HasFP s) then Some (mk_visibility false (le_Reason l)) else None)
            (Some delay) false false false None 0)
  | BackendAdmission => admits (sn_Exists s && sn_BoardMember s && sn_EuroscopeSeen s && sn_HasFP s && is_nil (sn_RemovedAt s)) None
  | _ =>
      if sn_Exists s && sn_BoardMember s then admits true None
      else
        let departs := str_eqb (le_Origin l) (ra_airport h) in
        let relevant := departs || str_eqb (le_Destination l) (ra_airport h) in
        admits (relevant && fle (radis_distance h (le_Latitude l) (le_Longitude l)) (AdmissionDistanceNM settings)
               && (negb departs || fle (radis_agl h (le_Altitude l)) (float_of_int (DepartureAdmissionAGLFT settings))))
          (Some (radis_initial h (le_Origin l)))
  end.

Definition radis_Coordinate (c : Context) (a : Coordination) : outcome CoordinationDecision := Ok (mk_coordination_decision false "" "" "" false false).

(** ** Actions *)

Definition radis_move (h : radis) (c : Context) (a : Move) : outcome WorkflowDecision :=
  let s := cx_Strip c in
  match BayGroundStates (ra_settings h) !! mv_Bay a with
  | None => Err (RejectAction "invalid RADIS move")
  | Some states =>
      guard_err (mv_Clearance a || mv_ConfirmedRemoval a) (RejectAction "invalid RADIS move");;
      if str_eqb (sn_Bay s) (mv_Bay a) then Ok (move_to (mv_Bay a) None None)
      else if sn_Local s && negb (sn_HasFP s) then Ok (move_to (mv_Bay a) None None)
      else
        guard_err (negb (sn_EuroscopeSeen s) || negb (sn_HasFP s)) (RejectAction "an associated EuroScope flight is required for this bay effect");;
        Ok (move_to (mv_Bay a) (Some (if str_eqb (sn_Origin s) (ra_airport h) then st_Departure states else st_Arrival states)) None)
  end.

Definition char_between (lo hi c : ascii) : bool := (nat_of_ascii lo <=? nat_of_ascii c)%nat && (nat_of_ascii c <=? nat_of_ascii hi)%nat.
Definition is_digit (c : ascii) : bool := char_between "0" "9" c.

(** The regular expressions [^(?:[01][0-9]|2[0-3])[0-5][0-9]$], [^[0-9./]*$] and [^Q[0-9]{4}$] *)
Definition hhmm_text (s : string) : bool :=
  match list_ascii_of_string s with
  | [a; b; c; d] => (char_between "0" "1" a && is_digit b || Ascii.eqb a "2" && char_between "0" "3" b) && char_between "0" "5" c && is_digit d
  | _ => false
  end.
Definition endurance_text (s : string) : bool := forallb (λ c, is_digit c || Ascii.eqb c "." || Ascii.eqb c "/") (list_ascii_of_string s).
Definition qnh_text (s : string) : bool :=
  match list_ascii_of_string s with q :: digits => Ascii.eqb q "Q" && (List.length digits =? 4)%nat && forallb is_digit digits | [] => false end.

(** A decision that replaces the annotations, or that asks for an admission or a visibility *)
Definition annotated (v : StripAnnotations) : WorkflowDecision := mk_decision None None None (Some v) false false false None None false None None None.
Definition admitted (a : StripAdmission) : WorkflowDecision := mk_decision (Some a) None None None false false false None None false None None None.
Definition shown (v : StripVisibility) : WorkflowDecision := mk_decision None None (Some v) None false false false None None false None None None.

Definition radis_annotate (c : Context) (a : StripAnnotation) : outcome WorkflowDecision :=
  let v := sn_Annotations (cx_Strip c) in
  let '(mk_annotations review notes deicing rea ata atd endurance qnh rnav vfr) := v in
  let value := sa_Value a in
  let field := str_eqb (sa_Field a) in
  let stamp := if sa_Enabled a then Some (FormatRFC3339 (cx_Now c)) else None in
  let clock := guard_err (is_zero (cx_Now c)) (Errorf "server clock required" []) in
  if field "notes"%string then
    guard_err (2048 <? Z.of_nat (String.length value)) (Errorf "notes too long" []);;
    Ok (annotated (mk_annotations review value deicing rea ata atd endurance qnh rnav vfr))
  else if field "deicing"%string then Ok (annotated (mk_annotations review notes (sa_Enabled a) rea ata atd endurance qnh rnav vfr))
  else if field "rea"%string then clock;; Ok (annotated (mk_annotations review notes deicing stamp ata atd endurance qnh rnav vfr))
  else if field "ata"%string then clock;; Ok (annotated (mk_annotations review notes deicing rea stamp atd endurance qnh rnav vfr))
  else if field "atd"%string then
    guard_err (negb (str_empty value) && negb (hhmm_text value)) (Errorf "ATD must be HHMM UTC" []);;
    Ok (annotated (mk_annotations review notes deicing rea ata value endurance qnh rnav vfr))
  else if field "endurance_pob"%string then
    guard_err ((16 <? Z.of_nat (String.length value)) || negb (endurance_text value)) (Errorf "invalid endurance/POB" []);;
    Ok (annotated (mk_annotations review notes deicing rea ata atd value qnh rnav vfr))
  else if field "qnh"%string then
    guard_err (negb (str_empty value) && negb (qnh_text value)) (Errorf "invalid QNH stamp" []);;
    Ok (annotated (mk_annotations review notes deicing rea ata atd endurance value rnav vfr))
  else if field "rnav"%string then
    guard_err (negb (str_empty value) && negb (str_eqb value "1") && negb (str_eqb value "NON")) (Errorf "invalid RNAV mark" []);;
    Ok (annotated (mk_annotations review notes deicing rea ata atd endurance qnh value vfr))
  else if field "vfr"%string then Ok (annotated (mk_annotations review notes deicing rea ata atd endurance qnh rnav (sa_Enabled a)))
  else Err (Errorf "unknown RADIS annotation" []).

Definition radis_createLocal (h : radis) (c : Context) (r : LocalStripCreation) : outcome WorkflowDecision :=
  Ok (admitted (mk_admission (radis_initial h (lc_Origin r)) (mk_annotations false (lc_Notes r) false None None "" "" "" "" false))).

Definition radis_findConnected (h : radis) (c : Context) (r : ConnectedFlightSearch) : outcome WorkflowDecision :=
  Ok (mk_decision None (Some (mk_lookup (ra_airport h) (se_Query r))) None None false false false None None false None None None).

Definition radis_admitConnected (h : radis) (c : Context) (r : ConnectedFlightCandidate) : outcome WorkflowDecision :=
  Ok (admitted (mk_admission (radis_initial h (ca_Origin r)) no_annotations)).

Definition radis_remove (c : Context) (r : StripRemoval) : outcome WorkflowDecision :=
  match sn_RemovedAt (cx_Strip c) with
  | Some _ => Ok no_decision
  | None => Ok (shown (mk_visibility false "manual"))
  end.

Definition radis_restore (h : radis) (c : Context) (r : StripRestoration) : outcome WorkflowDecision :=
  match sn_RemovedAt (cx_Strip c) with
  | None => Ok no_decision
  | Some removed =>
      guard_err (before (cx_Now c) removed || negb (before (cx_Now c) (recovery_end h removed))) (RejectAction "airport strip recovery period has expired");;
      Ok (shown (mk_visibility true ""))
  end.

(** ** The handler as a value *)

Definition radis_as_handler `{GoMath} (h : radis) : Handler := mk_handler (radis_Observe h) (radis_Lifecycle h) radis_Coordinate.

Definition radis_actions (h : radis) : list ActionDescriptor :=
  [Action "strip.annotate" (Some radis_annotate); Action "strip.create-local" (Some (radis_createLocal h));
   Action "flight.find-connected" (Some (radis_findConnected h)); Action "strip.admit-connected" (Some (radis_admitConnected h));
   Action "strip.remove" (Some radis_remove); Action "strip.restore" (Some (radis_restore h));
   Action "strip.move" (Some (radis_move h)); Action "strip.state-for-move" (Some (radis_move h))].

Definition radis_handler (d : AirportDefinition) (s : RADISSettings) : radis :=
  let geography := doc_Geography (def_document d) in
  mk_radis (Airport d) (geo_Latitude geography) (geo_Longitude geography) (geo_ElevationFT geography) s.

(** The policy asserts the type of the settings without a test. *)
Definition RADISDescriptor `{GoMath} : Descriptor :=
  mk_descriptor
    (Some (λ d, match wf_Settings (doc_Workflow (def_document d)) with SettingsRADIS s => Ok (mk_policy true (RecoverySeconds s)) | _ => Panic end))
    "radis/v1"
    (Some (λ d, match wf_Settings (doc_Workflow (def_document d)) with
      | SettingsRADIS s => Ok (Some (radis_as_handler (radis_handler d s)), radis_actions (radis_handler d s))
      | _ => Err (Errorf "RADIS requires typed settings" [])
      end)).
