(* ===== verification/WorkflowBoard.v ===== *)
(** * The state of a strip on a RADIS board: [services/strip_board.go],
    [strip_board_visibility.go]

    The board state of a strip (its annotations, and since when and why it is
    removed) is a column of its row, written only when the version of the row is
    still the one that was read. One callsign of one session is modelled: its row,
    if there is one. The clock is a parameter, one reading after the other; what
    other writers do to the row between a reading and a write is the parameter
    [others]. *)

From S2P Require Import Prelude GoTime GoFloat Bays AirportDefinition AirportWorkflow.
From S2P Require Import WorkflowRadis.
From stdpp Require Import gmap strings.
From Stdlib Require Import QArith.
From Stdlib Require Import Strings.Ascii Strings.String.

Local Open Scope Z_scope.

(** ** The row *)

Definition set_board_state (s : BoardStrip) (version : Z) (state : option StripBoardState) : BoardStrip :=
  mk_strip (s_ID s) version (s_Session s) (s_Origin s) (s_Destination s) (s_Bay s) (s_Owner s) (s_State s) (s_Cleared s) (s_PdcState s) (s_Runway s)
    (s_HasFP s) (s_EuroscopeSeenAt s) (s_Landed s) state (s_StartReq s).

Definition set_seen (s : BoardStrip) (seen : option Time) : BoardStrip :=
  mk_strip (s_ID s) (s_Version s) (s_Session s) (s_Origin s) (s_Destination s) (s_Bay s) (s_Owner s) (s_State s) (s_Cleared s) (s_PdcState s) (s_Runway s)
    (s_HasFP s) seen (s_Landed s) (s_BoardState s) (s_StartReq s).

(** The query [UpdateStripBoardState]: the row afterwards and whether it was written *)
Definition UpdateStripBoardState (session id version : Z) (state : StripBoardState) (row : option BoardStrip) : option BoardStrip * bool :=
  match row with
  | Some r =>
      if (s_Session r =? session) && (s_ID r =? id) && (s_Version r =? version) then (Some (set_board_state r (version + 1) (Some state)), true) else (row, false)
  | None => (None, false)
  end.

Definition ClearEuroscopeSeen (row : option BoardStrip) : option BoardStrip := (λ r, set_seen r None) <$> row.

(** A removal or a restoration, as it changes the board state *)
Definition set_visibility (now : Time) (v : StripVisibility) (state : StripBoardState) : StripBoardState :=
  if vi_Visible v then mk_board_state (bs_CreatedAt state) (bs_Annotations state) None "" (bs_Local state)
  else mk_board_state (bs_CreatedAt state) (bs_Annotations state) (Some now) (vi_Reason v) (bs_Local state).

Definition set_annotations (a : StripAnnotations) (state : StripBoardState) : StripBoardState :=
  mk_board_state (bs_CreatedAt state) a (bs_RemovedAt state) (bs_RemovalReason state) (bs_Local state).

Definition blank_state : StripBoardState := mk_board_state None no_annotations None "" false.

Record StripRevision := mk_revision { rv_StripID : Z; rv_Version : Z; rv_Definition : string }.

Definition UsesStripOwnership (d : AirportDefinition) : bool := negb (str_eqb (own_Strips (doc_Ownership (def_document d))) "none").

(** ** Operations of a controller *)

Section operations.
Context (b : Bound) (session : Z).
(** Who commands: a person, what [EnsureHumanCommand] and [ValidateCommandAuthority] say *)
Context (human : bool) (ensured authority : outcome unit) (position : string).
Context (clock : nat → Time) (others : nat → option BoardStrip → option BoardStrip).

Definition authorizeStripBoard (revision : StripRevision) (row : option BoardStrip) : outcome BoardStrip :=
  guard_err (negb human) (RejectAction "exact own plugin binding required");;
  ensured;;
  guard_err (negb (bp_Revisioned (b_boardState b))) (RejectAction "strip board action unavailable");;
  match row with
  | None => Err (Errorf "no rows in result set" [])
  | Some strip =>
      guard_err (is_nil (s_BoardState strip)) (RejectAction "strip is not admitted to this board");;
      guard_err (negb (s_ID strip =? rv_StripID revision) || negb (s_Version strip =? rv_Version revision)
          || negb (str_eqb (def_revision (b_definition b)) (rv_Definition revision)) || negb (s_Session strip =? session)) (RejectAction "stale strip revision");;
      guard_err (UsesStripOwnership (b_definition b) && opt_test (λ o, negb (str_empty o) && (str_empty position || negb (str_eqb position o))) (s_Owner strip))
        (RejectAction "not authorized: strip is owned by another controller");;
      Ok strip
  end.

(** Each operation returns the row afterwards and its result. *)
Definition persistStripBoardState (strip : BoardStrip) (state : StripBoardState) (row : option BoardStrip) : option BoardStrip * outcome unit :=
  match authority with
  | Ok _ =>
      let '(row, updated) := UpdateStripBoardState session (s_ID strip) (s_Version strip) state (others 0 row) in
      (row, guard_err (negb updated) (RejectAction "strip board strip changed; retry from current board"))
  | e => (row, e)
  end.

Definition applyStripBoardDecision (strip : BoardStrip) (d : WorkflowDecision) (row : option BoardStrip) : option BoardStrip * outcome unit :=
  if is_nil (de_Annotations d) && is_nil (de_Visibility d) then (row, Ok tt)
  else
    let state := default blank_state (s_BoardState strip) in
    let state := match de_Annotations d with Some a => set_annotations a state | None => state end in
    let state := match de_Visibility d with Some v => set_visibility (clock 1) v state | None => state end in
    persistStripBoardState strip state row.

(** The context of an action on a strip *)
Definition board_context (source : Source) (now : Time) (strip : BoardStrip) : Context := mk_context now session None source (SnapshotOf (Some strip)) false.

(** An action on an authorised strip that passes [check] *)
Definition board_action (check : BoardStrip → outcome unit) (name : string) (request : ActionRequest) (revision : StripRevision) (row : option BoardStrip) : option BoardStrip * outcome unit :=
  match (strip ← authorizeStripBoard revision row; check strip;; d ← Bound_Action b (board_context HumanSource (clock 0) strip) name request; Ok (strip, d)) with
  | Ok (strip, d) => applyStripBoardDecision strip d row
  | Err e => (row, Err e)
  | Panic => (row, Panic)
  | Hang => (row, Hang)
  end.

Definition RemoveStripBoardEntry := board_action (λ _, Ok tt) "strip.remove" RequestRemoval.
Definition RestoreStripBoardEntry := board_action (λ _, Ok tt) "strip.restore" RequestRestoration.
Definition AnnotateStrip (edit : StripAnnotation) :=
  board_action (λ strip, guard_err (not_nil (s_BoardState strip ≫= bs_RemovedAt)) (RejectAction "restore the removed strip before editing"))
    "strip.annotate" (RequestAnnotation edit).

(** ** Reports and disconnections *)

(** [for range 2]: an attempt yields the new row and whether it is done *)
Fixpoint attempts (n i : nat) (attempt : nat → option BoardStrip → option BoardStrip * outcome bool) (row : option BoardStrip) : option BoardStrip * outcome unit :=
  match n with
  | O => (row, Err (RejectAction "strip board strip changed; retry"))
  | S n =>
      match attempt i row with
      | (row, Ok true) => (row, Ok tt)
      | (row, Ok false) => attempts n (S i) attempt row
      | (row, Err e) => (row, Err e)
      | (row, Panic) => (row, Panic)
      | (row, Hang) => (row, Hang)
      end
  end.

Definition commitStripVisibility (i : nat) (strip : BoardStrip) (state : StripBoardState) (row : option BoardStrip) : option BoardStrip * bool :=
  UpdateStripBoardState session (s_ID strip) (s_Version strip) state (others i row).

Definition remove_attempt (reason : string) (i : nat) (row : option BoardStrip) : option BoardStrip * outcome bool :=
  match row with
  | None => (row, Ok true)
  | Some strip =>
      match s_BoardState strip with
      | None => (ClearEuroscopeSeen row, Ok true)
      | Some state =>
          match Bound_Lifecycle b (board_context AutomaticSource (clock (2 * i)) strip) (mk_lifecycle_event reason Removal 0%Q 0%Q 0 "" "" "" false) with
          | Ok d =>
              match ld_Visibility d with
              | None => (ClearEuroscopeSeen row, Ok true)
              | Some v =>
                  if negb (vi_Visible v) && not_nil (bs_RemovedAt state) then (ClearEuroscopeSeen row, Ok true)
                  else
                    let '(row, ok) := commitStripVisibility i strip (set_visibility (clock (2 * i + 1)) v state) row in
                    (if ok then ClearEuroscopeSeen row else row, Ok ok)
              end
          | Err e => (row, Err e)
          | Panic => (row, Panic)
          | Hang => (row, Hang)
          end
      end
  end.

Definition removeBoardStripAutomatic (reason : string) (row : option BoardStrip) : option BoardStrip * outcome unit :=
  if human then (row, Err (RejectAction "use revisioned strip removal")) else attempts 2 0 (remove_attempt reason) row.

Definition reconcile_attempt (o : Observation) (i : nat) (row : option BoardStrip) : option BoardStrip * outcome bool :=
  match row with
  | None => (row, Ok true)
  | Some strip =>
      match Bound_Observe b (board_context ObservationSource (clock (2 * i)) strip) o with
      | Ok d =>
          match de_Visibility d, s_BoardState strip with
          | Some v, Some state =>
              let '(row, ok) := commitStripVisibility i strip (set_visibility (clock (2 * i + 1)) v state) row in (row, Ok ok)
          | _, _ => (row, Ok true)
          end
      | Err e => (row, Err e)
      | Panic => (row, Panic)
      | Hang => (row, Hang)
      end
  end.

Definition reconcileStripVisibility (o : Observation) (row : option BoardStrip) : option BoardStrip * outcome unit :=
  if negb (bp_Revisioned (b_boardState b)) then (row, Ok tt) else attempts 2 0 (reconcile_attempt o) row.

(** A strip that a report created is admitted to the board. *)
Definition initialize_attempt (i : nat) (row : option BoardStrip) : option BoardStrip * outcome bool :=
  match row with
  | None => (row, Err (Errorf "no rows in result set" []))
  | Some strip =>
      if not_nil (s_BoardState strip) then (row, Ok true)
      else
        let '(row, ok) := commitStripVisibility i strip (mk_board_state (Some (clock i)) no_annotations None "" false) row in (row, Ok ok)
  end.

Definition initializeStripBoardState (row : option BoardStrip) : option BoardStrip * outcome unit :=
  if negb (bp_Revisioned (b_boardState b)) then (row, Ok tt) else attempts 2 0 initialize_attempt row.
End operations.
