(* ===== verification/WorkflowFacts.v ===== *)
(** * What reports and moves do to a strip

    Lemmas about [Bays], [AirportWorkflow] and the two handlers: where a report
    leaves a departure, what validation lets through, to what an accepted document
    is bound, and that both handlers answer every report. *)

From S2P Require Import Prelude GoTime GoFloat Bays AirportDefinition AirportWorkflow.
From S2P Require Import WorkflowEkch WorkflowRadis.
From stdpp Require Import gmap strings.
From Stdlib Require Import QArith.
From Stdlib Require Import Strings.Ascii Strings.String.
Local Open Scope Z_scope.

(** ** Tests on strings *)

(** Decides the first test for equality of two strings in the goal. *)
Ltac case_str :=
  match goal with
  | |- context [str_eqb ?a ?b] =>
      let E := fresh "E" in
      destruct (str_eqb a b) eqn:E; [apply str_eqb_eq in E; try (exfalso; discriminate E)|apply str_eqb_neq in E]
  end.

(** Membership in a list of constants *)
Ltac listed := apply (bool_decide_unpack _); by vm_compute.

Section bays.
Context `{GoMath} (airport : string) (geography : BayGeography) (agl : Z) (gnd : bool).

Definition local_departure (origin destination : string) : Prop :=
  isLocalAirport origin airport = true ∧ isLocalAirport destination airport = false.

Definition near (p : EsPosition) : Prop := hasKnownPosition (GetLat p) (GetLon p) && too_far geography (GetLat p) (GetLon p) = false.

(** A full report of a departure that lies where it may be, as a function of bay and state *)
Lemma sync_departure strip e :
  local_departure (sync_origin strip (Some e)) (sync_destination strip (Some e)) →
  GetDepartureBayAt strip (Some e) agl airport gnd geography = local_departure_bay strip (Some e) agl gnd geography.
Proof. intros [Ho Hd]. unfold GetDepartureBayAt. by rewrite Hd, Ho. Qed.

Lemma agree_movement state strip e :
  local_departure (sync_origin strip (Some e)) (sync_destination strip (Some e)) → local_departure (db_Origin e) (db_Destination e) →
  near (GetPosition strip) → es_GroundState strip = state → db_State e ≠ Some state →
  (db_Bay e = BAY_DEPART → GetAltitude (GetPosition strip) ≤ airborne_above geography agl) →
  state ∈ [GroundStatePush; GroundStateTaxi; GroundStateDepart] →
  GetDepartureBayAt strip (Some e) agl airport gnd geography = GetDepartureBayFromGroundState state e airport gnd.
Proof.
  intros Hs [Ho Hd] Hnear Hstate Hnews Hlow Hmove. rewrite (sync_departure strip e Hs).
  unfold GetDepartureBayFromGroundState, local_departure_bay. cbv zeta. rewrite Hd, Ho, Hstate, Hnear. unfold keeps_bay, existing_in_bay, opt_test.
  assert (Hno : match db_State e with Some a => str_eqb state a | None => false end = false).
  { destruct (db_State e) as [st|]; [|done]. apply str_eqb_neq. by intros ->. }
  rewrite Hno, andb_false_r. cbn [negb andb orb].
  rewrite !elem_of_cons, elem_of_nil in Hmove. destruct Hmove as [->|[->|[->|[]]]]; cbn;
    repeat (case_str; cbn; try congruence); try done.
  all: try (rewrite E in *; cbn in *; congruence).
  all: destruct (airborne_above geography agl <? _) eqn:Ha; [apply Z.ltb_lt in Ha; specialize (Hlow ltac:(assumption)); lia|done].
Qed.

(** A report LINEUP about a strip that a full report may move says nothing there. *)
Lemma lineup_unread strip e :
  local_departure (sync_origin strip (Some e)) (sync_destination strip (Some e)) → near (GetPosition strip) →
  es_GroundState strip = GroundStateLineup → db_State e ≠ Some GroundStateLineup →
  db_Bay e ∉ [BAY_HIDDEN_DEP; BAY_HIDDEN; BAY_AIRBORNE; BAY_DEPART] →
  GetDepartureBayAt strip (Some e) agl airport gnd geography = bay_of_clearance strip geography agl.
Proof.
  intros Hs Hnear Hstate Hnews Hbay. rewrite (sync_departure strip e Hs).
  rewrite !not_elem_of_cons in Hbay. destruct Hbay as (H1 & H2 & H3 & H4 & _).
  unfold local_departure_bay. cbv zeta. rewrite Hstate, Hnear. unfold keeps_bay, existing_in_bay, opt_test.
  assert (Hno : match db_State e with Some a => str_eqb GroundStateLineup a | None => false end = false).
  { destruct (db_State e) as [st|]; [|done]. apply str_eqb_neq. intros <-; by apply Hnews. }
  rewrite Hno, andb_false_r, (proj2 (str_eqb_neq _ _) H1), (proj2 (str_eqb_neq _ _) H2), (proj2 (str_eqb_neq _ _) H3), (proj2 (str_eqb_neq _ _) H4). reflexivity.
Qed.
End bays.

(** ** Reports about departures *)

(** How far a departure has come *)
Definition departure_stages : list string := [BAY_NOT_CLEARED; BAY_CLEARED; BAY_PUSH; BAY_TAXI; BAY_TAXI_LWR; BAY_TAXI_TWR; BAY_DEPART; BAY_AIRBORNE].

Definition stage (bay : string) : option nat := fst <$> list_find (λ b, b = bay) departure_stages.

Definition bay_after (s : WorkflowSnapshot) (d : WorkflowDecision) : string := default (sn_Bay s) (de_Bay d).

(** The strip is a departure of the airport, before and after the report. *)
Definition departs_locally (h : ekch) (s : WorkflowSnapshot) (o : Observation) : Prop :=
  local_departure (ek_airport h) (sn_Origin s) (sn_Destination s) ∧
  local_departure (ek_airport h) (sync_origin (reported_strip s o) (existing_strip s)) (sync_destination (reported_strip s o) (existing_strip s)).

Definition report_near `{GoMath} (h : ekch) (o : Observation) : Prop :=
  near (ek_geography h) (mk_es_position (ob_Latitude o) (ob_Longitude o) (ob_Altitude o)).

(** A report about the same flight that only tells its ground state *)
Definition only_state (o : Observation) (kind : ObservationKind) : Observation :=
  mk_observation kind (ob_Origin o) (ob_Destination o) (ob_GroundState o) (ob_Cleared o) (ob_Latitude o) (ob_Longitude o) (ob_Altitude o).

Lemma stage_in bay i : stage bay = Some i → bay ∈ departure_stages.
Proof. unfold stage. intros ((j & x) & Hf & _)%fmap_Some. apply list_find_Some in Hf as (Hl & -> & _). by apply list_elem_of_lookup_2 in Hl. Qed.

Section reports.
Context `{GoMath} (h : ekch).

Lemma never_back_ground s o i existing gnd :
  existing_strip s = Some existing → local_departure (ek_airport h) (sn_Origin s) (sn_Destination s) → stage (sn_Bay s) = Some i →
  ob_GroundState o ∈ [GroundStateTaxi; GroundStateLineup; GroundStateDepart] →
  ∃ j, stage (GetDepartureBayFromGroundState (ob_GroundState o) existing (ek_airport h) gnd) = Some j ∧ (i ≤ j)%nat.
Proof.
  intros He [Ho Hd] Hi Hs. unfold existing_strip in He. destruct (sn_Exists s); [|done]. injection He as <-.
  unfold GetDepartureBayFromGroundState. cbn [db_Destination db_Origin db_Bay]. rewrite Ho, Hd.
  pose proof (stage_in _ _ Hi) as Hin. unfold departure_stages in Hin. rewrite !elem_of_cons, elem_of_nil in Hin. rewrite !elem_of_cons, elem_of_nil in Hs.
  destruct Hin as [Hb|[Hb|[Hb|[Hb|[Hb|[Hb|[Hb|[Hb|[]]]]]]]]]; rewrite Hb in *; vm_compute in Hi; injection Hi as <-;
    destruct Hs as [Hs|[Hs|[Hs|[]]]]; rewrite Hs; destruct gnd; (eexists; split; [vm_compute; reflexivity|lia]).
Qed.

(** What a snapshot of a stored strip has *)
Definition known_state (s : WorkflowSnapshot) : Prop := sn_GroundStateKnown s = false → sn_GroundState s = GroundStateUnknown.

Lemma reconciled_plain s o :
  ob_GroundState o ≠ GroundStateUnknown → (ob_GroundState o = GroundStateTaxi → sn_Bay s ∉ [BAY_DEPART; BAY_AIRBORNE]) →
  reconciled_state s o = ob_GroundState o.
Proof.
  intros Ho Hb. unfold reconciled_state. cbv zeta. rewrite (proj2 (str_eqb_neq _ _) Ho), !andb_false_r. cbn [andb].
  destruct (str_eqb (ob_GroundState o) GroundStateTaxi) eqn:Ht; [|by rewrite !andb_false_r; cbn [andb]; rewrite Ht, andb_false_r].
  apply str_eqb_eq in Ht. specialize (Hb Ht). rewrite !not_elem_of_cons in Hb. destruct Hb as (H1 & H2 & _).
  rewrite (proj2 (str_eqb_neq _ _) H1), (proj2 (str_eqb_neq _ _) H2). by rewrite !andb_false_r.
Qed.

(** Behind the runway a report TAXI becomes the stored state, or LINEUP. *)
Lemma reconciled_depart s o :
  sn_Exists s = true → sn_Bay s = BAY_DEPART → ob_GroundState o = GroundStateTaxi →
  reconciled_state s o = if str_empty (sn_GroundState s) then GroundStateLineup else sn_GroundState s.
Proof.
  intros He Hb Ho. unfold reconciled_state. cbv zeta. rewrite He, Hb, Ho. unfold str_empty, GroundStateUnknown.
  destruct (str_eqb (sn_GroundState s) ""); cbn; by rewrite ?andb_false_r.
Qed.

(** The aircraft is not yet above the altitude of a departure. *)
Definition low (o : Observation) : Prop := ob_Altitude o ≤ airborne_above (ek_geography h) (ek_airborneAGL h).

Lemma sync_departure_bay s o gnd existing :
  existing_strip s = Some existing → departs_locally h s o → report_near h o →
  GetDepartureBayAt (reported_strip s o) (Some existing) (ek_airborneAGL h) (ek_airport h) gnd (ek_geography h) =
  local_departure_bay (reported_strip s o) (Some existing) (ek_airborneAGL h) gnd (ek_geography h).
Proof. intros He [_ Hs] Hnear. rewrite He in Hs. exact (sync_departure _ _ _ _ _ _ Hs). Qed.

Lemma sync_keeps_depart s o gnd existing :
  existing_strip s = Some existing → known_state s → sn_Bay s = BAY_DEPART → departs_locally h s o → report_near h o →
  ob_GroundState o ∈ [GroundStateTaxi; GroundStateDepart] →
  let bay := GetDepartureBayAt (reported_strip s o) (Some existing) (ek_airborneAGL h) (ek_airport h) gnd (ek_geography h) in
  bay = BAY_DEPART ∨ bay = BAY_AIRBORNE ∧ ¬ low o.
Proof.
  intros He Hknown Hb Hs Hnear Ho. rewrite (sync_departure_bay s o gnd existing He Hs Hnear).
  pose proof He as He'. unfold existing_strip in He'. destruct (sn_Exists s) eqn:Hex; [|done]. injection He' as <-.
  unfold local_departure_bay. cbv zeta. unfold report_near, near in Hnear. unfold reported_strip. cbn [GetPosition es_Position]. rewrite Hnear.
  unfold existing_in_bay, opt_test, keeps_bay. cbn [db_Bay db_State es_GroundState opt_test GetAltitude]. rewrite Hb.
  assert (Hhigh : (airborne_above (ek_geography h) (ek_airborneAGL h) <? ob_Altitude o) = true → ¬ low o) by (unfold low; lia).
  rewrite !elem_of_cons, elem_of_nil in Ho. destruct Ho as [Ho|[Ho|[]]].
  - rewrite (reconciled_depart s o Hex Hb Ho). destruct (sn_GroundStateKnown s) eqn:Hk.
    + unfold str_empty. destruct (str_eqb (sn_GroundState s) "") eqn:Hg; cbn.
      * apply str_eqb_eq in Hg. rewrite Hg. cbn. destruct (airborne_above _ _ <? _); auto.
      * rewrite str_eqb_refl. cbn. rewrite orb_true_r. auto.
    + rewrite (Hknown Hk). cbn. destruct (airborne_above _ _ <? _); auto.
  - rewrite (reconciled_plain s o) by (rewrite Ho; discriminate). rewrite Ho. generalize (sn_GroundStateKnown s). intros known. left. cbn. by destruct (opt_test _ _).
Qed.

Lemma never_back_sync s o i gnd existing :
  existing_strip s = Some existing → known_state s → departs_locally h s o → report_near h o → stage (sn_Bay s) = Some i →
  ob_GroundState o ∈ [GroundStateTaxi; GroundStateDepart] →
  ∃ j, stage (GetDepartureBayAt (reported_strip s o) (Some existing) (ek_airborneAGL h) (ek_airport h) gnd (ek_geography h)) = Some j ∧ (i ≤ j)%nat.
Proof.
  intros He Hknown Hs Hnear Hi Ho.
  destruct (decide (sn_Bay s = BAY_DEPART)) as [Hb|Hd].
  { pose proof (sync_keeps_depart s o gnd existing He Hknown Hb Hs Hnear Ho) as Hr. cbv zeta in Hr. rewrite Hb in Hi. vm_compute in Hi. injection Hi as <-.
    destruct Hr as [->|[-> _]]; (eexists; split; [vm_compute; reflexivity|lia]). }
  rewrite (sync_departure_bay s o gnd existing He Hs Hnear).
  pose proof He as He'. unfold existing_strip in He'. destruct (sn_Exists s); [|done]. injection He' as <-.
  unfold local_departure_bay. cbv zeta. unfold report_near, near in Hnear. cbn [GetPosition es_Position reported_strip es_GroundState]. rewrite Hnear.
  unfold existing_in_bay, keeps_bay. cbn [db_Bay db_State opt_test].
  pose proof (stage_in _ _ Hi) as Hin. unfold departure_stages in Hin. rewrite !elem_of_cons, elem_of_nil in Hin.
  destruct (decide (sn_Bay s = BAY_AIRBORNE)) as [Hb|Ha]; [rewrite Hb in *; vm_compute in Hi; injection Hi as <-; cbn; eexists; split; [vm_compute; reflexivity|lia]|].
  rewrite reconciled_plain; [|rewrite !elem_of_cons, elem_of_nil in Ho; by destruct Ho as [->|[->|[]]]|intros _; rewrite !not_elem_of_cons; auto using not_elem_of_nil].
  rewrite !elem_of_cons, elem_of_nil in Ho. generalize (opt_test (str_eqb (ob_GroundState o)) (if sn_GroundStateKnown s then Some (sn_GroundState s) else None)). intros news.
  destruct Hin as [Hb|[Hb|[Hb|[Hb|[Hb|[Hb|[Hb|[Hb|[]]]]]]]]]; try done; rewrite Hb in *; vm_compute in Hi; injection Hi as <-;
    (destruct Ho as [Ho|[Ho|[]]]; rewrite Ho; destruct gnd, news; (eexists; split; [vm_compute; reflexivity|lia])).
Qed.

(** Reports of pushback, taxi and departure give the same bay either way. *)
Lemma movement_bays_agree s o gnd existing :
  existing_strip s = Some existing → known_state s → departs_locally h s o → report_near h o → (sn_Bay s = BAY_DEPART → low o) →
  ob_GroundState o ∈ [GroundStatePush; GroundStateTaxi; GroundStateDepart] → db_State existing ≠ Some (ob_GroundState o) →
  GetDepartureBayAt (reported_strip s o) (Some existing) (ek_airborneAGL h) (ek_airport h) gnd (ek_geography h) =
  GetDepartureBayFromGroundState (ob_GroundState o) existing (ek_airport h) gnd.
Proof.
  intros He Hknown Hs Hnear Hlow Ho Hnews.
  pose proof He as He'. unfold existing_strip in He'. destruct (sn_Exists s) eqn:Hex; [|done]. injection He' as <-.
  assert (Hunknown : ob_GroundState o ≠ GroundStateUnknown) by (rewrite !elem_of_cons, elem_of_nil in Ho; by destruct Ho as [->|[->|[->|[]]]]).
  destruct (decide (ob_GroundState o = GroundStateTaxi ∧ sn_Bay s ∈ [BAY_DEPART; BAY_AIRBORNE])) as [[Ht Hb]|Hplain].
  - rewrite !elem_of_cons, elem_of_nil in Hb. destruct Hb as [Hb|[Hb|[]]].
    + assert (Hr := sync_keeps_depart s o gnd _ He Hknown Hb Hs Hnear ltac:(rewrite Ht; listed)). cbv zeta in Hr.
      destruct Hr as [->|[_ Hr]]; [|by destruct Hr; apply Hlow].
      destruct Hs as [[Hl1 Hl2] _]. unfold GetDepartureBayFromGroundState. cbn [db_Destination db_Origin db_Bay]. by rewrite Hl1, Hl2, Hb, Ht.
    + rewrite (sync_departure_bay s o gnd _ He Hs Hnear). destruct Hs as [[Hl1 Hl2] _].
      unfold GetDepartureBayFromGroundState, local_departure_bay. cbn [db_Destination db_Origin db_Bay]. rewrite Hl1, Hl2, Hb, Ht. cbv zeta.
      unfold report_near, near in Hnear. unfold reported_strip. cbn [GetPosition es_Position]. by rewrite Hnear.
  - destruct Hs as [Hl Hs]. rewrite He in Hs.
    assert (Hr : reconciled_state s o = ob_GroundState o) by (apply reconciled_plain; [done|intros Ht Hb; by apply Hplain]).
    eapply agree_movement; [exact Hs|exact Hl|exact Hnear|exact Hr|done|exact Hlow|done].
Qed.
End reports.

(** ** What validation lets through *)

(** A decision of a report that validation has nothing against: nothing is sent out,
    the bay is one of the airport's, and only a revisioned board has visibility. *)
Definition harmless (b : Bound) (d : WorkflowDecision) : Prop :=
  de_Annotations d = None ∧ de_Admission d = None ∧ de_ConnectedFlights d = None ∧ de_GroundState d = None ∧ de_Cleared d = None ∧
  (∀ bay, de_Bay d = Some bay → bay ∈ b_bays b) ∧ (de_Visibility d ≠ None → bp_Revisioned (b_boardState b) = true).

(** The scope of a call: a session, and no other airport's definition *)
Definition in_scope (b : Bound) (c : Context) : Prop := 0 < cx_Session c ∧ ∀ p, cx_Definition c = Some p → p = def_address (b_definition b).

Lemma scope_ok b c : in_scope b c →
  bound_context b c = Ok (mk_context (cx_Now c) (cx_Session c) (Some (def_address (b_definition b))) (cx_Source c) (cx_Strip c) (cx_GroundOnline c)).
Proof.
  intros [Hs Hd]. unfold bound_context. rewrite (proj2 (guard_err_iff _ _)); [done|].
  apply orb_false_iff. split; [lia|]. destruct (cx_Definition c) as [p|]; [|done]. cbn. rewrite (Hd p eq_refl). by rewrite Pos.eqb_refl.
Qed.

Lemma scope_iff b c c' : bound_context b c = Ok c' → in_scope b c.
Proof.
  unfold bound_context. intros (u & Hg & _)%bind_ok. apply guard_err_ok, orb_false_iff in Hg as [Hs Hd]. split; [lia|].
  intros p Hp. rewrite Hp in Hd. cbn in Hd. apply negb_false_iff, Pos.eqb_eq in Hd. done.
Qed.

Lemma scope_reentrant b c now source strip gnd : 0 < cx_Session c →
  in_scope b (mk_context now (cx_Session c) (Some (def_address (b_definition b))) source strip gnd).
Proof. intros Hs. split; [done|]. by intros p [= <-]. Qed.

Lemma has_bay b bay : bay ∈ b_bays b → HasBay b bay = true.
Proof. intros Hb. by apply bool_decide_eq_true. Qed.

Lemma validate_harmless b c d : in_scope b c → cx_Source c = ObservationSource → harmless b d → Bound_Validate b c d = Ok tt.
Proof.
  intros Hc Hs (Ha & Had & Hcf & Hg & Hcl & Hbay & Hv). unfold Bound_Validate. cbv zeta. rewrite Ha, Had, Hcf, Hg, Hcl, Hs, (scope_ok b c Hc).
  assert (H1 : (not_nil (de_Visibility d) && negb (bp_Revisioned (b_boardState b))) = false).
  { destruct (de_Visibility d); [|done]. by rewrite Hv. }
  assert (H2 : opt_test (λ bay, negb (HasBay b bay)) (de_Bay d) = false).
  { destruct (de_Bay d) as [bay|]; [|done]. cbn. by rewrite has_bay by (by apply Hbay). }
  rewrite H1. cbn. by rewrite H2.
Qed.

(** ** Workflows that answer every report *)

(** A strip of the board lies in one of its bays; another one may lie nowhere yet. *)
Definition on_board (b : Bound) (s : WorkflowSnapshot) : Prop := sn_Bay s ∈ b_bays b ∨ sn_Bay s = ""%string ∧ sn_BoardMember s = false.

(** The promise a handler makes to the executor of reports *)
Class AnswersReports (b : Bound) := answers_reports : ∀ c o,
  sn_Exists (cx_Strip c) = true → on_board b (cx_Strip c) → ob_Kind o ≠ ObservationOther →
  ∃ d, h_Observe (b_handler b) c o = Ok d ∧ harmless b d.

Lemma observed_harmless b `{!AnswersReports b} c o :
  in_scope b c → sn_Exists (cx_Strip c) = true → on_board b (cx_Strip c) → ob_Kind o ≠ ObservationOther →
  ∃ d, Bound_Observe b c o = Ok d ∧ harmless b d.
Proof.
  intros Hc He Hb Ho. unfold Bound_Observe. rewrite (scope_ok b c Hc). cbn [mbind outcome_bind].
  destruct (answers_reports (with_source (mk_context (cx_Now c) (cx_Session c) (Some (def_address (b_definition b))) (cx_Source c) (cx_Strip c) (cx_GroundOnline c))
    ObservationSource) o) as (d & Hd & Hh); [done|done|done|]. exists d. split; [|done].
  rewrite Hd. cbn [mbind outcome_bind]. rewrite validate_harmless; [done|by apply scope_reentrant, Hc|done|done].
Qed.

(** ** Binding an accepted document *)

Lemma accepted_required h doc : h ∈ ProductionAirportCatalog → accepted_by h doc →
  (∀ bay, bay ∈ hd_RequiredBays h → bay ∈ wf_Bays (doc_Workflow doc)) ∧ hd_Validate h doc = Ok tt.
Proof.
  intros Hin [Hid Hbind]. unfold catalog_bind in Hbind.
  assert (Hf : find (λ h, str_eqb (hd_ID h) (wf_Handler (doc_Workflow doc))) ProductionAirportCatalog = Some h).
  { rewrite Hid. unfold ProductionAirportCatalog in *. rewrite !elem_of_cons, elem_of_nil in Hin. by destruct Hin as [->|[->|[]]]. }
  rewrite Hf in Hbind. apply bind_ok in Hbind as (u1 & _ & Hbind). apply bind_ok in Hbind as (u2 & _ & Hbind).
  apply bind_ok in Hbind as (u3 & _ & Hbind). apply bind_ok in Hbind as (u4 & Hreq & Hval). split; [|done].
  apply guard_err_ok in Hreq. rewrite existsb_exists_false in Hreq. intros bay Hbay. specialize (Hreq bay Hbay).
  apply negb_false_iff in Hreq. by apply contains_iff.
Qed.

Lemma accepted_ekch doc : accepted_by EKCHConfig doc →
  ∃ settings, wf_Settings (doc_Workflow doc) = SettingsEKCH settings ∧ ∀ bay, bay ∈ ekch_bays → bay ∈ wf_Bays (doc_Workflow doc).
Proof.
  intros Ha. destruct (accepted_required EKCHConfig doc) as [Hbays Hv]; [by left|done|]. cbn in Hv. unfold ekch_validate in Hv.
  destruct (wf_Settings (doc_Workflow doc)) as [s|s|]; [|done|done]. by exists s.
Qed.

Lemma accepted_radis doc : accepted_by RADISConfig doc →
  ∃ s, wf_Settings (doc_Workflow doc) = SettingsRADIS s ∧ (∀ bay, bay ∈ RADISBays → bay ∈ wf_Bays (doc_Workflow doc)) ∧
    DepartureInitialBay s ∈ RADISBays ∧ ArrivalInitialBay s ∈ RADISBays ∧
    flt (RemovalDistanceNM s) (AdmissionDistanceNM s) = false ∧ DepartureAdmissionAGLFT s < DepartureRemovalAGLFT s.
Proof.
  intros Ha. destruct (accepted_required RADISConfig doc) as [Hbays Hv]; [by right; left|done|]. cbn in Hv. unfold radis_validate in Hv.
  destruct (wf_Settings (doc_Workflow doc)) as [s|s|]; [done| |done]. exists s.
  apply bind_ok in Hv as (u1 & _ & Hv). apply bind_ok in Hv as (u2 & _ & Hv). apply bind_ok in Hv as (u3 & Hini & Hv).
  apply bind_ok in Hv as (u4 & _ & Hv). apply bind_ok in Hv as (u5 & _ & Hv). apply bind_ok in Hv as (u6 & Hlim & _).
  apply guard_err_ok, orb_false_iff in Hini as [Hd Har]. apply guard_err_ok, orb_false_iff in Hlim as [Hdist Hagl].
  apply negb_false_iff in Hd. apply negb_false_iff in Har.
  split; [done|]. split; [exact Hbays|]. split; [by apply contains_iff|]. split; [by apply contains_iff|]. split; [done|lia].
Qed.

(** The actions by name *)
Definition action_map (actions : list ActionDescriptor) : gmap string ActionDescriptor := foldl (λ m a, <[act_name a := a]> m) ∅ actions.

Lemma ekch_actions_bind h : fold_outcome add_action ∅ (ekch_actions h) = Ok (action_map (ekch_actions h)).
Proof. reflexivity. Qed.

Lemma radis_actions_bind h : fold_outcome add_action ∅ (radis_actions h) = Ok (action_map (radis_actions h)).
Proof. reflexivity. Qed.

(** The workflow that a definition is bound to *)
Definition bound_to (policy : BoardStatePolicy) (handler : Handler) (actions : list ActionDescriptor) (d : AirportDefinition) : Bound :=
  let workflow := doc_Workflow (def_document d) in
  mk_bound policy (wf_Annotations workflow) d handler (action_map actions) (list_to_set (wf_Bays workflow)).

Definition ekch_bound `{GoMath} (d : AirportDefinition) (settings : EKCHSettings) : Bound :=
  bound_to (mk_policy false 0) (ekch_as_handler (ekch_handler d settings)) (ekch_actions (ekch_handler d settings)) d.

Definition radis_bound `{GoMath} (d : AirportDefinition) (s : RADISSettings) : Bound :=
  bound_to (mk_policy true (RecoverySeconds s)) (radis_as_handler (radis_handler d s)) (radis_actions (radis_handler d s)) d.

Lemma ekch_binds `{GoMath} d settings :
  wf_Handler (doc_Workflow (def_document d)) = "ekch/v1"%string → wf_Settings (doc_Workflow (def_document d)) = SettingsEKCH settings →
  Bind (Some d) EKCHDescriptor = Ok (ekch_bound d settings).
Proof. intros Hh Hs. unfold Bind, EKCHDescriptor. cbn [ds_Bind ds_ID ds_BoardState]. rewrite Hh, Hs. reflexivity. Qed.

Lemma radis_binds `{GoMath} d s :
  wf_Handler (doc_Workflow (def_document d)) = "radis/v1"%string → wf_Settings (doc_Workflow (def_document d)) = SettingsRADIS s →
  Bind (Some d) RADISDescriptor = Ok (radis_bound d s).
Proof. intros Hh Hs. unfold Bind, RADISDescriptor. cbn [ds_Bind ds_ID ds_BoardState]. rewrite Hh, Hs. reflexivity. Qed.

(** ** Both workflows answer every report *)

(** A bay that the functions on bays give: one of the airport's, or the one the strip lies in *)
Definition listed_bay (existing : option DbStrip) (bay : string) : Prop :=
  bay ∈ ekch_bays ∨ ∃ e, existing = Some e ∧ db_Bay e ≠ ""%string ∧ bay = db_Bay e.

Lemma listed_constant existing bay : bool_decide (bay ∈ ekch_bays) = true → listed_bay existing bay.
Proof. intros Hb. left. by apply bool_decide_eq_true in Hb. Qed.

Lemma listed_if existing (t : bool) a b : (t = true → listed_bay existing a) → (t = false → listed_bay existing b) → listed_bay existing (if t then a else b).
Proof. destruct t; auto. Qed.

Lemma listed_own e : db_Bay e ≠ ""%string → listed_bay (Some e) (db_Bay e).
Proof. intros Hb. right. by exists e. Qed.

Lemma keeps_nonempty e state : keeps_bay e state = true → db_Bay e ≠ ""%string.
Proof.
  intros Hk He. unfold keeps_bay in Hk. rewrite He in Hk. cbn in Hk. by rewrite andb_false_r in Hk.
Qed.

(** Leaves of a decision tree *)
Ltac leaf := first
  [ apply listed_constant; vm_compute; reflexivity
  | apply listed_own; eassumption
  | apply listed_own; intros Hnil; rewrite Hnil in *; cbn in *; rewrite ?andb_false_r in *; discriminate
  | apply listed_own; eapply keeps_nonempty; eassumption ].

Ltac tree := repeat (apply listed_if; intros); try leaf.

Lemma listed_sync `{GoMath} strip existing agl airport gnd geography :
  listed_bay existing (GetDepartureBayAt strip existing agl airport gnd geography).
Proof.
  unfold GetDepartureBayAt. apply listed_if; intros _.
  - destruct existing as [e|]; [|leaf]. tree.
  - apply listed_if; intros _.
    + destruct existing as [e|]; [|leaf]. tree.
    + unfold local_departure_bay. cbv zeta. unfold PromoteTaxiBayForSoloTwr, bay_of_clearance. destruct existing as [e|]; tree.
Qed.

Lemma listed_ground state e airport gnd : listed_bay (Some e) (GetDepartureBayFromGroundState state e airport gnd).
Proof.
  unfold GetDepartureBayFromGroundState, arrival_keeps, PromoteTaxiBayForSoloTwr. cbv zeta. tree.
  all: repeat match goal with
  | H : (_ || _) = true |- _ => apply orb_true_iff in H as [H|H]
  | H : str_eqb _ _ = true |- _ => apply str_eqb_eq in H
  | H : negb _ = true |- _ => apply negb_true_iff, str_eqb_neq in H
  end; leaf.
Qed.

Lemma listed_position `{GoMath} lat lon alt e agl airport geography : listed_bay (Some e) (GetDepartureBayFromPositionAt lat lon alt e agl airport geography).
Proof.
  unfold GetDepartureBayFromPositionAt, arrival_keeps. cbv zeta. destruct (str_empty (db_Bay e)) eqn:He.
  - cbn [negb]. tree.
  - apply str_eqb_neq in He. cbn [negb]. tree.
Qed.

Lemma existing_bay s e : existing_strip s = Some e → db_Bay e = sn_Bay s.
Proof. unfold existing_strip. destruct (sn_Exists s); [|done]. by intros [= <-]. Qed.

Lemma existing_some s : sn_Exists s = true → ∃ e, existing_strip s = Some e.
Proof. intros He. unfold existing_strip. rewrite He. eauto. Qed.

Lemma own_declared b s : on_board b s → sn_Bay s ≠ ""%string → sn_Bay s ∈ b_bays b.
Proof. by intros [Hs|[Hs _]] Hne. Qed.

Lemma listed_declared b s bay :
  (∀ bay, bay ∈ ekch_bays → bay ∈ b_bays b) → on_board b s → listed_bay (existing_strip s) bay → bay ∈ b_bays b.
Proof.
  intros Hreq Hs [Hb|(e & He & Hne & ->)]; [by apply Hreq|]. pose proof (existing_bay s e He) as Heq. rewrite Heq in Hne |- *. by apply own_declared.
Qed.

Lemma harmless_report b bay state cleared : (∀ x, bay = Some x → x ∈ b_bays b) → harmless b (observed bay state cleared).
Proof. intros Hb. by repeat split. Qed.

Lemma ekch_answers `{GoMath} d settings :
  (∀ bay, bay ∈ ekch_bays → bay ∈ wf_Bays (doc_Workflow (def_document d))) → AnswersReports (ekch_bound d settings).
Proof.
  intros Hreq c o He Hon Ho. set (h := ekch_handler d settings). change (h_Observe (b_handler (ekch_bound d settings)) c o) with (ekch_Observe h c o).
  assert (Hbays : ∀ bay, bay ∈ ekch_bays → bay ∈ b_bays (ekch_bound d settings)) by (intros bay Hb; by apply elem_of_list_to_set, Hreq).
  assert (Hsome : ∀ bay x, listed_bay (existing_strip (cx_Strip c)) bay → Some bay = Some x → x ∈ b_bays (ekch_bound d settings)).
  { intros bay x Hl [= <-]. by apply (listed_declared _ (cx_Strip c)). }
  destruct (existing_some _ He) as [e Hex]. unfold ekch_Observe. destruct (ob_Kind o); [| | | | | |done].
  - eexists. split; [done|]. apply harmless_report. intros x. destruct (_ && _) eqn:Hkeep; [|apply Hsome, listed_sync].
    intros [= <-]. repeat (apply andb_true_iff in Hkeep as [Hkeep ?]).
    apply own_declared; [done|]. by apply str_eqb_neq, negb_true_iff.
  - destruct (_ && _); [eexists; split; [done|]; by apply (harmless_report _ None None None)|].
    rewrite Hex. eexists. split; [done|]. apply harmless_report. intros x. apply Hsome. rewrite Hex. apply listed_ground.
  - rewrite Hex. eexists. split; [done|]. apply harmless_report. intros x. apply Hsome. rewrite Hex. apply listed_position.
  - eexists. split; [done|]. repeat split; [|done]. cbn [de_Bay ekch_arrival_position]. intros x Hx.
    destruct (negb _ && _ && _ && _); [injection Hx as <-; apply Hbays; listed|]. destruct (_ && _); [injection Hx as <-; apply Hbays; listed|done].
  - unfold ekch_cleared_flag. cbv zeta. destruct (Bool.eqb _ _); eexists; (split; [done|]); repeat split; try done. cbn [de_Bay]. intros x [= <-].
    destruct (str_eqb (sn_Bay (cx_Strip c)) BAY_NOT_CLEARED || _); [apply Hbays; listed|].
    destruct (str_empty (sn_Bay (cx_Strip c))) eqn:Hb; [apply Hbays; listed|]. apply own_declared; [done|by apply str_eqb_neq].
  - eexists. split; [done|]. by apply harmless_report.
Qed.

Lemma radis_answers `{GoMath} d s :
  (∀ bay, bay ∈ RADISBays → bay ∈ wf_Bays (doc_Workflow (def_document d))) → DepartureInitialBay s ∈ RADISBays → ArrivalInitialBay s ∈ RADISBays →
  AnswersReports (radis_bound d s).
Proof.
  intros Hreq Hd Ha c o He Hon Ho. eexists. split; [done|]. repeat split; try done. cbn [de_Bay]. intros x [= <-].
  rewrite He. cbn [negb orb]. destruct (sn_BoardMember (cx_Strip c)) eqn:Hm; cbn [negb].
  - destruct Hon as [Hon|[_ Hon]]; [done|congruence].
  - apply elem_of_list_to_set, Hreq. unfold radis_initial. by case_match.
Qed.
