(* ===== verification/WorkflowExamples.v ===== *)
(** * Two airports

    EKYT as the tests configure it for RADIS, and EKCH with the geography its handler
    demands; the catalog accepts both documents. Trigonometry is replaced by functions
    for which no two positions are apart. *)

From S2P Require Import Prelude GoTime GoFloat Bays AirportDefinition AirportWorkflow.
From S2P Require Import WorkflowRadis WorkflowEkch.
From stdpp Require Import gmap strings.
From Stdlib Require Import QArith.
From Stdlib Require Import Strings.Ascii Strings.String.

Local Open Scope Z_scope.

(** Functions for which every two positions coincide *)
Definition flat_math : GoMath := {|
  math_Sin := λ _, 0%Q; math_Cos := λ _, 1%Q; math_Tan := λ _, 0%Q; math_Asin := λ _, 0%Q; math_Atan2 := λ _ _, 0%Q; math_Sqrt := λ x, x; math_Pow := λ x _, x |}.

Definition ekyt_settings : RADISSettings :=
  mk_radis_settings true 7%Q "PASSIVE_TOP" "PASSIVE_BOTTOM"
    (<["ACTIVE"%string := mk_bay_states "TAXI" "TAXI"]> (<["RUNWAY"%string := mk_bay_states "LINEUP" ""]>
      (<["PASSIVE_TOP"%string := mk_bay_states "ST-UP" ""]> (<["PASSIVE_BOTTOM"%string := mk_bay_states "" "PARK"]> ∅))))
    37%Q 2100 47%Q 3100 123.

Definition ekyt_document : AirportDocument :=
  mk_document "EKYT" (mk_airport_geography 0%Q 0%Q 0%Q) [mk_position "EKYT_TWR" "118.000"] (mk_ownership "none" "none") (mk_view "radis" [] "RADIS")
    (mk_workflow "radis/v1" (SettingsRADIS ekyt_settings) RADISBays {[ "notes"%string := "string"%string ]}) (mk_services None None).

Definition ekyt : AirportDefinition := mk_definition 1 "r1" ekyt_document [] [].

Example ekyt_accepted : accepted_by RADISConfig ekyt_document.
Proof. split; [done|]. by vm_compute. Qed.

Definition moment (seconds : Z) : Time := mk_time (63000000000 * Second + seconds * Second) true.

Definition ekch_settings : EKCHSettings := mk_ekch_settings 200 RelevantDistance.

Definition ekch_document : AirportDocument :=
  mk_document "EKCH" (mk_airport_geography AirportLatitude AirportLongitude (fl 17)) [mk_position "EKCH_DEL" "119.905"; mk_position "EKCH_B_GND" "121.9"]
    (mk_ownership "route" "coverage") (mk_view "ekch" ["CLX"; "AA"]%string "AMAN")
    (mk_workflow "ekch/v1" (SettingsEKCH ekch_settings) ekch_bays ∅) (mk_services (Some "enabled"%string) None).

Definition kastrup : AirportDefinition := mk_definition 2 "r1" ekch_document [] [].

Example ekch_accepted : accepted_by EKCHConfig ekch_document.
Proof. split; [done|]. by vm_compute. Qed.

Definition ekch_h : ekch := ekch_handler kastrup ekch_settings.

Example ekch_frequencies : ek_sequenceFrequencies ekch_h = ["121.900"; "119.905"]%string.
Proof. by vm_compute. Qed.

(** A departure in a bay, with a stored ground state *)
Definition kastrup_departure (bay : string) (state : option string) (cleared : bool) : BoardStrip :=
  mk_strip 7 1 1 "EKCH" "EGLL" bay None state cleared "" None true (Some (moment 0)) false None false.

Definition kastrup_report (kind : ObservationKind) (state : string) : Observation :=
  mk_observation kind "EKCH" "EGLL" state true AirportLatitude AirportLongitude 17.

Definition kastrup_context (s : BoardStrip) : Context := mk_context (moment 0) 1 None HumanSource (SnapshotOf (Some s)) true.
