(* ===== verification/WorkflowSafety.v ===== *)
(** * Theorems about airport workflows *)

From S2P Require Import Prelude GoTime GoFloat CdmClock Bays AirportDefinition AirportWorkflow.
From S2P Require Import WorkflowEkch WorkflowRadis WorkflowFacts WorkflowExamples.
From stdpp Require Import gmap strings.
From Stdlib Require Import QArith.
From Stdlib Require Import Strings.Ascii Strings.String.

Local Open Scope Z_scope.

(** ** Every accepted airport answers every report *)

(** The descriptors that the program compiles: [app/app.go] *)
Definition compiled_descriptors `{GoMath} : list Descriptor := [EKCHDescriptor; RADISDescriptor].

Definition answers_all (b : Bound) : Prop := ∀ c o,
  in_scope b c → sn_Exists (cx_Strip c) = true → on_board b (cx_Strip c) → ob_Kind o ≠ ObservationOther →
  ∃ d, Bound_Observe b c o = Ok d ∧ harmless b d.

Lemma accepted_answers `{GoMath} compiled (h : HandlerDescriptor) (d : AirportDefinition) :
  fold_outcome add_descriptor ∅ compiled_descriptors = Ok compiled → h ∈ ProductionAirportCatalog → accepted_by h (def_document d) →
  ∃ b, Bind (Some d) (default (mk_descriptor None "" None) (compiled !! wf_Handler (doc_Workflow (def_document d)))) = Ok b ∧ b_definition b = d ∧ answers_all b.
Proof.
  intros Hc Hin Ha. injection Hc as <-. pose proof Ha as [Hid _]. rewrite Hid. unfold ProductionAirportCatalog in Hin. rewrite !elem_of_cons, elem_of_nil in Hin.
  destruct Hin as [->|[->|[]]].
  - destruct (accepted_ekch _ Ha) as (settings & Hs & Hreq). exists (ekch_bound d settings).
    split; [exact (ekch_binds d settings Hid Hs)|]. split; [done|]. intros c o Hsc Hex Hb Ho. pose proof (ekch_answers d settings Hreq).
    by apply observed_harmless.
  - destruct (accepted_radis _ Ha) as (s & Hs & Hreq & Hd & Har & _). exists (radis_bound d s).
    split; [exact (radis_binds d s Hid Hs)|]. split; [done|]. intros c o Hsc Hex Hb Ho. pose proof (radis_answers d s Hreq Hd Har).
    by apply observed_harmless.
Qed.

Lemma elem_of_airports definitions airport : airport ∈ Airports definitions ↔ is_Some (definitions !! airport).
Proof.
  unfold Airports. rewrite elem_of_sort_slice, list_elem_of_fmap. split.
  - intros ([a d] & -> & Hd). apply elem_of_map_to_list in Hd. eauto.
  - intros [d Hd]. exists (airport, d). split; [done|]. by apply elem_of_map_to_list.
Qed.

(** A loop that inserts one value per key *)
Lemma fold_inserts {B} (P : string → B → Prop) (f : gmap string B → string → outcome (gmap string B)) l r :
  (∀ r k, k ∈ l → ∃ b, f r k = Ok (<[k := b]> r) ∧ P k b) →
  ∃ r', fold_outcome f r l = Ok r' ∧ ∀ k, (k ∈ l → ∃ b, r' !! k = Some b ∧ P k b) ∧ (k ∉ l → r' !! k = r !! k).
Proof.
  revert r. induction l as [|k l IH]; intros r Hf.
  { exists r. split; [done|]. intros k. split; [by intros ?%elem_of_nil|done]. }
  destruct (Hf r k) as (b & Hb & HP); [by left|]. destruct (IH (<[k := b]> r)) as (r' & Hr & Hk); [intros r0 k0 Hin; apply Hf; by right|].
  exists r'. cbn. rewrite Hb. cbn. split; [done|]. intros k'. destruct (Hk k') as [Hin Hout]. split.
  - intros Hk'. destruct (decide (k' ∈ l)) as [Hl|Hl]; [by apply Hin|]. apply elem_of_cons in Hk' as [->|Hk']; [|done].
    exists b. rewrite (Hout Hl). by rewrite lookup_insert_eq.
  - rewrite not_elem_of_cons. intros [Hne Hl]. rewrite (Hout Hl). by rewrite lookup_insert_ne.
Qed.

(** C20: When every definition of the registry has a document that the production
    catalog accepts, the workflow registry is built, it has a workflow for exactly
    the airports with a definition, and each of these workflows answers every
    report about an existing strip in a bay of its airport: the report is never
    refused, its decision sends nothing out, and it names a bay of the airport. *)
Theorem registry_answers_reports `{GoMath} (definitions : gmap string AirportDefinition) :
  (∀ airport d, definitions !! airport = Some d → ∃ h, h ∈ ProductionAirportCatalog ∧ accepted_by h (def_document d)) →
  ∃ r, NewRegistry (Some definitions) compiled_descriptors = Ok r ∧ ∀ airport,
    match definitions !! airport with
    | Some d => ∃ b, r !! airport = Some b ∧ b_definition b = d ∧ answers_all b
    | None => r !! airport = None
    end.
Proof.
  intros Hall. unfold NewRegistry. destruct (fold_outcome add_descriptor ∅ compiled_descriptors) as [compiled| | |] eqn:Hc; [|done..].
  cbn [mbind outcome_bind].
  destruct (fold_inserts (λ airport b, ∃ d, definitions !! airport = Some d ∧ b_definition b = d ∧ answers_all b)
    (λ r airport, d' ← deref (definitions !! airport);
       match Bind (definitions !! airport) (default (mk_descriptor None "" None) (compiled !! wf_Handler (doc_Workflow (def_document d')))) with
       | Ok b => Ok (<[airport := b]> r)
       | Err e => Err (Errorf "airport %s: %w" [AStr airport; AErr e])
       | Panic => Panic
       | Hang => Hang
       end) (Airports definitions) ∅) as (r & Hr & Hk).
  { intros r airport [d Hd]%elem_of_airports. destruct (Hall airport d Hd) as (h & Hin & Ha).
    destruct (accepted_answers compiled h d Hc Hin Ha) as (b & Hb & Hdef & Hans). exists b. rewrite Hd. cbn [deref mbind outcome_bind]. rewrite Hb. eauto. }
  exists r. split; [exact Hr|]. intros airport. destruct (Hk airport) as [Hin Hout]. rewrite elem_of_airports in Hin, Hout.
  destruct (definitions !! airport) as [d|] eqn:Hd.
  - destruct Hin as (b & Hb & d' & [= <-] & Hdef & Hans); [eauto|]. eauto.
  - rewrite Hout; [done|]. by intros [? ?].
Qed.

(** ** Reports about departures *)

Section departures.
Context `{GoMath} (h : ekch) (strip : BoardStrip).
Local Abbreviation s := (SnapshotOf (Some strip)).

Definition stored_strip : DbStrip := mk_db_strip (s_Origin strip) (s_Destination strip) (s_Bay strip) (s_Cleared strip) (s_State strip).

Lemma stored_existing : existing_strip s = Some stored_strip.
Proof. unfold existing_strip, stored_strip. cbn. by destruct (s_State strip). Qed.

Lemma stored_known : known_state s.
Proof. unfold known_state. cbn. by destruct (s_State strip). Qed.

(** The bay after a full report that does not uncover a strip as not cleared *)
Lemma full_flight_bay c o bay :
  cx_Strip c = s → GetDepartureBayAt (reported_strip s o) (Some stored_strip) (ek_airborneAGL h) (ek_airport h) (cx_GroundOnline c) (ek_geography h) = bay →
  bay ≠ BAY_NOT_CLEARED → bay_after s (ekch_full_flight h c o) = bay.
Proof.
  intros Hc Hb Hne. unfold ekch_full_flight. cbv zeta. rewrite Hc, stored_existing, Hb. unfold bay_after. cbn [de_Bay observed default].
  rewrite (proj2 (str_eqb_neq _ _) Hne), !andb_false_r. done.
Qed.

(** After a full report the strip is where the report puts it, or where it was. *)
Lemma full_flight_bays c o : cx_Strip c = s →
  let bay := GetDepartureBayAt (reported_strip s o) (Some stored_strip) (ek_airborneAGL h) (ek_airport h) (cx_GroundOnline c) (ek_geography h) in
  bay_after s (ekch_full_flight h c o) = bay ∨ bay = BAY_NOT_CLEARED ∧ bay_after s (ekch_full_flight h c o) = s_Bay strip.
Proof.
  intros Hc. unfold ekch_full_flight. cbv zeta. rewrite Hc, stored_existing. unfold bay_after. cbn [de_Bay observed default].
  destruct (_ && _) eqn:Hk; [right|by left]. split; [|done]. repeat (apply andb_true_iff in Hk as [Hk ?]). by apply str_eqb_eq.
Qed.

(** After a report of the ground state, one that is ignored too *)
Lemma ground_report_bay c o d :
  cx_Strip c = s → ob_Kind o = GroundState → local_departure (ek_airport h) (s_Origin strip) (s_Destination strip) → ekch_Observe h c o = Ok d →
  bay_after s d = GetDepartureBayFromGroundState (ob_GroundState o) stored_strip (ek_airport h) (cx_GroundOnline c).
Proof.
  intros Hc Hk [Ho Hl] Hd. unfold ekch_Observe in Hd. rewrite Hk, Hc, stored_existing in Hd. cbn [sn_Bay SnapshotOf] in Hd.
  destruct (str_eqb (ob_GroundState o) GroundStateTaxi && _) eqn:Hskip; [|by injection Hd as <-].
  injection Hd as <-. apply andb_true_iff in Hskip as [Ht%str_eqb_eq Hb]. unfold GetDepartureBayFromGroundState. cbv zeta.
  cbn [stored_strip db_Destination db_Origin db_Bay bay_after de_Bay default sn_Bay SnapshotOf]. rewrite Ho, Hl, Ht.
  by apply orb_true_iff in Hb as [->%str_eqb_eq| ->%str_eqb_eq].
Qed.

Lemma ground_movement_cleared state gnd :
  state ∈ [GroundStatePush; GroundStateTaxi; GroundStateDepart; GroundStateLineup] → local_departure (ek_airport h) (s_Origin strip) (s_Destination strip) →
  GetDepartureBayFromGroundState state stored_strip (ek_airport h) gnd ≠ BAY_NOT_CLEARED.
Proof.
  intros Hs [Ho Hl]. unfold GetDepartureBayFromGroundState. cbv zeta. cbn [stored_strip db_Destination db_Origin db_Bay]. rewrite Ho, Hl. cbn [negb].
  rewrite !elem_of_cons, elem_of_nil in Hs.
  destruct (str_eqb (s_Bay strip) BAY_HIDDEN) eqn:E1; [apply str_eqb_eq in E1 as ->; discriminate|].
  destruct (str_eqb (s_Bay strip) BAY_HIDDEN_DEP) eqn:E2; [apply str_eqb_eq in E2 as ->; discriminate|].
  destruct (str_eqb (s_Bay strip) BAY_AIRBORNE); [discriminate|].
  destruct (str_eqb (s_Bay strip) BAY_TAXI_LWR) eqn:E3; [apply str_eqb_eq in E3 as ->; destruct Hs as [->|[->|[->|[->|[]]]]]; discriminate|].
  destruct (str_eqb (s_Bay strip) BAY_TAXI_TWR) eqn:E4; [apply str_eqb_eq in E4 as ->; destruct Hs as [->|[->|[->|[->|[]]]]]; discriminate|].
  destruct (str_eqb (s_Bay strip) BAY_DEPART); destruct Hs as [->|[->|[->|[->|[]]]]]; destruct gnd; discriminate.
Qed.
End departures.

(** C21: The report of a ground state TAXI, LINEUP or DEPA, whatever state is stored, never
    moves the strip of a departure back to an earlier stage (not cleared, cleared,
    pushback, taxi, departing, airborne); nor does a full report that says TAXI or DEPA
    about an aircraft that still departs from the airport and is not beyond the
    relevant distance. Full reports of two other kinds are excepted: one that says
    LINEUP falls back on the clearance and can move the strip from the taxiway to
    CLEARED, and one about an aircraft too far away hides the strip. *)
Theorem movement_never_goes_back `{GoMath} h strip c o i d :
  cx_Strip c = SnapshotOf (Some strip) → departs_locally h (SnapshotOf (Some strip)) o → stage (s_Bay strip) = Some i →
  ob_Kind o = GroundState ∧ ob_GroundState o ∈ [GroundStateTaxi; GroundStateLineup; GroundStateDepart] ∨
  ob_Kind o = FullFlight ∧ ob_GroundState o ∈ [GroundStateTaxi; GroundStateDepart] ∧ report_near h o →
  ekch_Observe h c o = Ok d →
  ∃ j, stage (bay_after (SnapshotOf (Some strip)) d) = Some j ∧ (i ≤ j)%nat.
Proof.
  intros Hc Hs Hi Ho Hd. unfold ekch_Observe in Hd. destruct Ho as [[Hk Ho]|(Hk & Ho & Hnear)]; rewrite Hk in Hd.
  - destruct (_ && _); [injection Hd as <-; by exists i|]. rewrite Hc, stored_existing in Hd. injection Hd as <-.
    exact (never_back_ground h _ o i _ _ (stored_existing strip) (proj1 Hs) Hi Ho).
  - injection Hd as <-. pose proof (never_back_sync h _ o i (cx_GroundOnline c) _ (stored_existing strip) (stored_known strip) Hs Hnear Hi Ho) as (j & Hj & Hle).
    destruct (full_flight_bays h strip c o Hc) as [->|[_ ->]]; [eauto|]. by exists i.
Qed.

(** C22: For a departure that is not beyond the relevant distance, whose reported ground state
    differs from the stored one, a full report and a report of the ground state alone
    move the strip to the same bay when the state is PUSH, TAXI or DEPA; a strip in
    the bay DEPART must not be above the altitude of a departure, since only the full
    report tells that it is airborne. They do not agree for LINEUP: a full report does
    not read that state, and moves a strip that does not yet lie at the runway to the
    bay of its clearance, even back from the taxiway, where the report of the ground
    state moves it to the runway. *)
Theorem full_and_state_reports_agree `{GoMath} h strip c o dfull dstate :
  cx_Strip c = SnapshotOf (Some strip) → departs_locally h (SnapshotOf (Some strip)) o → report_near h o → s_State strip ≠ Some (ob_GroundState o) →
  ekch_Observe h c (only_state o FullFlight) = Ok dfull → ekch_Observe h c (only_state o GroundState) = Ok dstate →
  (ob_GroundState o ∈ [GroundStatePush; GroundStateTaxi; GroundStateDepart] → (s_Bay strip = BAY_DEPART → low h o) →
     bay_after (SnapshotOf (Some strip)) dfull = bay_after (SnapshotOf (Some strip)) dstate) ∧
  (ob_GroundState o = GroundStateLineup → s_Bay strip ∉ [BAY_HIDDEN_DEP; BAY_HIDDEN; BAY_AIRBORNE; BAY_DEPART] →
     bay_after (SnapshotOf (Some strip)) dstate = BAY_DEPART ∧
     (ob_Cleared o = true → bay_after (SnapshotOf (Some strip)) dfull =
        if hasKnownPosition (ob_Latitude o) (ob_Longitude o) && (airborne_above (ek_geography h) (ek_airborneAGL h) <=? ob_Altitude o) then BAY_AIRBORNE else BAY_CLEARED)).
Proof.
  intros Hc Hs Hnear Hnews Hf Hg. injection Hf as <-.
  rewrite (ground_report_bay h strip c (only_state o GroundState) dstate Hc eq_refl (proj1 Hs) Hg). cbn [only_state ob_GroundState]. split.
  - intros Ho Hlow.
    pose proof (movement_bays_agree h _ o (cx_GroundOnline c) _ (stored_existing strip) (stored_known strip) Hs Hnear Hlow Ho Hnews) as Hagree.
    apply full_flight_bay; [done|exact Hagree|]. apply ground_movement_cleared; [|exact (proj1 Hs)]. revert Ho. rewrite !elem_of_cons. tauto.
  - intros Ho Hb. destruct Hs as [Hl Hs]. rewrite stored_existing in Hs.
    assert (Hr : reconciled_state (SnapshotOf (Some strip)) o = GroundStateLineup).
    { rewrite reconciled_plain; [done|by rewrite Ho|by rewrite Ho]. }
    pose proof (lineup_unread (ek_airport h) (ek_geography h) (ek_airborneAGL h) (cx_GroundOnline c) _ _ Hs Hnear Hr ltac:(by rewrite Ho in Hnews) Hb) as Hbay.
    split.
    + rewrite !not_elem_of_cons in Hb. destruct Hb as (H1 & H2 & H3 & H4 & _). destruct Hl as [Hl1 Hl2]. cbn [sn_Origin sn_Destination SnapshotOf] in Hl1, Hl2.
      unfold GetDepartureBayFromGroundState. cbv zeta. cbn [stored_strip db_Destination db_Origin db_Bay]. rewrite Hl1, Hl2, Ho.
      by rewrite (proj2 (str_eqb_neq _ _) H1), (proj2 (str_eqb_neq _ _) H2), (proj2 (str_eqb_neq _ _) H3), (proj2 (str_eqb_neq _ _) H4).
    + intros Hcl. unfold bay_of_clearance in Hbay. cbn [reported_strip es_Cleared GetPosition es_Position GetLat GetLon GetAltitude] in Hbay. rewrite Hcl in Hbay.
      apply full_flight_bay; [done| |].
      * etransitivity; [exact Hbay|]. cbn [negb]. destruct (hasKnownPosition _ _); [|done]. cbn [negb andb].
        destruct (Z.ltb_spec (ob_Altitude o) (airborne_above (ek_geography h) (ek_airborneAGL h))), (Z.leb_spec (airborne_above (ek_geography h) (ek_airborneAGL h)) (ob_Altitude o)); done || lia.
      * by destruct (_ && _).
Qed.

(** ** Moves of a controller and their echo *)

Lemma isLocalAirport_refl airport : isLocalAirport airport airport = true.
Proof. apply str_eqb_refl. Qed.

(** What an accepted move of a departure asks for *)
Lemma departure_move h c a dec :
  sn_Origin (cx_Strip c) = ek_airport h → ekch_move h c a = Ok dec →
  de_Bay dec = Some (mv_Bay a) ∧
  (∀ v, de_Cleared dec = Some v → mv_Bay a ∈ [BAY_NOT_CLEARED; BAY_CLEARED] ∧ v = str_eqb (mv_Bay a) BAY_CLEARED) ∧
  (∀ g, de_GroundState dec = Some g → de_Cleared dec = None ∧ g = GetGroundState (mv_Bay a) ∧ mv_Bay a ∈ [BAY_PUSH; BAY_TAXI; BAY_TAXI_LWR; BAY_TAXI_TWR; BAY_DEPART]).
Proof.
  intros Ho Hm. unfold ekch_move in Hm. cbv zeta in Hm. do 5 (apply bind_ok in Hm as (? & _ & Hm)). injection Hm as <-.
  destruct (str_eqb (mv_Bay a) BAY_NOT_CLEARED || str_eqb (mv_Bay a) BAY_CLEARED) eqn:Hcl.
  { split; [done|]. split; [|done]. intros v [= <-]. split; [|done]. rewrite !elem_of_cons.
    apply orb_true_iff in Hcl as [->%str_eqb_eq| ->%str_eqb_eq]; tauto. }
  split; [done|]. split; [done|]. intros g Hg. split; [done|]. cbn [de_GroundState move_to] in Hg. unfold ekch_moveState in Hg. cbv zeta in Hg.
  rewrite Ho, str_eqb_refl in Hg. destruct (negb _ && negb (str_eqb (mv_Bay a) BAY_STAND)) eqn:Hs; [|done]. injection Hg as <-. split; [done|].
  apply andb_true_iff in Hs as [Hknown Hstand]. unfold GetGroundState in Hknown.
  destruct (str_eqb (mv_Bay a) BAY_PUSH) eqn:E1; [apply str_eqb_eq in E1 as ->; listed|].
  destruct (str_eqb (mv_Bay a) BAY_TAXI) eqn:E2; [apply str_eqb_eq in E2 as ->; listed|].
  destruct (str_eqb (mv_Bay a) BAY_TAXI_LWR) eqn:E3; [apply str_eqb_eq in E3 as ->; listed|].
  destruct (str_eqb (mv_Bay a) BAY_TAXI_TWR) eqn:E4; [apply str_eqb_eq in E4 as ->; listed|].
  destruct (str_eqb (mv_Bay a) BAY_DEPART) eqn:E5; [apply str_eqb_eq in E5 as ->; listed|].
  cbn in Hknown. by destruct (str_eqb (mv_Bay a) BAY_STAND).
Qed.

(** A strip whose stored state is that of its bay stays there when the state is reported. *)
Lemma echo_ground h strip g gnd :
  local_departure (ek_airport h) (s_Origin strip) (s_Destination strip) → s_Bay strip ∈ [BAY_PUSH; BAY_TAXI; BAY_TAXI_LWR; BAY_TAXI_TWR; BAY_DEPART] →
  g = GetGroundState (s_Bay strip) → (s_Bay strip = BAY_TAXI → gnd = true) →
  GetDepartureBayFromGroundState g (stored_strip strip) (ek_airport h) gnd = s_Bay strip.
Proof.
  intros [Ho Hl] Hb -> Hgnd. unfold GetDepartureBayFromGroundState. cbv zeta. cbn [stored_strip db_Destination db_Origin db_Bay]. rewrite Ho, Hl.
  rewrite !elem_of_cons, elem_of_nil in Hb. destruct Hb as [Hb|[Hb|[Hb|[Hb|[Hb|[]]]]]]; rewrite Hb in *; try done. by rewrite Hgnd.
Qed.

Lemma echo_sync `{GoMath} h strip o gnd :
  departs_locally h (SnapshotOf (Some strip)) o → report_near h o → s_Bay strip ∈ [BAY_PUSH; BAY_TAXI; BAY_TAXI_LWR; BAY_TAXI_TWR; BAY_DEPART] →
  s_State strip = Some (GetGroundState (s_Bay strip)) → ob_GroundState o = GetGroundState (s_Bay strip) →
  GetDepartureBayAt (reported_strip (SnapshotOf (Some strip)) o) (Some (stored_strip strip)) (ek_airborneAGL h) (ek_airport h) gnd (ek_geography h) = s_Bay strip.
Proof.
  intros Hs Hnear Hb Hst Ho. rewrite (sync_departure_bay h _ o gnd _ (stored_existing strip) Hs Hnear).
  unfold local_departure_bay. cbv zeta. unfold report_near, near in Hnear. unfold reported_strip at 1 2 3 4. cbn [GetPosition es_Position]. rewrite Hnear.
  assert (Hr : reconciled_state (SnapshotOf (Some strip)) o = GetGroundState (s_Bay strip)).
  { rewrite reconciled_plain; [done| |]; rewrite Ho; rewrite !elem_of_cons, elem_of_nil in Hb; cbn [sn_Bay SnapshotOf];
      destruct Hb as [Hb|[Hb|[Hb|[Hb|[Hb|[]]]]]]; rewrite Hb; try done; intros _; rewrite !not_elem_of_cons; auto using not_elem_of_nil. }
  unfold existing_in_bay, keeps_bay. cbn [stored_strip db_Bay db_State opt_test es_GroundState reported_strip]. rewrite Hr, Hst. cbn [opt_test]. rewrite str_eqb_refl.
  rewrite !elem_of_cons, elem_of_nil in Hb. destruct Hb as [Hb|[Hb|[Hb|[Hb|[Hb|[]]]]]]; by rewrite Hb.
Qed.

(** What a move writes *)
Section persisted.
Context (assumed : BoardStrip → option string).
Implicit Types (s : BoardStrip).

Lemma resetStartReq_keeps bay s :
  let s' := resetStartReq bay s in
  s_Bay s' = s_Bay s ∧ s_State s' = s_State s ∧ s_Cleared s' = s_Cleared s ∧ s_Origin s' = s_Origin s ∧ s_Destination s' = s_Destination s.
Proof. unfold resetStartReq, setStartReqState. cbv zeta. by repeat case_match. Qed.

Lemma cleared_flag_written v bay clearOwner s :
  let s' := applyClearedFlagForMoveWithOptions assumed v bay clearOwner true s in
  s_Bay s' = bay ∧ s_Cleared s' = v ∧ s_Origin s' = s_Origin s ∧ s_Destination s' = s_Destination s.
Proof.
  unfold applyClearedFlagForMoveWithOptions, clearOwnerForNotCleared, AutoAssumeForClearedStripByCid. cbv zeta. by repeat case_match.
Qed.

Lemma persist_move_written d s :
  let s' := persist_move assumed d s in
  s_Bay s' = default (s_Bay s) (de_Bay d) ∧ s_Origin s' = s_Origin s ∧ s_Destination s' = s_Destination s ∧
  (∀ v, de_Cleared d = Some v → s_Cleared s' = v) ∧
  (∀ g, de_Cleared d = None → de_GroundState d = Some g → g ≠ ""%string → s_State s' = Some g).
Proof.
  cbv zeta. unfold persist_move. cbv zeta. destruct (str_eqb (s_Bay s) _ && _ && _) eqn:E.
  - apply andb_true_iff in E as [[E1%str_eqb_eq E2%negb_true_iff]%andb_true_iff E3%negb_true_iff]. split_and!; [done..| |].
    + intros v Hv. rewrite Hv in E2. cbn [opt_test] in E2. by destruct v, (s_Cleared s).
    + intros g _ Hg Hne. rewrite Hg in E3. cbn [opt_test] in E3. apply negb_false_iff, str_eqb_eq in E3. destruct (s_State s); simpl in *; congruence.
  - set (target := default (s_Bay s) (de_Bay d)).
    assert (Happly : let s' := applyFrontendMoveDecision assumed d s in
      s_Bay s' = s_Bay s ∧ s_Origin s' = s_Origin s ∧ s_Destination s' = s_Destination s ∧ (∀ v, de_Cleared d = Some v → s_Cleared s' = v) ∧
      (∀ g, de_Cleared d = None → de_GroundState d = Some g → s_State s' = Some g)).
    { cbv zeta. unfold applyFrontendMoveDecision. destruct (de_Cleared d) as [v|].
      - destruct (cleared_flag_written v (s_Bay s) (negb v) s) as (H1 & H2 & H3 & H4). split_and!; [done..| |done]. by intros ? [= <-].
      - unfold updateGroundStateForMoveWithOptions. cbv zeta. destruct (resetStartReq_keeps (default (s_Bay s) (de_Bay d)) s) as (H1 & H2 & H3 & H4 & H5).
        cbn. split_and!; [done..|]. by intros g _ ->. }
    cbv zeta in Happly. destruct Happly as (H1 & H2 & H3 & H4 & H5). destruct (str_eqb (s_Bay s) target) eqn:Eb.
    + apply str_eqb_eq in Eb. split_and!; [congruence|done|done|done|]. intros g Hc Hg _. by apply H5.
    + unfold MoveToBay. destruct (resetStartReq_keeps target (applyFrontendMoveDecision assumed d s)) as (K1 & K2 & K3 & K4 & K5). cbn.
      rewrite K2, K3, K4, K5. split_and!; [done..|]. intros g Hc Hg _. by apply H5.
Qed.
End persisted.

(** C23: A move of a departure survives what EuroScope answers to it. The move leaves
    the strip in the bay it names. When it sends a ground state, the strip stays there
    when that state is reported back: by itself, except that the report of TAXI alone
    moves a strip from the upper taxiway to the lower one while no ground control is on
    line; or in a full report about an aircraft that departs from the airport and is
    known not to be beyond the relevant distance. When it sends a cleared flag, the
    report of that flag is ignored. *)
Theorem move_survives_its_echo `{GoMath} h assumed strip c a dec :
  cx_Strip c = SnapshotOf (Some strip) → s_Origin strip = ek_airport h → isLocalAirport (s_Destination strip) (ek_airport h) = false →
  ekch_move h c a = Ok dec →
  let moved := SnapshotOf (Some (persist_move assumed dec strip)) in
  sn_Bay moved = mv_Bay a ∧
  (∀ g c' o d, de_GroundState dec = Some g → cx_Strip c' = moved → ob_GroundState o = g →
     ob_Kind o = GroundState ∧ (mv_Bay a = BAY_TAXI → cx_GroundOnline c' = true) ∨ ob_Kind o = FullFlight ∧ departs_locally h moved o ∧ report_near h o →
     ekch_Observe h c' o = Ok d → bay_after moved d = mv_Bay a) ∧
  (∀ v c' o d, de_Cleared dec = Some v → cx_Strip c' = moved → ob_Kind o = ClearedFlag → ob_Cleared o = v →
     ekch_Observe h c' o = Ok d → de_Ignore d = true ∧ bay_after moved d = mv_Bay a).
Proof.
  intros Hc Ho Hl Hm. pose proof (persist_move_written assumed dec strip) as Hw. set (strip' := persist_move assumed dec strip) in *. cbv zeta in *.
  destruct Hw as (Wb & Wo & Wd & Wc & Ws).
  destruct (departure_move h c a dec) as (Hbay & Hcleared & Hstate); [by rewrite Hc|done|].
  assert (Hb' : s_Bay strip' = mv_Bay a) by (by rewrite Wb, Hbay). split; [exact Hb'|].
  assert (Hloc : local_departure (ek_airport h) (s_Origin strip') (s_Destination strip')).
  { rewrite Wo, Wd. split; [|exact Hl]. rewrite Ho. apply isLocalAirport_refl. }
  split.
  - intros g c' o d Hg Hc' Hog Hkind Hd. destruct (Hstate g Hg) as (Hnone & Heq & Hin).
    assert (Hin' : s_Bay strip' ∈ [BAY_PUSH; BAY_TAXI; BAY_TAXI_LWR; BAY_TAXI_TWR; BAY_DEPART]) by (by rewrite Hb').
    assert (Hst : s_State strip' = Some (GetGroundState (s_Bay strip'))).
    { rewrite Hb', <-Heq. apply Ws; [done|done|]. rewrite Heq. rewrite !elem_of_cons, elem_of_nil in Hin.
      destruct Hin as [->|[->|[->|[->|[->|[]]]]]]; discriminate. }
    destruct Hkind as [[Hk Hgnd]|(Hk & Hs & Hnear)].
    + rewrite (ground_report_bay h strip' c' o d Hc' Hk Hloc Hd), <-Hb'. apply echo_ground; [done|done|by rewrite Hog, Heq, Hb'|by rewrite Hb'].
    + unfold ekch_Observe in Hd. rewrite Hk in Hd. injection Hd as <-. rewrite <-Hb'. apply full_flight_bay; [done| |].
      * apply echo_sync; [done|done|done|done|]. by rewrite Hog, Heq, Hb'.
      * rewrite !elem_of_cons, elem_of_nil in Hin'. destruct Hin' as [->|[->|[->|[->|[->|[]]]]]]; discriminate.
  - intros v c' o d Hv Hc' Hk Hov Hd. unfold ekch_Observe, ekch_cleared_flag in Hd. rewrite Hk, Hc' in Hd.
    assert (Hcl : sn_Cleared (SnapshotOf (Some strip')) = v) by (by apply Wc). rewrite Hov, Hcl, Bool.eqb_reflx in Hd. injection Hd as <-. split; [done|exact Hb'].
Qed.

(** ** Which moves are accepted *)

Lemma validate_move b c bay state cleared :
  in_scope b c → cx_Source c ∈ [HumanSource; AutomaticSource] → (∀ s, state = Some s → s ∈ ground_states ∧ cleared = None) →
  Bound_Validate b c (move_to bay state cleared) = Ok tt ↔ bay ∈ b_bays b.
Proof.
  intros Hc Hs Hst. unfold Bound_Validate. cbv zeta. rewrite (scope_ok b c Hc). cbn [de_Visibility de_Annotations de_Admission de_ConnectedFlights move_to not_nil is_nil negb andb if_some opt_test de_GroundState de_Cleared de_Touchdown de_ReconciledGroundState de_ReconciledCleared de_Bay].
  assert (H1 : opt_test (λ s, negb (contains ground_states s)) state = false).
  { destruct state as [s|]; [|done]. destruct (Hst s eq_refl) as [Hin _]. cbn [opt_test]. apply negb_false_iff. by apply contains_iff. }
  assert (H2 : not_nil state && not_nil cleared = false).
  { destruct state as [s|]; [|done]. destruct (Hst s eq_refl) as [_ ->]. done. }
  rewrite H1, H2. unfold HasBay. rewrite !elem_of_cons, elem_of_nil in Hs.
  destruct Hs as [->|[->|[]]]; cbn; destruct (bool_decide (bay ∈ b_bays b)) eqn:E; cbn;
    rewrite ?andb_false_r; [apply bool_decide_eq_true in E|apply bool_decide_eq_false in E|apply bool_decide_eq_true in E|apply bool_decide_eq_false in E]; done.
Qed.

Lemma ground_state_known bay : GetGroundState bay ∈ ground_states.
Proof. unfold GetGroundState. repeat case_match; listed. Qed.

Lemma move_state_known h c a s : de_GroundState (ekch_moveState h c a) = Some s →
  s ∈ ground_states ∧ s = if str_eqb (sn_Origin (cx_Strip c)) (ek_airport h) then GetGroundState (mv_Bay a) else GroundStateParked.
Proof.
  unfold ekch_moveState. cbv zeta. destruct (str_eqb (sn_Origin _) _).
  - destruct (_ && _); [|done]. intros [= <-]. split; [apply ground_state_known|done].
  - destruct (_ && _); [|done]. intros [= <-]. split; [listed|done].
Qed.

(** The conditions under which a controller may move a strip to a bay *)
Definition move_allowed (h : ekch) (s : WorkflowSnapshot) (a : Move) : Prop :=
  (mv_Bay a ∉ [BAY_UNKNOWN; BAY_HIDDEN_DEP; BAY_DEP_HIDDEN]) ∧
  (mv_ConfirmedRemoval a = true → mv_Bay a = BAY_HIDDEN) ∧
  (mv_Clearance a = true → mv_Bay a = BAY_CLEARED) ∧
  (sn_Bay s = BAY_NOT_CLEARED → mv_Bay a ∈ [BAY_NOT_CLEARED; BAY_HIDDEN] ∨ mv_Clearance a = true) ∧
  (sn_Destination s = ek_airport h → sn_Origin s ≠ ek_airport h → mv_Bay a ≠ BAY_NOT_CLEARED).

Lemma move_guards h c a : is_ok (ekch_move h c a) = true ↔ move_allowed h (cx_Strip c) a.
Proof.
  unfold ekch_move, move_allowed. cbv zeta. rewrite !not_elem_of_cons, !elem_of_cons, elem_of_nil, <-!str_eqb_neq, <-!str_eqb_eq.
  destruct (str_eqb (mv_Bay a) BAY_UNKNOWN) eqn:E1; [cbn; split; [done|by intros [[? _] _]]|].
  destruct (str_eqb (mv_Bay a) BAY_HIDDEN_DEP) eqn:E2; [cbn; split; [done|by intros [(_ & ? & _) _]]|].
  destruct (str_eqb (mv_Bay a) BAY_DEP_HIDDEN) eqn:E3; [cbn; split; [done|by intros [(_ & _ & ? & _) _]]|].
  destruct (mv_ConfirmedRemoval a), (mv_Clearance a), (str_eqb (mv_Bay a) BAY_HIDDEN), (str_eqb (mv_Bay a) BAY_CLEARED), (str_eqb (mv_Bay a) BAY_NOT_CLEARED),
    (str_eqb (sn_Bay (cx_Strip c)) BAY_NOT_CLEARED), (str_eqb (sn_Destination (cx_Strip c)) (ek_airport h)), (str_eqb (sn_Origin (cx_Strip c)) (ek_airport h));
    cbn; split; try done; try (intros _; repeat split; auto using not_elem_of_nil; discriminate); intros (_ & G1 & G2 & G3 & G4); naive_solver.
Qed.

(** The form of the decision of a move *)
Lemma move_form h c a dec : ekch_move h c a = Ok dec → ∃ state cleared, dec = move_to (mv_Bay a) state cleared ∧
  (cleared = if str_eqb (mv_Bay a) BAY_NOT_CLEARED || str_eqb (mv_Bay a) BAY_CLEARED then Some (str_eqb (mv_Bay a) BAY_CLEARED) else None) ∧
  ∀ g, state = Some g → cleared = None ∧ g ∈ ground_states ∧ g ≠ GroundStateUnknown ∧
    g = if str_eqb (sn_Origin (cx_Strip c)) (ek_airport h) then GetGroundState (mv_Bay a) else GroundStateParked.
Proof.
  intros Hm. unfold ekch_move in Hm. cbv zeta in Hm. do 5 (apply bind_ok in Hm as (? & _ & Hm)). injection Hm as <-.
  destruct (str_eqb (mv_Bay a) BAY_NOT_CLEARED || _); [by eexists None, _|]. eexists _, None. split; [done|]. split; [done|].
  intros g Hg. destruct (move_state_known h c a g Hg) as [Hin Hv]. repeat split; [done| |done].
  unfold ekch_moveState in Hg. cbv zeta in Hg. destruct (str_eqb (sn_Origin _) _).
  - destruct (_ && _) eqn:Hs; [|done]. injection Hg as <-. apply andb_true_iff in Hs as [Hs _]. by apply negb_true_iff, str_eqb_neq in Hs.
  - destruct (_ && _); [|done]. by injection Hg as <-.
Qed.

(** A controller's move at Copenhagen is accepted exactly for a bay of the airport
    and under the conditions of [move_allowed]: in particular a strip leaves the bay
    of strips that are not cleared only by a clearance or when it is hidden, and no
    arrival is put there. The decision names the bay, and then either the cleared flag,
    exactly for the two bays of clearances, or at most the ground state of the bay, or
    PARK for an arrival at its stand. *)
Theorem move_accepted_iff `{GoMath} d settings c a :
  let b := ekch_bound d settings in let h := ekch_handler d settings in
  in_scope b c → cx_Source c ∈ [HumanSource; AutomaticSource] →
  (is_ok (Bound_Action b c "strip.move" (RequestMove a)) = true ↔ mv_Bay a ∈ b_bays b ∧ move_allowed h (cx_Strip c) a) ∧
  ∀ dec, Bound_Action b c "strip.move" (RequestMove a) = Ok dec →
    ∃ state cleared, dec = move_to (mv_Bay a) state cleared ∧
      (cleared = if str_eqb (mv_Bay a) BAY_NOT_CLEARED || str_eqb (mv_Bay a) BAY_CLEARED then Some (str_eqb (mv_Bay a) BAY_CLEARED) else None) ∧
      ∀ g, state = Some g → cleared = None ∧ g ≠ GroundStateUnknown ∧
        g = if str_eqb (sn_Origin (cx_Strip c)) (ek_airport h) then GetGroundState (mv_Bay a) else GroundStateParked.
Proof.
  intros b h Hc Hs.
  assert (Hrun : Bound_Action b c "strip.move" (RequestMove a) =
    let c := mk_context (cx_Now c) (cx_Session c) (Some (def_address (b_definition b))) (cx_Source c) (cx_Strip c) (cx_GroundOnline c) in
    dec ← ekch_move h c a; Bound_Validate b c dec;; Ok dec).
  { unfold Bound_Action. rewrite (scope_ok b c Hc). cbn [mbind outcome_bind]. cbn [cx_Source]. rewrite (proj2 (guard_err_iff _ _)); [reflexivity|].
    rewrite !elem_of_cons, elem_of_nil in Hs. by destruct Hs as [->|[->|[]]]. }
  set (c' := mk_context (cx_Now c) (cx_Session c) (Some (def_address (b_definition b))) (cx_Source c) (cx_Strip c) (cx_GroundOnline c)) in *.
  assert (Hc' : in_scope b c') by apply scope_reentrant, Hc. assert (Hs' : cx_Source c' ∈ [HumanSource; AutomaticSource]) by exact Hs.
  pose proof (move_form h c' a) as Hform.
  rewrite Hrun. cbv zeta. split.
  - pose proof (move_guards h c' a) as Hg. destruct (ekch_move h c' a) as [dec| | |] eqn:Hm; cbn [is_ok mbind outcome_bind] in Hg |- *; [|split; [done|intros [_ Ha]; by apply Hg in Ha]..].
    destruct (Hform dec eq_refl) as (state & cleared & -> & Hcl & Hst).
    pose proof (validate_move b c' (mv_Bay a) state cleared Hc' Hs') as Hv. rewrite <-Hv by (intros g Hgs; destruct (Hst g Hgs) as (? & ? & _); auto).
    destruct (Bound_Validate b c' _) as [[]| | |]; cbn [is_ok mbind outcome_bind]; split; try done; [intros _; split; [done|by apply Hg]|by intros [? _]..].
  - intros dec Hdec. apply bind_ok in Hdec as (dec' & Hm & Hdec). apply bind_ok in Hdec as (u & _ & Hdec). injection Hdec as <-.
    destruct (Hform dec' Hm) as (state & cleared & -> & Hcl & Hst). exists state, cleared. split; [done|]. split; [done|]. intros g Hg.
    destruct (Hst g Hg) as (? & _ & ? & ?). auto.
Qed.

(** ** Who sequences departures *)

(** The first name of an ordered list that passes a test is the least one that does. *)
Lemma find_least (P : string → bool) k : chain (λ a b, str_ltb b a = false) k →
  match find P k with
  | Some p => p ∈ k ∧ P p = true ∧ ∀ q, q ∈ k → P q = true → str_ltb q p = false
  | None => ∀ q, q ∈ k → P q = false
  end.
Proof.
  intros Hch. induction k as [|x k IH]; [by intros q ?%elem_of_nil|]. cbn [find].
  specialize (IH (chain_tail _ _ _ Hch)). destruct (P x) eqn:Hx.
  - split; [by left|]. split; [done|]. intros q Hq _. apply elem_of_cons in Hq as [->|Hq]; [apply str_ltb_irrefl|].
    apply list_elem_of_lookup in Hq as [j Hj].
    apply (chain_trans_lookup (λ a b, str_ltb b a = false) (x :: k) 0 (S j)); [|done|lia|done|done]. intros a b c H1 H2. by apply (str_ltb_false_trans a b c).
  - destruct (find P k) as [p|].
    + destruct IH as (Hp & HP & Hmin). split; [by right|]. split; [done|]. intros q [->|Hq]%elem_of_cons HPq; [congruence|by apply Hmin].
    + intros q [->|Hq]%elem_of_cons; [done|by apply IH].
Qed.

Lemma find_sorted_least (P : string → bool) l :
  match find P (sort_slice str_ltb l) with
  | Some p => p ∈ l ∧ P p = true ∧ ∀ q, q ∈ l → P q = true → str_ltb q p = false
  | None => ∀ q, q ∈ l → P q = false
  end.
Proof.
  assert (Hch : chain (λ a b, str_ltb b a = false) (sort_slice str_ltb l)) by (apply sort_slice_adj; intros; by apply str_ltb_asym).
  pose proof (find_least P _ Hch) as Hf. destruct (find P _) as [p|].
  - destruct Hf as (Hp & HP & Hmin). split; [by apply elem_of_sort_slice in Hp|]. split; [done|]. intros q Hq. apply Hmin. by apply elem_of_sort_slice.
  - intros q Hq. apply Hf. by apply elem_of_sort_slice.
Qed.

(** [p] sequences departures on frequency [f]: the position primed on it or, when there
    is none, the least one that carries it *)
Definition owns_frequency (coverage : gmap string (list string)) (f p : string) : Prop :=
  p ≠ ""%string ∧
  (is_Some (coverage !! f) ∧ p = f ∨
   coverage !! f = None ∧ (∃ carried, coverage !! p = Some carried ∧ f ∈ carried) ∧
   ∀ q carried, coverage !! q = Some carried → f ∈ carried → str_ltb q p = false).

Lemma frequency_owner_iff coverage f p :
  p ≠ ""%string → frequency_owner coverage (sort_slice str_ltb (map_to_list coverage).*1) f = p ↔ owns_frequency coverage f p.
Proof.
  intros Hp. unfold frequency_owner, owns_frequency. destruct (coverage !! f) as [carried|] eqn:Hf.
  { split; [intros <-; by eauto|]. by intros [_ [[_ ->]|[? _]]]. }
  pose proof (find_sorted_least (λ primary, contains (default [] (coverage !! primary)) f) (map_to_list coverage).*1) as Hfind.
  assert (Hkey : ∀ q carried, coverage !! q = Some carried → q ∈ (map_to_list coverage).*1).
  { intros q carried Hq. apply list_elem_of_fmap. exists (q, carried). split; [done|]. by apply elem_of_map_to_list. }
  destruct (find _ _) as [p'|]; cbn [default].
  - destruct Hfind as (Hin & Hcar & Hmin). destruct (coverage !! p') as [carried|] eqn:Hp'; [|done]. apply contains_iff in Hcar. split.
    + intros <-. split; [done|]. right. split; [done|]. split; [eauto|]. intros q c Hq Hfc. apply (Hmin q); [by apply (Hkey q c)|]. rewrite Hq. by apply contains_iff.
    + intros [_ [[[? ?] _]|(_ & (c & Hc & Hfc) & Hleast)]]; [done|]. apply str_ltb_total.
      * by apply (Hleast p' carried).
      * apply (Hmin p); [by apply (Hkey p c)|]. rewrite Hc. by apply contains_iff.
  - split; [by intros <-|]. intros [_ [[[? ?] _]|(_ & (c & Hc & Hfc) & _)]]; [done|]. exfalso.
    specialize (Hfind p (Hkey p c Hc)). change (contains (default [] (coverage !! p)) f = false) in Hfind. rewrite Hc in Hfind. apply contains_iff in Hfc. cbn [default id] in Hfind. congruence.
Qed.

(** The position that sequences departures is determined by the coverage alone, not
    by the order of the map it is in: it owns the first of the handler's frequencies
    that anybody owns, being primed on it or the least of those who carry it; and when
    nobody owns any, there is none. *)
Theorem sequence_owner_first h c a r :
  co_Sequence a = true → ekch_Coordinate h c a = Ok r →
  (cd_SequenceOwner r = ""%string ∧ ∀ f p, f ∈ ek_sequenceFrequencies h → ¬ owns_frequency (co_Coverage a) f p) ∨
  (∃ l1 l2, ek_sequenceFrequencies h = l1 ++ cd_SequenceFrequency r :: l2 ∧ owns_frequency (co_Coverage a) (cd_SequenceFrequency r) (cd_SequenceOwner r) ∧
     ∀ f p, f ∈ l1 → ¬ owns_frequency (co_Coverage a) f p).
Proof.
  intros Ha Hr. unfold ekch_Coordinate in Hr. cbv zeta in Hr. rewrite Ha in Hr. injection Hr as <-.
  induction (ek_sequenceFrequencies h) as [|f l IH]; cbn [sequence_owner].
  { left. split; [done|]. by intros f p ?%elem_of_nil. }
  destruct (str_empty (frequency_owner (co_Coverage a) _ f)) eqn:He; cbn [negb].
  - assert (Hno : ∀ p, ¬ owns_frequency (co_Coverage a) f p).
    { intros p Hown. pose proof (proj1 Hown) as Hne. apply frequency_owner_iff in Hown; [|done]. apply str_eqb_eq in He. congruence. }
    destruct IH as [[Howner Hnone]|(l1 & l2 & Hl & Hown & Hnone)]; [left|right].
    + split; [done|]. intros f' p [->|Hf]%elem_of_cons; [apply Hno|by apply Hnone].
    + exists (f :: l1), l2. split; [by rewrite Hl at 1|]. split; [done|]. intros f' p [->|Hf]%elem_of_cons; [apply Hno|by apply Hnone].
  - right. exists [], l. split; [done|]. cbn [cd_SequenceFrequency cd_SequenceOwner]. split; [|by intros f' p ?%elem_of_nil].
    apply frequency_owner_iff; [|done]. by apply str_eqb_neq.
Qed.

(** ** Concrete reports and moves *)

Lemma registry_answers_reports_witness :
  let definitions := <["EKCH"%string := kastrup]> (<["EKYT"%string := ekyt]> ∅) in
  ∃ r, NewRegistry (Some definitions) (compiled_descriptors (H := flat_math)) = Ok r ∧ ∀ airport,
    match definitions !! airport with
    | Some d => ∃ b, r !! airport = Some b ∧ b_definition b = d ∧ answers_all b
    | None => r !! airport = None
    end.
Proof.
  cbv zeta. apply (registry_answers_reports (H := flat_math)). intros airport d Hd.
  apply lookup_insert_Some in Hd as [[_ <-]|[_ Hd]].
  { exists EKCHConfig. split; [by left|exact ekch_accepted]. }
  apply lookup_insert_Some in Hd as [[_ <-]|[_ Hd]]; [|by rewrite lookup_empty in Hd].
  exists RADISConfig. split; [by right; left|exact ekyt_accepted].
Defined.

(** An aircraft lined up while its stale report still says that it taxies *)
Lemma movement_never_goes_back_witness :
  let strip := kastrup_departure BAY_DEPART (Some GroundStateLineup) true in let o := kastrup_report FullFlight GroundStateTaxi in
  ∃ d j, ekch_Observe (H := flat_math) ekch_h (kastrup_context strip) o = Ok d ∧ stage (bay_after (SnapshotOf (Some strip)) d) = Some j ∧ (6 ≤ j)%nat.
Proof.
  intros strip o. eexists. edestruct (movement_never_goes_back (H := flat_math) ekch_h strip (kastrup_context strip) o 6) as (j & Hj & Hle);
    [done|by vm_compute|by vm_compute| |reflexivity|].
  - right. split; [done|]. split; [listed|by vm_compute].
  - exists j. split; [reflexivity|]. split; [exact Hj|exact Hle].
Defined.

(** The two reports of an aircraft that lines up, while its strip is on the taxiway *)
Lemma full_and_state_reports_agree_witness :
  let strip := kastrup_departure BAY_TAXI (Some GroundStateTaxi) true in let s := SnapshotOf (Some strip) in let c := kastrup_context strip in
  let full state := ekch_Observe (H := flat_math) ekch_h c (kastrup_report FullFlight state) in
  let ground state := ekch_Observe (H := flat_math) ekch_h c (kastrup_report GroundState state) in
  (∃ d1 d2, full GroundStateDepart = Ok d1 ∧ ground GroundStateDepart = Ok d2 ∧ bay_after s d1 = bay_after s d2) ∧
  (∃ d1 d2, full GroundStateLineup = Ok d1 ∧ ground GroundStateLineup = Ok d2 ∧ bay_after s d2 = BAY_DEPART ∧ bay_after s d1 = BAY_CLEARED).
Proof.
  intros strip s c full ground. split; eexists; eexists; (split; [reflexivity|]); (split; [reflexivity|]).
  - apply (proj1 (full_and_state_reports_agree (H := flat_math) ekch_h strip c (kastrup_report FullFlight GroundStateDepart) _ _ eq_refl
      ltac:(by vm_compute) ltac:(by vm_compute) ltac:(done) eq_refl eq_refl)); [listed|by vm_compute].
  - edestruct (proj2 (full_and_state_reports_agree (H := flat_math) ekch_h strip c (kastrup_report FullFlight GroundStateLineup) _ _ eq_refl
      ltac:(by vm_compute) ltac:(by vm_compute) ltac:(done) eq_refl eq_refl)) as [Hd Hf]; [done|listed|]. split; [exact Hd|]. exact (Hf eq_refl).
Defined.

(** No position assumes strips that were cleared. *)
Definition nobody : BoardStrip → option string := λ _, None.

Lemma move_survives_its_echo_witness :
  let strip := kastrup_departure BAY_CLEARED None true in let a := mk_move BAY_PUSH false false in
  ∃ dec, ekch_move ekch_h (kastrup_context strip) a = Ok dec ∧
    let moved := SnapshotOf (Some (persist_move nobody dec strip)) in
    sn_Bay moved = BAY_PUSH ∧
    ∀ d, ekch_Observe (H := flat_math) ekch_h (kastrup_context (persist_move nobody dec strip)) (kastrup_report FullFlight GroundStatePush) = Ok d →
      bay_after moved d = BAY_PUSH.
Proof.
  intros strip a. exists (move_to BAY_PUSH (Some GroundStatePush) None). split; [reflexivity|]. intros moved.
  destruct (move_survives_its_echo (H := flat_math) ekch_h nobody strip (kastrup_context strip) a (move_to BAY_PUSH (Some GroundStatePush) None)) as (Hb & Hecho & _); [done|done|done|reflexivity|].
  split; [exact Hb|]. intros d Hd. refine (Hecho GroundStatePush (kastrup_context (persist_move nobody (move_to BAY_PUSH (Some GroundStatePush) None) strip))
    (kastrup_report FullFlight GroundStatePush) d eq_refl eq_refl eq_refl _ Hd).
  right. split; [done|]. by vm_compute.
Defined.
