(* ===== verification/WorkflowBoardSafety.v ===== *)
(** * Theorems about the RADIS board

    What the operations of the board may do to the state of a strip is the relation
    [board_change]; every operation refines it. *)

From S2P Require Import Prelude GoTime GoFloat Bays AirportDefinition AirportWorkflow.
From S2P Require Import WorkflowRadis WorkflowBoard WorkflowEkch WorkflowFacts WorkflowExamples.
From stdpp Require Import gmap strings.
From Stdlib Require Import QArith Lqa.
From Stdlib Require Import Strings.Ascii Strings.String.

Local Open Scope Z_scope.

(** ** No flapping *)

(** A strip in a context, shown or removed *)
Definition with_removal (c : Context) (removed : option Time) (reason : string) : Context :=
  let s := cx_Strip c in
  mk_context (cx_Now c) (cx_Session c) (cx_Definition c) (cx_Source c)
    (mk_snapshot removed reason (sn_BoardMember s) (sn_Local s) (sn_HasFP s) (sn_Annotations s) (sn_GroundStateKnown s) (sn_Runway s) (sn_Landed s)
       (sn_EuroscopeSeen s) (sn_Exists s) (sn_Origin s) (sn_Destination s) (sn_Bay s) (sn_GroundState s) (sn_PDCState s) (sn_Cleared s))
    (cx_GroundOnline c).

Definition in_int32 (z : Z) : Prop := - 2 ^ 31 ≤ z < 2 ^ 31.

(** The bounds that an accepted document has: what is admitted is not removed. *)
Definition bounds_apart (s : RADISSettings) : Prop :=
  flt (RemovalDistanceNM s) (AdmissionDistanceNM s) = false ∧ DepartureAdmissionAGLFT s < DepartureRemovalAGLFT s ∧
  in_int32 (DepartureAdmissionAGLFT s) ∧ in_int32 (DepartureRemovalAGLFT s).

Lemma float_of_int_lt a b : in_int32 a → in_int32 b → a < b → (float_of_int a < float_of_int b)%Q.
Proof. unfold in_int32. intros Ha Hb Hab. rewrite !float_of_int_exact by lia. by rewrite <-Zlt_Qlt. Qed.

(** A place that admits a flight does not remove it. *)
Lemma admitted_stays `{GoMath} h c o :
  bounds_apart (ra_settings h) → let s := cx_Strip c in
  let origin := if str_empty (ob_Origin o) then sn_Origin s else ob_Origin o in
  sn_RemovedAt s = None → fle (radis_distance h (ob_Latitude o) (ob_Longitude o)) (AdmissionDistanceNM (ra_settings h)) = true →
  negb (str_eqb origin (ra_airport h)) || fle (radis_agl h (ob_Altitude o)) (float_of_int (DepartureAdmissionAGLFT (ra_settings h))) = true →
  radis_visibility h c o = None.
Proof.
  intros (Hdist & Hagl & Ha & Hr). cbv zeta. intros Hnone Hd Halt. unfold radis_visibility. cbv zeta. rewrite Hnone.
  destruct (negb (sn_BoardMember _) || _); [done|].
  assert (Hfar : flt (RemovalDistanceNM (ra_settings h)) (radis_distance h (ob_Latitude o) (ob_Longitude o)) = false).
  { apply flt_false. apply fle_iff in Hd. apply flt_false in Hdist. lra. }
  rewrite Hfar. destruct (str_eqb _ (ra_airport h)); [|done]. cbn [negb orb andb] in Halt |- *. apply fle_iff in Halt.
  pose proof (float_of_int_lt _ _ Ha Hr Hagl) as Hlt. rewrite (proj2 (fle_false _ _)); [done|lra].
Qed.

(** C24: The visibility of a RADIS strip does not flap. Under the bounds that the catalog
    demands, a report that makes a removed strip reappear would not remove it; a
    report that removes a strip does not make it reappear, whenever and for whatever
    reason it was removed; and a flight that is admitted where it is would not be
    removed there by its first report. *)
Theorem visibility_never_flaps `{GoMath} h c o removed reason :
  bounds_apart (ra_settings h) →
  (radis_visibility h (with_removal c (Some removed) reason) o ≠ None → radis_visibility h (with_removal c None "") o = None) ∧
  (radis_visibility h (with_removal c None "") o ≠ None → radis_visibility h (with_removal c (Some removed) reason) o = None) ∧
  ∀ l d, le_Kind l = Admission → sn_Exists (cx_Strip c) && sn_BoardMember (cx_Strip c) = false →
    radis_Lifecycle h c l = Ok d → ld_Admit d = true →
    ∀ c' o', sn_RemovedAt (cx_Strip c') = None → ob_Origin o' = le_Origin l → le_Origin l ≠ ""%string → ob_Latitude o' = le_Latitude l → ob_Longitude o' = le_Longitude l →
      ob_Altitude o' = le_Altitude l → radis_visibility h c' o' = None.
Proof.
  intros Hb.
  assert (Hflap : radis_visibility h (with_removal c (Some removed) reason) o ≠ None → radis_visibility h (with_removal c None "") o = None).
  { intros Hv. unfold radis_visibility in Hv. cbv zeta in Hv. cbn [with_removal cx_Strip sn_BoardMember sn_Local sn_HasFP sn_RemovedAt sn_Origin sn_RemovalReason cx_Now] in Hv.
    destruct (negb (sn_BoardMember (cx_Strip c)) || _); [done|]. destruct (_ && _) eqn:Hall; [|done].
    apply andb_true_iff in Hall as [Hall Halt]. apply andb_true_iff in Hall as [_ Hd].
    by apply admitted_stays. }
  split; [done|]. split.
  { intros Hv. destruct (radis_visibility h (with_removal c (Some removed) reason) o) eqn:E; [|done]. exfalso. by apply Hv, Hflap. }
  intros l d Hk Hnew Hl Hadmit c' o' Hnone Ho Hne Hlat Hlon Halt. unfold radis_Lifecycle in Hl. rewrite Hk, Hnew in Hl. injection Hl as <-. cbn [ld_Admit] in Hadmit.
  apply andb_true_iff in Hadmit as [Hadmit Hagl]. apply andb_true_iff in Hadmit as [_ Hd].
  apply admitted_stays; [done|done|by rewrite Hlat, Hlon|]. rewrite Ho, Halt. unfold str_empty. by rewrite (proj2 (str_eqb_neq _ _) Hne).
Qed.

(** ** What may happen to the state of a strip on the board *)

(** [now] is the reading of the clock that decides, [by_hand] whether a controller
    restores the strip. *)
Inductive board_change (h : radis) (by_hand : bool) (now : Time) : option StripBoardState → option StripBoardState → Prop :=
| change_none state : board_change h by_hand now state state
| change_created : board_change h by_hand now None (Some (mk_board_state (Some now) no_annotations None "" false))
| change_annotated st a : bs_RemovedAt st = None → board_change h by_hand now (Some st) (Some (set_annotations a st))
| change_removed st stamp reason : bs_RemovedAt st = None →
    board_change h by_hand now (Some st) (Some (set_visibility stamp (mk_visibility false reason) st))
| change_restored st t stamp : bs_RemovedAt st = Some t → ns t ≤ ns now → ns now < ns (recovery_end h t) → by_hand || negb (str_eqb (bs_RemovalReason st) "manual") = true →
    board_change h by_hand now (Some st) (Some (set_visibility stamp (mk_visibility true "") st)).

Definition board_of (row : option BoardStrip) : option StripBoardState := row ≫= s_BoardState.

(** Writers of other columns *)
Definition quiet (others : nat → option BoardStrip → option BoardStrip) : Prop := ∀ i row, board_of (others i row) = board_of row.

Inductive BoardOperation :=
| OpRemove (revision : StripRevision)
| OpRestore (revision : StripRevision)
| OpAnnotate (edit : StripAnnotation) (revision : StripRevision)
| OpDisconnect (reason : string)
| OpReport (o : Observation)
| OpInitialize.

Definition by_hand (op : BoardOperation) : bool := match op with OpRestore _ => true | _ => false end.

Section board.
Context `{GoMath} (d : AirportDefinition) (settings : RADISSettings) (session : Z).
Local Abbreviation b := (radis_bound d settings).
Local Abbreviation h := (radis_handler d settings).

Definition operate (human : bool) (ensured authority : outcome unit) (position : string) (clock : nat → Time) (others : nat → option BoardStrip → option BoardStrip)
  (op : BoardOperation) (row : option BoardStrip) : option BoardStrip * outcome unit :=
  match op with
  | OpRemove revision => RemoveStripBoardEntry b session human ensured authority position clock others revision row
  | OpRestore revision => RestoreStripBoardEntry b session human ensured authority position clock others revision row
  | OpAnnotate edit revision => AnnotateStrip b session human ensured authority position clock others edit revision row
  | OpDisconnect reason => removeBoardStripAutomatic b session human clock others reason row
  | OpReport o => reconcileStripVisibility b session clock others o row
  | OpInitialize => initializeStripBoardState b session clock others row
  end.

(** The conditional write keeps the state or replaces it. *)
Lemma conditional_write id version state row row' updated :
  UpdateStripBoardState session id version state row = (row', updated) → board_of row' = if updated then Some state else board_of row.
Proof. unfold UpdateStripBoardState. destruct row as [r|]; [destruct (_ && _)|]; by intros [= <- <-]. Qed.

Lemma clear_seen row : board_of (ClearEuroscopeSeen row) = board_of row.
Proof. by destruct row. Qed.

(** The decision of an action on the board *)
Lemma action_decides c name request dec f :
  b_actions b !! name = Some f → Bound_Action b c name request = Ok dec →
  ∃ decide, act_decide f = Some decide ∧
    decide (mk_context (cx_Now c) (cx_Session c) (Some (def_address (b_definition b))) (cx_Source c) (cx_Strip c) (cx_GroundOnline c)) request = Ok dec.
Proof.
  intros Hf Ha. unfold Bound_Action in Ha. apply bind_ok in Ha as (c' & Hc & Ha). apply bind_ok in Ha as (u & _ & Ha). rewrite Hf in Ha.
  apply bind_ok in Ha as (decide & Hd & Ha). apply bind_ok in Ha as (dec' & Hdec & Ha). apply bind_ok in Ha as (u' & _ & Ha). injection Ha as <-.
  exists decide. split; [destruct (act_decide f); [by injection Hd as ->|done]|]. unfold bound_context in Hc. apply bind_ok in Hc as (? & _ & Hc). by injection Hc as <-.
Qed.

Section one.
Context (human : bool) (ensured authority : outcome unit) (position : string) (clock : nat → Time) (others : nat → option BoardStrip → option BoardStrip).
Hypothesis Hquiet : quiet others.

Lemma authorized_row revision row strip :
  authorizeStripBoard b session human ensured position revision row = Ok strip → row = Some strip ∧ is_Some (s_BoardState strip).
Proof.
  unfold authorizeStripBoard. intros Ha. apply bind_ok in Ha as (u1 & _ & Ha). apply bind_ok in Ha as (u2 & _ & Ha). apply bind_ok in Ha as (u3 & _ & Ha).
  destruct row as [r|]; [|done]. apply bind_ok in Ha as (u4 & Hs & Ha). apply bind_ok in Ha as (u5 & _ & Ha). apply bind_ok in Ha as (u6 & _ & Ha).
  injection Ha as ->. split; [done|]. apply guard_err_ok in Hs. by destruct (s_BoardState strip).
Qed.

(** A decision applied to the row it was made for *)
Lemma apply_changes strip st dec row row' res (hand : bool) :
  row = Some strip → s_BoardState strip = Some st → applyStripBoardDecision session authority clock others strip dec row = (row', res) →
  board_of row' = board_of row ∨
  (de_Annotations dec ≠ None ∨ de_Visibility dec ≠ None) ∧
  board_of row' = Some (match de_Visibility dec with
    | Some v => set_visibility (clock 1%nat) v (match de_Annotations dec with Some a => set_annotations a st | None => st end)
    | None => match de_Annotations dec with Some a => set_annotations a st | None => st end end).
Proof.
  intros Hrow Hst Happ. unfold applyStripBoardDecision in Happ. destruct (is_nil (de_Annotations dec) && is_nil (de_Visibility dec)) eqn:Hnil.
  { injection Happ as <- _. by left. }
  rewrite Hst in Happ. cbn [default] in Happ. unfold persistStripBoardState in Happ. destruct authority as [[]| | |]; [|injection Happ as <- _; by left..].
  destruct (UpdateStripBoardState _ _ _ _ _) as [row1 updated] eqn:Hup. injection Happ as <- _. apply conditional_write in Hup. rewrite Hup.
  destruct updated; [right|left; apply Hquiet]. split; [|done].
  apply andb_false_iff in Hnil as [Hn|Hn]; [left|right]; intros Hx; by rewrite Hx in Hn.
Qed.

(** The state that a decision makes of a state *)
Definition decided (dec : WorkflowDecision) (st : StripBoardState) : StripBoardState :=
  let st := match de_Annotations dec with Some a => set_annotations a st | None => st end in
  match de_Visibility dec with Some v => set_visibility (clock 1%nat) v st | None => st end.

Lemma action_changes check name request revision row row' res f decide :
  b_actions b !! name = Some f → act_decide f = Some decide →
  board_action b session human ensured authority position clock others check name request revision row = (row', res) →
  board_of row' = board_of row ∨
  ∃ strip st dec c, row = Some strip ∧ s_BoardState strip = Some st ∧ check strip = Ok tt ∧ cx_Strip c = SnapshotOf (Some strip) ∧ cx_Now c = clock 0%nat ∧
    decide c request = Ok dec ∧ (de_Annotations dec ≠ None ∨ de_Visibility dec ≠ None) ∧ board_of row' = Some (decided dec st).
Proof.
  intros Hf Hdecide Hrun. unfold board_action in Hrun.
  destruct (strip ← authorizeStripBoard b session human ensured position revision row; _) as [[strip dec]| | |] eqn:Hdo; [|injection Hrun as <- _; by left..].
  apply bind_ok in Hdo as (strip' & Hauth & Hdo). apply bind_ok in Hdo as ([] & Hcheck & Hdo). apply bind_ok in Hdo as (dec' & Hact & Hdo). injection Hdo as -> ->.
  destruct (authorized_row _ _ _ Hauth) as [Hrow [st Hst]]. destruct (action_decides _ _ _ _ _ Hf Hact) as (decide' & Hd' & Hdec).
  rewrite Hdecide in Hd'. injection Hd' as <-. destruct (apply_changes strip st dec row row' res true Hrow Hst Hrun) as [Hsame|[Hsome Hnew]]; [by left|right].
  eexists strip, st, dec, _. split; [done|]. split; [done|]. split; [done|]. split; [|split; [|split; [exact Hdec|]]]; [done|done|]. split; [done|exact Hnew].
Qed.

Lemma remove_changes revision row row' res :
  RemoveStripBoardEntry b session human ensured authority position clock others revision row = (row', res) →
  board_change h false (clock 0%nat) (board_of row) (board_of row').
Proof.
  intros Hrun. edestruct (action_changes (λ _, Ok tt) "strip.remove" RequestRemoval revision row row' res) as [->|(strip & st & dec & c & -> & Hst & _ & Hc & _ & Hdec & Hsome & ->)];
    [reflexivity|reflexivity|exact Hrun|constructor|]. cbn in Hdec. unfold radis_remove in Hdec. rewrite Hc in Hdec. cbn [SnapshotOf sn_RemovedAt] in Hdec. rewrite Hst in Hdec.
  cbn [board_of mbind option_bind]. rewrite Hst. destruct (bs_RemovedAt st) eqn:Hr; injection Hdec as <-; [by destruct Hsome|]. by apply change_removed.
Qed.

Lemma restore_changes revision row row' res :
  RestoreStripBoardEntry b session human ensured authority position clock others revision row = (row', res) →
  board_change h true (clock 0%nat) (board_of row) (board_of row').
Proof.
  intros Hrun. edestruct (action_changes (λ _, Ok tt) "strip.restore" RequestRestoration revision row row' res) as [->|(strip & st & dec & c & -> & Hst & _ & Hc & Hnow & Hdec & Hsome & ->)];
    [reflexivity|reflexivity|exact Hrun|constructor|]. cbn in Hdec. unfold radis_restore in Hdec. rewrite Hc in Hdec. cbn [SnapshotOf sn_RemovedAt] in Hdec. rewrite Hst in Hdec.
  cbn [board_of mbind option_bind]. rewrite Hst. destruct (bs_RemovedAt st) as [t|] eqn:Hr; [|by injection Hdec as <-; destruct Hsome].
  apply bind_ok in Hdec as (u & Hg & Hdec). injection Hdec as <-. apply guard_err_ok, orb_false_iff in Hg as [H1 H2]. rewrite Hnow in H1, H2.
  unfold before in H1, H2. apply (change_restored _ _ _ st t (clock 1%nat)); [done|lia|lia|done].
Qed.

Lemma annotate_changes edit revision row row' res :
  AnnotateStrip b session human ensured authority position clock others edit revision row = (row', res) →
  board_change h false (clock 0%nat) (board_of row) (board_of row').
Proof.
  intros Hrun. edestruct (action_changes (λ strip, guard_err (not_nil (s_BoardState strip ≫= bs_RemovedAt)) (RejectAction "restore the removed strip before editing"))
      "strip.annotate" (RequestAnnotation edit) revision row row' res) as [->|(strip & st & dec & c & -> & Hst & Hcheck & Hc & _ & Hdec & Hsome & ->)];
    [reflexivity|reflexivity|exact Hrun|constructor|]. cbn in Hdec.
  apply guard_err_ok in Hcheck. rewrite Hst in Hcheck. cbn [mbind option_bind] in Hcheck.
  assert (Hform : ∃ a, dec = annotated a) by (unfold radis_annotate in Hdec; destruct (sn_Annotations (cx_Strip c)); repeat (first [by eexists; injection Hdec as <- | apply bind_ok in Hdec as (? & _ & Hdec) | case_match]); done).
  destruct Hform as [a ->]. cbn [board_of mbind option_bind]. rewrite Hst. apply change_annotated. by destruct (bs_RemovedAt st).
Qed.

(** An attempt changes nothing, or it makes one change and is the last one. *)
Definition attempts_once (attempt : nat → option BoardStrip → option BoardStrip * outcome bool) : Prop := ∀ i row row' r,
  attempt i row = (row', r) → board_of row' = board_of row ∨ r = Ok true ∧ ∃ k, board_change h false (clock k) (board_of row) (board_of row').

Lemma attempts_change n i attempt row row' res :
  attempts_once attempt → attempts n i attempt row = (row', res) → ∃ k, board_change h false (clock k) (board_of row) (board_of row').
Proof.
  intros Hatt. revert i row. induction n as [|n IH]; intros i row Hrun; cbn in Hrun; [injection Hrun as <- _; exists 0%nat; constructor|].
  destruct (attempt i row) as [row1 r] eqn:Hone. destruct (Hatt _ _ _ _ Hone) as [Hsame|[-> [k Hk]]].
  - destruct r as [[]| | |]; try (injection Hrun as <- _; exists 0%nat; rewrite Hsame; constructor).
    destruct (IH _ _ Hrun) as [k Hk]. exists k. by rewrite <-Hsame.
  - injection Hrun as <- _. by exists k.
Qed.

Lemma commit_changes i strip state row row' ok :
  commitStripVisibility session others i strip state row = (row', ok) → board_of row' = if ok then Some state else board_of row.
Proof. intros Hc. apply conditional_write in Hc. rewrite Hc. destruct ok; [done|apply Hquiet]. Qed.

Lemma reconcile_once o : attempts_once (reconcile_attempt b session clock others o).
Proof.
  intros i row row' r Hrun. unfold reconcile_attempt in Hrun. destruct row as [strip|]; [|injection Hrun as <- _; by left].
  destruct (Bound_Observe b _ o) as [dec| | |] eqn:Hobs; [|injection Hrun as <- _; by left..].
  destruct (de_Visibility dec) as [v|] eqn:Hv; [|injection Hrun as <- _; by left].
  destruct (s_BoardState strip) as [st|] eqn:Hst; [|injection Hrun as <- _; by left].
  destruct (commitStripVisibility _ _ _ _ _) as [row1 ok] eqn:Hcommit. injection Hrun as <- <-. apply commit_changes in Hcommit. rewrite Hcommit.
  destruct ok; [right|by left]. split; [done|]. exists (2 * i)%nat. cbn [board_of mbind option_bind]. rewrite Hst.
  unfold Bound_Observe in Hobs. apply bind_ok in Hobs as (c & Hc & Hobs). apply bind_ok in Hobs as (dec' & Hdec & Hobs). apply bind_ok in Hobs as (? & _ & Hobs).
  injection Hobs as ->. unfold bound_context in Hc. apply bind_ok in Hc as (? & _ & Hc). injection Hc as <-. injection Hdec as <-. cbn [de_Visibility] in Hv.
  assert (Hvis : ∃ c, cx_Strip c = SnapshotOf (Some strip) ∧ cx_Now c = clock (2 * i)%nat ∧ radis_visibility h c o = Some v).
  { destruct (ob_Kind o); try done; (eexists; split_and!; [| |exact Hv]; done). }
  destruct Hvis as (c & Hcs & Hnow & Hvis). unfold radis_visibility in Hvis. cbv zeta in Hvis. rewrite Hcs in Hvis. cbn [SnapshotOf sn_RemovedAt sn_RemovalReason] in Hvis.
  rewrite Hst, Hnow in Hvis. destruct (negb _ || _); [done|]. destruct (bs_RemovedAt st) as [t|] eqn:Ht.
  - destruct (_ && _) eqn:Hall; [|done]. injection Hvis as <-. repeat (apply andb_true_iff in Hall as [Hall ?]).
    apply (change_restored _ _ _ st t); [done|unfold before in *; lia|unfold before in *; lia|]. by rewrite Hall.
  - destruct (_ && _); [injection Hvis as <-; by constructor|]. destruct (flt _ _); [injection Hvis as <-; by constructor|done].
Qed.

Lemma remove_once reason : attempts_once (remove_attempt b session clock others reason).
Proof.
  intros i row row' r Hrun. unfold remove_attempt in Hrun. destruct row as [strip|]; [|injection Hrun as <- _; by left].
  destruct (s_BoardState strip) as [st|] eqn:Hst; [|injection Hrun as <- _; by left].
  destruct (Bound_Lifecycle b _ _) as [ld| | |] eqn:Hlife; [|injection Hrun as <- _; by left..].
  destruct (ld_Visibility ld) as [v|] eqn:Hv; [|injection Hrun as <- _; by left].
  destruct (negb (vi_Visible v) && _) eqn:Hskip; [injection Hrun as <- _; by left|].
  destruct (commitStripVisibility _ _ _ _ _) as [row1 ok] eqn:Hcommit. injection Hrun as <- <-. apply commit_changes in Hcommit.
  assert (Hrow : board_of (if ok then ClearEuroscopeSeen row1 else row1) = board_of row1) by (destruct ok; [apply clear_seen|done]).
  rewrite Hrow, Hcommit. destruct ok; [right|by left]. split; [done|]. exists 0%nat. cbn [board_of mbind option_bind]. rewrite Hst.
  assert (Hhide : v = mk_visibility false reason).
  { unfold Bound_Lifecycle in Hlife. apply bind_ok in Hlife as (c & _ & Hlife). apply bind_ok in Hlife as (ld' & Hld & Hlife).
    assert (ld' = ld) as -> by (destruct (ld_Visibility ld'); [by apply bind_ok in Hlife as (? & _ & [= ->])|by injection Hlife as ->]).
    injection Hld as <-. cbn [ld_Visibility] in Hv. destruct (_ && _); [|done]. by injection Hv as <-. }
  subst v. cbn [vi_Visible negb andb] in Hskip. apply change_removed. by destruct (bs_RemovedAt st).
Qed.

Lemma initialize_once : attempts_once (initialize_attempt session clock others).
Proof.
  intros i row row' r Hrun. unfold initialize_attempt in Hrun. destruct row as [strip|]; [|injection Hrun as <- _; by left].
  destruct (not_nil (s_BoardState strip)) eqn:Hn; [injection Hrun as <- _; by left|].
  destruct (commitStripVisibility _ _ _ _ _) as [row1 ok] eqn:Hcommit. injection Hrun as <- <-. apply commit_changes in Hcommit. rewrite Hcommit.
  destruct ok; [right|by left]. split; [done|]. exists i. cbn [board_of mbind option_bind]. destruct (s_BoardState strip); [done|]. constructor.
Qed.

(** Every operation makes at most one change that is allowed. *)
Lemma operate_changes op row row' res :
  operate human ensured authority position clock others op row = (row', res) → ∃ k, board_change h (by_hand op) (clock k) (board_of row) (board_of row').
Proof.
  destruct op; cbn [operate by_hand]; intros Hrun.
  - exists 0%nat. by eapply remove_changes.
  - exists 0%nat. by eapply restore_changes.
  - exists 0%nat. by eapply annotate_changes.
  - unfold removeBoardStripAutomatic in Hrun. destruct human; [injection Hrun as <- _; exists 0%nat; constructor|]. by eapply attempts_change, Hrun; apply remove_once.
  - eapply attempts_change, Hrun. apply reconcile_once.
  - eapply attempts_change, Hrun. apply initialize_once.
Qed.
End one.
End board.

(** Every operation on the board of an airport changes the state of a strip at
    most once, and only as [board_change] allows: a strip without a state gets a blank
    one, a shown strip is annotated or removed, and a removed one is restored within
    its recovery time, counted from the moment it was removed, by a controller or,
    unless it was removed by hand, by a report. A retry after a conflict with another
    writer makes no second change. *)
Theorem board_operations_allowed `{GoMath} d settings session human ensured authority position clock others op row row' res :
  quiet others → operate d settings session human ensured authority position clock others op row = (row', res) →
  ∃ k, board_change (radis_handler d settings) (by_hand op) (clock k) (board_of row) (board_of row').
Proof. intros Hq Hrun. by eapply operate_changes. Qed.

(** One step of a board: an operation that [may] run with these readings of the
    clock, while others write other columns, or a write of other columns *)
Inductive board_step `{GoMath} (d : AirportDefinition) (settings : RADISSettings) (may : BoardOperation → (nat → Time) → Prop) : option BoardStrip → option BoardStrip → Prop :=
| step_operation session human ensured authority position clock others op row row' res :
    quiet others → may op clock → operate d settings session human ensured authority position clock others op row = (row', res) → board_step d settings may row row'
| step_other row row' : board_of row' = board_of row → board_step d settings may row row'.

(** C25: A removed strip stays removed, with the same time and reason and the same
    annotations, through any sequence of annotations, removals, disconnections,
    reports and admissions, when it was removed by hand and no controller restores it;
    and when its recovery time is over, even through restorations. *)
Theorem removal_lasts `{GoMath} d settings st t row row' :
  board_of row = Some st → bs_RemovedAt st = Some t →
  rtc (board_step d settings (λ op clock, bs_RemovalReason st = "manual"%string ∧ by_hand op = false ∨
    ∀ k, ns (recovery_end (radis_handler d settings) t) ≤ ns (clock k))) row row' →
  board_of row' = Some st.
Proof.
  intros Hrow Ht Hrun. revert Hrow. induction Hrun as [row|row row1 row' Hstep _ IH]; intros Hrow; [done|]. apply IH.
  destruct Hstep as [session human ensured authority position clock others op row row1 res Hq Hmay Hop|row row1 Hsame]; [|by rewrite Hsame].
  destruct (operate_changes d settings session human ensured authority position clock others Hq op row row1 res Hop) as [k Hk]. rewrite Hrow in Hk.
  inversion Hk as [state|h1|st' a Hnone|st' stamp reason Hnone|st' t' stamp Ht' Hfrom Hto Hhand]; subst; try congruence.
  exfalso. rewrite Ht in Ht'. injection Ht' as <-. destruct Hmay as [[Hman Hauto]|Hlate]; [|specialize (Hlate k); lia].
  rewrite Hman, Hauto in Hhand. done.
Qed.

(** ** Concrete runs *)

Definition ekyt_state : StripBoardState := mk_board_state (Some (moment 0)) no_annotations None "" false.
Definition ekyt_strip : BoardStrip :=
  mk_strip 5 3 1 "EKYT" "EKCH" "ACTIVE" None (Some "TAXI"%string) false "" None true (Some (moment 0)) false (Some ekyt_state) false.

Definition ekyt_operate (seconds : Z) (op : BoardOperation) (row : option BoardStrip) : option BoardStrip * outcome unit :=
  operate (H := flat_math) ekyt ekyt_settings 1 (match op with OpReport _ | OpDisconnect _ | OpInitialize => false | _ => true end) (Ok tt) (Ok tt) "" (λ _, moment seconds)
    (λ _ row, row) op row.

(** The strip is removed by hand. *)
Definition ekyt_removed : option BoardStrip := Eval vm_compute in (ekyt_operate 10 (OpRemove (mk_revision 5 3 "r1")) (Some ekyt_strip)).1.

Definition ekyt_removed_state : StripBoardState := set_visibility (moment 10) (mk_visibility false "manual") ekyt_state.

Definition ekyt_report (altitude : Z) : Observation := mk_observation FullFlight "EKYT" "EKCH" "TAXI" false 0%Q 0%Q altitude.

Lemma visibility_never_flaps_witness :
  let h := radis_handler ekyt ekyt_settings in
  let c := mk_context (moment 20) 1 None ObservationSource (SnapshotOf (Some ekyt_strip)) false in
  bounds_apart ekyt_settings ∧
  radis_visibility (H := flat_math) h (with_removal c (Some (moment 10)) "distance") (ekyt_report 100) = Some (mk_visibility true "") ∧
  radis_visibility (H := flat_math) h (with_removal c None "") (ekyt_report 100) = None.
Proof.
  intros h c. assert (Hb : bounds_apart ekyt_settings) by (repeat split; by vm_compute).
  split; [exact Hb|]. split; [by vm_compute|].
  apply (visibility_never_flaps (H := flat_math) h c (ekyt_report 100) (moment 10) "distance" Hb). by vm_compute.
Defined.

Lemma board_operations_allowed_witness :
  let row' := (ekyt_operate 10 (OpRemove (mk_revision 5 3 "r1")) (Some ekyt_strip)).1 in
  board_of row' = Some ekyt_removed_state ∧
  ∃ k : nat, board_change (radis_handler ekyt ekyt_settings) false (moment 10) (Some ekyt_state) (board_of row').
Proof.
  cbv zeta. split; [by vm_compute|].
  destruct (board_operations_allowed (H := flat_math) ekyt ekyt_settings 1 true (Ok tt) (Ok tt) "" (λ _, moment 10) (λ _ row, row) (OpRemove (mk_revision 5 3 "r1"))
    (Some ekyt_strip) (ekyt_operate 10 (OpRemove (mk_revision 5 3 "r1")) (Some ekyt_strip)).1 (ekyt_operate 10 (OpRemove (mk_revision 5 3 "r1")) (Some ekyt_strip)).2) as [k Hk];
    [by intros i row|by vm_compute|]. exists k. exact Hk.
Defined.

(** A report near the airport after the removal by hand, which would make a strip reappear that was removed for its distance *)
Lemma removal_lasts_witness :
  let reported := (ekyt_operate 20 (OpReport (ekyt_report 100)) ekyt_removed).1 in
  board_of ekyt_removed = Some ekyt_removed_state ∧ board_of reported = Some ekyt_removed_state.
Proof.
  cbv zeta. split; [by vm_compute|].
  apply (removal_lasts (H := flat_math) ekyt ekyt_settings ekyt_removed_state (moment 10) ekyt_removed); [by vm_compute|done|].
  apply rtc_once. apply (step_operation ekyt ekyt_settings _ 1 false (Ok tt) (Ok tt) "" (λ _, moment 20) (λ _ row, row) (OpReport (ekyt_report 100)) ekyt_removed _
    (ekyt_operate 20 (OpReport (ekyt_report 100)) ekyt_removed).2); [by intros i row|by left|by vm_compute].
Defined.

(** The same report when the strip was removed for its distance *)
Example far_strip_reappears :
  board_of (ekyt_operate 20 (OpReport (ekyt_report 100)) (Some (set_board_state ekyt_strip 4 (Some (set_visibility (moment 10) (mk_visibility false "distance") ekyt_state))))).1 =
  Some ekyt_state.
Proof. by vm_compute. Qed.
